(* ===== verification/_CoqProject ===== *)
-Q . S2P
Prelude.v
CLib.v
Ring.v
LogBuffer.v
LogBackend.v
AppContext.v
Json.v
Devfs.v
DevfsTree.v
DevfsSpec.v
DevfsState.v
DevfsPart.v
DevfsAccess.v
Gpio.v
GpioSpec.v
RgbLed.v
RgbLedSpec.v
LedColors.v
DeviceTree.v
AdbProtocol.v
AdbFraming.v
AdbInvariant.v
AdbSpec.v
AdbTransport.v
AdbUsb.v
AdbUsbInv.v
AdbUsbSpec.v
AdbService.v
ShellExec.v
AdbShell.v
AdbShellAllow.v
AdbShellInv.v
AdbShellSpec.v
AdbShellCommand.v
AdbLogcat.v
AdbLogcatSpec.v
HttpClient.v
HttpClientSpec.v
AdbSync.v
AdbSyncPaths.v
AdbSyncInv.v
AdbSyncSpec.v
AdbSyncFs.v
AdbSyncUpload.v
AppFs.v
DeviceFs.v
FileService.v
Ota.v
HttpServer.v
HttpTransaction.v
HttpServerInv.v
HttpServerSpec.v
OtaSpec.v
HttpDemo.v
SampleDrivers.v
WasmMemory.v
WasmHost.v
WasmHostSpec.v
DeviceHost.v
SampleApps.v
AppLogic.v
DriverSteps.v
SampleAppsSpec.v
HostHttp.v
SudokuSpec.v
WasmHeap.v
SharedHeapDemo.v
WasmExec.v
WasmExecSpec.v
WasmService.v
WasmServiceSpec.v
WasmDemo.v
SampleDemo.v
SudokuDemo.v
Wifi.v
Startup.v
Composed.v
ComposedSpec.v
StartupDemo.v
