(* ===== verification/Prelude.v ===== *)
(** * WebOS firmware: a verification development

    WebOS is firmware for an ESP32-S3 on Zephyr: it runs WebAssembly
    applications, serves a file system and a web interface, and is reached over
    USB with the Android debug bridge (ADB).  This development models the parts
    of src/ that carry logic of their own and proves what makes them correct.

    ** Parts and files

    - src/app/src/services/log_buffer/log_buffer.c: LogBuffer.v, over the byte
      ring of Ring.v.  [log_state] is the static state; the operations under
      the lock are functions on it.  LogBackend.v has the log backend that
      feeds it, over any formatter ([LogOutput]).
    - src/app/src/services/app/app_context.c: AppContext.v, the identity, path
      and URL checks applications are confined by.
    - src/app/src/utils/json/json.c: Json.v, escaping and string lookup.
    - src/lib/devfs/devfs.c: Devfs.v, the /dev tree as the heap of nodes the
      code keeps (children lists sorted by name, parent pointers, open counts)
      with handles pointing into it.  DevfsTree.v has its well-formedness and
      what linking and unlinking a leaf do to it, DevfsSpec.v the specification
      of lookup, registration, pruning and removal, DevfsState.v the reachable
      states of the file system with its handles.
    - src/drivers/webos_gpio and src/drivers/webos_rgbled: Gpio.v, GpioSpec.v,
      RgbLed.v and RgbLedSpec.v, device files registered with devfs; LedColors.v
      has the grammar of what is written to a strip.  Their callbacks are [devfs_file_ops] of Devfs.v.  DevfsPart.v lets several
      drivers share one board: each has its part of the hardware state ([Part])
      and its operations are lifted to the whole ([lift_ops]).  DevfsAccess.v
      has what opening, reading, writing and closing a registered file does,
      DeviceTree.v the tree that the registrations of both drivers build, and
      DriverSteps.v whole accesses to their files.
    - src/lib/adb/adb_protocol.c: AdbProtocol.v, the engine; the transport, the
      heap and the reboot timer are the class [AdbEnv], the services the class
      [AdbServices], whose callbacks are finite interactions with the engine
      ([prog]).  AdbFraming.v treats packet framing and reassembly,
      AdbInvariant.v the preservation of the invariant by every function,
      AdbSpec.v the reachable states and the properties.
    - the services: AdbService.v gives callbacks a monad and a logic of
      outcomes ([wp]); AdbSync.v models src/lib/adb/adb_sync.c over any file
      system ([SyncFs]), AdbSyncPaths.v its path checks, AdbSyncInv.v and
      AdbSyncSpec.v its invariant and confinement, AdbSyncFs.v the behaviour of
      a file system uploads rely on with an instance in memory, AdbSyncUpload.v
      the correctness of uploads.
      ShellExec.v models src/lib/shell_exec/shell_exec.c over any shell
      backend and AdbShell.v src/lib/adb/adb_shell.c over the interface
      [ShellExecutor] it provides; AdbShellAllow.v treats the allowlist,
      AdbShellInv.v the invariant, AdbShellSpec.v interactive sessions and
      AdbShellCommand.v one-shot commands.  AdbLogcat.v models
      src/lib/adb/adb_logcat.c, fed by the log buffer, and AdbLogcatSpec.v
      interleaves the locked
      sections of both: any number of threads log, and each calls the listener
      at a later moment than its message entered the buffer.
    - src/lib/adb/transports/adb_usb.c, adb.c and adb_reboot.c: AdbUsb.v, over
      any USB device stack ([UsbStack]); it is an instance of [AdbEnv].
      AdbTransport.v carries an invariant of the environment through the engine,
      AdbUsbInv.v has the invariant of the transport's sections, AdbUsbSpec.v the
      engine and the transport together.
    - src/app/src/services/http_client/http_client.c: HttpClient.v, over any
      network stack ([NetStack]) and URL parser, and HttpClientSpec.v.
    - src/app/src/services/fs/fs.c: FileService.v, over the file system of AppFs.v,
      which also has an instance in memory.
    - src/app/src/services/ota/ota.c: Ota.v, over the flash image library
      ([FlashImg]); OtaSpec.v has complete uploads.
    - src/app/src/services/http/http_handlers.c and http.c: HttpServer.v, the
      handlers with their static arrays; HttpTransaction.v has a request that
      comes in any number of pieces ([BodyHandler]), HttpServerInv.v the
      invariant of the arrays and of updates, HttpServerSpec.v what each
      request does, HttpDemo.v instances.
    - src/app/src/services/iwasm/iwasm.c: WasmMemory.v, the memory of an
      application; WasmHost.v, the host functions, and what an application can
      do ([behaviour]); WasmHostSpec.v, its confinement; WasmHeap.v, the
      allocator, over the shared heap of which SharedHeapDemo.v is an instance;
      WasmExec.v and WasmExecSpec.v, the execution of a file, over any runtime
      ([Wamr]); WasmService.v and WasmServiceSpec.v, the hand-over of commands
      from shells to the execution thread; WasmDemo.v instances.
    - src/sampleapps: SampleApps.v has the C programs as applications that call the
      host ([App] is their monad, with memory and calls).  DeviceFs.v mounts
      devfs on a file system ([MountedDevfs]), DeviceHost.v has the host calls on
      device files, HostHttp.v what an application finds after a request;
      AppLogic.v is a program logic ([triple]) for them.  SampleAppsSpec.v proves
      what blink, native_blink and led_colors do down to the pins and strips,
      SudokuSpec.v what sudoku prints; SampleDemo.v and SudokuDemo.v run them.
    - src/drivers/blink, src/include/app/drivers/blink.h, src/drivers/sensor and
      src/lib/custom: SampleDrivers.v, over any GPIO controller ([DtGpio]).
    - src/app/src/hal/wifi/wifi.c: Wifi.v, over any Wi-Fi stack ([WifiStack]).
    - src/app/src/main.c and services/ssh/ssh.c: Startup.v, over the interface
      [Services], which Composed.v builds from the other models, with one file
      system, HTTP client and device tree for services and applications.
      ComposedSpec.v shows what devices start-up leaves; StartupDemo.v starts
      a board and runs an application on it.
    - CLib.v has the C and Zephyr library functions the sources use (error
      numbers, little-endian words, string functions, numbers as text); this
      file the machine integers, bytes and arrays.

    ** How the code is rendered

    Static variables and structs are records passed from function to function;
    every function of the source is a definition of the same name that returns
    its result and the new state.  Errors are the negative integers of the
    source.  [uint32_t] and [uint16_t] values are integers with their
    wrap-around written out ([u32]); sizes are naturals.  A C array is a list of
    its length and a copy into it is [write_at], which makes the list longer
    when the copy leaves the array: that an operation preserves the lengths of
    its arrays says that it stays within bounds.  A C string is the list of its
    bytes before the NUL.  Code not under src/ - Zephyr, its drivers and file
    system, the heap - is a parameter: a class whose theorems hold for every
    instance, with the laws a theorem needs as a second class
    ([SyncFsLaws]).  Code that runs under a lock is one step; interleavings are
    sequences of steps.

    ** What the theorems show

    - Refinement: the log buffer keeps the last bytes put into it; registration
      and removal in devfs are insertion into and deletion from a map of paths;
      an interactive shell session is a terminal that is a function of the bytes
      typed; the USB endpoint carries the packets the engine sent, in order;
      the allocator of the WebAssembly runtime is a map of addresses; the device
      files after main, when it reports the drivers healthy, are exactly those
      of the pins and strips.
    - Invariants of every reachable state: the engine of ADB under any peer,
      transport and services; devfs under any interleaving, with no dangling
      handle; the contexts of the sync service under any client; the arrays of
      the web interface under any requests; the commands of any shells, each run
      once and answered with its own result.
    - Safety: stop-and-wait and order of ADB output (a packet the transport
      refuses may be sent again before an answer, and nothing else), a build without
      authentication refuses everything, applications are isolated, uploads
      touch only paths below the storage root and never expose a partial file,
      the shell runs only what the allowlist admits, a log
      session sends the buffer it found and then the messages in the order the
      listener got them, USB buffers and network sockets are never leaked or used after
      their release, and an https request leaves only on a verified connection;
      an application, whatever it does, opens and contacts only what its context
      allows and writes only into its own memory; an image is upgraded to only
      after all its writes worked, and kept only on a healthy system.
    - Liveness and termination: sessions of the shell and logcat services never
      stall, the USB OUT endpoint is posted again after each transfer, a command
      that has the execution lock is answered, connecting to Wi-Fi returns.
    - Functional correctness and round trips: framing, any split of the input
      stream, uploads, JSON strings, the colours a write to a strip sets, GPIO files, requests of the web
      interface in any pieces, the module that runs is the one in the file; the
      applications over host, devfs and drivers: what blink does to the pin,
      led_colors to the strip and sudoku with the answer of a server, and the
      blink driver in any order of calls and timer expiries.
    - Errors and bounds: what is refused and why, escapes that are never cut,
      and the places where the code loses something, stated as they are.

    ** Bounds and fuel

    Loops that are not structural take fuel: the receive loop of ADB (the
    number of bytes, every iteration consumes at least one), its
    control pump (the queue length), [prune_loop] of devfs (the number of
    nodes), the write loop of the sync service (twice the bytes: an iteration
    consumes a byte or leaves a state that waits for none), the line loop of
    the header check (the length of the text).  Theorems state that
    the fuel suffices.  devfs assumes fewer than 65536 handles at a time, below
    the wrap-around of its 16-bit open counts.

    ** Not modelled

    The effect of [k_free] and NULL data pointers of internal calls; the texts of
    log messages of the firmware itself.  The [wire] field of the ADB engine, the [trace] of the USB
    transport and of executions, the [calls] of the HTTP client and of updates,
    the [events] of the host and of start-up, the [session_log] of logcat, the [history] of Wi-Fi and the
    lists of the execution service are ghost histories no definition reads.
    The work item that reboots after an update, mounting, and the tables of
    descriptors and device instances are declarations for Zephyr.  The threads of
    the board take turns at device files as devfs lets them (DevfsState.v), but the
    theorems about whole applications assume that while an application sleeps no
    other thread uses the device files ([MountedDevfs], [device_wait]); the
    listener of the log buffer is not called from them.  The Rust programs of
    sampleapps are in another language; undefined behaviour of the C programs
    there - the overflow of a number in an argument - wraps around.  Paths are
    compared as strings: that the FAT file system of the board takes two of them
    for one file ([SyncFsLaws]) is not modelled.  The macros
    that instantiate the drivers from the device tree are represented by the lists
    of devices. *)

From Stdlib Require Import ZArith Lia NArith.
From Stdlib Require Import Strings.Byte.
From stdpp Require Import base numbers list list_numbers strings countable sets gmap.

#[global] Set Default Goal Selector "!".

Declare Scope webos_scope.
Delimit Scope webos_scope with webos.

(** ** Machine integers *)

(** Values of [uint32_t] are integers modulo 2^32. *)
Definition u32 (z : Z) : Z := (z mod 2 ^ 32)%Z.

(** [UINT32_MAX]. *)
Definition UINT32_MAX : Z := 4294967295%Z.

Lemma u32_range z : (0 <= u32 z < 2 ^ 32)%Z.
Proof. unfold u32. apply Z.mod_pos_bound. lia. Qed.

Lemma u32_small z : (0 <= z < 2 ^ 32)%Z -> u32 z = z.
Proof. unfold u32. apply Z.mod_small. Qed.

Lemma u32_idemp z : u32 (u32 z) = u32 z.
Proof. apply u32_small, u32_range. Qed.

Lemma u32_add_l a b : u32 (u32 a + b) = u32 (a + b).
Proof. unfold u32. apply Zplus_mod_idemp_l. Qed.

(** ** Bytes *)

#[global] Instance byte_eq_decision : EqDecision byte := Byte.byte_eq_dec.

(** The value of a byte read as an [unsigned char]. *)
Definition bval (b : byte) : Z := Z.of_N (Byte.to_N b).

(** Conversion to [uint8_t]: the value modulo 256. *)
Definition byte_of_Z (z : Z) : byte :=
  match Byte.of_N (Z.to_N (z mod 256)) with
  | Some b => b
  | None => x00
  end.

Lemma bval_range b : (0 <= bval b < 256)%Z.
Proof. unfold bval. pose proof (Byte.to_N_bounded b). lia. Qed.

Lemma bval_byte_of_Z z : bval (byte_of_Z z) = (z mod 256)%Z.
Proof.
  unfold bval, byte_of_Z.
  pose proof (Z.mod_pos_bound z 256 ltac:(lia)) as Hr.
  destruct (Byte.of_N _) as [b|] eqn:E.
  - apply Byte.to_of_N in E. rewrite E. lia.
  - apply Byte.of_N_None_iff in E. lia.
Qed.

Lemma bval_inj a b : bval a = bval b -> a = b.
Proof.
  unfold bval. intros H%N2Z.inj.
  pose proof (Byte.of_to_N a) as Ha. pose proof (Byte.of_to_N b) as Hb.
  rewrite H in Ha. congruence.
Qed.

Lemma byte_of_Z_bval b : byte_of_Z (bval b) = b.
Proof.
  apply bval_inj. rewrite bval_byte_of_Z. apply Z.mod_small, bval_range.
Qed.

#[global] Instance byte_countable : Countable byte.
Proof.
  refine (inj_countable' Byte.to_N
            (fun n => match Byte.of_N n with Some b => b | None => x00 end) _).
  intros b. by rewrite Byte.of_to_N.
Defined.

(** A C string is modelled by its bytes before the terminating NUL. *)
Abbreviation cstr := (list byte).

(** The NUL character. *)
Abbreviation NUL := x00.

(** String literals of the source. *)
Definition cs (s : string) : cstr := String.list_byte_of_string s.

(** No byte of the string is NUL: what makes a byte list a C string. *)
Definition no_nul (s : cstr) : Prop := NUL ∉ s.

(** ** Arrays

    A C array of [n] elements is a list of length [n].  [write_at] is [memcpy]
    into an array (and, with a single element, an indexed store).  It keeps
    every element that is copied, so a copy that runs past the end of the array
    makes the list longer: that an operation preserves the length of its arrays
    is the statement that it stays within their bounds. *)

Section arrays.
Context {A : Type}.
Implicit Types (a src : list A).

Definition write_at a (off : nat) src : list A :=
  take off a ++ src ++ drop (off + length src) a.

Lemma length_write_at a off src :
  off + length src <= length a -> length (write_at a off src) = length a.
Proof.
  intros H. unfold write_at.
  rewrite !length_app, length_take, length_drop. lia.
Qed.

(** The converse: a write that preserves the length was within bounds. *)
Lemma write_at_in_bounds a off src :
  off <= length a -> length (write_at a off src) = length a ->
  off + length src <= length a.
Proof.
  unfold write_at. rewrite !length_app, length_take, length_drop. lia.
Qed.

Lemma write_at_nil a off : write_at a off [] = a.
Proof. unfold write_at. simpl. rewrite Nat.add_0_r. apply take_drop. Qed.

Lemma lookup_write_at_new a off src i :
  off <= length a -> off <= i < off + length src ->
  write_at a off src !! i = src !! (i - off).
Proof.
  intros Ha Hi. unfold write_at.
  rewrite lookup_app_r by (rewrite length_take; lia).
  rewrite length_take_le by lia.
  by rewrite lookup_app_l by lia.
Qed.

Lemma lookup_write_at_old a off src i :
  off + length src <= length a -> i < off \/ off + length src <= i ->
  write_at a off src !! i = a !! i.
Proof.
  intros Ha Hi. unfold write_at. destruct Hi as [Hi|Hi].
  - rewrite lookup_app_l by (rewrite length_take; lia).
    by rewrite lookup_take_lt by lia.
  - rewrite lookup_app_r by (rewrite length_take; lia).
    rewrite length_take_le by lia.
    rewrite lookup_app_r by lia. rewrite lookup_drop. f_equal. lia.
Qed.

Lemma take_write_at a off src :
  off <= length a -> take (off + length src) (write_at a off src) = take off a ++ src.
Proof.
  intros Ha. unfold write_at. rewrite app_assoc.
  rewrite take_app_le by (rewrite length_app, length_take_le by lia; lia).
  apply take_ge. rewrite length_app, length_take_le; lia.
Qed.

(** The last [n] elements of a list. *)
Definition lastn (n : nat) (l : list A) : list A := drop (length l - n) l.

Lemma length_lastn n l : length (lastn n l) = n `min` length l.
Proof. unfold lastn. rewrite length_drop. lia. Qed.

Lemma lastn_all n l : length l <= n -> lastn n l = l.
Proof. intros H. unfold lastn. replace (length l - n) with 0 by lia. done. Qed.

Lemma lastn_lookup n l i :
  i < n `min` length l -> lastn n l !! i = l !! (length l - (n `min` length l) + i).
Proof. intros H. unfold lastn. rewrite lookup_drop. f_equal. lia. Qed.

(** Truncating early does not change the suffix that is kept. *)
Lemma lastn_app_lastn n l k : lastn n (lastn n l ++ k) = lastn n (l ++ k).
Proof.
  destruct (decide (length l <= n)) as [Hl|Hl].
  { by rewrite (lastn_all n l) by done. }
  unfold lastn at 1 3. rewrite !length_app, length_lastn.
  unfold lastn. rewrite !drop_app, drop_drop, !length_drop.
  f_equal; f_equal; lia.
Qed.

Lemma list_eq_lookup_lt (l k : list A) n :
  length l = n -> length k = n -> (forall i, i < n -> l !! i = k !! i) -> l = k.
Proof.
  intros Hl Hk H. apply list_eq_same_length with (n := n); [done..|].
  intros i x y Hi Hx Hy. rewrite H in Hx by lia. congruence.
Qed.
End arrays.

(** A boolean test on every element. *)
Lemma forallb_Forall {A} (f : A -> bool) l : forallb f l = true <-> Forall (fun x => f x = true) l.
Proof.
  induction l as [|x l IH]; simpl; [split; [constructor|done]|]. by rewrite andb_true_iff, Forall_cons, IH.
Qed.

(** ** Hint databases and tactics *)

Create HintDb arr.
#[export] Hint Rewrite @length_app @length_take @length_drop @length_lastn
  @length_replicate @length_insert : arr.
#[export] Hint Rewrite @length_write_at using lia : arr.

(** [arr] closes a goal on lengths of arrays. *)
Ltac arr :=
  repeat match goal with
         | |- context [length (write_at ?a ?o ?s)] => rewrite (length_write_at a o s) by arr
         end;
  autorewrite with arr in *; simpl in *; lia.

(** Splits every [if decide _] and [match _] of the goal and closes the cases
    that are contradictory or trivial. *)
Ltac split_ifs :=
  repeat (case_decide || case_match); simplify_eq/=; try done; try lia.

(** Destructs the equations and conjunctions among the hypotheses. *)
Ltac crush := repeat (destruct_and? || destruct_or? || simplify_eq/=); eauto.
