(* ===== verification/CLib.v ===== *)
(** * What the sources use of the C and Zephyr libraries

    Error numbers, the functions of [string.h] on C strings (byte lists that
    hold no NUL), little-endian stores and loads of [sys/byteorder.h], and
    decimal and hexadecimal formatting.  Every component builds on this file. *)

From S2P Require Import Prelude.
From Stdlib Require Import ZArith Lia.
From Stdlib Require Import Strings.Byte.
From stdpp Require Import base numbers list list_numbers strings countable sets.

(** ** Error numbers

    The values of the C library Zephyr is built with.  The sources return them
    negated; no theorem depends on more than their being positive and distinct. *)

Local Open Scope Z_scope.

Definition EPERM := 1.
Definition ENOENT := 2.
Definition EIO := 5.
Definition EAGAIN := 11.
Definition ENOMEM := 12.
Definition EACCES := 13.
Definition EFAULT := 14.
Definition EBUSY := 16.
Definition EEXIST := 17.
Definition ENODEV := 19.
Definition ENOTDIR := 20.
Definition EISDIR := 21.
Definition EINVAL := 22.
Definition EFBIG := 27.
Definition ENOSPC := 28.
Definition ENODATA := 61.
Definition EBADMSG := 77.
Definition ENAMETOOLONG := 91.
Definition ECONNRESET := 104.
Definition ENOBUFS := 105.
Definition ECONNREFUSED := 111.
Definition ECONNABORTED := 113.
Definition ENETUNREACH := 114.
Definition ENETDOWN := 115.
Definition ETIMEDOUT := 116.
Definition EMSGSIZE := 122.
Definition EPROTONOSUPPORT := 123.
Definition ENOTSUP := 134.
Definition ECANCELED := 140.

(** ** Little-endian words *)

(** [sys_put_le32]: the four bytes stored. *)
Definition put_le32 (v : Z) : list byte :=
  [byte_of_Z v; byte_of_Z (Z.shiftr v 8); byte_of_Z (Z.shiftr v 16); byte_of_Z (Z.shiftr v 24)].

(** [sys_get_le32] at the start of a byte array; bytes past the end read as 0. *)
Definition get_le32 (l : list byte) : Z :=
  let b i := bval (nth i l x00) in
  Z.lor (b 0%nat) (Z.lor (Z.shiftl (b 1%nat) 8)
    (Z.lor (Z.shiftl (b 2%nat) 16) (Z.shiftl (b 3%nat) 24))).

Lemma length_put_le32 v : length (put_le32 v) = 4%nat.
Proof. done. Qed.

(** [or]ing a shifted word above a narrower one is addition. *)
Lemma lor_shiftl_add a b n :
  0 <= n -> 0 <= a < 2 ^ n -> Z.lor a (Z.shiftl b n) = a + b * 2 ^ n.
Proof.
  intros Hn Ha. rewrite <- Z.shiftl_mul_pow2 by lia.
  assert (Z.land a (Z.shiftl b n) = 0) as Hz.
  { apply Z.bits_inj'. intros i Hi.
    rewrite Z.land_spec, Z.bits_0, Z.shiftl_spec by lia.
    destruct (decide (i < n)).
    - rewrite (Z.testbit_neg_r b) by lia. apply andb_false_r.
    - rewrite <- (Z.mod_small a (2 ^ n)) by lia.
      rewrite Z.mod_pow2_bits_high by lia. done. }
  pose proof (Z.add_lor_land a (Z.shiftl b n)). lia.
Qed.

Lemma get_le32_sum (a b c d : byte) l :
  get_le32 (a :: b :: c :: d :: l)
  = bval a + bval b * 2 ^ 8 + bval c * 2 ^ 16 + bval d * 2 ^ 24.
Proof.
  unfold get_le32. simpl nth.
  pose proof (bval_range a). pose proof (bval_range b).
  pose proof (bval_range c). pose proof (bval_range d).
  rewrite !Z.lor_assoc.
  rewrite (lor_shiftl_add (bval a) _ 8) by lia.
  rewrite (lor_shiftl_add (bval a + _) _ 16) by lia.
  rewrite lor_shiftl_add by lia. lia.
Qed.

Lemma get_put_le32 v l : get_le32 (put_le32 v ++ l) = u32 v.
Proof.
  unfold put_le32. simpl app. rewrite get_le32_sum, !bval_byte_of_Z, !Z.shiftr_div_pow2 by lia.
  unfold u32. Z.div_mod_to_equations. lia.
Qed.

Lemma get_le32_range l : 0 <= get_le32 l < 2 ^ 32.
Proof.
  unfold get_le32.
  set (a := nth 0 l x00). set (b := nth 1 l x00). set (c := nth 2 l x00). set (d := nth 3 l x00).
  change (0 <= get_le32 [a; b; c; d] < 2 ^ 32). rewrite get_le32_sum.
  pose proof (bval_range a). pose proof (bval_range b).
  pose proof (bval_range c). pose proof (bval_range d). lia.
Qed.

Local Close Scope Z_scope.

(** ** String comparison *)

(** [strcmp]: lexicographic on unsigned bytes, a proper prefix being smaller.
    The sign of C's result is the [comparison]. *)
Fixpoint strcmp (a b : cstr) : comparison :=
  match a, b with
  | [], [] => Eq
  | [], _ => Lt
  | _, [] => Gt
  | x :: a', y :: b' =>
      match Z.compare (bval x) (bval y) with
      | Eq => strcmp a' b'
      | c => c
      end
  end.

(** [strncmp]: at most [n] bytes of each string take part. *)
Definition strncmp (a b : cstr) (n : nat) : comparison := strcmp (take n a) (take n b).

(** [memcmp(p, q, strlen(q)) == 0] and [strncmp(p, q, strlen(q)) == 0]. *)
Definition starts_with (pre s : list byte) : bool := bool_decide (take (length pre) s = pre).

Lemma strcmp_refl a : strcmp a a = Eq.
Proof. induction a as [|x a IH]; [done|]. simpl. by rewrite Z.compare_refl. Qed.

Lemma strcmp_eq a b : strcmp a b = Eq <-> a = b.
Proof.
  split; [|intros ->; apply strcmp_refl].
  revert b. induction a as [|x a IH]; intros [|y b]; simpl; try done.
  destruct (Z.compare_spec (bval x) (bval y)) as [E%bval_inj|?|?]; try done.
  intros H%IH. by subst.
Qed.

Lemma strcmp_antisym a b : strcmp b a = CompOpp (strcmp a b).
Proof.
  revert b. induction a as [|x a IH]; intros [|y b]; simpl; try done.
  rewrite Z.compare_antisym.
  destruct (Z.compare (bval x) (bval y)); simpl; auto.
Qed.

Lemma strcmp_trans a b c : strcmp a b = Lt -> strcmp b c = Lt -> strcmp a c = Lt.
Proof.
  revert b c. induction a as [|x a IH]; intros [|y b] [|z c]; simpl; try done.
  destruct (Z.compare_spec (bval x) (bval y)); try done;
    destruct (Z.compare_spec (bval y) (bval z)); try done; intros H1 H2.
  1: rewrite (proj2 (Z.compare_eq_iff (bval x) (bval z))) by lia; eauto.
  all: by rewrite (proj2 (Z.compare_lt_iff (bval x) (bval z))) by lia.
Qed.

Lemma strcmp_gt a b : strcmp a b = Gt <-> strcmp b a = Lt.
Proof. rewrite (strcmp_antisym a b). by destruct (strcmp a b). Qed.

(** The order on strings that [strcmp] decides. *)
Definition str_lt (a b : cstr) : Prop := strcmp a b = Lt.

#[global] Instance str_lt_dec : RelDecision str_lt.
Proof. intros a b. unfold str_lt. destruct (strcmp a b); [right|left|right]; done. Defined.

#[global] Instance str_lt_strict : StrictOrder str_lt.
Proof.
  split.
  - intros a. unfold complement, str_lt. by rewrite strcmp_refl.
  - intros a b c. unfold str_lt. apply strcmp_trans.
Qed.

(** A proper prefix is smaller. *)
Lemma strcmp_prefix a b : b <> [] -> str_lt a (a ++ b).
Proof.
  intros Hb. induction a as [|x a IH]; simpl.
  - by destruct b.
  - unfold str_lt. simpl. by rewrite Z.compare_refl.
Qed.

Lemma starts_with_spec pre s : starts_with pre s = true <-> exists k, s = pre ++ k.
Proof.
  unfold starts_with. rewrite bool_decide_eq_true. split.
  - intros H. exists (drop (length pre) s). rewrite <- H at 1. by rewrite take_drop.
  - intros [k ->]. by rewrite take_app_length.
Qed.

Lemma strncmp_starts_with s pre :
  strncmp s pre (length pre) = Eq <-> starts_with pre s = true.
Proof.
  unfold strncmp, starts_with. rewrite strcmp_eq, bool_decide_eq_true.
  by rewrite (take_ge pre) by done.
Qed.

(** [s[i]] for an index up to the terminator. *)
Definition char_at (s : cstr) (i : nat) : byte := default NUL (s !! i).

(** ** Searching *)

(** [strchr] and [memchr]: the index of the first occurrence. *)
Fixpoint strchr (s : list byte) (c : byte) : option nat :=
  match s with
  | [] => None
  | x :: s' => if decide (x = c) then Some 0 else S <$> strchr s' c
  end.

(** [strrchr]: the index of the last occurrence. *)
Fixpoint strrchr (s : list byte) (c : byte) : option nat :=
  match s with
  | [] => None
  | x :: s' =>
      match strrchr s' c with
      | Some i => Some (S i)
      | None => if decide (x = c) then Some 0 else None
      end
  end.

(** [strstr]: the index of the first occurrence of a string. *)
Fixpoint strstr (s pat : list byte) : option nat :=
  if starts_with pat s then Some 0
  else match s with
       | [] => None
       | _ :: s' => S <$> strstr s' pat
       end.

Lemma strchr_Some s c i :
  strchr s c = Some i <-> s = take i s ++ c :: drop (S i) s /\ c ∉ take i s /\ i < length s.
Proof.
  revert i. induction s as [|x s IH]; intros i; simpl.
  - split; [done|]. intros (?&?&?). lia.
  - destruct (decide (x = c)) as [->|Hx].
    + split.
      * intros [= <-]. simpl. split_and!; [done|set_solver|lia].
      * destruct i as [|i]; [done|]. simpl. intros (?&H&?). set_solver.
    + destruct i as [|i]; simpl.
      * split; [|naive_solver]. destruct (strchr s c); naive_solver.
      * split.
        -- destruct (strchr s c) as [j|]; [|done]. intros [= <-].
           destruct (proj1 (IH j) eq_refl) as (H1&H2&H3).
           split_and!; [by rewrite <- H1|set_solver|lia].
        -- intros (H1&H2&H3). injection H1 as H1.
           rewrite (proj2 (IH i)); [done|]. set_solver by lia.
Qed.

Lemma strchr_None s c : strchr s c = None <-> c ∉ s.
Proof.
  induction s as [|x s IH]; simpl; [set_solver|].
  destruct (decide (x = c)) as [->|Hx]; [set_solver|].
  rewrite fmap_None, IH. set_solver.
Qed.

Lemma strrchr_lt s c i : strrchr s c = Some i -> i < length s.
Proof.
  revert i. induction s as [|x s IH]; intros i; simpl; [done|].
  destruct (strrchr s c) as [j|]; [intros [= <-]; specialize (IH j eq_refl); lia|].
  case_decide; [|done]. intros [= <-]. lia.
Qed.

Lemma strrchr_None s c : strrchr s c = None <-> c ∉ s.
Proof.
  induction s as [|x s IH]; simpl; [set_solver|].
  destruct (strrchr s c) eqn:E.
  - split; [done|]. intros Hc. exfalso. assert (c ∉ s) as Hs by set_solver. by apply IH in Hs.
  - pose proof (proj1 IH eq_refl). case_decide; set_solver.
Qed.

(** The last occurrence. *)
Lemma strrchr_last a c b : c ∉ b -> strrchr (a ++ c :: b) c = Some (length a).
Proof.
  intros Hb. induction a as [|x a IH]; simpl; [|by rewrite IH].
  rewrite (proj2 (strrchr_None b c)) by done. by rewrite decide_True by done.
Qed.

Lemma strstr_None s pat : strstr s pat = None <-> forall a b, s <> a ++ pat ++ b.
Proof.
  induction s as [|x s IH]; simpl.
  - destruct (starts_with pat []) eqn:E.
    + split; [done|]. apply starts_with_spec in E as [k E]. intros H. by destruct (H [] k).
    + split; [|done]. intros _ a b Hab. symmetry in Hab.
      apply app_nil in Hab as [-> Hab]. apply not_true_iff_false in E. apply E.
      apply starts_with_spec. eauto.
  - destruct (starts_with pat (x :: s)) eqn:E.
    + split; [done|]. apply starts_with_spec in E as [k E]. intros H. by destruct (H [] k).
    + rewrite fmap_None, IH. apply not_true_iff_false in E. split.
      * intros H [|y a] b Hab; simpl in Hab.
        -- apply E, starts_with_spec. eauto.
        -- injection Hab as -> Hab. by apply (H a b).
      * intros H a b ->. by apply (H (x :: a) b).
Qed.

(** The string at the start of a character array. *)
Definition c_string (a : list byte) : cstr :=
  match strchr a NUL with Some i => take i a | None => a end.

Lemma length_c_string a : length (c_string a) <= length a.
Proof. unfold c_string. destruct (strchr a NUL); [rewrite length_take|]; lia. Qed.

Lemma c_string_app s l : NUL ∉ s -> c_string (s ++ NUL :: l) = s.
Proof.
  intros Hs. unfold c_string.
  assert (strchr (s ++ NUL :: l) NUL = Some (length s)) as ->; [|by rewrite take_app_length].
  apply strchr_Some. rewrite take_app_length, length_app. simpl. split_and!; [|done|lia].
  by rewrite drop_app_ge, Nat.sub_succ_l, Nat.sub_diag by lia.
Qed.

Lemma c_string_id s : NUL ∉ s -> c_string s = s.
Proof. intros Hs. unfold c_string. by rewrite (proj2 (strchr_None s NUL)). Qed.

Lemma c_string_cons x s : c_string (x :: s) = if decide (x = NUL) then [] else x :: c_string s.
Proof. unfold c_string. simpl. case_decide; [done|]. by destruct (strchr s NUL). Qed.

Lemma c_string_no_nul a : NUL ∉ c_string a.
Proof. induction a as [|x a IH]; [set_solver|]. rewrite c_string_cons. case_decide; set_solver. Qed.

(** The string ends at a NUL in the array. *)
Lemma c_string_stop b l : c_string (b ++ NUL :: l) = c_string b.
Proof. induction b as [|x b IH]; [done|]. simpl. by rewrite !c_string_cons, IH. Qed.

Lemma c_string_idem b : c_string (c_string b) = c_string b.
Proof. apply c_string_id, c_string_no_nul. Qed.

(** ** Path components

    Several functions walk a path with the same loop: find the next slash with
    [strchr], take the bytes before it (or the rest of the string) as the
    component, continue after the slash, stop at the end of the string.
    [components] lists the components that loop visits, each with whether a
    slash ended it; [components_unfold] is one iteration of the loop. *)

Definition slash : byte := "/"%byte.

Fixpoint components_from (cur s : cstr) : list (cstr * bool) :=
  match s with
  | [] => match cur with [] => [] | _ => [(cur, false)] end
  | x :: s' =>
      if decide (x = slash) then (cur, true) :: components_from [] s'
      else components_from (cur ++ [x]) s'
  end.

Definition components (s : cstr) : list (cstr * bool) := components_from [] s.

Lemma components_from_unfold cur s :
  components_from cur s =
    match strchr s slash with
    | None => match cur ++ s with [] => [] | c => [(c, false)] end
    | Some i => (cur ++ take i s, true) :: components (drop (S i) s)
    end.
Proof.
  revert cur. induction s as [|x s IH]; intros cur; simpl.
  - destruct cur; simpl; [done|]. by rewrite !app_nil_r.
  - destruct (decide (x = slash)) as [->|Hx].
    + simpl. by rewrite app_nil_r, drop_0.
    + rewrite IH. destruct (strchr s slash); simpl; by rewrite <- app_assoc.
Qed.

(** One iteration of the loop. *)
Lemma components_unfold s :
  components s =
    match s with
    | [] => []
    | _ => match strchr s slash with
           | None => [(s, false)]
           | Some i => (take i s, true) :: components (drop (S i) s)
           end
    end.
Proof.
  unfold components at 1. rewrite components_from_unfold. simpl.
  destruct s as [|x s]; [done|]. by destruct (strchr (x :: s) slash).
Qed.

(** The string a list of components was read from. *)
Fixpoint join (l : list (cstr * bool)) : cstr :=
  match l with
  | [] => []
  | (c, sl) :: l' => c ++ (if sl : bool then [slash] else []) ++ join l'
  end.

Lemma components_from_join cur s : join (components_from cur s) = cur ++ s.
Proof.
  revert cur. induction s as [|x s IH]; intros cur; simpl.
  - destruct cur; simpl; [done|]. by rewrite app_nil_r.
  - destruct (decide (x = slash)) as [->|Hx]; simpl; rewrite IH; [done|].
    by rewrite <- app_assoc.
Qed.

Lemma components_join s : join (components s) = s.
Proof. apply components_from_join. Qed.

(** No component holds a slash. *)
Lemma components_from_no_slash cur s :
  slash ∉ cur -> Forall (fun c => slash ∉ c.1) (components_from cur s).
Proof.
  revert cur. induction s as [|x s IH]; intros cur Hc; simpl.
  - destruct cur; [constructor|]. by repeat constructor.
  - destruct (decide (x = slash)) as [->|Hx].
    + constructor; [done|]. apply IH. set_solver.
    + apply IH. set_solver.
Qed.

(** Only the last component can end without a slash. *)
Lemma components_from_ended cur s c k :
  components_from cur s = c :: k -> c.2 = false -> k = [].
Proof.
  revert cur. induction s as [|x s IH]; intros cur; simpl.
  - destruct cur; by intros; simplify_eq.
  - destruct (decide (x = slash)); [by intros; simplify_eq|]. apply IH.
Qed.

Lemma components_no_slash s : Forall (fun c => slash ∉ c.1) (components s).
Proof. apply components_from_no_slash. set_solver. Qed.

(** Every component is non-empty exactly when no two slashes are adjacent,
    counting a slash before the string. *)
Definition double_slash (s : cstr) : Prop := exists a b, s = a ++ [slash; slash] ++ b.

Lemma double_slash_cons x s :
  double_slash (x :: s) <-> (x = slash /\ head s = Some slash) \/ double_slash s.
Proof.
  unfold double_slash. split.
  - intros ([|y a] & b & E); simpl in E; simplify_eq; [by left|]. right. eauto.
  - intros [[-> Hs]|(a & b & ->)].
    + destruct s as [|y s]; simplify_eq/=. by exists [], s.
    + by exists (x :: a), b.
Qed.

Lemma components_from_nonempty cur s :
  Forall (fun c => c.1 <> []) (components_from cur s)
  <-> ~ double_slash (match cur with [] => slash :: s | _ => s end).
Proof.
  revert cur. induction s as [|x s IH]; intros cur; simpl.
  - destruct cur as [|y cur].
    + rewrite double_slash_cons. split; [|by constructor].
      intros _ [[_ ?]|(a & b & E)]; [done|]. by destruct a.
    + split; [|by repeat constructor]. intros _ (a & b & E). by destruct a.
  - destruct (decide (x = slash)) as [->|Hx].
    + rewrite Forall_cons, IH. simpl. destruct cur as [|y cur].
      * split; [by intros [? _]|]. intros Hn. exfalso. apply Hn. exists [], s. done.
      * naive_solver.
    + rewrite IH. destruct (cur ++ [x]) as [|z k] eqn:E; [by destruct cur|].
      destruct cur; rewrite ?double_slash_cons; simpl; naive_solver.
Qed.

Lemma components_nonempty s :
  Forall (fun c => c.1 <> []) (components s) <-> ~ double_slash (slash :: s).
Proof. apply (components_from_nonempty []). Qed.

(** ** Numbers as text *)

(** A hexadecimal digit as [%x] prints it. *)
Definition hex_digit (n : Z) : byte :=
  if decide (n < 10)%Z then byte_of_Z (48 + n) else byte_of_Z (87 + n).

(** [%0<n>x] of a value below 16^n. *)
Fixpoint hex_text (n : nat) (v : Z) : list byte :=
  match n with
  | O => []
  | S n' => hex_text n' (v / 16) ++ [hex_digit (v mod 16)]
  end.

Lemma length_hex_text n v : length (hex_text n v) = n.
Proof. revert v. induction n as [|n IH]; intros v; [done|]. simpl. rewrite length_app, IH. simpl. lia. Qed.

Definition is_digit (c : byte) : bool := bool_decide (48 <= bval c <= 57)%Z.

(** [isspace] in the C locale. *)
Definition isspace (c : byte) : bool := bool_decide (bval c = 32 \/ 9 <= bval c <= 13)%Z.

(** The value of a digit in bases up to 16. *)
Definition digit_value (c : byte) : option Z :=
  let v := bval c in
  (if decide (48 <= v <= 57) then Some (v - 48)
   else if decide (97 <= v <= 102) then Some (v - 87)
   else if decide (65 <= v <= 70) then Some (v - 55)
   else None)%Z.

(** The digits at the start of a string: their value and the rest. *)
Fixpoint parse_digits (base acc : Z) (s : list byte) : Z * list byte :=
  match s with
  | [] => (acc, [])
  | c :: s' =>
      match digit_value c with
      | Some d => if decide (d < base)%Z then parse_digits base (acc * base + d)%Z s' else (acc, s)
      | None => (acc, s)
      end
  end.

Fixpoint skip_spaces (s : list byte) : list byte :=
  match s with
  | [] => []
  | c :: s' => if isspace c then skip_spaces s' else s
  end.

(** An optional sign. *)
Definition parse_sign (s : list byte) : bool * list byte :=
  match s with
  | c :: s' => if decide (c = "-"%byte) then (true, s') else if decide (c = "+"%byte) then (false, s') else (false, s)
  | [] => (false, [])
  end.

(** [unsigned long] has 32 bits on the target. *)
Definition ULONG_MAX : Z := 4294967295.

(** [strtoul(s, &end, 0)]: the value, whether [errno] is set to ERANGE, and the
    text at [end]; without digits [end] is [s]. *)
Definition strtoul (s : cstr) : Z * bool * cstr :=
  let '(neg, t) := parse_sign (skip_spaces s) in
  let '(base, digits) :=
    if bool_decide (char_at t 0 = "0"%byte) && bool_decide (char_at t 1 = "x"%byte \/ char_at t 1 = "X"%byte)
       && bool_decide (is_Some (digit_value (char_at t 2))) then (16%Z, drop 2 t)
    else if bool_decide (char_at t 0 = "0"%byte) then (8%Z, t)
    else (10%Z, t) in
  let '(v, rest) := parse_digits base 0 digits in
  if decide (length rest = length digits) then (0%Z, false, s)
  else if decide (ULONG_MAX < v)%Z then (ULONG_MAX, true, rest)
  else ((if neg : bool then u32 (- v) else v), false, rest).

(** [strtoul(s, &end, 10)]: the value and the text at [end]. *)
Definition strtoul10 (s : cstr) : Z * cstr :=
  let '(neg, t) := parse_sign (skip_spaces s) in
  let '(v, rest) := parse_digits 10 0 t in
  if decide (length rest = length t) then (0%Z, s)
  else if decide (ULONG_MAX < v)%Z then (ULONG_MAX, rest)
  else ((if neg : bool then u32 (- v) else v), rest).

(** [strtol(s, NULL, 10)] with a [long] of 32 bits; it saturates. *)
Definition LONG_MAX : Z := 2147483647.
Definition LONG_MIN : Z := -2147483648.

Definition strtol10 (s : cstr) : Z :=
  let '(neg, t) := parse_sign (skip_spaces s) in
  let '(v, _) := parse_digits 10 0 t in
  if neg : bool then Z.max LONG_MIN (- v) else Z.min LONG_MAX v.

Lemma skip_spaces_app s l : Forall (fun c => isspace c = true) s -> skip_spaces (s ++ l) = skip_spaces l.
Proof. induction 1 as [|c s Hc _ IH]; [done|]. simpl. by rewrite Hc. Qed.

Lemma skip_spaces_head c s : isspace c = false -> skip_spaces (c :: s) = c :: s.
Proof. intros Hc. simpl. by rewrite Hc. Qed.

(** [%u] of a value below 10^10. *)
Fixpoint dec_digits (fuel : nat) (v : Z) : list byte :=
  match fuel with
  | O => []
  | S fuel' => (if decide (v < 10)%Z then [] else dec_digits fuel' (v / 10)) ++ [byte_of_Z (48 + v mod 10)]
  end.

Definition dec_text (v : Z) : list byte := dec_digits 10 v.

(** [%d]. *)
Definition int_text (v : Z) : list byte := if decide (v < 0)%Z then "-"%byte :: dec_text (- v) else dec_text v.

Lemma digit_value_dec d : (0 <= d < 10)%Z -> digit_value (byte_of_Z (48 + d)) = Some d.
Proof.
  intros Hd. unfold digit_value. rewrite bval_byte_of_Z, Z.mod_small by lia.
  rewrite decide_True by lia. f_equal. lia.
Qed.

(** A character [strtol] stops at. *)
Definition not_digit (base : Z) (c : byte) : Prop :=
  match digit_value c with Some d => (base <= d)%Z | None => True end.

Lemma parse_digits_stop base acc s :
  match s with [] => True | c :: _ => not_digit base c end -> parse_digits base acc s = (acc, s).
Proof.
  destruct s as [|c s]; [done|]. unfold not_digit. simpl.
  destruct (digit_value c); [|done]. intros. by rewrite decide_False by lia.
Qed.

Lemma parse_digits_snoc base acc s c rest d :
  digit_value c = Some d -> (d < base)%Z ->
  (forall x, x ∈ s -> exists e, digit_value x = Some e /\ (e < base)%Z) ->
  parse_digits base acc (s ++ c :: rest) = parse_digits base (fst (parse_digits base acc s) * base + d)%Z rest.
Proof.
  intros Hc Hd Hs. revert acc. induction s as [|x s IH]; intros acc; simpl.
  - rewrite Hc. by rewrite decide_True.
  - destruct (Hs x) as (e & -> & He); [set_solver|]. rewrite !decide_True by done. apply IH. set_solver.
Qed.

Lemma length_dec_digits fuel v : length (dec_digits fuel v) <= fuel.
Proof.
  revert v. induction fuel as [|fuel IH]; intros v; [done|]. cbn [dec_digits]. rewrite length_app. specialize (IH (v / 10)%Z).
  case_decide; simpl; lia.
Qed.

Lemma length_dec_text v : length (dec_text v) <= 10.
Proof. apply length_dec_digits. Qed.

Lemma dec_digits_are_digits fuel v :
  (0 <= v)%Z -> forall x, x ∈ dec_digits fuel v -> exists e, digit_value x = Some e /\ (e < 10)%Z.
Proof.
  revert v. induction fuel as [|fuel IH]; intros v Hv x; simpl; [set_solver|].
  rewrite elem_of_app, list_elem_of_singleton. intros [Hx| ->].
  - case_decide; [set_solver|]. apply (IH (v / 10)%Z); [|done]. by apply Z.div_pos.
  - pose proof (Z.mod_pos_bound v 10). exists (v mod 10)%Z. rewrite digit_value_dec by lia. split; [done|lia].
Qed.

(** Reading a decimal number back. *)
Lemma parse_dec_digits fuel v rest :
  (0 <= v < 10 ^ Z.of_nat fuel)%Z -> match rest with [] => True | c :: _ => not_digit 10 c end ->
  parse_digits 10 0 (dec_digits fuel v ++ rest) = (v, rest).
Proof.
  revert v rest. induction fuel as [|fuel IH]; intros v rest Hv Hr.
  { simpl in Hv. replace v with 0%Z by lia. by apply parse_digits_stop. }
  cbn [dec_digits]. rewrite <- app_assoc. cbn [app].
  pose proof (Z.mod_pos_bound v 10 ltac:(lia)).
  assert (fst (parse_digits 10 0 (if decide (v < 10) then [] else dec_digits fuel (v / 10))) = v / 10)%Z as Hq.
  { case_decide; [simpl; symmetry; apply Z.div_small; lia|].
    rewrite <- (app_nil_r (dec_digits fuel (v / 10))), IH; [done| |done].
    rewrite Nat2Z.inj_succ, Z.pow_succ_r in Hv by lia.
    split; [apply Z.div_pos; lia|]. apply Z.div_lt_upper_bound; lia. }
  rewrite (parse_digits_snoc _ _ _ _ _ (v mod 10)).
  - rewrite Hq. rewrite parse_digits_stop by done. f_equal. pose proof (Z.div_mod v 10). lia.
  - apply digit_value_dec. lia.
  - lia.
  - intros x Hx. case_decide; [set_solver|]. apply (dec_digits_are_digits fuel (v / 10)); [|done]. apply Z.div_pos; lia.
Qed.

(** The first character is a digit, so nothing is skipped before it. *)
Lemma dec_text_head v : (0 <= v)%Z -> exists c s, dec_text v = c :: s /\ exists e, digit_value c = Some e /\ (e < 10)%Z.
Proof.
  intros Hv. pose proof (dec_digits_are_digits 10 v Hv) as Hd. unfold dec_text.
  destruct (dec_digits 10 v) as [|c s] eqn:E; [by apply (f_equal length) in E; simpl in E; rewrite length_app in E; simpl in E; lia|].
  exists c, s. split; [done|]. apply Hd. set_solver.
Qed.

Lemma digit_plain c e : digit_value c = Some e -> (e < 10)%Z ->
  isspace c = false /\ c <> "-"%byte /\ c <> "+"%byte /\ (48 <= bval c <= 57)%Z.
Proof.
  unfold digit_value. intros He Hlt.
  assert (48 <= bval c <= 57)%Z as Hc by (repeat case_decide; simplify_eq; lia).
  split_and!; [apply bool_decide_eq_false; lia| | |lia..]; intros ->; vm_compute in Hc; destruct Hc; congruence.
Qed.

(** [strtol] reads a printed number back, up to a character that ends it. *)
Lemma strtol10_dec_text v rest :
  (0 <= v <= LONG_MAX)%Z -> match rest with [] => True | c :: _ => not_digit 10 c end ->
  strtol10 (dec_text v ++ rest) = v.
Proof.
  intros Hv Hr. unfold strtol10.
  destruct (dec_text_head v) as (c & s & E & e & He & Hlt); [lia|].
  destruct (digit_plain c e He Hlt) as (H1 & H2 & H3 & _).
  assert (parse_digits 10 0 (dec_text v ++ rest) = (v, rest)) as Hp.
  { apply parse_dec_digits; [|done]. unfold LONG_MAX in Hv. lia. }
  rewrite E in Hp |- *. cbn [app] in Hp |- *.
  rewrite skip_spaces_head by done. unfold parse_sign. rewrite !decide_False by done.
  rewrite Hp. lia.
Qed.
