(* ===== verification/Ring.v ===== *)
(** * Ring buffers

    Two shapes of ring buffer recur in the firmware.
    - The byte ring that keeps the newest bytes: the log buffer
      (log_buffer.c, [log_buffer_put]) and the pending ring of the logcat
      service (adb_logcat.c, [ring_push]) are the same code over different
      storage.  [ByteRing] models it once; its contract is [view_push]: the
      contents are the newest [capacity] bytes of everything written.
    - The slot queue with head, tail and count: the queue of control packets
      (adb_protocol.c) and the queue of USB packets (adb_usb.c).  [SlotQueue]
      models it; its contract is that it is a FIFO list. *)

From S2P Require Import Prelude.
From Stdlib Require Import Lia.
From stdpp Require Import base numbers list list_numbers.

Module ByteRing.
Section ring.
Context {A : Type}.

Record ring := Ring {
  buf : list A;
  head : nat;
  len : nat;
}.

(** The capacity is the size of the storage. *)
Definition cap (r : ring) : nat := length (buf r).

(** The bytes held, oldest first. *)
Definition view (r : ring) : list A :=
  take (len r) (drop (head r) (buf r) ++ take (head r) (buf r)).

Record wf (r : ring) : Prop := {
  wf_cap : 0 < cap r;
  wf_head : head r < cap r;
  wf_len : len r <= cap r;
}.

(** The step [ring_push]: keep the newest bytes when the data alone fills the
    ring, drop the oldest bytes to make room, copy in at most two pieces. *)
Definition push (r : ring) (data : list A) : ring :=
  let c := cap r in
  let '(data, head, len) :=
    if decide (c <= length data) then (drop (length data - c) data, 0, 0)
    else (data, head r, len r) in
  let '(head, len) :=
    if decide (c < len + length data)
    then let drop := len + length data - c in ((head + drop) `mod` c, len - drop)
    else (head, len) in
  let tail := (head + len) `mod` c in
  let first := length data `min` (c - tail) in
  let buf := write_at (buf r) tail (take first data) in
  let buf := if decide (first <> length data) then write_at buf 0 (drop first data) else buf in
  Ring buf head (len + length data).

(** Copying [count] bytes out, again in at most two pieces. *)
Definition copy_out (r : ring) (count : nat) : list A :=
  let first := count `min` (cap r - head r) in
  take first (drop (head r) (buf r))
  ++ (if decide (first <> count) then take (count - first) (buf r) else []).

(** Dropping [count] bytes after they were copied out. *)
Definition advance (r : ring) (count : nat) : ring :=
  Ring (buf r) ((head r + count) `mod` cap r) (len r - count).

(** *** Indices *)

Lemma mod_wrap a c : 0 < c -> a < 2 * c -> a `mod` c = if decide (a < c) then a else a - c.
Proof.
  intros Hc Ha. case_decide; [by apply Nat.mod_small|].
  replace a with (a - c + 1 * c) at 1 by lia.
  rewrite Nat.Div0.mod_add. apply Nat.mod_small. lia.
Qed.

Lemma length_view r : wf r -> length (view r) = len r.
Proof. intros [H1 H2 H3]. unfold view, cap in *. arr. Qed.

Lemma view_lookup r i :
  wf r -> i < len r -> view r !! i = buf r !! ((head r + i) `mod` cap r).
Proof.
  intros [H1 H2 H3] Hi. unfold view, cap in *.
  rewrite lookup_take_lt by lia. rewrite mod_wrap by lia.
  destruct (decide (head r + i < length (buf r))).
  - rewrite lookup_app_l by (rewrite length_drop; lia). by rewrite lookup_drop.
  - rewrite lookup_app_r by (rewrite length_drop; lia).
    rewrite length_drop, lookup_take_lt by lia. f_equal. lia.
Qed.

(** *** Copying in two pieces *)

(** The storage after the data was copied in at [tail]. *)
Definition store (b : list A) (tail : nat) (data : list A) : list A :=
  let first := length data `min` (length b - tail) in
  let b' := write_at b tail (take first data) in
  if decide (first <> length data) then write_at b' 0 (drop first data) else b'.

Lemma length_store b tail data :
  tail < length b -> length data <= length b -> length (store b tail data) = length b.
Proof.
  intros Ht Hd. unfold store.
  assert (length (take (length data `min` (length b - tail)) data) <= length b - tail) by arr.
  case_decide; rewrite ?length_write_at; rewrite ?length_write_at; arr.
Qed.

Lemma store_lookup b tail data k :
  tail < length b -> length data <= length b -> k < length b ->
  store b tail data !! ((tail + k) `mod` length b)
  = if decide (k < length data) then data !! k else b !! ((tail + k) `mod` length b).
Proof.
  intros Ht Hd Hk. unfold store. rewrite !mod_wrap by lia.
  set (first := length data `min` (length b - tail)).
  assert (length (take first data) = first) as Hf by (rewrite length_take; lia).
  assert (length (write_at b tail (take first data)) = length b) as Hw.
  { rewrite length_write_at; lia. }
  destruct (decide (tail + k < length b)) as [Hlt|Hge].
  - (* the index lies after the tail *)
    transitivity (write_at b tail (take first data) !! (tail + k)).
    { case_decide; [|done]. apply lookup_write_at_old; [arr|]. rewrite length_drop. lia. }
    case_decide.
    + rewrite lookup_write_at_new by lia. rewrite lookup_take_lt by lia. f_equal. lia.
    + apply lookup_write_at_old; lia.
  - (* the index wrapped around *)
    destruct (decide (k < length data)) as [Hkd|Hkd].
    + rewrite decide_True by lia.
      rewrite lookup_write_at_new by (rewrite ?length_drop; lia).
      rewrite lookup_drop. f_equal. lia.
    + transitivity (write_at b tail (take first data) !! (tail + k - length b)).
      { case_decide; [|done]. apply lookup_write_at_old; [arr|]. rewrite length_drop. lia. }
      apply lookup_write_at_old; lia.
Qed.

(** *** The contract of the ring *)

Lemma wf_advance r k : wf r -> wf (advance r k).
Proof.
  intros [H1 H2 H3]. split; unfold cap in *; simpl; [done| |lia].
  apply Nat.mod_upper_bound. lia.
Qed.

Lemma view_advance r k : wf r -> k <= len r -> view (advance r k) = drop k (view r).
Proof.
  intros Hwf Hk. pose proof (wf_advance r k Hwf) as Hwf'. pose proof Hwf as [H1 H2 H3].
  apply list_eq_lookup_lt with (n := len r - k).
  - by rewrite length_view.
  - rewrite length_drop, length_view by done. lia.
  - intros i Hi. rewrite lookup_drop, !view_lookup by (done || simpl; lia).
    unfold advance, cap in *; simpl. f_equal.
    rewrite Nat.Div0.add_mod_idemp_l. f_equal. lia.
Qed.

Lemma copy_out_view r count : wf r -> count <= len r -> copy_out r count = take count (view r).
Proof.
  intros [H1 H2 H3] Hc. unfold copy_out, view, cap in *.
  rewrite take_take, (Nat.min_l count (len r)) by lia. rewrite take_app, length_drop.
  destruct (decide (count <= length (buf r) - head r)).
  - rewrite Nat.min_l by lia. rewrite decide_False by lia. f_equal.
    by replace (count - (length (buf r) - head r)) with 0 by lia.
  - rewrite Nat.min_r by lia. rewrite decide_True by lia. f_equal.
    + rewrite !take_ge by (rewrite length_drop; lia). done.
    + rewrite take_take. f_equal. lia.
Qed.

(** Data that fits is appended. *)
Lemma view_append r d :
  wf r -> len r + length d <= cap r ->
  let r' := Ring (store (buf r) ((head r + len r) `mod` cap r) d) (head r) (len r + length d) in
  wf r' /\ view r' = view r ++ d.
Proof.
  intros Hwf Hfit r'. pose proof Hwf as [H1 H2 H3].
  set (tail := (head r + len r) `mod` cap r) in *.
  assert (tail < length (buf r)) as Ht by (apply Nat.mod_upper_bound; unfold cap in *; lia).
  assert (length (store (buf r) tail d) = length (buf r)) as Hs.
  { apply length_store; unfold cap in *; lia. }
  assert (wf r') as Hwf'.
  { split; unfold r', cap in *; simpl; rewrite ?Hs; lia. }
  split; [done|].
  apply list_eq_lookup_lt with (n := len r + length d).
  { by rewrite length_view. }
  { by rewrite length_app, length_view. }
  intros i Hi. rewrite view_lookup by done. unfold r', cap in *; simpl. rewrite Hs.
  destruct (decide (i < len r)) as [Hlt|Hge].
  - rewrite lookup_app_l by (by rewrite length_view).
    rewrite view_lookup by done. unfold cap.
    destruct (decide (len r = length (buf r))) as [Hfull|Hroom].
    { (* a full ring takes no data *)
      destruct d; [|simpl in *; lia]. unfold store. simpl.
      by rewrite write_at_nil. }
    replace (head r + i) with (head r + len r + (i + length (buf r) - len r) - length (buf r)) by lia.
    assert ((head r + len r + (i + length (buf r) - len r) - length (buf r)) `mod` length (buf r)
            = (tail + (i + length (buf r) - len r)) `mod` length (buf r)) as ->.
    { unfold tail. rewrite Nat.Div0.add_mod_idemp_l.
      rewrite <- (Nat.Div0.mod_add (_ - _) 1). f_equal. lia. }
    rewrite store_lookup by lia. by rewrite decide_False by lia.
  - rewrite lookup_app_r by (rewrite length_view by done; lia). rewrite length_view by done.
    assert ((head r + i) `mod` length (buf r) = (tail + (i - len r)) `mod` length (buf r)) as ->.
    { unfold tail. rewrite Nat.Div0.add_mod_idemp_l. f_equal. lia. }
    rewrite store_lookup by lia. by rewrite decide_True by lia.
Qed.

Lemma push_spec r d : wf r -> wf (push r d) /\ cap (push r d) = cap r /\ view (push r d) = lastn (cap r) (view r ++ d).
Proof.
  intros Hwf. pose proof Hwf as [H1 H2 H3].
  assert (forall r0 e, wf r0 -> buf r0 = buf r -> len r0 + length e <= cap r ->
    lastn (cap r) (view r ++ d) = view r0 ++ e ->
    let r' := Ring (store (buf r) ((head r0 + len r0) `mod` cap r) e) (head r0) (len r0 + length e) in
    wf r' /\ cap r' = cap r /\ view r' = lastn (cap r) (view r ++ d)) as Hmain.
  { intros r0 e Hwf0 Hb Hfit Heq.
    assert (cap r0 = cap r) as Hc by (unfold cap; by rewrite Hb).
    destruct (view_append r0 e Hwf0) as [Hw Hv]; [lia|].
    rewrite Hb, Hc in *. rewrite Heq. split_and!; [done| |done].
    unfold cap; simpl. apply length_store; [|unfold cap in *; lia].
    apply Nat.mod_upper_bound. unfold cap in *; lia. }
  unfold push. destruct (decide (cap r <= length d)) as [Hbig|Hsmall].
  - rewrite decide_False by (rewrite length_drop; lia).
    apply (Hmain (Ring (buf r) 0 0) (drop (length d - cap r) d)); simpl; [|done|arr|].
    + split; unfold cap in *; simpl; lia.
    + change (view (Ring (buf r) 0 0)) with (@nil A). unfold lastn. simpl.
      rewrite length_app, drop_app, length_view by done.
      rewrite drop_ge by (rewrite length_view by done; lia). simpl. f_equal. lia.
  - destruct (decide (cap r < len r + length d)) as [Hover|Hfit].
    + apply (Hmain (advance r (len r + length d - cap r)) d); simpl; [by apply wf_advance|done|lia|].
      rewrite view_advance by (done || lia). unfold lastn.
      rewrite length_app, drop_app, length_view by done.
      f_equal. replace (_ - len r) with 0 by lia. done.
    + apply (Hmain r d); simpl; [done|done|lia|].
      apply lastn_all. rewrite length_app, length_view by done. lia.
Qed.

Lemma wf_push r d : wf r -> wf (push r d).
Proof. intros H. by apply push_spec. Qed.

Lemma cap_push r d : wf r -> cap (push r d) = cap r.
Proof. intros H. by apply push_spec. Qed.

Lemma view_push r d : wf r -> view (push r d) = lastn (cap r) (view r ++ d).
Proof. intros H. by apply push_spec. Qed.
End ring.
Arguments ring : clear implicits.
Arguments Ring {A} _ _ _.
End ByteRing.

Module SlotQueue.
Section queue.
Context {A : Type}.

Record queue := Queue {
  slots : list A;
  qhead : nat;
  qtail : nat;
  qcount : nat;
}.

Definition qcap (q : queue) : nat := length (slots q).

(** An empty queue over the given slots: head, tail and count are zero. *)
Definition reset (q : queue) : queue := Queue (slots q) 0 0 0.

(** Fill the slot at the tail and advance the tail. *)
Definition enqueue (q : queue) (x : A) : queue :=
  Queue (write_at (slots q) (qtail q) [x]) (qhead q) ((qtail q + 1) `mod` qcap q) (qcount q + 1).

(** Advance the head past the slot that was sent. *)
Definition dequeue (q : queue) : queue :=
  Queue (slots q) ((qhead q + 1) `mod` qcap q) (qtail q) (qcount q - 1).

(** The same storage seen as a ring, and the packets waiting, oldest first. *)
Definition as_ring (q : queue) : ByteRing.ring A := ByteRing.Ring (slots q) (qhead q) (qcount q).
Definition qview (q : queue) : list A := ByteRing.view (as_ring q).

Record qwf (q : queue) : Prop := {
  qwf_ring : ByteRing.wf (as_ring q);
  qwf_tail : qtail q = (qhead q + qcount q) `mod` qcap q;
}.

Lemma qwf_reset q : 0 < qcap q -> qwf (reset q).
Proof.
  intros H. split; [split; unfold ByteRing.cap, qcap in *; simpl; lia|].
  unfold qcap in *; simpl. by rewrite Nat.Div0.mod_0_l.
Qed.

Lemma qview_reset q : qview (reset q) = [].
Proof. done. Qed.

Lemma length_qview q : qwf q -> length (qview q) = qcount q.
Proof. intros [H _]. by apply ByteRing.length_view in H. Qed.

Lemma qcount_le q : qwf q -> qcount q <= qcap q.
Proof. intros [[_ _ H] _]. done. Qed.

Lemma qtail_lt q : qwf q -> qtail q < qcap q.
Proof. intros [[H _ _] ->]. apply Nat.mod_upper_bound. unfold ByteRing.cap, qcap in *. simpl in *. lia. Qed.

Lemma enqueue_spec q x :
  qwf q -> qcount q < qcap q ->
  qwf (enqueue q x) /\ qcap (enqueue q x) = qcap q /\ qview (enqueue q x) = qview q ++ [x].
Proof.
  intros Hq Hroom. pose proof (qtail_lt q Hq) as Ht. destruct Hq as [Hr Htail].
  destruct (ByteRing.view_append (as_ring q) [x] Hr) as [Hw Hv].
  { unfold ByteRing.cap, qcap in *; simpl; lia. }
  unfold ByteRing.cap in Hw, Hv; simpl in Hw, Hv.
  fold (qcap q) in Hw, Hv. rewrite <- Htail in Hw, Hv.
  assert (ByteRing.store (slots q) (qtail q) [x] = write_at (slots q) (qtail q) [x]) as Hs.
  { unfold ByteRing.store, qcap in *. change (length [x]) with 1.
    rewrite Nat.min_l by lia. by rewrite decide_False by lia. }
  rewrite Hs in Hw, Hv.
  assert (qcap (enqueue q x) = qcap q) as Hc.
  { unfold qcap; simpl. apply length_write_at. unfold qcap in *. simpl; lia. }
  split_and!; [|done|exact Hv]. split; [exact Hw|].
  rewrite Hc. simpl. rewrite Htail, Nat.Div0.add_mod_idemp_l. f_equal. lia.
Qed.

Lemma qwf_dequeue q : qwf q -> 0 < qcount q -> qwf (dequeue q).
Proof.
  intros [Hr Htail] Hc. split; [exact (ByteRing.wf_advance _ 1 Hr)|].
  unfold dequeue, qcap in *; simpl. rewrite Htail, Nat.Div0.add_mod_idemp_l. f_equal. lia.
Qed.

Lemma qview_dequeue q : qwf q -> 0 < qcount q -> qview (dequeue q) = drop 1 (qview q).
Proof. intros [Hr Htail] Hc. by apply (ByteRing.view_advance (as_ring q) 1). Qed.

(** The slot at the head is the oldest packet. *)
Lemma qview_cons q : qwf q -> 0 < qcount q ->
  exists x, slots q !! qhead q = Some x /\ qview q = x :: qview (dequeue q).
Proof.
  intros Hq Hc. pose proof (ByteRing.view_lookup (as_ring q) 0 (qwf_ring q Hq) Hc) as Hl.
  rewrite qview_dequeue by done. fold (qview q) in Hl.
  pose proof (length_qview q Hq) as Hlen. destruct (qview q) as [|x v] eqn:Ev; [simpl in *; lia|].
  exists x. split; [|done]. simpl in Hl. rewrite Hl. destruct Hq as [[H1 H2 H3] _].
  unfold ByteRing.cap; simpl. by rewrite Nat.add_0_r, Nat.mod_small.
Qed.
End queue.
Arguments queue : clear implicits.
Arguments Queue {A} _ _ _ _.
End SlotQueue.
