(* ===== verification/LogBuffer.v ===== *)
(** * The log buffer service

    Model of src/app/src/services/log_buffer/log_buffer.c: the ring of retained
    log bytes, its single live listener, and the operations on both.  Each
    operation holds [log_lock] for its whole body (the listener is called after
    the lock is released), so an operation is one step on the state. *)

From S2P Require Import Prelude CLib Ring.
From Stdlib Require Import ZArith Lia.
From Stdlib Require Import Strings.Byte.
From stdpp Require Import base numbers list list_numbers strings.

(** The Kconfig symbol [WEBOS_LOG_BUFFER_SIZE] and its range. *)
Class LogConfig := {
  LOG_BUFFER_SIZE : nat;
  log_buffer_size_range : (1024 <= Z.of_nat LOG_BUFFER_SIZE <= 65536)%Z;
}.

Module LogBuffer.
Section log_buffer.
Context `{LogConfig}.

(** Listener functions and their context pointers. *)
Context {F C : Type} `{EqDecision F, EqDecision C}.

Record log_state := LogState {
  log_ring : ByteRing.ring byte;
  log_listener : option F;
  log_listener_context : option C;
}.

(** A call of the listener with the bytes it is given. *)
Record notification := Notify {
  to : F;
  to_context : option C;
  payload : list byte;
}.

Definition set_ring (s : log_state) (r : ByteRing.ring byte) : log_state :=
  LogState r (log_listener s) (log_listener_context s).

Definition set_listener (s : log_state) (l : option F) (c : option C) : log_state :=
  LogState (log_ring s) l c.

(** The state at boot: zeroed statics. *)
Definition log_init : log_state :=
  LogState (ByteRing.Ring (replicate LOG_BUFFER_SIZE NUL) 0 0) None None.

(** [copy_log_locked]: the number of bytes copied and the destination array
    after the copy.  A NULL or empty destination is left alone. *)
Definition copy_log_locked (s : log_state) (dst : option (list byte)) : nat * option (list byte) :=
  match dst with
  | None => (0, None)
  | Some d =>
      if decide (length d = 0) then (0, Some d)
      else
        let count := ByteRing.len (log_ring s) `min` (length d - 1) in
        let d := write_at d 0 (ByteRing.copy_out (log_ring s) count) in
        (count, Some (write_at d count [NUL]))
  end.

(** [log_buffer_put]: the new state and the listener call, if any. *)
Definition log_buffer_put (s : log_state) (msg : option (list byte)) : log_state * option notification :=
  match msg with
  | None => (s, None)
  | Some m =>
      if decide (length m = 0) then (s, None)
      else
        let s' := set_ring s (ByteRing.push (log_ring s) m) in
        (* an oversized message is cut to its newest bytes before it is stored and passed on *)
        let m := if decide (LOG_BUFFER_SIZE <= length m) then drop (length m - LOG_BUFFER_SIZE) m else m in
        (s', (fun l => Notify l (log_listener_context s) m) <$> log_listener s)
  end.

Definition log_buffer_read (s : log_state) (dst : option (list byte)) : nat * option (list byte) :=
  copy_log_locked s dst.

Definition log_buffer_clear (s : log_state) : log_state :=
  set_ring s (ByteRing.Ring (ByteRing.buf (log_ring s)) 0 0).

Definition log_buffer_set_listener (s : log_state) (l : option F) (c : option C) : Z * log_state :=
  match l with
  | None => ((- EINVAL)%Z, s)
  | Some _ =>
      match log_listener s with
      | Some _ => ((- EBUSY)%Z, s)
      | None => (0%Z, set_listener s l c)
      end
  end.

(** [log_buffer_snapshot_and_set_listener]: result, state, and what is stored
    through [dst] and [snapshot_len].  [snapshot_len] is [None] for NULL. *)
Definition log_buffer_snapshot_and_set_listener (s : log_state) (l : option F) (c : option C)
    (dst : option (list byte)) (snapshot_len : option nat)
    : Z * log_state * option (list byte) * option nat :=
  match l, dst, snapshot_len with
  | Some _, Some d, Some _ =>
      if decide (length d = 0) then ((- EINVAL)%Z, s, dst, snapshot_len)
      else
        match log_listener s with
        | Some _ => ((- EBUSY)%Z, s, dst, snapshot_len)
        | None =>
            let '(n, dst') := copy_log_locked s dst in
            (0%Z, set_listener s l c, dst', Some n)
        end
  | _, _, _ => ((- EINVAL)%Z, s, dst, snapshot_len)
  end.

Definition log_buffer_clear_listener (s : log_state) (l : option F) (c : option C) : log_state :=
  if decide (log_listener s = l /\ log_listener_context s = c)
  then set_listener s None None else s.

(** ** The abstract contents and the invariant *)

(** The retained log, oldest byte first. *)
Definition contents (s : log_state) : list byte := ByteRing.view (log_ring s).

Record log_ok (s : log_state) : Prop := {
  log_wf : ByteRing.wf (log_ring s);
  log_cap : ByteRing.cap (log_ring s) = LOG_BUFFER_SIZE;
}.

Lemma log_ok_init : log_ok log_init.
Proof.
  pose proof log_buffer_size_range.
  split; [split|]; unfold ByteRing.cap; simpl; rewrite ?length_replicate; lia.
Qed.

Lemma contents_init : contents log_init = [].
Proof. done. Qed.

(** Storing a message, truncated or not, keeps the newest bytes. *)
Lemma put_some s m :
  log_ok s ->
  log_ok (log_buffer_put s (Some m)).1
  /\ contents (log_buffer_put s (Some m)).1 = lastn LOG_BUFFER_SIZE (contents s ++ m).
Proof.
  intros [Hw Hc]. unfold log_buffer_put, contents. case_decide as Hm.
  - destruct m; [|done]. rewrite app_nil_r. split; [done|]. simpl.
    rewrite lastn_all; [done|]. rewrite ByteRing.length_view by done.
    destruct Hw. rewrite <- Hc. done.
  - destruct (ByteRing.push_spec (log_ring s) m Hw) as (H1 & H2 & H3).
    simpl. split; [split; simpl; congruence|]. by rewrite H3, Hc.
Qed.

(** ** Sequences of messages *)

(** Storing messages one after the other, collecting the listener calls. *)
Fixpoint put_all (s : log_state) (ms : list (list byte)) : log_state * list notification :=
  match ms with
  | [] => (s, [])
  | m :: ms' =>
      let '(s', n) := log_buffer_put s (Some m) in
      let '(s'', ns) := put_all s' ms' in
      (s'', option_list n ++ ns)
  end.

#[local] Arguments log_buffer_put : simpl never.

Lemma put_all_contents s ms :
  log_ok s ->
  log_ok (put_all s ms).1
  /\ contents (put_all s ms).1 = lastn LOG_BUFFER_SIZE (contents s ++ concat ms).
Proof.
  revert s. induction ms as [|m ms IH]; intros s Hs; simpl.
  - rewrite app_nil_r. split; [done|]. rewrite lastn_all; [done|].
    unfold contents. destruct Hs as [Hw Hc].
    rewrite ByteRing.length_view by done. destruct Hw. lia.
  - destruct (put_some s m Hs) as [Hs' Hc'].
    destruct (log_buffer_put s (Some m)) as [s' n] eqn:E.
    specialize (IH s' Hs') as [H1 H2]. simpl in *.
    destruct (put_all s' ms) as [s'' ns]. simpl in *. split; [done|].
    rewrite H2, Hc', lastn_app_lastn. by rewrite app_assoc.
Qed.

(** A listener sees every message, in order, each cut to the ring size. *)
Lemma put_all_notifications s ms l c :
  log_listener s = Some l -> log_listener_context s = c ->
  (put_all s ms).2
  = (fun m => Notify l c (lastn LOG_BUFFER_SIZE m)) <$> filter (fun m => m <> []) ms.
Proof.
  revert s. induction ms as [|m ms IH]; intros s Hl Hc; [done|].
  simpl. unfold log_buffer_put. destruct (decide (length m = 0)) as [Hm|Hm].
  - destruct m; [|done]. simpl. rewrite filter_cons_False by (intros HH; by apply HH).
    specialize (IH s Hl Hc). destruct (put_all s ms). exact IH.
  - rewrite filter_cons_True by (by intros ->). simpl. rewrite Hl. simpl.
    specialize (IH (set_ring s (ByteRing.push (log_ring s) m)) Hl Hc).
    destruct (put_all _ ms) as [s'' ns]. simpl in *. rewrite IH, Hc. do 2 f_equal.
    unfold lastn. case_decide; [done|]. by replace (length m - _) with 0 by lia.
Qed.

(** ** Reading *)

Lemma copy_log_spec s d :
  log_ok s -> d <> [] ->
  let count := length (contents s) `min` (length d - 1) in
  copy_log_locked s (Some d)
  = (count, Some (take count (contents s) ++ [NUL] ++ drop (S count) d)).
Proof.
  intros [Hw Hc] Hd count. unfold copy_log_locked.
  assert (0 < length d) as Hpos by (destruct d; [done|simpl; lia]).
  rewrite decide_False by lia. unfold count, contents in *.
  rewrite ByteRing.length_view by done.
  set (n := ByteRing.len (log_ring s) `min` (length d - 1)).
  assert (length (take n (ByteRing.view (log_ring s))) = n) as Hlen.
  { rewrite length_take, ByteRing.length_view by done. lia. }
  rewrite ByteRing.copy_out_view by (done || lia). do 2 f_equal.
  unfold write_at at 2. simpl. rewrite Hlen.
  unfold write_at. rewrite take_app_le, take_ge by lia. f_equal. simpl. f_equal.
  rewrite drop_app, Hlen. rewrite drop_ge by lia. simpl. rewrite drop_drop. f_equal. lia.
Qed.

(** ** Histories of calls *)

Inductive op :=
  | Put (msg : option (list byte))
  | Read (dst : option (list byte))
  | Clear
  | SetListener (l : option F) (c : option C)
  | Snapshot (l : option F) (c : option C) (dst : option (list byte)) (n : option nat)
  | ClearListener (l : option F) (c : option C).

(** The state after one call. *)
Definition step (s : log_state) (o : op) : log_state :=
  match o with
  | Put m => (log_buffer_put s m).1
  | Read _ => s
  | Clear => log_buffer_clear s
  | SetListener l c => (log_buffer_set_listener s l c).2
  | Snapshot l c d n => (log_buffer_snapshot_and_set_listener s l c d n).1.1.2
  | ClearListener l c => log_buffer_clear_listener s l c
  end.

(** The abstract log: an unbounded sequence of bytes. *)
Definition spec_step (log : list byte) (o : op) : list byte :=
  match o with
  | Put (Some m) => log ++ m
  | Clear => []
  | _ => log
  end.

(** Calls that leave the ring alone. *)
Definition listener_only (o : op) : bool :=
  match o with Put _ | Clear => false | _ => true end.

Lemma set_listener_step s o : listener_only o = true -> log_ring (step s o) = log_ring s.
Proof.
  destruct o; try done; simpl; intros _.
  - unfold log_buffer_set_listener. by repeat case_match.
  - unfold log_buffer_snapshot_and_set_listener. destruct l, dst as [d|], n; try done.
    case_decide; [done|]. destruct (log_listener s); [done|]. by destruct (copy_log_locked s (Some d)).
  - unfold log_buffer_clear_listener. by case_decide.
Qed.

Lemma same_ring_ok s s' :
  log_ring s' = log_ring s -> log_ok s -> log_ok s' /\ contents s' = contents s.
Proof. unfold contents. intros E [H1 H2]. rewrite E. split; [|done]. split; by rewrite E. Qed.

Lemma step_refines s log o :
  log_ok s -> contents s = lastn LOG_BUFFER_SIZE log ->
  log_ok (step s o) /\ contents (step s o) = lastn LOG_BUFFER_SIZE (spec_step log o).
Proof.
  intros Hs Hc. destruct (listener_only o) eqn:Hl.
  - destruct (same_ring_ok s (step s o)) as [H1 H2]; [by apply set_listener_step|done|].
    split; [done|]. rewrite H2, Hc. by destruct o.
  - destruct o as [[m|]| | | | |]; try done.
    + destruct (put_some s m Hs) as [H1 H2]. split; [done|].
      simpl. by rewrite H2, Hc, lastn_app_lastn.
    + destruct Hs as [[H1 H2 H3] H4]. split; [|done].
      split; [split|]; unfold ByteRing.cap in *; simpl; lia || done.
Qed.

(** C16: The log buffer implements an unbounded log seen through a window: after
    any history of calls on the service from boot, the retained bytes are the
    newest [LOG_BUFFER_SIZE] bytes of everything logged since the last clear,
    the ring indices are within the storage, and a read into any non-empty
    array yields the oldest retained bytes that fit before the terminating
    NUL and leaves the rest of the array untouched. *)
Theorem log_buffer_refines_log (ops : list op) (d : list byte) (Hd : d <> []) :
  let s := foldl step log_init ops in
  let kept := lastn LOG_BUFFER_SIZE (foldl spec_step [] ops) in
  let n := length kept `min` (length d - 1) in
  log_ok s /\ contents s = kept
  /\ log_buffer_read s (Some d) = (n, Some (take n kept ++ [NUL] ++ drop (S n) d)).
Proof.
  assert (forall s log, log_ok s -> contents s = lastn LOG_BUFFER_SIZE log ->
    log_ok (foldl step s ops)
    /\ contents (foldl step s ops) = lastn LOG_BUFFER_SIZE (foldl spec_step log ops)) as Hrun.
  { induction ops as [|o ops IH]; intros s log Hs Hc; simpl; [done|].
    destruct (step_refines s log o Hs Hc). by apply IH. }
  destruct (Hrun log_init [] log_ok_init) as [H1 H2]; [by rewrite contents_init|].
  intros s kept n. split_and!; [done|done|].
  unfold log_buffer_read. rewrite copy_log_spec by done. fold s in H2. by rewrite H2.
Qed.

(** A live listener joins the log without a gap when its snapshot array
    is larger than the retained log: the snapshot followed by the bytes the
    listener is called with is the retained log followed by every later
    message (messages of at most the ring size), in order. *)
Theorem snapshot_then_live_is_gapless (s : log_state) (l : F) (c : option C) (d : list byte)
    (n0 : nat) (ms : list (list byte))
    (Hs : log_ok s) (Hfree : log_listener s = None) (Hroom : length (contents s) < length d)
    (Hms : Forall (fun m => length m <= LOG_BUFFER_SIZE) ms) :
  exists s' d' n,
    log_buffer_snapshot_and_set_listener s (Some l) c (Some d) (Some n0) = (0%Z, s', Some d', Some n)
    /\ log_listener s' = Some l
    /\ take n d' ++ concat (payload <$> (put_all s' ms).2) = contents s ++ concat ms.
Proof.
  assert (d <> []) as Hd by (intros ->; simpl in *; lia).
  unfold log_buffer_snapshot_and_set_listener.
  rewrite decide_False by (destruct d; simpl; lia || done). rewrite Hfree.
  rewrite copy_log_spec by done. eexists _, _, _. split_and!; [done|done|].
  rewrite (put_all_notifications _ ms l c) by done.
  rewrite Nat.min_l by lia. rewrite take_ge with (l := contents s) by lia.
  rewrite take_app_length. f_equal.
  induction Hms as [|m ms Hm Hms IH]; [done|]. simpl. destruct m as [|b m].
  - rewrite filter_cons_False by (intros HH; by apply HH). apply IH.
  - rewrite filter_cons_True by done. rewrite !fmap_cons. simpl concat.
    rewrite IH. rewrite lastn_all by done. done.
Qed.

(** When the array is not larger than the retained log, a snapshot keeps
    the oldest bytes and loses the newest ones, so the live stream that
    follows starts after a gap: the bytes [drop (length d - 1) (contents s)]
    appear in neither.  In particular a full log read into an array of the
    ring's own size loses its newest byte. *)
Theorem snapshot_drops_newest (s : log_state) (l : F) (c : option C) (d : list byte) (n0 : nat)
    (Hs : log_ok s) (Hfree : log_listener s = None) (Hd : 0 < length d <= length (contents s)) :
  exists s' d' n,
    log_buffer_snapshot_and_set_listener s (Some l) c (Some d) (Some n0) = (0%Z, s', Some d', Some n)
    /\ contents s = take n d' ++ drop (length d - 1) (contents s)
    /\ drop (length d - 1) (contents s) <> [].
Proof.
  assert (d <> []) as Hne by (intros ->; simpl in *; lia).
  unfold log_buffer_snapshot_and_set_listener.
  rewrite decide_False by lia. rewrite Hfree, copy_log_spec by done.
  eexists _, _, _. split_and!; [done| |].
  - rewrite Nat.min_r by lia.
    rewrite take_app_le by (rewrite length_take; lia).
    rewrite take_take, Nat.min_id. by rewrite take_drop.
  - intros E%(f_equal length). rewrite length_drop in E. simpl in E. lia.
Qed.
End log_buffer.
End LogBuffer.

(** ** Witnesses *)

(** The Kconfig default. *)
#[export] Instance log_config_default : LogConfig.
Proof. refine {| LOG_BUFFER_SIZE := Z.to_nat 4096 |}. lia. Defined.

Section witnesses.
Local Existing Instance log_config_default.

(** A log holding one message. *)
Definition demo_log : LogBuffer.log_state (F := nat) (C := nat) :=
  (LogBuffer.log_buffer_put LogBuffer.log_init (Some (cs "boot"))).1.

Lemma demo_log_ok : LogBuffer.log_ok demo_log.
Proof. apply LogBuffer.put_some, LogBuffer.log_ok_init. Qed.

Lemma demo_log_contents : LogBuffer.contents demo_log = cs "boot".
Proof. vm_compute. reflexivity. Qed.

(** A history with a clear in it. *)
Definition demo_ops : list (LogBuffer.op (F := nat) (C := nat)) :=
  [LogBuffer.Put (Some (cs "one")); LogBuffer.Clear; LogBuffer.Put (Some (cs "two"))].

Lemma log_buffer_refines_log_witness :
  LogBuffer.log_ok (foldl LogBuffer.step LogBuffer.log_init demo_ops)
  /\ LogBuffer.contents (foldl LogBuffer.step LogBuffer.log_init demo_ops)
     = lastn LOG_BUFFER_SIZE (cs "two").
Proof.
  destruct (LogBuffer.log_buffer_refines_log demo_ops [x2a]) as (H1 & H2 & _); [discriminate|].
  split; [exact H1|exact H2].
Defined.

Lemma snapshot_then_live_is_gapless_witness :
  exists s' d' n,
    LogBuffer.log_buffer_snapshot_and_set_listener demo_log (Some 7) None (Some (replicate 8 NUL)) (Some 0)
      = (0%Z, s', Some d', Some n)
    /\ LogBuffer.log_listener s' = Some 7
    /\ take n d' ++ concat (LogBuffer.payload <$> (LogBuffer.put_all s' [cs "a"; cs "bc"]).2)
       = LogBuffer.contents demo_log ++ concat [cs "a"; cs "bc"].
Proof.
  apply LogBuffer.snapshot_then_live_is_gapless.
  - apply demo_log_ok.
  - reflexivity.
  - rewrite demo_log_contents. apply (bool_decide_unpack _). vm_compute. exact I.
  - apply (bool_decide_unpack _). vm_compute. exact I.
Defined.

Lemma snapshot_drops_newest_witness :
  exists s' d' n,
    LogBuffer.log_buffer_snapshot_and_set_listener demo_log (Some 7) None (Some (replicate 4 NUL)) (Some 0)
      = (0%Z, s', Some d', Some n)
    /\ LogBuffer.contents demo_log = take n d' ++ drop 3 (LogBuffer.contents demo_log)
    /\ drop 3 (LogBuffer.contents demo_log) <> [].
Proof.
  apply (LogBuffer.snapshot_drops_newest demo_log 7 None (replicate 4 NUL) 0).
  - apply demo_log_ok.
  - reflexivity.
  - rewrite demo_log_contents. apply (bool_decide_unpack _). vm_compute. exact I.
Defined.
End witnesses.
