(* ===== verification/LogBackend.v ===== *)
(** * The log backend

    Model of the backend at the end of src/app/src/services/log_buffer/log_buffer.c,
    through which Zephyr hands every log message to the log buffer: a message is
    formatted in the current format, and the formatter gives [char_out] the text in
    pieces of at most its output array. *)

From S2P Require Import Prelude CLib Ring LogBuffer.
From Stdlib Require Import ZArith Lia.
From Stdlib Require Import Strings.Byte.
From stdpp Require Import base numbers list list_numbers strings.

(** Zephyr's log output: the pieces of a message in a format, the flags of its
    standard backends, and the size of [output_buf]. *)
Class LogOutput := {
  log_msg : Type;
  output_size : nat;
  OUTPUT_DEFAULT : Z;
  std_flags : Z;
  log_pieces : Z -> Z -> log_msg -> list (list byte);
  log_pieces_fit format flags m : Forall (fun p => length p <= output_size) (log_pieces format flags m);
}.

Module LogBackend.
Import LogBuffer.
Section backend.
Context `{LogConfig} {O : LogOutput} {F C : Type} `{EqDecision F, EqDecision C}.

Record log_backend := Backend { service : log_state (F := F) (C := C); log_format_current : Z }.

(** [char_out] takes all of what it is given. *)
Definition char_out (data : list byte) (s : log_state (F := F) (C := C)) : Z * log_state * option notification :=
  let '(s, n) := log_buffer_put s (Some data) in (Z.of_nat (length data), s, n).

(** The formatter hands over the pieces one after the other. *)
Fixpoint log_output (pieces : list (list byte)) (s : log_state (F := F) (C := C)) : log_state (F := F) (C := C) * list notification :=
  match pieces with
  | [] => (s, [])
  | p :: pieces' =>
      let '(_, s, n) := char_out p s in
      let '(s, ns) := log_output pieces' s in
      (s, option_list n ++ ns)
  end.

Definition process (msg : log_msg) (b : log_backend) : log_backend * list notification :=
  let '(s, ns) := log_output (log_pieces (log_format_current b) std_flags msg) (service b) in
  (Backend s (log_format_current b), ns).

Definition format_set (log_type : Z) (b : log_backend) : Z * log_backend := (0%Z, Backend (service b) log_type).

(** The state at boot. *)
Definition backend_init : log_backend := Backend log_init OUTPUT_DEFAULT.

Lemma log_output_puts pieces s : log_output pieces s = put_all s pieces.
Proof.
  revert s. induction pieces as [|p pieces IH]; intros s; [done|]. cbn [log_output put_all]. unfold char_out.
  destruct (log_buffer_put s (Some p)) as [s' n]. by rewrite IH.
Qed.

(** ** Messages and changes of the format *)

Inductive backend_op := Process (m : log_msg) | FormatSet (t : Z).

Definition backend_step (b : log_backend) (o : backend_op) : log_backend :=
  match o with Process m => (process m b).1 | FormatSet t => (format_set t b).2 end.

(** Everything that is logged, each message in the format that is current. *)
Fixpoint logged (format : Z) (ops : list backend_op) : list byte :=
  match ops with
  | [] => []
  | Process m :: ops' => concat (log_pieces format std_flags m) ++ logged format ops'
  | FormatSet t :: ops' => logged t ops'
  end.

Lemma process_contents m b :
  log_ok (service b) ->
  log_ok (service (process m b).1)
  /\ contents (service (process m b).1) = lastn LOG_BUFFER_SIZE (contents (service b) ++ concat (log_pieces (log_format_current b) std_flags m))
  /\ log_format_current (process m b).1 = log_format_current b.
Proof.
  intros Hb. unfold process. rewrite log_output_puts. destruct (put_all_contents (service b) (log_pieces (log_format_current b) std_flags m) Hb) as [H1 H2].
  by destruct (put_all _ _) as [s ns].
Qed.

(** The buffer keeps the newest bytes of all that is logged, whatever the formats and
    the pieces. *)
Lemma backend_contents b ops :
  log_ok (service b) ->
  let b' := foldl backend_step b ops in
  log_ok (service b') /\ contents (service b') = lastn LOG_BUFFER_SIZE (contents (service b) ++ logged (log_format_current b) ops).
Proof.
  revert b. induction ops as [|[m|t] ops IH]; intros b Hb; cbn.
  - split; [done|]. rewrite app_nil_r, lastn_all; [done|]. unfold contents. destruct Hb as [[] Hc]. rewrite ByteRing.length_view by done. lia.
  - destruct (process_contents m b Hb) as (H1 & H2 & H3). destruct (IH _ H1) as [H4 H5]. split; [done|].
    by rewrite H5, H2, H3, lastn_app_lastn, app_assoc.
  - by apply IH.
Qed.

(** A listener is called with pieces that fit the output array and make up the
    message. *)
Lemma process_notifies m b l c :
  log_listener (service b) = Some l -> log_listener_context (service b) = c -> output_size <= LOG_BUFFER_SIZE ->
  (process m b).2 = (fun p => Notify l c p) <$> filter (fun p => p <> []) (log_pieces (log_format_current b) std_flags m)
  /\ Forall (fun n => length (payload n) <= output_size) (process m b).2
  /\ concat (payload <$> (process m b).2) = concat (log_pieces (log_format_current b) std_flags m).
Proof.
  intros Hl Hc Hs. unfold process. rewrite log_output_puts. pose proof (put_all_notifications (service b) (log_pieces (log_format_current b) std_flags m) l c Hl Hc) as E.
  destruct (put_all _ _) as [s ns]. cbn [snd] in *. subst ns. pose proof (log_pieces_fit (log_format_current b) std_flags m) as Hf.
  induction Hf as [|p ps Hp Hps (E & Hn & Hcat)]; [done|]. destruct p as [|x p].
  - by rewrite filter_cons_False by (intros Hx; by apply Hx).
  - rewrite filter_cons_True by done. rewrite !fmap_cons, lastn_all by lia. split_and!; [by rewrite E|by constructor|].
    cbn [concat payload]. by rewrite Hcat.
Qed.
End backend.
End LogBackend.
