(* ===== verification/AppContext.v ===== *)
(** * Application contexts and the ABI checks

    Model of src/app/src/services/app/app_context.c and app_context.h: the
    per-application policy context, the path and URL checks every host call
    makes against it, buffer and version validation, and the mapping of errno
    values to the stable ABI errors of sdk/c/webos.h.  The functions are pure
    on the context, so they are translated as functions. *)

From S2P Require Import Prelude CLib.
From Stdlib Require Import ZArith Lia.
From Stdlib Require Import Strings.Byte.
From stdpp Require Import base numbers list list_numbers strings sets.

(** ** Constants of the ABI *)

Definition WEBOS_APP_MAX_ID : nat := 48.
Definition WEBOS_APP_MAX_GRANTS : nat := 8.
Definition WEBOS_ABI_MAJOR : Z := 1.
Definition WEBOS_ABI_MINOR : Z := 0.
Definition WEBOS_ABI_MAX_IO_BYTES : Z := 65536.
Definition WEBOS_ABI_MAX_PATH_BYTES : nat := 255.

Definition WEBOS_OK : Z := 0.
Definition WEBOS_INVALID : Z := -1.
Definition WEBOS_DENIED : Z := -2.
Definition WEBOS_NOT_FOUND : Z := -3.
Definition WEBOS_IO : Z := -4.
Definition WEBOS_TOO_LARGE : Z := -5.
Definition WEBOS_BUSY : Z := -6.
Definition WEBOS_UNSUPPORTED : Z := -7.

Module App.

(** ** The context *)

Record webos_app_context := Context {
  id : cstr;
  version : option cstr;
  storage_root : cstr;
  path_grants : list (option cstr);
  path_grant_count : nat;
  http_origins : list (option cstr);
  http_origin_count : nat;
  max_io_bytes : Z;
  ready : bool;
  ready_at_ms : Z;
  heartbeat_at_ms : Z;
}.

(** A zeroed context ([memset]). *)
Definition zero_context : webos_app_context :=
  Context [] None [] (replicate WEBOS_APP_MAX_GRANTS None) 0
    (replicate WEBOS_APP_MAX_GRANTS None) 0 0 false 0 0.

(** A range test on a character. *)
Definition in_range (c : byte) (lo hi : byte) : bool :=
  bool_decide (bval lo <= bval c <= bval hi)%Z.

Definition component_char (c : byte) : bool :=
  in_range c "a" "z" || in_range c "0" "9" || bool_decide (c = "-"%byte) || bool_decide (c = "_"%byte).

Definition valid_component (value : option cstr) : bool :=
  match value with
  | None => false
  | Some v =>
      if decide (length v = 0 \/ WEBOS_APP_MAX_ID <= length v) then false
      else forallb component_char v
  end.

Definition prefix_boundary (value prefix : cstr) : bool :=
  let n := length prefix in
  bool_decide (0 < n) && starts_with prefix value
  && (bool_decide (char_at value n = NUL) || bool_decide (char_at value n = slash)
      || bool_decide (char_at prefix (n - 1) = slash)).

(** One step of the UTF-8 loop: the lead byte gives the initial bits of the
    code point and the number of continuation bytes. *)
Definition utf8_lead (first : Z) : option (Z * nat) :=
  (if decide (0xc2 <= first <= 0xdf) then Some (Z.land first 0x1f, 1%nat)
   else if decide (0xe0 <= first <= 0xef) then Some (Z.land first 0x0f, 2%nat)
   else if decide (0xf0 <= first <= 0xf4) then Some (Z.land first 0x07, 3%nat)
   else None)%Z.

(** The continuation loop. *)
Fixpoint utf8_continue (n : nat) (codepoint : Z) (s : list byte) : option (Z * list byte) :=
  match n with
  | O => Some (codepoint, s)
  | S n' =>
      match s with
      | [] => None
      | b :: s' =>
          if decide (Z.land (bval b) 0xc0 <> 0x80)%Z then None
          else utf8_continue n' (Z.lor (Z.shiftl codepoint 6) (Z.land (bval b) 0x3f)) s'
      end
  end.

(** The checks on the decoded code point. *)
Definition utf8_rejected (codepoint first : Z) : bool :=
  bool_decide ((0xd800 <= codepoint <= 0xdfff) \/ 0x10ffff < codepoint
               \/ (codepoint < 0x800 /\ 0xe0 <= first)
               \/ (codepoint < 0x10000 /\ 0xf0 <= first))%Z.

(** [valid_utf8], with the number of bytes left as fuel: every iteration of the
    loop reads at least one byte ([valid_utf8_fuel]). *)
Fixpoint valid_utf8_loop (fuel : nat) (s : list byte) : bool :=
  match s with
  | [] => true
  | b :: s' =>
      match fuel with
      | O => false
      | S fuel' =>
          let first := bval b in
          if decide (first < 0x80)%Z then valid_utf8_loop fuel' s'
          else match utf8_lead first with
               | None => false
               | Some (cp, continuation) =>
                   if decide (length s' < continuation) then false
                   else match utf8_continue continuation cp s' with
                        | None => false
                        | Some (cp', s'') =>
                            if utf8_rejected cp' first then false else valid_utf8_loop fuel' s''
                        end
               end
      end
  end.

Definition valid_utf8 (s : list byte) : bool := valid_utf8_loop (length s) s.

(** The last loop of [valid_path]: [at_start] is [p == path || p[-1] == '/']. *)
Fixpoint path_scan (at_start : bool) (p : cstr) : bool :=
  match p with
  | [] => true
  | c :: p' =>
      if decide (bval c < 0x20)%Z then false
      else if bool_decide (c = "."%byte) && bool_decide (char_at p 1 = "."%byte) && at_start
              && (bool_decide (char_at p 2 = NUL) || bool_decide (char_at p 2 = slash))
      then false
      else path_scan (bool_decide (c = slash)) p'
  end.

Definition valid_path (path : option cstr) : bool :=
  match path with
  | None => false
  | Some p =>
      let n := length p `min` (WEBOS_ABI_MAX_PATH_BYTES + 1) in
      if decide (char_at p 0 <> slash \/ n = 0 \/ WEBOS_ABI_MAX_PATH_BYTES < n
                 \/ char_at p (n - 1) = slash) then false
      else if decide (valid_utf8 (take n p) = false \/ strstr p [slash; slash] <> None) then false
      else path_scan true p
  end.

(** ** Operations *)

(** [webos_app_context_init]: the result and the context it leaves behind.
    [None] is a NULL context. *)
Definition webos_app_context_init (context : option webos_app_context) (id version : option cstr)
    : Z * option webos_app_context :=
  match context, id, version with
  | Some _, Some i, Some v =>
      if decide (valid_component (Some i) = false \/ char_at v 0 = NUL) then (WEBOS_INVALID, context)
      else
        (* snprintf(storage_root, sizeof(storage_root), "/STORAGE:/apps/%s/data", id) *)
        let text := cs "/STORAGE:/apps/" ++ i ++ cs "/data" in
        let size := WEBOS_ABI_MAX_PATH_BYTES + 1 in
        let c := {| id := i; version := Some v; storage_root := take (size - 1) text;
                    path_grants := path_grants zero_context; path_grant_count := 0;
                    http_origins := http_origins zero_context; http_origin_count := 0;
                    max_io_bytes := WEBOS_ABI_MAX_IO_BYTES;
                    ready := false; ready_at_ms := 0; heartbeat_at_ms := 0 |} in
        (if decide (size <= length text) then WEBOS_TOO_LARGE else WEBOS_OK, Some c)
  | _, _, _ => (WEBOS_INVALID, context)
  end.

(** The loops over the grant arrays stop at the count and at the array size. *)
Definition active (slots : list (option cstr)) (count : nat) : list (option cstr) :=
  take (count `min` WEBOS_APP_MAX_GRANTS) slots.

Definition webos_app_path_allowed (context : option webos_app_context) (path : option cstr) : bool :=
  match context, path with
  | Some c, Some p =>
      if decide (valid_path (Some p) = false) then false
      else if prefix_boundary p (storage_root c) then true
      else existsb (fun g => match g with Some g => prefix_boundary p g | None => false end)
             (active (path_grants c) (path_grant_count c))
  | _, _ => false
  end.

(** The body of the loop over the origins. *)
Definition origin_matches (url : list byte) (origin : option cstr) : bool :=
  match origin with
  | None => false
  | Some o =>
      let n := length o in
      let url_len := length url in
      (bool_decide (n = 1) && bool_decide (char_at o 0 = "*"%byte)
       && ((bool_decide (7 < url_len) && starts_with (cs "http://") url)
           || (bool_decide (8 < url_len) && starts_with (cs "https://") url)))
      || (bool_decide (n <> 0) && bool_decide (n <= url_len) && starts_with o url
          && (bool_decide (url_len = n) || bool_decide (char_at url n = slash)
              || bool_decide (char_at url n = "?"%byte) || bool_decide (char_at url n = "#"%byte)))
  end.

Definition webos_app_url_allowed (context : option webos_app_context) (url : option (list byte)) : bool :=
  match context, url with
  | Some c, Some u =>
      if decide (length u = 0 \/ strchr u NUL <> None) then false
      else existsb (origin_matches u) (active (http_origins c) (http_origin_count c))
  | _, _ => false
  end.

(** [webos_abi_validate_buffer]: [data] is the address, [None] for NULL, and
    [validator] the memory check of the WebAssembly runtime. *)
Definition webos_abi_validate_buffer (context : option webos_app_context) (data : option Z)
    (len : Z) (validator : option (Z -> Z -> bool)) : Z :=
  match context, validator with
  | Some c, Some valid =>
      if decide (max_io_bytes c < len)%Z then WEBOS_TOO_LARGE
      else if decide (len = 0)%Z then WEBOS_OK
      else match data with
           | Some d => if valid d len then WEBOS_OK else WEBOS_INVALID
           | None => WEBOS_INVALID
           end
  | _, _ => WEBOS_INVALID
  end.

Definition webos_abi_check_version (requested_version : Z) : Z :=
  let major := Z.shiftr requested_version 16 in
  let minor := Z.land requested_version 0xffff in
  if decide (major = WEBOS_ABI_MAJOR /\ minor <= WEBOS_ABI_MINOR)%Z then WEBOS_OK else WEBOS_UNSUPPORTED.

Definition webos_abi_map_errno (error : Z) : Z :=
  (if decide (0 <= error) then error
   else
     let e := - error in
     if decide (e = EINVAL \/ e = EFAULT \/ e = ENAMETOOLONG) then WEBOS_INVALID
     else if decide (e = EACCES \/ e = EPERM) then WEBOS_DENIED
     else if decide (e = ENOENT) then WEBOS_NOT_FOUND
     else if decide (e = EFBIG \/ e = ENOSPC) then WEBOS_TOO_LARGE
     else if decide (e = EBUSY \/ e = EAGAIN) then WEBOS_BUSY
     else if decide (e = ENOTSUP) then WEBOS_UNSUPPORTED
     else WEBOS_IO)%Z.

Definition webos_app_mark_ready (context : option webos_app_context) (now_ms : Z) : option webos_app_context :=
  (fun c => {| id := id c; version := version c; storage_root := storage_root c;
               path_grants := path_grants c; path_grant_count := path_grant_count c;
               http_origins := http_origins c; http_origin_count := http_origin_count c;
               max_io_bytes := max_io_bytes c; ready := true; ready_at_ms := now_ms;
               heartbeat_at_ms := heartbeat_at_ms c |}) <$> context.

Definition webos_app_mark_heartbeat (context : option webos_app_context) (now_ms : Z) : option webos_app_context :=
  (fun c => {| id := id c; version := version c; storage_root := storage_root c;
               path_grants := path_grants c; path_grant_count := path_grant_count c;
               http_origins := http_origins c; http_origin_count := http_origin_count c;
               max_io_bytes := max_io_bytes c; ready := ready c; ready_at_ms := ready_at_ms c;
               heartbeat_at_ms := now_ms |}) <$> context.

(** ** UTF-8: the reference encoder *)

(** Unicode scalar values. *)
Definition scalar (c : Z) : Prop := (0 <= c < 0xd800 \/ 0xe000 <= c <= 0x10ffff)%Z.

(** The shortest encoding of a code point. *)
Definition utf8_encode1 (c : Z) : list byte :=
  (if decide (c < 0x80) then [byte_of_Z c]
   else if decide (c < 0x800) then [byte_of_Z (0xc0 + c / 64); byte_of_Z (0x80 + c mod 64)]
   else if decide (c < 0x10000) then
     [byte_of_Z (0xe0 + c / 4096); byte_of_Z (0x80 + (c / 64) mod 64); byte_of_Z (0x80 + c mod 64)]
   else
     [byte_of_Z (0xf0 + c / 262144); byte_of_Z (0x80 + (c / 4096) mod 64);
      byte_of_Z (0x80 + (c / 64) mod 64); byte_of_Z (0x80 + c mod 64)])%Z.

Definition utf8_encode (cs : list Z) : list byte := concat (utf8_encode1 <$> cs).

(** *** Decoding one code point *)

Lemma cont_byte b :
  bool_decide (Z.land (bval b) 0xc0 <> 0x80)%Z = negb (bool_decide (0x80 <= bval b < 0xc0)%Z).
Proof. by destruct b. Qed.

Lemma utf8_continue_cons n cp b s :
  (0 <= cp)%Z ->
  utf8_continue (S n) cp (b :: s)
  = if decide (0x80 <= bval b < 0xc0)%Z then utf8_continue n (cp * 64 + (bval b - 0x80))%Z s else None.
Proof.
  intros Hcp. cbn [utf8_continue]. pose proof (cont_byte b) as Hb.
  destruct (decide (0x80 <= bval b < 0xc0)%Z) as [Hr|Hr].
  - rewrite (bool_decide_true (0x80 <= bval b < 0xc0)%Z) in Hb by done.
    apply bool_decide_eq_false in Hb. rewrite decide_False by done. f_equal.
    rewrite Z.lor_comm. change 0x3f%Z with (Z.ones 6). rewrite Z.land_ones by lia.
    rewrite lor_shiftl_add by (pose proof (Z.mod_pos_bound (bval b) (2 ^ 6)); lia).
    Z.div_mod_to_equations. lia.
  - rewrite (bool_decide_false (0x80 <= bval b < 0xc0)%Z) in Hb by done.
    apply bool_decide_eq_true in Hb. by rewrite decide_True.
Qed.

(** A byte is determined by its value. *)
Lemma byte_eq z b : (z = bval b)%Z -> byte_of_Z z = b.
Proof. intros ->. apply byte_of_Z_bval. Qed.

(** Compares the bytes of an encoding one by one. *)
Ltac enc_bytes :=
  simpl; repeat f_equal; symmetry; apply byte_eq; Z.div_mod_to_equations; lia.

(** What the loop accepts at a non-ASCII lead byte. *)
Definition utf8_multi (b : byte) (s : list byte) : option (list byte) :=
  match utf8_lead (bval b) with
  | None => None
  | Some (cp, n) =>
      if decide (length s < n) then None
      else match utf8_continue n cp s with
           | None => None
           | Some (cp', s') => if utf8_rejected cp' (bval b) then None else Some s'
           end
  end.

(** The code points with an encoding of each length. *)
Lemma utf8_encode1_cases c :
  scalar c ->
  ((0 <= c < 0x80 /\ utf8_encode1 c = [byte_of_Z c])
   \/ (0x80 <= c < 0x800 /\ utf8_encode1 c = [byte_of_Z (0xc0 + c / 64); byte_of_Z (0x80 + c mod 64)])
   \/ (0x800 <= c < 0x10000 /\ utf8_encode1 c =
        [byte_of_Z (0xe0 + c / 4096); byte_of_Z (0x80 + (c / 64) mod 64); byte_of_Z (0x80 + c mod 64)])
   \/ (0x10000 <= c <= 0x10ffff /\ utf8_encode1 c =
        [byte_of_Z (0xf0 + c / 262144); byte_of_Z (0x80 + (c / 4096) mod 64);
         byte_of_Z (0x80 + (c / 64) mod 64); byte_of_Z (0x80 + c mod 64)]))%Z.
Proof.
  unfold scalar, utf8_encode1. intros Hc.
  destruct (decide (c < 0x80)%Z); [left; split; [lia|done]|].
  destruct (decide (c < 0x800)%Z); [right; left; split; [lia|done]|].
  destruct (decide (c < 0x10000)%Z); [right; right; left; split; [lia|done]|].
  right; right; right. split; [lia|done].
Qed.

Lemma utf8_lead_cases first cp n :
  utf8_lead first = Some (cp, n) ->
  ((0xc2 <= first <= 0xdf /\ cp = first - 0xc0 /\ n = 1%nat)
   \/ (0xe0 <= first <= 0xef /\ cp = first - 0xe0 /\ n = 2%nat)
   \/ (0xf0 <= first <= 0xf4 /\ cp = first - 0xf0 /\ n = 3%nat))%Z.
Proof.
  unfold utf8_lead. intros H.
  repeat case_decide; simplify_eq;
    [left|right; left|right; right]; split_and!; try done; try lia.
  1: change 0x1f%Z with (Z.ones 5). 2: change 0x0f%Z with (Z.ones 4). 3: change 0x07%Z with (Z.ones 3).
  all: rewrite Z.land_ones by lia; Z.div_mod_to_equations; lia.
Qed.

Lemma utf8_lead_some first :
  ((0xc2 <= first <= 0xdf -> utf8_lead first = Some (first - 0xc0, 1%nat))
   /\ (0xe0 <= first <= 0xef -> utf8_lead first = Some (first - 0xe0, 2%nat))
   /\ (0xf0 <= first <= 0xf4 -> utf8_lead first = Some (first - 0xf0, 3%nat)))%Z.
Proof.
  destruct (utf8_lead first) as [[cp n]|] eqn:E.
  - apply utf8_lead_cases in E.
    split_and!; intros H; destruct E as [E|[E|E]]; destruct E as (E1 & -> & ->); first [done|exfalso; lia].
  - unfold utf8_lead in E. repeat case_decide; simplify_eq. split_and!; intros; exfalso; lia.
Qed.

(** A multi-byte sequence is accepted exactly when it is the encoding of a
    scalar value. *)
Lemma utf8_multi_sound b s s' :
  (0x80 <= bval b)%Z -> utf8_multi b s = Some s' ->
  exists c, scalar c /\ (0x80 <= c)%Z /\ b :: s = utf8_encode1 c ++ s'.
Proof.
  unfold utf8_multi. intros Hb H.
  destruct (utf8_lead (bval b)) as [[cp n]|] eqn:El; [|done].
  apply utf8_lead_cases in El. case_decide as Hlen; [done|].
  destruct (utf8_continue n cp s) as [[c s1]|] eqn:Ec; [|done].
  destruct (utf8_rejected c (bval b)) eqn:Er; [done|]. simplify_eq.
  unfold utf8_rejected in Er. apply bool_decide_eq_false in Er.
  exists c.
  destruct El as [(Hr & -> & ->)|[(Hr & -> & ->)|(Hr & -> & ->)]];
    destruct s as [|b1 s]; simpl in Hlen; try lia;
    rewrite utf8_continue_cons in Ec by lia; case_decide as H1; try done.
  - simpl in Ec. simplify_eq. unfold scalar.
    assert (0 <= (bval b - 0xc0) * 64 + (bval b1 - 0x80))%Z by lia.
    split_and!; [lia|lia|].
    destruct (utf8_encode1_cases ((bval b - 0xc0) * 64 + (bval b1 - 0x80)))
      as [[? E]|[[? E]|[[? E]|[? E]]]]; [unfold scalar; lia|lia| |lia|lia].
    rewrite E. enc_bytes.
  - destruct s as [|b2 s]; simpl in Hlen; try lia.
    rewrite utf8_continue_cons in Ec by lia; case_decide as H2; [|done]. simpl in Ec. simplify_eq.
    set (c := (((bval b - 0xe0) * 64 + (bval b1 - 0x80)) * 64 + (bval b2 - 0x80))%Z) in *.
    split_and!; [unfold scalar; lia|lia|].
    destruct (utf8_encode1_cases c) as [[? E]|[[? E]|[[? E]|[? E]]]];
      [unfold scalar; lia|lia|lia| |lia].
    rewrite E. enc_bytes.
  - destruct s as [|b2 s]; simpl in Hlen; try lia.
    rewrite utf8_continue_cons in Ec by lia; case_decide as H2; [|done].
    destruct s as [|b3 s]; simpl in Hlen; try lia.
    rewrite utf8_continue_cons in Ec by lia; case_decide as H3; [|done]. simpl in Ec. simplify_eq.
    set (c := ((((bval b - 0xf0) * 64 + (bval b1 - 0x80)) * 64 + (bval b2 - 0x80)) * 64
               + (bval b3 - 0x80))%Z) in *.
    split_and!; [unfold scalar; lia|lia|].
    destruct (utf8_encode1_cases c) as [[? E]|[[? E]|[[? E]|[? E]]]];
      [unfold scalar; lia|lia|lia|lia|].
    rewrite E. enc_bytes.
Qed.

Lemma utf8_multi_complete c k :
  scalar c -> (0x80 <= c)%Z ->
  exists b s, utf8_encode1 c = b :: s /\ (0x80 <= bval b)%Z /\ utf8_multi b (s ++ k) = Some k.
Proof.
  intros Hs Hc. destruct (utf8_encode1_cases c Hs) as [[? E]|[[? E]|[[? E]|[? E]]]]; [lia|..];
    rewrite E; eexists _, _; (split; [done|]); unfold utf8_multi;
    rewrite bval_byte_of_Z, Z.mod_small by (Z.div_mod_to_equations; lia);
    (split; [Z.div_mod_to_equations; lia|]).
  - rewrite (proj1 (utf8_lead_some _)) by (Z.div_mod_to_equations; lia).
    rewrite decide_False by (simpl; lia). cbn [app].
    rewrite utf8_continue_cons by (Z.div_mod_to_equations; lia).
    rewrite !bval_byte_of_Z.
    rewrite decide_True by (Z.div_mod_to_equations; lia). cbn [utf8_continue].
    unfold utf8_rejected. rewrite bool_decide_false; [done|].
    unfold scalar in Hs. Z.div_mod_to_equations; lia.
  - rewrite (proj1 (proj2 (utf8_lead_some _))) by (Z.div_mod_to_equations; lia).
    rewrite decide_False by (simpl; lia). cbn [app].
    do 2 (rewrite utf8_continue_cons by (rewrite ?bval_byte_of_Z; Z.div_mod_to_equations; lia);
      rewrite !bval_byte_of_Z, decide_True by (Z.div_mod_to_equations; lia)). cbn [utf8_continue].
    unfold utf8_rejected. rewrite bool_decide_false; [done|].
    unfold scalar in Hs. Z.div_mod_to_equations; lia.
  - rewrite (proj2 (proj2 (utf8_lead_some _))) by (Z.div_mod_to_equations; lia).
    rewrite decide_False by (simpl; lia). cbn [app].
    do 3 (rewrite utf8_continue_cons by (rewrite ?bval_byte_of_Z; Z.div_mod_to_equations; lia);
      rewrite !bval_byte_of_Z, decide_True by (Z.div_mod_to_equations; lia)). cbn [utf8_continue].
    unfold utf8_rejected. rewrite bool_decide_false; [done|].
    unfold scalar in Hs. Z.div_mod_to_equations; lia.
Qed.

Lemma valid_utf8_loop_cons fuel b s :
  valid_utf8_loop (S fuel) (b :: s)
  = if decide (bval b < 0x80)%Z then valid_utf8_loop fuel s
    else match utf8_multi b s with Some s' => valid_utf8_loop fuel s' | None => false end.
Proof.
  simpl. case_decide; [done|]. unfold utf8_multi.
  destruct (utf8_lead (bval b)) as [[cp n]|]; [|done]. case_decide; [done|].
  destruct (utf8_continue n cp s) as [[c s']|]; [|done].
  by destruct (utf8_rejected c (bval b)).
Qed.

Lemma utf8_sound fuel s :
  valid_utf8_loop fuel s = true -> exists l, Forall scalar l /\ s = utf8_encode l.
Proof.
  revert s. induction fuel as [|fuel IH]; intros [|b s]; try done;
    [by exists []|by exists []|].
  rewrite valid_utf8_loop_cons. case_decide as Hb.
  - intros (l & Hl & ->)%IH. exists (bval b :: l). split.
    + constructor; [|done]. pose proof (bval_range b). unfold scalar. lia.
    + unfold utf8_encode. rewrite fmap_cons. cbn [concat]. unfold utf8_encode1 at 2.
      rewrite decide_True by done. by rewrite byte_of_Z_bval.
  - destruct (utf8_multi b s) as [s'|] eqn:E; [|done]. intros (l & Hl & ->)%IH.
    apply utf8_multi_sound in E as (c & Hc & ? & ->); [|lia].
    exists (c :: l). by split; [constructor|].
Qed.

Lemma utf8_complete l fuel :
  Forall scalar l -> length (utf8_encode l) <= fuel -> valid_utf8_loop fuel (utf8_encode l) = true.
Proof.
  intros Hl. revert fuel. induction Hl as [|c l Hc Hl IH]; intros fuel Hf; [by destruct fuel|].
  unfold utf8_encode in *. rewrite fmap_cons in *. simpl concat in *.
  destruct (decide (c < 0x80)%Z) as [Hlt|Hge].
  - destruct (utf8_encode1_cases c Hc) as [[? E]|[[? E]|[[? E]|[? E]]]]; try lia.
    rewrite E in *. simpl in Hf. destruct fuel as [|fuel]; [lia|].
    simpl app. rewrite valid_utf8_loop_cons, bval_byte_of_Z, decide_True.
    + apply IH. lia.
    + rewrite Z.mod_small; lia.
  - destruct (utf8_multi_complete c (concat (utf8_encode1 <$> l)) Hc) as (b & s & E & Hb & Hm); [lia|].
    rewrite E in *. simpl in Hf. rewrite length_app in Hf. destruct fuel as [|fuel]; [lia|].
    simpl app. rewrite valid_utf8_loop_cons, decide_False, Hm by lia. apply IH. lia.
Qed.

Lemma valid_utf8_spec s : valid_utf8 s = true <-> exists l, Forall scalar l /\ s = utf8_encode l.
Proof.
  split; [apply utf8_sound|]. intros (l & Hl & ->). by apply utf8_complete.
Qed.

(** ** Paths: the reference predicate *)

Definition dotdot : cstr := cs "..".

(** What the ABI document calls a valid path. *)
Record path_ok (p : cstr) : Prop := {
  path_absolute : exists r, p = slash :: r /\ r <> [] /\
    Forall (fun c => c.1 <> [] /\ c.1 <> dotdot) (components r);
  path_bounded : length p <= WEBOS_ABI_MAX_PATH_BYTES;
  path_utf8 : exists l, Forall scalar l /\ p = utf8_encode l;
  path_no_control : Forall (fun c => 0x20 <= bval c)%Z p;
  path_no_trailing : last p <> Some slash;
}.

(** The scan from the middle of a component: it checks the rest of the
    component for control characters and starts again after the slash. *)
Definition scan_rest (k : cstr) : bool :=
  match k with [] => true | _ :: k' => path_scan true k' end.

Definition printable (c : byte) : bool := bool_decide (0x20 <= bval c)%Z.

Lemma path_scan_slash at_start k : path_scan at_start (slash :: k) = path_scan true k.
Proof. done. Qed.

Lemma path_scan_mid c k :
  slash ∉ c -> (k = [] \/ head k = Some slash) ->
  path_scan false (c ++ k) = forallb printable c && scan_rest k.
Proof.
  intros Hc Hk. induction c as [|x c IH]; simpl.
  - destruct k as [|y k]; [done|]. destruct Hk as [|[= ->]]; [done|]. done.
  - rewrite andb_false_r, andb_false_l. unfold printable at 1.
    rewrite (bool_decide_false (x = slash)) by set_solver.
    rewrite IH by set_solver. case_decide.
    + by rewrite bool_decide_false by lia.
    + by rewrite bool_decide_true by lia.
Qed.

(** At the start of a component the scan also rejects "..". *)
Lemma path_scan_start c k :
  slash ∉ c -> NUL ∉ c -> (k = [] \/ head k = Some slash) ->
  path_scan true (c ++ k) = forallb printable c && negb (bool_decide (c = dotdot)) && scan_rest k.
Proof.
  intros Hs Hn Hk. destruct c as [|x c].
  { destruct k as [|y k]; [done|]. destruct Hk as [|[= ->]]; done. }
  assert (bool_decide (x = "."%byte) && bool_decide (char_at ((x :: c) ++ k) 1 = "."%byte) && true
     && (bool_decide (char_at ((x :: c) ++ k) 2 = NUL) || bool_decide (char_at ((x :: c) ++ k) 2 = slash))
     = bool_decide (x :: c = dotdot)) as Hd.
  { change dotdot with ["."%byte; "."%byte]. unfold char_at. apply eq_bool_prop_intro.
    rewrite !andb_True, orb_True, !bool_decide_spec.
    destruct c as [|y [|z c]]; simpl.
    1, 2: destruct k as [|z k]; simpl; [|destruct Hk as [|[= ->]]; [done|]].
    1-4: split; [intros; destruct_and?; simplify_eq; done|intros; simplify_eq; auto].
    split; [|done]. set_solver. }
  cbn [app path_scan] in *. rewrite Hd. cbn [forallb]. unfold printable at 1. clear Hd. destruct (decide (bval x < 0x20)%Z).
  - by rewrite (bool_decide_false (0x20 <= bval x)%Z) by lia.
  - rewrite (bool_decide_true (0x20 <= bval x)%Z) by lia. rewrite (bool_decide_false (x = slash)) by set_solver.
    rewrite path_scan_mid by set_solver. case_bool_decide; simpl; [by rewrite andb_false_r|].
    by rewrite andb_true_r.
Qed.

Lemma path_scan_components s :
  no_nul s ->
  path_scan true s = true
  <-> Forall (fun c => 0x20 <= bval c)%Z s /\ Forall (fun c => c.1 <> dotdot) (components s).
Proof.
  unfold no_nul. induction s as [s IH] using (induction_ltof1 _ (@length byte)). unfold ltof in IH.
  intros Hn. rewrite components_unfold. destruct s as [|x s]; [by split; repeat constructor|].
  set (p := x :: s) in *. assert (Hp : forall l, forallb printable l = true <-> Forall (fun c => 0x20 <= bval c)%Z l).
  { intros l. rewrite <- Is_true_true, forallb_True.
    apply Forall_proper; [|done]. intros c. unfold printable. by rewrite bool_decide_spec. }
  destruct (strchr p slash) as [i|] eqn:E.
  - apply strchr_Some in E as (E & Hi & Hl). rewrite E in Hn. rewrite E at 1 2.
    rewrite path_scan_start by (first [done|set_solver]). cbn [scan_rest].
    rewrite !andb_true_iff, Hp, IH, Forall_app, !Forall_cons; [|rewrite length_drop; lia|set_solver].
    rewrite negb_true_iff, bool_decide_eq_false. simpl. change (0x20 <= bval slash)%Z with (32 <= 47)%Z.
    intuition lia.
  - apply strchr_None in E. rewrite <- (app_nil_r p) at 1.
    rewrite path_scan_start by auto. simpl scan_rest.
    rewrite !andb_true_iff, Hp, negb_true_iff, bool_decide_eq_false, Forall_singleton. naive_solver.
Qed.

Lemma valid_path_spec p : no_nul p -> valid_path (Some p) = true <-> path_ok p.
Proof.
  intros Hn. unfold valid_path, char_at.
  destruct p as [|x r].
  { rewrite decide_True; [|left; done]. split; [done|]. by intros [(r & ? & _)]. }
  set (n := length (x :: r) `min` (WEBOS_ABI_MAX_PATH_BYTES + 1)).
  case_decide as H1.
  { split; [done|]. intros [(r' & ? & Hr & _) Hl _ _ Ht]. simplify_eq.
    exfalso. destruct H1 as [?|[?|[?|H1]]]; [done|subst n; simpl in *; lia|subst n; lia|].
    rewrite last_lookup in Ht. apply Ht.
    replace (pred (length (slash :: r'))) with (n - 1) by (subst n; unfold WEBOS_ABI_MAX_PATH_BYTES in *; simpl in *; lia).
    destruct ((slash :: r') !! (n - 1)) as [b|] eqn:E; simpl in H1; [by subst|].
    done. }
  assert (x = slash) as -> by (apply dec_stable; naive_solver).
  assert (n <= WEBOS_ABI_MAX_PATH_BYTES) by (apply Nat.nlt_ge; naive_solver).
  assert (length (slash :: r) = n) as Hlen by (subst n; unfold WEBOS_ABI_MAX_PATH_BYTES in *; simpl in *; lia).
  rewrite (take_ge (slash :: r)) by lia.
  assert (default NUL ((slash :: r) !! (n - 1)) <> slash) as Hlast by naive_solver.
  assert (last (slash :: r) <> Some slash) as Hlast'.
  { rewrite last_lookup. replace (pred (length (slash :: r))) with (n - 1) by lia. intros E. by rewrite E in Hlast. }
  assert (r <> []) as Hr by (by intros ->).
  case_decide as H2.
  - split; [done|]. intros [(r' & ? & _ & Hc) _ Hu _ _]. simplify_eq. exfalso.
    destruct H2 as [H2|H2].
    + apply valid_utf8_spec in Hu. congruence.
    + apply H2, strstr_None. intros a b E.
      eapply (proj1 (components_nonempty r')); [|by exists a, b].
      eapply Forall_impl; [exact Hc|]. naive_solver.
  - change (path_scan true (slash :: r)) with (path_scan true r).
    rewrite path_scan_components by (by apply not_elem_of_cons in Hn as [_ ?]).
    assert (valid_utf8 (slash :: r) = true) as Hu by (apply not_false_is_true; naive_solver).
    assert (strstr (slash :: r) [slash; slash] = None) as Hss by (apply dec_stable; naive_solver).
    assert (Forall (fun c => c.1 <> []) (components r)) as Hne.
    { apply components_nonempty. intros (a & b & E). rewrite strstr_None in Hss. exact (Hss a b E). }
    split.
    + intros [Hp Hd]. split; [|lia|by apply valid_utf8_spec|by constructor|done].
      exists r. split_and!; [done..|]. by apply Forall_and.
    + intros [(r' & ? & _ & Hc) _ _ Hp _]. simplify_eq.
      apply Forall_cons in Hp as [_ ?]. split; [done|]. eapply Forall_impl; [exact Hc|]. naive_solver.
Qed.

(** ** What a context allows *)

(** [p] is the directory [g] itself, or lies below it. *)
Definition in_scope (g p : cstr) : Prop :=
  g <> [] /\ exists k, p = g ++ k /\ (k = [] \/ head k = Some slash \/ last g = Some slash).

Lemma prefix_boundary_spec p g : no_nul p -> prefix_boundary p g = true <-> in_scope g p.
Proof.
  intros Hn. unfold prefix_boundary, in_scope, char_at.
  rewrite !andb_true_iff, !orb_true_iff, !bool_decide_eq_true, starts_with_spec, last_lookup.
  replace (pred (length g)) with (length g - 1) by lia.
  split.
  - intros ([Hg (k & ->)] & H). split; [intros ->; simpl in Hg; lia|]. exists k. split; [done|].
    rewrite lookup_app_r, Nat.sub_diag in H by lia.
    destruct H as [[H|H]|H].
    + left. destruct k as [|b k]; [done|]. simpl in H. subst. exfalso. apply Hn. set_solver.
    + right; left. by destruct k as [|b k]; simpl in *; subst.
    + right; right. by destruct (g !! (length g - 1)) as [b|]; simpl in *; subst.
  - intros [Hg (k & -> & Hk)].
    split; [split; [destruct g; simpl; [done|lia]|by exists k]|].
    rewrite lookup_app_r, Nat.sub_diag by lia.
    destruct Hk as [->|[Hk|Hk]]; [by left; left|left; right|right].
    + by destruct k; simplify_eq/=.
    + by rewrite Hk.
Qed.

(** The slots the loops read hold a matching string. *)
Lemma existsb_active (f : cstr -> bool) slots count :
  existsb (fun g => match g with Some g => f g | None => false end) (active slots count) = true
  <-> exists g, Some g ∈ active slots count /\ f g = true.
Proof.
  rewrite existsb_exists. setoid_rewrite <- list_elem_of_In. split.
  - intros ([g|] & ? & ?); naive_solver.
  - intros (g & ? & ?). by exists (Some g).
Qed.

Lemma path_allowed_spec c p :
  no_nul p ->
  webos_app_path_allowed (Some c) (Some p) = true
  <-> path_ok p /\ (in_scope (storage_root c) p
        \/ exists g, Some g ∈ active (path_grants c) (path_grant_count c) /\ in_scope g p).
Proof.
  intros Hn. unfold webos_app_path_allowed.
  rewrite <- (valid_path_spec p) by done. rewrite <- (prefix_boundary_spec p (storage_root c)) by done.
  destruct (valid_path (Some p)).
  - rewrite decide_False by done. destruct (prefix_boundary p (storage_root c)) eqn:E; [naive_solver|].
    rewrite existsb_active. setoid_rewrite prefix_boundary_spec; [|done..]. naive_solver.
  - rewrite decide_True by done. naive_solver.
Qed.

(** Identifiers hold no slash. *)
Lemma valid_component_chars i : valid_component (Some i) = true ->
  slash ∉ i /\ NUL ∉ i /\ 0 < length i < WEBOS_APP_MAX_ID.
Proof.
  unfold valid_component. case_decide as H; [done|].
  rewrite <- Is_true_true, forallb_True, Forall_forall. intros Hc.
  split_and!; [intros Hi%Hc; vm_compute in Hi; done|intros Hi%Hc; vm_compute in Hi; done|lia..].
Qed.

(** A slash-free prefix before a slash is determined by the string. *)
Lemma slash_split a b x y : slash ∉ a -> slash ∉ b -> a ++ slash :: x = b ++ slash :: y -> a = b.
Proof.
  revert b. induction a as [|c a IH]; intros [|d b] Ha Hb E; simplify_eq/=; [done|set_solver..|].
  f_equal. apply (IH b); set_solver.
Qed.

(** The storage root of an application. *)
Definition storage_of (i : cstr) : cstr := cs "/STORAGE:/apps/" ++ i ++ cs "/data".

(** What [webos_app_context_init] stores. *)
Lemma init_ok c0 i v :
  valid_component (Some i) = true -> char_at v 0 <> NUL ->
  exists c, webos_app_context_init (Some c0) (Some i) (Some v) = (WEBOS_OK, Some c)
    /\ storage_root c = storage_of i /\ path_grant_count c = 0 /\ http_origin_count c = 0
    /\ max_io_bytes c = WEBOS_ABI_MAX_IO_BYTES /\ ready c = false.
Proof.
  intros Hi Hv. unfold webos_app_context_init. rewrite decide_False by (rewrite Hi; naive_solver).
  change (cs "/STORAGE:/apps/" ++ i ++ cs "/data") with (storage_of i).
  pose proof (valid_component_chars i Hi) as (_ & _ & Hl).
  assert (length (storage_of i) < WEBOS_ABI_MAX_PATH_BYTES) as Hlen.
  { unfold storage_of. rewrite !length_app. change (length (cs "/STORAGE:/apps/")) with 15.
    change (length (cs "/data")) with 5. unfold WEBOS_APP_MAX_ID, WEBOS_ABI_MAX_PATH_BYTES in *. lia. }
  rewrite decide_False by lia. eexists. split; [done|]. split_and!; [|done..]. cbn [storage_root].
  apply take_ge. lia.
Qed.

(** ** Theorems *)

(** [valid_utf8] accepts exactly the strings that are the concatenation of
    the shortest UTF-8 encodings of Unicode scalar values: overlong forms,
    surrogates, values above 0x10ffff and truncated sequences are all
    rejected, and nothing else is. *)
Theorem valid_utf8_is_utf8 s :
  valid_utf8 s = true <-> exists l, Forall scalar l /\ s = utf8_encode l.
Proof. apply valid_utf8_spec. Qed.

(** C37: [webos_app_path_allowed] allows a path exactly when it is a valid
    absolute path (bounded, UTF-8, no control characters, no empty and no ".."
    component, no trailing slash) that is the storage root or a granted
    directory, or lies below one of them at a component boundary. *)
Theorem path_allowed_iff c p :
  no_nul p ->
  webos_app_path_allowed (Some c) (Some p) = true
  <-> path_ok p /\ (in_scope (storage_root c) p
        \/ exists g, Some g ∈ active (path_grants c) (path_grant_count c) /\ in_scope g p).
Proof. apply path_allowed_spec. Qed.

(** Two applications with different identifiers are isolated: their fresh
    contexts initialise with success whatever memory they reuse, and no path
    is allowed by both. *)
Theorem fresh_apps_isolated c0 d0 i j v w p :
  valid_component (Some i) = true -> valid_component (Some j) = true ->
  char_at v 0 <> NUL -> char_at w 0 <> NUL -> i <> j -> no_nul p ->
  exists c d,
    webos_app_context_init (Some c0) (Some i) (Some v) = (WEBOS_OK, Some c)
    /\ webos_app_context_init (Some d0) (Some j) (Some w) = (WEBOS_OK, Some d)
    /\ webos_app_path_allowed (Some c) (Some p) && webos_app_path_allowed (Some d) (Some p) = false.
Proof.
  intros Hi Hj Hv Hw Hij Hp.
  destruct (init_ok c0 i v Hi Hv) as (c & Ec & Rc & Gc & _).
  destruct (init_ok d0 j w Hj Hw) as (d & Ed & Rd & Gd & _).
  exists c, d. split_and!; [done..|]. apply not_true_is_false. rewrite andb_true_iff.
  rewrite !path_allowed_spec by done. unfold active. rewrite Gc, Gd, Rc, Rd. simpl.
  intros [[_ [(_ & k & -> & _)|(g & ? & _)]] [_ [(_ & k' & E & _)|(g' & ? & _)]]]; [|exfalso; eapply not_elem_of_nil; eassumption..].
  apply Hij. unfold storage_of in E. rewrite <- !app_assoc in E. apply app_inv_head in E.
  apply (slash_split _ _ (cs "data" ++ k) (cs "data" ++ k')); [apply valid_component_chars; done..|].
  exact E.
Qed.

(** An origin matches a URL: the wildcard any non-empty http or https URL, any
    other origin the URLs that continue it with a path, query or fragment. *)
Definition url_in_origin (u : list byte) (o : cstr) : Prop :=
  (o = cs "*" /\ exists k, k <> [] /\ (u = cs "http://" ++ k \/ u = cs "https://" ++ k))
  \/ (o <> [] /\ exists k, u = o ++ k
       /\ (k = [] \/ exists t, t ∈ [slash; "?"%byte; "#"%byte] /\ head k = Some t)).

Lemma longer_prefix (pre u : list byte) :
  bool_decide (length pre < length u) && starts_with pre u = true
  <-> exists k, k <> [] /\ u = pre ++ k.
Proof.
  rewrite andb_true_iff, bool_decide_eq_true, starts_with_spec. split.
  - intros [Hl [k ->]]. exists k. split; [|done]. intros ->. rewrite app_nil_r in Hl. lia.
  - intros (k & Hk & ->). rewrite length_app. destruct k; [done|]. split; [simpl; lia|eauto].
Qed.

Lemma origin_matches_spec u o : no_nul u -> origin_matches u (Some o) = true <-> url_in_origin u o.
Proof.
  intros Hn. unfold origin_matches, url_in_origin. rewrite orb_true_iff. apply Morphisms_Prop.or_iff_morphism.
  - rewrite andb_true_iff, (orb_true_iff _ (_ && _)).
    change 7 with (length (cs "http://")) at 1. change 8 with (length (cs "https://")) at 1.
    rewrite !longer_prefix, andb_true_iff, !bool_decide_eq_true. unfold char_at. split.
    + intros [[H1 H2] H]. destruct o as [|x [|y o]]; simplify_eq/=. split; [done|]. naive_solver.
    + intros [-> H]. split; [done|]. naive_solver.
  - rewrite !andb_true_iff, !orb_true_iff, !bool_decide_eq_true, starts_with_spec. unfold char_at. split.
    + intros ([[H1 H2] [k ->]] & H). split; [by intros ->|]. exists k. split; [done|].
      rewrite length_app, lookup_app_r, Nat.sub_diag in H by lia. destruct k as [|b k]; [by left|].
      right. exists b. simpl in H. split; [|done]. set_solver by lia.
    + intros (Ho & k & -> & H). rewrite length_app, lookup_app_r, Nat.sub_diag by lia.
      split; [split; [split; [destruct o; simpl; [done|lia]|lia]|by exists k]|].
      destruct H as [->|(t & Ht & H)]; [left; left; left; simpl; lia|].
      destruct k as [|b k]; simplify_eq/=. set_solver.
Qed.

(** [webos_app_url_allowed] allows a URL exactly when it is not empty,
    holds no NUL and one of the configured origins matches it at an origin
    boundary; a host that merely begins with an allowed origin is refused. *)
Theorem url_allowed_iff c u :
  webos_app_url_allowed (Some c) (Some u) = true
  <-> u <> [] /\ no_nul u
      /\ exists o, Some o ∈ active (http_origins c) (http_origin_count c) /\ url_in_origin u o.
Proof.
  unfold webos_app_url_allowed. case_decide as H.
  - split; [done|]. intros (Hu & Hn & _). exfalso.
    destruct H as [H|H]; [by destruct u|]. by apply H, strchr_None.
  - assert (u <> []) by (intros ->; naive_solver).
    assert (no_nul u) as Hn by (apply strchr_None, dec_stable; naive_solver).
    rewrite existsb_exists. setoid_rewrite <- list_elem_of_In. split.
    + intros ([o|] & Ho & E); [|done]. split_and!; [done..|]. exists o. split; [done|].
      by apply origin_matches_spec.
    + intros (_ & _ & o & Ho & E). exists (Some o). split; [done|]. by apply origin_matches_spec.
Qed.

(** [webos_abi_map_errno] never lets a platform errno through: results that
    are not errors pass unchanged, and every error becomes one of the seven
    ABI errors, so its sign still tells failure from success. *)
Theorem map_errno_stable error :
  (0 <= error -> webos_abi_map_errno error = error)%Z
  /\ (error < 0 -> WEBOS_UNSUPPORTED <= webos_abi_map_errno error <= WEBOS_INVALID)%Z.
Proof.
  unfold webos_abi_map_errno. split; intros H.
  - by rewrite decide_True by lia.
  - rewrite decide_False by lia. repeat case_decide; vm_compute; split; congruence.
Qed.

(** A buffer passes [webos_abi_validate_buffer] exactly when its length is
    within the quota of the context and it is empty or the runtime vouches for
    the whole range; the quota is checked before the validator is called. *)
Theorem validate_buffer_ok c data len valid :
  (0 <= len)%Z ->
  webos_abi_validate_buffer (Some c) data len (Some valid) = WEBOS_OK
  <-> (len <= max_io_bytes c)%Z
      /\ (len = 0%Z \/ exists d, data = Some d /\ valid d len = true).
Proof.
  intros Hl. unfold webos_abi_validate_buffer. case_decide; [split; [done|lia]|].
  case_decide; [split; [split; [lia|by left]|done]|].
  destruct data as [d|]; [destruct (valid d len) eqn:E|]; split; try done.
  - split; [lia|eauto].
  - intros [_ [|(d' & [= <-] & ?)]]; [done|congruence].
  - intros [_ [|(d' & ? & _)]]; done.
Qed.
End App.

(** ** Witnesses *)

(** A context with one granted directory. *)
Definition demo_context : App.webos_app_context :=
  App.Context (cs "clock") (Some (cs "1.0")) (cs "/STORAGE:/apps/clock/data")
    [Some (cs "/dev/gpio"); None; None; None; None; None; None; None] 1
    [Some (cs "http://time.example"); None; None; None; None; None; None; None] 1
    WEBOS_ABI_MAX_IO_BYTES false 0 0.

Lemma path_allowed_iff_witness :
  (App.path_ok (cs "/dev/gpio/4/value")
   /\ (App.in_scope (cs "/STORAGE:/apps/clock/data") (cs "/dev/gpio/4/value")
       \/ exists g, Some g ∈ App.active (App.path_grants demo_context) 1
            /\ App.in_scope g (cs "/dev/gpio/4/value")))
  /\ App.webos_app_path_allowed (Some demo_context) (Some (cs "/dev/gpiox")) = false.
Proof.
  split; [|vm_compute; reflexivity].
  apply (App.path_allowed_iff demo_context (cs "/dev/gpio/4/value")); [|vm_compute; reflexivity].
  apply (bool_decide_unpack _). vm_compute. exact I.
Defined.

Lemma fresh_apps_isolated_witness :
  exists c d,
    App.webos_app_context_init (Some App.zero_context) (Some (cs "clock")) (Some (cs "1")) = (WEBOS_OK, Some c)
    /\ App.webos_app_context_init (Some App.zero_context) (Some (cs "clock2")) (Some (cs "1")) = (WEBOS_OK, Some d)
    /\ App.webos_app_path_allowed (Some c) (Some (cs "/STORAGE:/apps/clock2/data/x"))
       && App.webos_app_path_allowed (Some d) (Some (cs "/STORAGE:/apps/clock2/data/x")) = false.
Proof.
  apply (App.fresh_apps_isolated App.zero_context App.zero_context (cs "clock") (cs "clock2") (cs "1") (cs "1")
           (cs "/STORAGE:/apps/clock2/data/x"));
    [reflexivity|reflexivity|discriminate|discriminate|discriminate|].
  apply (bool_decide_unpack _). vm_compute. exact I.
Defined.

Lemma map_errno_stable_witness :
  (WEBOS_UNSUPPORTED <= App.webos_abi_map_errno (- ENOENT) <= WEBOS_INVALID)%Z.
Proof. apply (App.map_errno_stable (- ENOENT)). reflexivity. Defined.

Lemma validate_buffer_ok_witness :
  (16 <= App.max_io_bytes demo_context)%Z /\ (16%Z = 0%Z \/ exists d, Some 64%Z = Some d /\ true = true).
Proof.
  apply (App.validate_buffer_ok demo_context (Some 64%Z) 16 (fun _ _ => true)); [lia|reflexivity].
Defined.
