(* ===== verification/Json.v ===== *)
(** * JSON helpers

    Model of src/app/src/utils/json/json.c: the substring-based key search and
    string extraction the HTTP handlers read requests with, and the escaping
    they write responses with.  Output buffers are arrays ([write_at]), so that
    preserving their length is staying within their bounds. *)

From S2P Require Import Prelude CLib.
From Stdlib Require Import ZArith Lia.
From Stdlib Require Import Strings.Byte.
From stdpp Require Import base numbers list list_numbers strings sets.

Definition quote : byte := x22.
Definition backslash : byte := x5c.
Definition newline : byte := x0a.
Definition creturn : byte := x0d.
Definition tab : byte := x09.

(** [sizeof(pattern)]. *)
Definition PATTERN_SIZE : nat := 32.

Module Json.

(** ** Reading *)

(** The key with its quotes, what [snprintk] leaves in [pattern]. *)
Definition quoted (key : cstr) : cstr := [quote] ++ key ++ [quote].

Definition json_has_key (json key : cstr) : bool :=
  if decide (PATTERN_SIZE <= length (quoted key)) then false
  else bool_decide (strstr json (quoted key) <> None).

Definition is_blank (c : byte) : bool :=
  bool_decide (c = " "%byte \/ c = tab \/ c = creturn \/ c = newline).

Fixpoint skip_blanks (p : cstr) : cstr :=
  match p with
  | [] => []
  | c :: p' => if is_blank c then skip_blanks p' else p
  end.

(** [if ( *p++ != c) return -EINVAL], the end of the string being a NUL. *)
Definition expect (c : byte) (p : cstr) : option cstr :=
  match p with
  | x :: p' => if decide (x = c) then Some p' else None
  | [] => None
  end.

(** The [switch] on the character after a backslash. *)
Definition unescape (c : byte) : byte :=
  if decide (c = "n"%byte) then newline
  else if decide (c = "r"%byte) then creturn
  else if decide (c = "t"%byte) then tab
  else c.

(** The copying loop and what follows it. *)
Fixpoint string_loop (p : cstr) (out : list byte) (i out_len : nat) : Z * list byte :=
  match p with
  | [] => ((- EINVAL)%Z, out)
  | c :: p' =>
      if decide (c = quote) then (0%Z, write_at out i [NUL])
      else if decide (out_len <= i + 1) then ((- ENOMEM)%Z, out)
      else if decide (c = backslash) then
        match p' with
        | [] => ((- EINVAL)%Z, out)
        | e :: p'' => string_loop p'' (write_at out i [unescape e]) (i + 1) out_len
        end
      else string_loop p' (write_at out i [c]) (i + 1) out_len
  end.

Definition json_get_string (json key : cstr) (out : list byte) (out_len : nat) : Z * list byte :=
  if decide (PATTERN_SIZE <= length (quoted key)) then ((- EINVAL)%Z, out)
  else match strstr json (quoted key) with
       | None => ((- ENOENT)%Z, out)
       | Some i =>
           match expect ":"%byte (skip_blanks (drop (i + length (quoted key)) json)) with
           | None => ((- EINVAL)%Z, out)
           | Some p =>
               match expect quote (skip_blanks p) with
               | None => ((- EINVAL)%Z, out)
               | Some p' => string_loop p' out 0 out_len
               end
           end
       end.

(** ** Writing *)

(** The characters written as a backslash and one character. *)
Definition short_escape (c : byte) : option byte :=
  if decide (c = backslash \/ c = quote) then Some c
  else if decide (c = newline) then Some "n"%byte
  else if decide (c = creturn) then Some "r"%byte
  else if decide (c = tab) then Some "t"%byte
  else None.

(** [\u%04x] for a value below 0x20. *)
Definition unicode_escape (c : byte) : list byte :=
  [backslash; "u"%byte; "0"%byte; "0"%byte; hex_digit (bval c / 16); hex_digit (bval c mod 16)].

Fixpoint append_loop (dst : list byte) (pos dst_len : nat) (src : list byte) : nat * list byte :=
  match src with
  | [] => (pos, write_at dst pos [NUL])
  | c :: src' =>
      if decide (pos + 1 < dst_len) then
        match short_escape c with
        | Some e =>
            if decide (dst_len <= pos + 2) then (pos, dst)
            else append_loop (write_at (write_at dst pos [backslash]) (pos + 1) [e]) (pos + 2) dst_len src'
        | None =>
            if decide (bval c < 0x20)%Z then
              if decide (dst_len <= pos + 6) then (pos, dst)
              else
                let dst' := write_at dst pos (take (dst_len - pos - 1) (unicode_escape c) ++ [NUL]) in
                let ret := length (unicode_escape c) in
                if decide (dst_len - pos <= ret) then (pos, dst')
                else append_loop dst' (pos + ret) dst_len src'
            else append_loop (write_at dst pos [c]) (pos + 1) dst_len src'
        end
      else (pos, write_at dst pos [NUL])
  end.

Definition append_json_string (dst : list byte) (dst_len : nat) (src : list byte) : nat * list byte :=
  append_loop dst 0 dst_len src.

(** ** The reference encoder *)

Definition escape1 (c : byte) : list byte :=
  match short_escape c with
  | Some e => [backslash; e]
  | None => if decide (bval c < 0x20)%Z then unicode_escape c else [c]
  end.

Definition escape (s : list byte) : list byte := concat (escape1 <$> s).

(** The characters the reader decodes to what was written. *)
Definition plain (c : byte) : Prop :=
  (0x20 <= bval c)%Z \/ c = newline \/ c = creturn \/ c = tab.

#[global] Instance plain_dec c : Decision (plain c).
Proof. unfold plain. apply _. Defined.

Lemma escape_cons c s : escape (c :: s) = escape1 c ++ escape s.
Proof. done. Qed.

Lemma escape_app a b : escape (a ++ b) = escape a ++ escape b.
Proof. unfold escape. by rewrite fmap_app, concat_app. Qed.

Lemma length_escape1 c : 1 <= length (escape1 c).
Proof. unfold escape1. repeat case_match; simpl; lia. Qed.

(** Two adjacent stores are one. *)
Lemma write_at_pair (a : list byte) off x y :
  off + 2 <= length a -> write_at (write_at a off [x]) (off + 1) [y] = write_at a off [x; y].
Proof.
  intros H. apply (list_eq_lookup_lt _ _ (length a)); [arr|arr|]. intros i Hi.
  destruct (decide (i = off)) as [->|]; [|destruct (decide (i = off + 1)) as [->|]].
  - rewrite lookup_write_at_old, !lookup_write_at_new by arr. by rewrite Nat.sub_diag.
  - rewrite !lookup_write_at_new by arr. by replace (off + 1 - off) with 1 by lia; rewrite Nat.sub_diag.
  - rewrite !lookup_write_at_old; [done|arr..].
Qed.

(** One iteration of the escaping loop. *)
Lemma append_loop_cons dst pos dst_len c src :
  length dst = dst_len -> pos < dst_len ->
  (pos + length (escape1 c) < dst_len /\
   exists dst', append_loop dst pos dst_len (c :: src) = append_loop dst' (pos + length (escape1 c)) dst_len src
     /\ length dst' = dst_len /\ take (pos + length (escape1 c)) dst' = take pos dst ++ escape1 c)
  \/ (dst_len <= pos + length (escape1 c)
      /\ append_loop dst pos dst_len (c :: src)
         = (pos, if decide (pos + 1 < dst_len) then dst else write_at dst pos [NUL])).
Proof.
  intros Hd Hp. cbn [append_loop]. pose proof (length_escape1 c) as He. destruct (decide (pos + 1 < dst_len)).
  2: { right. split; [lia|done]. }
  unfold escape1 in *. destruct (short_escape c) as [e|].
  - simpl length. case_decide; [right; done|]. left. split; [lia|].
    rewrite write_at_pair by lia. eexists. split; [done|]. split; [arr|].
    by apply (take_write_at dst pos [backslash; e]); lia.
  - destruct (decide (bval c < 0x20)%Z); simpl length in *.
    + case_decide; [right; done|]. left. split; [lia|].
      rewrite (decide_False (P := dst_len - pos <= 6)) by lia.
      rewrite take_ge by (simpl; lia). eexists. split; [done|]. split; [arr|].
      rewrite <- (take_ge (take (pos + 6) _) (pos + 6)) at 1 by arr.
      transitivity (take (pos + 6) (take (pos + length (unicode_escape c ++ [NUL]))
         (write_at dst pos (unicode_escape c ++ [NUL])))).
      { rewrite !take_take. f_equal. rewrite length_app. simpl. lia. }
      rewrite take_write_at by lia. rewrite app_assoc, take_app_le by arr. apply take_ge. arr.
    + left. split; [lia|]. eexists. split; [done|]. split; [arr|].
      by apply (take_write_at dst pos [c]); lia.
Qed.

(** What the whole loop does: it escapes the longest prefix that fits. *)
Lemma append_loop_spec dst pos dst_len src :
  length dst = dst_len -> pos < dst_len ->
  exists k dst', k <= length src
    /\ append_loop dst pos dst_len src = (pos + length (escape (take k src)), dst')
    /\ length dst' = dst_len /\ pos + length (escape (take k src)) < dst_len
    /\ take (pos + length (escape (take k src))) dst' = take pos dst ++ escape (take k src)
    /\ (k = length src -> dst' !! (pos + length (escape src)) = Some NUL)
    /\ (k < length src -> dst_len <= pos + length (escape (take (S k) src))).
Proof.
  revert dst pos. induction src as [|c src IH]; intros dst pos Hd Hp.
  - exists 0, (write_at dst pos [NUL]). simpl. rewrite Nat.add_0_r, app_nil_r.
    split_and!; [lia|done|arr|done| | |lia].
    + pose proof (take_write_at dst pos [NUL] ltac:(lia)) as E. apply (f_equal (take pos)) in E.
      rewrite take_take, take_app_le, take_take in E by arr. by rewrite !Nat.min_l in E by (simpl; lia).
    + intros _. rewrite lookup_write_at_new by (simpl; lia). by rewrite Nat.sub_diag.
  - destruct (append_loop_cons dst pos dst_len c src Hd Hp) as [(Hf & dst' & E & Hl & Ht)|(Hf & E)].
    + destruct (IH dst' (pos + length (escape1 c)) Hl Hf) as (k & dst'' & Hk & E' & Hl' & Hf' & Ht' & Hn & Hs).
      exists (S k), dst''. cbn [take length]. rewrite !escape_cons, !length_app, !Nat.add_assoc.
      split_and!; [lia|by rewrite E|done|done| | |].
      * by rewrite Ht', Ht, app_assoc.
      * intros [= Hk']. by apply Hn.
      * intros Hk'. apply Hs. lia.
    + exists 0, (if decide (pos + 1 < dst_len) then dst else write_at dst pos [NUL]).
      simpl take. simpl length. rewrite Nat.add_0_r, app_nil_r.
      split_and!; [lia|done|destruct (decide _); arr|done| |lia|].
      * destruct (decide _); [done|].
        pose proof (take_write_at dst pos [NUL] ltac:(lia)) as E'. apply (f_equal (take pos)) in E'.
        rewrite take_take, take_app_le, take_take in E' by arr. by rewrite !Nat.min_l in E' by (simpl; lia).
      * intros _. rewrite escape_cons. simpl. rewrite app_nil_r. lia.
Qed.

(** ** Reading back *)

Lemma take_write_one (l : list byte) off x : off < length l -> take (off + 1) (write_at l off [x]) = take off l ++ [x].
Proof. intros H. by apply (take_write_at l off [x]); lia. Qed.

Lemma plain_escape c : plain c ->
  (exists e, escape1 c = [backslash; e] /\ unescape e = c)
  \/ (escape1 c = [c] /\ c <> quote /\ c <> backslash).
Proof.
  intros Hp. unfold escape1, short_escape, plain in *.
  destruct (decide (c = backslash \/ c = quote)) as [[->| ->]|H]; [by left; eexists..|].
  destruct (decide (c = newline)) as [->|]; [by left; eexists|].
  destruct (decide (c = creturn)) as [->|]; [by left; eexists|].
  destruct (decide (c = tab)) as [->|]; [by left; eexists|].
  rewrite decide_False by naive_solver lia. right. naive_solver.
Qed.

(** One iteration of the reading loop. *)
Lemma string_loop_escaped e p out i out_len :
  i + 1 < out_len ->
  string_loop (backslash :: e :: p) out i out_len = string_loop p (write_at out i [unescape e]) (i + 1) out_len.
Proof.
  intros H. cbn [string_loop]. rewrite decide_False by done. rewrite decide_False by lia. by rewrite decide_True.
Qed.

Lemma string_loop_other c p out i out_len :
  i + 1 < out_len -> c <> quote -> c <> backslash ->
  string_loop (c :: p) out i out_len = string_loop p (write_at out i [c]) (i + 1) out_len.
Proof.
  intros H Hq Hb. cbn [string_loop]. rewrite decide_False by done. rewrite decide_False by lia. by rewrite decide_False.
Qed.

Lemma string_loop_escape s out i rest :
  Forall plain s -> i + length s < length out ->
  exists out', string_loop (escape s ++ quote :: rest) out i (length out) = (0%Z, out')
    /\ length out' = length out /\ take (i + length s + 1) out' = take i out ++ s ++ [NUL].
Proof.
  intros Hs. revert out i. induction Hs as [|c s Hc Hs IH]; intros out i Hi; simpl in Hi.
  { exists (write_at out i [NUL]). simpl. split; [done|]. split; [arr|].
    rewrite Nat.add_0_r. apply take_write_one. lia. }
  rewrite escape_cons.
  assert (forall x, exists out', string_loop (escape s ++ quote :: rest) (write_at out i [x]) (i + 1) (length out) = (0%Z, out')
    /\ length out' = length out /\ take (i + length (c :: s) + 1) out' = take i out ++ (x :: s) ++ [NUL]) as Hgo.
  { intros x. destruct (IH (write_at out i [x]) (i + 1)) as (out' & E & Hl & Ht); [arr|].
    assert (length (write_at out i [x]) = length out) as Hw by arr. rewrite Hw in E, Hl.
    exists out'. split_and!; [done..|]. simpl. replace (i + S (length s) + 1) with (i + 1 + length s + 1) by lia.
    rewrite Ht, take_write_one by lia. by rewrite <- app_assoc. }
  destruct (plain_escape c Hc) as [(e & -> & He)|(-> & Hq & Hb)].
  - simpl app. rewrite string_loop_escaped, He by lia. apply Hgo.
  - simpl app. rewrite string_loop_other by (done || lia). apply Hgo.
Qed.

(** The string loop never leaves its buffer. *)
Lemma string_loop_bounds p out i out_len :
  length out = out_len -> i < out_len -> length (string_loop p out i out_len).2 = out_len.
Proof.
  revert out i. induction p as [p IH] using (induction_ltof1 _ (@length byte)). unfold ltof in IH.
  intros out i Ho Hi. destruct p as [|c p]; [done|]. cbn [string_loop].
  repeat case_decide; [cbn [snd]; arr|done| |apply IH; [simpl; lia|arr|lia]].
  destruct p as [|e p]; [done|]. apply IH; [simpl; lia|arr|lia].
Qed.

(** ** The value read *)

(** The string the loop stores, as a function of the document; [room] is what is
    left of the buffer. *)
Fixpoint decode (p : cstr) (room : nat) : Z + cstr :=
  match p with
  | [] => inl (- EINVAL)%Z
  | c :: p' =>
      if decide (c = quote) then inr []
      else if decide (room <= 1) then inl (- ENOMEM)%Z
      else if decide (c = backslash) then
        match p' with
        | [] => inl (- EINVAL)%Z
        | e :: p'' => match decode p'' (room - 1) with inl r => inl r | inr v => inr (unescape e :: v) end
        end
      else match decode p' (room - 1) with inl r => inl r | inr v => inr (c :: v) end
  end.

(** The value of a member, or the error. *)
Definition json_member (json key : cstr) (room : nat) : Z + cstr :=
  if decide (PATTERN_SIZE <= length (quoted key)) then inl (- EINVAL)%Z
  else match strstr json (quoted key) with
       | None => inl (- ENOENT)%Z
       | Some i =>
           match expect ":"%byte (skip_blanks (drop (i + length (quoted key)) json)) with
           | None => inl (- EINVAL)%Z
           | Some p => match expect quote (skip_blanks p) with None => inl (- EINVAL)%Z | Some p' => decode p' room end
           end
       end.

(** What a call leaves: the error, or 0 and the value with its NUL. *)
Definition stores (r : Z * list byte) (i : nat) (before : list byte) (v : Z + cstr) : Prop :=
  match v with
  | inl e => r.1 = e /\ (e < 0)%Z
  | inr v => r.1 = 0%Z /\ i + length v < length before /\ take (i + length v + 1) r.2 = take i before ++ v ++ [NUL]
  end.

Lemma string_loop_decode p out i :
  i < length out -> stores (string_loop p out i (length out)) i out (decode p (length out - i)).
Proof.
  revert out i. induction p as [p IH] using (induction_ltof1 _ (@length byte)). unfold ltof in IH.
  intros out i Hi. destruct p as [|c p]; [done|]. cbn [string_loop decode].
  case_decide; [cbn; rewrite Nat.add_0_r; split_and!; [done|lia|by apply take_write_one]|].
  destruct (decide (length out <= i + 1)); [by rewrite decide_True by lia|].
  rewrite (decide_False (P := length out - i <= 1)) by lia.
  assert (forall q x, length q < length (c :: p) -> stores (string_loop q (write_at out i [x]) (i + 1) (length out)) i out
            (match decode q (length out - i - 1) with inl r => inl r | inr v => inr (x :: v) end)) as Hgo.
  { intros q x Hq. assert (length (write_at out i [x]) = length out) as Hw by arr.
    pose proof (IH q Hq (write_at out i [x]) (i + 1) ltac:(lia)) as Hs. rewrite Hw in Hs.
    replace (length out - (i + 1)) with (length out - i - 1) in Hs by lia.
    destruct (decode q (length out - i - 1)) as [e|v]; [done|]. destruct Hs as (H1 & H2 & H3). cbn.
    split_and!; [done|lia|]. replace (i + S (length v) + 1) with (i + 1 + length v + 1) by lia.
    rewrite H3, take_write_one by lia. by rewrite <- app_assoc. }
  case_decide; [|apply Hgo; simpl; lia]. destruct p as [|e p]; [done|]. apply Hgo. simpl. lia.
Qed.

Lemma unescape_nul e : e <> NUL -> unescape e <> NUL.
Proof. intros He. unfold unescape. by repeat case_decide. Qed.

Lemma decode_no_nul p room v : NUL ∉ p -> decode p room = inr v -> NUL ∉ v.
Proof.
  revert room v. induction p as [p IH] using (induction_ltof1 _ (@length byte)). unfold ltof in IH.
  intros room v Hp. destruct p as [|c p]; [done|]. apply not_elem_of_cons in Hp as [Hc Hp]. cbn [decode].
  case_decide; [intros [= <-]; set_solver|]. case_decide; [done|]. case_decide.
  - destruct p as [|e p]; [done|]. apply not_elem_of_cons in Hp as [He Hp].
    destruct (decode p (room - 1)) as [r|w] eqn:E; [done|]. intros [= <-]. apply not_elem_of_cons.
    split; [intros Hx; symmetry in Hx; revert Hx; by apply unescape_nul|]. eapply IH; [|exact Hp|exact E]. simpl. lia.
  - destruct (decode p (room - 1)) as [r|w] eqn:E; [done|]. intros [= <-]. apply not_elem_of_cons.
    split; [done|]. eapply IH; [|exact Hp|exact E]. simpl. lia.
Qed.

Lemma skip_blanks_suffix p : exists k, p = k ++ skip_blanks p.
Proof.
  induction p as [|c p [k Hk]]; [by exists []|]. cbn [skip_blanks]. destruct (is_blank c); [|by exists []].
  exists (c :: k). simpl. by rewrite <- Hk.
Qed.

Lemma expect_suffix c p q : expect c p = Some q -> exists k, p = k ++ q.
Proof. destruct p as [|x p]; [done|]. cbn. case_decide; [|done]. intros [= <-]. by exists [x]. Qed.

(** The caller's buffer is read as the value, whatever it held before. *)
Lemma json_get_string_member json key out :
  no_nul json -> 0 < length out ->
  match json_member json key (length out) with
  | inl e => (json_get_string json key out (length out)).1 = e /\ (e < 0)%Z
  | inr v => (json_get_string json key out (length out)).1 = 0%Z
             /\ c_string (json_get_string json key out (length out)).2 = v /\ length v < length out
             /\ no_nul v
  end.
Proof.
  intros Hn Ho. unfold json_member, json_get_string. case_decide; [done|].
  destruct (strstr json (quoted key)) as [i|]; [|done].
  destruct (expect ":"%byte _) as [p|] eqn:E1; [|done]. destruct (expect quote _) as [q|] eqn:E2; [|done].
  assert (NUL ∉ q) as Hq.
  { intros Hin. apply Hn. rewrite <- (take_drop (i + length (quoted key)) json). apply elem_of_app. right.
    destruct (skip_blanks_suffix (drop (i + length (quoted key)) json)) as [k1 ->].
    apply expect_suffix in E1 as [k2 ->]. destruct (skip_blanks_suffix p) as [k3 ->].
    apply expect_suffix in E2 as [k4 ->]. set_solver. }
  pose proof (string_loop_decode q out 0 Ho) as Hs. rewrite Nat.sub_0_r in Hs. unfold stores in Hs.
  destruct (decode q (length out)) as [e|v] eqn:Ed; [done|]. pose proof (decode_no_nul _ _ _ Hq Ed) as Hv.
  destruct Hs as (H1 & H2 & H3). split_and!; [done| |lia|done]. cbn [Nat.add] in H3.
  rewrite <- (take_drop (length v + 1) (string_loop q out 0 (length out)).2), H3, take_0, app_nil_l.
  rewrite <- app_assoc. by apply c_string_app.
Qed.

(** ** Theorems *)

(** [append_json_string] stays within its destination, escapes the longest
    prefix of the source whose escaped form fits with its terminator, never
    cuts an escape sequence in half, and terminates the string when the whole
    source fitted. *)
Theorem append_json_string_longest_prefix dst src :
  0 < length dst ->
  exists k dst', k <= length src
    /\ append_json_string dst (length dst) src = (length (escape (take k src)), dst')
    /\ length dst' = length dst /\ length (escape (take k src)) < length dst
    /\ take (length (escape (take k src))) dst' = escape (take k src)
    /\ (k = length src -> dst' !! length (escape src) = Some NUL)
    /\ (k < length src -> length dst <= length (escape (take (S k) src))).
Proof. intros H. by apply (append_loop_spec dst 0). Qed.

(** C38: a string whose characters are printable, newline, return or tab and
    whose escaped form fits the response buffer survives the round trip:
    writing it with [append_json_string] and reading the member back with
    [json_get_string] yields the same string, terminated. *)
Theorem json_string_round_trip key pre post dst src out :
  length (quoted key) < PATTERN_SIZE -> Forall plain src ->
  length (escape src) < length dst -> length src < length out ->
  let '(pos, dst') := append_json_string dst (length dst) src in
  let doc := pre ++ quoted key ++ [":"%byte; quote] ++ take pos dst' ++ quote :: post in
  strstr doc (quoted key) = Some (length pre) ->
  exists out', json_get_string doc key out (length out) = (0%Z, out')
    /\ length out' = length out /\ take (length src + 1) out' = src ++ [NUL].
Proof.
  intros Hk Hs Hd Ho. unfold append_json_string.
  destruct (append_loop_spec dst 0 (length dst) src) as (k & dst' & Hle & E & Hl & Hf & Ht & _ & Hx); [done|lia|].
  rewrite E. cbn [Nat.add take app] in Ht, Hx, Hf |- *. assert (k = length src) as ->.
  { apply dec_stable. intros Hne. assert (k < length src) as Hlt by lia. apply Hx in Hlt.
    assert (length (escape (take (S k) src)) <= length (escape src)); [|lia].
    rewrite <- (take_drop (S k) src) at 2. rewrite escape_app, length_app. lia. }
  rewrite (take_ge src) in * by done. rewrite Ht, take_0, app_nil_l. intros Hss.
  unfold json_get_string. rewrite decide_False by lia. rewrite Hss.
  rewrite app_assoc, <- length_app, drop_app_length. cbn -[string_loop].
  by apply (string_loop_escape src out 0 post).
Qed.

(** [json_get_string] never writes outside its output buffer, whatever the
    document: any input, well-formed or not. *)
Theorem json_get_string_in_bounds json key out :
  0 < length out -> length (json_get_string json key out (length out)).2 = length out.
Proof.
  intros H. unfold json_get_string. repeat case_match; try done.
  apply string_loop_bounds; [done|lia].
Qed.

(** Control characters other than newline, return and tab are written as
    [\u00XX], which the reader does not decode: it yields the five characters
    after the backslash. *)
Theorem control_character_not_decoded c out rest :
  (bval c < 0x20)%Z -> short_escape c = None -> 6 <= length out ->
  exists out', string_loop (escape1 c ++ quote :: rest) out 0 (length out) = (0%Z, out')
    /\ take 6 out' = drop 1 (unicode_escape c) ++ [NUL].
Proof.
  intros Hc Hs Ho. unfold escape1. rewrite Hs, decide_True by done.
  assert (Forall plain (drop 1 (unicode_escape c)) /\ escape (drop 1 (unicode_escape c)) = drop 1 (unicode_escape c)) as [Hp He].
  { split; [apply (bool_decide_unpack _)|]; clear Hs Ho; destruct c; try done; vm_compute; done. }
  destruct (string_loop_escape (drop 1 (unicode_escape c)) out 0 rest Hp) as (out' & E & _ & Ht); [simpl; lia|].
  exists out'. split; [|done]. rewrite He in E. rewrite <- E. unfold unicode_escape. cbn [drop app].
  by rewrite string_loop_escaped, (string_loop_other "u"%byte) by (done || lia).
Qed.
End Json.

(** ** Witnesses *)

Lemma append_json_string_longest_prefix_witness :
  exists k dst', k <= 2
    /\ Json.append_json_string (replicate 4 NUL) 4 [newline; newline] = (length (Json.escape (take k [newline; newline])), dst')
    /\ length dst' = 4 /\ length (Json.escape (take k [newline; newline])) < 4
    /\ take (length (Json.escape (take k [newline; newline]))) dst' = Json.escape (take k [newline; newline])
    /\ (k = 2 -> dst' !! length (Json.escape [newline; newline]) = Some NUL)
    /\ (k < 2 -> 4 <= length (Json.escape (take (S k) [newline; newline]))).
Proof. apply (Json.append_json_string_longest_prefix (replicate 4 NUL) [newline; newline]). simpl. lia. Defined.

Lemma json_string_round_trip_witness :
  exists out', Json.json_get_string
      ([x7b] ++ Json.quoted (cs "cmd") ++ [":"%byte; quote] ++ [backslash; "n"%byte; "a"%byte] ++ [quote; x7d])
      (cs "cmd") (replicate 8 NUL) 8 = (0%Z, out')
    /\ length out' = 8 /\ take 3 out' = [newline; "a"%byte; NUL].
Proof.
  apply (Json.json_string_round_trip (cs "cmd") [x7b] [x7d] (replicate 8 NUL) [newline; "a"%byte] (replicate 8 NUL)).
  - vm_compute; lia.
  - apply (bool_decide_unpack _). exact I.
  - vm_compute; lia.
  - simpl. lia.
  - vm_compute. reflexivity.
Defined.

Lemma json_get_string_in_bounds_witness :
  length (Json.json_get_string (cs "{") (cs "cmd") (replicate 8 NUL) 8).2 = 8.
Proof. apply (Json.json_get_string_in_bounds (cs "{") (cs "cmd") (replicate 8 NUL)). simpl. lia. Defined.

Lemma control_character_not_decoded_witness :
  exists out', Json.string_loop (Json.escape1 x01 ++ [quote]) (replicate 8 NUL) 0 8 = (0%Z, out')
    /\ take 6 out' = cs "u0001" ++ [NUL].
Proof.
  apply (Json.control_character_not_decoded x01 (replicate 8 NUL) []); [reflexivity|reflexivity|simpl; lia].
Defined.
