(* ===== verification/Devfs.v ===== *)
(** * devfs: the /dev file system

    Model of src/lib/devfs/devfs.c.  The node tree is kept as the code keeps
    it: a heap of nodes that point at each other (children lists sorted by
    name, parent pointers), with open counts on the nodes and separate handle
    objects that point into the tree.  Every section of code the source runs
    under [tree_lock] is one definition; [devfs_open] is the composition of its
    locked section and of the callback that runs outside the lock.

    [k_malloc] may fail at any call: operations that allocate take the outcome
    of their allocations as an argument.  Device wrappers are functions on a
    state [W] of their own. *)

From S2P Require Import Prelude CLib.
From Stdlib Require Import ZArith Lia.
From Stdlib Require Import Strings.Byte.
From stdpp Require Import base numbers list list_numbers strings countable sets gmap sorting.

(** [CONFIG_WEBOS_DEVFS_MAX_PATH_LEN] and the size of [fs_dirent.name]. *)
Class DevfsConfig := {
  WEBOS_DEVFS_MAX_PATH_LEN : nat;
  DIRENT_NAME_SIZE : nat;
}.

(** [uint16_t]. *)
Definition u16 (z : Z) : Z := (z mod 65536)%Z.

(** ** Data *)

Definition loc := positive.

(** The static root node. *)
Definition root : loc := 1%positive.

Inductive devfs_node_type := DEVFS_NODE_DIR | DEVFS_NODE_FILE.

#[global] Instance devfs_node_type_eq_dec : EqDecision devfs_node_type.
Proof. solve_decision. Defined.

Inductive dir_entry_type := FS_DIR_ENTRY_FILE | FS_DIR_ENTRY_DIR.

(** The callbacks of a device file.  [void*] values are integers, 0 is NULL;
    every callback receives the private data of the handle and may replace it
    ([devfs_file_set_data]). *)
Record devfs_file_ops (W : Type) := FileOps {
  op_open : option (Z -> Z -> Z -> W -> Z * Z * W);      (* data, user_data, flags *)
  op_read : option (Z -> nat -> W -> Z * list byte * Z * W);
  op_write : option (Z -> list byte -> W -> Z * Z * W);
  op_close : option (Z -> W -> Z * Z * W);
}.
Arguments FileOps {W}.
Arguments op_open {W}.
Arguments op_read {W}.
Arguments op_write {W}.
Arguments op_close {W}.

(** What [memset] leaves in a new node. *)
Definition zero_ops {W} : devfs_file_ops W := FileOps None None None None.

Record devfs_node (W : Type) := Node {
  children : list loc;
  parent : option loc;
  ops : devfs_file_ops W;
  user_data : Z;
  open_count : Z;
  type : devfs_node_type;
  name : cstr;
}.
Arguments Node {W}.
Arguments children {W}.
Arguments parent {W}.
Arguments ops {W}.
Arguments user_data {W}.
Arguments open_count {W}.
Arguments type {W}.
Arguments name {W}.

Record devfs_file := File { file_node : loc; file_data : Z }.
Record devfs_dir := Dir { dir_node : loc; last_name : cstr; started : bool }.

(** Paths and the functions on them do not depend on the tree. *)
Module Path.
Section path.
Context {cfg : DevfsConfig}.

Definition DEVFS_MOUNT_POINT : cstr := cs "/dev".

Definition normalize_path (path : cstr) : cstr :=
  if decide (path = DEVFS_MOUNT_POINT \/ path = DEVFS_MOUNT_POINT ++ [slash]) then [slash]
  else if starts_with (DEVFS_MOUNT_POINT ++ [slash]) path then drop (length DEVFS_MOUNT_POINT) path
  else path.

Definition bad_component (c : cstr) : bool :=
  bool_decide (length c = 0)
  || (bool_decide (length c = 1) && bool_decide (char_at c 0 = "."%byte))
  || (bool_decide (length c = 2) && bool_decide (char_at c 0 = "."%byte) && bool_decide (char_at c 1 = "."%byte)).

(** The relative path, or the error. *)
Definition validate_path (path : option cstr) (allow_trailing_slash : bool) : Z + cstr :=
  match path with
  | None => inl (- EINVAL)%Z
  | Some p =>
      let rel := normalize_path p in
      let len := length rel in
      if decide (len = 0 \/ WEBOS_DEVFS_MAX_PATH_LEN <= len \/ char_at rel 0 <> slash) then inl (- EINVAL)%Z
      else if negb allow_trailing_slash && bool_decide (1 < len) && bool_decide (char_at rel (len - 1) = slash)
      then inl (- EINVAL)%Z
      else if existsb (fun c => bad_component c.1) (components (drop 1 rel)) then inl (- EINVAL)%Z
      else inr rel
  end.
End path.
End Path.

Module Tree.
Section tree.
Context {cfg : DevfsConfig} {W : Type}.

Notation node := (devfs_node W).
Notation heap := (gmap loc (devfs_node W)).
Implicit Types (h : heap) (n p c : loc) (nd : node).

(** ** Stores to the fields of a node *)

Definition set_children (l : list loc) nd : node :=
  Node l (parent nd) (ops nd) (user_data nd) (open_count nd) (type nd) (name nd).
Definition set_parent (p : option loc) nd : node :=
  Node (children nd) p (ops nd) (user_data nd) (open_count nd) (type nd) (name nd).
Definition set_ops (o : devfs_file_ops W) (ud : Z) nd : node :=
  Node (children nd) (parent nd) o ud (open_count nd) (type nd) (name nd).
Definition set_open_count (f : Z -> Z) nd : node :=
  Node (children nd) (parent nd) (ops nd) (user_data nd) (u16 (f (open_count nd))) (type nd) (name nd).

Definition children_of h p : list loc := match h !! p with Some nd => children nd | None => [] end.
Definition name_of h n : cstr := match h !! n with Some nd => name nd | None => [] end.

(** ** Operations on the tree *)

Fixpoint find_child_loop h (l : list loc) (nm : cstr) : option loc :=
  match l with
  | [] => None
  | c :: l' =>
      let cmp := strncmp (name_of h c) nm (length nm) in
      let ended := bool_decide (char_at (name_of h c) (length nm) = NUL) in
      if bool_decide (cmp = Eq) && ended then Some c
      else if bool_decide (cmp = Gt) || (bool_decide (cmp = Eq) && negb ended) then None
      else find_child_loop h l' nm
  end.

Definition find_child h p (nm : cstr) : option loc := find_child_loop h (children_of h p) nm.

(** [alloc_node]: a fresh location with a zeroed node. *)
Definition alloc_node h (ok : bool) (t : devfs_node_type) (nm : cstr) : option (loc * heap) :=
  if ok then
    let n := fresh (dom h) in
    Some (n, <[n := Node [] None zero_ops 0 0 t nm]> h)
  else None.

(** The position [insert_child] inserts at. *)
Fixpoint insert_before h (l : list loc) n : list loc :=
  match l with
  | [] => [n]
  | c :: l' =>
      if decide (strcmp (name_of h n) (name_of h c) = Lt) then n :: c :: l' else c :: insert_before h l' n
  end.

Definition insert_child h p n : heap :=
  let h1 := alter (set_parent (Some p)) n h in
  alter (fun nd => set_children (insert_before h1 (children nd) n) nd) p h1.

(** [sys_dlist_remove] takes the node out of the list it is linked in, the
    children of its parent. *)
Definition unlink_child h n : heap :=
  let h1 := match h !! n with
            | Some nd => match parent nd with
                         | Some p => alter (fun pd => set_children (filter (fun c => c <> n) (children pd)) pd) p h
                         | None => h
                         end
            | None => h
            end in
  alter (set_parent None) n h1.

(** The loop condition of [prune_empty_dirs]. *)
Definition prunable h n : bool :=
  match h !! n with
  | Some nd => bool_decide (n <> root) && bool_decide (type nd = DEVFS_NODE_DIR)
               && bool_decide (children nd = []) && bool_decide (open_count nd = 0%Z)
  | None => false
  end.

(** [prune_empty_dirs]: every iteration frees a node, so the number of nodes
    bounds the iterations. *)
Fixpoint prune_loop (fuel : nat) h n : heap :=
  match fuel with
  | O => h
  | S fuel' =>
      if prunable h n then
        match h !! n with
        | Some nd =>
            let h' := delete n (unlink_child h n) in
            match parent nd with
            | Some p => prune_loop fuel' h' p
            | None => h'
            end
        | None => h
        end
      else h
  end.

Definition prune_empty_dirs h n : heap := prune_loop (size h) h n.

Definition is_dir h n : bool :=
  match h !! n with Some nd => bool_decide (type nd = DEVFS_NODE_DIR) | None => false end.
Definition is_file h n : bool :=
  match h !! n with Some nd => bool_decide (type nd = DEVFS_NODE_FILE) | None => false end.

(** The loop of [find_node] over the components, each with whether a slash
    follows it. *)
Fixpoint find_loop h n (comps : list (cstr * bool)) : option loc :=
  match comps with
  | [] => Some n
  | (c, sl) :: comps' =>
      match find_child h n c with
      | None => None
      | Some n' => if sl && negb (is_dir h n') then None else find_loop h n' comps'
      end
  end.

Definition find_node h (path : option cstr) : option loc :=
  match Path.validate_path path true with
  | inl _ => None
  | inr rel => if decide (rel = [slash]) then Some root else find_loop h root (components (drop 1 rel))
  end.

(** The loop of [devfs_register_file]: the result, the node [parent] points at
    when the loop ends and the heap. [allocs] says which calls of [k_malloc]
    succeed. *)
Fixpoint register_loop (allocs : nat -> bool) h p (comps : list (cstr * bool)) : Z * loc * heap :=
  match comps with
  | [] => (0%Z, p, h)
  | (c, sl) :: comps' =>
      let t := if sl : bool then DEVFS_NODE_DIR else DEVFS_NODE_FILE in
      match find_child h p c with
      | Some n =>
          if negb sl then ((if is_file h n then - EEXIST else - EISDIR)%Z, p, h)
          else if negb (is_dir h n) then ((- ENOTDIR)%Z, p, h)
          else register_loop allocs h n comps'
      | None =>
          match alloc_node h (allocs 0) t c with
          | None => ((- ENOMEM)%Z, p, h)
          | Some (n, h') => register_loop (fun i => allocs (S i)) (insert_child h' p n) n comps'
          end
      end
  end.

Definition devfs_register_file (allocs : nat -> bool) h (path : option cstr)
    (o : option (devfs_file_ops W)) (ud : Z) : Z * heap :=
  match o with
  | None => ((- EINVAL)%Z, h)
  | Some o =>
      match Path.validate_path path false with
      | inl _ => ((- EINVAL)%Z, h)
      | inr rel =>
          if decide (rel = [slash]) then ((- EINVAL)%Z, h)
          else
            let '(ret, p, h') := register_loop allocs h root (components (drop 1 rel)) in
            if decide (ret <> 0%Z) then (ret, prune_empty_dirs h' p)
            else (0%Z, alter (set_ops o ud) p h')
      end
  end.

Definition devfs_unregister_file h (path : option cstr) : Z * heap :=
  match find_node h path with
  | None => ((- ENOENT)%Z, h)
  | Some n =>
      match h !! n with
      | None => ((- ENOENT)%Z, h)
      | Some nd =>
          if decide (type nd <> DEVFS_NODE_FILE) then ((- EISDIR)%Z, h)
          else if decide (open_count nd <> 0%Z) then ((- EBUSY)%Z, h)
          else
            let h' := delete n (unlink_child h n) in
            (0%Z, match parent nd with Some p => prune_empty_dirs h' p | None => h' end)
      end
  end.

(** ** Handles *)

Record devfs := Devfs {
  nodes : heap;
  files : gmap positive devfs_file;
  dirs : gmap positive devfs_dir;
}.

(** The heap before anything is registered: the static root. *)
Definition initial_heap : heap := {[ root := Node [] None zero_ops 0 0 DEVFS_NODE_DIR [] ]}.
Definition initial : devfs := Devfs initial_heap ∅ ∅.

(** The locked section of [devfs_open]: the node, or the error. *)
Definition open_locked h (path : option cstr) (want : devfs_node_type) (wrong : Z) : Z * option loc * heap :=
  match find_node h path with
  | None => ((- ENOENT)%Z, None, h)
  | Some n =>
      if decide ((type <$> h !! n) <> Some want) then ((- wrong)%Z, None, h)
      else (0%Z, Some n, alter (set_open_count (fun k => k + 1)%Z) n h)
  end.

(** [devfs_open] up to the callback: the handle is allocated, the node found
    and counted. *)
Definition open_begin (s : devfs) (malloc : bool) (path : option cstr) : Z * option positive * devfs :=
  if negb malloc then ((- ENOMEM)%Z, None, s)
  else
    let '(ret, n, h') := open_locked (nodes s) path DEVFS_NODE_FILE EISDIR in
    match n with
    | None => (ret, None, s)
    | Some n =>
        let id := fresh (dom (files s)) in
        (0%Z, Some id, Devfs h' (<[id := File n 0]> (files s)) (dirs s))
    end.

(** Drops a file handle: the count of its node goes down and it is freed. *)
Definition release_file (s : devfs) (id : positive) (n : loc) : devfs :=
  Devfs (alter (set_open_count (fun k => k - 1)%Z) n (nodes s)) (delete id (files s)) (dirs s).

(** The callback of [devfs_open] and the rollback when it fails. *)
Definition open_finish (s : devfs) (w : W) (id : positive) (flags : Z) : Z * option positive * devfs * W :=
  match files s !! id with
  | None => ((- EINVAL)%Z, None, s, w)
  | Some f =>
      match nodes s !! file_node f with
      | None => ((- EINVAL)%Z, None, s, w)
      | Some nd =>
          match op_open (ops nd) with
          | None => (0%Z, Some id, s, w)
          | Some op =>
              let '(ret, data, w') := op (file_data f) (user_data nd) flags w in
              if decide (ret <> 0%Z) then (ret, None, release_file s id (file_node f), w')
              else (0%Z, Some id, Devfs (nodes s) (<[id := File (file_node f) data]> (files s)) (dirs s), w')
          end
      end
  end.

Definition devfs_open (s : devfs) (w : W) (malloc : bool) (path : option cstr) (flags : Z)
    : Z * option positive * devfs * W :=
  match open_begin s malloc path with
  | (ret, None, s') => (ret, None, s', w)
  | (_, Some id, s') => open_finish s' w id flags
  end.

(** Replaces the private data of a handle. *)
Definition put_data (s : devfs) (id : positive) (f : devfs_file) (data : Z) : devfs :=
  Devfs (nodes s) (<[id := File (file_node f) data]> (files s)) (dirs s).

Definition devfs_read (s : devfs) (w : W) (id : positive) (nbytes : nat) : Z * list byte * devfs * W :=
  match files s !! id with
  | None => ((- EINVAL)%Z, [], s, w)
  | Some f =>
      match nodes s !! file_node f with
      | None => ((- EINVAL)%Z, [], s, w)
      | Some nd =>
          match op_read (ops nd) with
          | None => ((- ENOTSUP)%Z, [], s, w)
          | Some op => let '(ret, out, data, w') := op (file_data f) nbytes w in
                       (ret, out, put_data s id f data, w')
          end
      end
  end.

Definition devfs_write (s : devfs) (w : W) (id : positive) (src : list byte) : Z * devfs * W :=
  match files s !! id with
  | None => ((- EINVAL)%Z, s, w)
  | Some f =>
      match nodes s !! file_node f with
      | None => ((- EINVAL)%Z, s, w)
      | Some nd =>
          match op_write (ops nd) with
          | None => ((- ENOTSUP)%Z, s, w)
          | Some op => let '(ret, data, w') := op (file_data f) src w in (ret, put_data s id f data, w')
          end
      end
  end.

(** Device files have no position. *)
Definition devfs_lseek (off whence : Z) : Z := 0.
Definition devfs_tell : Z := 0.

Definition devfs_close (s : devfs) (w : W) (id : positive) : Z * devfs * W :=
  match files s !! id with
  | None => ((- EINVAL)%Z, s, w)
  | Some f =>
      match nodes s !! file_node f with
      | None => ((- EINVAL)%Z, s, w)
      | Some nd =>
          let '(ret, w') := match op_close (ops nd) with
                            | None => (0%Z, w)
                            | Some op => let '(ret, _, w') := op (file_data f) w in (ret, w')
                            end in
          (ret, release_file s id (file_node f), w')
      end
  end.

Definition entry_type (t : devfs_node_type) : dir_entry_type :=
  match t with DEVFS_NODE_DIR => FS_DIR_ENTRY_DIR | DEVFS_NODE_FILE => FS_DIR_ENTRY_FILE end.

(** [devfs_stat]: the result and the type stored in the entry. *)
Definition devfs_stat h (path : option cstr) : Z * option dir_entry_type :=
  match find_node h path with
  | None => ((- ENOENT)%Z, None)
  | Some n => (0%Z, (fun nd => entry_type (type nd)) <$> h !! n)
  end.

Definition devfs_opendir (s : devfs) (malloc : bool) (path : option cstr) : Z * option positive * devfs :=
  if negb malloc then ((- ENOMEM)%Z, None, s)
  else
    let '(ret, n, h') := open_locked (nodes s) path DEVFS_NODE_DIR ENOTDIR in
    match n with
    | None => (ret, None, s)
    | Some n =>
        let id := fresh (dom (dirs s)) in
        (0%Z, Some id, Devfs h' (files s) (<[id := Dir n [] false]> (dirs s)))
    end.

(** The loop of [devfs_readdir]: the first child after the last one returned. *)
Fixpoint readdir_loop h (l : list loc) (d : devfs_dir) : option loc :=
  match l with
  | [] => None
  | c :: l' =>
      if started d && negb (bool_decide (strcmp (name_of h c) (last_name d) = Gt)) then readdir_loop h l' d
      else Some c
  end.

(** [devfs_readdir]: the name and type of the entry; the empty name at the end. *)
Definition devfs_readdir (s : devfs) (id : positive) : cstr * option dir_entry_type * devfs :=
  match dirs s !! id with
  | None => ([], None, s)
  | Some d =>
      match readdir_loop (nodes s) (children_of (nodes s) (dir_node d)) d with
      | None => ([], None, s)
      | Some c =>
          let nm := name_of (nodes s) c in
          (take (DIRENT_NAME_SIZE - 1) nm, (fun nd => entry_type (type nd)) <$> nodes s !! c,
           Devfs (nodes s) (files s)
             (<[id := Dir (dir_node d) (take (WEBOS_DEVFS_MAX_PATH_LEN - 1) nm) true]> (dirs s)))
      end
  end.

Definition devfs_closedir (s : devfs) (id : positive) : Z * devfs :=
  match dirs s !! id with
  | None => ((- EINVAL)%Z, s)
  | Some d =>
      let h1 := alter (set_open_count (fun k => k - 1)%Z) (dir_node d) (nodes s) in
      (0%Z, Devfs (prune_empty_dirs h1 (dir_node d)) (files s) (delete id (dirs s)))
  end.
End tree.
End Tree.
