(* ===== verification/DevfsTree.v ===== *)
(** * devfs: the tree invariant

    What makes the heap of devfs nodes a tree of named entries: parent and
    child pointers agree, siblings are strictly sorted by name, every node is
    reached from the root, files have no children.  The lemmas here say how the
    primitive updates of [Devfs.Tree] (linking a new leaf, freeing a leaf,
    storing to the other fields) act on the invariant and on the paths of the
    tree; the theorems about the operations are in [DevfsSpec]. *)

From S2P Require Import Prelude CLib Devfs.
From Stdlib Require Import ZArith Lia.
From Stdlib Require Import Strings.Byte.
From stdpp Require Import base numbers list list_numbers strings countable sets gmap sorting.

Import Path Tree.

Section tree.
Context {cfg : DevfsConfig} {W : Type}.

Notation node := (devfs_node W).
Notation heap := (gmap loc (devfs_node W)).
Implicit Types (h : heap) (n p c l : loc) (nd : node) (path : list cstr).

(** Names a node can have: what [validate_path] lets through as a component. *)
Definition good_name (nm : cstr) : Prop :=
  bad_component nm = false /\ slash ∉ nm /\ no_nul nm /\ S (length nm) < WEBOS_DEVFS_MAX_PATH_LEN.

(** The node at a path of names. *)
Inductive at_path h : list cstr -> loc -> Prop :=
| at_root : at_path h [] root
| at_child path p c :
    at_path h path p -> c ∈ children_of h p -> at_path h (path ++ [name_of h c]) c.

Definition name_lt h a b : Prop := str_lt (name_of h a) (name_of h b).

Record wf h : Prop := {
  wf_root : exists nd, h !! root = Some nd /\ type nd = DEVFS_NODE_DIR /\ parent nd = None;
  wf_child : forall p c, c ∈ children_of h p -> exists cd, h !! c = Some cd /\ parent cd = Some p;
  wf_parent : forall c cd, h !! c = Some cd -> c <> root ->
    exists p, parent cd = Some p /\ c ∈ children_of h p;
  wf_leaf : forall n nd, h !! n = Some nd -> type nd = DEVFS_NODE_FILE -> children nd = [];
  wf_sorted : forall p, StronglySorted (name_lt h) (children_of h p);
  wf_name : forall c cd, h !! c = Some cd -> c <> root -> good_name (name cd);
  wf_reach : forall n, is_Some (h !! n) -> exists path, at_path h path n;
}.

(** ** Children by name *)

Lemma children_of_Some h p nd : h !! p = Some nd -> children_of h p = children nd.
Proof. intros H. unfold children_of. by rewrite H. Qed.

Lemma name_of_Some h n nd : h !! n = Some nd -> name_of h n = name nd.
Proof. intros H. unfold name_of. by rewrite H. Qed.

(** In a sorted list of siblings the loop of [find_child] finds the node with
    the name, although it stops at the first larger one. *)
Lemma find_child_loop_spec h (l : list loc) nm c :
  NUL ∉ nm -> Forall (fun c => NUL ∉ name_of h c) l -> StronglySorted (name_lt h) l ->
  find_child_loop h l nm = Some c <-> c ∈ l /\ name_of h c = nm.
Proof.
  intros Hnm. induction l as [|x l IH]; intros Hn Hs; [set_solver|].
  apply Forall_cons in Hn as [Hx Hn]. apply StronglySorted_inv in Hs as [Hs Hlt].
  specialize (IH Hn Hs). cbn [find_child_loop].
  set (a := name_of h x) in *.
  assert (strncmp a nm (length nm) = strcmp (take (length nm) a) nm) as Ecmp.
  { unfold strncmp. by rewrite (take_ge nm). }
  assert (forall y, y ∈ l -> strcmp a (name_of h y) = Lt) as Hlt'.
  { intros y Hy. by apply (proj1 (Forall_forall _ _) Hlt). }
  rewrite Ecmp. destruct (strcmp (take (length nm) a) nm) eqn:E.
  - apply strcmp_eq in E. rewrite bool_decide_true by done. simpl.
    assert (a = nm ++ drop (length nm) a) as Ea by (rewrite <- E at 1; by rewrite take_drop).
    destruct (drop (length nm) a) as [|y k] eqn:Ek.
    + rewrite app_nil_r in Ea. rewrite bool_decide_true.
      2: { unfold char_at. rewrite Ea, (lookup_ge_None_2 nm) by done. done. }
      split.
      * intros [= <-]. split; [set_solver|done].
      * intros [Hc Hcn]. f_equal. apply elem_of_cons in Hc as [->|Hc]; [done|].
        apply Hlt' in Hc. rewrite Hcn, Ea, strcmp_refl in Hc. done.
    + assert (char_at a (length nm) = y) as Hy.
      { unfold char_at. rewrite Ea, lookup_app_r, Nat.sub_diag by done. done. }
      rewrite Hy. rewrite (bool_decide_false (y = NUL)).
      2: { intros ->. apply Hx. rewrite Ea. set_solver. }
      simpl. split; [done|]. intros [Hc Hcn]. apply elem_of_cons in Hc as [->|Hc].
      * exfalso. subst a. rewrite Hcn in Ea. apply (f_equal length) in Ea. rewrite length_app in Ea. simpl in Ea. lia.
      * apply Hlt' in Hc. rewrite Hcn in Hc.
        pose proof (strcmp_prefix nm (y :: k) ltac:(done)) as Hp. rewrite <- Ea in Hp. unfold str_lt in Hp.
        rewrite strcmp_antisym, Hp in Hc. done.
  - rewrite (bool_decide_false (Lt = Eq)), (bool_decide_false (Lt = Gt)) by done. simpl.
    rewrite IH. split; [set_solver|]. intros [Hc Hcn]. split; [|done].
    apply elem_of_cons in Hc as [->|Hc]; [|done].
    subst a. rewrite Hcn, (take_ge nm), strcmp_refl in E by done. done.
  - rewrite (bool_decide_false (Gt = Eq)), (bool_decide_true (Gt = Gt)) by done. simpl.
    split; [done|]. intros [Hc Hcn]. apply elem_of_cons in Hc as [->|Hc].
    + subst a. rewrite Hcn, (take_ge nm), strcmp_refl in E by done. done.
    + apply Hlt' in Hc. rewrite Hcn in Hc.
      destruct (decide (length a <= length nm)) as [Hle|Hle].
      * rewrite take_ge in E by done. congruence.
      * apply strcmp_gt in E. pose proof (strcmp_prefix (take (length nm) a) (drop (length nm) a)) as Hp.
        rewrite take_drop in Hp. unfold str_lt in Hp. rewrite strcmp_antisym in Hc.
        assert (strcmp nm a = Lt) as Hna.
        { eapply strcmp_trans; [exact E|]. apply Hp. intros Hd. apply (f_equal length) in Hd.
          rewrite length_drop in Hd. simpl in Hd. lia. }
        rewrite Hna in Hc. done.
Qed.

(** Nodes that are linked as children exist and are not the root. *)
Lemma child_exists h p c : wf h -> c ∈ children_of h p -> is_Some (h !! c) /\ c <> root.
Proof.
  intros Hw Hc. destruct (wf_child h Hw p c Hc) as (cd & E & Hp). split; [eauto|].
  intros ->. destruct (wf_root h Hw) as (nd & E' & _ & Hn). congruence.
Qed.

Lemma child_good_name h p c : wf h -> c ∈ children_of h p -> good_name (name_of h c).
Proof.
  intros Hw Hc. destruct (child_exists h p c Hw Hc) as [[cd E] Hr].
  rewrite (name_of_Some h c cd E). by eapply wf_name.
Qed.

Lemma find_child_spec h p nm c :
  wf h -> no_nul nm -> find_child h p nm = Some c <-> c ∈ children_of h p /\ name_of h c = nm.
Proof.
  intros Hw Hn. apply find_child_loop_spec; [done| |by apply wf_sorted].
  apply Forall_forall. intros x Hx. by destruct (child_good_name h p x Hw Hx) as (_ & _ & ? & _).
Qed.

Lemma find_child_None h p nm :
  wf h -> no_nul nm -> find_child h p nm = None <-> forall c, c ∈ children_of h p -> name_of h c <> nm.
Proof.
  intros Hw Hn. split.
  - intros E c Hc Hcn. assert (find_child h p nm = Some c); [|congruence]. by apply find_child_spec.
  - intros H. destruct (find_child h p nm) as [c|] eqn:E; [|done].
    apply find_child_spec in E as [Hc E]; [|done..]. by destruct (H c).
Qed.

(** Siblings have different names. *)
Lemma sibling_names h p a b :
  wf h -> a ∈ children_of h p -> b ∈ children_of h p -> name_of h a = name_of h b -> a = b.
Proof.
  intros Hw Ha Hb E.
  assert (no_nul (name_of h b)) as Hn by (by destruct (child_good_name h p b Hw Hb) as (_ & _ & ? & _)).
  assert (find_child h p (name_of h b) = Some a) by (by apply find_child_spec).
  assert (find_child h p (name_of h b) = Some b) by (by apply find_child_spec). congruence.
Qed.

(** ** Paths *)

Lemma at_path_nil h l : at_path h [] l <-> l = root.
Proof.
  split; [|intros ->; constructor]. inversion 1 as [|? ? ? ? ? E]; [done|].
  by apply app_nil in E as [_ ?].
Qed.

Lemma at_path_snoc h path nm l :
  at_path h (path ++ [nm]) l <-> exists p, at_path h path p /\ l ∈ children_of h p /\ name_of h l = nm.
Proof.
  split.
  - inversion 1 as [E|? p c ? ? E]; [by apply (eq_sym) in E; destruct path|].
    subst. apply app_inj_tail in E as [-> <-]. eauto.
  - intros (p & H & Hl & <-). by econstructor.
Qed.

(** A node is at one path, and a path leads to one node. *)
Lemma at_path_unique h a b l : wf h -> at_path h a l -> at_path h b l -> a = b.
Proof.
  intros Hw Ha. revert b. induction Ha as [|a p c Ha IH Hc]; intros b Hb.
  - destruct b as [|x b _] using rev_ind; [done|]. apply at_path_snoc in Hb as (p & _ & Hc & _).
    by destruct (child_exists h p root Hw Hc).
  - destruct (child_exists h p c Hw Hc) as [_ Hr].
    destruct b as [|x b _] using rev_ind; [by apply at_path_nil in Hb|].
    apply at_path_snoc in Hb as (p' & Hp' & Hc' & <-). f_equal. apply IH.
    destruct (wf_child h Hw p c Hc) as (cd & E & Ep). destruct (wf_child h Hw p' c Hc') as (cd' & E' & Ep').
    congruence.
Qed.

Lemma at_path_fun h a l l' : wf h -> at_path h a l -> at_path h a l' -> l = l'.
Proof.
  intros Hw Hl. revert l'. induction Hl as [|a p c Ha IH Hc]; intros l' Hl'.
  - by apply at_path_nil in Hl'.
  - apply at_path_snoc in Hl' as (p' & Hp' & Hc' & E). apply IH in Hp'. subst p'.
    by eapply sibling_names.
Qed.

Lemma at_path_exists h a l : wf h -> at_path h a l -> is_Some (h !! l).
Proof.
  intros Hw Ha. destruct Ha as [|a p c Ha Hc].
  - destruct (wf_root h Hw) as (nd & E & _). eauto.
  - by apply (child_exists h p c Hw Hc).
Qed.

Lemma at_path_good h a l : wf h -> at_path h a l -> Forall good_name a.
Proof.
  intros Hw. induction 1 as [|a p c Ha IH Hc]; [done|]. apply Forall_app. split; [done|].
  apply Forall_singleton. by eapply child_good_name.
Qed.

Lemma StronglySorted_ext (R R' : loc -> loc -> Prop) (l : list loc) :
  (forall a b, a ∈ l -> b ∈ l -> R a b -> R' a b) -> StronglySorted R l -> StronglySorted R' l.
Proof.
  intros H Hs. induction Hs as [|a l Hs IH Ha]; constructor.
  - apply IH. set_solver.
  - apply Forall_forall. intros b Hb. apply H; [set_solver..|]. by apply (proj1 (Forall_forall _ _) Ha).
Qed.

Lemma StronglySorted_filter (R : loc -> loc -> Prop) (P : loc -> Prop) `{!forall x, Decision (P x)} (l : list loc) :
  StronglySorted R l -> StronglySorted R (filter P l).
Proof.
  induction 1 as [|a l Hs IH Ha]; [constructor|]. rewrite filter_cons. case_decide; [|done].
  constructor; [done|]. apply Forall_forall. intros b [_ Hb]%list_elem_of_filter.
  by apply (proj1 (Forall_forall _ _) Ha).
Qed.

(** ** Stores that leave the shape alone *)

Definition shape nd : list loc * option loc * devfs_node_type * cstr :=
  (children nd, parent nd, type nd, name nd).

Definition same_shape h h' : Prop := forall l, shape <$> h !! l = shape <$> h' !! l.

Lemma same_shape_sym h h' : same_shape h h' -> same_shape h' h.
Proof. intros H l. by rewrite H. Qed.

Lemma same_shape_lookup h h' l nd :
  same_shape h h' -> h !! l = Some nd ->
  exists nd', h' !! l = Some nd' /\ children nd' = children nd /\ parent nd' = parent nd
    /\ type nd' = type nd /\ name nd' = name nd.
Proof.
  intros H E. specialize (H l). rewrite E in H. destruct (h' !! l) as [nd'|]; [|done].
  exists nd'. unfold shape in H. by simplify_eq/=.
Qed.

Lemma same_shape_children h h' p : same_shape h h' -> children_of h' p = children_of h p.
Proof.
  intros H. unfold children_of. specialize (H p). unfold shape in H.
  destruct (h !! p), (h' !! p); by simplify_eq/=.
Qed.

Lemma same_shape_name h h' p : same_shape h h' -> name_of h' p = name_of h p.
Proof.
  intros H. unfold name_of. specialize (H p). unfold shape in H.
  destruct (h !! p), (h' !! p); by simplify_eq/=.
Qed.

Lemma same_shape_at_path h h' a l : same_shape h h' -> at_path h a l -> at_path h' a l.
Proof.
  intros H. induction 1 as [|a p c Ha IH Hc]; [constructor|].
  rewrite <- (same_shape_name h h' c H). apply (at_child h' a p c); [done|]. by rewrite (same_shape_children h h').
Qed.

Lemma same_shape_wf h h' : same_shape h h' -> wf h -> wf h'.
Proof.
  intros H Hw. pose proof (same_shape_sym h h' H) as H'. split.
  - destruct (wf_root h Hw) as (nd & E & Ht & Hp).
    destruct (same_shape_lookup h h' root nd H E) as (nd' & E' & ? & ? & ? & ?). exists nd'. split_and!; congruence.
  - intros p c Hc. rewrite (same_shape_children h h') in Hc by done.
    destruct (wf_child h Hw p c Hc) as (cd & E & Hp).
    destruct (same_shape_lookup h h' c cd H E) as (cd' & E' & ? & ? & ? & ?). exists cd'. split; congruence.
  - intros c cd E Hr. destruct (same_shape_lookup h' h c cd H' E) as (cd' & E' & ? & ? & ? & ?).
    destruct (wf_parent h Hw c cd' E' Hr) as (p & Hp & Hc). exists p.
    rewrite (same_shape_children h h') by done. split; congruence.
  - intros n nd E Ht. destruct (same_shape_lookup h' h n nd H' E) as (nd' & E' & Hch & ? & Hty & ?).
    rewrite <- Hch. eapply wf_leaf; [done..|congruence].
  - intros p. rewrite (same_shape_children h h') by done.
    eapply StronglySorted_ext; [|by apply wf_sorted]. intros a b _ _. unfold name_lt.
    by rewrite !(same_shape_name h h').
  - intros c cd E Hr. destruct (same_shape_lookup h' h c cd H' E) as (cd' & E' & ? & ? & ? & Hn).
    rewrite <- Hn. by eapply wf_name.
  - intros n [nd E]. destruct (same_shape_lookup h' h n nd H' E) as (nd' & E' & _).
    destruct (wf_reach h Hw n) as (a & Ha); [eauto|]. exists a. by apply (same_shape_at_path h).
Qed.

(** A store to a field outside the shape. *)
Lemma alter_same_shape f n h : (forall nd, shape (f nd) = shape nd) -> same_shape h (alter f n h).
Proof.
  intros H l. destruct (decide (l = n)) as [->|Hl].
  - rewrite lookup_alter_eq. destruct (h !! n); simpl; [by rewrite H|done].
  - by rewrite lookup_alter_ne.
Qed.

(** ** Linking a new leaf *)

Lemma elem_of_insert_before h (k : list loc) n x : x ∈ insert_before h k n <-> x = n \/ x ∈ k.
Proof.
  induction k as [|c k IH]; simpl; [set_solver|]. case_decide; set_solver.
Qed.

Lemma insert_before_sorted h (k : list loc) n :
  StronglySorted (name_lt h) k -> (forall c, c ∈ k -> name_of h c <> name_of h n) ->
  StronglySorted (name_lt h) (insert_before h k n).
Proof.
  intros Hs. induction Hs as [|c k Hs IH Hc]; intros Hn; simpl; [by repeat constructor|].
  case_decide as Hlt.
  - constructor; [by constructor|]. constructor; [done|]. eapply Forall_impl; [exact Hc|].
    intros x Hx. unfold name_lt, str_lt in *. by eapply strcmp_trans.
  - constructor; [apply IH; set_solver|]. apply Forall_forall. intros x Hx.
    apply elem_of_insert_before in Hx as [->|Hx]; [|by apply (proj1 (Forall_forall _ _) Hc)].
    unfold name_lt, str_lt. destruct (strcmp (name_of h c) (name_of h n)) eqn:E; [|done|].
    + apply strcmp_eq in E. exfalso. apply (Hn c); [set_solver|done].
    + exfalso. apply Hlt. by apply strcmp_gt.
Qed.

Section link.
Context (h : heap) (p n : loc) (pd : node) (t : devfs_node_type) (nm : cstr).
Context (Hw : wf h) (Hp : h !! p = Some pd) (Hd : type pd = DEVFS_NODE_DIR) (Hn : h !! n = None).
Context (Hg : good_name nm) (Hnew : forall c, c ∈ children_of h p -> name_of h c <> nm).

Local Notation leaf := (Node [] (Some p) zero_ops 0 0 t nm : node).
Local Notation linked := (insert_child (<[n := Node [] None zero_ops 0 0 t nm]> h) p n : heap).

Lemma link_ne : n <> p /\ n <> root.
Proof.
  split; intros ->; [congruence|]. destruct (wf_root h Hw) as (nd & E & _). congruence.
Qed.

Lemma link_lookup :
  exists k, linked !! n = Some leaf /\ linked !! p = Some (set_children k pd)
    /\ (forall l, l <> n -> l <> p -> linked !! l = h !! l)
    /\ (forall x, x ∈ k <-> x = n \/ x ∈ children_of h p)
    /\ StronglySorted (name_lt linked) k.
Proof.
  destruct link_ne as [Hnp Hnr].
  set (h1 := alter (set_parent (Some p)) n (<[n := Node [] None zero_ops 0 0 t nm]> h) : heap).
  assert (forall l, l <> n -> h1 !! l = h !! l) as H1.
  { intros l Hl. subst h1. rewrite lookup_alter_ne, lookup_insert_ne by done. done. }
  assert (h1 !! n = Some leaf) as H1n.
  { subst h1. rewrite lookup_alter_eq, lookup_insert_eq. done. }
  exists (insert_before h1 (children pd) n).
  assert (linked !! n = Some leaf) as En.
  { unfold insert_child. rewrite lookup_alter_ne by done. done. }
  assert (linked !! p = Some (set_children (insert_before h1 (children pd) n) pd)) as Ep.
  { unfold insert_child. rewrite lookup_alter_eq. fold h1. rewrite H1 by done.
    by rewrite Hp. }
  assert (forall l, l <> n -> l <> p -> linked !! l = h !! l) as El.
  { intros l Hl Hl'. unfold insert_child. rewrite lookup_alter_ne by done. by apply H1. }
  assert (forall l, l <> n -> name_of h1 l = name_of h l) as Hname by (intros l Hl; unfold name_of; by rewrite H1).
  assert (name_of h1 n = nm) as Hnm by (unfold name_of; by rewrite H1n).
  split_and!; [done..| |].
  - intros x. rewrite elem_of_insert_before. by rewrite (children_of_Some h p pd Hp).
  - rewrite (children_of_Some h p pd Hp) in Hnew.
    assert (forall c, c ∈ children pd -> c <> n) as Hcn.
    { intros c Hc ->. destruct (child_exists h p n Hw) as [[? ?] _]; [|congruence].
      by rewrite (children_of_Some h p pd Hp). }
    apply (StronglySorted_ext (name_lt h1)).
    + assert (forall l, name_of linked l = name_of h1 l) as Hl.
      { intros l. unfold name_of. destruct (decide (l = n)) as [->|Hl]; [by rewrite En, H1n|].
        destruct (decide (l = p)) as [->|Hl']; [by rewrite Ep, H1, Hp by done|]. by rewrite El, H1. }
      intros a b _ _. unfold name_lt. by rewrite !Hl.
    + apply insert_before_sorted.
      * apply (StronglySorted_ext (name_lt h)).
        -- intros a b Ha Hb. unfold name_lt. by rewrite !Hname by auto.
        -- rewrite <- (children_of_Some h p pd Hp). by apply wf_sorted.
      * intros c Hc. rewrite Hname, Hnm by auto. by apply Hnew.
Qed.

Lemma link_children x q : x ∈ children_of linked q <-> x ∈ children_of h q \/ (q = p /\ x = n).
Proof.
  destruct link_ne as [Hnp _]. destruct link_lookup as (k & En & Ep & El & Hk & _).
  unfold children_of at 1. destruct (decide (q = n)) as [->|Hq]; [|destruct (decide (q = p)) as [->|Hq']].
  - rewrite En. unfold children_of. rewrite Hn. simpl. set_solver.
  - rewrite Ep. simpl. rewrite Hk. naive_solver.
  - rewrite El by done. unfold children_of. naive_solver.
Qed.

Lemma link_name x : name_of linked x = if decide (x = n) then nm else name_of h x.
Proof.
  destruct link_lookup as (k & En & Ep & El & _). unfold name_of.
  destruct (decide (x = n)) as [->|Hx]; [by rewrite En|].
  destruct (decide (x = p)) as [->|Hx']; [by rewrite Ep, Hp|]. by rewrite El.
Qed.

(** The tree gains exactly the path of the new leaf. *)
Lemma link_at_path a l :
  at_path linked a l <-> at_path h a l \/ (l = n /\ exists q, a = q ++ [nm] /\ at_path h q p).
Proof.
  assert (forall q x, x ∈ children_of h q -> x <> n) as Hold.
  { intros q x Hx ->. destruct (child_exists h q n Hw Hx) as [[? ?] _]. congruence. }
  assert (forall b, ~ at_path h b n) as Hnone.
  { intros b Hb%at_path_exists; [|done]. destruct Hb. congruence. }
  split.
  - induction 1 as [|a q c Ha IH Hc]; [left; constructor|]. rewrite link_name.
    apply link_children in Hc as [Hc|[-> ->]].
    + rewrite decide_False by eauto. destruct IH as [IH|[-> _]]; [left; by apply (at_child h a q c)|].
      unfold children_of in Hc. rewrite Hn in Hc. set_solver.
    + rewrite decide_True by done. right. split; [done|]. destruct link_ne as [Hnp _].
      destruct IH as [IH|[? _]]; [eauto|congruence].
  - assert (forall b x, at_path h b x -> at_path linked b x) as Hmono.
    { induction 1 as [|b q c Hb IH Hc]; [constructor|].
      pose proof (at_child linked b q c IH (proj2 (link_children c q) (or_introl Hc))) as H.
      by rewrite link_name, decide_False in H by eauto. }
    intros [H|(-> & q & -> & Hq)]; [by apply Hmono|].
    pose proof (at_child linked q p n (Hmono _ _ Hq) (proj2 (link_children n p) (or_intror (conj eq_refl eq_refl)))) as H.
    by rewrite link_name, decide_True in H by done.
Qed.

Lemma link_wf : wf linked.
Proof.
  destruct link_ne as [Hnp Hnr]. destruct link_lookup as (k & En & Ep & El & Hk & Hs). split.
  - destruct (wf_root h Hw) as (rd & E & Ht & Hpar). destruct (decide (root = p)) as [<-|Hrp].
    + eexists. split; [exact Ep|]. simpl. split; congruence.
    + exists rd. rewrite El by done. done.
  - intros q c Hc. apply link_children in Hc as [Hc|[-> ->]]; [|eauto].
    destruct (wf_child h Hw q c Hc) as (cd & E & Hpar). destruct (decide (c = p)) as [->|Hcp].
    + eexists. split; [exact Ep|]. simpl. congruence.
    + exists cd. rewrite El; [done|congruence|done].
  - intros c cd E Hr. destruct (decide (c = n)) as [->|Hcn].
    { rewrite En in E. simplify_eq. exists p. split; [done|]. apply link_children. by right. }
    assert (exists cd', h !! c = Some cd' /\ parent cd' = parent cd) as (cd' & E' & <-).
    { destruct (decide (c = p)) as [->|Hcp]; [rewrite Ep in E; simplify_eq; by eauto|].
      rewrite El in E by done. eauto. }
    destruct (wf_parent h Hw c cd' E' Hr) as (q & Hq & Hc). exists q. split; [done|].
    apply link_children. by left.
  - intros l nd E Ht. destruct (decide (l = n)) as [->|Hln]; [rewrite En in E; by simplify_eq|].
    destruct (decide (l = p)) as [->|Hlp]; [rewrite Ep in E; simplify_eq/=; congruence|].
    rewrite El in E by done. by eapply wf_leaf.
  - intros q. destruct (decide (q = n)) as [->|Hqn]; [|destruct (decide (q = p)) as [->|Hqp]].
    + rewrite (children_of_Some _ _ _ En). constructor.
    + by rewrite (children_of_Some _ _ _ Ep).
    + unfold children_of at 1. rewrite El by done. fold (children_of h q).
      apply (StronglySorted_ext (name_lt h)); [|by apply wf_sorted].
      intros a b Ha Hb. unfold name_lt. rewrite !link_name.
      destruct (child_exists h q a Hw Ha) as [[? ?] _]. destruct (child_exists h q b Hw Hb) as [[? ?] _].
      rewrite !decide_False by congruence. done.
  - intros c cd E Hr. destruct (decide (c = n)) as [->|Hcn]; [rewrite En in E; by simplify_eq|].
    destruct (decide (c = p)) as [->|Hcp].
    + rewrite Ep in E. simplify_eq. simpl. by eapply wf_name.
    + rewrite El in E by done. by eapply wf_name.
  - intros l [nd E]. destruct (decide (l = n)) as [->|Hln].
    + destruct (wf_reach h Hw p) as (q & Hq); [eauto|]. exists (q ++ [nm]). apply link_at_path. eauto.
    + assert (is_Some (h !! l)) as Hl.
      { destruct (decide (l = p)) as [->|Hlp]; [eauto|]. rewrite El in E by done. eauto. }
      destruct (wf_reach h Hw l Hl) as (q & Hq). exists q. apply link_at_path. by left.
Qed.
End link.

(** ** Freeing a leaf *)

Section unlink.
Context (h : heap) (n p : loc) (nd : node).
Context (Hw : wf h) (Hn : h !! n = Some nd) (Hr : n <> root) (Hl : children nd = []) (Hp : parent nd = Some p).

Local Notation freed := (delete n (unlink_child h n) : heap).

Lemma unlink_parent : n ∈ children_of h p /\ n <> p.
Proof.
  destruct (wf_parent h Hw n nd Hn Hr) as (q & Eq & Hc). rewrite Hp in Eq. simplify_eq. split; [done|].
  intros ->. rewrite (children_of_Some h q nd Hn), Hl in Hc. set_solver.
Qed.

Lemma unlink_lookup :
  exists pd, h !! p = Some pd /\ freed !! n = None
    /\ freed !! p = Some (set_children (filter (fun c => c <> n) (children pd)) pd)
    /\ (forall l, l <> n -> l <> p -> freed !! l = h !! l).
Proof.
  destruct unlink_parent as [Hc Hnp].
  destruct (h !! p) as [pd|] eqn:Ep.
  2: { unfold children_of in Hc. rewrite Ep in Hc. set_solver. }
  exists pd. split; [done|]. split; [apply lookup_delete_eq|].
  unfold unlink_child. rewrite Hn, Hp. split.
  - rewrite lookup_delete_ne, lookup_alter_ne, lookup_alter_eq, Ep by done. done.
  - intros l Hln Hlp. by rewrite lookup_delete_ne, !lookup_alter_ne by done.
Qed.

Lemma unlink_children x q : x ∈ children_of freed q <-> x ∈ children_of h q /\ x <> n.
Proof.
  destruct unlink_lookup as (pd & Ep & En' & Ep' & El).
  unfold children_of at 1. destruct (decide (q = n)) as [->|Hq]; [|destruct (decide (q = p)) as [->|Hq']].
  - rewrite En', (children_of_Some h n nd Hn), Hl. set_solver.
  - rewrite Ep', (children_of_Some h p pd Ep). simpl. rewrite list_elem_of_filter. naive_solver.
  - rewrite El by done. fold (children_of h q). split; [|naive_solver]. intros Hx. split; [done|].
    intros ->. destruct (wf_child h Hw q n Hx) as (cd & E & Hpar). congruence.
Qed.

Lemma unlink_name x : x <> n -> name_of freed x = name_of h x.
Proof.
  intros Hx. destruct unlink_lookup as (pd & Ep & En' & Ep' & El). unfold name_of.
  destruct (decide (x = p)) as [->|Hx']; [by rewrite Ep', Ep|]. by rewrite El.
Qed.

(** The tree loses exactly the freed node. *)
Lemma unlink_at_path a l : at_path freed a l <-> at_path h a l /\ l <> n.
Proof.
  split.
  - induction 1 as [|a q c Ha IH Hc]; [split; [constructor|done]|].
    apply unlink_children in Hc as [Hc Hcn]. split; [|done]. rewrite unlink_name by done.
    apply (at_child h a q c); naive_solver.
  - intros [Ha Hln]. induction Ha as [|a q c Ha IH Hc]; [constructor|].
    rewrite <- unlink_name by done. apply (at_child freed a q c).
    + apply IH. intros ->. rewrite (children_of_Some h n nd Hn), Hl in Hc. set_solver.
    + by apply unlink_children.
Qed.

Lemma unlink_wf : wf freed.
Proof.
  destruct unlink_parent as [Hnc Hnp]. destruct unlink_lookup as (pd & Ep & En' & Ep' & El). 
  assert (forall c cd, freed !! c = Some cd -> c <> n /\ exists cd', h !! c = Some cd'
    /\ parent cd' = parent cd /\ type cd' = type cd /\ name cd' = name cd
    /\ (children cd' = [] -> children cd = [])) as Hback.
  { intros c cd E. assert (c <> n) as Hcn by congruence. split; [done|].
    destruct (decide (c = p)) as [->|Hcp].
    - rewrite Ep' in E. simplify_eq. exists pd. simpl. split_and!; try done. by intros ->.
    - rewrite El in E by done. exists cd. naive_solver. }
  split.
  - destruct (wf_root h Hw) as (rd & E & Ht & Hpar). destruct (decide (root = p)) as [<-|Hrp].
    + eexists. split; [exact Ep'|]. simpl. split; congruence.
    + exists rd. rewrite El by done. done.
  - intros q c Hc. apply unlink_children in Hc as [Hc Hcn].
    destruct (wf_child h Hw q c Hc) as (cd & E & Hpar). destruct (decide (c = p)) as [->|Hcp].
    + eexists. split; [exact Ep'|]. simpl. congruence.
    + exists cd. by rewrite El.
  - intros c cd E Hcr. destruct (Hback c cd E) as (Hcn & cd' & E' & Hpar & _).
    destruct (wf_parent h Hw c cd' E' Hcr) as (q & Hq & Hc). exists q. split; [congruence|].
    by apply unlink_children.
  - intros l ld E Ht. destruct (Hback l ld E) as (_ & cd' & E' & _ & Hty & _ & Hch).
    apply Hch. eapply wf_leaf; [done..|congruence].
  - intros q. apply (StronglySorted_ext (name_lt h)).
    + intros a b [_ Ha]%unlink_children [_ Hb]%unlink_children. unfold name_lt. by rewrite !unlink_name.
    + unfold children_of. destruct (decide (q = n)) as [->|Hq]; [rewrite En'; constructor|].
      pose proof (wf_sorted h Hw q) as Hs. unfold children_of in Hs.
      destruct (decide (q = p)) as [->|Hq']; [|by rewrite El].
      rewrite Ep in Hs. rewrite Ep'. simpl. by apply StronglySorted_filter.
  - intros c cd E Hcr. destruct (Hback c cd E) as (_ & cd' & E' & _ & _ & Hnm & _).
    rewrite <- Hnm. by eapply wf_name.
  - intros l [ld E]. destruct (Hback l ld E) as (Hln & cd' & E' & _).
    destruct (wf_reach h Hw l) as (a & Ha); [eauto|]. exists a. by apply unlink_at_path.
Qed.
End unlink.
End tree.
