(* ===== verification/DevfsSpec.v ===== *)
(** * devfs: what the operations do

    The operations of [Devfs.Tree] against their specification: the tree is a
    finite map from paths of names to device files, directories appear and
    disappear with the files below them, handles keep their nodes alive.  The
    mutual exclusion of the source makes every locked section one step; the
    reachable states of all interleavings of those steps satisfy the
    invariant. *)

From S2P Require Import Prelude CLib Devfs DevfsTree.
From Stdlib Require Import ZArith Lia.
From Stdlib Require Import Strings.Byte.
From stdpp Require Import base numbers list list_numbers strings countable sets gmap sorting.

Import Path Tree.

(** The components of a string without a trailing slash: every component but
    the last is ended by a slash. *)
Lemma components_from_split cur s :
  exists init tail, components_from cur s = ((fun c => (c, true)) <$> init) ++ tail
    /\ ((tail = [] /\ (cur ++ s = [] \/ last s = Some slash))
        \/ exists c, tail = [(c, false)] /\ cur ++ s <> [] /\ last s <> Some slash).
Proof.
  revert cur. induction s as [|x s IH]; intros cur; simpl.
  - destruct cur as [|y cur].
    + exists [], []. split; [done|]. left. auto.
    + exists [], [(y :: cur, false)]. split; [done|]. right. by eexists.
  - assert (forall (k : list byte) z, k ++ z :: s <> []) as Hne by (by intros []).
    destruct (decide (x = slash)) as [->|Hx].
    + destruct (IH []) as (init & tail & -> & H). exists (cur :: init), tail. split; [done|].
      destruct H as [[-> [H|H]]|(c & -> & Hs & H)].
      * left. simpl in H. subst s. auto.
      * left. split; [done|]. right. destruct s; [done|]. by rewrite last_cons_cons.
      * right. exists c. split_and!; [done..|]. destruct s; [done|]. by rewrite last_cons_cons.
    + destruct (IH (cur ++ [x])) as (init & tail & -> & H). exists init, tail. split; [done|].
      destruct H as [[-> [H|H]]|(c & -> & _ & H)].
      * by apply app_nil in H as [[??]%app_nil _].
      * left. split; [done|]. right. destruct s; [done|]. by rewrite last_cons_cons.
      * right. exists c. split_and!; [done..|]. destruct s; [simpl; congruence|]. by rewrite last_cons_cons.
Qed.

Section spec.
Context {cfg : DevfsConfig} {W : Type}.

Notation node := (devfs_node W).
Notation heap := (gmap loc (devfs_node W)).
Implicit Types (h : heap) (n l : loc) (nd : node) (a : list cstr).

(** The names of a relative path. *)
Definition names (rel : cstr) : list cstr := (components (drop 1 rel)).*1.

(** ** Paths that are accepted *)

Lemma normalize_no_nul (p : cstr) : no_nul p -> no_nul (normalize_path p).
Proof.
  unfold normalize_path, no_nul. intros Hp. case_decide; [apply (bool_decide_unpack _); done|].
  destruct (starts_with _ _); [|done]. rewrite <- (take_drop (length DEVFS_MOUNT_POINT) p) in Hp. set_solver.
Qed.

Lemma components_no_nul s : no_nul s -> Forall (fun c => no_nul c.1) (components s).
Proof.
  rewrite <- (components_join s) at 1. unfold no_nul. induction (components s) as [|[c sl] k IH]; [done|].
  simpl. intros H. constructor; [set_solver|]. apply IH. set_solver.
Qed.

Lemma components_length s : Forall (fun c => length c.1 <= length s) (components s).
Proof.
  assert (forall k, Forall (fun c => length c.1 <= length (CLib.join k)) k) as H.
  { induction k as [|[c sl] k IH]; [done|]. constructor; simpl; [rewrite length_app; lia|].
    eapply Forall_impl; [exact IH|]. intros x Hx. simpl in *. rewrite !length_app. lia. }
  specialize (H (components s)). by rewrite components_join in H.
Qed.

Lemma validate_path_ok (p : cstr) b rel :
  no_nul p -> validate_path (Some p) b = inr rel ->
  exists r, rel = slash :: r /\ Forall good_name (names rel) /\ (b = false -> r <> [] -> last r <> Some slash).
Proof.
  intros Hp. unfold validate_path. pose proof (normalize_no_nul p Hp) as Hn. revert Hn.
  generalize (normalize_path p). intros r0 Hn.
  case_decide as H1; [done|]. destruct (negb b && _ && _) eqn:H2; [done|].
  destruct (existsb _ _) eqn:H3; [done|]. intros [= <-].
  destruct r0 as [|x r]; [simpl in H1; naive_solver|].
  assert (x = slash) as -> by (apply dec_stable; intros Hx; apply H1; right; right; done).
  exists r. split; [done|]. unfold names. simpl drop in *. rewrite drop_0 in *. split.
  - apply Forall_fmap. apply Forall_forall. intros c Hc. unfold good_name. simpl. split_and!.
    + apply not_true_is_false. intros Hb. apply not_true_iff_false in H3. apply H3. apply existsb_exists.
      exists c. split; [by apply list_elem_of_In|done].
    + by apply (proj1 (Forall_forall _ _) (components_no_slash r)).
    + apply (proj1 (Forall_forall _ _) (components_no_nul r ltac:(unfold no_nul in *; set_solver)) c Hc).
    + pose proof (proj1 (Forall_forall _ _) (components_length r) c Hc). simpl in *. lia.
  - intros -> Hr Hl. rewrite !andb_false_iff in H2. rewrite !bool_decide_eq_false in H2.
    destruct H2 as [[H2|H2]|H2]; [done| |].
    + destruct r; [done|]. simpl in H2. lia.
    + apply H2. unfold char_at. replace (length (slash :: r) - 1) with (pred (length (slash :: r))) by (simpl; lia).
      rewrite <- last_lookup. destruct r; [done|]. by rewrite last_cons_cons, Hl.
Qed.

(** ** Looking a path up *)

Lemma at_path_prefix h a b l :
  wf h -> at_path h (a ++ b) l -> exists q, at_path h a q /\ (b <> [] -> is_dir h q = true).
Proof.
  intros Hw. revert l. induction b as [|x b IH] using rev_ind; intros l H.
  - rewrite app_nil_r in H. exists l. done.
  - rewrite app_assoc in H. apply at_path_snoc in H as (q & Hq & Hc & _).
    destruct (IH q Hq) as (r & Hr & Hd). exists r. split; [done|]. intros _.
    destruct b as [|y b _] using rev_ind; [|apply Hd; by destruct b].
    rewrite app_nil_r in Hq. assert (r = q) as -> by (by eapply at_path_fun).
    unfold is_dir, children_of in *. destruct (h !! q) as [nd|] eqn:E; [|set_solver].
    apply bool_decide_eq_true. destruct (type nd) eqn:Et; [done|].
    rewrite (wf_leaf h Hw q nd E Et) in Hc. set_solver.
Qed.

Lemma find_loop_spec h pre (p : loc) comps l :
  wf h -> at_path h pre p -> Forall (fun c => no_nul c.1) comps ->
  find_loop h p comps = Some l
  <-> at_path h (pre ++ comps.*1) l
      /\ (forall c, last comps = Some (c, true) -> is_dir h l = true).
Proof.
  intros Hw. revert pre p. induction comps as [|[c sl] comps IH]; intros pre p Hp Hn; simpl.
  - rewrite app_nil_r. split; [intros [= <-]; done|]. intros [H _]. f_equal. by eapply at_path_fun.
  - apply Forall_cons in Hn as [Hc Hn]. simpl in Hc.
    rewrite cons_middle, app_assoc. destruct (find_child h p c) as [n|] eqn:E.
    + apply find_child_spec in E as [Hch Hnm]; [|done..].
      assert (at_path h (pre ++ [c]) n) as Hat by (apply at_path_snoc; eauto).
      destruct (sl && negb (is_dir h n)) eqn:Ed.
      * apply andb_true_iff in Ed as [-> Ed%negb_true_iff]. split; [done|]. intros [H Hlast].
        exfalso. destruct comps as [|x comps].
        -- simpl in H. rewrite app_nil_r in H. assert (l = n) as -> by (by eapply at_path_fun).
           rewrite (Hlast c eq_refl) in Ed. done.
        -- apply at_path_prefix in H as (q & Hq & Hd); [|done].
           assert (q = n) as -> by (by eapply at_path_fun). rewrite Hd in Ed; done.
      * rewrite (IH (pre ++ [c]) n Hat Hn). split; intros [H Hl]; (split; [done|]).
        -- intros c' Hc'. destruct comps as [|x comps]; [|apply (Hl c'); by rewrite last_cons_cons in Hc'].
           simpl in Hc'. simplify_eq. simpl in H. rewrite app_nil_r in H.
           assert (l = n) as -> by (by eapply at_path_fun). by apply negb_false_iff in Ed.
        -- intros c' Hc'. apply (Hl c'). destruct comps; [done|]. by rewrite last_cons_cons.
    + split; [done|]. intros [H _]. exfalso. apply at_path_prefix in H as (q & Hq & _); [|done].
      apply at_path_snoc in Hq as (p' & Hp' & Hch & Hnm).
      assert (p' = p) as -> by (by eapply at_path_fun).
      rewrite find_child_None in E by done. by apply (E q).
Qed.

(** The path a caller passes: its names and whether it must be a directory. *)
Definition resolves (path : option cstr) (a : list cstr) (dir_only : bool) : Prop :=
  exists rel, validate_path path true = inr rel /\ a = names rel
    /\ dir_only = bool_decide (last rel = Some slash).

Lemma find_node_spec h (p : cstr) l :
  wf h -> no_nul p ->
  find_node h (Some p) = Some l
  <-> exists a d, resolves (Some p) a d /\ at_path h a l /\ (d = true -> is_dir h l = true).
Proof.
  intros Hw Hp. unfold find_node, resolves.
  destruct (validate_path (Some p) true) as [e|rel] eqn:E.
  { split; [done|]. by intros (a & d & (rel & ? & _) & _). }
  destruct (validate_path_ok p true rel Hp E) as (r & -> & Hg & _).
  assert (Forall (fun c => no_nul c.1) (components r)) as Hn.
  { unfold names in Hg. simpl in Hg. rewrite drop_0 in Hg. rewrite Forall_fmap in Hg.
    eapply Forall_impl; [exact Hg|]. intros c (_ & _ & ? & _). done. }
  case_decide as Hr.
  - simplify_eq. split.
    + intros [= <-]. eexists [], _. split; [eexists; split_and!; done|]. split; [constructor|]. intros _.
      destruct (wf_root h Hw) as (nd & Er & Et & _). unfold is_dir. rewrite Er. by apply bool_decide_eq_true.
    + intros (a & d & (rel & [= <-] & -> & ->) & Ha & _). apply at_path_nil in Ha. by subst.
  - simpl. rewrite drop_0. rewrite (find_loop_spec h [] root) by (done || constructor). simpl.
    assert (r <> []) as Hne by (by intros ->).
    assert ((exists c, last (components r) = Some (c, true)) <-> last (slash :: r) = Some slash) as Hlast.
    { destruct (components_from_split [] r) as (init & tail & Ec & H). unfold components. rewrite Ec.
      assert (last (slash :: r) = last r) as -> by (by destruct r).
      destruct H as [[-> [H|H]]|(c & -> & _ & H)]; [done| |].
      - rewrite app_nil_r. split; [done|]. intros _.
        destruct (last r) eqn:El; [|done]. destruct init as [|x init _] using rev_ind.
        + assert (CLib.join (components r) = r) as Hj by apply components_join. unfold components in Hj.
          rewrite Ec in Hj. simpl in Hj. congruence.
        + exists x. rewrite fmap_app. apply last_snoc.
      - rewrite last_snoc. split; [naive_solver|done]. }
    split.
    + intros [Ha Hd]. eexists _, _. split; [by eexists|]. split; [done|].
      intros Hs%bool_decide_eq_true. apply Hlast in Hs as [c Hc]. eauto.
    + intros (a & d & (rel & [= <-] & -> & ->) & Ha & Hd). split; [done|].
      intros c Hc. apply Hd, bool_decide_eq_true, Hlast. eauto.
Qed.

(** ** Pruning *)

(** Everything but the links of a node is kept. *)
Definition keeps nd nd' : Prop :=
  ops nd' = ops nd /\ user_data nd' = user_data nd /\ open_count nd' = open_count nd
  /\ type nd' = type nd /\ name nd' = name nd.

(** [h'] is [h] less some directories nobody has open. *)
Record shrinks h h' : Prop := {
  shrinks_back : forall l nd', h' !! l = Some nd' -> exists nd, h !! l = Some nd /\ keeps nd nd';
  shrinks_gone : forall l nd, h !! l = Some nd -> h' !! l = None ->
    type nd = DEVFS_NODE_DIR /\ open_count nd = 0%Z;
  shrinks_path : forall a l, at_path h' a l <-> at_path h a l /\ is_Some (h' !! l);
}.

Lemma keeps_refl nd : keeps nd nd.
Proof. done. Qed.

Lemma shrinks_refl h : wf h -> shrinks h h.
Proof.
  intros Hw. split; [eauto using keeps_refl|congruence|].
  intros a l. split; [|naive_solver]. intros H. split; [done|]. by eapply at_path_exists.
Qed.

Lemma shrinks_trans h1 h2 h3 : shrinks h1 h2 -> shrinks h2 h3 -> shrinks h1 h3.
Proof.
  intros [Hb Hg Hp] [Hb' Hg' Hp']. unfold keeps in *. split.
  - intros l nd3 (nd2 & E2 & K2)%Hb'. apply Hb in E2 as (nd1 & E1 & K1). exists nd1. split; [done|].
    destruct K1 as (?&?&?&?&?), K2 as (?&?&?&?&?). split_and!; congruence.
  - intros l nd E1 E3. destruct (h2 !! l) as [nd2|] eqn:E2; [|by eapply Hg].
    destruct (Hg' l nd2 E2 E3) as [??]. destruct (Hb l nd2 E2) as (nd' & E & (?&?&?&?&?)).
    simplify_eq. split; congruence.
  - intros a l. rewrite Hp', Hp. split; [naive_solver|]. intros [? [nd3 E3]].
    split; [|eauto]. split; [done|]. destruct (Hb' l nd3 E3) as (? & -> & _). eauto.
Qed.

(** What freeing a leaf does to the other nodes. *)
Lemma unlink_keeps h n nd p l nd' :
  wf h -> h !! n = Some nd -> n <> root -> children nd = [] -> parent nd = Some p ->
  delete n (unlink_child h n) !! l = Some nd' ->
  l <> n /\ exists nd0, h !! l = Some nd0 /\ keeps nd0 nd' /\ parent nd' = parent nd0
    /\ (l <> p -> children nd' = children nd0).
Proof.
  intros Hw Hn Hr Hl Hp E. destruct (unlink_lookup h n p nd Hw Hn Hr Hl Hp) as (pd & Ep & En & Ep' & El).
  assert (l <> n) as Hln by congruence. split; [done|]. destruct (decide (l = p)) as [->|Hlp].
  - rewrite Ep' in E. simplify_eq. by exists pd.
  - rewrite El in E by done. by exists nd'.
Qed.

Lemma unlink_shrinks h n nd p :
  wf h -> h !! n = Some nd -> n <> root -> children nd = [] -> parent nd = Some p ->
  type nd = DEVFS_NODE_DIR -> open_count nd = 0%Z -> shrinks h (delete n (unlink_child h n)).
Proof.
  intros Hw Hn Hr Hl Hp Ht Ho. pose proof (unlink_lookup h n p nd Hw Hn Hr Hl Hp) as (pd & Ep & En & Ep' & El).
  split.
  - intros l nd' E. destruct (unlink_keeps h n nd p l nd' Hw Hn Hr Hl Hp E) as (_ & nd0 & ? & ? & _). eauto.
  - intros l nd0 E E'. destruct (decide (l = n)) as [->|Hln]; [by simplify_eq|].
    destruct (decide (l = p)) as [->|Hlp]; [congruence|]. rewrite El in E' by done. congruence.
  - intros a l. rewrite unlink_at_path by eauto. split; intros [Ha H]; (split; [done|]).
    + destruct (decide (l = p)) as [->|Hlp]; [eauto|]. rewrite El by done. by eapply at_path_exists.
    + intros ->. rewrite En in H. by destruct H.
Qed.

(** After a leaf is freed only its parent can have become prunable. *)
Lemma unlink_prunable h n nd p l :
  wf h -> h !! n = Some nd -> n <> root -> children nd = [] -> parent nd = Some p ->
  prunable (delete n (unlink_child h n)) l = true -> prunable h l = true \/ l = p.
Proof.
  intros Hw Hn Hr Hl Hp. unfold prunable at 1. destruct (delete n _ !! l) as [nd'|] eqn:E; [|done].
  destruct (unlink_keeps h n nd p l nd' Hw Hn Hr Hl Hp E) as (_ & nd0 & E0 & (_&_&K3&K4&_) & _ & Hc).
  destruct (decide (l = p)) as [->|Hlp]; [by right|]. left. unfold prunable. rewrite E0.
  by rewrite <- Hc, <- K3, <- K4.
Qed.

Lemma prunable_true h n :
  prunable h n = true <-> exists nd, h !! n = Some nd /\ n <> root /\ type nd = DEVFS_NODE_DIR
    /\ children nd = [] /\ open_count nd = 0%Z.
Proof.
  unfold prunable. destruct (h !! n) as [nd|]; [|naive_solver].
  rewrite !andb_true_iff, !bool_decide_eq_true. naive_solver.
Qed.

Lemma size_unlink h n nd p :
  wf h -> h !! n = Some nd -> n <> root -> children nd = [] -> parent nd = Some p ->
  S (size (delete n (unlink_child h n))) = size h.
Proof.
  intros Hw Hn Hr Hl Hp. destruct (unlink_lookup h n p nd Hw Hn Hr Hl Hp) as (pd & Ep & En & Ep' & El).
  assert (dom (delete n (unlink_child h n)) = dom h ∖ {[n]}) as Hd.
  { apply set_eq. intros l. rewrite elem_of_difference, elem_of_singleton, !elem_of_dom.
    destruct (decide (l = n)) as [->|Hln]; [rewrite En; split; [by intros []|naive_solver]|].
    destruct (decide (l = p)) as [->|Hlp]; [rewrite Ep, Ep'; naive_solver|]. rewrite El by done. naive_solver. }
  rewrite <- !size_dom, Hd. assert (n ∈ dom h) as Hin by (apply elem_of_dom; eauto).
  pose proof (size_difference (dom h) {[n]} ltac:(set_solver)) as Hs. rewrite size_singleton in Hs.
  assert (0 < size (dom h)); [|lia]. apply Nat.neq_0_lt_0. intros Hz%size_empty_inv. set_solver.
Qed.

(** The loop ends within its bound, with nothing left to prune: it frees only
    unopened empty directories, and all of them on the way up. *)
Lemma prune_loop_spec fuel h n :
  size h <= fuel -> wf h -> (forall l, prunable h l = true -> l = n) ->
  wf (prune_loop fuel h n) /\ shrinks h (prune_loop fuel h n)
  /\ (forall l, prunable (prune_loop fuel h n) l = false).
Proof.
  revert h n. induction fuel as [|fuel IH]; intros h n Hf Hw Hpr; cbn [prune_loop].
  - split_and!; [done|by apply shrinks_refl|]. intros l. apply not_true_is_false.
    rewrite prunable_true. intros (nd & E & _). assert (h = ∅) as -> by (apply map_size_empty_inv; lia). done.
  - destruct (prunable h n) eqn:Ep.
    2: { split_and!; [done|by apply shrinks_refl|]. intros l. apply not_true_is_false.
         intros H. rewrite (Hpr l H) in H. congruence. }
    apply prunable_true in Ep as (nd & E & Hr & Ht & Hc & Ho). rewrite E.
    destruct (wf_parent h Hw n nd E Hr) as (p & Hp & _). rewrite Hp.
    pose proof (size_unlink h n nd p Hw E Hr Hc Hp) as Hs.
    destruct (IH (delete n (unlink_child h n)) p) as (Hw' & Hsh & Hnp).
    + lia.
    + by eapply unlink_wf.
    + intros l Hl. destruct (unlink_prunable h n nd p l Hw E Hr Hc Hp Hl) as [Hl'|]; [|done].
      apply Hpr in Hl'. subst l. rewrite prunable_true in Hl. destruct Hl as (nd' & E' & _).
      rewrite lookup_delete_eq in E'. done.
    + split_and!; [done| |done]. eapply shrinks_trans; [|exact Hsh]. by eapply unlink_shrinks.
Qed.

Lemma prune_spec h n :
  wf h -> (forall l, prunable h l = true -> l = n) ->
  wf (prune_empty_dirs h n) /\ shrinks h (prune_empty_dirs h n)
  /\ (forall l, prunable (prune_empty_dirs h n) l = false).
Proof. by apply prune_loop_spec. Qed.

(** ** The files of a tree *)

Definition file_entry h a (o : devfs_file_ops W) (ud : Z) : Prop :=
  exists l nd, at_path h a l /\ h !! l = Some nd /\ type nd = DEVFS_NODE_FILE /\ ops nd = o /\ user_data nd = ud.

Lemma shrinks_files h h' a o ud : wf h -> shrinks h h' -> file_entry h' a o ud <-> file_entry h a o ud.
Proof.
  intros Hw [Hb Hg Hp]. split.
  - intros (l & nd' & Ha & E & Ht & <- & <-). destruct (Hb l nd' E) as (nd & E' & (?&?&?&?&?)).
    exists l, nd. split_and!; [|done|congruence..]. by apply Hp.
  - intros (l & nd & Ha & E & Ht & <- & <-). destruct (h' !! l) as [nd'|] eqn:E'.
    + destruct (Hb l nd' E') as (nd0 & E0 & (?&?&?&?&?)). simplify_eq.
      exists l, nd'. split_and!; [|done|congruence..]. apply Hp. eauto.
    + destruct (Hg l nd E E'). congruence.
Qed.

(** ** Registering *)

(** Only [n] may be an empty directory nobody has open. *)
Definition only_prunable h n : Prop := forall l, prunable h l = true -> l = n.

Section link.
Context (h : heap) (p n : loc) (pd : node) (t : devfs_node_type) (nm : cstr).
Context (Hw : wf h) (Hp : h !! p = Some pd) (Hd : type pd = DEVFS_NODE_DIR) (Hn : h !! n = None).
Context (Hg : good_name nm) (Hnew : forall c, c ∈ children_of h p -> name_of h c <> nm).

Local Notation linked := (insert_child (<[n := Node [] None zero_ops 0 0 t nm]> h) p n : heap).

(** The other nodes are kept. *)
Lemma link_keeps l nd :
  h !! l = Some nd -> exists nd', linked !! l = Some nd' /\ keeps nd nd' /\ (l <> p -> children nd' = children nd).
Proof.
  intros E. destruct (link_lookup h p n pd t nm Hw Hp Hn Hnew) as (k & En & Ep & El & _).
  assert (l <> n) by congruence. destruct (decide (l = p)) as [->|Hlp].
  - simplify_eq. eexists. split; [exact Ep|]. done.
  - exists nd. rewrite El by done. done.
Qed.

Lemma link_back l nd' :
  linked !! l = Some nd' -> l <> n ->
  exists nd, h !! l = Some nd /\ keeps nd nd' /\ (l <> p -> children nd' = children nd).
Proof.
  intros E Hl. assert (is_Some (h !! l)) as [nd E'].
  { destruct (link_lookup h p n pd t nm Hw Hp Hn Hnew) as (k & En & Ep & El & _).
    destruct (decide (l = p)) as [->|Hlp]; [eauto|]. rewrite El in E by done. eauto. }
  exists nd. split; [done|]. destruct (link_keeps l nd E') as (nd2 & E2 & K). by simplify_eq.
Qed.

(** A new directory is what pruning would take away again. *)
Lemma link_shrinks : t = DEVFS_NODE_DIR -> shrinks linked h.
Proof.
  intros Ht. destruct (link_lookup h p n pd t nm Hw Hp Hn Hnew) as (k & En & _ & _). split.
  - intros l nd E. destruct (link_keeps l nd E) as (nd' & E' & (?&?&?&?&?) & _). exists nd'.
    split; [done|]. split_and!; congruence.
  - intros l nd' E' E. destruct (decide (l = n)) as [->|Hl]; [by simplify_eq/=|].
    destruct (link_back l nd' E' Hl) as (nd & ? & _). congruence.
  - intros a l. rewrite (link_at_path h p n pd) by done. split.
    + intros Ha. split; [by left|]. by eapply at_path_exists.
    + intros [[Ha|[-> _]] [nd E]]; [done|congruence].
Qed.

Lemma link_prunable : only_prunable h p -> only_prunable linked n.
Proof.
  intros Ho l Hl. destruct (decide (l = n)) as [|Hln]; [done|]. exfalso.
  apply prunable_true in Hl as (nd' & E & Hr & Ht & Hc & Hz).
  destruct (link_back l nd' E Hln) as (nd & E' & (_&_&?&?&_) & Hch).
  destruct (decide (l = p)) as [->|Hlp].
  - assert (n ∈ children_of linked p) as Hin by (apply (link_children h p n pd); eauto).
    rewrite (children_of_Some _ _ _ E), Hc in Hin. set_solver.
  - apply Hlp, Ho, prunable_true. exists nd. rewrite <- Hch by done. split_and!; congruence.
Qed.
End link.

Lemma is_dir_true h n : is_dir h n = true <-> exists nd, h !! n = Some nd /\ type nd = DEVFS_NODE_DIR.
Proof.
  unfold is_dir. destruct (h !! n) as [nd|]; [|naive_solver]. rewrite bool_decide_eq_true. naive_solver.
Qed.

Lemma is_dir_false h n nd : h !! n = Some nd -> is_dir h n = false -> type nd = DEVFS_NODE_FILE.
Proof. unfold is_dir. intros ->. rewrite bool_decide_eq_false. by destruct (type nd). Qed.

Lemma fresh_lookup h : h !! fresh (dom h) = None.
Proof. apply not_elem_of_dom, is_fresh. Qed.

(** The part of the loop that walks and creates directories. *)
(** What the loop over the directories of a path comes to: all of them are there and
    the loop goes on with the last component, or it stops with an error. *)
Definition dirs_outcome allocs h pre init c (r : Z * loc * heap) : Prop :=
  (exists k h1 p1, r = register_loop (fun i => allocs (k + i)) h1 p1 [(c, false)]
     /\ wf h1 /\ shrinks h1 h /\ at_path h1 (pre ++ init) p1 /\ is_dir h1 p1 = true /\ only_prunable h1 p1
     /\ (forall q l, q <> [] -> at_path h1 (pre ++ init ++ q) l -> is_Some (h !! l)))
  \/ (exists ret p1 h1, r = (ret, p1, h1) /\ wf h1 /\ shrinks h1 h /\ only_prunable h1 p1
       /\ ((ret = (- ENOTDIR)%Z /\ exists a b o ud, init = a ++ b /\ a <> [] /\ file_entry h (pre ++ a) o ud)
           \/ (ret = (- ENOMEM)%Z /\ exists i, allocs i = false))).

(** The first directory was there. *)
Lemma outcome_found allocs h pre x init c r :
  dirs_outcome allocs h (pre ++ [x]) init c r -> dirs_outcome allocs h pre (x :: init) c r.
Proof.
  intros [(k & h1 & p1 & E & Hw1 & Hs & Hat1 & Hd1 & Ho1 & Hold)|(ret & p1 & h1 & E & Hw1 & Hs & Ho1 & He)].
  - left. exists k, h1, p1. rewrite <- app_assoc in Hat1. split_and!; try done.
    intros q l Hq Hl. apply (Hold q l Hq). by rewrite <- app_assoc.
  - right. exists ret, p1, h1. split_and!; try done.
    destruct He as [(-> & a & b & o & ud & -> & Ha & Hf)|He]; [left|by right].
    split; [done|]. exists (x :: a), b, o, ud. rewrite <- app_assoc in Hf. done.
Qed.

(** The first directory was made: [n], below [p]. *)
Lemma outcome_created allocs h pre p n pd x init c r :
  let h' := insert_child (<[n:=Node [] None zero_ops 0 0 DEVFS_NODE_DIR x]> h) p n in
  wf h -> h !! p = Some pd -> h !! n = None -> (forall c, c ∈ children_of h p -> name_of h c <> x) -> wf h' -> at_path h' (pre ++ [x]) n -> shrinks h' h ->
  dirs_outcome (fun i => allocs (S i)) h' (pre ++ [x]) init c r -> dirs_outcome allocs h pre (x :: init) c r.
Proof.
  intros h' Hw Ep Hn Ef Hw' Hatn Hsh
    [(k & h1 & p1 & E & Hw1 & Hs & Hat1 & Hd1 & Ho1 & Hold)|(ret & p1 & h1 & E & Hw1 & Hs & Ho1 & He)].
  - left. exists (S k), h1, p1. rewrite <- app_assoc in Hat1.
    split_and!; try done; [by eapply shrinks_trans|]. intros q l Hq Hl.
    destruct (Hold q l Hq) as [nd' E']; [by rewrite <- app_assoc|].
    destruct (decide (l = n)) as [->|Hln].
    + exfalso. assert (at_path h1 (pre ++ [x]) n) as Hn1 by (by apply (shrinks_path _ _ Hs) in Hatn as [? _]).
      pose proof (at_path_unique h1 _ _ n Hw1 Hn1 Hl) as Hu. apply app_inv_head in Hu. simplify_eq.
      by destruct init, q.
    + destruct (link_back h p n pd DEVFS_NODE_DIR x Hw Ep Hn Ef l nd' E' Hln) as (nd & ? & _). eauto.
  - right. exists ret, p1, h1. split_and!; try done; [by eapply shrinks_trans|].
    destruct He as [(-> & a & b & o & ud & -> & Ha & Hf)|(-> & i & Hi)]; [left|right].
    + split; [done|]. exists (x :: a), b, o, ud. rewrite <- app_assoc in Hf. split_and!; try done.
      by apply (shrinks_files h' h).
    + split; [done|]. by exists (S i).
Qed.

Lemma register_dirs allocs h pre p init c :
  wf h -> at_path h pre p -> is_dir h p = true -> only_prunable h p -> Forall good_name init ->
  dirs_outcome allocs h pre init c (register_loop allocs h p (((fun c => (c, true)) <$> init) ++ [(c, false)])).
Proof.
  revert allocs h pre p. induction init as [|x init IH]; intros allocs h pre p Hw Hat Hdir Hon Hg.
  - left. exists 0, h, p. rewrite app_nil_r. split_and!; try done; [by apply shrinks_refl|].
    intros q l _ Hl. by eapply at_path_exists.
  - apply Forall_cons in Hg as [Hx Hg]. assert (no_nul x) as Hnx by (by destruct Hx as (_&_&?&_)).
    cbn [fmap list_fmap app register_loop]. destruct (find_child h p x) as [n|] eqn:Ef.
    + apply find_child_spec in Ef as [Hch Hnm]; [|done..]. cbn [negb].
      assert (at_path h (pre ++ [x]) n) as Hatn by (apply at_path_snoc; eauto).
      destruct (at_path_exists h _ n Hw Hatn) as [nd En].
      destruct (is_dir h n) eqn:Ed; cbn [negb].
      * assert (only_prunable h n) as Hon'.
        { intros l Hl. exfalso. pose proof (Hon l Hl) as ->.
          apply prunable_true in Hl as (pd & Ep & _ & _ & Hc & _).
          rewrite (children_of_Some h p pd Ep), Hc in Hch. set_solver. }
        apply outcome_found. by apply (IH allocs h (pre ++ [x]) n).
      * right. eexists _, _, _. split; [done|]. split_and!; [done|by apply shrinks_refl|done|]. left. split; [done|].
        exists [x], init, (ops nd), (user_data nd). split_and!; [done..|]. exists n, nd.
        split_and!; try done. by eapply is_dir_false.
    + rewrite find_child_None in Ef by done. unfold alloc_node. destruct (allocs 0) eqn:Ea.
      2: { right. eexists _, _, _. split; [done|]. split_and!; [done|by apply shrinks_refl|done|].
           right. split; [done|]. by exists 0. }
      set (n := fresh (dom h)). pose proof (fresh_lookup h : h !! n = None) as Hn.
      apply is_dir_true in Hdir as (pd & Ep & Et).
      assert (wf (insert_child (<[n:=Node [] None zero_ops 0 0 DEVFS_NODE_DIR x]> h) p n)) as Hw' by (by apply (link_wf h p n pd)).
      assert (at_path (insert_child (<[n:=Node [] None zero_ops 0 0 DEVFS_NODE_DIR x]> h) p n) (pre ++ [x]) n) as Hatn
        by (apply (link_at_path h p n pd); eauto).
      eapply (outcome_created allocs h pre p n pd x); [done..|by apply (link_shrinks h p n pd)|].
      apply IH; [done|done| |by apply (link_prunable h p n pd)|done].
      apply is_dir_true. destruct (link_lookup h p n pd DEVFS_NODE_DIR x Hw Ep Hn Ef) as (k & En & _). eauto.
Qed.

(** The last component. *)
Lemma register_last allocs h pre p c :
  wf h -> at_path h pre p -> is_dir h p = true -> good_name c ->
  let r := register_loop allocs h p [(c, false)] in
  (r = ((- EEXIST)%Z, p, h) /\ exists o ud, file_entry h (pre ++ [c]) o ud)
  \/ (r = ((- EISDIR)%Z, p, h) /\ exists l, at_path h (pre ++ [c]) l /\ is_dir h l = true)
  \/ (r = ((- ENOMEM)%Z, p, h) /\ allocs 0 = false /\ forall l, ~ at_path h (pre ++ [c]) l)
  \/ (exists n pd, h !! n = None /\ h !! p = Some pd /\ type pd = DEVFS_NODE_DIR
       /\ (forall x, x ∈ children_of h p -> name_of h x <> c)
       /\ r = (0%Z, n, insert_child (<[n:=Node [] None zero_ops 0 0 DEVFS_NODE_FILE c]> h) p n)).
Proof.
  intros Hw Hat Hdir Hg. assert (no_nul c) as Hnc by (by destruct Hg as (_&_&?&_)).
  cbn [register_loop]. cbn zeta. destruct (find_child h p c) as [n|] eqn:Ef.
  - apply find_child_spec in Ef as [Hch Hnm]; [|done..]. cbn [negb].
    assert (at_path h (pre ++ [c]) n) as Hatn by (apply at_path_snoc; eauto).
    destruct (at_path_exists h _ n Hw Hatn) as [nd En]. unfold is_file. rewrite En.
    case_bool_decide as Ht.
    + left. split; [done|]. exists (ops nd), (user_data nd), n, nd. done.
    + right; left. split; [done|]. exists n. split; [done|]. apply is_dir_true. exists nd. split; [done|].
      by destruct (type nd).
  - right; right. rewrite find_child_None in Ef by done. unfold alloc_node. destruct (allocs 0).
    + right. apply is_dir_true in Hdir as (pd & Ep & Et).
      exists (fresh (dom h)), pd. split_and!; try done. apply fresh_lookup.
    + left. split_and!; try done. intros l (q & Hq & Hc & Hnm)%at_path_snoc.
      assert (q = p) as -> by (by eapply at_path_fun). by apply (Ef l).
Qed.

(** What an operation may do to nodes that have handles: keep them. *)
Definition count_of h l : Z := match h !! l with Some nd => open_count nd | None => 0%Z end.

Definition handle_safe h h' : Prop :=
  (forall l, count_of h' l = count_of h l)
  /\ (forall l nd, h !! l = Some nd -> open_count nd <> 0%Z ->
        exists nd', h' !! l = Some nd' /\ type nd' = type nd).

Lemma shrinks_safe h h' : shrinks h h' -> handle_safe h h'.
Proof.
  intros [Hb Hg _]. unfold handle_safe, count_of. split.
  - intros l. destruct (h' !! l) as [nd'|] eqn:E'.
    + destruct (Hb l nd' E') as (nd0 & -> & (?&?&?&?&?)). done.
    + destruct (h !! l) as [nd|] eqn:E; [|done]. by destruct (Hg l nd E E').
  - intros l nd E Ho. destruct (h' !! l) as [nd'|] eqn:E'.
    + exists nd'. split; [done|]. destruct (Hb l nd' E') as (nd0 & E0 & (?&?&?&?&?)). by simplify_eq.
    + by destruct (Hg l nd E E').
Qed.

Lemma shrinks_safe_inv h h' : shrinks h h' -> handle_safe h' h.
Proof.
  intros Hs. pose proof (shrinks_safe h h' Hs) as [Hc _]. split; [done|].
  intros l nd' E' _. destruct (shrinks_back h h' Hs l nd' E') as (nd & E & (?&?&?&?&?)). eauto.
Qed.

Lemma handle_safe_trans h1 h2 h3 : handle_safe h1 h2 -> handle_safe h2 h3 -> handle_safe h1 h3.
Proof.
  intros [C1 F1] [C2 F2]. split; [congruence|].
  intros l nd E Ho. destruct (F1 l nd E Ho) as (nd2 & E2 & Hty).
  destruct (F2 l nd2 E2) as (nd3 & E3 & Hty3); [|exists nd3; split; congruence].
  specialize (C1 l). unfold count_of in C1. rewrite E, E2 in C1. congruence.
Qed.

(** The new file: its leaf is linked and its callbacks stored. *)
Section new_file.
Context (h : heap) (p n : loc) (pd : node) (c : cstr) (o : devfs_file_ops W) (ud : Z) (pre : list cstr).
Context (Hw : wf h) (Hp : h !! p = Some pd) (Hd : type pd = DEVFS_NODE_DIR) (Hn : h !! n = None).
Context (Hg : good_name c) (Hnew : forall x, x ∈ children_of h p -> name_of h x <> c) (Hat : at_path h pre p).

Local Notation linked := (insert_child (<[n := Node [] None zero_ops 0 0 DEVFS_NODE_FILE c]> h) p n : heap).
Local Notation created := (alter (set_ops o ud) n linked : heap).

Lemma created_shape : same_shape linked created.
Proof. by apply alter_same_shape. Qed.

Lemma created_wf : wf created.
Proof. apply (same_shape_wf linked); [apply created_shape|]. by apply (link_wf h p n pd). Qed.

Lemma created_at_path a l : at_path created a l <-> at_path h a l \/ (l = n /\ a = pre ++ [c]).
Proof.
  assert (at_path created a l <-> at_path linked a l) as ->.
  { split; apply same_shape_at_path; [apply same_shape_sym|]; apply created_shape. }
  rewrite (link_at_path h p n pd) by done. split; intros [H|[-> H]]; auto; right; (split; [done|]).
  - destruct H as (q & -> & Hq). f_equal. by eapply at_path_unique.
  - eauto.
Qed.

Lemma created_lookup l : l <> n -> created !! l = linked !! l.
Proof. intros H. by rewrite lookup_alter_ne. Qed.

Lemma created_new : exists nd, created !! n = Some nd /\ ops nd = o /\ user_data nd = ud
  /\ type nd = DEVFS_NODE_FILE /\ open_count nd = 0%Z.
Proof.
  destruct (link_lookup h p n pd DEVFS_NODE_FILE c Hw Hp Hn Hnew) as (k & En & _).
  rewrite lookup_alter_eq, En. eexists. split; done.
Qed.

Lemma created_files a o' ud' :
  file_entry created a o' ud' <-> (a = pre ++ [c] /\ o' = o /\ ud' = ud) \/ file_entry h a o' ud'.
Proof.
  destruct created_new as (new & En & Eo & Eu & Et & _). split.
  - intros (l & nd & Ha & E & Ht & <- & <-). apply created_at_path in Ha as [Ha|[-> ->]].
    + right. assert (l <> n) as Hl by (intros ->; apply at_path_exists in Ha as [??]; congruence).
      rewrite created_lookup in E by done.
      destruct (link_back h p n pd DEVFS_NODE_FILE c Hw Hp Hn Hnew l nd E Hl) as (nd0 & E0 & (?&?&?&?&?) & _).
      exists l, nd0. split_and!; congruence.
    + left. simplify_eq. done.
  - intros [(-> & -> & ->)|(l & nd & Ha & E & Ht & <- & <-)].
    + exists n, new. split_and!; try done. apply created_at_path. by right.
    + destruct (link_keeps h p n pd DEVFS_NODE_FILE c Hw Hp Hn Hnew l nd E) as (nd' & E' & (?&?&?&?&?) & _).
      assert (l <> n) as Hl by congruence.
      exists l, nd'. rewrite created_lookup by done. split_and!; try congruence. apply created_at_path. by left.
Qed.

Lemma created_safe : handle_safe h created.
Proof.
  destruct created_new as (new & En & _ & _ & Et & Ez). split.
  - intros l. unfold count_of. destruct (decide (l = n)) as [->|Hl]; [by rewrite En, Hn|].
    rewrite created_lookup by done. destruct (h !! l) as [nd|] eqn:E.
    + destruct (link_keeps h p n pd DEVFS_NODE_FILE c Hw Hp Hn Hnew l nd E) as (nd' & -> & (?&?&?&?&?) & _). done.
    + destruct (linked !! l) as [nd'|] eqn:E'; [|done].
      destruct (link_back h p n pd DEVFS_NODE_FILE c Hw Hp Hn Hnew l nd' E' Hl) as (nd0 & ? & _). congruence.
  - intros l nd E _. assert (l <> n) as Hl by congruence. rewrite created_lookup by done.
    destruct (link_keeps h p n pd DEVFS_NODE_FILE c Hw Hp Hn Hnew l nd E) as (nd' & E' & (?&?&?&?&?) & _). eauto.
Qed.

Lemma created_prunable l : only_prunable h p -> prunable created l = false.
Proof.
  intros Ho. apply not_true_is_false. intros Hl. assert (l = n) as ->.
  { apply (link_prunable h p n pd DEVFS_NODE_FILE c Hw Hp Hd Hn Hg Hnew Ho l).
    apply prunable_true in Hl as (nd & E & Hr & Ht & Hc & Hz). apply prunable_true.
    destruct (decide (l = n)) as [->|Hl].
    - destruct created_new as (new & En & _ & _ & Et & _). congruence.
    - rewrite created_lookup in E by done. by exists nd. }
  apply prunable_true in Hl as (nd & E & _ & Ht & _). destruct created_new as (new & En & _ & _ & Et & _). congruence.
Qed.
End new_file.

(** Why a registration failed. *)
Definition register_failure allocs h a (ret : Z) : Prop :=
  (ret = (- EEXIST)%Z /\ exists o ud, file_entry h a o ud)
  \/ (ret = (- EISDIR)%Z /\ exists l, at_path h a l /\ is_dir h l = true)
  \/ (ret = (- ENOTDIR)%Z /\ exists b d o ud, a = b ++ d /\ d <> [] /\ file_entry h b o ud)
  \/ (ret = (- ENOMEM)%Z /\ exists i : nat, allocs i = false).

Definition tidy h : Prop := forall l, prunable h l = false.

Lemma tidy_only h n : tidy h -> only_prunable h n.
Proof. intros H l Hl. by rewrite H in Hl. Qed.

(** A failed registration takes back what it created. *)
Lemma prune_back h h1 p :
  wf h1 -> shrinks h1 h -> only_prunable h1 p ->
  wf (prune_empty_dirs h1 p) /\ tidy (prune_empty_dirs h1 p) /\ handle_safe h (prune_empty_dirs h1 p)
  /\ forall a o ud, file_entry (prune_empty_dirs h1 p) a o ud <-> file_entry h a o ud.
Proof.
  intros Hw1 Hs Ho. destruct (prune_spec h1 p Hw1 Ho) as (Hw2 & Hs2 & Hp2). split_and!; try done.
  - eapply handle_safe_trans; [by apply shrinks_safe_inv|by apply shrinks_safe].
  - intros a o ud. rewrite (shrinks_files h1 _ _ _ _ Hw1 Hs2). symmetry. by apply shrinks_files.
Qed.

(** The components of the path of a file. *)
Lemma register_path (p : cstr) rel :
  no_nul p -> validate_path (Some p) false = inr rel -> rel <> [slash] ->
  exists init c, components (drop 1 rel) = ((fun c => (c, true)) <$> init) ++ [(c, false)]
    /\ names rel = init ++ [c] /\ Forall good_name init /\ good_name c.
Proof.
  intros Hp Hv Hrel. destruct (validate_path_ok p false rel Hp Hv) as (r & -> & Hg & Hlast).
  assert (r <> []) as Hr by congruence. unfold names in *. simpl drop in *. rewrite drop_0 in *.
  destruct (components_from_split [] r) as (init & tail & Ec & [[-> [?|?]]|(c & -> & _ & _)]);
    [done|by destruct (Hlast eq_refl Hr)|].
  exists init, c. fold (components r) in Ec. rewrite Ec in *.
  assert (((fun c => (c, true)) <$> init).*1 = init) as Hi by (rewrite <- list_fmap_compose; apply list_fmap_id).
  rewrite fmap_app, Hi in *. apply Forall_app in Hg as [Hgi Hgc]. apply Forall_cons in Hgc as [Hgc _]. split_and!; done.
Qed.

Lemma register_spec allocs h (p : cstr) o ud rel ret h' :
  wf h -> tidy h -> no_nul p -> validate_path (Some p) false = inr rel -> rel <> [slash] ->
  devfs_register_file allocs h (Some p) (Some o) ud = (ret, h') ->
  wf h' /\ tidy h' /\ handle_safe h h'
  /\ ((ret = 0%Z /\ (forall l, ~ at_path h (names rel) l)
       /\ (exists n nd, at_path h' (names rel) n /\ h' !! n = Some nd /\ type nd = DEVFS_NODE_FILE
             /\ ops nd = o /\ user_data nd = ud /\ open_count nd = 0%Z)
       /\ forall a o' ud', file_entry h' a o' ud' <-> (a = names rel /\ o' = o /\ ud' = ud) \/ file_entry h a o' ud')
      \/ (ret <> 0%Z /\ register_failure allocs h (names rel) ret
          /\ forall a o' ud', file_entry h' a o' ud' <-> file_entry h a o' ud')).
Proof.
  intros Hw Hti Hp Hv Hrel. unfold devfs_register_file. rewrite Hv, decide_False by done.
  destruct (register_path p rel Hp Hv Hrel) as (init & c & -> & -> & Hgi & Hgc).
  assert (is_dir h root = true) as Hrd.
  { apply is_dir_true. destruct (wf_root h Hw) as (nd & ? & ? & _). eauto. }
  destruct (register_dirs allocs h [] root init c Hw (at_root h) Hrd (tidy_only h root Hti) Hgi) as
    [(k & h1 & p1 & -> & Hw1 & Hs & Hat1 & Hd1 & Ho1 & Hold)|(ret1 & p1 & h1 & -> & Hw1 & Hs & Ho1 & He)];
    destruct (prune_back h h1 p1 Hw1 Hs Ho1) as (Hw2 & Ht2 & Hh2 & Hf2).
  - destruct (register_last (fun i => allocs (k + i)) h1 init p1 c Hw1 Hat1 Hd1 Hgc)
      as [[-> (o0 & u0 & Hf)]|[[-> (l & Hl & Hld)]|[(-> & Ha & _)|(n & pd & En & Ep & Et & Hnew & ->)]]].
    1-3: rewrite decide_True by done; intros [= <- <-]; split_and!; [done..|right; split_and!; [done| |done]].
    + left. split; [done|]. exists o0, u0. by apply (shrinks_files h1 h).
    + right; left. split; [done|]. exists l. destruct (Hold [c] l ltac:(done) Hl) as [nd Eh].
      split; [by apply (shrinks_path h1 h Hs)|]. apply is_dir_true in Hld as (nd1 & E1 & Et1).
      apply is_dir_true. exists nd. split; [done|].
      destruct (shrinks_back h1 h Hs l nd Eh) as (nd2 & E2 & (?&?&?&?&?)). congruence.
    + right; right; right. eauto.
    + rewrite decide_False by naive_solver. intros [= <- <-].
      split_and!; [by eapply created_wf|by intros l; eapply created_prunable| |left; split_and!; [done| | |]].
      * eapply handle_safe_trans; [by apply shrinks_safe_inv|]. by eapply created_safe.
      * intros l Hl. assert (at_path h1 (init ++ [c]) l) as Hl1 by (by apply (shrinks_path h1 h Hs) in Hl as [? _]).
        apply at_path_snoc in Hl1 as (q & Hq & Hc & Hnm). assert (q = p1) as -> by exact (at_path_fun h1 init q p1 Hw1 Hq Hat1).
        by apply (Hnew l).
      * destruct (created_new h1 p1 n pd c o ud Hw1 Ep En Hnew) as (nd & E' & ? & ? & ? & ?).
        exists n, nd. split_and!; try done. apply (created_at_path h1 p1 n pd c o ud init); auto.
      * intros a o' ud'. rewrite (created_files h1 p1 n pd c o ud init) by done.
        by rewrite (shrinks_files h1 h).
  - rewrite decide_True by (destruct He as [[-> _]|[-> _]]; done). intros [= <- <-].
    split_and!; [done..|]. right. split_and!; [by destruct He as [[-> _]|[-> _]]| |done].
    destruct He as [(-> & a & b & o0 & u0 & -> & Ha & Hf)|(-> & i & Hi)].
    + right; right; left. split; [done|]. exists a, (b ++ [c]), o0, u0. rewrite app_assoc.
      split_and!; [done|by destruct b|done].
    + right; right; right. eauto.
Qed.

(** ** Unregistering *)

Lemma unlink_safe h n nd p :
  wf h -> h !! n = Some nd -> n <> root -> children nd = [] -> parent nd = Some p -> open_count nd = 0%Z ->
  handle_safe h (delete n (unlink_child h n)).
Proof.
  intros Hw Hn Hr Hl Hp Ho. destruct (unlink_lookup h n p nd Hw Hn Hr Hl Hp) as (pd & Ep & En & Ep' & El).
  split.
  - intros l. unfold count_of. destruct (decide (l = n)) as [->|Hln]; [by rewrite En, Hn|].
    destruct (decide (l = p)) as [->|Hlp]; [by rewrite Ep, Ep'|]. by rewrite El.
  - intros l ld E Hld. destruct (decide (l = n)) as [->|Hln]; [congruence|].
    destruct (decide (l = p)) as [->|Hlp]; [|rewrite El by done; eauto]. rewrite Ep'. simplify_eq. by eexists.
Qed.

Lemma unlink_files h n nd p a o ud :
  wf h -> h !! n = Some nd -> n <> root -> children nd = [] -> parent nd = Some p ->
  file_entry (delete n (unlink_child h n)) a o ud <-> file_entry h a o ud /\ ~ at_path h a n.
Proof.
  intros Hw Hn Hr Hl Hp. destruct (unlink_lookup h n p nd Hw Hn Hr Hl Hp) as (pd & Ep & En & Ep' & El). split.
  - intros (l & nd' & Ha & E & Ht & <- & <-). apply (unlink_at_path h n p nd) in Ha as [Ha Hln]; [|done..].
    destruct (unlink_keeps h n nd p l nd' Hw Hn Hr Hl Hp E) as (_ & nd0 & E0 & (?&?&?&?&?) & _).
    split; [exists l, nd0; split_and!; congruence|]. intros Hn'. apply Hln. by eapply at_path_fun.
  - intros [(l & nd0 & Ha & E & Ht & <- & <-) Hna]. assert (l <> n) as Hln by congruence.
    assert (exists nd', delete n (unlink_child h n) !! l = Some nd' /\ keeps nd0 nd') as (nd' & E' & (?&?&?&?&?)).
    { destruct (decide (l = p)) as [->|Hlp]; [|exists nd0; by rewrite El].
      rewrite Ep'. simplify_eq. by eexists. }
    exists l, nd'. split_and!; try congruence. by apply (unlink_at_path h n p nd).
Qed.

Lemma unregister_spec h (p : cstr) ret h' :
  wf h -> tidy h -> no_nul p -> devfs_unregister_file h (Some p) = (ret, h') ->
  wf h' /\ tidy h' /\ handle_safe h h'
  /\ ((ret = 0%Z /\ exists a d n nd, resolves (Some p) a d /\ at_path h a n /\ h !! n = Some nd
         /\ type nd = DEVFS_NODE_FILE /\ open_count nd = 0%Z
         /\ forall a' o ud, file_entry h' a' o ud <-> file_entry h a' o ud /\ a' <> a)
      \/ (ret <> 0%Z /\ h' = h /\
          ((ret = (- ENOENT)%Z /\ find_node h (Some p) = None)
           \/ exists n nd, find_node h (Some p) = Some n /\ h !! n = Some nd
                /\ ((ret = (- EISDIR)%Z /\ type nd = DEVFS_NODE_DIR)
                    \/ (ret = (- EBUSY)%Z /\ type nd = DEVFS_NODE_FILE /\ open_count nd <> 0%Z))))).
Proof.
  intros Hw Hti Hp. assert (handle_safe h h) as Hrefl by (by apply shrinks_safe, shrinks_refl).
  unfold devfs_unregister_file. destruct (find_node h (Some p)) as [n|] eqn:Ef.
  2: { intros [= <- <-]. split_and!; try done. right. split_and!; try done. by left. }
  pose proof (proj1 (find_node_spec h p n Hw Hp) Ef) as (a & d & Hres & Hat & Hdir).
  destruct (at_path_exists h a n Hw Hat) as [nd E]. rewrite E.
  case_decide as Ht.
  { intros [= <- <-]. split_and!; try done. right. split_and!; try done. right. exists n, nd.
    split_and!; try done. left. by destruct (type nd). }
  case_decide as Ho.
  { intros [= <- <-]. split_and!; try done. right. split_and!; try done. right. exists n, nd. split_and!; try done. by right. }
  assert (n <> root) as Hr by (intros ->; destruct (wf_root h Hw) as (? & ? & ? & _); congruence).
  pose proof (wf_leaf h Hw n nd E Ht) as Hc. destruct (wf_parent h Hw n nd E Hr) as (q & Hq & _). rewrite Hq.
  intros [= <- <-].
  assert (wf (delete n (unlink_child h n))) as Hw1 by (by eapply unlink_wf).
  destruct (prune_spec (delete n (unlink_child h n)) q Hw1) as (Hw2 & Hs2 & Hp2).
  { intros l Hl. destruct (unlink_prunable h n nd q l Hw E Hr Hc Hq Hl) as [Hl'|]; [|done].
    by rewrite Hti in Hl'. }
  split_and!; try done.
  - eapply handle_safe_trans; [by eapply unlink_safe|by apply shrinks_safe].
  - left. split; [done|]. exists a, d, n, nd. split_and!; try done. intros a' o ud.
    rewrite (shrinks_files _ _ _ _ _ Hw1 Hs2), (unlink_files h n nd q) by done.
    split; intros [Hf Hna]; (split; [done|]).
    + intros ->. by apply Hna.
    + intros Hat'. apply Hna. exact (at_path_unique h a' a n Hw Hat' Hat).
Qed.

(** ** Handles *)

Section count.
Context {A : Type} (node_of : A -> loc).

(** The handles of a table that point at a node. *)
Definition pointing (m : gmap positive A) l : nat := size (filter (fun x => node_of x.2 = l) m).

Lemma pointing_insert m i x l :
  m !! i = None -> pointing (<[i := x]> m) l = (if decide (node_of x = l) then 1 else 0) + pointing m l.
Proof.
  intros Hi. unfold pointing. destruct (decide (node_of x = l)) as [Hx|Hx].
  - rewrite map_filter_insert_True by done. rewrite map_size_insert_None; [lia|].
    by apply map_lookup_filter_None_2; left.
  - rewrite map_filter_insert_False by done. by rewrite delete_id.
Qed.

Lemma pointing_delete m i x l :
  m !! i = Some x -> pointing m l = (if decide (node_of x = l) then 1 else 0) + pointing (delete i m) l.
Proof.
  intros Hi. rewrite <- (insert_delete_id m i x Hi) at 1. apply pointing_insert, lookup_delete_eq.
Qed.

Lemma pointing_update m i x y l : m !! i = Some y -> node_of x = node_of y -> pointing (<[i := x]> m) l = pointing m l.
Proof.
  intros Hi Hxy. rewrite (pointing_delete m i y l Hi), <- Hxy.
  rewrite <- insert_delete_eq. apply pointing_insert, lookup_delete_eq.
Qed.

Lemma pointing_le m l : pointing m l <= size m.
Proof. unfold pointing. apply map_subseteq_size, map_filter_subseteq. Qed.

Lemma pointing_pos m i x : m !! i = Some x -> 0 < pointing m (node_of x).
Proof. intros Hi. rewrite (pointing_delete m i x) by done. rewrite decide_True by done. lia. Qed.

End count.
End spec.
