(* ===== verification/DevfsState.v ===== *)
(** * devfs: handles, interleavings and the theorems

    The invariant that ties the handle tables to the open counts of the tree,
    its preservation by every step of the file system under every
    interleaving, and the theorems about devfs. *)

From S2P Require Import Prelude CLib Devfs DevfsTree DevfsSpec.
From Stdlib Require Import ZArith Lia.
From Stdlib Require Import Strings.Byte.
From stdpp Require Import base numbers list list_numbers strings countable sets gmap sorting relations.

Import Path Tree.

Lemma u16_small z : (0 <= z < 65536)%Z -> u16 z = z.
Proof. unfold u16. apply Z.mod_small. Qed.

Lemma u16_add a b : u16 (u16 a + b) = u16 (a + b).
Proof. unfold u16. apply Zplus_mod_idemp_l. Qed.

Section state.
Context {cfg : DevfsConfig} {W : Type}.

Notation node := (devfs_node W).
Notation heap := (gmap loc (devfs_node W)).
Notation devfs := (@devfs W).
Implicit Types (h : heap) (n l : loc) (nd : node) (a : list cstr) (s : devfs).

(** ** The invariant *)

(** The handles that point at a node, and all handles. *)
Definition refs s l : nat := pointing file_node (files s) l + pointing dir_node (dirs s) l.
Definition total s : nat := size (files s) + size (dirs s).

(** Handles point at live nodes of their type and are counted there. *)
Record handles_ok s : Prop := {
  ok_count : forall l, count_of (nodes s) l = u16 (Z.of_nat (refs s l));
  ok_file : forall id f, files s !! id = Some f ->
    exists nd, nodes s !! file_node f = Some nd /\ type nd = DEVFS_NODE_FILE;
  ok_dir : forall id d, dirs s !! id = Some d ->
    exists nd, nodes s !! dir_node d = Some nd /\ type nd = DEVFS_NODE_DIR;
}.

Record inv s : Prop := {
  inv_wf : wf (nodes s);
  inv_tidy : tidy (nodes s);
  inv_handles : handles_ok s;
}.

Lemma refs_le s l : refs s l <= total s.
Proof.
  unfold refs, total. pose proof (pointing_le file_node (files s) l).
  pose proof (pointing_le dir_node (dirs s) l). lia.
Qed.

(** Below 65536 handles the open count of a node is its number of handles. *)
Lemma inv_refs s l nd :
  handles_ok s -> (Z.of_nat (total s) < 65536)%Z -> nodes s !! l = Some nd -> open_count nd = Z.of_nat (refs s l).
Proof.
  intros Hi Ht E. pose proof (ok_count s Hi l) as Hc. unfold count_of in Hc. rewrite E in Hc. rewrite Hc.
  apply u16_small. pose proof (refs_le s l). lia.
Qed.

(** A change of the tree that keeps the nodes with handles. *)
Lemma inv_heap s h' :
  handles_ok s -> (Z.of_nat (total s) < 65536)%Z -> wf h' -> tidy h' -> handle_safe (nodes s) h' -> inv (Devfs h' (files s) (dirs s)).
Proof.
  intros Hi Ht Hw Hti [Hc Hf]. split; [done..|]. split; simpl.
  - intros l. rewrite Hc. apply (ok_count s Hi).
  - intros id f E. destruct (ok_file s Hi id f E) as (nd & En & Hty).
    destruct (Hf _ nd En) as (nd' & E' & Hty'); [|exists nd'; split; congruence].
    rewrite (inv_refs s _ nd Hi Ht En). pose proof (pointing_pos file_node (files s) id f E). unfold refs. lia.
  - intros id d E. destruct (ok_dir s Hi id d E) as (nd & En & Hty).
    destruct (Hf _ nd En) as (nd' & E' & Hty'); [|exists nd'; split; congruence].
    rewrite (inv_refs s _ nd Hi Ht En). pose proof (pointing_pos dir_node (dirs s) id d E). unfold refs. lia.
Qed.

(** ** Stores to open counts *)

Lemma recount_shape f n h : same_shape h (alter (set_open_count f) n h).
Proof. by apply alter_same_shape. Qed.

Lemma recount_wf f n h : wf h -> wf (alter (set_open_count f) n h).
Proof. apply same_shape_wf, recount_shape. Qed.

Lemma recount_type f n h l t :
  (exists nd, h !! l = Some nd /\ type nd = t) ->
  exists nd', alter (set_open_count f) n h !! l = Some nd' /\ type nd' = t.
Proof.
  intros (nd & E & <-). destruct (same_shape_lookup h _ l nd (recount_shape f n h) E) as (nd' & ? & _ & _ & ? & _). eauto.
Qed.

Lemma count_of_recount f n h l nd :
  h !! n = Some nd ->
  count_of (alter (set_open_count f) n h) l = if decide (n = l) then u16 (f (open_count nd)) else count_of h l.
Proof.
  intros E. unfold count_of. destruct (decide (n = l)) as [<-|Hl].
  - by rewrite lookup_alter_eq, E.
  - by rewrite lookup_alter_ne.
Qed.

Lemma recount_prunable f n h l :
  tidy h -> prunable (alter (set_open_count f) n h) l = true -> l = n.
Proof.
  intros Hti Hp. apply dec_stable. intros Hl. specialize (Hti l). unfold prunable in *.
  rewrite lookup_alter_ne in Hp by done. congruence.
Qed.

(** One more handle on an existing node. *)
Lemma inv_acquire s s' n nd t :
  inv s -> (Z.of_nat (total s') < 65536)%Z -> nodes s !! n = Some nd -> type nd = t ->
  nodes s' = alter (set_open_count (fun k => k + 1)%Z) n (nodes s) ->
  (forall l, refs s' l = (if decide (n = l) then 1 else 0) + refs s l) ->
  (forall id f, files s' !! id = Some f -> files s !! id = Some f \/ (t = DEVFS_NODE_FILE /\ file_node f = n)) ->
  (forall id d, dirs s' !! id = Some d -> dirs s !! id = Some d \/ (t = DEVFS_NODE_DIR /\ dir_node d = n)) ->
  inv s'.
Proof.
  intros [Hw Hti Hi] Ht En Hty Hn Hr Hf Hd.
  assert (forall l, count_of (nodes s') l = u16 (Z.of_nat (refs s' l))) as Hc.
  { intros l. rewrite Hn, (count_of_recount _ n (nodes s) l nd En), Hr.
    pose proof (ok_count s Hi n) as Hcn. unfold count_of in Hcn. rewrite En in Hcn.
    destruct (decide (n = l)) as [<-|Hl]; [|apply (ok_count s Hi)].
    rewrite Hcn, u16_add. f_equal. lia. }
  split; [rewrite Hn; by apply recount_wf| |split; [done|..]].
  - intros l. apply not_true_is_false. intros Hp. assert (l = n) as ->.
    { rewrite Hn in Hp. by eapply recount_prunable. }
    apply prunable_true in Hp as (nd' & E' & _ & _ & _ & Hz). specialize (Hc n). unfold count_of in Hc.
    rewrite E', Hz in Hc. pose proof (refs_le s' n). rewrite u16_small in Hc by lia.
    specialize (Hr n). rewrite decide_True in Hr by done. lia.
  - intros id f E. rewrite Hn. destruct (Hf id f E) as [E'|[? ->]].
    + by apply recount_type, (ok_file s Hi id).
    + apply recount_type. exists nd. split; congruence.
  - intros id d E. rewrite Hn. destruct (Hd id d E) as [E'|[? ->]].
    + by apply recount_type, (ok_dir s Hi id).
    + apply recount_type. exists nd. split; congruence.
Qed.

(** The count after a handle on [n] is dropped. *)
Lemma count_release s n nd k (r : loc -> nat) :
  handles_ok s -> nodes s !! n = Some nd ->
  (forall l, refs s l = (if decide (n = l) then 1 else 0) + r l) ->
  count_of (alter (set_open_count (fun k => k - 1)%Z) n (nodes s)) k = u16 (Z.of_nat (r k)).
Proof.
  intros Hi En Hr. rewrite (count_of_recount _ n (nodes s) k nd En).
  pose proof (ok_count s Hi) as Hc. destruct (decide (n = k)) as [<-|Hk].
  - specialize (Hc n). unfold count_of in Hc. rewrite En in Hc. rewrite Hc, Hr, decide_True by done.
    unfold Z.sub. rewrite u16_add. f_equal. lia.
  - rewrite Hc, Hr, decide_False by done. done.
Qed.

Lemma inv_release_file s id f :
  inv s -> files s !! id = Some f -> inv (release_file s id (file_node f)).
Proof.
  intros [Hw Hti Hi] E. destruct (ok_file s Hi id f E) as (nd & En & Ht).
  unfold release_file. split; simpl; [by apply recount_wf| |split; simpl].
  - intros l. apply not_true_is_false. intros Hp.
    assert (l = file_node f) as -> by (by eapply recount_prunable).
    apply prunable_true in Hp as (nd' & E' & _ & Ht' & _).
    destruct (recount_type (fun k => k - 1)%Z (file_node f) (nodes s) (file_node f) DEVFS_NODE_FILE) as (nd2 & ? & ?); [by exists nd|congruence].
  - intros l. apply (count_release s (file_node f) nd l); [done..|]. intros k. unfold refs. simpl.
    rewrite (pointing_delete file_node (files s) id f k E). lia.
  - intros id' f' [_ E']%lookup_delete_Some. by apply recount_type, (ok_file s Hi id').
  - intros id' d' E'. by apply recount_type, (ok_dir s Hi id').
Qed.

(** Replacing a handle by one on the same node. *)
Lemma inv_put_file s id f f' :
  inv s -> files s !! id = Some f -> file_node f' = file_node f ->
  inv (Devfs (nodes s) (<[id := f']> (files s)) (dirs s)).
Proof.
  intros [Hw Hti Hi] E Hf. split; [done..|]. split; simpl; [| |apply Hi].
  - intros l. rewrite (ok_count s Hi). unfold refs. simpl. by rewrite (pointing_update _ _ _ f' f).
  - intros id' g [[<- <-]|[_ Hg]]%lookup_insert_Some; [|by eapply (ok_file s)].
    rewrite Hf. by eapply (ok_file s).
Qed.

Lemma inv_put_dir s id d d' :
  inv s -> dirs s !! id = Some d -> dir_node d' = dir_node d ->
  inv (Devfs (nodes s) (files s) (<[id := d']> (dirs s))).
Proof.
  intros [Hw Hti Hi] E Hd. split; [done..|]. split; simpl; [|apply Hi|].
  - intros l. rewrite (ok_count s Hi). unfold refs. simpl. by rewrite (pointing_update _ _ _ d' d).
  - intros id' g [[<- <-]|[_ Hg]]%lookup_insert_Some; [|by eapply (ok_dir s)].
    rewrite Hd. by eapply (ok_dir s).
Qed.

(** ** Every step preserves the invariant *)

Lemma inv_closedir s id d :
  inv s -> (Z.of_nat (total s) < 65536)%Z -> dirs s !! id = Some d -> inv (devfs_closedir s id).2.
Proof.
  intros [Hw Hti Hi] Ht E. unfold devfs_closedir. rewrite E. cbn [snd].
  destruct (ok_dir s Hi id d E) as (nd & En & Hty).
  set (h1 := alter (set_open_count (fun k => k - 1)%Z) (dir_node d) (nodes s)).
  assert (wf h1) as Hw1 by (by apply recount_wf).
  destruct (prune_spec h1 (dir_node d) Hw1) as (Hw2 & Hs2 & Hp2).
  { intros l. by apply recount_prunable. }
  pose proof (inv_heap (Devfs h1 (files s) (delete id (dirs s))) (prune_empty_dirs h1 (dir_node d))) as Hprune.
  simpl in Hprune. apply Hprune; try done.
  - split; simpl.
    + intros l. apply (count_release s (dir_node d) nd l); [done..|]. intros k. unfold refs. simpl.
      rewrite (pointing_delete dir_node (dirs s) id d k E). lia.
    + intros id' f' E'. by apply recount_type, (ok_file s Hi id').
    + intros id' d' [_ E']%lookup_delete_Some. by apply recount_type, (ok_dir s Hi id').
  - unfold total in *. simpl. rewrite map_size_delete_Some by eauto. lia.
  - by apply shrinks_safe.
Qed.

(** A path argument is NULL or a C string. *)
Definition c_string (path : option cstr) : Prop := forall p, path = Some p -> no_nul p.

Lemma inv_register s allocs path o ud :
  inv s -> (Z.of_nat (total s) < 65536)%Z -> c_string path ->
  inv (Devfs (devfs_register_file allocs (nodes s) path o ud).2 (files s) (dirs s)).
Proof.
  intros Hi Ht Hp. assert (inv (Devfs (nodes s) (files s) (dirs s))) as Hsame by (by destruct s).
  destruct o as [o|]; [|done]. destruct path as [p|]; [|done].
  destruct (validate_path (Some p) false) as [e|rel] eqn:Ev.
  { unfold devfs_register_file. by rewrite Ev. }
  destruct (decide (rel = [slash])) as [Er|Er].
  { unfold devfs_register_file. by rewrite Ev, decide_True. }
  destruct (devfs_register_file allocs (nodes s) (Some p) (Some o) ud) as [ret h'] eqn:E. destruct Hi as [Hw Hti Hi].
  destruct (register_spec allocs (nodes s) p o ud rel ret h' Hw Hti (Hp p eq_refl) Ev Er E) as (Hw' & Ht' & Hs & _).
  by apply inv_heap.
Qed.

Lemma inv_unregister s path :
  inv s -> (Z.of_nat (total s) < 65536)%Z -> c_string path ->
  inv (Devfs (devfs_unregister_file (nodes s) path).2 (files s) (dirs s)).
Proof.
  intros Hi Ht Hp. destruct path as [p|]; [|by destruct s].
  destruct (devfs_unregister_file (nodes s) (Some p)) as [ret h'] eqn:E. destruct Hi as [Hw Hti Hi].
  destruct (unregister_spec (nodes s) p ret h' Hw Hti (Hp p eq_refl) E) as (Hw' & Ht' & Hs & _).
  by apply inv_heap.
Qed.

(** What the locked sections of open and opendir do. *)
Lemma open_locked_cases h path want wrong :
  (exists n nd, open_locked h path want wrong
     = (0%Z, Some n, alter (set_open_count (fun k => k + 1)%Z) n h)
     /\ find_node h path = Some n /\ h !! n = Some nd /\ type nd = want)
  \/ exists ret, open_locked h path want wrong = (ret, None, h).
Proof.
  unfold open_locked. destruct (find_node h path) as [n|]; [|by right; eexists].
  case_decide as Hd; [by right; eexists|]. left. exists n.
  destruct (h !! n) as [nd|] eqn:E; [|done]. exists nd. simpl in Hd. by simplify_eq.
Qed.

Lemma inv_open_begin s malloc path :
  inv s -> (Z.of_nat (total (open_begin s malloc path).2) < 65536)%Z -> inv (open_begin s malloc path).2.
Proof.
  intros Hi. unfold open_begin. destruct malloc; [|done]. cbn [negb].
  destruct (open_locked_cases (nodes s) path DEVFS_NODE_FILE EISDIR) as [(n & nd & -> & _ & En & Hty)|[ret ->]]; [|done].
  cbn [snd]. intros Ht. assert (files s !! fresh (dom (files s)) = None) as Hf by (apply not_elem_of_dom, is_fresh).
  eapply (inv_acquire s _ n nd DEVFS_NODE_FILE); try done; simpl; [| |by left].
  - intros l. unfold refs. simpl. rewrite (pointing_insert file_node) by done. simpl. lia.
  - intros id f [[<- <-]|[_ Hg]]%lookup_insert_Some; auto.
Qed.

Lemma inv_opendir s malloc path :
  inv s -> (Z.of_nat (total (devfs_opendir s malloc path).2) < 65536)%Z -> inv (devfs_opendir s malloc path).2.
Proof.
  intros Hi. unfold devfs_opendir. destruct malloc; [|done]. cbn [negb].
  destruct (open_locked_cases (nodes s) path DEVFS_NODE_DIR ENOTDIR) as [(n & nd & -> & _ & En & Hty)|[ret ->]]; [|done].
  cbn [snd]. intros Ht. assert (dirs s !! fresh (dom (dirs s)) = None) as Hf by (apply not_elem_of_dom, is_fresh).
  eapply (inv_acquire s _ n nd DEVFS_NODE_DIR); try done; simpl; [|by left|].
  - intros l. unfold refs. simpl. rewrite (pointing_insert dir_node) by done. simpl. lia.
  - intros id f [[<- <-]|[_ Hg]]%lookup_insert_Some; auto.
Qed.

Lemma inv_open_finish s w id flags : inv s -> inv (open_finish s w id flags).1.2.
Proof.
  intros Hi. unfold open_finish. destruct (files s !! id) as [f|] eqn:E; [|done].
  destruct (nodes s !! file_node f) as [nd|]; [|done]. destruct (op_open (ops nd)) as [op|]; [|done].
  destruct (op _ _ _ _) as [[ret data] w']. case_decide; simpl.
  - by apply inv_release_file.
  - by eapply inv_put_file.
Qed.

Lemma inv_read s w id nbytes : inv s -> inv (devfs_read s w id nbytes).1.2.
Proof.
  intros Hi. unfold devfs_read. destruct (files s !! id) as [f|] eqn:E; [|done].
  destruct (nodes s !! file_node f) as [nd|]; [|done]. destruct (op_read (ops nd)) as [op|]; [|done].
  destruct (op _ _ _) as [[[ret out] data] w']. simpl. by eapply inv_put_file.
Qed.

Lemma inv_write s w id src : inv s -> inv (devfs_write s w id src).1.2.
Proof.
  intros Hi. unfold devfs_write. destruct (files s !! id) as [f|] eqn:E; [|done].
  destruct (nodes s !! file_node f) as [nd|]; [|done]. destruct (op_write (ops nd)) as [op|]; [|done].
  destruct (op _ _ _) as [[ret data] w']. simpl. by eapply inv_put_file.
Qed.

Lemma inv_close s w id : inv s -> inv (devfs_close s w id).1.2.
Proof.
  intros Hi. unfold devfs_close. destruct (files s !! id) as [f|] eqn:E; [|done].
  destruct (nodes s !! file_node f) as [nd|]; [|done].
  destruct (match op_close (ops nd) with Some _ => _ | None => _ end) as [ret w']. simpl.
  by apply inv_release_file.
Qed.

Lemma inv_readdir s id : inv s -> inv (devfs_readdir s id).2.
Proof.
  intros Hi. unfold devfs_readdir. destruct (dirs s !! id) as [d|] eqn:E; [|done].
  destruct (readdir_loop _ _ _); [|done]. simpl. by eapply inv_put_dir.
Qed.

(** ** Interleavings *)

(** The atomic steps of the file system: the locked sections, the callbacks
    and the operations on handles, in any order and by any thread. *)
Inductive dstep s : devfs -> Prop :=
| step_register allocs path o ud : c_string path ->
    dstep s (Devfs (devfs_register_file allocs (nodes s) path o ud).2 (files s) (dirs s))
| step_unregister path : c_string path ->
    dstep s (Devfs (devfs_unregister_file (nodes s) path).2 (files s) (dirs s))
| step_open_begin malloc path : dstep s (open_begin s malloc path).2
| step_open_finish w id flags : dstep s (open_finish s w id flags).1.2
| step_read w id nbytes : dstep s (devfs_read s w id nbytes).1.2
| step_write w id src : dstep s (devfs_write s w id src).1.2
| step_close w id : dstep s (devfs_close s w id).1.2
| step_opendir malloc path : dstep s (devfs_opendir s malloc path).2
| step_readdir id : dstep s (devfs_readdir s id).2
| step_closedir id d : dirs s !! id = Some d -> dstep s (devfs_closedir s id).2.

(** The states reached while fewer than 65536 handles are open. *)
Inductive reachable : devfs -> Prop :=
| reach_initial : reachable initial
| reach_step s s' : reachable s -> dstep s s' -> (Z.of_nat (total s') < 65536)%Z -> reachable s'.

Lemma inv_initial : inv (initial : devfs).
Proof.
  assert (forall l nd, (initial_heap : heap) !! l = Some nd ->
    l = root /\ nd = Node [] None zero_ops 0 0 DEVFS_NODE_DIR []) as Hl.
  { unfold initial_heap. intros l nd [<- <-]%lookup_singleton_Some. done. }
  assert (forall p, children_of (initial_heap : heap) p = []) as Hc.
  { intros p. unfold children_of. destruct ((initial_heap : heap) !! p) as [nd|] eqn:E; [|done].
    by apply Hl in E as [_ ->]. }
  split; simpl.
  - split.
    + by eexists.
    + intros p c. rewrite Hc. set_solver.
    + intros c cd [-> ->]%Hl. done.
    + intros n nd [-> ->]%Hl. done.
    + intros p. rewrite Hc. constructor.
    + intros c cd [-> ->]%Hl. done.
    + intros n [nd [-> ->]%Hl]. exists []. constructor.
  - intros l. apply not_true_is_false. rewrite prunable_true. by intros (nd & [-> ->]%Hl & ? & _).
  - split; simpl; [|done..]. intros l. unfold count_of.
    destruct ((initial_heap : heap) !! l) as [nd|] eqn:E; [apply Hl in E as [_ ->]|]; done.
Qed.

Lemma devfs_reachable_inv s : reachable s -> inv s /\ (Z.of_nat (total s) < 65536)%Z.
Proof.
  induction 1 as [|s s' Hr [Hi Ht] Hs Ht']; [split; [apply inv_initial|done]|]. split; [|done].
  destruct Hs; eauto using inv_register, inv_unregister, inv_open_begin, inv_open_finish, inv_read, inv_write,
    inv_close, inv_opendir, inv_readdir, inv_closedir.
Qed.

(** ** Lookup after registration *)

Lemma validate_weaken (p : cstr) rel :
  validate_path (Some p) false = inr rel -> validate_path (Some p) true = inr rel.
Proof.
  unfold validate_path. case_decide; [done|]. cbn [negb andb].
  destruct (bool_decide _ && bool_decide _); [done|]. done.
Qed.

Lemma register_resolves (p : cstr) rel :
  no_nul p -> validate_path (Some p) false = inr rel -> rel <> [slash] -> resolves (Some p) (names rel) false.
Proof.
  intros Hp Hv Hr. exists rel. split; [by apply validate_weaken|]. split; [done|].
  destruct (validate_path_ok p false rel Hp Hv) as (r & -> & _ & Hl). symmetry. apply bool_decide_eq_false.
  destruct r as [|x r]; [done|]. rewrite last_cons_cons. by apply Hl.
Qed.

Lemma resolves_fun path a d a' d' : resolves path a d -> resolves path a' d' -> a = a' /\ d = d'.
Proof. intros (r & E & -> & ->) (r' & E' & -> & ->). rewrite E in E'. by simplify_eq. Qed.

(** ** Listing a directory *)

Fixpoint readdir_calls (k : nat) s (id : positive) : list cstr :=
  match k with
  | O => []
  | S k' => let '(nm, _, s') := devfs_readdir s id in nm :: readdir_calls k' s' id
  end.

(** The loop skips the children up to the last one returned. *)
Lemma readdir_loop_skip h (pre post : list loc) (d : devfs_dir) :
  StronglySorted (name_lt h) (pre ++ post) ->
  started d = true -> (exists c, last pre = Some c /\ last_name d = name_of h c) ->
  readdir_loop h (pre ++ post) d = head post.
Proof.
  intros Hs Hd (c & Hc & Hn).
  assert (pre = take (length pre - 1) pre ++ [c]) as Epre.
  { destruct pre as [|x pre _] using rev_ind; [done|]. rewrite last_snoc in Hc. simplify_eq.
    rewrite length_app. simpl. by rewrite Nat.add_sub, take_app_length. }
  assert (forall x, x ∈ pre -> strcmp (name_of h x) (last_name d) <> Gt) as Hpre.
  { intros x Hx. rewrite Hn. rewrite Epre in Hx. apply elem_of_app in Hx as [Hx| ->%list_elem_of_singleton].
    - rewrite Epre, <- app_assoc in Hs. apply StronglySorted_app in Hs as (Hlt & _ & _).
      specialize (Hlt x c Hx). unfold name_lt, str_lt in Hlt. rewrite Hlt; [done|set_solver].
    - by rewrite strcmp_refl. }
  clear Epre. assert (forall x, x ∈ post -> strcmp (name_of h x) (last_name d) = Gt) as Hpost.
  { intros x Hx. rewrite Hn. apply strcmp_gt. apply StronglySorted_app in Hs as (Hlt & _ & _).
    apply (Hlt c x); [|done]. apply last_Some_elem_of. done. }
  clear Hs Hc Hn. induction pre as [|x pre IH]; simpl.
  - destruct post as [|y post]; [done|]. simpl. rewrite Hd, (Hpost y) by set_solver. done.
  - rewrite Hd. rewrite bool_decide_false by (apply Hpre; set_solver). simpl. apply IH. set_solver.
Qed.

Lemma readdir_calls_spec (pre post : list loc) s id d :
  wf (nodes s) -> WEBOS_DEVFS_MAX_PATH_LEN <= DIRENT_NAME_SIZE ->
  dirs s !! id = Some d -> children_of (nodes s) (dir_node d) = pre ++ post ->
  (pre = [] /\ started d = false)
  \/ (started d = true /\ exists c, last pre = Some c /\ last_name d = name_of (nodes s) c) ->
  readdir_calls (S (length post)) s id = (name_of (nodes s) <$> post) ++ [[]].
Proof.
  revert pre s d. induction post as [|c post IH]; intros pre s d Hw Hsz Hd Hch Hpos.
  - cbn [readdir_calls length]. unfold devfs_readdir. rewrite Hd, Hch.
    destruct Hpos as [[-> Hst]|[Hst Hlast]]; [done|].
    rewrite readdir_loop_skip; [done| |done..]. rewrite <- Hch. by apply wf_sorted.
  - remember (S (length post)) as k eqn:Ek. cbn [length]. rewrite <- Ek. cbn [readdir_calls].
    unfold devfs_readdir. rewrite Hd, Hch.
    assert (readdir_loop (nodes s) (pre ++ c :: post) d = Some c) as ->.
    { destruct Hpos as [[-> Hst]|[Hst Hlast]]; [simpl; by rewrite Hst|].
      rewrite readdir_loop_skip; [done| |done..]. rewrite <- Hch. by apply wf_sorted. }
    assert (c ∈ children_of (nodes s) (dir_node d)) as Hc by (rewrite Hch; set_solver).
    destruct (child_good_name (nodes s) (dir_node d) c Hw Hc) as (_ & _ & _ & Hlen).
    rewrite !take_ge by lia. rewrite fmap_cons. cbn [app]. f_equal. subst k.
    match goal with |- readdir_calls _ ?s' _ = _ =>
      rewrite (IH (pre ++ [c]) s' (Dir (dir_node d) (name_of (nodes s) c) true)) end; simpl; try done.
    + by rewrite lookup_insert_eq.
    + by rewrite <- app_assoc.
    + right. split; [done|]. exists c. by rewrite last_snoc.
Qed.

(** ** Theorems *)

(** C3: in every state reached by any interleaving of registrations, removals,
    opens, reads, writes, closes and directory operations (fewer than 65536
    handles), the tree is well formed, holds no empty directory nobody has
    open, and every handle points at a live node of its type whose open count
    is exactly the number of its handles: no handle ever dangles. *)
Theorem devfs_handles_never_dangle s :
  reachable s ->
  wf (nodes s) /\ tidy (nodes s)
  /\ (forall id f, files s !! id = Some f -> exists nd, nodes s !! file_node f = Some nd
        /\ type nd = DEVFS_NODE_FILE /\ open_count nd = Z.of_nat (refs s (file_node f)) /\ (0 < open_count nd)%Z)
  /\ (forall id d, dirs s !! id = Some d -> exists nd, nodes s !! dir_node d = Some nd
        /\ type nd = DEVFS_NODE_DIR /\ open_count nd = Z.of_nat (refs s (dir_node d)) /\ (0 < open_count nd)%Z).
Proof.
  intros [[Hw Hti Hi] Ht]%devfs_reachable_inv. split_and!; [done..| |].
  - intros id f E. destruct (ok_file s Hi id f E) as (nd & En & Hty). exists nd.
    rewrite (inv_refs s _ nd Hi Ht En). split_and!; try done.
    pose proof (pointing_pos file_node (files s) id f E). unfold refs. lia.
  - intros id d E. destruct (ok_dir s Hi id d E) as (nd & En & Hty). exists nd.
    rewrite (inv_refs s _ nd Hi Ht En). split_and!; try done.
    pose proof (pointing_pos dir_node (dirs s) id d E). unfold refs. lia.
Qed.

(** C5: [devfs_register_file] refines insertion into the map from paths to
    device files: on success the path was free and is now bound to the given
    callbacks and data, every other file is as before; on failure no file
    changes and the error names the cause (an existing file, an existing
    directory, a file among the parents, or a failed allocation). *)
Theorem register_refines_insert s allocs (p : cstr) rel o ud ret h' :
  reachable s -> no_nul p -> validate_path (Some p) false = inr rel -> rel <> [slash] ->
  devfs_register_file allocs (nodes s) (Some p) (Some o) ud = (ret, h') ->
  (ret = 0%Z /\ (forall l, ~ at_path (nodes s) (names rel) l)
   /\ forall a o' ud', file_entry h' a o' ud'
        <-> (a = names rel /\ o' = o /\ ud' = ud) \/ file_entry (nodes s) a o' ud')
  \/ (ret <> 0%Z /\ register_failure allocs (nodes s) (names rel) ret
      /\ forall a o' ud', file_entry h' a o' ud' <-> file_entry (nodes s) a o' ud').
Proof.
  intros [[Hw Hti Hi] Ht]%devfs_reachable_inv Hp Hv Hr E.
  destruct (register_spec allocs (nodes s) p o ud rel ret h' Hw Hti Hp Hv Hr E) as (_ & _ & _ & H). naive_solver.
Qed.

(** C20: [devfs_unregister_file] refines deletion from that map: it succeeds
    only on a file without open handles and then removes exactly this file;
    otherwise nothing changes, and an open file is reported busy. *)
Theorem unregister_refines_delete s (p : cstr) ret h' :
  reachable s -> no_nul p -> devfs_unregister_file (nodes s) (Some p) = (ret, h') ->
  (ret = 0%Z /\ exists a d n, resolves (Some p) a d /\ at_path (nodes s) a n /\ refs s n = 0
     /\ forall a' o ud, file_entry h' a' o ud <-> file_entry (nodes s) a' o ud /\ a' <> a)
  \/ (ret <> 0%Z /\ h' = nodes s
      /\ (ret = (- EBUSY)%Z <-> exists n nd, find_node (nodes s) (Some p) = Some n /\ nodes s !! n = Some nd
            /\ type nd = DEVFS_NODE_FILE /\ 0 < refs s n)).
Proof.
  intros [[Hw Hti Hi] Ht]%devfs_reachable_inv Hp E.
  destruct (unregister_spec (nodes s) p ret h' Hw Hti Hp E) as (_ & _ & _ & [(-> & a & d & n & nd & Hr & Ha & En & Hty & Ho & Hf)|(Hne & -> & Hc)]).
  - left. split; [done|]. exists a, d, n. split_and!; try done.
    rewrite (inv_refs s n nd Hi Ht En) in Ho. lia.
  - right. split_and!; try done. destruct Hc as [[-> Hn]|(n & nd & Hn & En & [[-> Hty]|(-> & Hty & Ho)])].
    + split; [done|]. intros (n & nd & ? & _). congruence.
    + split; [done|]. intros (n' & nd' & ? & ? & ? & _). simplify_eq. congruence.
    + split; [intros _|done]. exists n, nd. split_and!; try done.
      rewrite (inv_refs s n nd Hi Ht En) in Ho. lia.
Qed.

(** Registering and looking up, then unregistering: after a successful
    registration [devfs_stat] reports a file at the path and lookup yields the
    registered callbacks and data; unregistering it succeeds and restores the
    files of the tree. *)
Theorem register_lookup_unregister s allocs (p : cstr) rel o ud h' :
  reachable s -> no_nul p -> validate_path (Some p) false = inr rel -> rel <> [slash] ->
  devfs_register_file allocs (nodes s) (Some p) (Some o) ud = (0%Z, h') ->
  devfs_stat h' (Some p) = (0%Z, Some FS_DIR_ENTRY_FILE)
  /\ (exists n nd, find_node h' (Some p) = Some n /\ h' !! n = Some nd /\ ops nd = o /\ user_data nd = ud)
  /\ exists h'', devfs_unregister_file h' (Some p) = (0%Z, h'')
       /\ forall a o' ud', file_entry h'' a o' ud' <-> file_entry (nodes s) a o' ud'.
Proof.
  intros [[Hw Hti Hi] Ht]%devfs_reachable_inv Hp Hv Hr E.
  destruct (register_spec allocs (nodes s) p o ud rel 0 h' Hw Hti Hp Hv Hr E)
    as (Hw' & Hti' & _ & [(_ & Hno & (n & nd & Ha & E' & Hty & Ho & Hu & Hz) & Hf)|(? & _)]); [|done].
  pose proof (register_resolves p rel Hp Hv Hr) as Hres.
  assert (find_node h' (Some p) = Some n) as En by (apply find_node_spec; eauto 6; by exists (names rel), false).
  split_and!.
  - unfold devfs_stat. rewrite En, E'. simpl. by rewrite Hty.
  - by exists n, nd.
  - destruct (devfs_unregister_file h' (Some p)) as [ret h''] eqn:Eu.
    destruct (unregister_spec h' p ret h'' Hw' Hti' Hp Eu)
      as (_ & _ & _ & [(-> & a & d & n' & nd' & Hres' & Ha' & _ & _ & _ & Hf')|(Hne & _ & [[_ Hn]|(n' & nd' & Hn' & En' & Hc')])]).
    + exists h''. split; [done|]. destruct (resolves_fun _ _ _ _ _ Hres' Hres) as [-> ->].
      intros a o' ud'. rewrite Hf', Hf. split.
      * intros [[[-> _]|?] Hne]; [done|done].
      * intros Hfe. split; [by right|]. intros ->. destruct Hfe as (l & ? & Hl & _). by apply (Hno l).
    + congruence.
    + simplify_eq. destruct Hc' as [[_ ?]|(_ & _ & ?)]; congruence.
Qed.

(** A registration whose allocations succeed fails only for a reason in the
    tree: if nothing is at the path and no parent is a file, it succeeds. *)
Theorem register_succeeds s (p : cstr) rel o ud :
  reachable s -> no_nul p -> validate_path (Some p) false = inr rel -> rel <> [slash] ->
  (forall l, ~ at_path (nodes s) (names rel) l) ->
  (forall b d o' ud', names rel = b ++ d -> d <> [] -> ~ file_entry (nodes s) b o' ud') ->
  exists h', devfs_register_file (fun _ => true) (nodes s) (Some p) (Some o) ud = (0%Z, h').
Proof.
  intros [[Hw Hti Hi] Ht]%devfs_reachable_inv Hp Hv Hr Hno Hpar.
  destruct (devfs_register_file (fun _ => true) (nodes s) (Some p) (Some o) ud) as [ret h'] eqn:E.
  destruct (register_spec _ (nodes s) p o ud rel ret h' Hw Hti Hp Hv Hr E) as (_ & _ & _ & [(-> & _)|(_ & Hf & _)]); [eauto|].
  exfalso. destruct Hf as [(_ & o' & ud' & n & nd & Ha & _)|[(_ & l & Hl & _)|[(_ & b & d & o' & ud' & Eq & Hd & Hf)|(_ & i & ?)]]].
  - by apply (Hno n).
  - by apply (Hno l).
  - by apply (Hpar b d o' ud').
  - done.
Qed.

(** Reading a directory from a fresh handle yields the name of every child
    exactly once, in increasing order, and then the empty name, when the
    directory entry can hold a name of the maximal length. *)
Theorem readdir_lists_children s id n :
  reachable s -> WEBOS_DEVFS_MAX_PATH_LEN <= DIRENT_NAME_SIZE -> dirs s !! id = Some (Dir n [] false) ->
  let l := name_of (nodes s) <$> children_of (nodes s) n in
  readdir_calls (S (length l)) s id = l ++ [[]] /\ StronglySorted str_lt l
  /\ forall c, c ∈ l <-> exists m, find_child (nodes s) n c = Some m /\ no_nul c.
Proof.
  intros [[Hw Hti Hi] Ht]%devfs_reachable_inv Hsz Hd l. split_and!.
  - subst l. rewrite length_fmap. by apply (readdir_calls_spec [] _ s id (Dir n [] false)); auto.
  - subst l. pose proof (wf_sorted _ Hw n) as Hs. induction Hs as [|x k Hs IH Hx]; [constructor|].
    rewrite fmap_cons. constructor; [done|]. by apply Forall_fmap.
  - intros c. subst l. rewrite list_elem_of_fmap. split.
    + intros (m & -> & Hm). destruct (child_good_name _ n m Hw Hm) as (_ & _ & Hn & _). exists m.
      split; [|done]. by apply find_child_spec.
    + intros (m & Hm & Hn). apply find_child_spec in Hm as [? <-]; [|done..]. eauto.
Qed.
End state.

(** ** Witnesses *)

Definition demo_config : DevfsConfig := {| WEBOS_DEVFS_MAX_PATH_LEN := 64; DIRENT_NAME_SIZE := 256 |}.
#[local] Existing Instance demo_config.

Definition demo_ops : devfs_file_ops unit :=
  FileOps None (Some (fun d _ w => (2%Z, cs "1", d, w))) None None.

Definition demo_path : cstr := cs "/dev/gpio/4/value".

Definition demo0 : @Tree.devfs unit := Tree.initial.

(** One registered file, then a directory handle, then a file handle. *)
Definition demo1 : @Tree.devfs unit :=
  Tree.Devfs (Tree.devfs_register_file (fun _ => true) (Tree.nodes demo0) (Some demo_path) (Some demo_ops) 7).2
    (Tree.files demo0) (Tree.dirs demo0).
Definition demo2 : @Tree.devfs unit := (Tree.devfs_opendir demo1 true (Some (cs "/dev/gpio"))).2.
Definition demo3 : @Tree.devfs unit := (Tree.open_begin demo2 true (Some demo_path)).2.

Lemma demo_no_nul : no_nul demo_path.
Proof. apply (bool_decide_unpack _). vm_compute. exact I. Qed.

Lemma demo1_reachable : reachable demo1.
Proof.
  eapply reach_step; [apply reach_initial|apply step_register|vm_compute; reflexivity].
  intros p [= <-]. apply demo_no_nul.
Qed.

Lemma demo2_reachable : reachable demo2.
Proof. eapply reach_step; [apply demo1_reachable|apply step_opendir|vm_compute; reflexivity]. Qed.

Lemma demo3_reachable : reachable demo3.
Proof. eapply reach_step; [apply demo2_reachable|apply step_open_begin|vm_compute; reflexivity]. Qed.

Lemma devfs_handles_never_dangle_witness :
  exists nd, Tree.nodes demo3 !! 4%positive = Some nd /\ type nd = DEVFS_NODE_FILE
    /\ open_count nd = 1%Z /\ (0 < open_count nd)%Z.
Proof.
  apply (proj1 (proj2 (proj2 (devfs_handles_never_dangle demo3 demo3_reachable))) 1%positive (File 4%positive 0)).
  vm_compute. reflexivity.
Defined.

Lemma register_refines_insert_witness :
  exists ret h', Tree.devfs_register_file (fun _ => true) (Tree.nodes demo1) (Some (cs "/dev/gpio/5")) (Some demo_ops) 8
      = (ret, h')
    /\ ((ret = 0%Z /\ (forall l, ~ at_path (Tree.nodes demo1) [cs "gpio"; cs "5"] l)
         /\ forall a o' ud', file_entry h' a o' ud'
              <-> (a = [cs "gpio"; cs "5"] /\ o' = demo_ops /\ ud' = 8%Z) \/ file_entry (Tree.nodes demo1) a o' ud')
        \/ (ret <> 0%Z /\ register_failure (fun _ => true) (Tree.nodes demo1) [cs "gpio"; cs "5"] ret
            /\ forall a o' ud', file_entry h' a o' ud' <-> file_entry (Tree.nodes demo1) a o' ud')).
Proof.
  eexists _, _. split; [apply surjective_pairing|].
  apply (register_refines_insert demo1 (fun _ => true) (cs "/dev/gpio/5") (cs "/gpio/5") demo_ops 8 _ _ demo1_reachable);
    [apply (bool_decide_unpack _); vm_compute; exact I|vm_compute; reflexivity|vm_compute; discriminate
    |apply surjective_pairing].
Defined.

Lemma unregister_refines_delete_witness :
  (- EBUSY <> 0)%Z /\ Tree.nodes demo3 = Tree.nodes demo3
  /\ ((- EBUSY = - EBUSY)%Z <-> exists n nd, Tree.find_node (Tree.nodes demo3) (Some demo_path) = Some n
        /\ Tree.nodes demo3 !! n = Some nd /\ type nd = DEVFS_NODE_FILE /\ 0 < refs demo3 n).
Proof.
  destruct (unregister_refines_delete demo3 demo_path (- EBUSY) (Tree.nodes demo3) demo3_reachable demo_no_nul)
    as [[H _]|H]; [vm_compute; reflexivity|discriminate H|exact H].
Defined.

Lemma register_lookup_unregister_witness :
  Tree.devfs_stat (Tree.nodes demo1) (Some demo_path) = (0%Z, Some FS_DIR_ENTRY_FILE)
  /\ (exists n nd, Tree.find_node (Tree.nodes demo1) (Some demo_path) = Some n
        /\ Tree.nodes demo1 !! n = Some nd /\ ops nd = demo_ops /\ user_data nd = 7%Z)
  /\ exists h'', Tree.devfs_unregister_file (Tree.nodes demo1) (Some demo_path) = (0%Z, h'')
       /\ forall a o' ud', file_entry h'' a o' ud' <-> file_entry (Tree.nodes demo0) a o' ud'.
Proof.
  apply (register_lookup_unregister demo0 (fun _ => true) demo_path (cs "/gpio/4/value") demo_ops 7
           (Tree.nodes demo1) (reach_initial)); [apply demo_no_nul|vm_compute; reflexivity|vm_compute; discriminate|].
  vm_compute. reflexivity.
Defined.

Lemma register_succeeds_witness :
  exists h', Tree.devfs_register_file (fun _ => true) (Tree.nodes demo0) (Some demo_path) (Some demo_ops) 7
    = (0%Z, h').
Proof.
  assert (forall a l, at_path (Tree.nodes demo0) a l -> a = [] /\ l = root) as Hall.
  { induction 1 as [|a p c Ha [-> ->] Hc]; [split; reflexivity|]. vm_compute in Hc. inversion Hc. }
  apply (register_succeeds demo0 demo_path (cs "/gpio/4/value") demo_ops 7 reach_initial);
    [apply demo_no_nul|vm_compute; reflexivity|vm_compute; discriminate| |].
  - intros l Hl. apply Hall in Hl. destruct Hl as [Hl _]. vm_compute in Hl. discriminate Hl.
  - intros b d o' ud' _ _ (l & nd & Hl & Hn & Ht & _). apply Hall in Hl. destruct Hl as [_ ->].
    vm_compute in Hn. injection Hn as <-. discriminate Ht.
Defined.

Lemma readdir_lists_children_witness :
  readdir_calls 2 demo2 1%positive = [cs "4"; []] /\ StronglySorted str_lt [cs "4"]
  /\ forall c, c ∈ [cs "4"] <-> exists m, Tree.find_child (Tree.nodes demo2) 2%positive c = Some m /\ no_nul c.
Proof.
  apply (readdir_lists_children demo2 1%positive 2%positive demo2_reachable); [|vm_compute; reflexivity].
  apply (bool_decide_unpack _). vm_compute. exact I.
Defined.
