(* ===== verification/DevfsPart.v ===== *)
(** * Drivers that share one device tree

    The tree of devfs is one for all drivers, while the callbacks of a driver work
    on the state of that driver only.  [Part] says where the state of a driver is
    within the state of all of them; [lift_ops] makes the callbacks of a driver
    callbacks over the whole state. *)

From S2P Require Import Prelude CLib Devfs.
From Stdlib Require Import ZArith Lia.
From Stdlib Require Import Strings.Byte.
From stdpp Require Import base numbers list.

(** [A] is a part of [W]. *)
Class Part (W A : Type) := {
  part : W -> A;
  with_part : A -> W -> W;
  part_with a w : part (with_part a w) = a;
  with_own w : with_part (part w) w = w;
  with_with a b w : with_part a (with_part b w) = with_part a w;
}.

(** A driver on its own. *)
Definition whole (A : Type) : Part A A.
Proof. by refine {| part w := w; with_part a _ := a |}. Defined.

(** The parts of a pair. *)
Definition left_part (A B : Type) : Part (A * B) A.
Proof. refine {| part w := w.1; with_part a w := (a, w.2) |}; [done|by intros []|done]. Defined.

Definition right_part (A B : Type) : Part (A * B) B.
Proof. refine {| part w := w.2; with_part b w := (w.1, b) |}; [done|by intros []|done]. Defined.

(** The parts have nothing in common. *)
Class Separate (W A B : Type) (P : Part W A) (Q : Part W B) := {
  other_left a w : part (with_part (Part := P) a w) = part (Part := Q) w;
  other_right b w : part (with_part (Part := Q) b w) = part (Part := P) w;
}.

#[export] Instance separate_pair A B : Separate (A * B) A B (left_part A B) (right_part A B).
Proof. done. Qed.

Section lift.
Context {W A : Type} {P : Part W A}.

(** Runs an operation of the part. *)
Definition on_part {R : Type} (f : A -> R * A) (w : W) : R * W :=
  let '(r, a) := f (part w) in (r, with_part a w).

Definition lift_ops (o : devfs_file_ops A) : devfs_file_ops W := FileOps
  ((fun f data ud fl => on_part (f data ud fl)) <$> op_open o)
  ((fun f data n => on_part (f data n)) <$> op_read o)
  ((fun f data src => on_part (f data src)) <$> op_write o)
  ((fun f data => on_part (f data)) <$> op_close o).

Lemma on_part_eq {R} (f : A -> R * A) w r a : f (part w) = (r, a) -> on_part f w = (r, with_part a w).
Proof. unfold on_part. by intros ->. Qed.

(** Operations in sequence on the part. *)
Lemma on_part_next {R} (f : A -> R * A) a w r b : f a = (r, b) -> on_part f (with_part a w) = (r, with_part b w).
Proof. intros H. rewrite (on_part_eq f _ r b); [by rewrite with_with|by rewrite part_with]. Qed.
End lift.
