(* ===== verification/DevfsAccess.v ===== *)
(** * One access to a device file

    Opening a device file, one read or write, and closing it leave the tree and the
    handle tables exactly as they were and change the state of the drivers as the
    three callbacks do; a registered file is found under its path below /dev. *)

From S2P Require Import Prelude CLib Devfs DevfsTree DevfsSpec DevfsState DevfsPart.
From Stdlib Require Import ZArith Lia.
From Stdlib Require Import Strings.Byte.
From stdpp Require Import base numbers list list_numbers strings countable sets gmap.

Module DevfsAccess.
Import Path Tree.

Section access.
Context {cfg : DevfsConfig} {W : Type}.
Implicit Types (s : devfs (W := W)) (w : W).

(** A device file that can be opened once more without its 16-bit count wrapping
    around. *)
Definition device_at s (p : cstr) (o : devfs_file_ops W) (ud : Z) : Prop :=
  exists n nd, find_node (nodes s) (Some p) = Some n /\ nodes s !! n = Some nd /\ type nd = DEVFS_NODE_FILE
    /\ ops nd = o /\ user_data nd = ud /\ (0 <= open_count nd < 65535)%Z.

(** Counting a handle and releasing it gives the node back. *)
Lemma recount_back (h : gmap loc (devfs_node W)) n nd :
  h !! n = Some nd -> (0 <= open_count nd < 65535)%Z ->
  alter (set_open_count (fun k => k - 1)%Z) n (alter (set_open_count (fun k => k + 1)%Z) n h) = h.
Proof.
  intros E Hc. apply map_eq. intros l. destruct (decide (n = l)) as [<-|Hl].
  - rewrite !lookup_alter_eq, E. cbn. destruct nd as [c p o ud k t nm]. unfold set_open_count. cbn in *. do 2 f_equal.
    rewrite (u16_small (k + 1)) by lia. rewrite u16_small by lia. lia.
  - by rewrite !lookup_alter_ne.
Qed.

(** The state while a handle [id] is open on [n] with private data [data]. *)
Definition opened s (n : loc) (id : positive) (data : Z) : devfs (W := W) :=
  Devfs (alter (set_open_count (fun k => k + 1)%Z) n (nodes s)) (<[id := File n data]> (files s)) (dirs s).

Lemma open_device s w p o ud flags op d1 w1 :
  device_at s p o ud -> op_open o = Some op -> op 0%Z ud flags w = (0%Z, d1, w1) ->
  exists n nd, find_node (nodes s) (Some p) = Some n /\ nodes s !! n = Some nd /\ ops nd = o
    /\ (0 <= open_count nd < 65535)%Z
    /\ devfs_open s w true (Some p) flags = (0%Z, Some (fresh (dom (files s))), opened s n (fresh (dom (files s))) d1, w1).
Proof.
  intros (n & nd & Ef & En & Ht & Ho & Hu & Hc) Eop Ecall. exists n, nd. split_and!; try done; [by destruct Hc..|].
  unfold devfs_open, open_begin, open_locked. cbn [negb]. rewrite Ef, En. cbn [fmap option_fmap option_map]. rewrite Ht.
  rewrite decide_False by (intros Hn; by apply Hn). unfold open_finish. cbn [files nodes dirs].
  rewrite lookup_insert_eq. cbn [file_node file_data]. rewrite lookup_alter_eq, En. cbn. rewrite Ho, Eop, Hu, Ecall.
  rewrite decide_False by (intros Hn; by apply Hn). unfold opened. by rewrite insert_insert_eq.
Qed.

(** The first half of a rollback: a callback that refuses leaves the tree alone. *)
Lemma open_refused s w p o ud flags op r d1 w1 :
  device_at s p o ud -> op_open o = Some op -> op 0%Z ud flags w = (r, d1, w1) -> r <> 0%Z ->
  devfs_open s w true (Some p) flags = (r, None, s, w1).
Proof.
  intros (n & nd & Ef & En & Ht & Ho & Hu & Hc) Eop Ecall Hr.
  unfold devfs_open, open_begin, open_locked. cbn [negb]. rewrite Ef, En. cbn [fmap option_fmap option_map]. rewrite Ht.
  rewrite decide_False by (intros Hn; by apply Hn). unfold open_finish. cbn [files nodes dirs].
  rewrite lookup_insert_eq. cbn [file_node file_data]. rewrite lookup_alter_eq, En. cbn. rewrite Ho, Eop, Hu, Ecall.
  rewrite decide_True by done. unfold release_file. cbn. rewrite (recount_back _ _ nd) by done.
  rewrite delete_insert_id by (apply not_elem_of_dom, is_fresh). by destruct s.
Qed.

Lemma opened_node s n id data nd :
  nodes s !! n = Some nd -> exists nd', nodes (opened s n id data) !! n = Some nd' /\ ops nd' = ops nd.
Proof. intros E. cbn. rewrite lookup_alter_eq, E. by eexists. Qed.

Lemma write_device s w n id data nd src op r d2 w2 :
  nodes s !! n = Some nd -> op_write (ops nd) = Some op -> op data src w = (r, d2, w2) ->
  devfs_write (opened s n id data) w id src = (r, opened s n id d2, w2).
Proof.
  intros En Eop Ecall. destruct (opened_node s n id data nd En) as (nd' & E' & Eo).
  unfold devfs_write. cbn [files opened]. rewrite lookup_insert_eq. cbn [file_node file_data].
  fold (opened s n id data). rewrite E', Eo, Eop, Ecall. unfold put_data, opened. cbn. by rewrite insert_insert_eq.
Qed.

Lemma read_device s w n id data nd k op r out d2 w2 :
  nodes s !! n = Some nd -> op_read (ops nd) = Some op -> op data k w = (r, out, d2, w2) ->
  devfs_read (opened s n id data) w id k = (r, out, opened s n id d2, w2).
Proof.
  intros En Eop Ecall. destruct (opened_node s n id data nd En) as (nd' & E' & Eo).
  unfold devfs_read. cbn [files opened]. rewrite lookup_insert_eq. cbn [file_node file_data].
  fold (opened s n id data). rewrite E', Eo, Eop, Ecall. unfold put_data, opened. cbn. by rewrite insert_insert_eq.
Qed.

Lemma close_device s w n id data nd op r d3 w3 :
  nodes s !! n = Some nd -> (0 <= open_count nd < 65535)%Z -> files s !! id = None ->
  op_close (ops nd) = Some op -> op data w = (r, d3, w3) ->
  devfs_close (opened s n id data) w id = (r, s, w3).
Proof.
  intros En Hc Hid Eop Ecall. destruct (opened_node s n id data nd En) as (nd' & E' & Eo).
  unfold devfs_close. cbn [files opened]. rewrite lookup_insert_eq. cbn [file_node file_data].
  fold (opened s n id data). rewrite E', Eo, Eop, Ecall. unfold release_file, opened. cbn.
  rewrite (recount_back _ _ nd) by done. rewrite delete_insert_id by done. by destruct s.
Qed.

(** ** Registered files are found *)

Lemma device_of_entry s (p : cstr) a o ud :
  DevfsState.inv s -> (Z.of_nat (DevfsState.total s) < 65535)%Z -> no_nul p -> resolves (Some p) a false -> file_entry (nodes s) a o ud ->
  device_at s p o ud.
Proof.
  intros Hi Ht Hp Hres (l & nd & Hat & E & Hty & Ho & Hu). exists l, nd. split_and!; try done.
  - apply (find_node_spec (nodes s) p l (inv_wf s Hi) Hp). by exists a, false.
  - rewrite (inv_refs s l nd (inv_handles s Hi)); [lia|lia|done].
  - rewrite (inv_refs s l nd (inv_handles s Hi)); [|lia|done]. pose proof (refs_le s l). lia.
Qed.
End access.
End DevfsAccess.
