(* ===== verification/Gpio.v ===== *)
(** * The GPIO device files

    Model of src/drivers/webos_gpio/webos_gpio.c: for every GPIO of the device
    tree the files /dev/gpio/<pin>/value and /dev/gpio/<pin>/direction.  The
    callbacks are a [devfs_file_ops] of Devfs.v, over the state of the driver,
    its open handles and the GPIO controller ([GpioHw]). *)

From S2P Require Import Prelude CLib Devfs DevfsPart.
From Stdlib Require Import ZArith Lia.
From Stdlib Require Import Strings.Byte.
From stdpp Require Import base numbers list list_numbers strings countable gmap.

Inductive gpio_flags := GPIO_INPUT | GPIO_OUTPUT.

#[global] Instance gpio_flags_eq_dec : EqDecision gpio_flags.
Proof. solve_decision. Defined.

(** The GPIO controller and the heap. Pins are named by the index of their
    device in [webos_gpios]. *)
Class GpioHw := {
  ghw : Type;
  gpio_is_ready_dt : ghw -> nat -> bool;
  gpio_pin_configure_dt : ghw -> nat -> gpio_flags -> Z * ghw;
  gpio_pin_set_dt : ghw -> nat -> Z -> Z * ghw;
  gpio_malloc : ghw -> bool * ghw;
}.

Module Gpio.

Inductive webos_gpio_file_type := WEBOS_GPIO_VALUE | WEBOS_GPIO_DIRECTION.

#[global] Instance webos_gpio_file_type_eq_dec : EqDecision webos_gpio_file_type.
Proof. solve_decision. Defined.

Record webos_gpio_dev := Dev { pin : Z; value_state : Z; value_set : bool; dir_out : bool; dir_set : bool }.

(** The file a handle is open on: a device and one of its two files. *)
Record webos_gpio_open_file := OpenFile { def_dev : nat; def_type : webos_gpio_file_type; read_eof : bool }.

(** The device [GPIO_DT_SPEC_INST_GET] describes. *)
Definition WEBOS_GPIO_INIT (p : Z) : webos_gpio_dev := Dev p 0 false false false.

(** [&webos_gpios[i].value] and [&webos_gpios[i].direction] as [void*]. *)
Definition def_addr (i : nat) (t : webos_gpio_file_type) : Z :=
  (1 + 2 * Z.of_nat i + match t with WEBOS_GPIO_VALUE => 0 | WEBOS_GPIO_DIRECTION => 1 end)%Z.
Definition addr_def (a : Z) : nat * webos_gpio_file_type :=
  (Z.to_nat ((a - 1) / 2), if decide ((a - 1) mod 2 = 0)%Z then WEBOS_GPIO_VALUE else WEBOS_GPIO_DIRECTION).

Lemma addr_def_addr i t : addr_def (def_addr i t) = (i, t).
Proof.
  unfold addr_def, def_addr. destruct t.
  - replace (1 + 2 * Z.of_nat i + 0 - 1)%Z with (Z.of_nat i * 2)%Z by lia.
    rewrite Z.div_mul, Z.mod_mul, Nat2Z.id by lia. done.
  - replace (1 + 2 * Z.of_nat i + 1 - 1)%Z with (1 + Z.of_nat i * 2)%Z by lia.
    rewrite Z.div_add, Z.mod_add by lia.
    change (1 / 2)%Z with 0%Z. rewrite Z.add_0_l, Nat2Z.id. done.
Qed.

Section driver.
Context {H : GpioHw}.

(** The devices, the open files the heap holds, the hardware. *)
Record world := World { webos_gpios : list webos_gpio_dev; open_files : gmap positive webos_gpio_open_file; hw : ghw }.

Definition put_dev (i : nat) (d : webos_gpio_dev) (w : world) : world :=
  World (<[i := d]> (webos_gpios w)) (open_files w) (hw w).
Definition put_file (p : positive) (o : webos_gpio_open_file) (w : world) : world :=
  World (webos_gpios w) (<[p := o]> (open_files w)) (hw w).
Definition put_hw (h : ghw) (w : world) : world := World (webos_gpios w) (open_files w) h.

Definition get_dev (i : nat) (w : world) : webos_gpio_dev := default (WEBOS_GPIO_INIT 0) (webos_gpios w !! i).

(** [devfs_file_data]: the open file a handle's data points at. devfs passes
    the callbacks what [webos_gpio_open] stored; for any other data, which C
    would dereference, the operations below answer [-EFAULT]. *)
Definition open_file_at (data : Z) (w : world) : option (positive * webos_gpio_open_file) :=
  match data with
  | Z.pos p => pair p <$> open_files w !! p
  | _ => None
  end.

Definition webos_gpio_open (data user_data flags : Z) (w : world) : Z * Z * world :=
  let '(i, t) := addr_def user_data in
  if negb (gpio_is_ready_dt (hw w) i) then ((- ENODEV)%Z, data, w)
  else
    let '(ok, h) := gpio_malloc (hw w) in
    let w := put_hw h w in
    if ok : bool then
      let p := fresh (dom (open_files w)) in
      (0%Z, Z.pos p, put_file p (OpenFile i t false) w)
    else ((- ENOMEM)%Z, data, w).

(** The text a read returns. *)
Definition read_text (d : webos_gpio_dev) (t : webos_gpio_file_type) : list byte :=
  match t with
  | WEBOS_GPIO_VALUE => (if value_set d then int_text (value_state d) else cs "?") ++ [x0a]
  | WEBOS_GPIO_DIRECTION => (if dir_set d then if dir_out d then cs "out" else cs "in" else cs "?") ++ [x0a]
  end.

Definition webos_gpio_read (data : Z) (nbytes : nat) (w : world) : Z * list byte * Z * world :=
  match open_file_at data w with
  | None => ((- EFAULT)%Z, [], data, w)
  | Some (p, o) =>
      if decide (nbytes = 0) then ((- EIO)%Z, [], data, w)
      else if read_eof o then (0%Z, [], data, w)
      else
        let w := put_file p (OpenFile (def_dev o) (def_type o) true) w in
        let out := take nbytes (read_text (get_dev (def_dev o) w) (def_type o)) in
        (Z.of_nat (length out), out, data, w)
  end.

(** The value a write to the value file asks for. *)
Definition value_target (c : byte) : option Z :=
  if decide (c = "1"%byte \/ c = x01 \/ c = "o"%byte) then Some 1%Z
  else if decide (c = "0"%byte \/ c = x00) then Some 0%Z
  else None.

Definition write_value (i : nat) (c : byte) (nbytes : Z) (w : world) : Z * world :=
  match value_target c with
  | None => ((- EINVAL)%Z, w)
  | Some target =>
      let '(ret, h) := gpio_pin_configure_dt (hw w) i GPIO_OUTPUT in
      let w := put_hw h w in
      if decide (ret < 0)%Z then (ret, w)
      else
        let '(ret, h) := gpio_pin_set_dt (hw w) i target in
        let w := put_hw h w in
        if decide (ret < 0)%Z then (ret, w)
        else
          let d := get_dev i w in
          (nbytes, put_dev i (Dev (pin d) target true (dir_out d) (dir_set d)) w)
  end.

(** The direction a write to the direction file asks for. *)
Definition direction_target (buf : list byte) : option gpio_flags :=
  let s := c_string buf in
  if decide (strncmp s (cs "out") 3 = Eq \/ char_at buf 0 = x01) then Some GPIO_OUTPUT
  else if decide (strncmp s (cs "in") 2 = Eq \/ char_at buf 0 = x00) then Some GPIO_INPUT
  else None.

Definition write_direction (i : nat) (buf : list byte) (nbytes : Z) (w : world) : Z * world :=
  match direction_target buf with
  | None => ((- EINVAL)%Z, w)
  | Some fl =>
      let '(ret, h) := gpio_pin_configure_dt (hw w) i fl in
      let w := put_hw h w in
      let d := get_dev i w in
      let d := Dev (pin d) (value_state d) (value_set d) (bool_decide (fl = GPIO_OUTPUT)) (dir_set d) in
      let w := put_dev i d w in
      if decide (ret < 0)%Z then (ret, w)
      else (nbytes, put_dev i (Dev (pin d) (value_state d) (value_set d) (dir_out d) true) w)
  end.

Definition webos_gpio_write (data : Z) (src : list byte) (w : world) : Z * Z * world :=
  match open_file_at data w with
  | None => ((- EFAULT)%Z, data, w)
  | Some (p, o) =>
      let nbytes := Z.of_nat (length src) in
      if decide (src = []) then ((- EIO)%Z, data, w)
      else
        let buf := take 15 src ++ [NUL] in
        let '(ret, w) :=
          if decide (def_type o = WEBOS_GPIO_VALUE) then write_value (def_dev o) (char_at buf 0) nbytes w
          else write_direction (def_dev o) buf nbytes w in
        (ret, data, w)
  end.

(** [k_free(NULL)] does nothing. *)
Definition webos_gpio_close (data : Z) (w : world) : Z * Z * world :=
  (0%Z, 0%Z, match data with
             | Z.pos p => World (webos_gpios w) (delete p (open_files w)) (hw w)
             | _ => w
             end).

Definition webos_gpio_ops : devfs_file_ops world :=
  FileOps (Some webos_gpio_open) (Some webos_gpio_read) (Some webos_gpio_write) (Some webos_gpio_close).

(** ** Registration *)

Context {cfg : DevfsConfig} {W : Type} {P : Part W world}.

Definition value_path (p : Z) : cstr := take (WEBOS_DEVFS_MAX_PATH_LEN - 1) (cs "/gpio/" ++ dec_text p ++ cs "/value").
Definition direction_path (p : Z) : cstr :=
  take (WEBOS_DEVFS_MAX_PATH_LEN - 1) (cs "/gpio/" ++ dec_text p ++ cs "/direction").

(** The tree is that of all drivers, whose state has that of this one as a part. *)

(** The loop over the devices from the [i]th on; [allocs k] are the outcomes
    of the allocations of the [k]th registration. *)
Fixpoint register_loop (allocs : nat -> nat -> bool) (i : nat) (devs : list webos_gpio_dev)
    (h : gmap loc (devfs_node W)) : Z * gmap loc (devfs_node W) :=
  match devs with
  | [] => (0%Z, h)
  | d :: devs' =>
      let '(ret, h) := Tree.devfs_register_file (allocs (2 * i)) h (Some (value_path (pin d)))
                         (Some (lift_ops webos_gpio_ops)) (def_addr i WEBOS_GPIO_VALUE) in
      if decide (ret <> 0%Z) then (ret, h)
      else
        let '(ret, h) := Tree.devfs_register_file (allocs (2 * i + 1)) h (Some (direction_path (pin d)))
                           (Some (lift_ops webos_gpio_ops)) (def_addr i WEBOS_GPIO_DIRECTION) in
        if decide (ret <> 0%Z) then (ret, h) else register_loop allocs (S i) devs' h
  end.

Definition webos_gpio_register_devfs (allocs : nat -> nat -> bool) (devs : list webos_gpio_dev)
    (h : gmap loc (devfs_node W)) : Z * gmap loc (devfs_node W) :=
  register_loop allocs 0 devs h.
End driver.
End Gpio.
