(* ===== verification/GpioSpec.v ===== *)
(** * What the GPIO files do

    A write through a fresh handle followed by a read through another one
    ([echo] and [cat]) returns what was written, changes no other file and
    leaves no open file behind.  Two corners of the driver are stated as they
    are: a direction write that fails is still reported, and the text [off]
    turns a pin on. *)

From S2P Require Import Prelude CLib Devfs Gpio.
From Stdlib Require Import ZArith Lia.
From Stdlib Require Import Strings.Byte.
From stdpp Require Import base numbers list list_numbers strings countable gmap.

Module GpioSpec.
Import Gpio.

Section spec.
Context {H : GpioHw}.

(** [echo src > file]: open, one write, close; [None] when the open fails. *)
Definition echo (user_data : Z) (src : list byte) (w : world) : option (Z * world) :=
  let '(ret, data, w) := webos_gpio_open 0 user_data 0 w in
  if decide (ret <> 0%Z) then None
  else
    let '(n, data, w) := webos_gpio_write data src w in
    let '(_, _, w) := webos_gpio_close data w in
    Some (n, w).

(** [cat file] with a buffer of [nbytes]: open, read until 0, close. *)
Definition cat (user_data : Z) (nbytes : nat) (w : world) : option (list byte * Z * world) :=
  let '(ret, data, w) := webos_gpio_open 0 user_data 0 w in
  if decide (ret <> 0%Z) then None
  else
    let '(_, out, data, w) := webos_gpio_read data nbytes w in
    let '(eof, _, data, w) := webos_gpio_read data nbytes w in
    let '(_, _, w) := webos_gpio_close data w in
    Some (out, eof, w).

(** What a successful write makes a file read. *)
Definition written_text (t : webos_gpio_file_type) (src : list byte) : list byte :=
  let buf := take 15 src ++ [NUL] in
  match t with
  | WEBOS_GPIO_VALUE => match value_target (char_at buf 0) with Some v => int_text v ++ [x0a] | None => [] end
  | WEBOS_GPIO_DIRECTION =>
      match direction_target buf with
      | Some GPIO_OUTPUT => cs "out" ++ [x0a]
      | Some GPIO_INPUT => cs "in" ++ [x0a]
      | None => []
      end
  end.

(** Opening succeeds with a fresh open file on the device file named. *)
Lemma open_spec i t w data w1 :
  webos_gpio_open 0 (def_addr i t) 0 w = (0%Z, data, w1) ->
  exists p, data = Z.pos p /\ open_files w !! p = None
            /\ open_files w1 = <[p := OpenFile i t false]> (open_files w) /\ webos_gpios w1 = webos_gpios w.
Proof.
  unfold webos_gpio_open. rewrite addr_def_addr.
  destruct (gpio_is_ready_dt (hw w) i); [|by intros [=]]. simpl.
  destruct (gpio_malloc (hw w)) as [[] h]; [|by intros [=]]. intros [= <- <-].
  exists (fresh (dom (open_files w))). split_and!; [done| |done|done].
  apply not_elem_of_dom. apply is_fresh.
Qed.

(** A write keeps the open files; it changes one device, or none on failure. *)
Lemma write_value_spec i c n w ret w1 :
  write_value i c n w = (ret, w1) -> (0 <= n)%Z ->
  open_files w1 = open_files w
  /\ (((ret < 0)%Z /\ webos_gpios w1 = webos_gpios w)
      \/ (ret = n /\ exists v, value_target c = Some v
          /\ webos_gpios w1 = <[i := Dev (pin (get_dev i w)) v true (dir_out (get_dev i w)) (dir_set (get_dev i w))]>
                                (webos_gpios w))).
Proof.
  unfold write_value. intros E Hn. destruct (value_target c) as [v|]; [|injection E as <- <-; unfold EINVAL; split; [done|left; split; [lia|done]]].
  destruct (gpio_pin_configure_dt _ _ _) as [r1 h1]. case_decide; [simplify_eq; auto|].
  destruct (gpio_pin_set_dt _ _ _) as [r2 h2]. case_decide; [simplify_eq; auto|].
  simplify_eq. split; [done|]. right. split; [done|]. by exists v.
Qed.

Lemma write_direction_spec i buf n w ret w1 :
  write_direction i buf n w = (ret, w1) -> i < length (webos_gpios w) -> (0 <= ret)%Z -> (0 <= n)%Z ->
  open_files w1 = open_files w /\ ret = n
  /\ exists fl, direction_target buf = Some fl
      /\ webos_gpios w1 = <[i := Dev (pin (get_dev i w)) (value_state (get_dev i w)) (value_set (get_dev i w))
                                   (bool_decide (fl = GPIO_OUTPUT)) true]> (webos_gpios w).
Proof.
  unfold write_direction. intros E Hi Hr Hn. destruct (direction_target buf) as [fl|]; [|simplify_eq; unfold EINVAL in *; lia].
  destruct (gpio_pin_configure_dt _ _ _) as [r1 h1]. case_decide; [simplify_eq; lia|].
  simplify_eq. simpl. rewrite list_insert_insert_eq. split_and!; [done|done|]. by exists fl.
Qed.

(** Reading a fresh handle yields the text of the file, then the end. *)
Lemma cat_spec j t n w out eof w1 :
  cat (def_addr j t) n w = Some (out, eof, w1) -> n <> 0 ->
  out = take n (read_text (get_dev j w) t) /\ eof = 0%Z
  /\ webos_gpios w1 = webos_gpios w /\ open_files w1 = open_files w.
Proof.
  unfold cat. destruct (webos_gpio_open 0 (def_addr j t) 0 w) as [[ret data] wo] eqn:Eo.
  case_decide as Hr; [done|]. assert (ret = 0%Z) as -> by lia.
  apply open_spec in Eo as (p & -> & Hfree & Hfiles & Hdevs). intros E Hn.
  unfold webos_gpio_read in E. unfold open_file_at in E. rewrite Hfiles, lookup_insert_eq in E. simpl in E.
  rewrite decide_False in E by done. simpl in E. rewrite Hfiles, insert_insert_eq, lookup_insert_eq in E. simpl in E.
  rewrite decide_False in E by done. simplify_eq. simpl. unfold get_dev. simpl. rewrite Hdevs.
  split_and!; try done. rewrite Hfiles, insert_insert_eq. by rewrite delete_insert_id.
Qed.

(** What is written to a GPIO file is what a later read of it returns, in
    full and once; every other file of every GPIO reads as before, the number
    of bytes reported is the number written, and no open file is left. *)
Theorem gpio_write_read_back i t src n w w1 j u nbytes out eof w2 :
  i < length (webos_gpios w) -> j < length (webos_gpios w) -> nbytes <> 0 ->
  echo (def_addr i t) src w = Some (n, w1) -> (0 <= n)%Z ->
  cat (def_addr j u) nbytes w1 = Some (out, eof, w2) ->
  n = Z.of_nat (length src) /\ eof = 0%Z /\ open_files w2 = open_files w
  /\ out = take nbytes (if decide ((i, t) = (j, u)) then written_text t src else read_text (get_dev j w) u).
Proof.
  intros Hi Hj Hnb He Hn Hc. apply cat_spec in Hc as (-> & -> & _ & Hof); [|done]. rewrite Hof.
  unfold echo in He. destruct (webos_gpio_open 0 (def_addr i t) 0 w) as [[ret data] wo] eqn:Eo.
  case_decide as Hr; [done|]. assert (ret = 0%Z) as -> by lia.
  apply open_spec in Eo as (p & -> & Hfree & Hfiles & Hdevs).
  unfold webos_gpio_write, open_file_at in He. rewrite Hfiles, lookup_insert_eq in He. simpl in He.
  case_decide as Hsrc; [simplify_eq; unfold EIO in Hn; lia|].
  set (buf := take 15 src ++ [NUL]) in *.
  assert (forall d, webos_gpios w1 = <[i := d]> (webos_gpios w) -> get_dev j w1 = if decide (i = j) then d else get_dev j w)
    as Hget.
  { intros d E. unfold get_dev. rewrite E. destruct (decide (i = j)) as [<-|]; [by rewrite list_lookup_insert_eq|].
    by rewrite list_lookup_insert_ne. }
  assert (get_dev i wo = get_dev i w) as Hgi by (unfold get_dev; by rewrite Hdevs).
  destruct t; [rewrite decide_True in He by done|rewrite decide_False in He by done].
  - destruct (write_value i (char_at buf 0) _ wo) as [ret1 w'] eqn:Ew. simplify_eq.
    apply write_value_spec in Ew as (Hf' & [[? _]|(-> & v & Hv & Hd)]); [lia| |lia].
    rewrite (Hget _ ltac:(simpl; by rewrite Hd, Hgi, Hdevs)).
    simpl. rewrite Hf', Hfiles, delete_insert_id by done. split_and!; [done|done|done|]. f_equal. unfold written_text. fold buf. rewrite Hv.
    destruct u, (decide (i = j)) as [<-|]; repeat case_decide; simplify_eq; done.
  - destruct (write_direction i buf _ wo) as [ret1 w'] eqn:Ew. simplify_eq.
    apply write_direction_spec in Ew as (Hf' & -> & fl & Hv & Hd); [|by rewrite Hdevs|done|lia].
    rewrite (Hget _ ltac:(simpl; by rewrite Hd, Hgi, Hdevs)).
    simpl. rewrite Hf', Hfiles, delete_insert_id by done. split_and!; [done|done|done|]. f_equal. unfold written_text. fold buf. rewrite Hv.
    destruct u, (decide (i = j)) as [<-|], fl; repeat case_decide; simplify_eq; done.
Qed.

(** A direction write that fails is reported all the same: when the
    controller refuses the configuration the write returns the error, yet the
    file reads back the direction that was not set. *)
Theorem gpio_failed_direction_reported i src n w w1 nbytes out eof w2 :
  i < length (webos_gpios w) -> nbytes <> 0 -> dir_set (get_dev i w) = true ->
  direction_target (take 15 src ++ [NUL]) <> None -> src <> [] ->
  echo (def_addr i WEBOS_GPIO_DIRECTION) src w = Some (n, w1) -> (n < 0)%Z ->
  cat (def_addr i WEBOS_GPIO_DIRECTION) nbytes w1 = Some (out, eof, w2) ->
  out = take nbytes (written_text WEBOS_GPIO_DIRECTION src).
Proof.
  intros Hi Hnb Hset Ht Hsrc He Hn Hc. apply cat_spec in Hc as (-> & _ & _ & _); [|done].
  unfold echo in He.
  destruct (webos_gpio_open 0 (def_addr i WEBOS_GPIO_DIRECTION) 0 w) as [[ret data] wo] eqn:Eo.
  case_decide as Hr; [done|]. assert (ret = 0%Z) as -> by lia.
  apply open_spec in Eo as (p & -> & Hfree & Hfiles & Hdevs).
  unfold webos_gpio_write, open_file_at in He. rewrite Hfiles, lookup_insert_eq in He. simpl in He.
  rewrite decide_False in He by done. unfold write_direction in He.
  unfold written_text. destruct (direction_target (take 15 src ++ [NUL])) as [fl|]; [|done].
  destruct (gpio_pin_configure_dt _ _ _) as [r1 h1]. case_decide; [|simplify_eq; lia].
  simplify_eq. unfold get_dev. simpl. rewrite Hdevs, list_lookup_insert_eq by done. simpl.
  unfold get_dev in Hset |- *. simpl. rewrite Hset. f_equal. by destruct fl.
Qed.
End spec.

(** ** A concrete controller

    Two pins; the flag says whether configurations succeed. The driver starts
    with both pins set up as inputs. *)
#[local] Instance demo_hw : GpioHw := {|
  ghw := bool * list (nat * Z);
  gpio_is_ready_dt _ _ := true;
  gpio_pin_configure_dt h i _ := (if h.1 then 0%Z else (- EIO)%Z, h);
  gpio_pin_set_dt h i v := (0%Z, (h.1, h.2 ++ [(i, v)]));
  gpio_malloc h := (true, h);
|}.

Definition demo_world (ok : bool) : world :=
  World [Dev 4 0 false false true; Dev 18 1 true false true] ∅ (ok, []).

Definition echo_cat (ok : bool) (i : nat) (t : webos_gpio_file_type) (src : list byte) (j : nat)
    (u : webos_gpio_file_type) : option (Z * list byte * list (nat * Z)) :=
  '(n, w) ← echo (def_addr i t) src (demo_world ok);
  '(out, _, w) ← cat (def_addr j u) 16 w;
  Some (n, out, (hw w).2).

Example demo_echo_value :
  echo_cat true 0 WEBOS_GPIO_VALUE (cs "1") 0 WEBOS_GPIO_VALUE = Some (1%Z, cs "1" ++ [x0a], [(0, 1%Z)]).
Proof. vm_compute. reflexivity. Qed.

(** Any text that starts with [o] sets the pin: [off] turns it on. *)
Example demo_echo_off :
  echo_cat true 0 WEBOS_GPIO_VALUE (cs "off") 0 WEBOS_GPIO_VALUE = Some (3%Z, cs "1" ++ [x0a], [(0, 1%Z)]).
Proof. vm_compute. reflexivity. Qed.

Lemma gpio_write_read_back_witness :
  exists w1 w2, echo (def_addr 0 WEBOS_GPIO_VALUE) (cs "1") (demo_world true) = Some (1%Z, w1)
  /\ cat (def_addr 1 WEBOS_GPIO_VALUE) 16 w1 = Some (cs "1" ++ [x0a], 0%Z, w2)
  /\ (1%Z = Z.of_nat (length (cs "1")) /\ 0%Z = 0%Z /\ open_files w2 = open_files (demo_world true)
      /\ cs "1" ++ [x0a] =
         take 16 (if decide ((0, WEBOS_GPIO_VALUE) = (1, WEBOS_GPIO_VALUE)) then written_text WEBOS_GPIO_VALUE (cs "1")
                  else read_text (get_dev 1 (demo_world true)) WEBOS_GPIO_VALUE)).
Proof.
  eexists _, _. split; [vm_compute; reflexivity|]. split; [vm_compute; reflexivity|].
  eapply (gpio_write_read_back 0 WEBOS_GPIO_VALUE (cs "1") 1 (demo_world true) _ 1 WEBOS_GPIO_VALUE 16);
    [apply Nat.ltb_lt; reflexivity|apply Nat.ltb_lt; reflexivity|done|vm_compute; reflexivity|done|vm_compute; reflexivity].
Defined.

Lemma gpio_failed_direction_reported_witness :
  exists w1 w2, echo (def_addr 1 WEBOS_GPIO_DIRECTION) (cs "out") (demo_world false) = Some ((- EIO)%Z, w1)
  /\ cat (def_addr 1 WEBOS_GPIO_DIRECTION) 16 w1 = Some (cs "out" ++ [x0a], 0%Z, w2)
  /\ cs "out" ++ [x0a] = take 16 (written_text WEBOS_GPIO_DIRECTION (cs "out")).
Proof.
  eexists _, _. split; [vm_compute; reflexivity|]. split; [vm_compute; reflexivity|].
  eapply (gpio_failed_direction_reported 1 (cs "out") (- EIO)%Z (demo_world false));
    [apply Nat.ltb_lt; reflexivity|done|reflexivity|vm_compute; congruence|done|vm_compute; reflexivity|done|vm_compute; reflexivity].
Defined.
End GpioSpec.
