(* ===== verification/RgbLed.v ===== *)
(** * The RGB LED device files

    Model of src/drivers/webos_rgbled/webos_rgbled.c: for every LED strip of
    the device tree the file /dev/led/<pin>/color, written as a colour in one
    of several notations and read as three decimal numbers. *)

From S2P Require Import Prelude CLib Devfs DevfsPart.
From Stdlib Require Import ZArith Lia.
From Stdlib Require Import Strings.Byte.
From stdpp Require Import base numbers list list_numbers strings countable gmap.

Record led_rgb := Rgb { r : Z; g : Z; b : Z }.

#[global] Instance led_rgb_eq_dec : EqDecision led_rgb.
Proof. solve_decision. Defined.

(** The LED strips and the heap. Strips are named by the index of their device
    in [webos_rgbleds]. *)
Class LedHw := {
  lhw : Type;
  RGBLED_MAX_PIXELS : nat;
  led_is_ready : lhw -> nat -> bool;
  led_strip_update_rgb : lhw -> nat -> list led_rgb -> Z * lhw;
  led_malloc : lhw -> bool * lhw;
}.

Module RgbLed.

(** ** Colours as text *)

(** A store of three numbers to the [uint8_t] components. *)
Definition color8 (x y z : Z) : led_rgb := Rgb (x mod 256) (y mod 256) (z mod 256).

Definition EINVAL_color : Z + led_rgb := inl (- EINVAL)%Z.

(** [hex_nibble]; [tolower] of an ASCII letter. *)
Definition hex_nibble (c : byte) : Z :=
  let v := bval c in
  if decide (48 <= v <= 57)%Z then (v - 48)%Z
  else
    let v := if decide (65 <= v <= 90)%Z then (v + 32)%Z else v in
    if decide (97 <= v <= 102)%Z then (v - 97 + 10)%Z
    else (- EINVAL)%Z.

Definition isxdigit (c : byte) : bool :=
  bool_decide (48 <= bval c <= 57 \/ 65 <= bval c <= 70 \/ 97 <= bval c <= 102)%Z.

(** The loop over the six nibbles; [None] when one is not a digit. *)
Fixpoint hex_nibbles (n : nat) (buf : cstr) (i : nat) : option (list Z) :=
  match n with
  | O => Some []
  | S n' =>
      let v := hex_nibble (char_at buf i) in
      if decide (v < 0)%Z then None else (cons v) <$> hex_nibbles n' buf (i + 1)
  end.

Definition of_nibbles (hi lo : Z) : Z := Z.lor (Z.shiftl hi 4) lo.

Definition parse_hex_color (buf : cstr) : Z + led_rgb :=
  let buf := if decide (char_at buf 0 = "#"%byte) then drop 1 buf else buf in
  match hex_nibbles 6 buf 0 with
  | Some [a; b; c; d; e; f] =>
      if isxdigit (char_at buf 6) then EINVAL_color
      else inr (color8 (of_nibbles a b) (of_nibbles c d) (of_nibbles e f))
  | _ => EINVAL_color
  end.

(** [strtok_r] with the delimiters comma and space: the token and the text
    after it. *)
Definition is_delim (c : byte) : bool := bool_decide (c = ","%byte \/ c = " "%byte).

Fixpoint skip_delims (s : cstr) : cstr :=
  match s with
  | c :: s' => if is_delim c then skip_delims s' else s
  | [] => []
  end.

Fixpoint split_token (s : cstr) : cstr * cstr :=
  match s with
  | [] => ([], [])
  | c :: s' => if is_delim c then ([], s') else let '(t, rest) := split_token s' in (c :: t, rest)
  end.

Definition strtok (s : cstr) : option (cstr * cstr) :=
  match skip_delims s with
  | [] => None
  | s' => Some (split_token s')
  end.

(** The loop over the [n] values: the values and the text after them. *)
Fixpoint rgb_values (n : nat) (s : cstr) : option (list Z * cstr) :=
  match n with
  | O => Some ([], s)
  | S n' =>
      match strtok s with
      | None => None
      | Some (token, rest) =>
          let v := strtol10 token in
          if decide (v < 0 \/ 255 < v)%Z then None
          else '(l, rest) ← rgb_values n' rest; Some (v :: l, rest)
      end
  end.

Definition parse_rgb_color (buf : cstr) : Z + led_rgb :=
  match rgb_values 3 buf with
  | Some ([x; y; z], rest) =>
      match strtok rest with
      | Some _ => EINVAL_color
      | None => inr (color8 x y z)
      end
  | _ => EINVAL_color
  end.

(** The first loop of [parse_color]. *)
Definition trim_end (s : cstr) : cstr := reverse (skip_spaces (reverse s)).

Definition parse_color (buf : cstr) : Z + led_rgb :=
  let buf := skip_spaces (trim_end buf) in
  if decide (strcmp buf (cs "off") = Eq \/ strcmp buf (cs "clear") = Eq \/ strcmp buf (cs "0") = Eq) then inr (color8 0 0 0)
  else if decide (strcmp buf (cs "red") = Eq) then inr (color8 255 0 0)
  else if decide (strcmp buf (cs "green") = Eq) then inr (color8 0 255 0)
  else if decide (strcmp buf (cs "blue") = Eq) then inr (color8 0 0 255)
  else if decide (strcmp buf (cs "white") = Eq) then inr (color8 255 255 255)
  else if decide (char_at buf 0 = "#"%byte \/ length buf = 6) then parse_hex_color buf
  else parse_rgb_color buf.

(** ** The driver *)

Record webos_rgbled_dev := Led { webos_pin : Z; chain_length : nat; color : led_rgb }.
Record webos_rgbled_open_file := OpenFile { led : nat; read_eof : bool }.

(** [&webos_rgbleds[i]] as [void*]. *)
Definition led_addr (i : nat) : Z := (1 + Z.of_nat i)%Z.
Definition addr_led (a : Z) : nat := Z.to_nat (a - 1).

Section driver.
Context {H : LedHw}.

Record world := World { webos_rgbleds : list webos_rgbled_dev; open_files : gmap positive webos_rgbled_open_file; hw : lhw }.

Definition put_color (i : nat) (c : led_rgb) (w : world) : world :=
  World (alter (fun d => Led (webos_pin d) (chain_length d) c) i (webos_rgbleds w)) (open_files w) (hw w).
Definition put_file (p : positive) (o : webos_rgbled_open_file) (w : world) : world :=
  World (webos_rgbleds w) (<[p := o]> (open_files w)) (hw w).
Definition put_hw (h : lhw) (w : world) : world := World (webos_rgbleds w) (open_files w) h.

Definition get_led (i : nat) (w : world) : webos_rgbled_dev := default (Led 0 0 (Rgb 0 0 0)) (webos_rgbleds w !! i).

Definition webos_rgbled_show (i : nat) (w : world) : Z * world :=
  let d := get_led i w in
  let count := chain_length d `min` RGBLED_MAX_PIXELS in
  let '(ret, h) := led_strip_update_rgb (hw w) i (replicate count (color d)) in
  let w := put_hw h w in
  if decide (ret < 0)%Z then (ret, w) else (0%Z, w).

Definition open_file_at (data : Z) (w : world) : option (positive * webos_rgbled_open_file) :=
  match data with
  | Z.pos p => pair p <$> open_files w !! p
  | _ => None
  end.

Definition webos_rgbled_open (data user_data flags : Z) (w : world) : Z * Z * world :=
  let i := addr_led user_data in
  if negb (led_is_ready (hw w) i) then ((- ENODEV)%Z, data, w)
  else
    let '(ok, h) := led_malloc (hw w) in
    let w := put_hw h w in
    if ok : bool then
      let p := fresh (dom (open_files w)) in
      (0%Z, Z.pos p, put_file p (OpenFile i false) w)
    else ((- ENOMEM)%Z, data, w).

(** [%u,%u,%u] and a newline. *)
Definition color_text (c : led_rgb) : list byte :=
  dec_text (r c) ++ [","%byte] ++ dec_text (g c) ++ [","%byte] ++ dec_text (b c) ++ [x0a].

(** As for the GPIO files, data devfs never passes answers [-EFAULT]. *)
Definition webos_rgbled_read (data : Z) (nbytes : nat) (w : world) : Z * list byte * Z * world :=
  match open_file_at data w with
  | None => ((- EFAULT)%Z, [], data, w)
  | Some (p, o) =>
      if decide (nbytes = 0) then ((- EIO)%Z, [], data, w)
      else if read_eof o then (0%Z, [], data, w)
      else
        let w := put_file p (OpenFile (led o) true) w in
        let out := take nbytes (color_text (color (get_led (led o) w))) in
        (Z.of_nat (length out), out, data, w)
  end.

(** The colour a write asks for: one zero byte, three raw bytes, or text. *)
Definition requested_color (src : list byte) : Z + led_rgb :=
  if decide (length src = 1 /\ char_at src 0 = x00) then inr (color8 0 0 0)
  else if decide (length src = 3 /\ src <> cs "red" /\ src <> cs "off") then
    inr (color8 (bval (char_at src 0)) (bval (char_at src 1)) (bval (char_at src 2)))
  else parse_color (c_string (take 31 src)).

Definition webos_rgbled_write (data : Z) (src : list byte) (w : world) : Z * Z * world :=
  match open_file_at data w with
  | None => ((- EFAULT)%Z, data, w)
  | Some (p, o) =>
      if decide (src = []) then ((- EIO)%Z, data, w)
      else
        match requested_color src with
        | inl ret => (ret, data, w)
        | inr c =>
            let '(ret, w) := webos_rgbled_show (led o) (put_color (led o) c w) in
            (if decide (ret < 0)%Z then ret else Z.of_nat (length src), data, w)
        end
  end.

Definition webos_rgbled_close (data : Z) (w : world) : Z * Z * world :=
  (0%Z, 0%Z, match data with
             | Z.pos p => World (webos_rgbleds w) (delete p (open_files w)) (hw w)
             | _ => w
             end).

Definition webos_rgbled_ops : devfs_file_ops world :=
  FileOps (Some webos_rgbled_open) (Some webos_rgbled_read) (Some webos_rgbled_write) (Some webos_rgbled_close).

(** ** Registration *)

Context {cfg : DevfsConfig} {W : Type} {P : Part W world}.

Definition led_path (p : Z) : cstr := take (WEBOS_DEVFS_MAX_PATH_LEN - 1) (cs "/led/" ++ dec_text p ++ cs "/color").

(** As for GPIO, the tree is that of all drivers. *)

Fixpoint register_loop (allocs : nat -> nat -> bool) (i : nat) (devs : list webos_rgbled_dev)
    (h : gmap loc (devfs_node W)) (w : W) : Z * gmap loc (devfs_node W) * W :=
  match devs with
  | [] => (0%Z, h, w)
  | d :: devs' =>
      let '(ret, h) := Tree.devfs_register_file (allocs i) h (Some (led_path (webos_pin d)))
                         (Some (lift_ops webos_rgbled_ops)) (led_addr i) in
      if decide (ret <> 0%Z) then (ret, h, w)
      else
        let '(ret, w) := on_part (webos_rgbled_show i) w in
        if decide (ret <> 0%Z) then (ret, h, w) else register_loop allocs (S i) devs' h w
  end.

Definition webos_rgbled_register_devfs (allocs : nat -> nat -> bool)
    (h : gmap loc (devfs_node W)) (w : W) : Z * gmap loc (devfs_node W) * W :=
  register_loop allocs 0 (webos_rgbleds (part w)) h w.
End driver.
End RgbLed.
