(* ===== verification/RgbLedSpec.v ===== *)
(** * What the LED files do

    The hexadecimal notation and the decimal one round-trip - except that a
    decimal triple of six characters is taken for a hexadecimal one and refused,
    so what a read returns cannot always be written back.  LedColors.v says
    exactly which colour a text asks for. *)

From S2P Require Import Prelude CLib Devfs RgbLed.
From Stdlib Require Import ZArith Lia.
From Stdlib Require Import Strings.Byte.
From stdpp Require Import base numbers list list_numbers strings countable gmap.

Module RgbLedSpec.
Import RgbLed.

(** A colour whose components are [uint8_t]. *)
Definition color_ok (c : led_rgb) : Prop := (0 <= r c <= 255 /\ 0 <= g c <= 255 /\ 0 <= b c <= 255)%Z.

Lemma color8_ok x y z : color_ok (Rgb x y z) -> color8 x y z = Rgb x y z.
Proof. intros (Hx & Hy & Hz). cbn in *. unfold color8. by rewrite !Z.mod_small by lia. Qed.

Section driver.
Context {H : LedHw}.

Lemma show_leds i w : webos_rgbleds (webos_rgbled_show i w).2 = webos_rgbleds w.
Proof. unfold webos_rgbled_show. destruct (led_strip_update_rgb _ _ _). by case_decide. Qed.
End driver.

(** ** Hexadecimal notation *)

Lemma hex_nibble_digit n : (0 <= n < 16)%Z -> hex_nibble (hex_digit n) = n.
Proof.
  intros Hn.
  assert (Forall (fun i => hex_nibble (hex_digit i) = i) (Z.of_nat <$> seq 0 16)) as Hall.
  { repeat constructor; done. }
  rewrite Forall_forall in Hall. apply Hall, list_elem_of_fmap.
  exists (Z.to_nat n). split; [lia|]. apply elem_of_seq. lia.
Qed.

(** Six hexadecimal digits, two per component. *)
Definition hex_color (c : led_rgb) : cstr := hex_text 2 (r c) ++ hex_text 2 (g c) ++ hex_text 2 (b c).

Lemma of_its_nibbles v : (0 <= v <= 255)%Z -> of_nibbles (v / 16 mod 16) (v mod 16) = v.
Proof.
  intros Hv. unfold of_nibbles. rewrite Z.lor_comm.
  rewrite lor_shiftl_add by first [lia | apply Z.mod_pos_bound; lia].
  rewrite (Z.mod_small (v / 16)) by (split; [apply Z.div_pos|apply Z.div_lt_upper_bound]; lia).
  pose proof (Z.div_mod v 16). lia.
Qed.

Lemma hex_color_chars c : color_ok c ->
  hex_color c = [hex_digit (r c / 16 mod 16); hex_digit (r c mod 16); hex_digit (g c / 16 mod 16);
                 hex_digit (g c mod 16); hex_digit (b c / 16 mod 16); hex_digit (b c mod 16)].
Proof. done. Qed.

Lemma nibble_of_digit v : hex_nibble (hex_digit (v mod 16)) = (v mod 16)%Z.
Proof. apply hex_nibble_digit, Z.mod_pos_bound. lia. Qed.

Lemma parse_hex_color_hex pre c :
  color_ok c -> pre = [] \/ pre = cs "#" -> parse_hex_color (pre ++ hex_color c) = inr c.
Proof.
  intros Hc Hpre. unfold parse_hex_color.
  assert ((if decide (char_at (pre ++ hex_color c) 0 = "#"%byte) then drop 1 (pre ++ hex_color c) else pre ++ hex_color c)
          = hex_color c) as ->.
  { destruct Hpre as [->| ->]; [|done]. rewrite decide_False; [done|].
    rewrite hex_color_chars by done. cbn. intros E.
    pose proof (Z.mod_pos_bound (r c / 16) 16 ltac:(lia)) as Hr.
    pose proof (hex_nibble_digit _ Hr) as Hd. rewrite E in Hd.
    assert (hex_nibble "#"%byte = -22)%Z as Hh by reflexivity. lia. }
  rewrite hex_color_chars by done. cbn [hex_nibbles]. unfold char_at. cbn [lookup list_lookup Nat.add default from_option id].
  rewrite !nibble_of_digit.
  pose proof (fun v => Z.mod_pos_bound v 16 ltac:(lia)) as Hm.
  assert (forall v, ~ (v mod 16 < 0)%Z) as Hnn by (intros v; specialize (Hm v); lia).
  repeat (rewrite decide_False by apply Hnn). cbn. pose proof Hc as (Hr & Hg & Hb).
  rewrite !of_its_nibbles by done. rewrite color8_ok; by destruct c.
Qed.

(** ** Text around a colour *)

(** Characters that are neither white space nor NUL. *)
Definition solid (s : cstr) : Prop := Forall (fun x => isspace x = false /\ x <> NUL) s.

Lemma solid_no_nul s : solid s -> NUL ∉ s.
Proof. intros Hs Hn. unfold solid in Hs. rewrite Forall_forall in Hs. by apply Hs in Hn as [_ ?]. Qed.

Lemma solid_nonspace s : solid s -> Forall (fun x => isspace x = false) s.
Proof. intros Hs. eapply Forall_impl; [exact Hs|]. by intros x [? _]. Qed.

Lemma trim_solid s ws :
  solid s -> s <> [] -> Forall (fun x => isspace x = true) ws -> skip_spaces (trim_end (s ++ ws)) = s.
Proof.
  intros Hs Hn Hws. apply solid_nonspace in Hs.
  assert (forall l, l <> [] -> Forall (fun x => isspace x = false) l -> skip_spaces l = l) as Hskip.
  { intros [|x l] Hl Hf; [done|]. apply Forall_cons in Hf as [Hx _]. by rewrite skip_spaces_head. }
  unfold trim_end. rewrite reverse_app, skip_spaces_app by (by apply Forall_reverse).
  rewrite (Hskip (reverse s)).
  - rewrite reverse_involutive. by apply Hskip.
  - intros E. apply Hn. rewrite <- (reverse_involutive s), E. done.
  - by apply Forall_reverse.
Qed.

(** A line of text that is not taken for raw bytes. *)
Lemma requested_text s :
  solid s -> s <> [] -> 3 < length (s ++ [x0a]) <= 31 -> requested_color (s ++ [x0a]) = parse_color (s ++ [x0a]).
Proof.
  intros Hs Hn Hl. unfold requested_color. rewrite !decide_False by lia.
  rewrite take_ge by lia. rewrite c_string_id; [done|].
  rewrite not_elem_of_app. split; [by apply solid_no_nul|]. rewrite list_elem_of_singleton. done.
Qed.

(** The words that name colours. *)
Definition words : list cstr := [cs "off"; cs "clear"; cs "0"; cs "red"; cs "green"; cs "blue"; cs "white"].

(** [parse_color] on a line that is not a word. *)
Lemma parse_color_number s :
  solid s -> s <> [] -> s ∉ words ->
  parse_color (s ++ [x0a]) =
    if decide (char_at s 0 = "#"%byte \/ length s = 6) then parse_hex_color s else parse_rgb_color s.
Proof.
  intros Hs Hn Hw. unfold parse_color. rewrite trim_solid; [|done|done|by repeat constructor].
  unfold words in Hw. rewrite !not_elem_of_cons in Hw. destruct Hw as (?&?&?&?&?&?&?&_).
  do 5 (rewrite decide_False by (rewrite !strcmp_eq; tauto)). done.
Qed.

Lemma hex_color_solid c : solid (hex_color c).
Proof.
  assert (forall n, (0 <= n < 16)%Z -> isspace (hex_digit n) = false /\ hex_digit n <> NUL) as Hd.
  { intros n Hn.
    assert (Forall (fun i => isspace (hex_digit i) = false /\ hex_digit i <> NUL) (Z.of_nat <$> seq 0 16)) as Hall.
    { repeat constructor; done. }
    rewrite Forall_forall in Hall. apply Hall, list_elem_of_fmap.
    exists (Z.to_nat n). split; [lia|]. apply elem_of_seq. lia. }
  unfold solid, hex_color. cbn [hex_text app]. repeat constructor; apply Hd, Z.mod_pos_bound; lia.
Qed.

Lemma length_hex_color c : length (hex_color c) = 6.
Proof. done. Qed.

(** A colour written as six hexadecimal digits, with or without a hash, is
    the colour that is set. *)
Theorem led_hex_round_trip pre c :
  color_ok c -> pre = [] \/ pre = cs "#" -> requested_color (pre ++ hex_color c ++ [x0a]) = inr c.
Proof.
  intros Hc Hpre. pose proof (hex_color_solid c) as Hsolid. pose proof (length_hex_color c) as Hlen.
  assert (solid (pre ++ hex_color c)) as Hs.
  { apply Forall_app. split; [|done]. destruct Hpre as [->| ->]; repeat constructor; done. }
  assert (6 <= length (pre ++ hex_color c) <= 7) as Hl.
  { rewrite length_app, Hlen. destruct Hpre as [->| ->]; simpl; lia. }
  rewrite app_assoc, requested_text; [|done|by intros E; rewrite E in Hl; simpl in Hl; lia|rewrite length_app; simpl; lia].
  rewrite parse_color_number; [|done|by intros E; rewrite E in Hl; simpl in Hl; lia|].
  2: { assert (Forall (fun w : cstr => length w <= 5) words) as Hw by (repeat constructor; simpl; lia).
       intros Hin. rewrite Forall_forall in Hw. apply Hw in Hin. lia. }
  rewrite decide_True; [by apply parse_hex_color_hex|].
  destruct Hpre as [->| ->]; [by right|by left].
Qed.

(** ** Decimal notation *)

Definition dec_color (c : led_rgb) : cstr := dec_text (r c) ++ ","%byte :: dec_text (g c) ++ ","%byte :: dec_text (b c).

Lemma color_text_dec c : color_text c = dec_color c ++ [x0a].
Proof. unfold color_text, dec_color. rewrite <- app_assoc. cbn [app]. by rewrite <- app_assoc. Qed.

Lemma length_dec_byte v : (0 <= v <= 255)%Z -> 1 <= length (dec_text v) <= 3.
Proof.
  intros Hv.
  assert (forallb (fun i => (1 <=? length (dec_text (Z.of_nat i))) && (length (dec_text (Z.of_nat i)) <=? 3)) (seq 0 256)
          = true) as Hall by (vm_compute; reflexivity).
  rewrite forallb_forall in Hall. specialize (Hall (Z.to_nat v)).
  rewrite Z2Nat.id in Hall by lia. rewrite andb_true_iff, !Nat.leb_le in Hall. apply Hall, in_seq. lia.
Qed.

Definition is_dec (x : byte) : Prop := exists e, digit_value x = Some e /\ (e < 10)%Z.

Lemma dec_text_digits v : (0 <= v)%Z -> Forall is_dec (dec_text v).
Proof. intros Hv. rewrite Forall_forall. intros x Hx. by apply (dec_digits_are_digits 10 v). Qed.

Lemma is_dec_chars x : is_dec x -> isspace x = false /\ x <> NUL /\ is_delim x = false /\ (48 <= bval x <= 57)%Z.
Proof.
  intros (e & He & Hlt). destruct (digit_plain x e He Hlt) as (H1 & _ & _ & Hr).
  split_and!; [done| | |lia..].
  - intros ->. vm_compute in Hr. by destruct Hr.
  - apply bool_decide_eq_false. intros [->| ->]; vm_compute in Hr; by destruct Hr.
Qed.

Lemma dec_color_solid c : color_ok c -> solid (dec_color c).
Proof.
  intros (Hr & Hg & Hb).
  assert (forall v, (0 <= v)%Z -> solid (dec_text v)) as Hd.
  { intros v Hv. eapply Forall_impl; [by apply dec_text_digits|]. intros x Hx. by apply is_dec_chars in Hx as (?&?&_). }
  unfold dec_color. apply Forall_app. split; [apply Hd; lia|]. constructor; [done|].
  apply Forall_app. split; [apply Hd; lia|]. constructor; [done|apply Hd; lia].
Qed.

(** A token of digits ended by a comma or by the end of the text. *)
Lemma split_token_digits s rest :
  Forall is_dec s -> split_token (s ++ rest) = (s ++ (split_token rest).1, (split_token rest).2).
Proof.
  induction 1 as [|x s Hx _ IH]; simpl; [by destruct (split_token rest)|].
  apply is_dec_chars in Hx as (_ & _ & -> & _). by rewrite IH.
Qed.

Lemma strtok_digits v rest :
  (0 <= v)%Z -> strtok (dec_text v ++ rest) = Some (dec_text v ++ (split_token rest).1, (split_token rest).2).
Proof.
  intros Hv. unfold strtok. pose proof (dec_text_digits v Hv) as Hd.
  destruct (dec_text_head v Hv) as (x & s & E & Hx). rewrite E in Hd |- *.
  rewrite <- app_comm_cons. cbn [skip_delims]. destruct (is_dec_chars x Hx) as (_ & _ & -> & _).
  rewrite app_comm_cons. by rewrite split_token_digits.
Qed.

Lemma strtol10_byte v : (0 <= v <= 255)%Z -> strtol10 (dec_text v) = v.
Proof.
  intros Hv. rewrite <- (app_nil_r (dec_text v)). apply strtol10_dec_text; [unfold LONG_MAX; lia|done].
Qed.

Lemma parse_rgb_color_dec c : color_ok c -> parse_rgb_color (dec_color c) = inr c.
Proof.
  intros (Hr & Hg & Hb). unfold parse_rgb_color, dec_color. cbn [rgb_values].
  rewrite strtok_digits by lia. cbn [split_token fst snd]. change (is_delim ",") with true. cbn [fst snd].
  rewrite app_nil_r, strtol10_byte by done. rewrite decide_False by lia.
  rewrite strtok_digits by lia. cbn [split_token fst snd]. change (is_delim ",") with true. cbn [fst snd].
  rewrite app_nil_r, strtol10_byte by done. rewrite decide_False by lia.
  rewrite <- (app_nil_r (dec_text (b c))), strtok_digits by lia. cbn [split_token fst snd].
  rewrite app_nil_r, strtol10_byte by done. rewrite decide_False by lia. cbn. rewrite color8_ok; by destruct c.
Qed.

(** A comma among the first six characters is no hexadecimal digit. *)
Lemma hex_nibbles_comma n s i k :
  i <= k < i + n -> char_at s k = ","%byte -> hex_nibbles n s i = None.
Proof.
  revert i. induction n as [|n IH]; intros i Hk Hc; [lia|]. simpl.
  case_decide as Hd; [done|]. destruct (decide (i = k)) as [->|]; [by rewrite Hc in Hd|].
  rewrite IH by (lia || done). done.
Qed.

Lemma dec_color_head c : color_ok c ->
  dec_color c <> [] /\ dec_color c ∉ words /\ char_at (dec_color c) 0 <> "#"%byte.
Proof.
  intros (Hr & Hg & Hb). destruct (dec_text_head (r c)) as (x & s & E & Hx); [lia|].
  apply is_dec_chars in Hx as (_ & _ & _ & Hx).
  assert (exists k, dec_color c = x :: k /\ k <> []) as (k & -> & Hk).
  { unfold dec_color. rewrite E. eexists. split; [done|]. by destruct s. }
  split_and!; [done| |].
  - assert (Forall (fun w : cstr => w = cs "0" \/ match w with y :: _ => (57 < bval y)%Z | [] => True end) words) as Hw.
    { repeat constructor; first [by left | right; vm_compute; congruence]. }
    rewrite Forall_forall in Hw. intros [E0|E0]%Hw; [|lia]. injection E0 as -> Ek. by destruct k.
  - intros E0. change (x = "#"%byte) in E0. subst x. vm_compute in Hx. by destruct Hx.
Qed.

(** Writing back the text a read returns sets the same colour, unless the
    text has exactly six characters before the newline: then it is taken for a
    hexadecimal colour and refused. *)
Theorem led_decimal_round_trip c :
  color_ok c ->
  requested_color (color_text c) = if decide (length (color_text c) = 7) then inl (- EINVAL)%Z else inr c.
Proof.
  intros Hc. pose proof (dec_color_solid c Hc) as Hs. destruct (dec_color_head c Hc) as (Hn & Hw & Hh).
  pose proof Hc as (Hr & Hg & Hb).
  pose proof (length_dec_byte _ Hr) as Lr. pose proof (length_dec_byte _ Hg) as Lg. pose proof (length_dec_byte _ Hb) as Lb.
  assert (length (dec_color c) = length (dec_text (r c)) + length (dec_text (g c)) + length (dec_text (b c)) + 2) as Hl.
  { unfold dec_color. rewrite length_app. cbn [length]. rewrite length_app. cbn [length]. lia. }
  rewrite color_text_dec, requested_text, parse_color_number;
    [|done|done|done|done|done|rewrite length_app; cbn [length]; lia].
  rewrite length_app. cbn [length]. destruct (decide (length (dec_color c) = 6)) as [H6|H6].
  - rewrite decide_True by auto. rewrite decide_True by lia. unfold parse_hex_color.
    rewrite decide_False by done.
    rewrite (hex_nibbles_comma 6 _ 0 (length (dec_text (r c)))); [done|lia|].
    unfold dec_color, char_at. rewrite lookup_app_r, Nat.sub_diag by lia. done.
  - rewrite decide_False by tauto. rewrite decide_False by lia. by apply parse_rgb_color_dec.
Qed.

(** ** Concrete colours *)

Example six_characters : requested_color (cs "1,2,30" ++ [x0a]) = inl (- EINVAL)%Z.
Proof. vm_compute. reflexivity. Qed.

Lemma led_decimal_round_trip_witness :
  color_ok (Rgb 1 2 30) /\ requested_color (color_text (Rgb 1 2 30)) = inl (- EINVAL)%Z.
Proof.
  assert (color_ok (Rgb 1 2 30)) as Hc by (unfold color_ok; simpl; lia).
  split; [exact Hc|]. exact (led_decimal_round_trip (Rgb 1 2 30) Hc).
Defined.

Lemma led_hex_round_trip_witness :
  color_ok (Rgb 255 128 0) /\ requested_color (cs "#" ++ hex_color (Rgb 255 128 0) ++ [x0a]) = inr (Rgb 255 128 0).
Proof.
  assert (color_ok (Rgb 255 128 0)) as Hc by (unfold color_ok; simpl; lia).
  split; [exact Hc|]. exact (led_hex_round_trip (cs "#") (Rgb 255 128 0) Hc (or_intror eq_refl)).
Defined.

#[local] Instance demo_leds : LedHw := {|
  lhw := list (nat * list led_rgb);
  RGBLED_MAX_PIXELS := 2;
  led_is_ready _ _ := true;
  led_strip_update_rgb h i px := (0%Z, h ++ [(i, px)]);
  led_malloc h := (true, h);
|}.

Definition demo_world : world := World [Led 48 3 (Rgb 0 0 0)] {[ 1%positive := OpenFile 0 false ]} [].

(** The colour is shown on as many pixels as the driver supports. *)
Example demo_write :
  let w := (webos_rgbled_write 1 (cs "#0a0b0c" ++ [x0a]) demo_world).2 in
  (webos_rgbleds w, hw w) = ([Led 48 3 (Rgb 10 11 12)], [(0, [Rgb 10 11 12; Rgb 10 11 12])]).
Proof. vm_compute. reflexivity. Qed.

End RgbLedSpec.
