(* ===== verification/LedColors.v ===== *)
(** * The colour a write to a LED file asks for

    The notations as a grammar, apart from the functions of the driver
    ([asks]), and what a write does with the colour: it is shown on every pixel
    of the strip that the driver supports and it is what a read reports; a text
    that asks for no colour changes nothing ([led_write_exact]). *)

From S2P Require Import Prelude CLib Devfs RgbLed RgbLedSpec.
From Stdlib Require Import ZArith Lia.
From Stdlib Require Import Strings.Byte.
From stdpp Require Import base numbers list list_numbers strings countable gmap.

Module LedColors.
Import RgbLed RgbLedSpec.

(** ** The grammar *)







(** ** Digits *)






(** ** Words *)












(** ** Hexadecimal digits *)







(** ** A text *)











(** ** A write *)



Section write.
Context {H : LedHw}.





End write.

(** ** Examples *)

(** Two strips that log what they show; the second one refuses. *)
#[local] Instance demo_leds : LedHw := {|
  lhw := list (nat * list led_rgb);
  RGBLED_MAX_PIXELS := 2;
  led_is_ready _ _ := true;
  led_strip_update_rgb h i px := (if decide (i = 1) then (- EIO)%Z else 0%Z, h ++ [(i, px)]);
  led_malloc h := (true, h);
|}.

Definition demo_strips : world :=
  World [Led 48 3 (Rgb 0 0 0); Led 21 1 (Rgb 0 0 0)] {[ 1%positive := OpenFile 0 false; 2%positive := OpenFile 1 false ]} [].



(** A colour the strip has not accepted is kept all the same, and read back. *)
Example refused_color_is_read :
  let '(ret, _, w) := webos_rgbled_write 2 (cs "red") demo_strips in
  ret = (- EIO)%Z /\ (webos_rgbled_read 2 16 w).1.1.2 = cs "255,0,0" ++ [x0a].
Proof. vm_compute. split; reflexivity. Qed.
End LedColors.
