(* ===== verification/DeviceTree.v ===== *)
(** * The device tree after start-up

    The GPIO driver and the LED driver register their files on one tree.  When both
    registrations succeed the tree holds exactly the files of their devices, each
    under the path an application names it by. *)

From S2P Require Import Prelude CLib Devfs DevfsTree DevfsSpec DevfsState DevfsPart DevfsAccess Gpio RgbLed.
From Stdlib Require Import ZArith Lia.
From Stdlib Require Import Strings.Byte.
From stdpp Require Import base numbers list list_numbers strings countable sets gmap.

Module DeviceTree.
Import Path Tree.

(** ** Paths of devices *)

Lemma components_from_plain cur s : slash ∉ s -> components_from cur s = components_from (cur ++ s) [].
Proof.
  revert cur. induction s as [|x s IH]; intros cur Hs; [by rewrite app_nil_r|].
  apply not_elem_of_cons in Hs as [Hx Hs]. cbn [components_from]. rewrite decide_False by congruence.
  rewrite IH by done. by rewrite <- app_assoc.
Qed.

Lemma components_from_slash cur s t :
  slash ∉ s -> components_from cur (s ++ slash :: t) = (cur ++ s, true) :: components t.
Proof.
  revert cur. induction s as [|x s IH]; intros cur Hs; cbn [components_from app].
  - by rewrite decide_True, app_nil_r.
  - apply not_elem_of_cons in Hs as [Hx Hs]. rewrite decide_False by congruence. rewrite IH by done. by rewrite <- app_assoc.
Qed.

Lemma components_slash s t : slash ∉ s -> components (s ++ slash :: t) = (s, true) :: components t.
Proof. apply (components_from_slash []). Qed.

Lemma components_last s : slash ∉ s -> s <> [] -> components s = [(s, false)].
Proof. intros Hs Hn. unfold components. rewrite components_from_plain by done. by destruct s. Qed.

(** A decimal number is a plain name. *)
Lemma dec_text_plain v : (0 <= v)%Z -> slash ∉ dec_text v /\ NUL ∉ dec_text v /\ "."%byte ∉ dec_text v /\ dec_text v <> [].
Proof.
  intros Hv. pose proof (dec_digits_are_digits 10 v Hv) as Hd. fold (dec_text v) in Hd.
  assert (forall c, c ∈ dec_text v -> (48 <= bval c <= 57)%Z) as Hr.
  { intros c Hc. destruct (Hd c Hc) as (e & He & Hlt). by destruct (digit_plain c e He Hlt) as (_ & _ & _ & ?). }
  split_and!; try (intros Hc%Hr; vm_compute in Hc; by destruct Hc).
  destruct (dec_text_head v Hv) as (c & s & -> & _). done.
Qed.

(** A directory of devices of one kind, the pin and the name of the file. *)
Definition device_path (kind leaf : cstr) (p : Z) : cstr := slash :: kind ++ slash :: dec_text p ++ slash :: leaf.

(** Names as the drivers use them. *)
Definition plain (s : cstr) : Prop := slash ∉ s /\ NUL ∉ s /\ "."%byte ∉ s /\ s <> [].

Lemma plain_dec p : (0 <= p)%Z -> plain (dec_text p).
Proof. apply dec_text_plain. Qed.

Lemma plain_component s : plain s -> bad_component s = false.
Proof.
  intros (_ & _ & Hd & Hn). destruct s as [|c s]; [done|]. apply not_elem_of_cons in Hd as [Hc _].
  unfold bad_component. rewrite (bool_decide_eq_false_2 (char_at (c :: s) 0 = "."%byte)) by (intros E; by apply Hc; rewrite <- E).
  by rewrite !andb_false_r.
Qed.

Section paths.
Context {cfg : DevfsConfig} (kind leaf : cstr) (p : Z).
Context (Hk : plain kind) (Hl : plain leaf) (Hp : (0 <= p)%Z) (Hkd : starts_with (cs "/dev") (device_path kind leaf p) = false).
Context (Hlen : length kind + length leaf + 13 < WEBOS_DEVFS_MAX_PATH_LEN).

Lemma device_components : components (drop 1 (device_path kind leaf p)) = [(kind, true); (dec_text p, true); (leaf, false)].
Proof.
  destruct Hk as (? & _), Hl as (? & _ & _ & ?), (plain_dec p Hp) as (? & _). unfold device_path. rewrite skipn_cons, drop_0.
  rewrite components_slash by done. rewrite components_slash by done. by rewrite components_last.
Qed.

Lemma device_names : names (device_path kind leaf p) = [kind; dec_text p; leaf].
Proof. unfold names. by rewrite device_components. Qed.

Lemma device_length : length (device_path kind leaf p) < WEBOS_DEVFS_MAX_PATH_LEN.
Proof.
  unfold device_path, dec_text. cbn [length]. rewrite length_app. cbn [length]. rewrite length_app. cbn [length].
  pose proof (length_dec_digits 10 p). lia.
Qed.

Lemma device_ends b : last (device_path kind leaf p) = Some b -> b <> slash.
Proof.
  destruct Hl as (Hs & _ & _ & Hn). intros E ->. apply Hs.
  assert (device_path kind leaf p = (slash :: kind ++ slash :: dec_text p ++ [slash]) ++ leaf) as Ep.
  { unfold device_path. cbn [app]. rewrite <- app_assoc. cbn [app]. by rewrite <- app_assoc. }
  rewrite Ep, last_app in E. destruct (last leaf) eqn:El; [|by apply last_None in El].
  injection E as ->. by apply list_elem_of_lookup_2 with (i := pred (length leaf)); rewrite <- last_lookup.
Qed.

(** The path is accepted as it is and below the mount point. *)
Lemma device_valid b :
  validate_path (Some (device_path kind leaf p)) b = inr (device_path kind leaf p)
  /\ validate_path (Some (cs "/dev" ++ device_path kind leaf p)) b = inr (device_path kind leaf p).
Proof.
  assert (normalize_path (device_path kind leaf p) = device_path kind leaf p) as N1.
  { unfold normalize_path. rewrite decide_False.
    - destruct (starts_with (DEVFS_MOUNT_POINT ++ [slash]) _) eqn:E; [|done].
      apply starts_with_spec in E as (k & E). rewrite E in Hkd. done.
    - by intros [E|E]; rewrite E in Hkd. }
  assert (normalize_path (cs "/dev" ++ device_path kind leaf p) = device_path kind leaf p) as N2.
  { unfold normalize_path. rewrite decide_False; [done|]. unfold device_path. destruct Hk as (_ & _ & _ & Hn).
    destruct kind; [done|]. by intros [E|E]. }
  assert (forall q, normalize_path q = device_path kind leaf p -> validate_path (Some q) b = inr (device_path kind leaf p)) as H.
  { intros q E. unfold validate_path. rewrite E. pose proof device_length. rewrite decide_False.
    - rewrite device_components.
      assert (char_at (device_path kind leaf p) (length (device_path kind leaf p) - 1) <> slash) as Hc.
      { unfold char_at. rewrite Nat.sub_1_r, <- last_lookup.
        destruct (last (device_path kind leaf p)) eqn:El; [by apply device_ends in El|by apply last_None in El]. }
      rewrite (bool_decide_eq_false_2 _ Hc), andb_false_r. cbn [existsb fst]. rewrite !plain_component by (done || by apply plain_dec). done.
    - intros [?|[?|Hc]]; [done|lia|done]. }
  split; by apply H.
Qed.

Lemma device_no_nul : no_nul (device_path kind leaf p) /\ no_nul (cs "/dev" ++ device_path kind leaf p).
Proof.
  assert (NUL ∉ device_path kind leaf p) as H.
  { destruct Hk as (_ & ? & _), Hl as (_ & ? & _), (plain_dec p Hp) as (_ & ? & _). unfold device_path.
    rewrite not_elem_of_cons, not_elem_of_app, not_elem_of_cons, not_elem_of_app, not_elem_of_cons. split_and!; done. }
  split; [done|]. unfold no_nul. rewrite not_elem_of_app. split; [|done]. by apply (bool_decide_unpack _).
Qed.

Lemma device_resolves : resolves (Some (cs "/dev" ++ device_path kind leaf p)) [kind; dec_text p; leaf] false.
Proof.
  destruct (device_valid true) as [_ Hv]. eexists. split; [exact Hv|]. rewrite device_names. split; [done|].
  symmetry. apply bool_decide_eq_false. intros E. by apply device_ends in E.
Qed.
End paths.

(** ** Registration *)

Section registered.
Context {cfg : DevfsConfig} {W : Type}.
Context (Hmax : 32 <= WEBOS_DEVFS_MAX_PATH_LEN).
Notation heap := (gmap loc (devfs_node W)).
Implicit Types (h : heap) (o : devfs_file_ops W).

(** The tree gains the files [F] and keeps the others and their handles. *)
Record grows h h' (F : list cstr -> devfs_file_ops W -> Z -> Prop) : Prop := {
  grows_wf : wf h'; grows_tidy : tidy h'; grows_safe : handle_safe h h';
  grows_entry a o ud : file_entry h' a o ud <-> F a o ud \/ file_entry h a o ud;
}.

Lemma grows_nothing h F : wf h -> tidy h -> (forall a o ud, ~ F a o ud) -> grows h h F.
Proof. intros Hw Ht HF. split; [done..|by apply shrinks_safe, shrinks_refl|]. intros a o ud. specialize (HF a o ud). tauto. Qed.

Lemma grows_trans h1 h2 h3 F G K :
  grows h1 h2 F -> grows h2 h3 G -> (forall a o ud, K a o ud <-> F a o ud \/ G a o ud) -> grows h1 h3 K.
Proof.
  intros [Hw1 Ht1 Hs1 He1] [Hw2 Ht2 Hs2 He2] HK. split; [done..|by eapply handle_safe_trans|].
  intros a o ud. rewrite He2, He1, HK. tauto.
Qed.

Definition one_file (a : list cstr) o (ud : Z) : list cstr -> devfs_file_ops W -> Z -> Prop :=
  fun a' o' ud' => a' = a /\ o' = o /\ ud' = ud.

(** A registration that succeeds adds one file, of a name that was free. *)
Record adds_file h h' (a : list cstr) o (ud : Z) : Prop := {
  adds_grows : grows h h' (one_file a o ud);
  adds_free : forall o' ud', ~ file_entry h a o' ud';
}.

Lemma register_device allocs h kind leaf p o ud h' :
  wf h -> tidy h -> plain kind -> plain leaf -> (0 <= p)%Z -> starts_with (cs "/dev") (device_path kind leaf p) = false ->
  length kind + length leaf <= 15 ->
  devfs_register_file allocs h (Some (device_path kind leaf p)) (Some o) ud = (0%Z, h') ->
  adds_file h h' [kind; dec_text p; leaf] o ud.
Proof.
  intros Hw Ht Hk Hl Hp Hd Hlen E. assert (length kind + length leaf + 13 < WEBOS_DEVFS_MAX_PATH_LEN) as Hlen' by lia.
  pose proof (device_valid kind leaf p Hk Hl Hp Hd Hlen' false) as [Hv _].
  pose proof (device_no_nul kind leaf p Hk Hl Hp) as [Hn _].
  destruct (register_spec allocs h _ o ud _ 0%Z h' Hw Ht Hn Hv) as (Hw' & Ht' & Hs & Hr); [|done|].
  { unfold device_path. destruct Hk as (_ & _ & _ & ?). by destruct kind. }
  rewrite device_names in Hr by done. destruct Hr as [(_ & Hfree & _ & Hf)|[? _]]; [|done].
  split; [by split|]. intros o' ud' (l & nd & Hat & _). by apply (Hfree l).
Qed.

Lemma registered_path kind leaf p s :
  plain kind -> length kind + length leaf <= 15 -> s = device_path kind leaf p -> take (WEBOS_DEVFS_MAX_PATH_LEN - 1) s = s.
Proof.
  intros _ Hlen ->. apply take_ge. unfold device_path, dec_text. cbn [length]. rewrite length_app. cbn [length]. rewrite length_app. cbn [length].
  pose proof (length_dec_digits 10 p). lia.
Qed.

(** ** GPIO *)

Context {GH : GpioHw} {GP : Part W Gpio.world} {LH : LedHw} {LP : Part W RgbLed.world}.

Definition gpio_leaf (t : Gpio.webos_gpio_file_type) : cstr :=
  match t with Gpio.WEBOS_GPIO_VALUE => cs "value" | Gpio.WEBOS_GPIO_DIRECTION => cs "direction" end.

Definition gpio_names (d : Gpio.webos_gpio_dev) (t : Gpio.webos_gpio_file_type) : list cstr :=
  [cs "gpio"; dec_text (Gpio.pin d); gpio_leaf t].

(** The files of the devices from the [i]th on. *)
Definition gpio_file (i : nat) (devs : list Gpio.webos_gpio_dev) (a : list cstr) o (ud : Z) : Prop :=
  exists k d t, devs !! k = Some d /\ a = gpio_names d t /\ o = lift_ops Gpio.webos_gpio_ops /\ ud = Gpio.def_addr (i + k) t.

Definition pins_ok {A : Type} (pin : A -> Z) (devs : list A) : Prop := Forall (fun d => 0 <= pin d)%Z devs.

Lemma plain_names : plain (cs "gpio") /\ plain (cs "led") /\ plain (cs "color") /\ forall t, plain (gpio_leaf t).
Proof.
  assert (forall s : cstr, bool_decide (slash ∉ s /\ NUL ∉ s /\ "."%byte ∉ s /\ s <> []) = true -> plain s) as H
    by (intros s; by rewrite bool_decide_eq_true).
  split_and!; [by apply H..|]. intros t. apply H. by destruct t.
Qed.

Lemma register_gpio_file allocs h d t i h' :
  wf h -> tidy h -> (0 <= Gpio.pin d)%Z ->
  devfs_register_file allocs h
    (Some (match t with Gpio.WEBOS_GPIO_VALUE => Gpio.value_path (Gpio.pin d) | Gpio.WEBOS_GPIO_DIRECTION => Gpio.direction_path (Gpio.pin d) end))
    (Some (lift_ops Gpio.webos_gpio_ops)) (Gpio.def_addr i t) = (0%Z, h') ->
  adds_file h h' (gpio_names d t) (lift_ops Gpio.webos_gpio_ops) (Gpio.def_addr i t).
Proof.
  intros Hw Ht Hp. destruct plain_names as (Hg & _ & _ & Hl).
  assert (length (cs "gpio") + length (gpio_leaf t) <= 15) as Hlen by (by apply Nat.leb_le; destruct t).
  intros E. eapply (register_device allocs h (cs "gpio") (gpio_leaf t)); [done..|exact Hlen|].
  rewrite <- E. do 2 f_equal. destruct t; symmetry; by eapply (registered_path (cs "gpio")).
Qed.

(** The two files of one device. *)
Lemma register_gpio_device h h1 h2 d i :
  adds_file h h1 (gpio_names d Gpio.WEBOS_GPIO_VALUE) (lift_ops Gpio.webos_gpio_ops) (Gpio.def_addr i Gpio.WEBOS_GPIO_VALUE) ->
  adds_file h1 h2 (gpio_names d Gpio.WEBOS_GPIO_DIRECTION) (lift_ops Gpio.webos_gpio_ops) (Gpio.def_addr i Gpio.WEBOS_GPIO_DIRECTION) ->
  grows h h2 (fun a o ud => exists t, one_file (gpio_names d t) (lift_ops Gpio.webos_gpio_ops) (Gpio.def_addr i t) a o ud).
Proof.
  intros [H1 _] [H2 _]. apply (grows_trans h h1 h2 _ _ _ H1 H2). intros a o ud. split; [intros [[] H]; auto|intros [H|H]; by eexists].
Qed.

Lemma gpio_loop_spec allocs i devs h h' :
  wf h -> tidy h -> pins_ok Gpio.pin devs -> Gpio.register_loop allocs i devs h = (0%Z, h') ->
  grows h h' (gpio_file i devs) /\ NoDup (Gpio.pin <$> devs)
  /\ Forall (fun d => forall o ud, ~ file_entry h (gpio_names d Gpio.WEBOS_GPIO_VALUE) o ud) devs.
Proof.
  intros Hw Ht Hp. revert i h Hw Ht. induction Hp as [|d devs Hd _ IH]; intros i h Hw Ht E; cbn [Gpio.register_loop] in E.
  { injection E as <-. split; [|by split; constructor]. apply grows_nothing; [done..|]. by intros a o ud (k & d & t & ? & _). }
  destruct (devfs_register_file (allocs (2 * i)) h _ _ _) as [r1 h1] eqn:E1.
  destruct (decide (r1 <> 0%Z)) as [|Hr]; [by injection E|]. apply dec_stable in Hr as ->.
  destruct (devfs_register_file (allocs (2 * i + 1)) h1 _ _ _) as [r2 h2] eqn:E2.
  destruct (decide (r2 <> 0%Z)) as [|Hr]; [by injection E|]. apply dec_stable in Hr as ->.
  pose proof (register_gpio_file _ h d Gpio.WEBOS_GPIO_VALUE i h1 Hw Ht Hd E1) as A1.
  pose proof (adds_grows _ _ _ _ _ A1) as [Hw1 Ht1 _ He1].
  pose proof (register_gpio_file _ h1 d Gpio.WEBOS_GPIO_DIRECTION i h2 Hw1 Ht1 Hd E2) as A2.
  pose proof (register_gpio_device h h1 h2 d i A1 A2) as G. pose proof G as [Hw2 Ht2 _ He2].
  destruct (IH (S i) h2 Hw2 Ht2 E) as (G' & Hnd & Hfree). rewrite Forall_forall in Hfree. split_and!.
  - apply (grows_trans h h2 h' _ _ _ G G'). intros a o ud. unfold gpio_file, one_file. split.
    + intros ([|k] & d' & t & Hk & -> & -> & ->).
      * injection Hk as <-. left. exists t. by rewrite Nat.add_0_r.
      * right. exists k, d', t. split_and!; try done. f_equal. lia.
    + intros [(t & -> & -> & ->)|(k & d' & t & Hk & -> & -> & ->)].
      * exists 0, d, t. by rewrite Nat.add_0_r.
      * exists (S k), d', t. split_and!; try done. f_equal. lia.
  - rewrite fmap_cons. constructor; [|done]. intros (d' & Epin & Hin)%list_elem_of_fmap.
    eapply (Hfree d' Hin). apply He2. left. exists Gpio.WEBOS_GPIO_VALUE. unfold one_file, gpio_names. by rewrite Epin.
  - constructor; [apply (adds_free _ _ _ _ _ A1)|]. apply Forall_forall. intros d' Hin o ud Hf. apply (Hfree d' Hin o ud), He2. by right.
Qed.

(** ** LEDs *)

Definition led_names (d : RgbLed.webos_rgbled_dev) : list cstr := [cs "led"; dec_text (RgbLed.webos_pin d); cs "color"].

Definition led_file (i : nat) (devs : list RgbLed.webos_rgbled_dev) (a : list cstr) o (ud : Z) : Prop :=
  exists k d, devs !! k = Some d /\ a = led_names d /\ o = lift_ops RgbLed.webos_rgbled_ops /\ ud = RgbLed.led_addr (i + k).

Lemma register_led_file allocs h d i h' :
  wf h -> tidy h -> (0 <= RgbLed.webos_pin d)%Z ->
  devfs_register_file allocs h (Some (RgbLed.led_path (RgbLed.webos_pin d))) (Some (lift_ops RgbLed.webos_rgbled_ops)) (RgbLed.led_addr i)
    = (0%Z, h') ->
  adds_file h h' (led_names d) (lift_ops RgbLed.webos_rgbled_ops) (RgbLed.led_addr i).
Proof.
  intros Hw Ht Hp E. destruct plain_names as (_ & Hl & Hc & _).
  eapply (register_device allocs h (cs "led") (cs "color")); [done..| |]; [by apply Nat.leb_le|].
  rewrite <- E. do 2 f_equal. symmetry. eapply (registered_path (cs "led") (cs "color")); [done|by apply Nat.leb_le|done].
Qed.

Lemma led_loop_spec allocs i devs h w h' w' :
  wf h -> tidy h -> pins_ok RgbLed.webos_pin devs -> RgbLed.register_loop allocs i devs h w = (0%Z, h', w') ->
  grows h h' (led_file i devs) /\ NoDup (RgbLed.webos_pin <$> devs)
  /\ Forall (fun d => forall o ud, ~ file_entry h (led_names d) o ud) devs.
Proof.
  intros Hw Ht Hp. revert i h w Hw Ht. induction Hp as [|d devs Hd _ IH]; intros i h w Hw Ht E; cbn [RgbLed.register_loop] in E.
  { injection E as <- <-. split; [|by split; constructor]. apply grows_nothing; [done..|]. by intros a o ud (k & d & ? & _). }
  destruct (devfs_register_file (allocs i) h _ _ _) as [r1 h1] eqn:E1.
  destruct (decide (r1 <> 0%Z)) as [|Hr]; [by injection E|]. apply dec_stable in Hr as ->.
  destruct (on_part _ w) as [r2 w1]. destruct (decide (r2 <> 0%Z)) as [|Hr]; [by injection E|].
  pose proof (register_led_file _ h d i h1 Hw Ht Hd E1) as A1. pose proof (adds_grows _ _ _ _ _ A1) as G. pose proof G as [Hw1 Ht1 _ He1].
  destruct (IH (S i) h1 w1 Hw1 Ht1 E) as (G' & Hnd & Hfree). rewrite Forall_forall in Hfree. split_and!.
  - apply (grows_trans h h1 h' _ _ _ G G'). intros a o ud. unfold led_file, one_file. split.
    + intros ([|k] & d' & Hk & -> & -> & ->).
      * injection Hk as <-. left. by rewrite Nat.add_0_r.
      * right. exists k, d'. split_and!; try done. f_equal. lia.
    + intros [(-> & -> & ->)|(k & d' & Hk & -> & -> & ->)].
      * exists 0, d. by rewrite Nat.add_0_r.
      * exists (S k), d'. split_and!; try done. f_equal. lia.
  - rewrite fmap_cons. constructor; [|done]. intros (d' & Epin & Hin)%list_elem_of_fmap.
    eapply (Hfree d' Hin). apply He1. left. unfold one_file, led_names. by rewrite Epin.
  - constructor; [apply (adds_free _ _ _ _ _ A1)|]. apply Forall_forall. intros d' Hin o ud Hf. apply (Hfree d' Hin o ud), He1. by right.
Qed.

(** ** After start-up *)

Lemma initial_no_files a o ud : ~ file_entry (initial_heap : heap) a o ud.
Proof. intros (l & nd & _ & E & Ht & _). unfold initial_heap in E. apply lookup_singleton_Some in E as [_ <-]. done. Qed.

(** The path an application names a device file by. *)
Definition gpio_path (p : Z) (t : Gpio.webos_gpio_file_type) : cstr := cs "/dev" ++ device_path (cs "gpio") (gpio_leaf t) p.
Definition led_color_path (p : Z) : cstr := cs "/dev" ++ device_path (cs "led") (cs "color") p.

Lemma gpio_path_resolves p t : (0 <= p)%Z -> no_nul (gpio_path p t) /\ resolves (Some (gpio_path p t)) [cs "gpio"; dec_text p; gpio_leaf t] false.
Proof.
  intros Hp. destruct plain_names as (Hg & _ & _ & Hl). split; [by apply device_no_nul|]. apply device_resolves; try done.
  assert (length (cs "gpio") + length (gpio_leaf t) <= 15) by (by apply Nat.leb_le; destruct t). lia.
Qed.

Lemma led_path_resolves p : (0 <= p)%Z -> no_nul (led_color_path p) /\ resolves (Some (led_color_path p)) [cs "led"; dec_text p; cs "color"] false.
Proof.
  intros Hp. destruct plain_names as (_ & Hl & Hc & _). split; [by apply device_no_nul|]. apply device_resolves; try done.
  assert (length (cs "led") + length (cs "color") <= 15) by (by apply Nat.leb_le). lia.
Qed.

Lemma tree_of_registrations allocs allocs' devs w0 h1 h2 w1 :
  pins_ok Gpio.pin devs -> pins_ok RgbLed.webos_pin (RgbLed.webos_rgbleds (part w0)) ->
  Gpio.webos_gpio_register_devfs allocs devs initial_heap = (0%Z, h1) ->
  RgbLed.webos_rgbled_register_devfs allocs' h1 w0 = (0%Z, h2, w1) ->
  DevfsState.inv (Devfs h2 ∅ ∅) /\ NoDup (Gpio.pin <$> devs) /\ NoDup (RgbLed.webos_pin <$> RgbLed.webos_rgbleds (part w0))
  /\ forall a o ud, file_entry h2 a o ud <-> gpio_file 0 devs a o ud \/ led_file 0 (RgbLed.webos_rgbleds (part w0)) a o ud.
Proof.
  intros Hp Hlp E1 E2. destruct (inv_initial (W := W)) as [Hw Ht Hh].
  destruct (gpio_loop_spec allocs 0 devs initial_heap h1 Hw Ht Hp E1) as ([Hw1 Ht1 Hs1 He1] & Hnd & _).
  destruct (led_loop_spec allocs' 0 _ h1 w0 h2 w1 Hw1 Ht1 Hlp E2) as ([Hw2 Ht2 Hs2 He2] & Hnd' & _).
  split_and!; [|done|done|].
  - apply (inv_heap initial h2 Hh); [done..|]. by eapply handle_safe_trans.
  - intros a o ud. rewrite He2, He1. pose proof (initial_no_files a o ud). tauto.
Qed.

(** A registered file can be opened under its path. *)
Lemma gpio_opens h devs i d t :
  DevfsState.inv (Devfs h ∅ ∅) -> pins_ok Gpio.pin devs -> devs !! i = Some d ->
  (forall a o ud, gpio_file 0 devs a o ud -> file_entry h a o ud) ->
  DevfsAccess.device_at (Devfs h ∅ ∅) (gpio_path (Gpio.pin d) t) (lift_ops Gpio.webos_gpio_ops) (Gpio.def_addr i t).
Proof.
  intros Hi Hp Hd Hf. destruct (gpio_path_resolves (Gpio.pin d) t) as [Hn Hr].
  { unfold pins_ok in Hp. rewrite Forall_forall in Hp. apply Hp. by eapply list_elem_of_lookup_2. }
  eapply DevfsAccess.device_of_entry; [done|done|exact Hn|exact Hr|]. apply Hf. by exists i, d, t.
Qed.

Lemma led_opens h devs i d :
  DevfsState.inv (Devfs h ∅ ∅) -> pins_ok RgbLed.webos_pin devs -> devs !! i = Some d ->
  (forall a o ud, led_file 0 devs a o ud -> file_entry h a o ud) ->
  DevfsAccess.device_at (Devfs h ∅ ∅) (led_color_path (RgbLed.webos_pin d)) (lift_ops RgbLed.webos_rgbled_ops) (RgbLed.led_addr i).
Proof.
  intros Hi Hp Hd Hf. destruct (led_path_resolves (RgbLed.webos_pin d)) as [Hn Hr].
  { unfold pins_ok in Hp. rewrite Forall_forall in Hp. apply Hp. by eapply list_elem_of_lookup_2. }
  eapply DevfsAccess.device_of_entry; [done|done|exact Hn|exact Hr|]. apply Hf. by exists i, d.
Qed.

(** When the GPIO driver and the LED driver have registered on the empty tree,
    devfs holds exactly their files - two for every GPIO and one for every LED - with
    the callbacks and the data of their devices, no pin occurs twice, and every one of
    these files can be opened under the path below /dev an application uses. *)
Theorem devices_registered allocs allocs' devs w0 h1 h2 w1 :
  pins_ok Gpio.pin devs -> pins_ok RgbLed.webos_pin (RgbLed.webos_rgbleds (part w0)) ->
  Gpio.webos_gpio_register_devfs allocs devs initial_heap = (0%Z, h1) ->
  RgbLed.webos_rgbled_register_devfs allocs' h1 w0 = (0%Z, h2, w1) ->
  DevfsState.inv (Devfs h2 ∅ ∅) /\ NoDup (Gpio.pin <$> devs) /\ NoDup (RgbLed.webos_pin <$> RgbLed.webos_rgbleds (part w0))
  /\ (forall a o ud, file_entry h2 a o ud <-> gpio_file 0 devs a o ud \/ led_file 0 (RgbLed.webos_rgbleds (part w0)) a o ud)
  /\ (forall i d t, devs !! i = Some d ->
        DevfsAccess.device_at (Devfs h2 ∅ ∅) (gpio_path (Gpio.pin d) t) (lift_ops Gpio.webos_gpio_ops) (Gpio.def_addr i t))
  /\ (forall i d, RgbLed.webos_rgbleds (part w0) !! i = Some d ->
        DevfsAccess.device_at (Devfs h2 ∅ ∅) (led_color_path (RgbLed.webos_pin d)) (lift_ops RgbLed.webos_rgbled_ops) (RgbLed.led_addr i)).
Proof.
  intros Hp Hlp E1 E2. destruct (tree_of_registrations allocs allocs' devs w0 h1 h2 w1 Hp Hlp E1 E2) as (Hi & Hnd & Hnd' & Hf).
  split_and!; [done..| |].
  - intros i d t Hd. eapply gpio_opens; [done..|]. intros a o ud Ho. apply Hf. by left.
  - intros i d Hd. eapply led_opens; [done..|]. intros a o ud Ho. apply Hf. by right.
Qed.
End registered.
End DeviceTree.
