(* ===== verification/AdbProtocol.v ===== *)
(** * The ADB protocol engine

    Model of src/lib/adb/adb_protocol.c: packet framing and reassembly, the
    stream table, the control-packet queue, the dispatcher, flow control and
    the entry points of transport and services.  The static variables of the
    file are the record [adb]; every function is a definition that passes it.

    The three services (adb_shell.c, adb_logcat.c, adb_sync.c) reach the engine
    only through their callbacks and the engine reaches them only through
    [adb_service.h]: they are an interface, the class [AdbServices].  A callback
    is a finite interaction ([prog]) with the engine: the calls of
    [webos_adb_stream_write] and its siblings it makes, in order, each
    continuing with the value the engine returned.  The theorems about the
    engine hold for every implementation of that interface, and for every
    transport ([AdbEnv]).

    The field [wire] is a ghost: the history of the packets the transport
    accepted and of the acknowledgements and releases of stream slots. No
    definition reads it. *)

From S2P Require Import Prelude CLib Ring.
From Stdlib Require Import ZArith Lia.
From Stdlib Require Import Strings.Byte.
From stdpp Require Import base numbers list list_numbers strings countable sets.

(** ** Configuration *)

(** The Kconfig options of src/lib/adb/Kconfig, with their ranges. *)
Class AdbConfig := {
  ADB_MAX_PAYLOAD : nat;
  ADB_TX_PAYLOAD_SIZE : nat;
  ADB_USB_TRANSFER_SIZE : nat;
  ADB_CONTROL_QUEUE_DEPTH : nat;
  ADB_CONTROL_PAYLOAD_SIZE : nat;
  ADB_MAX_STREAMS : nat;
  ADB_ALLOW_NO_AUTH : bool;
  ADB_USB : bool;
  ADB_REBOOT : bool;
  ADB_LOGCAT : bool;
  ADB_SHELL : bool;
  ADB_SYNC : bool;
  range_max_payload : (256 <= Z.of_nat ADB_MAX_PAYLOAD <= 16384)%Z;
  range_tx_payload : (64 <= Z.of_nat ADB_TX_PAYLOAD_SIZE <= Z.of_nat ADB_MAX_PAYLOAD)%Z;
  range_control_depth : 2 <= ADB_CONTROL_QUEUE_DEPTH <= 16;
  range_control_payload : (104 <= Z.of_nat ADB_CONTROL_PAYLOAD_SIZE <= 512)%Z;
  range_streams : 1 <= ADB_MAX_STREAMS <= 8;
}.

Definition WEBOS_ADB_HEADER_SIZE : nat := 24.

Definition ADB_COMMAND_CNXN : Z := 0x4e584e43.
Definition ADB_COMMAND_OPEN : Z := 0x4e45504f.
Definition ADB_COMMAND_OKAY : Z := 0x59414b4f.
Definition ADB_COMMAND_CLSE : Z := 0x45534c43.
Definition ADB_COMMAND_WRTE : Z := 0x45545257.
Definition ADB_VERSION : Z := 0x01000000.
Definition ADB_VERSION_NO_CHECKSUM : Z := 0x01000001.

Definition device_banner : list byte :=
  cs "device::ro.product.name=webos;ro.product.model=WebOS_ESP32-S3;ro.product.device=webos_esp32s3;features=".

(** ** Interfaces *)

(** The transport, the heap and the reboot timer. *)
Class AdbEnv := {
  env : Type;
  transport_send : env -> list byte -> list byte -> Z * env;   (* header, payload *)
  webos_adb_usb_reset_tx : env -> env;
  k_malloc : env -> Z -> bool * env;
  webos_adb_reboot_request : env -> Z * env;                    (* with the arguments NULL, 0 *)
}.

Inductive service_id := SVC_LOGCAT | SVC_SHELL | SVC_SYNC.

#[global] Instance service_id_eq_dec : EqDecision service_id.
Proof. solve_decision. Defined.

(** What a callback may ask of the engine; streams are named by their index. *)
Inductive prog (A : Type) :=
| Ret (a : A)
| StreamWrite (i : nat) (generation : Z) (data : list byte) (k : Z -> prog A)
| StreamClose (i : nat) (generation : Z) (k : prog A)
| StreamMaxPayload (i : nat) (k : nat -> prog A)
| StreamGeneration (i : nat) (k : Z -> prog A).
Arguments Ret {A}.
Arguments StreamWrite {A}.
Arguments StreamClose {A}.
Arguments StreamMaxPayload {A}.
Arguments StreamGeneration {A}.

(** The operations of [struct webos_adb_service_ops]; [None] is a NULL pointer. *)
Class AdbServices := {
  sv : Type;
  logcat_matches : list byte -> bool;
  sv_open : service_id -> sv -> nat -> list byte -> prog (Z * sv);
  sv_write : service_id -> option (sv -> nat -> list byte -> prog (Z * sv));
  sv_tx_ready : service_id -> option (sv -> nat -> prog sv);
  sv_close : service_id -> option (sv -> nat -> sv);
}.

Module Adb.

(** ** Data *)

Record adb_message := Message {
  command : Z; arg0 : Z; arg1 : Z; data_length : Z; data_check : Z; magic : Z;
}.
Definition zero_message : adb_message := Message 0 0 0 0 0 0.

(** A packet as it is handed to the transport. The payload of a queued control
    packet is the first [payload_len] bytes of its array. *)
Record packet := Packet { p_command : Z; p_arg0 : Z; p_arg1 : Z; p_payload : list byte }.

Record webos_adb_stream := Stream {
  used : bool;
  tx_pending : bool;
  awaiting_ack : bool;
  close_pending : bool;
  local_id : Z;
  remote_id : Z;
  generation : Z;
  ops : option service_id;
  tx_len : nat;
  tx_data : list byte;
}.

Record adb_rx_state := Rx {
  header : list byte;
  payload : option (list byte);
  payload_checksum : Z;
  header_used : nat;
  payload_used : nat;
  message : adb_message;
}.

(** The history of a connection: control packets and stream data the transport
    accepted, acknowledgements of a slot by the peer, releases of a slot, and
    writes a service refused, after which the engine no longer waits for the
    acknowledgement although the slot is still in use. *)
Inductive wire_event :=
| WControl (p : packet)
| WData (i : nat) (p : packet)
| WAck (i : nat)
| WDrop (i : nat)
| WFail (i : nat).

#[global] Instance packet_eq_dec : EqDecision packet.
Proof. solve_decision. Defined.
#[global] Instance wire_event_eq_dec : EqDecision wire_event.
Proof. solve_decision. Defined.

Section engine.
Context {cfg : AdbConfig} {E : AdbEnv} {S : AdbServices}.

Record adb := Adb {
  rx : adb_rx_state;
  streams : list webos_adb_stream;
  control : SlotQueue.queue packet;
  connected : bool;                (* transport_send != NULL *)
  next_local_id : Z;
  next_stream_generation : Z;
  negotiated_payload : Z;
  online : bool;
  dispatching : bool;
  services : sv;
  environment : env;
  wire : list wire_event;
}.

(** Stores to the static variables. *)
Definition set_rx (x : adb_rx_state) (s : adb) : adb :=
  Adb x (streams s) (control s) (connected s) (next_local_id s) (next_stream_generation s)
    (negotiated_payload s) (online s) (dispatching s) (services s) (environment s) (wire s).
Definition set_streams (x : list webos_adb_stream) (s : adb) : adb :=
  Adb (rx s) x (control s) (connected s) (next_local_id s) (next_stream_generation s)
    (negotiated_payload s) (online s) (dispatching s) (services s) (environment s) (wire s).
Definition set_control (x : SlotQueue.queue packet) (s : adb) : adb :=
  Adb (rx s) (streams s) x (connected s) (next_local_id s) (next_stream_generation s)
    (negotiated_payload s) (online s) (dispatching s) (services s) (environment s) (wire s).
Definition set_ids (l g : Z) (s : adb) : adb :=
  Adb (rx s) (streams s) (control s) (connected s) l g
    (negotiated_payload s) (online s) (dispatching s) (services s) (environment s) (wire s).
Definition set_session (n : Z) (o : bool) (s : adb) : adb :=
  Adb (rx s) (streams s) (control s) (connected s) (next_local_id s) (next_stream_generation s)
    n o (dispatching s) (services s) (environment s) (wire s).
Definition set_dispatching (d : bool) (s : adb) : adb :=
  Adb (rx s) (streams s) (control s) (connected s) (next_local_id s) (next_stream_generation s)
    (negotiated_payload s) (online s) d (services s) (environment s) (wire s).
Definition set_services (x : sv) (s : adb) : adb :=
  Adb (rx s) (streams s) (control s) (connected s) (next_local_id s) (next_stream_generation s)
    (negotiated_payload s) (online s) (dispatching s) x (environment s) (wire s).
Definition set_env (x : env) (s : adb) : adb :=
  Adb (rx s) (streams s) (control s) (connected s) (next_local_id s) (next_stream_generation s)
    (negotiated_payload s) (online s) (dispatching s) (services s) x (wire s).
Definition log (l : list wire_event) (s : adb) : adb :=
  Adb (rx s) (streams s) (control s) (connected s) (next_local_id s) (next_stream_generation s)
    (negotiated_payload s) (online s) (dispatching s) (services s) (environment s) (wire s ++ l).

(** ** Framing *)

Definition adb_checksum (data : list byte) : Z := foldl (fun sum b => u32 (sum + bval b)) 0%Z data.

Definition zero_rx : adb_rx_state := Rx (replicate WEBOS_ADB_HEADER_SIZE x00) None 0 0 0 zero_message.

Definition reset_rx (s : adb) : adb := set_rx zero_rx s.

Definition encode_message (cmd a0 a1 : Z) (pl : list byte) : list byte :=
  put_le32 cmd ++ put_le32 a0 ++ put_le32 a1 ++ put_le32 (Z.of_nat (length pl))
  ++ put_le32 (adb_checksum pl) ++ put_le32 (Z.lxor cmd UINT32_MAX).

(** The fields of a received header. *)
Definition decode_fields (h : list byte) : adb_message :=
  Message (get_le32 h) (get_le32 (drop 4 h)) (get_le32 (drop 8 h)) (get_le32 (drop 12 h))
    (get_le32 (drop 16 h)) (get_le32 (drop 20 h)).

(** ** Sending *)

Definition send_packet_raw (ev : packet -> wire_event) (cmd a0 a1 : Z) (pl : list byte) (s : adb) : Z * adb :=
  if connected s then
    let '(ret, e) := transport_send (environment s) (encode_message cmd a0 a1 pl) pl in
    (ret, log (if decide (ret = 0%Z) then [ev (Packet cmd a0 a1 pl)] else []) (set_env e s))
  else ((- ENODEV)%Z, s).

Definition flow_control_error (ret : Z) : bool := bool_decide (ret = (- ENOSPC)%Z \/ ret = (- EBUSY)%Z).

Definition enqueue_control (cmd a0 a1 : Z) (pl : list byte) (s : adb) : Z * adb :=
  if decide (ADB_CONTROL_PAYLOAD_SIZE < length pl) then ((- EMSGSIZE)%Z, s)
  else if decide (SlotQueue.qcount (control s) = SlotQueue.qcap (control s)) then ((- ENOBUFS)%Z, s)
  else (0%Z, set_control (SlotQueue.enqueue (control s) (Packet cmd a0 a1 pl)) s).

Definition send_control (cmd a0 a1 : Z) (pl : list byte) (s : adb) : Z * adb :=
  if decide (SlotQueue.qcount (control s) <> 0) then enqueue_control cmd a0 a1 pl s
  else
    let '(ret, s) := send_packet_raw WControl cmd a0 a1 pl s in
    if flow_control_error ret then enqueue_control cmd a0 a1 pl s else (ret, s).

(** [pump_controls]: every iteration that continues takes a packet off the
    queue, so the count bounds the iterations. *)
Fixpoint pump_loop (fuel : nat) (s : adb) : Z * adb :=
  match fuel with
  | O => (0%Z, s)
  | Datatypes.S fuel' =>
      if decide (SlotQueue.qcount (control s) <> 0) then
        match SlotQueue.slots (control s) !! SlotQueue.qhead (control s) with
        | None => (0%Z, s)
        | Some p =>
            let '(ret, s) := send_packet_raw WControl (p_command p) (p_arg0 p) (p_arg1 p) (p_payload p) s in
            if decide (ret <> 0%Z) then (ret, s)
            else pump_loop fuel' (set_control (SlotQueue.dequeue (control s)) s)
        end
      else (0%Z, s)
  end.

Definition pump_controls (s : adb) : Z * adb := pump_loop (SlotQueue.qcount (control s)) s.

Definition send_connect (s : adb) : Z * adb :=
  send_control ADB_COMMAND_CNXN ADB_VERSION (Z.of_nat ADB_MAX_PAYLOAD) device_banner s.
Definition send_ready (l r : Z) (s : adb) : Z * adb := send_control ADB_COMMAND_OKAY l r [] s.
Definition send_close (l r : Z) (s : adb) : Z * adb := send_control ADB_COMMAND_CLSE l r [] s.

(** ** Streams *)

Definition zero_stream : webos_adb_stream :=
  Stream false false false false 0 0 0 None 0 (replicate ADB_TX_PAYLOAD_SIZE x00).

Definition get_stream (s : adb) (i : nat) : webos_adb_stream := default zero_stream (streams s !! i).
Definition put_stream (i : nat) (st : webos_adb_stream) (s : adb) : adb := set_streams (<[i := st]> (streams s)) s.

(** Stores to the flags and the transmit slot of a stream. *)
Definition set_flags (p a c : bool) (st : webos_adb_stream) : webos_adb_stream :=
  Stream (used st) p a c (local_id st) (remote_id st) (generation st) (ops st) (tx_len st) (tx_data st).
Definition set_tx (n : nat) (d : list byte) (st : webos_adb_stream) : webos_adb_stream :=
  Stream (used st) (tx_pending st) (awaiting_ack st) (close_pending st) (local_id st) (remote_id st)
    (generation st) (ops st) n d.

Definition next_id (id : Z) : Z := if decide (u32 (id + 1) = 0%Z) then 1%Z else u32 (id + 1).

Definition allocate_local_id (s : adb) : Z * adb :=
  (next_local_id s, set_ids (next_id (next_local_id s)) (next_stream_generation s) s).

(** The index of the first stream that satisfies a test. *)
Fixpoint first_index (f : webos_adb_stream -> bool) (l : list webos_adb_stream) : option nat :=
  match l with
  | [] => None
  | st :: l' => if f st then Some 0 else Datatypes.S <$> first_index f l'
  end.

Definition find_stream (l r : Z) (s : adb) : option nat :=
  first_index (fun st => used st && bool_decide (local_id st = l) && bool_decide (remote_id st = r)) (streams s).

Definition allocate_stream (r : Z) (o : service_id) (s : adb) : option nat * adb :=
  match first_index (fun st => negb (used st)) (streams s) with
  | None => (None, s)
  | Some i =>
      let '(id, s) := allocate_local_id s in
      let gen := next_stream_generation s in
      let st := Stream true false false false id r gen (Some o) 0 (tx_data zero_stream) in
      (Some i, put_stream i st (set_ids (next_local_id s) (next_id gen) s))
  end.

Definition release_stream (i : nat) (s : adb) : adb :=
  let st := get_stream s i in
  if used st then
    let s := match ops st with
             | Some o => match sv_close o with
                         | Some close => set_services (close (services s) i) s
                         | None => s
                         end
             | None => s
             end in
    log [WDrop i] (put_stream i zero_stream s)
  else s.

Definition close_all_streams (s : adb) : adb :=
  foldl (fun s i => release_stream i s) s (seq 0 (length (streams s))).

Definition flush_stream (i : nat) (s : adb) : Z * adb :=
  let st := get_stream s i in
  let '(ret, s) :=
    if tx_pending st && negb (awaiting_ack st) then
      if decide (SlotQueue.qcount (control s) <> 0) then ((- ENOSPC)%Z, s)
      else
        let '(ret, s) := send_packet_raw (WData i) ADB_COMMAND_WRTE (local_id st) (remote_id st)
                           (take (tx_len st) (tx_data st)) s in
        if decide (ret <> 0%Z) then (ret, s)
        else (0%Z, put_stream i (set_flags false true (close_pending st) (get_stream s i)) s)
    else (0%Z, s) in
  if decide (ret <> 0%Z) then (ret, s)
  else
    let st := get_stream s i in
    if close_pending st && negb (tx_pending st) && negb (awaiting_ack st) then
      let '(ret, s) := send_close (local_id st) (remote_id st) s in
      if decide (ret <> 0%Z) then (ret, s) else (0%Z, release_stream i s)
    else (0%Z, s).

Definition webos_adb_stream_max_payload (s : adb) : nat :=
  let capacity := Z.to_nat (Z.min (negotiated_payload s) (Z.of_nat ADB_TX_PAYLOAD_SIZE)) in
  if ADB_USB then capacity `min` ADB_USB_TRANSFER_SIZE else capacity.

(** [stream_write_locked]; the pointer [data] is not NULL. *)
Definition stream_write_locked (i : nat) (gen : Z) (data : list byte) (s : adb) : Z * adb :=
  let st := get_stream s i in
  if decide (used st = false \/ (gen <> 0%Z /\ generation st <> gen)) then ((- EINVAL)%Z, s)
  else if decide (webos_adb_stream_max_payload s < length data) then ((- EMSGSIZE)%Z, s)
  else if tx_pending st || awaiting_ack st then ((- EBUSY)%Z, s)
  else
    let st := set_flags true (awaiting_ack st) (close_pending st)
                (set_tx (length data) (write_at (tx_data st) 0 data) st) in
    let s := put_stream i st s in
    if dispatching s then (0%Z, s)
    else
      let '(ret, s) := flush_stream i s in
      if flow_control_error ret then (0%Z, s)
      else if decide (ret <> 0%Z) then
        let st := get_stream s i in
        (ret, put_stream i (set_flags false (awaiting_ack st) (close_pending st) (set_tx 0 (tx_data st) st)) s)
      else (0%Z, s).

Definition stream_close_locked (i : nat) (gen : Z) (s : adb) : adb :=
  let st := get_stream s i in
  if decide (used st = true /\ (gen = 0%Z \/ generation st = gen)) then
    let s := put_stream i (set_flags (tx_pending st) (awaiting_ack st) true st) s in
    if dispatching s then s else (flush_stream i s).2
  else s.

Definition webos_adb_stream_write (i : nat) (data : list byte) (s : adb) : Z * adb := stream_write_locked i 0 data s.
Definition webos_adb_stream_write_generation := stream_write_locked.
Definition webos_adb_stream_close (i : nat) (s : adb) : adb := stream_close_locked i 0 s.
Definition webos_adb_stream_close_generation := stream_close_locked.
Definition webos_adb_stream_generation (s : adb) (i : nat) : Z := generation (get_stream s i).

(** A callback of a service, run against the engine. *)
Fixpoint run {A} (p : prog A) (s : adb) : A * adb :=
  match p with
  | Ret a => (a, s)
  | StreamWrite i gen data k => let '(ret, s) := stream_write_locked i gen data s in run (k ret) s
  | StreamClose i gen k => run k (stream_close_locked i gen s)
  | StreamMaxPayload _ k => run (k (webos_adb_stream_max_payload s)) s
  | StreamGeneration i k => run (k (webos_adb_stream_generation s i)) s
  end.

(** A callback that returns a result and the new state of the services. *)
Definition call (p : prog (Z * sv)) (s : adb) : Z * adb :=
  let '((ret, x), s) := run p s in (ret, set_services x s).

(** ** Dispatch *)

Definition validate_message (m : adb_message) : Z :=
  if decide (magic m <> Z.lxor (command m) UINT32_MAX) then (- EBADMSG)%Z
  else if decide (Z.of_nat ADB_MAX_PAYLOAD < data_length m)%Z then (- EMSGSIZE)%Z
  else 0%Z.

Definition open_stream (destination : list byte) (r : Z) (prefix : list byte) (o : service_id) (s : adb) : Z * adb :=
  if negb (starts_with prefix destination) then ((- ENOENT)%Z, s)
  else
    let '(stream, s) := allocate_stream r o s in
    match stream with
    | None => send_close 0 r s
    | Some i =>
        let '(ret, s) := call (sv_open o (services s) i (drop (length prefix) destination)) s in
        if decide (ret <> 0%Z) then send_close 0 r (release_stream i s)
        else
          let st := get_stream s i in
          let '(ret, s) := send_ready (local_id st) (remote_id st) s in
          let '(ret, s) := if decide (ret = 0%Z) then flush_stream i s else (ret, s) in
          if flow_control_error ret then (0%Z, s)
          else if decide (ret <> 0%Z) then (ret, release_stream i s)
          else (0%Z, s)
    end.

(** The received payload without its last byte, when the packet is a
    well-formed OPEN. *)
Definition open_destination (s : adb) : option (list byte) :=
  let m := message (rx s) in
  match payload (rx s) with
  | Some p =>
      let n := Z.to_nat (data_length m) in
      if decide (online s = false \/ arg0 m = 0%Z \/ arg1 m <> 0%Z \/ data_length m = 0%Z
                 \/ nth (n - 1) p NUL <> NUL) then None
      else Some (take (n - 1) p)
  | None => None
  end.

(** Tries a service; continues when the prefix does not match. *)
Definition try_service (enabled : bool) (destination : list byte) (r : Z) (prefix : list byte) (o : service_id)
    (next : adb -> Z * adb) (s : adb) : Z * adb :=
  if enabled then
    let '(ret, s) := open_stream destination r prefix o s in
    if decide (ret <> (- ENOENT)%Z) then (ret, s) else next s
  else next s.

Definition handle_open (s : adb) : Z * adb :=
  let m := message (rx s) in
  match open_destination s with
  | None => ((- EBADMSG)%Z, s)
  | Some destination =>
      if decide (destination = cs "track-jdwp" \/ destination = cs "track-app") then
        let '(id, s) := allocate_local_id s in send_ready id (arg0 m) s
      else if ADB_REBOOT && starts_with (cs "reboot:") destination then
        if decide (length destination <> length (cs "reboot:")) then send_close 0 (arg0 m) s
        else
          let '(id, s) := allocate_local_id s in
          let '(ret, s) := send_ready id (arg0 m) s in
          if decide (ret = 0%Z) then
            let '(ret, e) := webos_adb_reboot_request (environment s) in (ret, set_env e s)
          else (ret, s)
      else if ADB_LOGCAT && bool_decide (length (cs "shell:") <= length destination)
              && logcat_matches (drop (length (cs "shell:")) destination) then
        open_stream destination (arg0 m) (cs "shell:") SVC_LOGCAT s
      else
        try_service ADB_SHELL destination (arg0 m) (cs "shell:") SVC_SHELL
          (try_service ADB_SYNC destination (arg0 m) (cs "sync:") SVC_SYNC
             (send_close 0 (arg0 m))) s
  end.

(** The bytes of the payload a WRTE carries. *)
Definition rx_data (s : adb) : list byte :=
  take (Z.to_nat (data_length (message (rx s)))) (default [] (payload (rx s))).

Definition handle_write (s : adb) : Z * adb :=
  let m := message (rx s) in
  match find_stream (arg1 m) (arg0 m) s with
  | None => send_close 0 (arg0 m) s
  | Some i =>
      match ops (get_stream s i) ≫= sv_write with
      | None => send_close 0 (arg0 m) s
      | Some write =>
          let '(ret, s) := call (write (services s) i (rx_data s)) s in
          if decide (ret <> 0%Z) then
            flush_stream i (log [WFail i] (put_stream i (set_flags false false true (get_stream s i)) s))
          else
            let st := get_stream s i in
            let '(ret, s) := send_ready (local_id st) (remote_id st) s in
            if decide (ret = 0%Z) then flush_stream i s else (ret, s)
      end
  end.

Definition handle_ready (s : adb) : Z * adb :=
  let m := message (rx s) in
  match find_stream (arg1 m) (arg0 m) s with
  | None => (0%Z, s)
  | Some i =>
      let st := get_stream s i in
      if negb (awaiting_ack st) then (0%Z, s)
      else
        let s := log [WAck i] (put_stream i (set_flags (tx_pending st) false (close_pending st) st) s) in
        let s := match ops st ≫= sv_tx_ready with
                 | Some tx_ready => let '(x, s) := run (tx_ready (services s) i) s in set_services x s
                 | None => s
                 end in
        if used (get_stream s i) then flush_stream i s else (0%Z, s)
  end.

Definition handle_close (s : adb) : Z * adb :=
  let m := message (rx s) in
  match find_stream (arg1 m) (arg0 m) s with
  | None => (0%Z, s)
  | Some i =>
      let st := get_stream s i in
      let '(ret, s) := send_close (local_id st) (remote_id st) s in
      (ret, release_stream i s)
  end.

(** The CNXN case of [dispatch_message]: a new session. *)
Definition handle_connect (s : adb) : Z * adb :=
  if ADB_ALLOW_NO_AUTH then
    let m := message (rx s) in
    let s := set_session (negotiated_payload s) false s in
    let s := close_all_streams s in
    let s := set_control (SlotQueue.reset (control s)) s in
    let s := set_ids 1 (next_stream_generation s) s in
    let s := if ADB_USB then set_env (webos_adb_usb_reset_tx (environment s)) s else s in
    let s := set_session (Z.min (arg1 m) (Z.of_nat ADB_MAX_PAYLOAD)) false s in
    let '(ret, s) := send_connect s in
    if decide (ret = 0%Z) then (0%Z, set_session (negotiated_payload s) true s) else (ret, s)
  else ((- EACCES)%Z, s).

Definition dispatch_message (s : adb) : Z * adb :=
  let m := message (rx s) in
  if decide (data_check m <> payload_checksum (rx s)
             /\ ~ (command m = ADB_COMMAND_CNXN /\ ADB_VERSION_NO_CHECKSUM <= arg0 m /\ data_check m = 0)%Z)
  then ((- EBADMSG)%Z, s)
  else if decide (command m = ADB_COMMAND_CNXN) then handle_connect s
  else if decide (command m = ADB_COMMAND_OPEN) then handle_open s
  else if decide (command m = ADB_COMMAND_WRTE) then handle_write s
  else if decide (command m = ADB_COMMAND_OKAY) then handle_ready s
  else if decide (command m = ADB_COMMAND_CLSE) then handle_close s
  else ((- ENOTSUP)%Z, s).

(** ** Reassembly *)

Definition decode_header (s : adb) : Z * adb :=
  let r := rx s in
  let m := decode_fields (header r) in
  let put p := set_rx (Rx (header r) p (payload_checksum r) (header_used r) (payload_used r) m) in
  let ret := validate_message m in
  if decide (ret <> 0%Z \/ data_length m = 0%Z) then (ret, put (payload r) s)
  else
    let '(ok, e) := k_malloc (environment s) (data_length m) in
    let s := set_env e s in
    if ok : bool then (0%Z, put (Some (replicate (Z.to_nat (data_length m)) x00)) s)
    else ((- ENOMEM)%Z, put None s).

(** The header part of an iteration of the receive loop: [inl] returns from
    the function, [inr] continues with the bytes left. *)
Definition receive_header (data : list byte) (s : adb) : (Z * adb) + (list byte * adb) :=
  let r := rx s in
  let count := length data `min` (WEBOS_ADB_HEADER_SIZE - header_used r) in
  let r' := Rx (write_at (header r) (header_used r) (take count data)) (payload r) (payload_checksum r)
              (header_used r + count) (payload_used r) (message r) in
  let s := set_rx r' s in
  let data := drop count data in
  if decide (header_used r' <> WEBOS_ADB_HEADER_SIZE) then inr (data, s)
  else
    let '(ret, s) := decode_header s in
    if decide (ret <> 0%Z) then inl (ret, reset_rx s)
    else if decide (data_length (message (rx s)) = 0%Z) then
      let '(ret, s) := dispatch_message s in
      let s := reset_rx s in
      if decide (ret <> 0%Z) then inl (ret, s) else inr (data, s)
    else inr (data, s).

(** The payload part. *)
Definition receive_payload (data : list byte) (s : adb) : (Z * adb) + (list byte * adb) :=
  let r := rx s in
  let n := Z.to_nat (data_length (message r)) in
  let count := length data `min` (n - payload_used r) in
  let r' := Rx (header r) ((fun p => write_at p (payload_used r) (take count data)) <$> payload r)
              (u32 (payload_checksum r + adb_checksum (take count data)))
              (header_used r) (payload_used r + count) (message r) in
  let s := set_rx r' s in
  let data := drop count data in
  if decide (payload_used r' = n) then
    let '(ret, s) := dispatch_message s in
    let s := reset_rx s in
    if decide (ret <> 0%Z) then inl (ret, s) else inr (data, s)
  else inr (data, s).

(** One iteration. A header that is still incomplete continues with the next
    iteration. *)
Definition receive_step (data : list byte) (s : adb) : (Z * adb) + (list byte * adb) :=
  let in_payload (data : list byte) (s : adb) :=
    if decide (header_used (rx s) = WEBOS_ADB_HEADER_SIZE /\ (0 < data_length (message (rx s)))%Z)
    then receive_payload data s else inr (data, s) in
  if decide (header_used (rx s) < WEBOS_ADB_HEADER_SIZE) then
    match receive_header data s with
    | inl r => inl r
    | inr (data', s') => in_payload data' s'
    end
  else in_payload data s.

(** The loop of [protocol_receive_unlocked]; every iteration takes at least
    one byte ([receive_returns]). *)
Fixpoint receive_loop (fuel : nat) (data : list byte) (s : adb) : option (Z * adb) :=
  match data with
  | [] => Some (0%Z, s)
  | _ =>
      match fuel with
      | O => None
      | Datatypes.S fuel' =>
          match receive_step data s with
          | inl r => Some r
          | inr (data', s') => receive_loop fuel' data' s'
          end
      end
  end.

Definition protocol_receive_unlocked (data : list byte) (s : adb) : option (Z * adb) :=
  receive_loop (length data) data s.

(** ** Entry points *)

(** The loop over the streams of [webos_adb_protocol_tx_ready]. *)
Fixpoint flush_loop (l : list nat) (s : adb) : adb :=
  match l with
  | [] => s
  | i :: l' =>
      let st := get_stream s i in
      if used st && (tx_pending st || close_pending st) then
        let '(ret, s) := flush_stream i s in
        if flow_control_error ret then s else flush_loop l' s
      else flush_loop l' s
  end.

Definition webos_adb_protocol_tx_ready (s : adb) : adb :=
  let '(ret, s) := if online s then pump_controls s else (0%Z, s) in
  if online s && flow_control_error ret then s
  else if online s && bool_decide (SlotQueue.qcount (control s) = 0)
  then flush_loop (seq 0 (length (streams s))) s
  else s.

Definition protocol_reset_unlocked (s : adb) : adb :=
  let s := close_all_streams (reset_rx s) in
  let s := set_ids 1 (next_stream_generation s) s in
  let s := set_control (SlotQueue.reset (control s)) s in
  set_dispatching false (set_session (Z.of_nat ADB_MAX_PAYLOAD) false s).

Definition webos_adb_protocol_reset := protocol_reset_unlocked.

Definition webos_adb_protocol_init (s : adb) : adb :=
  webos_adb_protocol_reset
    (Adb (rx s) (streams s) (control s) true (next_local_id s) (next_stream_generation s)
       (negotiated_payload s) (online s) (dispatching s) (services s) (environment s) (wire s)).

Definition webos_adb_protocol_receive (data : list byte) (s : adb) : option (Z * adb) :=
  (fun r => (r.1, set_dispatching false r.2)) <$> protocol_receive_unlocked data (set_dispatching true s).

(** The static variables as the loader initialises them. *)
Definition initial (x : sv) (e : env) : adb :=
  Adb zero_rx (replicate ADB_MAX_STREAMS zero_stream)
    (SlotQueue.Queue (replicate ADB_CONTROL_QUEUE_DEPTH (Packet 0 0 0 [])) 0 0 0)
    false 1 1 (Z.of_nat ADB_MAX_PAYLOAD) false false x e [].
End engine.
End Adb.
