(* ===== verification/AdbFraming.v ===== *)
(** * The ADB protocol engine: framing

    Packet encoding and decoding, and the reassembly loop: it terminates, it
    does not depend on how the transport splits the byte stream, and an intact
    packet is dispatched as it was sent. *)

From S2P Require Import Prelude CLib Ring AdbProtocol.
From Stdlib Require Import ZArith Lia.
From Stdlib Require Import Strings.Byte.
From stdpp Require Import base numbers list list_numbers strings countable sets.

Import Adb.

Lemma write_at_app {A} (h a b : list A) off :
  off + length a + length b <= length h ->
  write_at (write_at h off a) (off + length a) b = write_at h off (a ++ b).
Proof.
  intros H. unfold write_at at 1. rewrite take_write_at by lia.
  unfold write_at. rewrite drop_app, length_take_le by lia.
  rewrite (drop_ge (take off h)) by (rewrite length_take; lia).
  rewrite drop_app. rewrite (drop_ge a) by lia. rewrite drop_drop, length_app, <- !app_assoc. simpl.
  do 4 f_equal. lia.
Qed.

Section framing.
Context {cfg : AdbConfig} {E : AdbEnv} {S : AdbServices}.
Implicit Types (s : adb) (data a b : list byte).

(** ** Checksums *)

Definition bsum a : Z := foldr (fun c z => bval c + z)%Z 0%Z a.

Lemma checksum_bsum a : adb_checksum a = u32 (bsum a).
Proof.
  assert (forall n, foldl (fun sum c => u32 (sum + bval c)) (u32 n) a = u32 (n + bsum a)) as H.
  { induction a as [|x a IH]; intros n; simpl; [by rewrite Z.add_0_r|].
    rewrite u32_add_l, IH. f_equal. lia. }
  apply (H 0%Z).
Qed.

Lemma checksum_app a b : adb_checksum (a ++ b) = u32 (adb_checksum a + adb_checksum b).
Proof.
  assert (bsum (a ++ b) = bsum a + bsum b)%Z as Hb by (induction a; simpl; lia).
  rewrite !checksum_bsum, Hb, u32_add_l. rewrite (Z.add_comm (bsum a) (u32 _)), u32_add_l. f_equal. lia.
Qed.

Lemma checksum_range a : (0 <= adb_checksum a < 2 ^ 32)%Z.
Proof. rewrite checksum_bsum. apply u32_range. Qed.

(** ** Headers *)

Lemma length_encode c (a0 a1 : Z) pl : length (encode_message c a0 a1 pl) = WEBOS_ADB_HEADER_SIZE.
Proof. done. Qed.

Lemma lxor_range c : (0 <= c < 2 ^ 32)%Z -> (0 <= Z.lxor c UINT32_MAX < 2 ^ 32)%Z.
Proof.
  intros Hc. assert (0 <= Z.lxor c UINT32_MAX)%Z by (apply Z.lxor_nonneg; unfold UINT32_MAX; lia).
  split; [done|]. destruct (decide (Z.lxor c UINT32_MAX = 0)%Z) as [->|Hne]; [lia|].
  apply Z.log2_lt_pow2; [lia|]. eapply Z.le_lt_trans; [apply Z.log2_lxor; unfold UINT32_MAX; lia|].
  apply Z.max_lub_lt; [|done]. destruct (decide (c = 0)%Z) as [->|]; [done|]. apply Z.log2_lt_pow2; lia.
Qed.

Lemma decode_encode c (a0 a1 : Z) pl rest :
  (0 <= c < 2 ^ 32)%Z -> (0 <= a0 < 2 ^ 32)%Z -> (0 <= a1 < 2 ^ 32)%Z -> (Z.of_nat (length pl) < 2 ^ 32)%Z ->
  decode_fields (encode_message c a0 a1 pl ++ rest)
  = Message c a0 a1 (Z.of_nat (length pl)) (adb_checksum pl) (Z.lxor c UINT32_MAX).
Proof.
  intros Hc H0 H1 Hl. unfold decode_fields, encode_message. rewrite <- !app_assoc.
  assert (forall v k, drop 4 (put_le32 v ++ k) = k) as H4 by done.
  assert (forall v w k, drop 8 (put_le32 v ++ put_le32 w ++ k) = k) as H8 by done.
  assert (forall v w x k, drop 12 (put_le32 v ++ put_le32 w ++ put_le32 x ++ k) = k) as H12 by done.
  assert (forall v w x y k, drop 16 (put_le32 v ++ put_le32 w ++ put_le32 x ++ put_le32 y ++ k) = k) as H16 by done.
  assert (forall v w x y z k, drop 20 (put_le32 v ++ put_le32 w ++ put_le32 x ++ put_le32 y ++ put_le32 z ++ k) = k) as H20 by done.
  rewrite H20, H16, H12, H8, H4, !get_put_le32.
  by rewrite !u32_small by first [by apply lxor_range|apply checksum_range|lia].
Qed.

Lemma validate_decoded m :
  validate_message m = 0%Z <-> magic m = Z.lxor (command m) UINT32_MAX /\ (data_length m <= Z.of_nat ADB_MAX_PAYLOAD)%Z.
Proof.
  unfold validate_message. case_decide as H1; [split; [done|naive_solver]|].
  case_decide; [split; [done|lia]|]. split; [intros _; split; [done|lia]|done].
Qed.

(** ** Reassembly *)

(** Between packets nothing of the last one is left; inside a packet the
    header is decoded and valid and the payload is incomplete. *)
Definition rx_ok (r : adb_rx_state) : Prop :=
  length (header r) = WEBOS_ADB_HEADER_SIZE
  /\ ((header_used r < WEBOS_ADB_HEADER_SIZE /\ payload r = None /\ payload_used r = 0
       /\ payload_checksum r = 0%Z /\ message r = zero_message)
      \/ (header_used r = WEBOS_ADB_HEADER_SIZE /\ message r = decode_fields (header r)
          /\ validate_message (message r) = 0%Z /\ (0 < data_length (message r))%Z
          /\ exists p, payload r = Some p /\ length p = Z.to_nat (data_length (message r))
               /\ payload_used r < length p /\ payload_checksum r = adb_checksum (take (payload_used r) p))).

Lemma rx_ok_zero : rx_ok zero_rx.
Proof. split; [done|]. left. unfold WEBOS_ADB_HEADER_SIZE. simpl. split_and!; try done. lia. Qed.

(** What [decode_header] leaves behind when it succeeds. *)
Lemma decode_header_ok s s' :
  rx_ok (rx s) \/ (length (header (rx s)) = WEBOS_ADB_HEADER_SIZE /\ payload (rx s) = None
                   /\ payload_used (rx s) = 0 /\ payload_checksum (rx s) = 0%Z) ->
  header_used (rx s) = WEBOS_ADB_HEADER_SIZE -> payload (rx s) = None ->
  decode_header s = (0%Z, s') ->
  header_used (rx s') = WEBOS_ADB_HEADER_SIZE
  /\ (data_length (message (rx s')) <> 0%Z -> rx_ok (rx s') /\ payload_used (rx s') = 0).
Proof.
  intros Hr Hu Hp. assert (length (header (rx s)) = WEBOS_ADB_HEADER_SIZE /\ payload_used (rx s) = 0
    /\ payload_checksum (rx s) = 0%Z) as (Hl & Hpu & Hck).
  { destruct Hr as [[? [?|(_ & _ & _ & _ & p & ? & _)]]|?]; naive_solver. }
  unfold decode_header. set (m := decode_fields (header (rx s))) in *. case_decide as Hd.
  - intros [= Hv <-]. simpl. split; [done|]. intros Hne. exfalso. rewrite Hv in Hd. naive_solver.
  - destruct (k_malloc (environment s) _) as [[] e]; [|done]. intros [= <-]. simpl. split; [done|]. intros Hne.
    split; [|done]. split; [done|]. right. simpl.
    assert (0 < get_le32 (drop 12 (header (rx s))))%Z as Hpos.
    { pose proof (get_le32_range (drop 12 (header (rx s)))). simpl in Hne. lia. }
    split_and!; try done; [apply dec_stable; naive_solver|].
    eexists. split; [done|]. rewrite length_replicate, Hpu, Hck. split_and!; [done|lia|done].
Qed.

(** Every iteration takes at least one byte and keeps the receiver consistent. *)
Lemma receive_payload_progress data s data' s' :
  data <> [] -> rx_ok (rx s) -> header_used (rx s) = WEBOS_ADB_HEADER_SIZE ->
  receive_payload data s = inr (data', s') -> rx_ok (rx s') /\ length data' < length data.
Proof.
  intros Hne [Hl [[? _]|(Hu & Hm & Hv & Hpos & p & Hp & Hlp & Hpu & Hck)]] Hu'; [lia|].
  assert (0 < length data) as Hlen by (destruct data; [done|simpl; lia]).
  unfold receive_payload. rewrite Hp. cbn [fmap option_fmap option_map].
  set (n := Z.to_nat (data_length (message (rx s)))) in *.
  set (count := length data `min` (n - payload_used (rx s))). cbn zeta.
  case_decide as Hd.
  - destruct (dispatch_message _) as [ret s1]. case_decide; [done|]. intros [= <- <-].
    split; [apply rx_ok_zero|]. rewrite length_drop. lia.
  - intros [= <- <-]. rewrite length_drop. split; [|lia]. simpl in Hd.
    split; [done|]. right. simpl. split_and!; try done. eexists. split; [done|].
    rewrite length_write_at by (rewrite length_take; lia).
    split_and!; [lia|lia|]. rewrite Hck, <- checksum_app. f_equal.
    replace count with (length (take count data)) at 2 by (rewrite length_take; lia).
    rewrite take_write_at by lia. done.
Qed.

Lemma receive_header_progress data s data' s' :
  data <> [] -> rx_ok (rx s) -> header_used (rx s) < WEBOS_ADB_HEADER_SIZE ->
  receive_header data s = inr (data', s') ->
  rx_ok (rx s') /\ length data' < length data
  /\ (header_used (rx s') < WEBOS_ADB_HEADER_SIZE -> data' = [] \/ rx s' = zero_rx).
Proof.
  intros Hne [Hl [(Hu & Hp & Hpu & Hck & Hm)|[? _]]] Hu'; [|lia].
  assert (0 < length data) as Hlen by (destruct data; [done|simpl; lia]).
  unfold receive_header. set (count := length data `min` (WEBOS_ADB_HEADER_SIZE - header_used (rx s))). cbn zeta.
  assert (length (write_at (header (rx s)) (header_used (rx s)) (take count data)) = WEBOS_ADB_HEADER_SIZE) as Hlw.
  { rewrite length_write_at; [done|]. rewrite length_take. lia. }
  assert (length (drop count data) < length data) as Hdr by (rewrite length_drop; lia).
  case_decide as Hd.
  - intros [= <- <-]. simpl in *. split_and!; [|done|].
    + split; [done|]. left. simpl. split_and!; try done. lia.
    + intros _. left. apply drop_ge. lia.
  - destruct (decode_header _) as [ret s1] eqn:Ed. destruct (decide (ret <> 0%Z)) as [|Hret]; [done|].
    apply dec_stable in Hret. subst ret.
    apply decode_header_ok in Ed as [Hu1 Hok]; [|right; simpl; done|done|done].
    case_decide as Hz.
    + destruct (dispatch_message _) as [ret s2]. case_decide; [done|]. intros [= <- <-].
      split_and!; [apply rx_ok_zero|done|]. intros _. by right.
    + intros [= <- <-]. destruct (Hok Hz). split_and!; try done. lia.
Qed.

Lemma receive_step_progress data s data' s' :
  data <> [] -> rx_ok (rx s) -> receive_step data s = inr (data', s') ->
  rx_ok (rx s') /\ length data' < length data.
Proof.
  intros Hne Hok. unfold receive_step. case_decide as Hu.
  - destruct (receive_header data s) as [r|[d1 s1]] eqn:Eh; [done|].
    destruct (receive_header_progress data s d1 s1 Hne Hok Hu Eh) as (Hok1 & Hlt & _).
    case_decide as Hp; [|by intros [= <- <-]; split].
    destruct (decide (d1 = [])) as [->|Hd1].
    + unfold receive_payload. cbn zeta. rewrite Nat.min_0_l. destruct Hp as [Hu1 Hpos].
      destruct Hok1 as [Hl [[? _]|(_ & Hm & Hv & _ & p & Hp & Hlp & Hpu & Hck)]]; [lia|].
      rewrite decide_False by (simpl; lia). intros [= <- <-]. split; [|done]. simpl. rewrite Hp. simpl.
      rewrite write_at_nil, Nat.add_0_r, Z.add_0_r. split; [done|]. right. simpl.
      split_and!; try done. exists p. split_and!; try done. rewrite Hck, u32_small; [done|apply checksum_range].
    + intros Hpl. destruct Hp as [Hu1 _].
      destruct (receive_payload_progress d1 s1 data' s' Hd1 Hok1 Hu1 Hpl). split; [done|lia].
  - assert (header_used (rx s) = WEBOS_ADB_HEADER_SIZE /\ (0 < data_length (message (rx s)))%Z) as Hh.
    { destruct Hok as [_ [[? _]|(? & _ & _ & ? & _)]]; [lia|done]. }
    rewrite decide_True by done. destruct Hh as [Hh _]. by apply receive_payload_progress.
Qed.

(** A return from the middle of the loop is an error and resets the receiver. *)
Lemma receive_payload_inl data s r : receive_payload data s = inl r -> rx r.2 = zero_rx /\ r.1 <> 0%Z.
Proof.
  unfold receive_payload. cbn zeta. case_decide; [|done]. destruct (dispatch_message _) as [ret s1].
  case_decide; [|done]. by intros [= <-].
Qed.

Lemma receive_step_inl data s r : receive_step data s = inl r -> rx r.2 = zero_rx /\ r.1 <> 0%Z.
Proof.
  unfold receive_step. case_decide.
  - destruct (receive_header data s) as [r'|[d1 s1]] eqn:Eh.
    + intros [= <-]. revert Eh. unfold receive_header. cbn zeta. case_decide; [done|].
      destruct (decode_header _) as [ret s1]. case_decide; [by intros [= <-]|]. case_decide; [|done].
      destruct (dispatch_message _) as [ret' s2]. case_decide; [|done]. by intros [= <-].
    + case_decide; [|done]. apply receive_payload_inl.
  - case_decide; [|done]. apply receive_payload_inl.
Qed.

(** The loop returns, and any sufficient fuel gives the same result. *)
Lemma receive_loop_fuel fuel data s :
  length data <= fuel -> rx_ok (rx s) ->
  exists r, receive_loop fuel data s = Some r
    /\ (forall fuel', length data <= fuel' -> receive_loop fuel' data s = Some r)
    /\ rx_ok (rx r.2).
Proof.
  revert data s. induction fuel as [|fuel IH]; intros data s Hf Hok.
  - destruct data; [|simpl in Hf; lia]. exists (0%Z, s). split_and!; [done|by intros []|done].
  - destruct data as [|x data]; [exists (0%Z, s); split_and!; [done|by intros []|done]|].
    assert (x :: data <> []) as Hne by done. revert Hne Hf. generalize (x :: data). intros d Hne Hf.
    destruct (receive_step d s) as [r|[d' s']] eqn:Es.
    + assert (forall k, length d <= k -> receive_loop k d s = Some r) as H.
      { intros [|k] Hk; [destruct d; [done|simpl in Hk; lia]|]. destruct d; [done|]. cbn [receive_loop]. by rewrite Es. }
      exists r. split_and!; [by apply H|done|]. apply receive_step_inl in Es as [-> _]. apply rx_ok_zero.
    + destruct (receive_step_progress d s d' s' Hne Hok Es) as [Hok' Hlt].
      destruct (IH d' s' ltac:(lia) Hok') as (r & Hr & Hall & H0).
      assert (forall k, length d <= k -> receive_loop k d s = Some r) as H.
      { intros [|k] Hk; [destruct d; [done|simpl in Hk; lia]|]. destruct d as [|y d]; [done|]. cbn [receive_loop].
        rewrite Es. apply Hall. simpl in *. lia. }
      exists r. split_and!; [by apply H|done|done].
Qed.

(** *** Splitting the input *)

Lemma take_drop_app_min data b n :
  n <= length data -> take n (data ++ b) = take n data /\ drop n (data ++ b) = drop n data ++ b.
Proof. intros H. split; [by apply take_app_le|by apply drop_app_le]. Qed.

(** A piece of payload, then the rest. *)
Lemma receive_payload_app a b s p :
  payload (rx s) = Some p -> length p = Z.to_nat (data_length (message (rx s))) ->
  payload_used (rx s) < length p ->
  match receive_payload a s with
  | inl r => receive_payload (a ++ b) s = inl r
  | inr (a', s') =>
      receive_payload (a ++ b) s = inr (a' ++ b, s')
      \/ (a' = [] /\ rx s' = Rx (header (rx s)) (payload (rx s')) (payload_checksum (rx s')) (header_used (rx s))
                       (payload_used (rx s')) (message (rx s))
          /\ receive_payload (a ++ b) s = receive_payload b s')
  end.
Proof.
  intros Hp Hlp Hpu. unfold receive_payload. rewrite Hp. cbn [fmap option_fmap option_map]. cbn zeta.
  set (n := Z.to_nat (data_length (message (rx s)))) in *. set (u := payload_used (rx s)) in *.
  destruct (decide (length a < n - u)) as [Hlt|Hge].
  - (* the piece does not complete the payload *)
    rewrite (Nat.min_l (length a)) by lia. rewrite (decide_False (P := _ = n)) by (simpl; lia).
    right. split_and!; [by apply drop_ge|done|]. cbn [rx set_rx payload payload_used message header header_used payload_checksum].
    fold n. cbn [fmap option_fmap option_map]. set (cb := length b `min` (n - (u + length a))).
    assert (length (a ++ b) `min` (n - u) = length a + cb) as -> by (rewrite length_app; lia).
    rewrite take_app_add, drop_app_add, (take_ge a) by done.
    rewrite <- (write_at_app p a (take cb b) u) by (rewrite length_take; lia).
    rewrite checksum_app. rewrite Z.add_comm, u32_add_l.
    replace (adb_checksum a + adb_checksum (take cb b) + payload_checksum (rx s))%Z
      with (payload_checksum (rx s) + adb_checksum a + adb_checksum (take cb b))%Z by lia.
    rewrite u32_add_l, Nat.add_assoc. done.
  - rewrite (Nat.min_r (length a)), (Nat.min_r (length (a ++ b))) by (rewrite ?length_app; lia).
    destruct (take_drop_app_min a b (n - u)) as [-> ->]; [lia|].
    rewrite !(decide_True (P := _ = n)) by (simpl; lia).
    destruct (dispatch_message _) as [ret s1]. case_decide; [done|]. by left.
Qed.

(** A piece of header, then the rest. *)
Lemma receive_header_app a b s :
  length (header (rx s)) = WEBOS_ADB_HEADER_SIZE -> header_used (rx s) < WEBOS_ADB_HEADER_SIZE ->
  match receive_header a s with
  | inl r => receive_header (a ++ b) s = inl r
  | inr (a', s') =>
      receive_header (a ++ b) s = inr (a' ++ b, s')
      \/ (a' = [] /\ header_used (rx s') < WEBOS_ADB_HEADER_SIZE
          /\ receive_header (a ++ b) s = receive_header b s')
  end.
Proof.
  intros Hl Hu. unfold receive_header. cbn zeta. set (u := header_used (rx s)) in *.
  destruct (decide (length a < WEBOS_ADB_HEADER_SIZE - u)) as [Hlt|Hge].
  - rewrite (Nat.min_l (length a)) by lia. rewrite (decide_True (P := _ <> WEBOS_ADB_HEADER_SIZE)) by (simpl; lia).
    right. split_and!; [by apply drop_ge|simpl; lia|].
    cbn [rx set_rx payload payload_used message header header_used payload_checksum].
    set (cb := length b `min` (WEBOS_ADB_HEADER_SIZE - (u + length a))).
    assert (length (a ++ b) `min` (WEBOS_ADB_HEADER_SIZE - u) = length a + cb) as -> by (rewrite length_app; lia).
    rewrite take_app_add, drop_app_add, (take_ge a) by done.
    rewrite <- (write_at_app (header (rx s)) a (take cb b) u) by (rewrite length_take; lia).
    rewrite Nat.add_assoc. done.
  - rewrite (Nat.min_r (length a)), (Nat.min_r (length (a ++ b))) by (rewrite ?length_app; lia).
    destruct (take_drop_app_min a b (WEBOS_ADB_HEADER_SIZE - u)) as [-> ->]; [lia|].
    rewrite !(decide_False (P := _ <> WEBOS_ADB_HEADER_SIZE)) by (simpl; lia).
    destruct (decode_header _) as [ret s1]. case_decide; [done|]. case_decide; [|by left].
    destruct (dispatch_message _) as [ret' s2]. case_decide; [done|]. by left.
Qed.

(** The two kinds of iteration. *)
Lemma receive_step_header data s :
  header_used (rx s) < WEBOS_ADB_HEADER_SIZE ->
  receive_step data s
  = match receive_header data s with
    | inl r => inl r
    | inr (d, s') =>
        if decide (header_used (rx s') = WEBOS_ADB_HEADER_SIZE /\ (0 < data_length (message (rx s')))%Z)
        then receive_payload d s' else inr (d, s')
    end.
Proof. intros H. unfold receive_step. by rewrite decide_True. Qed.

Lemma receive_step_payload data s :
  header_used (rx s) = WEBOS_ADB_HEADER_SIZE -> (0 < data_length (message (rx s)))%Z ->
  receive_step data s = receive_payload data s.
Proof. intros H H'. unfold receive_step. rewrite decide_False by lia. by rewrite decide_True. Qed.

Lemma receive_step_app a b s :
  a <> [] -> rx_ok (rx s) ->
  match receive_step a s with
  | inl r => receive_step (a ++ b) s = inl r
  | inr (a', s') =>
      receive_step (a ++ b) s = inr (a' ++ b, s') \/ (a' = [] /\ receive_step (a ++ b) s = receive_step b s')
  end.
Proof.
  intros Ha Hok.
  assert (forall a s, rx_ok (rx s) -> header_used (rx s) = WEBOS_ADB_HEADER_SIZE -> (0 < data_length (message (rx s)))%Z ->
    match receive_payload a s with
    | inl r => receive_payload (a ++ b) s = inl r
    | inr (a', s') =>
        receive_payload (a ++ b) s = inr (a' ++ b, s') \/ (a' = [] /\ receive_payload (a ++ b) s = receive_step b s')
    end) as Hpay.
  { clear. intros a s Hok Hu Hpos. destruct Hok as [Hl [[? _]|(_ & _ & _ & _ & p & Hp & Hlp & Hpu & _)]]; [lia|].
    pose proof (receive_payload_app a b s p Hp Hlp Hpu) as H.
    destruct (receive_payload a s) as [r|[a' s']]; [done|]. destruct H as [H|(Ha' & Hrx & H)]; [by left|]. right.
    split; [done|]. rewrite H.
    assert (header_used (rx s') = WEBOS_ADB_HEADER_SIZE /\ (0 < data_length (message (rx s')))%Z) as Hs'
      by (rewrite Hrx; done).
    destruct Hs'. by rewrite receive_step_payload. }
  destruct (decide (header_used (rx s) < WEBOS_ADB_HEADER_SIZE)) as [Hu|Hu].
  - rewrite !(receive_step_header _ s Hu). pose proof (receive_header_app a b s (proj1 Hok) Hu) as Hh.
    destruct (receive_header a s) as [r|[a1 s1]] eqn:Ea; [by rewrite Hh|].
    destruct (receive_header_progress a s a1 s1 Ha Hok Hu Ea) as (Hok1 & _ & _).
    destruct Hh as [Hh|(-> & Hu1 & Hh)]; rewrite Hh.
    + case_decide as Hp; [|by left]. destruct Hp as [Hu1 Hpos]. by apply Hpay.
    + rewrite decide_False by lia. right. split; [done|]. by rewrite (receive_step_header b s1 Hu1).
  - assert (header_used (rx s) = WEBOS_ADB_HEADER_SIZE /\ (0 < data_length (message (rx s)))%Z) as [Hh Hpos].
    { destruct Hok as [_ [[? _]|(? & _ & _ & ? & _)]]; [lia|done]. }
    rewrite !(receive_step_payload _ s Hh Hpos). by apply Hpay.
Qed.

Lemma receive_loop_unfold fuel data s :
  data <> [] -> receive_loop (Datatypes.S fuel) data s
  = match receive_step data s with inl r => Some r | inr (d, s') => receive_loop fuel d s' end.
Proof. by destruct data. Qed.

(** The loop on a concatenation. *)
Lemma receive_loop_app fuel a b s :
  length a <= fuel -> rx_ok (rx s) ->
  receive_loop (length (a ++ b)) (a ++ b) s
  = match receive_loop fuel a s with
    | Some (ret, s') => if decide (ret = 0%Z) then receive_loop (length b) b s' else Some (ret, s')
    | None => None
    end.
Proof.
  revert a s. induction fuel as [|fuel IH]; intros a s Hf Hok.
  { destruct a; [done|simpl in Hf; lia]. }
  destruct (decide (a = [])) as [->|Ha]; [done|].
  assert (a ++ b <> []) as Hab by (by destruct a).
  rewrite (receive_loop_unfold fuel a s Ha). pose proof (receive_step_app a b s Ha Hok) as Hs.
  assert (0 < length a) as Hla by (destruct a; [done|simpl; lia]).
  assert (length (a ++ b) = Datatypes.S (length (a ++ b) - 1)) as Hlen by (rewrite length_app; lia).
  rewrite Hlen at 1. rewrite receive_loop_unfold by done.
  destruct (receive_step a s) as [r|[a' s']] eqn:Ea.
  - rewrite Hs. destruct r as [ret s1]. destruct (receive_step_inl a s _ Ea) as [_ Hr]. by rewrite decide_False.
  - destruct (receive_step_progress a s a' s' Ha Hok Ea) as [Hok' Hlt].
    destruct Hs as [->|[-> Hs]].
    + rewrite <- IH by (done || lia).
      destruct (receive_loop_fuel (length (a' ++ b)) (a' ++ b) s') as (r & -> & Hall & _); [done..|].
      apply Hall. rewrite !length_app in *. lia.
    + destruct (decide (b = [])) as [->|Hb].
      * rewrite !app_nil_r, Ea. destruct fuel; simpl; by destruct (length a - 1).
      * assert (receive_loop fuel [] s' = Some (0%Z, s')) as -> by (by destruct fuel).
        rewrite decide_True by done. rewrite Hs.
        destruct (receive_loop_fuel (length b) b s') as (r & -> & Hall & _); [done..|].
        assert (Hk : length b <= length (a ++ b)) by (rewrite length_app; lia).
        specialize (Hall _ Hk). rewrite Hlen, receive_loop_unfold in Hall by done. exact Hall.
Qed.

(** ** An intact packet *)

(** The state the dispatcher sees for a packet. *)
Definition arrived (c a0 a1 : Z) (pl : list byte) (e : env) s : adb :=
  set_rx (Rx (encode_message c a0 a1 pl) (match pl with [] => None | _ => Some pl end) (adb_checksum pl)
            WEBOS_ADB_HEADER_SIZE (length pl)
            (Message c a0 a1 (Z.of_nat (length pl)) (adb_checksum pl) (Z.lxor c UINT32_MAX)))
    (set_env e s).

Lemma write_at_all {A} (h a : list A) : length a = length h -> write_at h 0 a = a.
Proof. intros H. unfold write_at. simpl. rewrite drop_ge by lia. apply app_nil_r. Qed.

(** The header of a packet, completed. *)
Lemma receive_whole_header c (a0 a1 : Z) pl rest s :
  rx s = zero_rx -> (0 <= c < 2 ^ 32)%Z -> (0 <= a0 < 2 ^ 32)%Z -> (0 <= a1 < 2 ^ 32)%Z ->
  length pl <= ADB_MAX_PAYLOAD ->
  receive_header (encode_message c a0 a1 pl ++ rest) s
  = let m := Message c a0 a1 (Z.of_nat (length pl)) (adb_checksum pl) (Z.lxor c UINT32_MAX) in
    let put p e := set_rx (Rx (encode_message c a0 a1 pl) p 0 WEBOS_ADB_HEADER_SIZE 0 m) (set_env e s) in
    if decide (pl = []) then
      let '(ret, s') := dispatch_message (put None (environment s)) in
      if decide (ret <> 0%Z) then inl (ret, reset_rx s') else inr (rest, reset_rx s')
    else
      let '(ok, e) := k_malloc (environment s) (Z.of_nat (length pl)) in
      if ok : bool then inr (rest, put (Some (replicate (length pl) x00)) e)
      else inl ((- ENOMEM)%Z, reset_rx (set_env e s)).
Proof.
  intros Hrx Hc H0 H1 Hl. pose proof range_max_payload as Hm. unfold receive_header. rewrite Hrx. cbn zeta.
  cbn [header header_used payload payload_used payload_checksum message zero_rx].
  rewrite length_app, length_encode, Nat.sub_0_r, Nat.min_r, Nat.add_0_l by lia.
  rewrite take_app_length', drop_app_length' by done. rewrite write_at_all by done.
  rewrite decide_False by (simpl; naive_solver). unfold decode_header. cbn [rx set_rx header].
  pose proof (decode_encode c a0 a1 pl [] Hc H0 H1 ltac:(lia)) as Hd. rewrite app_nil_r in Hd. rewrite Hd.
  rewrite (proj2 (validate_decoded _)) by (split; [done|cbn [data_length]; lia]).
  cbn [data_length payload payload_checksum header_used payload_used environment set_rx].
  destruct (decide (pl = [])) as [->|Hne].
  - rewrite decide_True by (right; done). rewrite decide_False by naive_solver.
    rewrite decide_True by done. destruct s; simpl in *. done.
  - assert (0 < length pl) by (destruct pl; [done|simpl; lia]). rewrite decide_False by (intros [?|?]; [done|lia]).
    destruct (k_malloc _ _) as [[] e].
    + rewrite decide_False by naive_solver. rewrite decide_False by (simpl; lia). by rewrite Nat2Z.id.
    + rewrite decide_True by done. done.
Qed.

(** A whole packet is dispatched exactly once, as it was sent. *)
Lemma receive_packet c (a0 a1 : Z) pl s e :
  rx s = zero_rx -> (0 <= c < 2 ^ 32)%Z -> (0 <= a0 < 2 ^ 32)%Z -> (0 <= a1 < 2 ^ 32)%Z ->
  length pl <= ADB_MAX_PAYLOAD ->
  (pl = [] /\ e = environment s \/ pl <> [] /\ k_malloc (environment s) (Z.of_nat (length pl)) = (true, e)) ->
  protocol_receive_unlocked (encode_message c a0 a1 pl ++ pl) s
  = let '(ret, s') := dispatch_message (arrived c a0 a1 pl e s) in Some (ret, reset_rx s').
Proof.
  intros Hrx Hc H0 H1 Hl He. unfold protocol_receive_unlocked.
  assert (encode_message c a0 a1 pl ++ pl <> []) as Hne by done.
  assert (length (encode_message c a0 a1 pl ++ pl) = Datatypes.S (23 + length pl)) as Hlen
    by (rewrite length_app, length_encode; unfold WEBOS_ADB_HEADER_SIZE; lia).
  rewrite Hlen, receive_loop_unfold by done.
  rewrite receive_step_header by (rewrite Hrx; unfold WEBOS_ADB_HEADER_SIZE; simpl; lia).
  rewrite receive_whole_header by done. cbn zeta. unfold arrived.
  destruct He as [[-> ->]|[Hpl He]].
  - rewrite decide_True by done. simpl length. cbn [adb_checksum foldl]. destruct (dispatch_message _) as [ret s'].
    destruct (decide (ret <> 0%Z)) as [|Hr]; [done|]. apply dec_stable in Hr. subst ret.
    by rewrite decide_False by (simpl; intros [? _]; done).
  - rewrite decide_False by done. rewrite He.
    assert (0 < length pl) by (destruct pl; [done|simpl; lia]). rewrite decide_True by (simpl; split; [done|lia]).
    unfold receive_payload. cbn [rx set_rx payload payload_used message header header_used payload_checksum data_length].
    cbn zeta. rewrite Nat2Z.id, Nat.sub_0_r, Nat.min_id, take_ge, drop_ge by done.
    cbn [fmap option_fmap option_map]. rewrite write_at_all by (by rewrite length_replicate).
    rewrite Z.add_0_l, u32_small by apply checksum_range. rewrite decide_True by done.
    destruct pl as [|x pl]; [done|]. cbn [Nat.add]. destruct (dispatch_message _) as [ret s'].
    destruct (decide (ret <> 0%Z)) as [|Hr]; [done|]. apply dec_stable in Hr. by subst ret.
Qed.
End framing.
