(* ===== verification/AdbInvariant.v ===== *)
(** * The ADB protocol engine: invariants

    The invariant of the engine, preserved by every operation for every
    transport and every implementation of the services: buffers stay within
    their bounds, unused stream slots are zeroed, the control queue is a
    bounded FIFO, a stream never has a packet in flight and another one ready
    to follow it, and what the transport accepts is what was requested, in
    order. *)

From S2P Require Import Prelude CLib Ring AdbProtocol AdbFraming.
From Stdlib Require Import ZArith Lia.
From Stdlib Require Import Strings.Byte.
From stdpp Require Import base numbers list list_numbers strings countable sets.

Import Adb.

Section invariant.
Context {cfg : AdbConfig} {E : AdbEnv} {S : AdbServices}.
Implicit Types (s : adb) (st : webos_adb_stream) (i : nat).

(** ** The output *)

Definition packet_of (e : wire_event) : option packet :=
  match e with WControl p => Some p | WData _ p => Some p | WAck _ | WDrop _ | WFail _ => None end.

(** The packets the transport accepted, and those followed by the queue. *)
Definition sent s : list packet := omap packet_of (wire s).
Definition out s : list packet := sent s ++ SlotQueue.qview (control s).

(** Whether a packet of slot [i] is in flight; [None] if a second one was sent
    before the first was acknowledged, released with its slot, or given up
    because a write of the service failed. *)
Definition flight_step i (b : option bool) (e : wire_event) : option bool :=
  match b, e with
  | None, _ => None
  | Some f, WData j _ => if decide (j = i) then (if f : bool then None else Some true) else Some f
  | Some f, WAck j => if decide (j = i) then Some false else Some f
  | Some f, (WDrop j | WFail j) => if decide (j = i) then Some false else Some f
  | Some f, WControl _ => Some f
  end.
Definition flight i (l : list wire_event) : option bool := foldl (flight_step i) (Some false) l.

Lemma flight_app i l k : flight i (l ++ k) = foldl (flight_step i) (flight i l) k.
Proof. unfold flight. apply foldl_app. Qed.

(** The services accept every packet the peer writes to them. *)
Definition writes_succeed : Prop :=
  forall o w x i data s, sv_write o = Some w -> (call (w x i data) s).1 = 0%Z.

Definition is_failure (e : wire_event) : bool := match e with WFail _ => true | _ => false end.

(** ** The invariant *)

Record stream_ok st : Prop := {
  st_data : length (tx_data st) = ADB_TX_PAYLOAD_SIZE;
  st_len : tx_len st <= ADB_TX_PAYLOAD_SIZE;
  st_unused : used st = false -> st = zero_stream;
  st_alone : tx_pending st && awaiting_ack st = false;
}.

Record core s : Prop := {
  c_count : length (streams s) = ADB_MAX_STREAMS;
  c_streams : forall i st, streams s !! i = Some st -> stream_ok st;
  c_flight : forall i st, streams s !! i = Some st -> flight i (wire s) = Some (awaiting_ack st);
  c_failures : writes_succeed -> Forall (fun e => is_failure e = false) (wire s);
  c_queue : SlotQueue.qwf (control s);
  c_depth : SlotQueue.qcap (control s) = ADB_CONTROL_QUEUE_DEPTH;
  c_bounded : Forall (fun p => length (p_payload p) <= ADB_CONTROL_PAYLOAD_SIZE) (SlotQueue.qview (control s));
  c_payload : (0 <= negotiated_payload s <= Z.of_nat ADB_MAX_PAYLOAD)%Z;
}.

(** Streams exist only in a session. *)
Definition session s : Prop := forall i st, streams s !! i = Some st -> used st = true -> online s = true.

Lemma session_eq s s' : streams s' = streams s -> online s' = online s -> session s -> session s'.
Proof. unfold session. by intros -> ->. Qed.

(** What the operations below the dispatcher guarantee. *)
Record good s s' : Prop := {
  g_core : core s';
  g_rx : rx s' = rx s;
  g_dispatching : dispatching s' = dispatching s;
  g_online : online s' = online s;
  g_connected : connected s' = connected s;
  g_payload : negotiated_payload s' = negotiated_payload s;
  g_session : session s -> session s';
  g_out : out s `prefix_of` out s';
  g_wire : wire s `prefix_of` wire s';
}.

(** An operation is good on every state that satisfies the invariant. *)
Definition keeps (f : adb -> adb) : Prop := forall s, core s -> good s (f s).

Lemma good_refl s : core s -> good s s.
Proof. intros H. split; done. Qed.

Lemma good_trans s1 s2 s3 : good s1 s2 -> good s2 s3 -> good s1 s3.
Proof.
  intros [] []. split; [done|congruence..|auto|by etrans|by etrans].
Qed.

(** Stores that none of this sees. *)
Lemma good_services x s : core s -> good s (set_services x s).
Proof. intros []. split; done. Qed.

Lemma good_env x s : core s -> good s (set_env x s).
Proof. intros []. split; done. Qed.

Lemma good_ids l g s : core s -> good s (set_ids l g s).
Proof. intros []. split; done. Qed.

(** ** Sending *)

(** A control packet is sent when the queue is empty; it joins the output. *)
Lemma send_raw_control c (a0 a1 : Z) pl s ret s' :
  core s -> send_packet_raw WControl c a0 a1 pl s = (ret, s') ->
  core s' /\ rx s' = rx s /\ dispatching s' = dispatching s /\ online s' = online s
  /\ connected s' = connected s /\ negotiated_payload s' = negotiated_payload s
  /\ streams s' = streams s /\ control s' = control s /\ wire s `prefix_of` wire s'
  /\ sent s' = sent s ++ (if decide (ret = 0%Z) then [Packet c a0 a1 pl] else []).
Proof.
  intros Hc. unfold send_packet_raw. destruct (connected s) eqn:Ec.
  2: { intros [= <- <-]. rewrite decide_False by done. rewrite app_nil_r. split_and!; done. }
  destruct (transport_send _ _ _) as [r e]. intros [= <- <-]. split_and!; try done.
  - destruct Hc. split; try done; simpl.
    + intros i st Hi. rewrite flight_app, (c_flight0 i st Hi). by case_decide.
    + intros Hw. apply Forall_app. split; [by auto|]. case_decide; by repeat constructor.
  - by apply prefix_app_r.
  - unfold sent. simpl. rewrite omap_app. by case_decide.
Qed.

Lemma good_enqueue c (a0 a1 : Z) pl s : core s -> good s (enqueue_control c a0 a1 pl s).2.
Proof.
  intros Hc. unfold enqueue_control. case_decide as Hl; [by apply good_refl|].
  case_decide as Hf; [by apply good_refl|]. destruct Hc as [? ? ? ? Hq Hd Hb ?]. cbn [snd].
  pose proof (SlotQueue.qcount_le _ Hq).
  destruct (SlotQueue.enqueue_spec (control s) (Packet c a0 a1 pl) Hq) as (Hq' & Hd' & Hv); [lia|].
  split; try done.
  - split; try done; simpl; [congruence|]. rewrite Hv. apply Forall_app. split; [done|].
    apply Forall_singleton. simpl. lia.
  - unfold out, sent. simpl. rewrite Hv, app_assoc. by apply prefix_app_r.
Qed.

(** What a control packet that was accepted adds to the output. *)
Definition accepted (ret : Z) (p : packet) : list packet := if decide (ret = 0%Z) then [p] else [].

(** Requested control packets follow everything requested before. *)
Definition control_sent (p : packet) s ret s' : Prop :=
  good s s' /\ streams s' = streams s /\ next_local_id s' = next_local_id s /\ out s' = out s ++ accepted ret p.

Lemma enqueue_control_out c (a0 a1 : Z) pl s ret s' :
  core s -> enqueue_control c a0 a1 pl s = (ret, s') -> control_sent (Packet c a0 a1 pl) s ret s'.
Proof.
  intros Hc He. pose proof (good_enqueue c a0 a1 pl s Hc) as Hg. rewrite He in Hg.
  split; [done|]. revert He. unfold enqueue_control.
  case_decide as Hl; [intros [= <- <-]; split_and!; try done; by rewrite app_nil_r|].
  case_decide as Hf; [intros [= <- <-]; split_and!; try done; by rewrite app_nil_r|].
  intros [= <- <-]. split_and!; try done. pose proof (SlotQueue.qcount_le _ (c_queue s Hc)).
  destruct (SlotQueue.enqueue_spec (control s) (Packet c a0 a1 pl) (c_queue s Hc)) as (_ & _ & Hv); [lia|].
  unfold out, sent. simpl. by rewrite Hv, app_assoc.
Qed.

Lemma send_control_out c (a0 a1 : Z) pl s ret s' :
  core s -> send_control c a0 a1 pl s = (ret, s') -> control_sent (Packet c a0 a1 pl) s ret s'.
Proof.
  intros Hc. unfold send_control. case_decide as Hq; [by apply enqueue_control_out|].
  destruct (send_packet_raw WControl c a0 a1 pl s) as [r s1] eqn:Es.
  destruct (send_raw_control c a0 a1 pl s r s1 Hc Es) as (Hc1 & ? & ? & ? & ? & ? & Hst & Hct & Hwi & Hsent).
  assert (next_local_id s1 = next_local_id s) as Hid.
  { revert Es. unfold send_packet_raw. destruct (connected s); [|by intros [= <- <-]].
    destruct (transport_send _ _ _). by intros [= <- <-]. }
  assert (SlotQueue.qview (control s) = []) as Hv.
  { apply length_zero_iff_nil. rewrite SlotQueue.length_qview by apply Hc. lia. }
  assert (out s1 = out s ++ accepted r (Packet c a0 a1 pl)) as Ho.
  { unfold out. by rewrite Hct, Hv, !app_nil_r, Hsent. }
  assert (good s s1) as Hg.
  { split; try done; [by apply session_eq|]. rewrite Ho. by apply prefix_app_r. }
  destruct (flow_control_error r) eqn:Ef; [|intros [= <- <-]; by split_and!].
  intros He. destruct (enqueue_control_out c a0 a1 pl s1 ret s' Hc1 He) as (Hg' & Hst' & Hid' & Ho').
  split_and!; [by eapply good_trans|congruence|congruence|]. rewrite Ho', Ho. f_equal.
  unfold accepted at 1. rewrite decide_False, app_nil_r; [done|]. intros ->. done.
Qed.

Lemma good_send_control c (a0 a1 : Z) pl s : core s -> good s (send_control c a0 a1 pl s).2.
Proof.
  intros Hc. destruct (send_control c a0 a1 pl s) as [ret s'] eqn:Es.
  by destruct (send_control_out c a0 a1 pl s ret s' Hc Es).
Qed.

(** Pumping moves packets from the queue to the transport: the output does not
    change, and the queue is empty when it reports success. *)
Lemma pump_loop_spec fuel s ret s' :
  core s -> SlotQueue.qcount (control s) <= fuel -> pump_loop fuel s = (ret, s') ->
  good s s' /\ out s' = out s /\ (ret = 0%Z -> SlotQueue.qcount (control s') = 0).
Proof.
  revert s. induction fuel as [|fuel IH]; intros s Hc Hf; cbn [pump_loop].
  { intros [= <- <-]. split_and!; [by apply good_refl|done|lia]. }
  case_decide as Hq; [|intros [= <- <-]; split_and!; [by apply good_refl|done|lia]].
  destruct (SlotQueue.qview_cons (control s) (c_queue s Hc)) as (p & Hp & Hv); [lia|]. rewrite Hp.
  destruct (send_packet_raw WControl _ _ _ _ s) as [r s1] eqn:Es.
  destruct (send_raw_control _ _ _ _ s r s1 Hc Es) as (Hc1 & ? & ? & ? & ? & ? & Hst & Hct & Hwi & Hsent).
  destruct (decide (r <> 0%Z)) as [Hr|Hr].
  { intros [= <- <-]. rewrite decide_False in Hsent by done. rewrite app_nil_r in Hsent.
    assert (out s1 = out s) as Ho by (unfold out; by rewrite Hct, Hsent).
    split_and!; [|done|done]. split; try done; [by apply session_eq|by rewrite Ho]. }
  apply dec_stable in Hr. subst r. rewrite decide_True in Hsent by done.
  set (s2 := set_control (SlotQueue.dequeue (control s1)) s1).
  assert (out s2 = out s) as Ho.
  { unfold out. change (sent s2) with (sent s1). rewrite Hsent. simpl. rewrite Hct, Hv. 
    rewrite <- app_assoc. by destruct p. }
  assert (core s2) as Hc2.
  { destruct Hc1 as [? ? ? ? Hq1 Hd1 Hb1 ?]. rewrite Hct in Hq1, Hb1. split; try done; simpl; rewrite ?Hct.
    - apply SlotQueue.qwf_dequeue; [done|lia].
    - rewrite Hv in Hb1. by apply Forall_cons in Hb1 as [_ ?]. }
  assert (good s s2) as Hg.
  { split; try done; [by apply session_eq|by rewrite Ho]. }
  intros Hl. destruct (IH s2 Hc2 ltac:(simpl; rewrite Hct; lia) Hl) as (Hg' & Ho' & Hz).
  split_and!; [by eapply good_trans|congruence|done].
Qed.

(** ** Streams *)

Lemma get_stream_Some s i st : streams s !! i = Some st -> get_stream s i = st.
Proof. intros H. unfold get_stream. by rewrite H. Qed.

Lemma get_stream_ok s i : core s -> stream_ok (get_stream s i).
Proof.
  intros Hc. unfold get_stream. destruct (streams s !! i) as [st|] eqn:Ei; [by eapply c_streams|].
  simpl. split; simpl; [by rewrite length_replicate|lia|done..].
Qed.

(** A slot with a flag set is in the table. *)
Lemma used_lookup s i : used (get_stream s i) = true -> streams s !! i = Some (get_stream s i).
Proof. unfold get_stream. by destruct (streams s !! i). Qed.

Lemma pending_used s i : core s -> tx_pending (get_stream s i) = true -> used (get_stream s i) = true.
Proof.
  intros Hc Hp. destruct (used (get_stream s i)) eqn:Hu; [done|].
  rewrite (st_unused _ (get_stream_ok s i Hc) Hu) in Hp. done.
Qed.

Lemma close_pending_used s i : core s -> close_pending (get_stream s i) = true -> used (get_stream s i) = true.
Proof.
  intros Hc Hp. destruct (used (get_stream s i)) eqn:Hu; [done|].
  rewrite (st_unused _ (get_stream_ok s i Hc) Hu) in Hp. done.
Qed.

Lemma get_put s i st : i < length (streams s) -> get_stream (put_stream i st s) i = st.
Proof. intros H. unfold get_stream. simpl. by rewrite list_lookup_insert_eq. Qed.

(** A store to a slot, with the event that explains a change of its flight. *)
Lemma good_put i st l s :
  core s -> stream_ok st -> (used st = true -> used (get_stream s i) = true \/ online s = true) ->
  Forall (fun e => e = WAck i \/ e = WDrop i \/ e = WFail i /\ ~ writes_succeed) l ->
  (i < length (streams s) -> foldl (flight_step i) (flight i (wire s)) l = Some (awaiting_ack st)) ->
  good s (log l (put_stream i st s)).
Proof.
  intros Hc Hst Hu Hl Hf.
  assert (omap packet_of l = []) as Hom.
  { clear -Hl. induction Hl as [|e l [-> | [-> | [-> _]]] _ IH]; simpl; done. }
  assert (forall j, j <> i -> foldl (flight_step j) (flight j (wire s)) l = flight j (wire s)) as Hother.
  { intros j Hj. clear -Hl Hj. generalize (flight j (wire s)).
    induction Hl as [|e l He _ IH]; intros b; simpl; [done|]. rewrite IH.
    destruct b as [b|]; [|done]. destruct He as [-> | [-> | [-> _]]]; simpl; by rewrite decide_False by congruence. }
  split; try done.
  - destruct Hc. split; simpl; try done.
    + by rewrite length_insert.
    + intros j st' Hj. apply list_lookup_insert_Some in Hj as [(-> & <- & _)|[_ Hj]]; [done|eauto].
    + intros j st' Hj. rewrite flight_app.
      apply list_lookup_insert_Some in Hj as [(-> & <- & Hlt)|[Hne Hj]]; [by apply Hf|].
      rewrite Hother by done. eauto.
    + intros Hw. apply Forall_app. split; [by auto|]. eapply Forall_impl; [exact Hl|].
      by intros e [-> | [-> | [-> Hn]]].
  - intros Hse j st' Hj Hu'. simpl in *.
    apply list_lookup_insert_Some in Hj as [(-> & <- & _)|[_ Hj]]; [|by eapply Hse].
    destruct (Hu Hu') as [Hus|]; [|done]. by eapply Hse, Hus; apply used_lookup.
  - unfold out, sent. simpl. by rewrite omap_app, Hom, app_nil_r.
  - by apply prefix_app_r.
Qed.

(** The same without an event. *)
Lemma good_store i st s :
  core s -> stream_ok st -> (used st = true -> used (get_stream s i) = true) ->
  awaiting_ack st = awaiting_ack (get_stream s i) -> good s (put_stream i st s).
Proof.
  intros Hc Hst Hu Ha. assert (put_stream i st s = log [] (put_stream i st s)) as ->.
  { unfold log. simpl. rewrite app_nil_r. done. }
  apply good_put; auto. intros Hi. apply lookup_lt_is_Some in Hi as [st0 Hi]. simpl.
  rewrite Ha, (get_stream_Some s i st0 Hi). by apply c_flight.
Qed.

Lemma stream_ok_flags p a c st :
  stream_ok st -> used st = true -> p && a = false -> stream_ok (set_flags p a c st).
Proof. intros [] Hu Hpa. split; simpl; try done. congruence. Qed.

Lemma stream_ok_zero : stream_ok zero_stream.
Proof. split; simpl; [by rewrite length_replicate|lia|done..]. Qed.

Lemma foldl_drop i b e : e = WDrop i \/ e = WFail i -> foldl (flight_step i) (Some b) [e] = Some false.
Proof. intros [-> | ->]; simpl; by rewrite decide_True. Qed.

Lemma flight_in_range s i :
  core s -> i < length (streams s) -> flight i (wire s) = Some (awaiting_ack (get_stream s i)).
Proof.
  intros Hc Hi. apply lookup_lt_is_Some in Hi as [st Hi]. rewrite (get_stream_Some s i st Hi). by apply c_flight.
Qed.

Lemma good_release i s : core s -> good s (release_stream i s).
Proof.
  intros Hc. unfold release_stream. destruct (used (get_stream s i)); [|by apply good_refl].
  assert (forall s1, core s1 -> good s1 (log [WDrop i] (put_stream i zero_stream s1))) as Hz.
  { intros s1 Hc1. apply good_put; auto using stream_ok_zero; [done|]. intros Hi.
    rewrite (flight_in_range s1 i Hc1 Hi). apply foldl_drop. by left. }
  destruct (ops (get_stream s i)) as [o|]; [|by apply Hz]. destruct (sv_close o) as [f|]; [|by apply Hz].
  eapply good_trans; [by apply (good_services (f (services s) i))|]. apply Hz. by apply good_services.
Qed.

Lemma good_close_all s : core s -> good s (close_all_streams s).
Proof.
  unfold close_all_streams. generalize (seq 0 (length (streams s))). intros l. revert s.
  induction l as [|i l IH]; intros s Hc; simpl; [by apply good_refl|].
  pose proof (good_release i s Hc) as Hg. eapply good_trans; [exact Hg|]. apply IH, Hg.
Qed.

(** The data packet of a stream. *)
Lemma good_send_data i s ret s' :
  core s -> tx_pending (get_stream s i) = true -> awaiting_ack (get_stream s i) = false ->
  SlotQueue.qcount (control s) = 0 ->
  send_packet_raw (WData i) ADB_COMMAND_WRTE (local_id (get_stream s i)) (remote_id (get_stream s i))
    (take (tx_len (get_stream s i)) (tx_data (get_stream s i))) s = (ret, s') ->
  streams s' = streams s /\ control s' = control s
  /\ (ret <> 0%Z -> good s s')
  /\ (ret = 0%Z -> good s (put_stream i (set_flags false true (close_pending (get_stream s i)) (get_stream s i)) s')).
Proof.
  intros Hc Hp Ha Hq. pose proof (pending_used s i Hc Hp) as Hu. pose proof (used_lookup s i Hu) as Hi.
  set (st := get_stream s i) in *. unfold send_packet_raw. destruct (connected s) eqn:Eco.
  2: { intros [= <- <-]. split_and!; try done; intros _; by apply good_refl. }
  destruct (transport_send _ _ _) as [r e]. intros [= <- <-]. split_and!; try done.
  - intros Hr. rewrite decide_False by done. destruct Hc. split; try done.
    + split; try done; simpl; by rewrite app_nil_r.
    + unfold out, sent. simpl. by rewrite app_nil_r.
    + by apply prefix_app_r.
  - intros ->. rewrite decide_True by done. split; try done.
    + pose proof Hc as []. split; simpl; try done; [by rewrite length_insert|..].
      * intros j st' Hj. apply list_lookup_insert_Some in Hj as [(<- & <- & _)|[_ Hj]]; [|eauto].
        apply stream_ok_flags; [by apply get_stream_ok|done|done].
      * intros j st' Hj. rewrite flight_app. simpl.
        apply list_lookup_insert_Some in Hj as [(<- & <- & _)|[Hne Hj]].
        -- rewrite (c_flight0 i st Hi), Ha. simpl. by rewrite decide_True.
        -- rewrite (c_flight0 j st' Hj). simpl. by rewrite decide_False by congruence.
      * intros Hw. apply Forall_app. split; [by auto|]. by repeat constructor.
    + intros Hse j st' Hj Hu'. simpl in *.
      apply list_lookup_insert_Some in Hj as [(<- & <- & _)|[_ Hj]]; [|by eapply Hse]. by eapply Hse.
    + unfold out, sent. simpl. assert (SlotQueue.qview (control s) = []) as ->.
      { apply length_zero_iff_nil. by rewrite SlotQueue.length_qview by apply Hc. }
      rewrite !app_nil_r, omap_app. by apply prefix_app_r.
    + by apply prefix_app_r.
Qed.

Lemma good_flush i s : core s -> good s (flush_stream i s).2.
Proof.
  intros Hc. unfold flush_stream.
  assert (forall s1, core s1 ->
    good s1 (let st := get_stream s1 i in
             if close_pending st && negb (tx_pending st) && negb (awaiting_ack st) then
               let '(ret, s) := send_close (local_id st) (remote_id st) s1 in
               if decide (ret <> 0%Z) then (ret, s) else (0%Z, release_stream i s)
             else (0%Z, s1)).2) as Hsecond.
  { clear. intros s1 Hc1. cbn zeta. destruct (_ && _ && _); [|by apply good_refl].
    destruct (send_close _ _ s1) as [r s2] eqn:Es.
    destruct (send_control_out _ _ _ _ s1 r s2 Hc1 Es) as (Hg & _).
    case_decide; [done|]. eapply good_trans; [exact Hg|]. apply good_release, Hg. }
  destruct (tx_pending (get_stream s i) && negb (awaiting_ack (get_stream s i))) eqn:Ep; cbn zeta.
  2: { rewrite decide_False by naive_solver. by apply Hsecond. }
  apply andb_true_iff in Ep as [Hp Ha%negb_true_iff].
  destruct (decide (SlotQueue.qcount (control s) <> 0)) as [Hq|Hq].
  { rewrite decide_True by done. by apply good_refl. }
  destruct (send_packet_raw _ _ _ _ _ s) as [r s1] eqn:Es.
  destruct (good_send_data i s r s1 Hc Hp Ha ltac:(lia) Es) as (Hst & Hct & Hbad & Hgood).
  destruct (decide (r <> 0%Z)) as [Hr|Hr].
  - rewrite decide_True by done. by apply Hbad.
  - rewrite decide_False by naive_solver. assert (get_stream s1 i = get_stream s i) as -> by (unfold get_stream; by rewrite Hst).
    apply dec_stable in Hr. specialize (Hgood Hr). eapply good_trans; [exact Hgood|]. apply Hsecond, Hgood.
Qed.

Lemma max_payload_le s : core s -> webos_adb_stream_max_payload s <= ADB_TX_PAYLOAD_SIZE.
Proof.
  intros Hc. pose proof (c_payload s Hc). unfold webos_adb_stream_max_payload. destruct ADB_USB; lia.
Qed.

Lemma good_write i gen data s : core s -> good s (stream_write_locked i gen data s).2.
Proof.
  intros Hc. unfold stream_write_locked. case_decide as Hu; [by apply good_refl|].
  case_decide as Hl; [by apply good_refl|].
  destruct (tx_pending _ || _) eqn:Ep; [by apply good_refl|]. apply orb_false_iff in Ep as [Hp Ha].
  assert (used (get_stream s i) = true) as Hus by (apply not_false_is_true; naive_solver). cbn zeta.
  pose proof (get_stream_ok s i Hc) as [Hd Hn _ _]. pose proof (max_payload_le s Hc).
  set (st1 := set_flags true _ _ _).
  assert (good s (put_stream i st1 s)) as Hg.
  { apply good_store; try done. subst st1. split; simpl; [rewrite length_write_at; lia|lia|congruence|by rewrite Ha]. }
  destruct (dispatching _); [done|]. eapply good_trans; [exact Hg|].
  pose proof (good_flush i _ (g_core _ _ Hg)) as Hf. destruct (flush_stream i _) as [r s2]. cbn [snd] in *.
  destruct (flow_control_error r); [done|]. case_decide; [|done]. eapply good_trans; [exact Hf|].
  pose proof (g_core _ _ Hf) as Hc2. pose proof (get_stream_ok s2 i Hc2) as [Hd2 Hn2 Hu2 Ha2].
  apply good_store; try done. split; simpl; try done; [lia|].
  intros Hu'. specialize (Hu2 Hu'). rewrite Hu2. done.
Qed.

Lemma good_close i gen s : core s -> good s (stream_close_locked i gen s).
Proof.
  intros Hc. unfold stream_close_locked. case_decide as Hu; [|by apply good_refl]. destruct Hu as [Hu _]. cbn zeta.
  set (st1 := set_flags _ _ _ _). assert (good s (put_stream i st1 s)) as Hg.
  { apply good_store; try done. subst st1. apply stream_ok_flags; [by apply get_stream_ok|done|].
    by apply (st_alone _ (get_stream_ok s i Hc)). }
  destruct (dispatching _); [done|]. eapply good_trans; [exact Hg|]. apply good_flush, Hg.
Qed.

(** Whatever a callback does is good. *)
Lemma good_run {A} (p : prog A) s : core s -> good s (run p s).2.
Proof.
  revert s. induction p as [a|i gen data k IH|i gen k IH|i k IH|i k IH]; intros s Hc; cbn [run].
  - by apply good_refl.
  - pose proof (good_write i gen data s Hc) as Hg. destruct (stream_write_locked i gen data s) as [r s1].
    eapply good_trans; [exact Hg|]. apply IH, Hg.
  - pose proof (good_close i gen s Hc) as Hg. eapply good_trans; [exact Hg|]. apply IH, Hg.
  - by apply IH.
  - by apply IH.
Qed.

Lemma good_call p s : core s -> good s (call p s).2.
Proof.
  intros Hc. unfold call. pose proof (good_run p s Hc) as Hg. destruct (run p s) as [[r x] s1]. cbn [snd] in *.
  eapply good_trans; [exact Hg|]. apply good_services, Hg.
Qed.

(** ** The dispatcher *)

Lemma first_index_Some f (l : list webos_adb_stream) i :
  first_index f l = Some i -> exists st, l !! i = Some st /\ f st = true.
Proof.
  revert i. induction l as [|x l IH]; intros i; simpl; [done|].
  destruct (f x) eqn:Ef; [intros [= <-]; by exists x|]. destruct (first_index f l) as [j|]; [|done].
  intros [= <-]. by apply IH.
Qed.

Lemma first_index_None f (l : list webos_adb_stream) :
  first_index f l = None -> forall i st, l !! i = Some st -> f st = false.
Proof.
  induction l as [|x l IH]; simpl; [done|]. destruct (f x) eqn:Ef; [done|]. rewrite fmap_None.
  intros Hn [|i] st; simpl; [by intros [= <-]|]. by apply IH.
Qed.

Lemma find_stream_Some l r s i :
  find_stream l r s = Some i ->
  streams s !! i = Some (get_stream s i) /\ used (get_stream s i) = true
  /\ local_id (get_stream s i) = l /\ remote_id (get_stream s i) = r.
Proof.
  intros (st & Hi & Hf)%first_index_Some. rewrite (get_stream_Some s i st Hi).
  rewrite !andb_true_iff, !bool_decide_eq_true in Hf. naive_solver.
Qed.

(** A store to a slot that keeps a field keeps it everywhere. *)
Lemma get_put_field {B} (f : webos_adb_stream -> B) j st s i :
  f st = f (get_stream s j) -> f (get_stream (put_stream j st s) i) = f (get_stream s i).
Proof.
  intros H. destruct (decide (i = j)) as [->|Hij].
  - destruct (decide (j < length (streams s))) as [Hj|Hj]; [by rewrite get_put|].
    unfold get_stream. simpl. by rewrite list_insert_ge by lia.
  - unfold get_stream. simpl. by rewrite list_lookup_insert_ne by done.
Qed.

(** While a message is dispatched, callbacks leave the stream table in place. *)
Lemma run_dispatching {A} (p : prog A) s :
  core s -> dispatching s = true -> forall i, used (get_stream (run p s).2 i) = used (get_stream s i).
Proof.
  revert s. induction p as [a|j gen data k IH|j gen k IH|j k IH|j k IH]; intros s Hc Hd i; cbn [run]; auto.
  - pose proof (good_write j gen data s Hc) as Hg.
    assert (used (get_stream (stream_write_locked j gen data s).2 i) = used (get_stream s i)) as Hu.
    { unfold stream_write_locked. case_decide; [done|]. case_decide; [done|].
      destruct (_ || _); [done|]. cbn zeta. cbn [dispatching put_stream set_streams]. rewrite Hd. cbn [snd].
      by apply get_put_field. }
    destruct (stream_write_locked j gen data s) as [r s1]. cbn [snd] in *.
    rewrite IH; [done|apply Hg|]. by rewrite (g_dispatching _ _ Hg).
  - pose proof (good_close j gen s Hc) as Hg.
    assert (used (get_stream (stream_close_locked j gen s) i) = used (get_stream s i)) as Hu.
    { unfold stream_close_locked. case_decide as Hj; [|done]. cbn zeta. cbn [dispatching put_stream set_streams].
      rewrite Hd. by apply get_put_field. }
    rewrite IH; [done|apply Hg|]. by rewrite (g_dispatching _ _ Hg).
Qed.

Lemma call_dispatching p s i :
  core s -> dispatching s = true -> used (get_stream (call p s).2 i) = used (get_stream s i).
Proof.
  intros Hc Hd. unfold call. pose proof (run_dispatching p s Hc Hd i) as Hr. by destruct (run p s) as [[r x] s1].
Qed.

Lemma good_allocate r o s : core s -> online s = true -> good s (allocate_stream r o s).2.
Proof.
  intros Hc Ho. unfold allocate_stream. destruct (first_index _ _) as [i|] eqn:Ei; [|by apply good_refl].
  apply first_index_Some in Ei as (st & Hi & Hu%negb_true_iff). cbn zeta. cbn [snd allocate_local_id].
  eapply good_trans; [by apply (good_ids (next_id (next_local_id s)) (next_id (next_stream_generation s)))|].
  match goal with |- good ?a (put_stream _ ?st' ?b) =>
    change b with a; assert (put_stream i st' a = log [] (put_stream i st' a)) as ->
      by (unfold log; simpl; by rewrite app_nil_r) end.
  apply good_put; try done.
  - by apply good_ids.
  - split; simpl; [by rewrite length_replicate|lia|done..].
  - by right.
  - intros _. simpl. rewrite (c_flight s Hc i st Hi). by rewrite (st_unused st (c_streams s Hc i st Hi) Hu).
Qed.

(** Continues from the state a good operation leaves behind. *)
Ltac then_good H :=
  let Hg := fresh "Hg" in pose proof H as Hg;
  match type of Hg with good _ (?f).2 => let r := fresh "ret" in destruct f as [r ?]; cbn [snd] in Hg | _ => idtac end;
  eapply good_trans; [exact Hg|]; apply g_core in Hg.

Lemma good_open_stream d r pre o s : core s -> online s = true -> good s (open_stream d r pre o s).2.
Proof.
  intros Hc Ho. unfold open_stream. destruct (negb _); [by apply good_refl|].
  then_good (good_allocate r o s Hc Ho). destruct ret as [i|]; [|by apply good_send_control].
  then_good (good_call (sv_open o (services a) i (drop (length pre) d)) a Hg).
  case_decide.
  { then_good (good_release i a0 Hg0). by apply good_send_control. }
  cbn zeta. unfold send_ready.
  then_good (good_send_control ADB_COMMAND_OKAY (local_id (get_stream a0 i)) (remote_id (get_stream a0 i)) [] a0 Hg0).
  assert (good a1 (if decide (ret0 = 0%Z) then flush_stream i a1 else (ret0, a1)).2) as Hf.
  { case_decide; [by apply good_flush|by apply good_refl]. }
  destruct (if decide (ret0 = 0%Z) then _ else _) as [ret1 s2]. cbn [snd] in Hf. then_good Hf.
  destruct (flow_control_error ret1); [by apply good_refl|].
  case_decide; [by apply good_release|by apply good_refl].
Qed.

Lemma open_destination_online s d : open_destination s = Some d -> online s = true.
Proof.
  unfold open_destination. destruct (payload (rx s)); [|done]. case_decide as H; [done|].
  intros _. apply not_false_is_true. naive_solver.
Qed.

Lemma good_try_service b d r pre o next s :
  core s -> online s = true -> (forall s', core s' -> online s' = true -> good s' (next s').2) ->
  good s (try_service b d r pre o next s).2.
Proof.
  intros Hc Ho Hn. unfold try_service. destruct b; [|by apply Hn].
  pose proof (good_open_stream d r pre o s Hc Ho) as Hg. destruct (open_stream d r pre o s) as [ret s1].
  cbn [snd] in Hg. case_decide; [done|]. eapply good_trans; [exact Hg|]. apply Hn; [apply Hg|]. by rewrite (g_online _ _ Hg).
Qed.

Lemma good_handle_open s : core s -> good s (handle_open s).2.
Proof.
  intros Hc. unfold handle_open. destruct (open_destination s) as [d|] eqn:Ed; [|by apply good_refl].
  apply open_destination_online in Ed. case_decide.
  { cbn [allocate_local_id]. eapply good_trans; [by apply good_ids|]. apply good_send_control. by apply good_ids. }
  destruct (ADB_REBOOT && _).
  { case_decide; [by apply good_send_control|]. cbn [allocate_local_id]. eapply good_trans; [by apply good_ids|].
    match goal with |- good ?a _ => assert (core a) as Hc1 by (by apply good_ids) end. unfold send_ready.
    match goal with |- context [send_control ?c ?x ?y ?z ?a] => then_good (good_send_control c x y z a Hc1) end.
    case_decide; [|by apply good_refl]. destruct (webos_adb_reboot_request _). by apply good_env. }
  destruct (ADB_LOGCAT && _ && _); [by apply good_open_stream|].
  apply good_try_service; [done..|]. intros s1 Hc1 Ho1. apply good_try_service; [done..|].
  intros s2 Hc2 Ho2. by apply good_send_control.
Qed.

Lemma good_handle_write s : core s -> dispatching s = true -> good s (handle_write s).2.
Proof.
  intros Hc Hd. unfold handle_write. destruct (find_stream _ _ s) as [i|] eqn:Ef; [|by apply good_send_control].
  apply find_stream_Some in Ef as (_ & Hu & _).
  destruct (ops (get_stream s i) ≫= sv_write) as [w|] eqn:Ew; [|by apply good_send_control].
  apply bind_Some in Ew as (o & _ & Ew). pose proof (fun Hok : writes_succeed => Hok o w (services s) i (rx_data s) s Ew) as Hok.
  pose proof (call_dispatching (w (services s) i (rx_data s)) s i Hc Hd) as Hu1. rewrite Hu in Hu1.
  then_good (good_call (w (services s) i (rx_data s)) s Hc). cbn [snd fst] in Hu1, Hok. case_decide.
  - assert (good a (log [WFail i] (put_stream i (set_flags false false true (get_stream a i)) a))) as Hf.
    { apply good_put; auto.
      - apply stream_ok_flags; [by apply get_stream_ok|done|done].
      - apply Forall_singleton. right; right. split; [done|]. auto.
      - intros Hi. rewrite (flight_in_range a i Hg Hi). apply foldl_drop. by right. }
    eapply good_trans; [exact Hf|]. apply good_flush, Hf.
  - cbn zeta. unfold send_ready.
    then_good (good_send_control ADB_COMMAND_OKAY (local_id (get_stream a i)) (remote_id (get_stream a i)) [] a Hg).
    case_decide; [by apply good_flush|by apply good_refl].
Qed.

Lemma good_handle_ready s : core s -> good s (handle_ready s).2.
Proof.
  intros Hc. unfold handle_ready. destruct (find_stream _ _ s) as [i|] eqn:Ef; [|by apply good_refl].
  apply find_stream_Some in Ef as (_ & Hu & _). destruct (negb _); [by apply good_refl|]. cbn zeta.
  set (st := set_flags _ _ _ _).
  assert (good s (log [WAck i] (put_stream i st s))) as Hg.
  { apply good_put; auto.
    - apply stream_ok_flags; [by apply get_stream_ok|done|apply andb_false_r].
    - intros Hi. rewrite (flight_in_range s i Hc Hi). simpl. by rewrite decide_True. }
  set (s1 := log _ _) in *. eapply good_trans; [exact Hg|]. apply g_core in Hg.
  assert (good s1 match ops (get_stream s i) ≫= sv_tx_ready with
    | Some f => let '(x, s2) := run (f (services s1) i) s1 in set_services x s2 | None => s1 end) as Hr.
  { destruct (_ ≫= _) as [f|]; [|by apply good_refl].
    pose proof (good_run (f (services s1) i) s1 Hg) as Hr. destruct (run _ s1) as [x s2]. cbn [snd] in Hr.
    eapply good_trans; [exact Hr|]. apply good_services, Hr. }
  eapply good_trans; [exact Hr|]. apply g_core in Hr.
  match goal with |- context [used (get_stream ?a i)] => destruct (used (get_stream a i)) end;
    [by apply good_flush|by apply good_refl].
Qed.

Lemma good_handle_close s : core s -> good s (handle_close s).2.
Proof.
  intros Hc. unfold handle_close. destruct (find_stream _ _ s) as [i|]; [|by apply good_refl]. cbn zeta. unfold send_close.
  then_good (good_send_control ADB_COMMAND_CLSE (local_id (get_stream s i)) (remote_id (get_stream s i)) [] s Hc).
  by apply good_release.
Qed.
End invariant.
