(* ===== verification/AdbSpec.v ===== *)
(** * The ADB protocol engine: theorems

    The invariant of every reachable state of the engine, the behaviour of
    sessions, the independence of the receiver from packet boundaries of the
    transport, flow control, and what a build without authentication support
    refuses. *)

From S2P Require Import Prelude CLib Ring AdbProtocol AdbFraming AdbInvariant.
From Stdlib Require Import ZArith Lia.
From Stdlib Require Import Strings.Byte.
From stdpp Require Import base numbers list list_numbers strings countable sets.

Import Adb.

Section spec.
Context {cfg : AdbConfig} {E : AdbEnv} {S : AdbServices}.
Implicit Types (s : adb) (st : webos_adb_stream) (i : nat).

(** What a dispatched message guarantees: a new session may drop queued
    control packets, everything else is as in [good]. *)
Record evolves s s' : Prop := {
  e_core : core s';
  e_rx : rx s' = rx s;
  e_dispatching : dispatching s' = dispatching s;
  e_connected : connected s' = connected s;
  e_session : session s -> session s';
  e_wire : wire s `prefix_of` wire s';
}.

Lemma good_evolves s s' : good s s' -> evolves s s'.
Proof. by intros []. Qed.

(** ** Sessions *)

Lemma release_used j s i :
  used (get_stream (release_stream j s) i) = true -> i <> j /\ used (get_stream s i) = true.
Proof.
  unfold release_stream. destruct (used (get_stream s j)) eqn:Hj.
  - intros Hu. assert (i <> j) as Hij.
    { intros ->. apply used_lookup in Hj. revert Hu. unfold get_stream at 1. simpl.
      rewrite list_lookup_insert_eq; [done|]. apply lookup_lt_Some in Hj.
      destruct (ops _) as [o|]; [destruct (sv_close o)|]; done. }
    split; [done|]. revert Hu. unfold get_stream at 1. simpl. rewrite list_lookup_insert_ne by done.
    destruct (ops _) as [o|]; [destruct (sv_close o)|]; done.
  - intros Hu. split; [|done]. intros ->. congruence.
Qed.

Lemma close_all_unused s i : used (get_stream (close_all_streams s) i) = false.
Proof.
  apply not_true_is_false. unfold close_all_streams.
  assert (forall l s, used (get_stream (foldl (fun s i => release_stream i s) s l) i) = true ->
    i ∉ l /\ used (get_stream s i) = true) as H.
  { clear s. induction l as [|j l IH]; intros s; simpl; [set_solver|].
    intros [Hl Hu]%IH. apply release_used in Hu as [Hij Hu]. set_solver. }
  intros [Hl Hu]%H. apply Hl. apply used_lookup, lookup_lt_Some in Hu. apply elem_of_seq. lia.
Qed.

(** Releasing streams sends nothing. *)
Lemma close_all_wire s : exists l, wire (close_all_streams s) = wire s ++ l /\ omap packet_of l = [].
Proof.
  unfold close_all_streams. generalize (seq 0 (length (streams s))). intros k. revert s.
  induction k as [|i k IH]; intros s; simpl; [exists []; by rewrite app_nil_r|].
  destruct (IH (release_stream i s)) as (l & -> & Hl).
  assert (exists l', wire (release_stream i s) = wire s ++ l' /\ omap packet_of l' = []) as (l' & -> & Hl').
  { unfold release_stream. destruct (used _); [|exists []; by rewrite app_nil_r]. exists [WDrop i]. split; [|done].
    destruct (ops _) as [o|]; [destruct (sv_close o)|]; done. }
  exists (l' ++ l). rewrite app_assoc. split; [done|]. by rewrite omap_app, Hl, Hl'.
Qed.

(** No stream is used. *)
Definition idle s : Prop := forall i, used (get_stream s i) = false.

Lemma idle_session s : idle s -> session s.
Proof. intros H i st Hi Hu. specialize (H i). rewrite (get_stream_Some s i st Hi) in H. congruence. Qed.

Lemma core_set_session n o s :
  core s -> (0 <= n <= Z.of_nat ADB_MAX_PAYLOAD)%Z -> core (set_session n o s).
Proof. intros [] Hn. by split. Qed.

Lemma core_reset_queue s : core s -> core (set_control (SlotQueue.reset (control s)) s).
Proof.
  intros []. split; try done; simpl.
  - apply SlotQueue.qwf_reset. pose proof range_control_depth. lia.
Qed.

(** The state a new session starts from, before the banner is sent. *)
Definition connect_prepared s : adb :=
  let s1 := close_all_streams (set_session (negotiated_payload s) false s) in
  let s2 := set_ids 1 (next_stream_generation s1) (set_control (SlotQueue.reset (control s1)) s1) in
  let s3 := if ADB_USB then set_env (webos_adb_usb_reset_tx (environment s2)) s2 else s2 in
  set_session (Z.min (arg1 (message (rx s))) (Z.of_nat ADB_MAX_PAYLOAD)) false s3.

Lemma connect_prepared_ok s :
  core s -> (0 <= arg1 (message (rx s)))%Z ->
  evolves s (connect_prepared s) /\ idle (connect_prepared s) /\ online (connect_prepared s) = false
  /\ SlotQueue.qcount (control (connect_prepared s)) = 0 /\ next_local_id (connect_prepared s) = 1%Z
  /\ negotiated_payload (connect_prepared s) = Z.min (arg1 (message (rx s))) (Z.of_nat ADB_MAX_PAYLOAD)
  /\ exists l, wire (connect_prepared s) = wire s ++ l /\ omap packet_of l = [].
Proof.
  intros Hc Ha. pose proof range_max_payload. unfold connect_prepared. cbn zeta.
  set (s0 := set_session (negotiated_payload s) false s).
  assert (core s0) as Hc0 by (apply core_set_session; [done|apply Hc]).
  pose proof (good_close_all s0 Hc0) as Hg. pose proof (close_all_unused s0) as Hidle.
  set (s1 := close_all_streams s0) in *.
  set (s2 := set_ids 1 _ _). assert (core s2) as Hc2 by (apply good_ids, core_reset_queue, Hg).
  set (s3 := if ADB_USB then _ else _).
  assert (core s3 /\ rx s3 = rx s1 /\ dispatching s3 = dispatching s1 /\ connected s3 = connected s1
    /\ wire s3 = wire s1 /\ streams s3 = streams s1 /\ SlotQueue.qcount (control s3) = 0 /\ next_local_id s3 = 1%Z)
    as (Hc3 & Hrx & Hdi & Hco & Hwi & Hst & Hq & Hid).
  { subst s3. destruct ADB_USB; split_and!; try done. by apply good_env. }
  assert (idle (set_session (Z.min (arg1 (message (rx s))) (Z.of_nat ADB_MAX_PAYLOAD)) false s3)) as Hi.
  { intros i. specialize (Hidle i). unfold get_stream in *. simpl. by rewrite Hst. }
  split_and!; try done; [|simpl; rewrite Hwi; exact (close_all_wire s0)]. split; simpl.
  - apply core_set_session; [done|lia].
  - rewrite Hrx. apply Hg.
  - rewrite Hdi. apply Hg.
  - rewrite Hco. apply Hg.
  - intros _. by apply idle_session.
  - rewrite Hwi. apply Hg.
Qed.

Lemma handle_connect_unfold s :
  ADB_ALLOW_NO_AUTH = true ->
  handle_connect s
  = let '(ret, s') := send_connect (connect_prepared s) in
    if decide (ret = 0%Z) then (0%Z, set_session (negotiated_payload s') true s') else (ret, s').
Proof. intros H. unfold handle_connect. by rewrite H. Qed.

Lemma evolves_connect s :
  core s -> (0 <= arg1 (message (rx s)))%Z -> evolves s (handle_connect s).2.
Proof.
  intros Hc Ha. destruct ADB_ALLOW_NO_AUTH eqn:Hna.
  2: { unfold handle_connect. rewrite Hna. by apply good_evolves, good_refl. }
  rewrite handle_connect_unfold by done. destruct (connect_prepared_ok s Hc Ha) as ([Hc1 Hrx Hdi Hco Hse Hwi] & _).
  pose proof (good_send_control ADB_COMMAND_CNXN ADB_VERSION (Z.of_nat ADB_MAX_PAYLOAD) device_banner _ Hc1) as Hg.
  unfold send_connect. destruct (send_control _ _ _ _ _) as [ret s1]. cbn [snd] in Hg. destruct Hg.
  case_decide; (split; simpl; [|congruence..| |by etrans]); auto.
  - apply core_set_session; [done|]. by apply c_payload.
  - by intros _ i st _ _.
Qed.

Lemma evolves_dispatch s :
  core s -> dispatching s = true -> (0 <= arg1 (message (rx s)))%Z -> evolves s (dispatch_message s).2.
Proof.
  intros Hc Hd Ha. unfold dispatch_message. case_decide; [by apply good_evolves, good_refl|].
  case_decide; [by apply evolves_connect|].
  repeat (case_decide; [apply good_evolves; auto using good_handle_open, good_handle_write, good_handle_ready, good_handle_close|]).
  by apply good_evolves, good_refl.
Qed.

(** ** The receiver *)

(** The invariant of the engine between calls. *)
Record inv s : Prop := {
  i_core : core s;
  i_session : session s;
  i_rx : rx_ok (rx s);
  i_dispatching : dispatching s = false;
}.

Lemma core_set_rx x s : core s -> core (set_rx x s).
Proof. intros []. by split. Qed.

(** The part of the invariant the receive loop maintains. *)
Definition receiving s : Prop := core s /\ session s /\ dispatching s = true.

(** Dispatching a decoded message. *)
Lemma receiving_dispatch s h :
  receiving s -> message (rx s) = decode_fields h -> receiving (dispatch_message s).2.
Proof.
  intros (Hc & Hs & Hd) Hm. destruct (evolves_dispatch s Hc Hd) as [].
  - rewrite Hm. pose proof (get_le32_range (drop 8 h)). simpl in *. lia.
  - split_and!; [done|auto|congruence].
Qed.

Lemma receiving_set_rx x s : receiving s -> receiving (set_rx x s).
Proof. intros (Hc & Hs & Hd). split_and!; [by apply core_set_rx|done|done]. Qed.

Lemma receiving_env e s : receiving s -> receiving (set_env e s).
Proof. intros (Hc & Hs & Hd). split_and!; [by apply good_env|done|done]. Qed.

Lemma receiving_payload data s r :
  receiving s -> message (rx s) = decode_fields (header (rx s)) -> receive_payload data s = r ->
  match r with inl (_, s') => receiving s' | inr (_, s') => receiving s' end.
Proof.
  intros Hr Hm <-. unfold receive_payload. cbn zeta. case_decide; [|by apply receiving_set_rx].
  set (s1 := set_rx _ s). assert (receiving (dispatch_message s1).2) as Hd.
  { eapply receiving_dispatch; [by apply receiving_set_rx|]. simpl. exact Hm. }
  destruct (dispatch_message s1) as [ret s2]. case_decide; by apply receiving_set_rx.
Qed.

Lemma receiving_decode s :
  receiving s -> receiving (decode_header s).2 /\ exists h, message (rx (decode_header s).2) = decode_fields h
    /\ header (rx (decode_header s).2) = h.
Proof.
  intros Hr. unfold decode_header. cbn zeta. case_decide.
  - split; [by apply receiving_set_rx|by eexists].
  - destruct (k_malloc _ _) as [[] e]; (split; [by apply receiving_set_rx, receiving_env|by eexists]).
Qed.

Lemma receiving_step data s :
  receiving s -> rx_ok (rx s) ->
  match receive_step data s with inl (_, s') => receiving s' | inr (_, s') => receiving s' end.
Proof.
  intros Hr Hok. destruct (decide (header_used (rx s) < WEBOS_ADB_HEADER_SIZE)) as [Hu|Hu].
  - rewrite receive_step_header by done. unfold receive_header. cbn zeta. case_decide as Hh.
    { rewrite decide_False by (simpl in *; naive_solver). by apply receiving_set_rx. }
    match goal with |- context [decode_header ?a] => set (s1 := a) end.
    destruct (receiving_decode s1) as (Hr1 & h & Hm & Hhd); [by apply receiving_set_rx|].
    destruct (decode_header s1) as [ret s2]. cbn [snd] in *. case_decide; [by apply receiving_set_rx|].
    case_decide as Hz.
    + pose proof (receiving_dispatch s2 h Hr1 Hm) as Hd. destruct (dispatch_message s2) as [ret' s3].
      case_decide; [by apply receiving_set_rx|]. rewrite decide_False by (simpl; intros [? _]; done).
      by apply receiving_set_rx.
    + case_decide; [|done]. eapply receiving_payload; [done| |done]. congruence.
  - destruct Hok as [_ [[? _]|(Hu' & Hm & _ & Hpos & _)]]; [lia|].
    rewrite receive_step_payload by done. by eapply receiving_payload.
Qed.

Lemma receiving_loop fuel data s r :
  receiving s -> rx_ok (rx s) -> receive_loop fuel data s = Some r -> receiving r.2.
Proof.
  revert data s. induction fuel as [|fuel IH]; intros data s Hr Hok.
  - destruct data; [|done]. by intros [= <-].
  - destruct (decide (data = [])) as [->|Hne]; [by intros [= <-]|]. rewrite receive_loop_unfold by done.
    pose proof (receiving_step data s Hr Hok) as Hs.
    destruct (receive_step data s) as [[ret s1]|[d s1]] eqn:Es; [by intros [= <-]|].
    apply IH; [done|]. by eapply receive_step_progress.
Qed.

Lemma core_set_dispatching d s : core s -> core (set_dispatching d s).
Proof. intros []. by split. Qed.

Lemma receiving_start s : inv s -> receiving (set_dispatching true s) /\ rx_ok (rx (set_dispatching true s)).
Proof. intros [Hc Hs Hok _]. split; [|done]. split_and!; [by apply core_set_dispatching|done|done]. Qed.

Lemma inv_receive data s :
  inv s -> exists r, webos_adb_protocol_receive data s = Some r /\ inv r.2.
Proof.
  intros Hi. destruct (receiving_start s Hi) as [Hr Hok].
  unfold webos_adb_protocol_receive, protocol_receive_unlocked.
  destruct (receive_loop_fuel (length data) data (set_dispatching true s)) as ([ret s1] & Hl & _ & Hok1); [done..|].
  rewrite Hl. eexists. split; [done|]. destruct (receiving_loop _ _ _ _ Hr Hok Hl) as (Hc1 & Hs1 & _).
  split; simpl; [by apply core_set_dispatching|done..].
Qed.

(** ** The other entry points *)

Lemma inv_good s s' : inv s -> good s s' -> inv s'.
Proof. intros [Hc Hs Hok Hd] []. split; [done|auto|congruence|congruence]. Qed.

Lemma good_flush_loop l s : core s -> good s (flush_loop l s).
Proof.
  revert s. induction l as [|i l IH]; intros s Hc; cbn [flush_loop]; [by apply good_refl|]. cbn zeta.
  destruct (_ && _); [|by apply IH]. pose proof (good_flush i s Hc) as Hg.
  destruct (flush_stream i s) as [ret s1]. cbn [snd] in Hg. destruct (flow_control_error ret); [done|].
  eapply good_trans; [exact Hg|]. apply IH, Hg.
Qed.

Lemma good_tx_ready s : core s -> good s (webos_adb_protocol_tx_ready s).
Proof.
  intros Hc. unfold webos_adb_protocol_tx_ready.
  assert (good s (if online s then pump_controls s else (0%Z, s)).2) as Hg.
  { destruct (online s); [|by apply good_refl]. unfold pump_controls. destruct (pump_loop _ s) as [ret s1] eqn:Ep.
    by destruct (pump_loop_spec _ s ret s1 Hc (le_n _) Ep). }
  destruct (if online s then _ else _) as [ret s1]. cbn [snd] in Hg.
  destruct (online s1 && flow_control_error ret); [done|]. destruct (online s1 && _); [|done].
  eapply good_trans; [exact Hg|]. apply good_flush_loop, Hg.
Qed.

Lemma inv_reset s : core s -> inv (protocol_reset_unlocked s) /\ idle (protocol_reset_unlocked s).
Proof.
  intros Hc. pose proof range_max_payload. unfold protocol_reset_unlocked. cbn zeta.
  set (s0 := reset_rx s). assert (core s0) as Hc0 by (by apply core_set_rx).
  pose proof (good_close_all s0 Hc0) as Hg. pose proof (close_all_unused s0) as Hidle.
  set (s1 := close_all_streams s0) in *. split; [|done].
  split; simpl; [|by apply idle_session|rewrite (g_rx _ _ Hg); apply rx_ok_zero|done].
  apply core_set_dispatching, core_set_session; [|lia]. apply (core_reset_queue (set_ids 1 _ s1)). by apply good_ids, Hg.
Qed.

(** ** Interleavings *)

(** The calls that take the protocol lock, by the transport and by the threads
    of the services, and the progress of services and transport outside it. *)
Inductive engine_step s : adb -> Prop :=
| step_init : engine_step s (webos_adb_protocol_init s)
| step_reset : engine_step s (webos_adb_protocol_reset s)
| step_receive data ret s' : webos_adb_protocol_receive data s = Some (ret, s') -> engine_step s s'
| step_tx_ready : engine_step s (webos_adb_protocol_tx_ready s)
| step_write i gen data : engine_step s (webos_adb_stream_write_generation i gen data s).2
| step_close i gen : engine_step s (webos_adb_stream_close_generation i gen s)
| step_services x : engine_step s (set_services x s)
| step_env e : engine_step s (set_env e s).

Inductive reachable : adb -> Prop :=
| reach_initial x e : reachable (initial x e)
| reach_step s s' : reachable s -> engine_step s s' -> reachable s'.

Lemma core_initial x e : core (initial x e).
Proof.
  pose proof range_max_payload. pose proof range_control_depth. split; simpl; try done.
  - by rewrite length_replicate.
  - intros i st [-> _]%lookup_replicate. apply stream_ok_zero.
  - by intros i st [-> _]%lookup_replicate.
  - apply (SlotQueue.qwf_reset (SlotQueue.Queue (replicate ADB_CONTROL_QUEUE_DEPTH (Packet 0 0 0 [])) 0 0 0)).
    unfold SlotQueue.qcap. simpl. rewrite length_replicate. lia.
  - unfold SlotQueue.qcap. simpl. by rewrite length_replicate.
  - lia.
Qed.

Lemma engine_reachable_inv s : reachable s -> inv s.
Proof.
  induction 1 as [x e|s s' _ Hi Hst].
  - split; [apply core_initial| |apply rx_ok_zero|done]. intros i st [-> _]%lookup_replicate. done.
  - destruct Hst as [| |data ret s' Hr| |i gen data|i gen|x|e].
    + apply inv_reset. destruct (i_core s Hi). by split.
    + apply inv_reset, Hi.
    + destruct (inv_receive data s Hi) as (r & Hr' & Hi'). rewrite Hr in Hr'. by simplify_eq.
    + apply (inv_good s); [done|]. apply good_tx_ready, Hi.
    + apply (inv_good s); [done|]. apply good_write, Hi.
    + apply (inv_good s); [done|]. apply good_close, Hi.
    + apply (inv_good s); [done|]. apply good_services, Hi.
    + apply (inv_good s); [done|]. apply good_env, Hi.
Qed.

(** ** Flow control *)

(** In a history without a violation two packets of a slot have an
    acknowledgement, a release of the slot or a refused write between them. *)
Lemma flight_none i l : foldl (flight_step i) None l = None.
Proof. induction l as [|e l IH]; [done|]. exact IH. Qed.

Lemma flight_busy i l b :
  foldl (flight_step i) (Some true) l = Some b ->
  (forall e, e ∈ l -> e <> WAck i /\ e <> WDrop i /\ e <> WFail i) -> b = true /\ forall p, WData i p ∉ l.
Proof.
  revert b. induction l as [|e l IH]; intros b; [intros [= <-]; set_solver|]. cbn [foldl]. intros Hf Hl.
  assert (flight_step i (Some true) e = Some true /\ forall p, e <> WData i p) as [He Hp].
  { destruct (Hl e ltac:(set_solver)) as (Ha & Hd & Hw).
    destruct e as [p|j p|j|j|j]; simpl in *; [done| | | |].
    - case_decide as Hj; [by rewrite flight_none in Hf|]. split; [done|]. congruence.
    - by rewrite decide_False by congruence.
    - by rewrite decide_False by congruence.
    - by rewrite decide_False by congruence. }
  rewrite He in Hf. destruct (IH b Hf) as [-> Hno]; [intros e' He'; apply Hl; set_solver|].
  split; [done|]. intros p [Hpe|Hpl]%elem_of_cons; [by apply (Hp p)|by apply (Hno p)].
Qed.

Lemma flight_alternates i l1 p l2 q l3 b :
  flight i (l1 ++ WData i p :: l2 ++ WData i q :: l3) = Some b -> WAck i ∈ l2 \/ WDrop i ∈ l2 \/ WFail i ∈ l2.
Proof.
  intros Hf. destruct (decide (WAck i ∈ l2)) as [|Ha]; [by left|]. destruct (decide (WDrop i ∈ l2)) as [|Hd]; [by right; left|].
  destruct (decide (WFail i ∈ l2)) as [|Hw]; [by right; right|].
  exfalso. rewrite flight_app in Hf. cbn [foldl] in Hf.
  destruct (flight i l1) as [[]|]; simpl in Hf; rewrite ?decide_True in Hf by done; try (by rewrite flight_none in Hf).
  rewrite foldl_app in Hf. cbn [foldl] in Hf.
  destruct (foldl (flight_step i) (Some true) l2) as [c|] eqn:Ec; [|by rewrite flight_none in Hf].
  destruct (flight_busy i l2 c Ec) as [-> _]; [intros e He; split_and!; intros ->; done|].
  simpl in Hf. rewrite decide_True in Hf by done. by rewrite flight_none in Hf.
Qed.

(** ** Without authentication support *)

(** The packets a build that never opens a session may send: the refusal of a
    write. *)
Definition refusal (e : wire_event) : Prop := exists r, e = WControl (Packet ADB_COMMAND_CLSE 0 r []).

(** Nothing is online and the services have not been called. *)
Record offline s0 s : Prop := {
  o_online : online s = false;
  o_idle : idle s;
  o_services : services s = services s0;
  o_wire : exists l, wire s = wire s0 ++ l /\ Forall refusal l;
}.

Lemma idle_find l r s : idle s -> find_stream l r s = None.
Proof.
  intros Hi. destruct (find_stream l r s) as [i|] eqn:Ef; [|done].
  apply find_stream_Some in Ef as (_ & Hu & _). by rewrite Hi in Hu.
Qed.

Lemma offline_set_rx s0 x s : offline s0 s -> offline s0 (set_rx x s).
Proof. intros []. by split. Qed.

Lemma offline_env s0 e s : offline s0 s -> offline s0 (set_env e s).
Proof. intros []. by split. Qed.

Lemma offline_close s0 r s : offline s0 s -> offline s0 (send_close 0 r s).2.
Proof.
  intros Ho. unfold send_close, send_control.
  assert (forall s, offline s0 s -> offline s0 (enqueue_control ADB_COMMAND_CLSE 0 r [] s).2) as Henq.
  { clear. intros s [Hon Hi Hs Hw]. unfold enqueue_control. repeat case_decide; by split. }
  case_decide; [by apply Henq|]. destruct (send_packet_raw _ _ _ _ _ s) as [ret s1] eqn:Es.
  assert (offline s0 s1) as Ho1.
  { revert Es. unfold send_packet_raw. destruct (connected s); [|by intros [= <- <-]].
    destruct (transport_send _ _ _) as [r' e]. intros [= <- <-]. destruct Ho as [Hon Hi Hs (l & Hw & Hl)].
    split; try done. simpl. case_decide.
    - exists (l ++ [WControl (Packet ADB_COMMAND_CLSE 0 r [])]). rewrite Hw, app_assoc. split; [done|].
      apply Forall_app. split; [done|]. apply Forall_singleton. by exists r.
    - exists l. by rewrite app_nil_r. }
  destruct (flow_control_error ret); [by apply Henq|done].
Qed.

Lemma offline_dispatch s0 s :
  ADB_ALLOW_NO_AUTH = false -> offline s0 s -> offline s0 (dispatch_message s).2.
Proof.
  intros Hna Ho. pose proof (o_idle _ _ Ho) as Hi. unfold dispatch_message.
  case_decide; [done|]. case_decide; [by unfold handle_connect; rewrite Hna|].
  case_decide.
  { unfold handle_open. destruct (open_destination s) as [d|] eqn:Ed; [|done].
    apply open_destination_online in Ed. by rewrite (o_online _ _ Ho) in Ed. }
  case_decide; [unfold handle_write; rewrite idle_find by done; by apply offline_close|].
  case_decide; [unfold handle_ready; by rewrite idle_find|].
  case_decide; [unfold handle_close; by rewrite idle_find|]. done.
Qed.

Lemma offline_payload s0 data s :
  ADB_ALLOW_NO_AUTH = false -> offline s0 s ->
  match receive_payload data s with inl (_, s') => offline s0 s' | inr (_, s') => offline s0 s' end.
Proof.
  intros Hna Ho. unfold receive_payload. cbn zeta. case_decide; [|by apply offline_set_rx].
  match goal with |- context [dispatch_message ?a] =>
    pose proof (offline_dispatch s0 a Hna (offline_set_rx s0 _ s Ho)) as Hd; destruct (dispatch_message a) as [ret s2] end.
  case_decide; by apply offline_set_rx.
Qed.

Lemma offline_decode s0 s : offline s0 s -> offline s0 (decode_header s).2.
Proof.
  intros Ho. unfold decode_header. cbn zeta. case_decide; [by apply offline_set_rx|].
  destruct (k_malloc _ _) as [[] e]; by apply offline_set_rx, offline_env.
Qed.

Lemma offline_step s0 data s :
  ADB_ALLOW_NO_AUTH = false -> offline s0 s ->
  match receive_step data s with inl (_, s') => offline s0 s' | inr (_, s') => offline s0 s' end.
Proof.
  intros Hna Ho. unfold receive_step. case_decide; [|case_decide; [by apply offline_payload|done]].
  assert (match receive_header data s with inl (_, s') => offline s0 s' | inr (_, s') => offline s0 s' end) as Hh.
  { unfold receive_header. cbn zeta. case_decide; [by apply offline_set_rx|].
    match goal with |- context [decode_header ?a] =>
      pose proof (offline_decode s0 a (offline_set_rx s0 _ s Ho)) as Hd; destruct (decode_header a) as [ret s2] end.
    case_decide; [by apply offline_set_rx|]. case_decide; [|done].
    pose proof (offline_dispatch s0 s2 Hna Hd) as Hd'. destruct (dispatch_message s2) as [ret' s3].
    case_decide; by apply offline_set_rx. }
  destruct (receive_header data s) as [[ret s1]|[d s1]]; [done|]. case_decide; [by apply offline_payload|done].
Qed.

Lemma offline_loop s0 fuel data s r :
  ADB_ALLOW_NO_AUTH = false -> offline s0 s -> receive_loop fuel data s = Some r -> offline s0 r.2.
Proof.
  intros Hna. revert data s. induction fuel as [|fuel IH]; intros data s Ho.
  - destruct data; [|done]. by intros [= <-].
  - destruct (decide (data = [])) as [->|Hne]; [by intros [= <-]|]. rewrite receive_loop_unfold by done.
    pose proof (offline_step s0 data s Hna Ho) as Hs.
    destruct (receive_step data s) as [[ret s1]|[d s1]]; [by intros [= <-]|]. by apply IH.
Qed.

Lemma offline_receive s data ret s' :
  ADB_ALLOW_NO_AUTH = false -> session s -> online s = false ->
  webos_adb_protocol_receive data s = Some (ret, s') -> offline s s'.
Proof.
  intros Hna Hs Hon. assert (offline s (set_dispatching true s)) as Ho.
  { split; simpl; [done| |done|]; [|exists []; by rewrite app_nil_r].
    intros i. apply not_true_is_false. intros Hu.
    pose proof (used_lookup (set_dispatching true s) i Hu) as Hi. simpl in Hi. specialize (Hs i _ Hi Hu). congruence. }
  unfold webos_adb_protocol_receive. destruct (protocol_receive_unlocked _ _) as [[r s1]|] eqn:El; [|done].
  intros [= <- <-]. by destruct (offline_loop s _ _ _ _ Hna Ho El).
Qed.

Lemma no_auth_never_online s : ADB_ALLOW_NO_AUTH = false -> reachable s -> online s = false.
Proof.
  intros Hna. induction 1 as [x e|s s' Hr Hon Hst]; [done|]. destruct (engine_reachable_inv s Hr) as [Hc Hs _ _].
  destruct Hst as [| |data ret s' Hrc| |i gen data|i gen|x|e]; try done.
  - by eapply o_online, offline_receive.
  - exact (eq_trans (g_online _ _ (good_tx_ready s Hc)) Hon).
  - exact (eq_trans (g_online _ _ (good_write i gen data s Hc)) Hon).
  - exact (eq_trans (g_online _ _ (good_close i gen s Hc)) Hon).
Qed.

(** ** Theorems *)

(** C1: every state the engine reaches, whatever the transport, the peer, the
    services and the interleaving of their calls do, satisfies the invariant:
    stream slots, transmit buffers, the control queue and the payload buffer
    are within bounds, freed slots are zeroed, streams exist only while a
    session is online, the receiver is consistent, and receiving any bytes
    returns. *)
Theorem adb_engine_invariant s :
  reachable s ->
  core s /\ session s /\ rx_ok (rx s)
  /\ forall data, exists ret s', webos_adb_protocol_receive data s = Some (ret, s').
Proof.
  intros Hr. pose proof (engine_reachable_inv s Hr) as Hi. split_and!; [apply Hi..|].
  intros data. destruct (inv_receive data s Hi) as ([ret s'] & E' & _). eauto.
Qed.

(** C4: reassembly does not depend on how the transport splits the stream:
    receiving two pieces one after the other, stopping at an error, is the
    same as receiving their concatenation. *)
Theorem adb_receive_any_split s (a b : list byte) :
  reachable s ->
  webos_adb_protocol_receive (a ++ b) s
  = match webos_adb_protocol_receive a s with
    | Some (ret, s') => if decide (ret = 0%Z) then webos_adb_protocol_receive b s' else Some (ret, s')
    | None => None
    end.
Proof.
  intros Hi%engine_reachable_inv. destruct (receiving_start s Hi) as [Hr Hok].
  unfold webos_adb_protocol_receive, protocol_receive_unlocked.
  rewrite (receive_loop_app (length a)) by done.
  destruct (receive_loop_fuel (length a) a (set_dispatching true s)) as ([ret s1] & Hl & _ & _); [done..|].
  rewrite Hl. pose proof (receiving_loop _ _ _ _ Hr Hok Hl) as (_ & _ & Hd). cbn [fmap option_fmap option_map fst snd].
  case_decide; [|done]. assert (set_dispatching true (set_dispatching false s1) = s1) as ->; [|done].
  destruct s1. simpl in *. by subst.
Qed.

(** A packet encoded by [encode_message] that arrives whole between packets
    is dispatched exactly once, with the command, arguments, payload and
    checksum that were sent, when memory for its payload can be allocated. *)
Theorem adb_packet_dispatched_as_sent s c (a0 a1 : Z) pl e :
  reachable s -> rx s = zero_rx ->
  (0 <= c < 2 ^ 32)%Z -> (0 <= a0 < 2 ^ 32)%Z -> (0 <= a1 < 2 ^ 32)%Z -> length pl <= ADB_MAX_PAYLOAD ->
  (pl = [] /\ e = environment s \/ pl <> [] /\ k_malloc (environment s) (Z.of_nat (length pl)) = (true, e)) ->
  webos_adb_protocol_receive (encode_message c a0 a1 pl ++ pl) s
  = let '(ret, s') := dispatch_message (arrived c a0 a1 pl e (set_dispatching true s)) in
    Some (ret, set_dispatching false (reset_rx s')).
Proof.
  intros _ Hrx Hc H0 H1 Hl He. unfold webos_adb_protocol_receive.
  rewrite (receive_packet c a0 a1 pl (set_dispatching true s) e) by done. by destruct (dispatch_message _) as [ret s'].
Qed.

(** Headers round-trip: decoding an encoded header yields the fields that
    were encoded, and it passes validation when the payload is within the
    maximum. *)
Theorem adb_header_round_trip c (a0 a1 : Z) pl rest :
  (0 <= c < 2 ^ 32)%Z -> (0 <= a0 < 2 ^ 32)%Z -> (0 <= a1 < 2 ^ 32)%Z -> length pl <= ADB_MAX_PAYLOAD ->
  decode_fields (encode_message c a0 a1 pl ++ rest)
    = Message c a0 a1 (Z.of_nat (length pl)) (adb_checksum pl) (Z.lxor c UINT32_MAX)
  /\ validate_message (decode_fields (encode_message c a0 a1 pl ++ rest)) = 0%Z.
Proof.
  intros Hc H0 H1 Hl. pose proof range_max_payload. rewrite AdbFraming.decode_encode by (done || lia). split; [done|].
  apply validate_decoded. split; [done|]. cbn [data_length]. lia.
Qed.

(** C7: stop and wait: on every reachable history, between two data packets the
    transport accepted for the same stream slot there is an acknowledgement by
    the peer, the release of the slot, or a write of the peer that the service
    refused, upon which the engine gives up waiting for the acknowledgement; if
    the services refuse no write, it is an acknowledgement or a release. *)
Theorem adb_stop_and_wait s i l1 p l2 q l3 :
  reachable s -> i < ADB_MAX_STREAMS -> wire s = l1 ++ WData i p :: l2 ++ WData i q :: l3 ->
  (WAck i ∈ l2 \/ WDrop i ∈ l2 \/ WFail i ∈ l2) /\ (writes_succeed -> WAck i ∈ l2 \/ WDrop i ∈ l2).
Proof.
  intros Hr Hlt Hw. destruct (engine_reachable_inv s Hr) as [Hc _ _ _].
  rewrite <- (c_count s Hc) in Hlt. pose proof (flight_in_range s i Hc Hlt) as Hf. rewrite Hw in Hf.
  apply flight_alternates in Hf. split; [done|]. intros Hok. destruct Hf as [Ha|[Hd|Hl]]; [by left|by right|].
  pose proof (c_failures s Hc Hok) as Hn. rewrite Hw in Hn. rewrite Forall_forall in Hn.
  by specialize (Hn (WFail i) ltac:(set_solver)).
Qed.

(** Output order: whatever [send_control] accepts joins the end of the
    output (the packets the transport took, then the queue); draining the
    queue and the calls of streams never reorder, drop or insert before what is
    already there. *)
Theorem adb_output_fifo s :
  reachable s ->
  (forall c (a0 a1 : Z) pl s', send_control c a0 a1 pl s = (0%Z, s') -> out s' = out s ++ [Packet c a0 a1 pl])
  /\ (forall ret s', pump_controls s = (ret, s') -> out s' = out s)
  /\ out s `prefix_of` out (webos_adb_protocol_tx_ready s)
  /\ (forall i gen data, out s `prefix_of` out (webos_adb_stream_write_generation i gen data s).2)
  /\ (forall i gen, out s `prefix_of` out (webos_adb_stream_close_generation i gen s)).
Proof.
  intros Hr. destruct (engine_reachable_inv s Hr) as [Hc _ _ _]. split_and!.
  - intros c a0 a1 pl s' E'. by destruct (send_control_out c a0 a1 pl s 0 s' Hc E') as (_ & _ & _ & ->).
  - intros ret s' E'. by destruct (pump_loop_spec _ s ret s' Hc (le_n _) E') as (_ & -> & _).
  - apply g_out, good_tx_ready, Hc.
  - intros i gen data. apply g_out, good_write, Hc.
  - intros i gen. apply g_out, good_close, Hc.
Qed.

(** A build without [ALLOW_NO_AUTH] serves nobody: in no reachable state is
    it online or has it a stream, and receiving any bytes calls no service and
    sends nothing but refusals (CLSE packets with local id 0). *)
Theorem adb_no_auth_build_refuses s data ret s' :
  ADB_ALLOW_NO_AUTH = false -> reachable s -> webos_adb_protocol_receive data s = Some (ret, s') ->
  online s' = false /\ (forall i, used (get_stream s' i) = false) /\ services s' = services s
  /\ exists l, wire s' = wire s ++ l /\ Forall refusal l.
Proof.
  intros Hna Hr Hrc. destruct (engine_reachable_inv s Hr) as [_ Hs _ _].
  by destruct (offline_receive s data ret s' Hna Hs (no_auth_never_online s Hna Hr) Hrc).
Qed.

(** A CONNECT starts a clean session: afterwards no stream of the old
    session is in use, the only queued control packet can be the banner, local
    ids start again at 1, the payload limit is what the peer announced, capped,
    and the engine is online exactly when the banner was sent or queued. *)
Theorem adb_connect_starts_session s ret s' :
  ADB_ALLOW_NO_AUTH = true -> reachable s -> (0 <= arg1 (message (rx s)))%Z ->
  handle_connect s = (ret, s') ->
  (forall i, used (get_stream s' i) = false) /\ next_local_id s' = 1%Z
  /\ negotiated_payload s' = Z.min (arg1 (message (rx s))) (Z.of_nat ADB_MAX_PAYLOAD)
  /\ (online s' = true <-> ret = 0%Z)
  /\ exists l, wire s' = wire s ++ l
       /\ omap packet_of l ++ SlotQueue.qview (control s')
          = if decide (ret = 0%Z) then [Packet ADB_COMMAND_CNXN ADB_VERSION (Z.of_nat ADB_MAX_PAYLOAD) device_banner] else [].
Proof.
  intros Hna Hr Ha. destruct (engine_reachable_inv s Hr) as [Hc _ _ _]. rewrite handle_connect_unfold by done.
  destruct (connect_prepared_ok s Hc Ha) as ([Hc1 _ _ _ _ _] & Hidle & Hon & Hq & Hid & Hne & l1 & Hw1 & Hl1).
  set (s1 := connect_prepared s) in *. unfold send_connect.
  destruct (send_control _ _ _ _ s1) as [r s2] eqn:Es.
  destruct (send_control_out _ _ _ _ s1 r s2 Hc1 Es) as (Hg & Hst & Hid2 & Ho).
  destruct (g_wire _ _ Hg) as [l2 Hw2].
  assert (omap packet_of (l1 ++ l2) ++ SlotQueue.qview (control s2)
    = accepted r (Packet ADB_COMMAND_CNXN ADB_VERSION (Z.of_nat ADB_MAX_PAYLOAD) device_banner)) as Hout.
  { rewrite omap_app, Hl1. revert Ho. unfold out, sent. rewrite Hw2, omap_app, <- app_assoc.
    assert (SlotQueue.qview (control s1) = []) as ->.
    { apply length_zero_iff_nil. by rewrite SlotQueue.length_qview by apply Hc1. }
    rewrite app_nil_r. apply app_inv_head. }
  assert (forall i, used (get_stream s2 i) = false) as Hi2 by (intros i; unfold get_stream; rewrite Hst; apply Hidle).
  case_decide as Hr0; intros [= <- <-]; (split_and!; [done|simpl; congruence|simpl; rewrite <- Hne; apply Hg| |]).
  - done.
  - exists (l1 ++ l2). subst r. split; [|exact Hout]. simpl. by rewrite Hw2, Hw1, app_assoc.
  - rewrite (g_online _ _ Hg), Hon. done.
  - exists (l1 ++ l2). unfold accepted in Hout. split; [|exact Hout]. by rewrite Hw2, Hw1, app_assoc.
Qed.
End spec.

(** ** Witnesses *)

(** The configuration of app/prj.conf and the Kconfig defaults, a transport
    that accepts everything, and a service that accepts every stream. *)
Definition demo_config (auth : bool) : AdbConfig.
Proof. refine (Build_AdbConfig 4096 512 512 4 128 2 auth true true true true true _ _ _ _ _); lia. Defined.
Definition demo_env : AdbEnv := Build_AdbEnv unit (fun e _ _ => (0%Z, e)) id (fun e _ => (true, e)) (fun e => (0%Z, e)).
Definition demo_services : AdbServices :=
  Build_AdbServices unit (fun _ => false) (fun _ x _ _ => Ret (0%Z, x)) (fun _ => Some (fun x _ _ => Ret (0%Z, x)))
    (fun _ => None) (fun _ => None).

Section demo.
Context (auth : bool).
#[local] Instance demo_config_instance : AdbConfig := demo_config auth.
#[local] Existing Instance demo_env.
#[local] Existing Instance demo_services.

Definition demo_packet (c a0 a1 : Z) (pl : list byte) : list byte := encode_message c a0 a1 pl ++ pl.

(** What the peer sends: a connection, then a shell stream. *)
Definition demo_input : list byte :=
  demo_packet ADB_COMMAND_CNXN ADB_VERSION 4096 (cs "host::")
  ++ demo_packet ADB_COMMAND_OPEN 7 0 (cs "shell:" ++ [NUL]).

Definition received (data : list byte) (s : adb) : adb :=
  match webos_adb_protocol_receive data s with Some (_, s') => s' | None => s end.

Definition demo0 : adb := webos_adb_protocol_init (initial tt tt).
Definition demo1 : adb := received demo_input demo0.
Definition demo2 : adb := (webos_adb_stream_write_generation 0 1 (cs "a") demo1).2.
Definition demo3 : adb := received (demo_packet ADB_COMMAND_OKAY 7 1 []) demo2.
Definition demo4 : adb := (webos_adb_stream_write_generation 0 1 (cs "b") demo3).2.

Lemma received_reachable data s : reachable s -> reachable (received data s).
Proof.
  intros Hr. unfold received. destruct (webos_adb_protocol_receive data s) as [[ret s']|] eqn:Er; [|done].
  eapply reach_step; [exact Hr|]. by eapply step_receive.
Qed.

Lemma demo0_reachable : reachable demo0.
Proof. eapply reach_step; [apply reach_initial|apply step_init]. Qed.

Lemma demo4_reachable : reachable demo4.
Proof.
  eapply reach_step; [|apply step_write]. apply received_reachable.
  eapply reach_step; [|apply step_write]. apply received_reachable, demo0_reachable.
Qed.
End demo.

#[local] Existing Instance demo_env.
#[local] Existing Instance demo_services.
#[local] Instance demo_config_on : AdbConfig := demo_config true.

Lemma adb_engine_invariant_witness :
  exists ret s', webos_adb_protocol_receive (demo_packet ADB_COMMAND_CLSE 7 1 []) (demo4 true) = Some (ret, s').
Proof. apply (adb_engine_invariant (demo4 true) (demo4_reachable true)). Defined.

Lemma adb_receive_any_split_witness :
  webos_adb_protocol_receive (take 30 demo_input ++ drop 30 demo_input) (demo0 true)
  = match webos_adb_protocol_receive (take 30 demo_input) (demo0 true) with
    | Some (ret, s') =>
        if decide (ret = 0%Z) then webos_adb_protocol_receive (drop 30 demo_input) s' else Some (ret, s')
    | None => None
    end.
Proof.
  apply (adb_receive_any_split (demo0 true) (take 30 demo_input) (drop 30 demo_input) (demo0_reachable true)).
Defined.

Lemma adb_packet_dispatched_as_sent_witness :
  webos_adb_protocol_receive (encode_message ADB_COMMAND_CLSE 7 1 [] ++ []) (demo4 true)
  = let '(ret, s') := dispatch_message (arrived ADB_COMMAND_CLSE 7 1 [] tt (set_dispatching true (demo4 true))) in
    Some (ret, set_dispatching false (reset_rx s')).
Proof.
  apply (adb_packet_dispatched_as_sent (demo4 true) ADB_COMMAND_CLSE 7 1 [] tt (demo4_reachable true));
    [vm_compute; reflexivity|split; [discriminate|reflexivity]|lia|lia|vm_compute; lia|left; split; reflexivity].
Defined.

Lemma adb_header_round_trip_witness :
  decode_fields (encode_message ADB_COMMAND_WRTE 1 7 (cs "ab") ++ [])
    = Message ADB_COMMAND_WRTE 1 7 2 195 (Z.lxor ADB_COMMAND_WRTE UINT32_MAX)
  /\ validate_message (decode_fields (encode_message ADB_COMMAND_WRTE 1 7 (cs "ab") ++ [])) = 0%Z.
Proof.
  apply (adb_header_round_trip ADB_COMMAND_WRTE 1 7 (cs "ab") []);
    [split; [discriminate|reflexivity]|lia|lia|apply Nat.leb_le; vm_compute; reflexivity].
Defined.

Lemma adb_stop_and_wait_witness :
  WAck 0 ∈ take 1 (drop 3 (wire (demo4 true))) \/ WDrop 0 ∈ take 1 (drop 3 (wire (demo4 true))).
Proof.
  apply (adb_stop_and_wait (demo4 true) 0 (take 2 (wire (demo4 true))) (Packet ADB_COMMAND_WRTE 1 7 (cs "a"))
           (take 1 (drop 3 (wire (demo4 true)))) (Packet ADB_COMMAND_WRTE 1 7 (cs "b")) [] (demo4_reachable true));
    [apply (bool_decide_unpack _); vm_compute; exact I|vm_compute; reflexivity|].
  intros o w x i data s [= <-]. reflexivity.
Defined.

Lemma adb_output_fifo_witness : out (demo4 true) `prefix_of` out (webos_adb_protocol_tx_ready (demo4 true)).
Proof. exact (proj1 (proj2 (proj2 (adb_output_fifo (demo4 true) (demo4_reachable true))))). Defined.

Lemma adb_connect_starts_session_witness :
  used (get_stream (handle_connect (demo4 true)).2 0) = false.
Proof.
  refine (proj1 (adb_connect_starts_session (demo4 true) (handle_connect (demo4 true)).1
                   (handle_connect (demo4 true)).2 _ _ _ _) 0);
    [reflexivity|apply demo4_reachable|vm_compute; discriminate|apply surjective_pairing].
Defined.

Lemma adb_no_auth_build_refuses_witness :
  let s' := received false demo_input (demo0 false) in
  online s' = false.
Proof.
  apply (adb_no_auth_build_refuses (cfg := demo_config false) (demo0 false) demo_input (- EACCES)
           (received false demo_input (demo0 false)));
    [reflexivity|apply demo0_reachable|vm_compute; reflexivity].
Defined.

(** A refused write gives up the wait for an acknowledgement. Normally the slot
    is closed and released at once; when the CLSE cannot be queued, because the
    transport is busy and the control queue is full, the slot stays, and the
    service can send another packet although the first one was never
    acknowledged. The transport of this example is busy for its fourth
    packet, and the service refuses every write. *)
Module RefusedWrite.
#[local] Instance busy_env : AdbEnv :=
  Build_AdbEnv nat
    (fun n _ _ => (if decide (n = 3) then (- EBUSY)%Z else 0%Z, Datatypes.S n))
    id (fun e _ => (true, e)) (fun e => (0%Z, e)).
#[local] Instance refusing_services : AdbServices :=
  Build_AdbServices unit (fun _ => false) (fun _ x _ _ => Ret (0%Z, x)) (fun _ => Some (fun x _ _ => Ret ((- EINVAL)%Z, x)))
    (fun _ => None) (fun _ => None).

Definition received (data : list byte) (s : adb) : adb :=
  match webos_adb_protocol_receive data s with Some (_, s') => s' | None => s end.

(** A connection, a stream and its first packet; writes to a stream that does
    not exist, whose refusals fill the queue; a write to the stream. *)
Definition refused : adb :=
  let s := received demo_input (webos_adb_protocol_init (initial tt 0)) in
  let s := (webos_adb_stream_write_generation 0 1 (cs "a") s).2 in
  let s := received (concat (replicate ADB_CONTROL_QUEUE_DEPTH (demo_packet ADB_COMMAND_WRTE 9 9 (cs "x")))) s in
  received (demo_packet ADB_COMMAND_WRTE 7 1 (cs "x")) s.

(** The service sends again, and the transport is ready again. *)
Definition resent : adb :=
  webos_adb_protocol_tx_ready (webos_adb_stream_write_generation 0 1 (cs "b") refused).2.

Example refused_write_sends_twice :
  omap (fun e => match e with WControl _ => None | e => Some e end) (wire resent)
  = [WData 0 (Packet ADB_COMMAND_WRTE 1 7 (cs "a")); WFail 0; WData 0 (Packet ADB_COMMAND_WRTE 1 7 (cs "b"))].
Proof. vm_compute. reflexivity. Qed.
End RefusedWrite.
