(* ===== verification/AdbTransport.v ===== *)
(** * The ADB protocol engine over a transport

    The engine reaches the transport, the heap and the reboot timer only
    through [AdbEnv], and the packets it records as sent are the ones the
    transport accepted.  Whatever an invariant says of the environment and of
    the packets sent, it holds after every operation of the engine when each
    call of the environment preserves it ([TransportInvariant]).  AdbUsbSpec.v
    uses this for the USB transport. *)

From S2P Require Import Prelude CLib Ring AdbProtocol AdbFraming AdbInvariant.
From Stdlib Require Import ZArith Lia.
From Stdlib Require Import Strings.Byte.
From stdpp Require Import base numbers list list_numbers strings.

Import Adb.

(** What each call of the environment preserves. *)
Class TransportInvariant {E : AdbEnv} (I : env -> list packet -> Prop) : Prop := {
  ti_send : forall e ps c a0 a1 pl, I e ps ->
    let '(ret, e') := transport_send e (encode_message c a0 a1 pl) pl in
    I e' (ps ++ if decide (ret = 0%Z) then [Packet c a0 a1 pl] else []);
  ti_reset_tx : forall e ps, I e ps -> I (webos_adb_usb_reset_tx e) ps;
  ti_malloc : forall e ps n, I e ps -> I (k_malloc e n).2 ps;
  ti_reboot : forall e ps, I e ps -> I (webos_adb_reboot_request e).2 ps;
}.

Section transport.
Context {cfg : AdbConfig} {E : AdbEnv} {S : AdbServices}.
Context (I : env -> list packet -> Prop) `{!TransportInvariant I}.
Implicit Types (s : adb) (i : nat).

Definition holds s : Prop := I (environment s) (sent s).

(** Stores that do not reach the environment keep it. *)
Lemma holds_eq s s' : environment s' = environment s -> sent s' = sent s -> holds s -> holds s'.
Proof. unfold holds. by intros -> ->. Qed.

Lemma holds_log l s : omap packet_of l = [] -> holds s -> holds (log l s).
Proof. intros Hl. apply holds_eq; [done|]. unfold sent. simpl. by rewrite omap_app, Hl, app_nil_r. Qed.

Lemma holds_send_raw ev c (a0 a1 : Z) pl s :
  (forall p, packet_of (ev p) = Some p) -> holds s -> holds (send_packet_raw ev c a0 a1 pl s).2.
Proof.
  intros Hev Hs. unfold send_packet_raw. destruct (connected s); [|done].
  pose proof (ti_send _ _ c a0 a1 pl Hs) as Ht. destruct (transport_send _ _ _) as [r e].
  unfold holds, sent in *. simpl. rewrite omap_app.
  destruct (decide (r = 0%Z)); simpl; [|done]. by rewrite Hev.
Qed.

Lemma holds_enqueue c (a0 a1 : Z) pl s : holds s -> holds (enqueue_control c a0 a1 pl s).2.
Proof. intros Hs. unfold enqueue_control. repeat (case_decide; [done|]). done. Qed.

Lemma holds_send_control c (a0 a1 : Z) pl s : holds s -> holds (send_control c a0 a1 pl s).2.
Proof.
  intros Hs. unfold send_control. case_decide; [by apply holds_enqueue|].
  pose proof (holds_send_raw WControl c a0 a1 pl s (fun _ => eq_refl) Hs) as H1.
  destruct (send_packet_raw _ _ _ _ _ s) as [r s1].
  destruct (flow_control_error r); [by apply holds_enqueue|done].
Qed.

Lemma holds_pump_loop fuel s : holds s -> holds (pump_loop fuel s).2.
Proof.
  revert s. induction fuel as [|fuel IH]; intros s Hs; cbn [pump_loop]; [done|].
  case_decide; [|done]. destruct (_ !! _) as [p|]; [|done].
  pose proof (holds_send_raw WControl (p_command p) (p_arg0 p) (p_arg1 p) (p_payload p) s (fun _ => eq_refl) Hs) as H1.
  destruct (send_packet_raw _ _ _ _ _ s) as [r s1]. case_decide; [done|]. by apply IH.
Qed.

(** Continues with the state an operation left behind. *)
Ltac then_holds L :=
  match type of L with
  | holds (?f).2 => let r := fresh "ret" in let s := fresh "s" in destruct f as [r s]; cbn [snd] in L
  | _ => idtac
  end.

Lemma holds_release i s : holds s -> holds (release_stream i s).
Proof.
  intros Hs. unfold release_stream. destruct (used _); [|done]. cbn zeta. apply holds_log; [done|].
  destruct (ops _) as [o|]; [|done]. by destruct (sv_close o).
Qed.

Lemma holds_close_all s : holds s -> holds (close_all_streams s).
Proof.
  unfold close_all_streams. generalize (seq 0 (length (streams s))). intros l.
  revert s. induction l as [|i l IH]; intros s Hs; simpl; [done|]. by apply IH, holds_release.
Qed.

Lemma holds_flush i s : holds s -> holds (flush_stream i s).2.
Proof.
  intros Hs. unfold flush_stream. set (first := if _ && _ then _ else _).
  assert (holds first.2) as H1.
  { subst first. destruct (_ && _); [|done]. case_decide; [done|].
    pose proof (holds_send_raw (WData i) ADB_COMMAND_WRTE (local_id (get_stream s i)) (remote_id (get_stream s i))
      (take (tx_len (get_stream s i)) (tx_data (get_stream s i))) s (fun _ => eq_refl) Hs) as H1.
    then_holds H1. by case_decide. }
  cbn zeta. clearbody first. destruct first as [r s1]. cbn [snd] in H1. case_decide; [done|].
  destruct (_ && _ && _); [|done]. unfold send_close.
  pose proof (holds_send_control ADB_COMMAND_CLSE (local_id (get_stream s1 i)) (remote_id (get_stream s1 i)) [] s1 H1) as H2.
  then_holds H2. case_decide; [done|]. by apply holds_release.
Qed.

Lemma holds_write i gen data s : holds s -> holds (stream_write_locked i gen data s).2.
Proof.
  intros Hs. unfold stream_write_locked. repeat (case_decide; [done|]). destruct (_ || _); [done|]. cbn zeta.
  destruct (dispatching _); [done|].
  match goal with |- context [flush_stream i ?a] => pose proof (holds_flush i a Hs) as H1 end. then_holds H1.
  destruct (flow_control_error _); [done|]. by case_decide.
Qed.

Lemma holds_close i gen s : holds s -> holds (stream_close_locked i gen s).
Proof.
  intros Hs. unfold stream_close_locked. case_decide; [|done]. cbn zeta. destruct (dispatching _); [done|].
  by apply holds_flush.
Qed.

Lemma holds_run {A} (p : prog A) s : holds s -> holds (run p s).2.
Proof.
  revert s. induction p as [a|i gen data k IH|i gen k IH|i k IH|i k IH]; intros s Hs; cbn [run]; auto.
  - pose proof (holds_write i gen data s Hs) as H1. then_holds H1. by apply IH.
  - by apply IH, holds_close.
Qed.

Lemma holds_call p s : holds s -> holds (call p s).2.
Proof.
  intros Hs. unfold call. pose proof (holds_run p s Hs) as H1. destruct (run p s) as [[r x] s1]. done.
Qed.

(** ** The dispatcher *)

Lemma holds_open_stream d r pre o s : holds s -> holds (open_stream d r pre o s).2.
Proof.
  intros Hs. unfold open_stream, allocate_stream, send_ready, send_close. destruct (negb _); [done|].
  destruct (first_index _ _) as [i|]; cbn zeta; [|by apply holds_send_control].
  cbn [allocate_local_id].
  match goal with |- context [call ?p ?a] => assert (holds (call p a).2) as H1 by (by apply holds_call) end.
  then_holds H1. case_decide; [by apply holds_send_control, holds_release|]. cbn zeta.
  match goal with |- context [send_control ?c ?x ?y ?z ?a] => pose proof (holds_send_control c x y z a H1) as H2 end.
  then_holds H2.
  assert (holds (if decide (ret0 = 0%Z) then flush_stream i s1 else (ret0, s1)).2) as H3.
  { case_decide; [by apply holds_flush|done]. }
  then_holds H3. destruct (flow_control_error _); [done|]. case_decide; [by apply holds_release|done].
Qed.

Lemma holds_try_service b d r pre o next s :
  holds s -> (forall s', holds s' -> holds (next s').2) -> holds (try_service b d r pre o next s).2.
Proof.
  intros Hs Hn. unfold try_service. destruct b; [|auto].
  pose proof (holds_open_stream d r pre o s Hs) as H1. then_holds H1. case_decide; auto.
Qed.

Lemma holds_handle_open s : holds s -> holds (handle_open s).2.
Proof.
  intros Hs. unfold handle_open, send_ready, send_close. destruct (open_destination s) as [d|]; [|done]. cbn zeta.
  case_decide; [by apply holds_send_control|]. destruct (ADB_REBOOT && _).
  - case_decide; [by apply holds_send_control|]. cbn [allocate_local_id].
    match goal with |- context [send_control ?c ?x ?y ?z ?a] => pose proof (holds_send_control c x y z a Hs) as H1 end.
    then_holds H1. case_decide; [|done]. pose proof (ti_reboot _ _ H1) as Hr.
    destruct (webos_adb_reboot_request _) as [r e]. done.
  - destruct (ADB_LOGCAT && _ && _); [by apply holds_open_stream|].
    apply holds_try_service; [done|]. intros s' H'. apply holds_try_service; [done|]. intros. by apply holds_send_control.
Qed.

Lemma holds_handle_write s : holds s -> holds (handle_write s).2.
Proof.
  intros Hs. unfold handle_write, send_ready, send_close. cbn zeta.
  destruct (find_stream _ _ s) as [i|]; [|by apply holds_send_control].
  destruct (_ ≫= _) as [w|]; [|by apply holds_send_control].
  pose proof (holds_call (w (services s) i (rx_data s)) s Hs) as H1. then_holds H1. case_decide.
  - apply holds_flush. by apply holds_log.
  - match goal with |- context [send_control ?c ?x ?y ?z ?a] => pose proof (holds_send_control c x y z a H1) as H2 end.
    then_holds H2. case_decide; [by apply holds_flush|done].
Qed.

Lemma holds_handle_ready s : holds s -> holds (handle_ready s).2.
Proof.
  intros Hs. unfold handle_ready. cbn zeta. destruct (find_stream _ _ s) as [i|]; [|done].
  destruct (negb _); [done|]. set (s1 := log _ _). assert (holds s1) as H1 by (by apply holds_log). clearbody s1.
  set (s2 := match _ with Some _ => _ | None => _ end). assert (holds s2) as H2.
  { subst s2. destruct (_ ≫= _) as [f|]; [|done]. pose proof (holds_run (f (services s1) i) s1 H1) as H2. by then_holds H2. }
  destruct (used _); [by apply holds_flush|done].
Qed.

Lemma holds_handle_close s : holds s -> holds (handle_close s).2.
Proof.
  intros Hs. unfold handle_close, send_close. cbn zeta. destruct (find_stream _ _ s) as [i|]; [|done].
  match goal with |- context [send_control ?c ?x ?y ?z ?a] => pose proof (holds_send_control c x y z a Hs) as H1 end.
  then_holds H1. by apply holds_release.
Qed.

Lemma holds_handle_connect s : holds s -> holds (handle_connect s).2.
Proof.
  intros Hs. unfold handle_connect, send_connect. destruct ADB_ALLOW_NO_AUTH; [|done]. cbn zeta.
  set (s1 := close_all_streams _). assert (holds s1) as H1 by (by apply holds_close_all). clearbody s1.
  set (s2 := if ADB_USB then _ else _). assert (holds s2) as H2.
  { subst s2. destruct ADB_USB; [|done]. by apply (ti_reset_tx (environment s1)). }
  clearbody s2.
  match goal with |- context [send_control ?c ?x ?y ?z ?a] => pose proof (holds_send_control c x y z a H2) as H3 end.
  then_holds H3. by case_decide.
Qed.

Lemma holds_dispatch s : holds s -> holds (dispatch_message s).2.
Proof.
  intros Hs. unfold dispatch_message. repeat (case_decide; [done || auto using holds_handle_connect, holds_handle_open,
    holds_handle_write, holds_handle_ready, holds_handle_close|]). done.
Qed.

(** ** Entry points *)

Definition step_holds (r : (Z * adb) + (list byte * adb)) : Prop :=
  match r with inl (_, s) => holds s | inr (_, s) => holds s end.

Lemma holds_receive_header data s : holds s -> step_holds (receive_header data s).
Proof.
  intros Hs. unfold receive_header. cbn zeta. case_decide; [done|].
  set (s1 := set_rx _ s). assert (holds s1) as H1 by done. clearbody s1.
  assert (holds (decode_header s1).2) as H2.
  { unfold decode_header. cbn zeta. case_decide; [done|].
    pose proof (ti_malloc _ _ (data_length (decode_fields (header (rx s1)))) H1) as Hm.
    destruct (k_malloc _ _) as [[|] e]; done. }
  then_holds H2. case_decide; [done|]. case_decide; [|done].
  pose proof (holds_dispatch _ H2) as Hd. then_holds Hd. by case_decide.
Qed.

Lemma holds_receive_payload data s : holds s -> step_holds (receive_payload data s).
Proof.
  intros Hs. unfold receive_payload. cbn zeta. case_decide; [|done].
  set (s1 := set_rx _ s). pose proof (holds_dispatch s1 Hs) as H2. then_holds H2. by case_decide.
Qed.

Lemma holds_receive_loop fuel data s r : holds s -> receive_loop fuel data s = Some r -> holds r.2.
Proof.
  revert data s. induction fuel as [|fuel IH]; intros [|b data] s Hs; cbn [receive_loop]; try by intros [= <-].
  assert (step_holds (receive_step (b :: data) s)) as H1.
  { unfold receive_step. cbn zeta. case_decide.
    - pose proof (holds_receive_header (b :: data) s Hs) as H1. destruct (receive_header _ s) as [[r1 s1]|[d1 s1]]; [done|].
      case_decide; [by apply holds_receive_payload|done].
    - case_decide; [by apply holds_receive_payload|done]. }
  destruct (receive_step _ s) as [[r1 s1]|[d1 s1]]; [by intros [= <-]|]. by apply IH.
Qed.

Lemma holds_receive data s r : holds s -> webos_adb_protocol_receive data s = Some r -> holds r.2.
Proof.
  intros Hs. unfold webos_adb_protocol_receive, protocol_receive_unlocked.
  destruct (receive_loop _ _ _) as [[r1 s1]|] eqn:Er; [|done]. intros [= <-].
  by apply (holds_receive_loop _ _ (set_dispatching true s) _ Hs) in Er.
Qed.

Lemma holds_tx_ready s : holds s -> holds (webos_adb_protocol_tx_ready s).
Proof.
  intros Hs. unfold webos_adb_protocol_tx_ready.
  assert (holds (if online s then pump_controls s else (0%Z, s)).2) as H1.
  { destruct (online s); [by apply holds_pump_loop|done]. }
  then_holds H1. destruct (_ && _); [done|]. destruct (_ && _); [|done].
  generalize (seq 0 (length (streams s0))). intros l. revert s0 H1.
  induction l as [|i l IH]; intros s1 H1; cbn [flush_loop]; [done|]. cbn zeta. destruct (_ && _); [|auto].
  pose proof (holds_flush i s1 H1) as H2. then_holds H2. destruct (flow_control_error _); auto.
Qed.

Lemma holds_reset s : holds s -> holds (webos_adb_protocol_reset s).
Proof. intros Hs. by apply (holds_close_all (reset_rx s)). Qed.
End transport.
