(* ===== verification/AdbUsb.v ===== *)
(** * The USB transport of ADB

    Model of src/lib/adb/transports/adb_usb.c, adb.c and adb_reboot.c: the
    queue of packets waiting for the IN endpoint and the state machine that
    hands each of them to the USB controller as two transfers, the request that
    is posted on the OUT endpoint, the callbacks of the USB device stack and the
    serial number.

    The USB device stack, the heap and the work queue are the parameter
    [UsbStack].  A [net_buf] is named by its address; what [udc_get_buf_info]
    and the buffer say of a completed transfer, its endpoint and its bytes, are
    arguments of [adb_usb_request].  Only one instance of the class exists, so
    the [class_data] every function passes on is the one [adb_usb_class_init]
    stored.

    Every section under [tx_lock] is a definition on [adb_usb_data]; AdbUsbSpec.v
    interleaves them.  The transport is the [AdbEnv] of the engine
    ([usb_transport]); the callbacks of the stack call both and are defined on
    the state of the engine, whose environment is the state of the transport.

    The field [trace] is a ghost, the history of buffers and packets; no
    definition reads it. *)

From S2P Require Import Prelude CLib Ring AdbProtocol.
From Stdlib Require Import ZArith Lia.
From Stdlib Require Import Strings.Byte.
From stdpp Require Import base numbers list list_numbers strings countable.

Import Adb.

(** The Kconfig options of the transport, with their ranges. *)
Class UsbConfig {cfg : AdbConfig} := {
  ADB_USB_TX_QUEUE_DEPTH : nat;
  range_transfer_size : (64 <= Z.of_nat ADB_USB_TRANSFER_SIZE <= 4096)%Z;
  range_tx_queue_depth : 2 <= ADB_USB_TX_QUEUE_DEPTH <= 16;
}.

(** The calls [webos_adb_usb_init] makes to describe and start the device. *)
Inductive device_call :=
| AddLang | AddManufacturer | AddProduct | AddSerial (ascii : list byte) (bLength : Z)
| AddConfiguration | RegisterClass | SetCodeTriple | RegisterMessageCallback | UsbdInit | UsbdEnable.

(** The USB device stack and the driver below it, the heap and the work queue.
    A buffer is named by its address. *)
Class UsbStack := {
  stack : Type;
  usbd_ep_buf_alloc : Z -> nat -> stack -> option nat * stack;        (* endpoint, size *)
  usbd_ep_enqueue : nat -> list byte -> stack -> Z * stack;            (* buffer, its bytes *)
  net_buf_unref : nat -> stack -> stack;
  device_request : device_call -> stack -> Z * stack;
  hwinfo_get_device_id : nat -> stack -> (Z * list byte) * stack;      (* size; length, bytes *)
  heap_malloc : Z -> stack -> bool * stack;
  k_work_reschedule_reboot : stack -> Z * stack;                       (* sys_reboot, after the delay *)
}.

Module Usb.

(** ** Data *)

Definition ADB_USB_OUT_EP : Z := 0x01.
Definition ADB_USB_IN_EP : Z := 0x81.
Definition ADB_SERIAL_PREFIX : list byte := cs "webos-esp32s3-".
Definition ADB_DEVICE_ID_BYTES : nat := 6.
(** [sizeof] counts the NUL of the prefix. *)
Definition ADB_SERIAL_CAPACITY : nat := length ADB_SERIAL_PREFIX + 1 + ADB_DEVICE_ID_BYTES * 2.

Inductive adb_usb_tx_phase := ADB_USB_TX_IDLE | ADB_USB_TX_HEADER | ADB_USB_TX_PAYLOAD.

#[global] Instance phase_eq_dec : EqDecision adb_usb_tx_phase.
Proof. solve_decision. Defined.

Record adb_usb_tx_packet := TxPacket {
  tx_header : list byte;
  tx_payload : list byte;
  payload_len : nat;
}.

(** What happened to buffers and packets, oldest first: a buffer was allocated,
    given to the controller with the bytes of an IN transfer or to receive, given
    back by it, released; a packet joined the queue; the queue was emptied. *)
Inductive usb_event :=
| EAlloc (b : nat)
| EIn (b : nat) (data : list byte)
| EOut (b : nat)
| EDone (b : nat)
| EUnref (b : nat)
| EPacket (header payload : list byte)
| EReset.

(** The bits of [state] are four fields; [class_data] tells whether the pointer
    was set. *)
Record adb_usb_data {K : UsbStack} := Usb {
  class_data : bool;
  ENABLED : bool;
  OUT_ENGAGED : bool;
  IN_ENGAGED : bool;
  RESETTING : bool;
  tx_phase : adb_usb_tx_phase;
  tx_queue : SlotQueue.queue adb_usb_tx_packet;
  active_in_buffer : option nat;
  active_out_buffer : option nat;
  adb_serial : list byte;
  serial_bLength : Z;
  device : stack;
  trace : list usb_event;
}.
Arguments Usb {K}.

Section transport.
Context {cfg : AdbConfig} {ucfg : UsbConfig} {K : UsbStack}.
Implicit Types (u : adb_usb_data) (b : nat).

Definition bulk_out_endpoint : Z := ADB_USB_OUT_EP.
Definition bulk_in_endpoint : Z := ADB_USB_IN_EP.

(** Stores to the fields. *)
Definition set_class_data (x : bool) u : adb_usb_data :=
  Usb x (ENABLED u) (OUT_ENGAGED u) (IN_ENGAGED u) (RESETTING u) (tx_phase u) (tx_queue u)
    (active_in_buffer u) (active_out_buffer u) (adb_serial u) (serial_bLength u) (device u) (trace u).
Definition set_bits (enabled out_engaged in_engaged resetting : bool) u : adb_usb_data :=
  Usb (class_data u) enabled out_engaged in_engaged resetting (tx_phase u) (tx_queue u)
    (active_in_buffer u) (active_out_buffer u) (adb_serial u) (serial_bLength u) (device u) (trace u).
Definition set_enabled (x : bool) u : adb_usb_data := set_bits x (OUT_ENGAGED u) (IN_ENGAGED u) (RESETTING u) u.
Definition set_out_engaged (x : bool) u : adb_usb_data := set_bits (ENABLED u) x (IN_ENGAGED u) (RESETTING u) u.
Definition set_in_engaged (x : bool) u : adb_usb_data := set_bits (ENABLED u) (OUT_ENGAGED u) x (RESETTING u) u.
Definition set_resetting (x : bool) u : adb_usb_data := set_bits (ENABLED u) (OUT_ENGAGED u) (IN_ENGAGED u) x u.
Definition set_tx (p : adb_usb_tx_phase) (q : SlotQueue.queue adb_usb_tx_packet) u : adb_usb_data :=
  Usb (class_data u) (ENABLED u) (OUT_ENGAGED u) (IN_ENGAGED u) (RESETTING u) p q
    (active_in_buffer u) (active_out_buffer u) (adb_serial u) (serial_bLength u) (device u) (trace u).
Definition set_active_in (x : option nat) u : adb_usb_data :=
  Usb (class_data u) (ENABLED u) (OUT_ENGAGED u) (IN_ENGAGED u) (RESETTING u) (tx_phase u) (tx_queue u)
    x (active_out_buffer u) (adb_serial u) (serial_bLength u) (device u) (trace u).
Definition set_active_out (x : option nat) u : adb_usb_data :=
  Usb (class_data u) (ENABLED u) (OUT_ENGAGED u) (IN_ENGAGED u) (RESETTING u) (tx_phase u) (tx_queue u)
    (active_in_buffer u) x (adb_serial u) (serial_bLength u) (device u) (trace u).
Definition set_serial (x : list byte) (n : Z) u : adb_usb_data :=
  Usb (class_data u) (ENABLED u) (OUT_ENGAGED u) (IN_ENGAGED u) (RESETTING u) (tx_phase u) (tx_queue u)
    (active_in_buffer u) (active_out_buffer u) x n (device u) (trace u).
(** A call of the stack, with the events that record it. *)
Definition set_device (x : stack) (l : list usb_event) u : adb_usb_data :=
  Usb (class_data u) (ENABLED u) (OUT_ENGAGED u) (IN_ENGAGED u) (RESETTING u) (tx_phase u) (tx_queue u)
    (active_in_buffer u) (active_out_buffer u) (adb_serial u) (serial_bLength u) x (trace u ++ l).

(** ** Buffers *)

Definition buf_alloc (endpoint : Z) (size : nat) u : option nat * adb_usb_data :=
  let '(r, d) := usbd_ep_buf_alloc endpoint size (device u) in
  (r, set_device d (match r with Some b => [EAlloc b] | None => [] end) u).

(** [usbd_ep_enqueue]; [ev] records that the stack accepted the buffer. *)
Definition ep_enqueue (b : nat) (data : list byte) (ev : usb_event) u : Z * adb_usb_data :=
  let '(ret, d) := usbd_ep_enqueue b data (device u) in
  (ret, set_device d (if decide (ret = 0%Z) then [ev] else []) u).

Definition buf_unref (b : nat) u : adb_usb_data := set_device (net_buf_unref b (device u)) [EUnref b] u.

Definition submit_out u : Z * adb_usb_data :=
  if negb (ENABLED u) || RESETTING u then ((- ENODEV)%Z, u)
  else if OUT_ENGAGED u then ((- EBUSY)%Z, u)
  else
    let u := set_out_engaged true u in
    let '(r, u) := buf_alloc bulk_out_endpoint ADB_USB_TRANSFER_SIZE u in
    match r with
    | None => ((- ENOMEM)%Z, set_out_engaged false u)
    | Some b =>
        let '(ret, u) := ep_enqueue b [] (EOut b) (set_active_out (Some b) u) in
        if decide (ret <> 0%Z) then (ret, set_out_engaged false (buf_unref b (set_active_out None u)))
        else (ret, u)
    end.

Definition enqueue_in (data : list byte) u : Z * adb_usb_data :=
  let '(r, u) := buf_alloc bulk_in_endpoint (length data) u in
  match r with
  | None => ((- ENOMEM)%Z, u)
  | Some b =>
      let '(ret, u) := ep_enqueue b data (EIn b data) (set_active_in (Some b) u) in
      if decide (ret <> 0%Z) then (ret, buf_unref b (set_active_in None u)) else (ret, u)
  end.

(** ** The queue of packets *)

Definition reset_tx_queue_unlocked u : adb_usb_data :=
  set_device (device u) [EReset]
    (set_in_engaged false (set_active_in None (set_tx ADB_USB_TX_IDLE (SlotQueue.reset (tx_queue u)) u))).

Definition reset_tx_queue u : adb_usb_data := reset_tx_queue_unlocked u.

Definition reset_usb_queues u : adb_usb_data :=
  set_out_engaged false (set_active_out None (reset_tx_queue_unlocked u)).

Definition webos_adb_usb_reset_tx u : adb_usb_data := reset_tx_queue u.

Definition zero_packet : adb_usb_tx_packet :=
  TxPacket (replicate WEBOS_ADB_HEADER_SIZE x00) (replicate ADB_USB_TRANSFER_SIZE x00) 0.

(** The slots the code writes at [tx_tail] and reads at [tx_head]. *)
Definition tail_packet u : adb_usb_tx_packet :=
  default zero_packet (SlotQueue.slots (tx_queue u) !! SlotQueue.qtail (tx_queue u)).
Definition head_packet u : adb_usb_tx_packet :=
  default zero_packet (SlotQueue.slots (tx_queue u) !! SlotQueue.qhead (tx_queue u)).

Definition start_tx_packet_unlocked u : Z * adb_usb_data :=
  if decide (SlotQueue.qcount (tx_queue u) = 0) then ((- ENOENT)%Z, u)
  else if IN_ENGAGED u then ((- EBUSY)%Z, u)
  else
    let packet := head_packet u in
    let u := set_tx ADB_USB_TX_HEADER (tx_queue u) (set_in_engaged true u) in
    let '(ret, u) := enqueue_in (tx_header packet) u in
    if decide (ret <> 0%Z) then (ret, set_in_engaged false (set_tx ADB_USB_TX_IDLE (tx_queue u) u))
    else (ret, u).

(** The section of [webos_adb_usb_send]. *)
Definition send_locked (header payload : list byte) u : Z * adb_usb_data :=
  if negb (ENABLED u) || RESETTING u then ((- ENODEV)%Z, u)
  else if decide (SlotQueue.qcount (tx_queue u) = SlotQueue.qcap (tx_queue u)) then ((- ENOSPC)%Z, u)
  else
    let start_now := bool_decide (SlotQueue.qcount (tx_queue u) = 0) in
    let old := tail_packet u in
    let packet := TxPacket (write_at (tx_header old) 0 header) (write_at (tx_payload old) 0 payload) (length payload) in
    let u := set_device (device u) [EPacket header payload]
               (set_tx (tx_phase u) (SlotQueue.enqueue (tx_queue u) packet) u) in
    if start_now then
      let '(ret, u) := start_tx_packet_unlocked u in
      (ret, if decide (ret <> 0%Z) then reset_tx_queue_unlocked u else u)
    else (0%Z, u).

(** [None] is a NULL pointer. *)
Definition webos_adb_usb_send (header : option (list byte)) (header_len : nat)
    (payload : option (list byte)) (len : nat) u : Z * adb_usb_data :=
  if negb (class_data u) || negb (ENABLED u) || RESETTING u then ((- ENODEV)%Z, u)
  else
    match header, payload with
    | Some h, Some p =>
        if decide (header_len <> WEBOS_ADB_HEADER_SIZE) then ((- EINVAL)%Z, u)
        else if decide (ADB_USB_TRANSFER_SIZE < len) then ((- EMSGSIZE)%Z, u)
        else send_locked (take header_len h) (take len p) u
    | Some h, None =>
        if decide (header_len <> WEBOS_ADB_HEADER_SIZE \/ len <> 0) then ((- EINVAL)%Z, u)
        else send_locked (take header_len h) [] u
    | None, _ => ((- EINVAL)%Z, u)
    end.

(** ** Completed transfers *)

(** What the IN section of [adb_usb_request] decides. *)
Record in_result := InResult { in_ret : Z; notify_protocol : bool; reset_protocol : bool }.

(** The IN section for the active buffer. *)
Definition in_complete (b : nat) (err : Z) u : in_result * adb_usb_data :=
  let u := buf_unref b (set_active_in None u) in
  let '(res, u) :=
    if decide (err <> 0%Z) then (InResult 0 false true, reset_tx_queue_unlocked u)
    else if decide (SlotQueue.qcount (tx_queue u) <> 0) then
      let packet := head_packet u in
      if decide (tx_phase u = ADB_USB_TX_HEADER /\ payload_len packet <> 0) then
        let '(ret, u) := enqueue_in (take (payload_len packet) (tx_payload packet))
                           (set_tx ADB_USB_TX_PAYLOAD (tx_queue u) u) in
        if decide (ret <> 0%Z) then (InResult ret false true, reset_tx_queue_unlocked u)
        else (InResult ret false false, u)
      else
        let u := set_in_engaged false (set_tx ADB_USB_TX_IDLE (SlotQueue.dequeue (tx_queue u)) u) in
        if decide (SlotQueue.qcount (tx_queue u) <> 0) then
          let '(ret, u) := start_tx_packet_unlocked u in
          if decide (ret <> 0%Z) then (InResult ret false true, reset_tx_queue_unlocked u)
          else (InResult ret true false, u)
        else (InResult 0 true false, u)
    else (InResult 0 false false, u) in
  (res, if reset_protocol res then set_resetting true u else u).

(** The OUT section for the active buffer. *)
Definition out_complete u : adb_usb_data := set_out_engaged false (set_active_out None u).

(** The controller gives back a buffer. *)
Definition transfer_done (b : nat) u : adb_usb_data := set_device (device u) [EDone b] u.

(** ** The serial number *)

Definition hex : list byte := cs "0123456789abcdef".

(** The loop over the identifier. *)
Definition serial_digits (device_id : list byte) : list byte :=
  concat ((fun c => [nth (Z.to_nat (Z.shiftr (bval c) 4)) hex NUL; nth (Z.to_nat (Z.land (bval c) 0x0f)) hex NUL])
            <$> device_id).

Definition prepare_serial_number u : Z * adb_usb_data :=
  let '((id_len, device_id), d) := hwinfo_get_device_id ADB_DEVICE_ID_BYTES (device u) in
  let u := set_device d [] u in
  if decide (id_len <= 0)%Z then ((if decide (id_len = 0%Z) then - ENODATA else id_len)%Z, u)
  else
    let text := ADB_SERIAL_PREFIX ++ serial_digits (take (Z.to_nat id_len) device_id) in
    (0%Z, set_serial (write_at (adb_serial u) 0 (text ++ [NUL])) ((2 + Z.of_nat (length text) * 2) mod 256) u).

(** The calls after it, up to the first that fails. *)
Fixpoint device_requests (l : list device_call) u : Z * adb_usb_data :=
  match l with
  | [] => (0%Z, u)
  | c :: l' =>
      let '(ret, d) := device_request c (device u) in
      let u := set_device d [] u in
      if decide (ret <> 0%Z) then (ret, u) else device_requests l' u
  end.

Definition webos_adb_usb_init u : Z * adb_usb_data :=
  let '(ret, u) := prepare_serial_number u in
  if decide (ret <> 0%Z) then (ret, u)
  else device_requests [AddLang; AddManufacturer; AddProduct; AddSerial (adb_serial u) (serial_bLength u);
                        AddConfiguration; RegisterClass; SetCodeTriple; RegisterMessageCallback; UsbdInit; UsbdEnable] u.

(** The request of a reboot (adb_reboot.c). *)
Definition webos_adb_reboot_request (target : option (list byte)) (target_len : nat) u : Z * adb_usb_data :=
  if decide (target = None /\ target_len <> 0) then ((- EINVAL)%Z, u)
  else if decide (target_len <> 0) then ((- ENOTSUP)%Z, u)
  else
    let '(ret, d) := k_work_reschedule_reboot (device u) in
    ((if decide (ret < 0)%Z then ret else 0)%Z, set_device d [] u).

(** ** The transport of the engine *)

#[export] Instance usb_transport : AdbEnv := {
  env := adb_usb_data;
  transport_send u header payload := webos_adb_usb_send (Some header) (length header) (Some payload) (length payload) u;
  AdbProtocol.webos_adb_usb_reset_tx := webos_adb_usb_reset_tx;
  k_malloc u n := let '(ok, d) := heap_malloc n (device u) in (ok, set_device d [] u);
  AdbProtocol.webos_adb_reboot_request u := webos_adb_reboot_request None 0 u;
}.

Context {S : AdbServices}.
Implicit Types (s : adb).

(** The transport of an engine, and a step of it. *)
Definition usb s : adb_usb_data := environment s.
Definition on_usb (f : adb_usb_data -> adb_usb_data) s : adb := set_env (f (environment s)) s.
Definition with_usb {R} (f : adb_usb_data -> R * adb_usb_data) s : R * adb :=
  let '(r, u) := f (environment s) in (r, set_env u s).

(** ** The callbacks of the stack *)

(** What [adb_usb_request] returns for a transfer that ended with [err]. *)
Definition request_result (err ret : Z) : Z :=
  if decide (err = (- ECONNABORTED)%Z) then 0%Z else if decide (err <> 0%Z) then err else ret.

Definition request_in (b : nat) (err : Z) s : Z * adb :=
  if decide (active_in_buffer (usb s) <> Some b) then (0%Z, on_usb (buf_unref b) s)
  else
    let '(res, s) := with_usb (in_complete b err) s in
    let s :=
      if reset_protocol res then
        let s := on_usb (set_resetting false) (on_usb reset_usb_queues (webos_adb_protocol_reset s)) in
        if ENABLED (usb s) then (with_usb submit_out s).2 else s
      else if notify_protocol res then webos_adb_protocol_tx_ready s else s in
    (request_result err (in_ret res), s).

(** The bytes of a completed OUT transfer go to the engine. [None]: its loop
    did not return. *)
Definition receive_out (data : list byte) s : option adb :=
  match webos_adb_protocol_receive data s with
  | None => None
  | Some (ret, s) =>
      Some (if decide (ret = (- ENOBUFS)%Z) then
              on_usb (set_resetting false)
                (on_usb reset_usb_queues (webos_adb_protocol_reset (on_usb (set_resetting true) s)))
            else s)
  end.

Definition request_out (b : nat) (data : list byte) (err : Z) s : option (Z * adb) :=
  if decide (active_out_buffer (usb s) <> Some b) then Some (0%Z, on_usb (buf_unref b) s)
  else
    let s := on_usb out_complete s in
    let received := if decide (err = 0%Z /\ data <> [] /\ RESETTING (usb s) = false) then receive_out data s else Some s in
    match received with
    | None => None
    | Some s =>
        let s := on_usb (buf_unref b) s in
        if decide (err <> 0%Z) then Some (request_result err 0, s)
        else if ENABLED (usb s) && negb (RESETTING (usb s)) then Some (with_usb submit_out s)
        else Some (0%Z, s)
    end.

Definition adb_usb_request (endpoint : Z) (b : nat) (data : list byte) (err : Z) s : option (Z * adb) :=
  let s := on_usb (transfer_done b) s in
  if decide (endpoint = bulk_in_endpoint) then Some (request_in b err s)
  else if decide (endpoint = bulk_out_endpoint) then request_out b data err s
  else Some (request_result err 0, on_usb (buf_unref b) s).

Definition adb_usb_class_init s : Z * adb := (0%Z, on_usb (set_class_data true) s).

Definition adb_usb_enable s : adb :=
  let s := webos_adb_protocol_reset (on_usb reset_usb_queues s) in
  (with_usb submit_out (on_usb (set_enabled true) s)).2.

Definition adb_usb_disable s : adb :=
  webos_adb_protocol_reset (on_usb reset_usb_queues (on_usb (set_bits false false false false) s)).

Inductive usbd_msg_type := USBD_MSG_RESET | USBD_MSG_VBUS_REMOVED | USBD_MSG_OTHER.

Definition adb_usb_message (m : usbd_msg_type) s : adb :=
  match m with
  | USBD_MSG_OTHER => s
  | _ => on_usb (set_resetting false)
           (on_usb reset_usb_queues (webos_adb_protocol_reset (on_usb (set_resetting true) s)))
  end.

Definition webos_adb_init s : Z * adb := with_usb webos_adb_usb_init (webos_adb_protocol_init s).

(** The static variables as the loader initialises them. *)
Definition usb_initial (d : stack) : adb_usb_data :=
  Usb false false false false false ADB_USB_TX_IDLE
    (SlotQueue.Queue (replicate ADB_USB_TX_QUEUE_DEPTH zero_packet) 0 0 0)
    None None (replicate ADB_SERIAL_CAPACITY x00) 2 d [].
End transport.
End Usb.
