(* ===== verification/AdbUsbInv.v ===== *)
(** * The USB transport: invariant

    Between any two sections under [tx_lock], whatever their order: the queue is
    a bounded FIFO; the code has an active transfer of its head, which the
    controller holds, exactly while it is not empty (a transfer abandoned by a
    reset of the queue may still be with the controller, and is dropped when it
    completes); the bytes given to the IN endpoint since the queue was last
    emptied, followed by the ones still to give, are the packets that joined it;
    and every buffer is allocated before it is used and released once, by the
    code while it owns it.  [section_inv] is the rule induction over the
    sections. *)

From S2P Require Import Prelude CLib Ring AdbProtocol AdbFraming AdbUsb.
From Stdlib Require Import ZArith Lia.
From Stdlib Require Import Strings.Byte.
From stdpp Require Import base numbers list list_numbers strings countable gmap sets relations.

Import Adb Usb.

(** What the code relies on: an allocated buffer is one nobody uses, and a
    buffer stays in use until it is released. *)
Class UsbStackLaws {K : UsbStack} := {
  in_use : stack -> gset nat;
  alloc_some ep n d b d' :
    usbd_ep_buf_alloc ep n d = (Some b, d') -> b ∉ in_use d /\ {[ b ]} ∪ in_use d ⊆ in_use d';
  alloc_none ep n d d' : usbd_ep_buf_alloc ep n d = (None, d') -> in_use d ⊆ in_use d';
  enqueue_in_use b data d : in_use d ⊆ in_use (usbd_ep_enqueue b data d).2;
  unref_in_use b d : in_use d ∖ {[ b ]} ⊆ in_use (net_buf_unref b d);
  request_in_use c d : in_use d ⊆ in_use (device_request c d).2;
  hwinfo_in_use n d : in_use d ⊆ in_use (hwinfo_get_device_id n d).2;
  malloc_in_use n d : in_use d ⊆ in_use (heap_malloc n d).2;
  reschedule_in_use d : in_use d ⊆ in_use (k_work_reschedule_reboot d).2;
}.

(** ** Ownership of buffers *)

(** A buffer is with the code or, as a transfer on an endpoint, with the
    controller. *)
Inductive owner := Code | Controller (endpoint : Z).

#[global] Instance owner_eq_dec : EqDecision owner.
Proof. solve_decision. Defined.

(** The owners after an event; [None] when the event breaks the rules: giving
    away or releasing a buffer the code does not own. *)
Definition owner_step (o : option (gmap nat owner)) (e : usb_event) : option (gmap nat owner) :=
  l ← o;
  match e with
  | EAlloc b => if decide (l !! b = None) then Some (<[b := Code]> l) else None
  | EIn b _ => if decide (l !! b = Some Code) then Some (<[b := Controller ADB_USB_IN_EP]> l) else None
  | EOut b => if decide (l !! b = Some Code) then Some (<[b := Controller ADB_USB_OUT_EP]> l) else None
  | EDone b => match l !! b with Some (Controller _) => Some (<[b := Code]> l) | _ => None end
  | EUnref b => if decide (l !! b = Some Code) then Some (delete b l) else None
  | EPacket _ _ => Some l
  | EReset => Some l
  end.

Definition owners (tr : list usb_event) : option (gmap nat owner) := foldl owner_step (Some ∅) tr.

(** ** The stream of the IN endpoint *)

(** The bytes queued and the bytes handed to the controller since the last
    reset. *)
Definition stream_step (x : list byte * list byte) (e : usb_event) : list byte * list byte :=
  match e with
  | EPacket h p => (x.1 ++ h ++ p, x.2)
  | EIn _ data => (x.1, x.2 ++ data)
  | EReset => ([], [])
  | _ => x
  end.

Definition streamed (tr : list usb_event) : list byte * list byte := foldl stream_step ([], []) tr.
Definition queued (tr : list usb_event) : list byte := (streamed tr).1.
Definition handed (tr : list usb_event) : list byte := (streamed tr).2.

Section invariant.
Context {cfg : AdbConfig} {ucfg : UsbConfig} {K : UsbStack} {L : UsbStackLaws}.
Implicit Types (u : adb_usb_data) (b : nat) (M : gset nat).

Definition payload_bytes (p : adb_usb_tx_packet) : list byte := take (payload_len p) (tx_payload p).
Definition packet_bytes (p : adb_usb_tx_packet) : list byte := tx_header p ++ payload_bytes p.
Definition waiting u : list adb_usb_tx_packet := SlotQueue.qview (tx_queue u).

(** What is still to be handed over. *)
Definition backlog u : list byte :=
  match tx_phase u, waiting u with
  | ADB_USB_TX_HEADER, p :: rest => payload_bytes p ++ concat (packet_bytes <$> rest)
  | ADB_USB_TX_PAYLOAD, _ :: rest => concat (packet_bytes <$> rest)
  | _, l => concat (packet_bytes <$> l)
  end.

Definition packet_ok (p : adb_usb_tx_packet) : Prop :=
  length (tx_header p) = WEBOS_ADB_HEADER_SIZE /\ length (tx_payload p) = ADB_USB_TRANSFER_SIZE
  /\ payload_len p <= ADB_USB_TRANSFER_SIZE.

(** The owners, with the buffers [M] in the hands of the code. *)
Definition owned M u : Prop :=
  exists l, owners (trace u) = Some l /\ (forall b, l !! b = Some Code <-> b ∈ M) /\ dom l ⊆ in_use (device u)
  /\ (forall b, active_in_buffer u = Some b -> l !! b = Some (Controller ADB_USB_IN_EP))
  /\ (forall b, active_out_buffer u = Some b -> l !! b = Some (Controller ADB_USB_OUT_EP)).

(** The controller holds [b] as a transfer on [ep]. *)
Definition held u b (ep : Z) : Prop := exists l, owners (trace u) = Some l /\ l !! b = Some (Controller ep).

Record queue_ok u : Prop := {
  q_wf : SlotQueue.qwf (tx_queue u);
  q_depth : SlotQueue.qcap (tx_queue u) = ADB_USB_TX_QUEUE_DEPTH;
  q_packets : Forall packet_ok (SlotQueue.slots (tx_queue u));
}.

Record uinv M u : Prop := {
  u_queue : queue_ok u;
  u_owned : owned M u;
  u_stream : queued (trace u) = handed (trace u) ++ backlog u;
  u_phase : tx_phase u = ADB_USB_TX_IDLE <-> SlotQueue.qcount (tx_queue u) = 0;
  u_active : active_in_buffer u = None <-> SlotQueue.qcount (tx_queue u) = 0;
  u_in : IN_ENGAGED u = true -> SlotQueue.qcount (tx_queue u) <> 0;
  u_out : OUT_ENGAGED u = true -> active_out_buffer u <> None;
}.

(** ** Ownership *)

Lemma owners_app tr e : owners (tr ++ [e]) = owner_step (owners tr) e.
Proof. unfold owners. by rewrite foldl_app. Qed.

Lemma streamed_app tr l : streamed (tr ++ l) = foldl stream_step (streamed tr) l.
Proof. unfold streamed. by rewrite foldl_app. Qed.

(** Events that concern neither packets nor transfers. *)
Definition silent (e : usb_event) : Prop :=
  match e with EAlloc _ | EOut _ | EDone _ | EUnref _ => True | _ => False end.

Lemma streamed_silent tr l : Forall silent l -> streamed (tr ++ l) = streamed tr.
Proof.
  intros Hl. rewrite streamed_app. generalize (streamed tr). induction Hl as [|e l He _ IH]; intros x; simpl; [done|].
  rewrite IH. by destruct e.
Qed.

(** Ownership looks at these fields. *)
Lemma owned_eq M u u' :
  trace u' = trace u -> in_use (device u) ⊆ in_use (device u') ->
  (active_in_buffer u' = active_in_buffer u \/ active_in_buffer u' = None) ->
  (active_out_buffer u' = active_out_buffer u \/ active_out_buffer u' = None) -> owned M u -> owned M u'.
Proof.
  intros Ht Hd Hi Ho (l & Hl & Hm & Hu & Hai & Hao). exists l. rewrite Ht. split_and!; try done.
  - set_solver.
  - intros b Hb. apply Hai. by destruct Hi as [<- | Hi]; [|rewrite Hi in Hb].
  - intros b Hb. apply Hao. by destruct Ho as [<- | Ho]; [|rewrite Ho in Hb].
Qed.

(** An event without an owner. *)
Lemma owned_event M u e :
  (forall l, owner_step (Some l) e = Some l) -> owned M u -> owned M (set_device (device u) [e] u).
Proof.
  intros He (l & Hl & Hr). exists l. simpl. rewrite owners_app, Hl, He. by split.
Qed.

Lemma owned_alloc M ep n u b u' :
  buf_alloc ep n u = (Some b, u') -> owned M u -> b ∉ M /\ owned ({[ b ]} ∪ M) u'.
Proof.
  unfold buf_alloc. destruct (usbd_ep_buf_alloc _ _ _) as [[b'|] d] eqn:Ea; [|done]. intros [= -> <-].
  apply alloc_some in Ea as [Hfresh Hd]. intros (l & Hl & Hm & Hu & Hai & Hao).
  assert (l !! b = None) as Hb by (apply not_elem_of_dom; set_solver).
  assert (b ∉ M) as HbM by (rewrite <- Hm; congruence). split; [done|].
  exists (<[b := Code]> l). simpl. rewrite owners_app, Hl. simpl. rewrite decide_True by done. split_and!; [done|..].
  - intros b'. rewrite lookup_insert_Some, elem_of_union, elem_of_singleton, <- Hm. destruct (decide (b = b')); naive_solver.
  - rewrite dom_insert. set_solver.
  - intros b' H'. rewrite lookup_insert_ne; [auto|]. intros ->. specialize (Hai _ H'). congruence.
  - intros b' H'. rewrite lookup_insert_ne; [auto|]. intros ->. specialize (Hao _ H'). congruence.
Qed.

(** A buffer is given away as the active one of its endpoint. *)
Lemma owned_give M u u' b e ep :
  owned M u -> b ∈ M -> trace u' = trace u ++ [e] -> in_use (device u) ⊆ in_use (device u') ->
  (forall l, l !! b = Some Code -> owner_step (Some l) e = Some (<[b := Controller ep]> l)) ->
  (active_in_buffer u' = active_in_buffer u \/ active_in_buffer u' = Some b /\ ep = ADB_USB_IN_EP) ->
  (active_out_buffer u' = active_out_buffer u \/ active_out_buffer u' = Some b /\ ep = ADB_USB_OUT_EP) ->
  owned (M ∖ {[ b ]}) u'.
Proof.
  intros (l & Hl & Hm & Hu & Hai & Hao) Hb Ht Hd He Hi Ho. pose proof (proj2 (Hm b) Hb) as Hlb.
  exists (<[b := Controller ep]> l). rewrite Ht, owners_app, Hl, He by done. split_and!; [done|..].
  - intros b'. rewrite lookup_insert_Some, elem_of_difference, elem_of_singleton, <- Hm. naive_solver.
  - rewrite dom_insert. assert (b ∈ dom l) by (by apply elem_of_dom_2 in Hlb). set_solver.
  - intros b' H'. destruct Hi as [Hi|[Hi ->]]; rewrite Hi in H'.
    + rewrite lookup_insert_ne; [auto|]. intros ->. specialize (Hai _ H'). congruence.
    + injection H' as <-. by rewrite lookup_insert_eq.
  - intros b' H'. destruct Ho as [Ho|[Ho ->]]; rewrite Ho in H'.
    + rewrite lookup_insert_ne; [auto|]. intros ->. specialize (Hao _ H'). congruence.
    + injection H' as <-. by rewrite lookup_insert_eq.
Qed.

Lemma owned_unref M b u : b ∈ M -> owned M u -> owned (M ∖ {[ b ]}) (buf_unref b u).
Proof.
  intros Hb (l & Hl & Hm & Hu & Hai & Hao). pose proof (proj2 (Hm b) Hb) as Hlb.
  exists (delete b l). simpl. rewrite owners_app, Hl. simpl. rewrite decide_True by done. split_and!; [done|..].
  - intros b'. rewrite lookup_delete_Some, elem_of_difference, elem_of_singleton, <- Hm. naive_solver.
  - rewrite dom_delete. pose proof (unref_in_use b (device u)). set_solver.
  - intros b' H'. specialize (Hai _ H'). rewrite lookup_delete_ne; [done|]. congruence.
  - intros b' H'. specialize (Hao _ H'). rewrite lookup_delete_ne; [done|]. congruence.
Qed.

Lemma owned_done M b u ep :
  held u b ep -> active_in_buffer u <> Some b -> active_out_buffer u <> Some b -> owned M u ->
  b ∉ M /\ owned ({[ b ]} ∪ M) (transfer_done b u).
Proof.
  intros (l & Hl & Hb) Hi Ho (l' & Hl' & Hm & Hu & Hai & Hao). rewrite Hl in Hl'. injection Hl' as <-.
  assert (b ∉ M) as HbM by (rewrite <- Hm; congruence). split; [done|].
  exists (<[b := Code]> l). simpl. rewrite owners_app, Hl. simpl. rewrite Hb. split_and!; [done|..].
  - intros b'. rewrite lookup_insert_Some, elem_of_union, elem_of_singleton, <- Hm. destruct (decide (b = b')); naive_solver.
  - rewrite dom_insert. apply elem_of_dom_2 in Hb. set_solver.
  - intros b' H'. rewrite lookup_insert_ne; [auto|]. by intros ->.
  - intros b' H'. rewrite lookup_insert_ne; [auto|]. by intros ->.
Qed.

(** ** Buffers for a transfer *)

(** A step on buffers that fails leaves the state as it was but for the stack. *)
Record unchanged u u' : Prop := {
  un_class : class_data u' = class_data u;
  un_bits : (ENABLED u', OUT_ENGAGED u', IN_ENGAGED u', RESETTING u')
            = (ENABLED u, OUT_ENGAGED u, IN_ENGAGED u, RESETTING u);
  un_tx : tx_phase u' = tx_phase u /\ tx_queue u' = tx_queue u;
  un_active : active_in_buffer u' = active_in_buffer u /\ active_out_buffer u' = active_out_buffer u;
  un_streamed : streamed (trace u') = streamed (trace u);
}.

Lemma enqueue_in_spec M data u ret u' :
  active_in_buffer u = None -> owned M u -> enqueue_in data u = (ret, u') ->
  owned M u'
  /\ (if decide (ret = 0%Z) then
        exists b l d, u' = set_active_in (Some b) (set_device d l u) /\ streamed (trace u') = ((streamed (trace u)).1, (streamed (trace u)).2 ++ data)
      else unchanged u u').
Proof.
  intros Hn Ho. unfold enqueue_in. destruct (buf_alloc _ _ u) as [[b|] u1] eqn:Ea.
  2: { intros [= <- <-]. unfold buf_alloc in Ea. destruct (usbd_ep_buf_alloc _ _ _) as [[]  d] eqn:Ea'; [done|].
       injection Ea as <-. apply alloc_none in Ea'. rewrite decide_False by done. split.
       - eapply owned_eq, Ho; simpl; auto. by rewrite app_nil_r.
       - split; simpl; try done. by rewrite app_nil_r. }
  destruct (owned_alloc _ _ _ _ _ _ Ea Ho) as [HbM Ho1].
  assert (exists d, u1 = set_device d [EAlloc b] u) as [d ->].
  { unfold buf_alloc in Ea. destruct (usbd_ep_buf_alloc _ _ _) as [r d]. injection Ea as -> <-. by exists d. }
  unfold ep_enqueue. destruct (usbd_ep_enqueue b data _) as [r d2] eqn:Ee.
  pose proof (enqueue_in_use b data d) as Hd2. simpl in Ee. rewrite Ee in Hd2. simpl in Hd2.
  destruct (decide (r <> 0%Z)) as [Hr|Hr].
  - intros [= <- <-]. rewrite !decide_False by done. split.
    + replace M with (({[ b ]} ∪ M) ∖ {[ b ]}) by set_solver.
      apply owned_unref; [set_solver|]. eapply owned_eq, Ho1; simpl; auto. by rewrite app_nil_r.
    + split; simpl; try done. rewrite app_nil_r, <- app_assoc. by rewrite streamed_silent by (repeat constructor).
  - apply dec_stable in Hr. subst r. intros [= <- <-]. rewrite !(decide_True (P := 0%Z = 0%Z)) by done. split.
    + replace M with (({[ b ]} ∪ M) ∖ {[ b ]}) by set_solver.
      eapply owned_give with (b := b) (ep := ADB_USB_IN_EP) (e := EIn b data);
        [exact Ho1|set_solver|done|done| |by right|by left].
      intros l Hl. simpl. by rewrite decide_True.
    + exists b, ([EAlloc b] ++ [EIn b data]), d2. split.
      * unfold set_active_in, set_device. simpl. by rewrite <- app_assoc.
      * simpl. rewrite streamed_app. simpl. by rewrite streamed_silent by (repeat constructor).
Qed.

(** ** The queue *)

(** From here emptying the queue restores the invariant. *)
Record resettable M u : Prop := {
  r_queue : queue_ok u;
  r_owned : owned M u;
  r_out : OUT_ENGAGED u = true -> active_out_buffer u <> None;
}.

(** A packet waits and no transfer is under way. *)
Record ready M u : Prop := {
  ry_resettable : resettable M u;
  ry_idle : IN_ENGAGED u = false /\ active_in_buffer u = None;
  ry_waiting : SlotQueue.qcount (tx_queue u) <> 0;
  ry_stream : queued (trace u) = handed (trace u) ++ concat (packet_bytes <$> waiting u);
}.

Lemma queue_ok_eq u u' : tx_queue u' = tx_queue u -> queue_ok u -> queue_ok u'.
Proof. intros Hq [H1 H2 H3]. split; by rewrite Hq. Qed.

Lemma uinv_resettable M u : uinv M u -> resettable M u.
Proof. intros []. by split. Qed.

(** Queue and OUT request of one state, the owners of another. *)
Lemma resettable_eq M u u' :
  tx_queue u' = tx_queue u -> OUT_ENGAGED u' = OUT_ENGAGED u -> active_out_buffer u' = active_out_buffer u ->
  owned M u' -> resettable M u -> resettable M u'.
Proof.
  intros Hq Ho Ha Hw [H1 _ H2]. split; [by eapply queue_ok_eq, H1|done|by rewrite Ho, Ha].
Qed.

Lemma unchanged_resettable M u u' : unchanged u u' -> owned M u' -> resettable M u -> resettable M u'.
Proof.
  intros [_ Hb [_ Hq] [_ Ha] _] Hw. apply resettable_eq; try done. congruence.
Qed.

Lemma qwf_cap (q : SlotQueue.queue adb_usb_tx_packet) : SlotQueue.qwf q -> 0 < SlotQueue.qcap q.
Proof. intros [[H _ _] _]. done. Qed.

Lemma waiting_nil u : queue_ok u -> SlotQueue.qcount (tx_queue u) = 0 -> waiting u = [].
Proof. intros [Hq _ _] Hc. apply length_zero_iff_nil. unfold waiting. by rewrite SlotQueue.length_qview. Qed.

Lemma waiting_head u :
  queue_ok u -> SlotQueue.qcount (tx_queue u) <> 0 ->
  waiting u = head_packet u :: SlotQueue.qview (SlotQueue.dequeue (tx_queue u)) /\ packet_ok (head_packet u).
Proof.
  intros [Hq _ Hp] Hc. destruct (SlotQueue.qview_cons (tx_queue u) Hq) as (x & Hx & Hv); [lia|].
  unfold waiting, head_packet. rewrite Hv, Hx. split; [done|]. by eapply Forall_lookup_1.
Qed.

Lemma reset_inv M u : resettable M u -> uinv M (reset_tx_queue_unlocked u).
Proof.
  intros [[Hq Hd Hp] Ho Hout]. pose proof (qwf_cap _ Hq). split; simpl; try done.
  - split; simpl; [by apply SlotQueue.qwf_reset|done|done].
  - refine (owned_event M (set_in_engaged false (set_active_in None
              (set_tx ADB_USB_TX_IDLE (SlotQueue.reset (tx_queue u)) u))) EReset _ _); [done|].
    eapply owned_eq, Ho; simpl; auto.
  - unfold queued, handed. by rewrite streamed_app.
Qed.

Lemma queued_reset u : queued (trace (reset_tx_queue_unlocked u)) = [].
Proof. unfold queued. simpl. by rewrite streamed_app. Qed.

(** The header of the head goes out, or the queue can be emptied. *)
Lemma start_tx_spec M u ret u' :
  ready M u -> start_tx_packet_unlocked u = (ret, u') ->
  resettable M u' /\ queued (trace u') = queued (trace u) /\ (ret = 0%Z -> uinv M u').
Proof.
  intros [Hr [Hin Hact] Hc Hs]. unfold start_tx_packet_unlocked. rewrite decide_False, Hin by done. cbn zeta.
  destruct (enqueue_in _ _) as [r u1] eqn:Ee. set (u0 := set_tx _ _ _) in Ee.
  assert (owned M u0) as Ho by (eapply owned_eq, (r_owned _ _ Hr); simpl; auto).
  destruct (enqueue_in_spec M _ u0 r u1 Hact Ho Ee) as [Ho1 H1].
  destruct (waiting_head u (r_queue _ _ Hr) Hc) as [Hw Hok].
  destruct (decide (r = 0%Z)) as [->|Hne].
  - destruct H1 as (b & l & d & -> & Hst). rewrite decide_False by naive_solver. intros [= <- <-].
    set (u2 := set_active_in _ _) in *.
    assert (queued (trace u2) = queued (trace u)) as Hqd by (unfold queued; by rewrite Hst).
    assert (resettable M u2) as Hr2 by (by apply (resettable_eq M u)). split_and!; [done|done|]. intros _.
    split; [apply Hr2|done| |by split|by split|done|apply Hr2].
    rewrite Hqd, Hs. unfold handed at 2. rewrite Hst. unfold backlog. change (waiting u2) with (waiting u). rewrite Hw. simpl.
    unfold packet_bytes at 1. rewrite <- !app_assoc. done.
  - rewrite decide_True by done. intros [= <- <-].
    assert (resettable M u1) as Hr1.
    { by eapply unchanged_resettable, (resettable_eq M u u0). }
    split_and!; [|unfold queued; simpl; by rewrite (un_streamed _ _ H1)|done].
    apply (resettable_eq M u1); try done.
Qed.

(** A queued packet is a copy of what was given. *)
Lemma write_packet (h p : list byte) old :
  packet_ok old -> length h = WEBOS_ADB_HEADER_SIZE -> length p <= ADB_USB_TRANSFER_SIZE ->
  packet_ok (TxPacket (write_at (tx_header old) 0 h) (write_at (tx_payload old) 0 p) (length p))
  /\ packet_bytes (TxPacket (write_at (tx_header old) 0 h) (write_at (tx_payload old) 0 p) (length p)) = h ++ p.
Proof.
  intros (Hh & Hp & _) Hlh Hlp. split.
  - unfold packet_ok. simpl. rewrite !length_write_at by lia. lia.
  - unfold packet_bytes, payload_bytes. simpl. f_equal.
    + pose proof (take_write_at (tx_header old) 0 h) as Ht. rewrite take_ge in Ht by (rewrite length_write_at; lia).
      apply Ht. lia.
    + apply (take_write_at (tx_payload old) 0 p). lia.
Qed.

Lemma tail_packet_ok u : queue_ok u -> packet_ok (tail_packet u).
Proof.
  intros [Hq _ Hp]. unfold tail_packet. pose proof (SlotQueue.qtail_lt _ Hq) as Ht.
  apply lookup_lt_is_Some in Ht as [x Hx]. rewrite Hx. by eapply Forall_lookup_1.
Qed.

(** Joining the queue. *)
Lemma enqueue_packet M u h p :
  uinv M u -> length h = WEBOS_ADB_HEADER_SIZE -> length p <= ADB_USB_TRANSFER_SIZE ->
  SlotQueue.qcount (tx_queue u) <> SlotQueue.qcap (tx_queue u) ->
  let old := tail_packet u in
  let packet := TxPacket (write_at (tx_header old) 0 h) (write_at (tx_payload old) 0 p) (length p) in
  let u1 := set_device (device u) [EPacket h p] (set_tx (tx_phase u) (SlotQueue.enqueue (tx_queue u) packet) u) in
  resettable M u1 /\ waiting u1 = waiting u ++ [packet] /\ packet_bytes packet = h ++ p
  /\ streamed (trace u1) = (queued (trace u) ++ h ++ p, handed (trace u)).
Proof.
  intros Hu Hh Hp Hroom old packet u1. destruct Hu as [Hq Ho Hs _ _ _ Hout].
  destruct (write_packet h p old (tail_packet_ok u Hq) Hh Hp) as [Hok Hbytes].
  pose proof Hq as [Hwf Hd Hall]. pose proof (SlotQueue.qcount_le _ Hwf).
  destruct (SlotQueue.enqueue_spec (tx_queue u) packet Hwf) as (Hwf' & Hd' & Hv); [lia|]. split_and!; [|done|done|].
  - split; [split|..]; simpl; [done|congruence| | |done].
    + apply Forall_lookup_2. intros i x Hi. unfold write_at in Hi. rewrite !lookup_app_Some in Hi.
      destruct Hi as [Hi|[_ [Hi|[_ Hi]]]].
      * apply lookup_take_Some in Hi as [Hi _]. by eapply Forall_lookup_1.
      * apply list_lookup_singleton_Some in Hi as [_ <-]. done.
      * rewrite lookup_drop in Hi. by eapply Forall_lookup_1.
    + refine (owned_event M (set_tx _ _ u) (EPacket h p) _ _); [done|]. eapply owned_eq, Ho; simpl; auto.
  - subst u1. simpl. rewrite streamed_app. done.
Qed.

Lemma send_locked_inv M h p u ret u' :
  uinv M u -> length h = WEBOS_ADB_HEADER_SIZE -> length p <= ADB_USB_TRANSFER_SIZE ->
  send_locked h p u = (ret, u') ->
  uinv M u'
  /\ (if decide (ret = 0%Z) then queued (trace u') = queued (trace u) ++ h ++ p
      else queued (trace u') = queued (trace u) \/ queued (trace u') = []).
Proof.
  intros Hu Hh Hp. unfold send_locked. destruct (negb _ || _).
  { intros [= <- <-]. split; [done|]. rewrite decide_False by done. by left. }
  case_decide as Hroom.
  { intros [= <- <-]. split; [done|]. rewrite decide_False by done. by left. }
  destruct (enqueue_packet M u h p Hu Hh Hp Hroom) as (Hr & Hw & Hb & Hst). cbn zeta.
  set (packet := TxPacket _ _ _) in *. set (u1 := set_device _ _ _) in *.
  assert (queued (trace u1) = queued (trace u) ++ h ++ p) as Hqd by (unfold queued at 1; by rewrite Hst).
  assert (handed (trace u1) = handed (trace u)) as Hhd by (unfold handed at 1; by rewrite Hst).
  destruct (decide (SlotQueue.qcount (tx_queue u) = 0)) as [Hc|Hc].
  - rewrite bool_decide_true by done. destruct (start_tx_packet_unlocked u1) as [r u2] eqn:Es.
    assert (ready M u1) as Hready.
    { split; [done| | |].
      - subst u1. simpl. split; [|by apply (u_active _ _ Hu)].
        apply not_true_is_false. intros Hin. by apply (u_in _ _ Hu) in Hin.
      - subst u1. simpl. lia.
      - rewrite Hqd, Hhd, Hw, (u_stream _ _ Hu). unfold backlog.
        rewrite (waiting_nil u (u_queue _ _ Hu) Hc), (proj2 (u_phase _ _ Hu) Hc). simpl. by rewrite !app_nil_r, Hb. }
    destruct (start_tx_spec M u1 r u2 Hready Es) as (Hr2 & Hq2 & Hz). intros [= <- <-].
    destruct (decide (r = 0%Z)) as [->|Hne].
    + rewrite decide_False by naive_solver. split; [by apply Hz|congruence].
    + rewrite decide_True by done. split; [by apply reset_inv|]. right. apply queued_reset.
  - rewrite bool_decide_false by done. intros [= <- <-]. rewrite decide_True by done. split; [|done].
    destruct (waiting_head u (u_queue _ _ Hu) Hc) as [Hwh _].
    split; [apply Hr|apply Hr| | | | |apply Hr].
    + rewrite Hqd, Hhd, (u_stream _ _ Hu), <- app_assoc. f_equal.
      unfold backlog. simpl. rewrite Hw, Hwh. cbn [app].
      destruct (tx_phase u) eqn:Eph; [by apply (u_phase _ _ Hu) in Eph| |]; rewrite fmap_app, concat_app; simpl;
        rewrite Hb, ?app_nil_r, <- ?app_assoc; done.
    + subst u1. simpl. rewrite (u_phase _ _ Hu). lia.
    + subst u1. simpl. rewrite (u_active _ _ Hu). lia.
    + subst u1. simpl. lia.
Qed.

(** ** Completed transfers *)

(** The bits can only be cleared behind the back of a transfer. *)
Lemma bits_inv M u en oe ie rs :
  (oe = true -> OUT_ENGAGED u = true) -> (ie = true -> IN_ENGAGED u = true) ->
  uinv M u -> uinv M (set_bits en oe ie rs u).
Proof. intros Hoe Hie []. split; simpl; auto. by eapply queue_ok_eq, u_queue0. Qed.

Lemma owned_finish M b u :
  owned M u -> active_in_buffer u = Some b -> owned M (buf_unref b (set_active_in None (transfer_done b u))).
Proof.
  intros Ho Ha. pose proof Ho as (l & Hl & Hm & Hu & Hai & Hao).
  destruct (owned_done M b (set_active_in None u) ADB_USB_IN_EP) as [HbM Ho1].
  - exists l. auto.
  - done.
  - intros Hb. specialize (Hai _ Ha). specialize (Hao _ Hb). by rewrite Hai in Hao.
  - eapply owned_eq, Ho; simpl; auto.
  - replace M with (({[ b ]} ∪ M) ∖ {[ b ]}) by set_solver. apply (owned_unref ({[ b ]} ∪ M)); [set_solver|exact Ho1].
Qed.

(** A packet is done: the next one waits, or the queue is empty. *)
Lemma dequeue_ready M u :
  let u2 := set_in_engaged false (set_tx ADB_USB_TX_IDLE (SlotQueue.dequeue (tx_queue u)) u) in
  resettable M u -> active_in_buffer u = None -> SlotQueue.qcount (tx_queue u) <> 0 ->
  queued (trace u) = handed (trace u) ++ concat (packet_bytes <$> waiting u2) ->
  if decide (SlotQueue.qcount (tx_queue u2) <> 0) then ready M u2 else uinv M u2.
Proof.
  intros u2 Hr Ha Hc Hs. pose proof Hr as [[Hwf Hd Hp] Ho Hout].
  assert (resettable M u2) as Hr2.
  { split; [split|..]; simpl; [apply SlotQueue.qwf_dequeue; [done|lia]|done|done|exact Ho|done]. }
  destruct (decide _) as [Hc2|Hc2].
  - by split.
  - apply dec_stable in Hc2. split; [apply Hr2|apply Hr2| | | |done|apply Hr2].
    + unfold backlog. rewrite (waiting_nil u2 (r_queue _ _ Hr2) Hc2) in *. done.
    + done.
    + done.
Qed.

(** The state [u1] after a transfer of the state [u] has been released, before the
    next one. *)
Record finished (M : gset nat) (u u1 : adb_usb_data) : Prop := {
  f_resettable : resettable M u1;
  f_active : active_in_buffer u1 = None;
  f_queue : tx_queue u1 = tx_queue u;
  f_phase : tx_phase u1 = tx_phase u;
  f_head : head_packet u1 = head_packet u;
  f_count : SlotQueue.qcount (tx_queue u1) <> 0;
  f_queued : queued (trace u1) = queued (trace u);
  f_stream : queued (trace u1) = handed (trace u1) ++ backlog u;
}.

Lemma release_finished M b u :
  uinv M u -> active_in_buffer u = Some b -> finished M u (buf_unref b (set_active_in None (transfer_done b u))).
Proof.
  intros Hu Ha. set (u1 := buf_unref b _).
  assert (streamed (trace u1) = streamed (trace u)) as Hst.
  { subst u1. simpl. by rewrite <- app_assoc, streamed_silent by (repeat constructor). }
  split; try done.
  - apply (resettable_eq M u); [done..|by apply owned_finish, Ha; apply Hu|by apply uinv_resettable].
  - intros Hc. apply (u_active _ _ Hu) in Hc. congruence.
  - unfold queued. by rewrite Hst.
  - unfold queued, handed. rewrite Hst. apply (u_stream _ _ Hu).
Qed.

(** The payload follows its header. *)
Lemma payload_follows M u u1 r u2 :
  uinv M u -> finished M u u1 -> tx_phase u = ADB_USB_TX_HEADER -> payload_len (head_packet u) <> 0 ->
  enqueue_in (take (payload_len (head_packet u1)) (tx_payload (head_packet u1))) (set_tx ADB_USB_TX_PAYLOAD (tx_queue u1) u1) = (r, u2) ->
  (r = 0%Z -> uinv M u2 /\ queued (trace u2) = queued (trace u)) /\ (r <> 0%Z -> resettable M u2).
Proof.
  intros Hu [Hr1 Ha1 Htq Hph Hhp Hc Hqd Hs1] Hhdr Hlen Ee. set (u0 := set_tx _ _ u1) in Ee.
  assert (owned M u0) as Ho by exact (r_owned _ _ Hr1).
  destruct (enqueue_in_spec M _ u0 r u2 Ha1 Ho Ee) as [Ho2 H2].
  assert (SlotQueue.qcount (tx_queue u) <> 0) as Hcu by (by rewrite <- Htq).
  destruct (waiting_head u (u_queue _ _ Hu) Hcu) as [Hw Hok].
  destruct (decide (r = 0%Z)) as [->|Hne]; (split; [intros Hz|intros Hz]; try done).
  - rewrite ?decide_True in H2 by done. destruct H2 as (b2 & l & d & -> & Hst2). set (u3 := set_active_in _ _) in *.
    assert (queued (trace u3) = queued (trace u)) as Hq3 by (unfold queued at 1; by rewrite Hst2).
    split; [|done]. split; [by eapply queue_ok_eq, (r_queue _ _ Hr1)|exact Ho2| |by split|by split|done|apply Hr1].
    rewrite Hq3, <- Hqd, Hs1. unfold handed at 2. rewrite Hst2. cbn [snd].
    change (streamed (trace u0)).2 with (handed (trace u1)). rewrite <- app_assoc. f_equal.
    unfold backlog at 1. rewrite Hhdr, Hw. unfold backlog.
    change (waiting u3) with (SlotQueue.qview (tx_queue u1)). change (tx_phase u3) with ADB_USB_TX_PAYLOAD.
    rewrite Htq. fold (waiting u). rewrite Hw, Hhp. done.
  - eapply unchanged_resettable; [exact H2|done|]. by apply (resettable_eq M u1).
Qed.

(** The packet is done, and the next one is started if there is one. *)
Lemma packet_done M u u1 :
  uinv M u -> finished M u u1 -> ~ (tx_phase u1 = ADB_USB_TX_HEADER /\ payload_len (head_packet u1) <> 0) ->
  let u2 := set_in_engaged false (set_tx ADB_USB_TX_IDLE (SlotQueue.dequeue (tx_queue u1)) u1) in
  (if decide (SlotQueue.qcount (tx_queue u2) <> 0) then ready M u2 else uinv M u2) /\ queued (trace u2) = queued (trace u).
Proof.
  intros Hu [Hr1 Ha1 Htq Hph Hhp Hc Hqd Hs1] Hnext u2.
  assert (SlotQueue.qcount (tx_queue u) <> 0) as Hcu by (by rewrite <- Htq).
  destruct (waiting_head u (u_queue _ _ Hu) Hcu) as [Hw Hok].
  assert (queued (trace u1) = handed (trace u1) ++ concat (packet_bytes <$> waiting u2)) as Hs2.
  { rewrite Hs1. f_equal. unfold backlog. rewrite Hw.
    change (waiting u2) with (SlotQueue.qview (SlotQueue.dequeue (tx_queue u1))). rewrite Htq.
    destruct (tx_phase u) eqn:Ep; [|  |done].
    - by apply (u_phase _ _ Hu) in Ep.
    - assert (payload_len (head_packet u) = 0) as Hz.
      { rewrite Hph, Hhp in Hnext. destruct (decide (payload_len (head_packet u) = 0)); [done|naive_solver]. }
      unfold payload_bytes. by rewrite Hz. }
  split; [exact (dequeue_ready M u1 Hr1 Ha1 Hc Hs2)|done].
Qed.

Lemma in_complete_inv M b err u res u' :
  uinv M u -> active_in_buffer u = Some b -> in_complete b err (transfer_done b u) = (res, u') ->
  uinv M u' /\ (queued (trace u') = queued (trace u) \/ queued (trace u') = []).
Proof.
  intros Hu Ha. unfold in_complete. cbn zeta. pose proof (release_finished M b u Hu Ha) as Hf. set (u1 := buf_unref b _) in *.
  assert (forall v, uinv M v -> uinv M (set_resetting true v)) as Hrs by (intros v Hv; by apply bits_inv).
  pose proof (f_resettable _ _ _ Hf) as Hr1. pose proof (f_count _ _ _ Hf) as Hc. clearbody u1.
  destruct (decide (err <> 0%Z)) as [He|He].
  { intros [= <- <-]. simpl. split; [by apply Hrs, reset_inv|]. right. apply queued_reset. }
  rewrite decide_True by done. destruct (decide (_ /\ _)) as [[Hhdr Hlen]|Hnext].
  - rewrite (f_phase _ _ _ Hf) in Hhdr. pose proof Hlen as Hlen'. rewrite (f_head _ _ _ Hf) in Hlen'.
    destruct (enqueue_in _ _) as [r u2] eqn:Ee. destruct (payload_follows M u u1 r u2 Hu Hf Hhdr Hlen' Ee) as [H0 Hn].
    destruct (decide (r <> 0%Z)) as [Hne|Hz]; intros [= <- <-]; simpl.
    + split; [|right; apply queued_reset]. by apply Hrs, reset_inv, Hn.
    + apply dec_stable in Hz. destruct (H0 Hz). split; [done|by left].
  - destruct (packet_done M u u1 Hu Hf Hnext) as [Hd Hq2]. set (u2 := set_in_engaged _ _) in *. clearbody u2.
    destruct (decide (SlotQueue.qcount (tx_queue u2) <> 0)) as [Hc2|Hc2].
    + destruct (start_tx_packet_unlocked u2) as [r u3] eqn:Es.
      destruct (start_tx_spec M u2 r u3 Hd Es) as (Hr3 & Hq3 & Hz).
      destruct (decide (r <> 0%Z)) as [Hne|Hne]; intros [= <- <-]; simpl.
      * split; [by apply Hrs, reset_inv|]. right. apply queued_reset.
      * split; [apply Hz; by apply dec_stable|]. left. congruence.
    + intros [= <- <-]. simpl. split; [done|by left].
Qed.

Lemma out_complete_inv M b u :
  uinv M u -> active_out_buffer u = Some b -> b ∉ M /\ uinv ({[ b ]} ∪ M) (out_complete (transfer_done b u)).
Proof.
  intros [Hq Ho Hs Hp Ha Hin Hout] Hb. pose proof Ho as (l & Hl & Hm & Hu & Hai & Hao).
  destruct (owned_done M b (set_active_out None u) ADB_USB_OUT_EP) as [HbM Ho1].
  - exists l. auto.
  - intros Hi. specialize (Hai _ Hi). specialize (Hao _ Hb). by rewrite Hai in Hao.
  - done.
  - eapply owned_eq, Ho; simpl; auto.
  - split; [done|]. split; try done; [by eapply queue_ok_eq, Hq|].
    unfold queued, handed, out_complete. simpl. rewrite streamed_silent by (repeat constructor). exact Hs.
Qed.

Lemma stale_inv M b ep u :
  uinv M u -> held u b ep -> active_in_buffer u <> Some b -> active_out_buffer u <> Some b ->
  b ∉ M /\ uinv ({[ b ]} ∪ M) (transfer_done b u).
Proof.
  intros [Hq Ho Hs Hp Ha Hin Hout] Hb Hi1 Ho1. destruct (owned_done M b u ep) as [HbM Hdone]; [done..|].
  split; [done|]. split; try done; [by eapply queue_ok_eq, Hq|].
  unfold queued, handed. simpl. rewrite streamed_silent by (repeat constructor). exact Hs.
Qed.

Lemma unref_inv M b u : b ∈ M -> uinv M u -> uinv (M ∖ {[ b ]}) (buf_unref b u).
Proof.
  intros Hb [Hq Ho Hs Hp Ha Hin Hout]. split; try done; [by eapply queue_ok_eq, Hq|by apply owned_unref|].
  unfold queued, handed. simpl. rewrite streamed_silent by (repeat constructor). exact Hs.
Qed.

(** ** The OUT request *)

Lemma submit_out_inv M u ret u' :
  uinv M u -> submit_out u = (ret, u') -> uinv M u' /\ streamed (trace u') = streamed (trace u).
Proof.
  intros Hu. unfold submit_out. destruct (negb _ || _); [by intros [= <- <-]|].
  destruct (OUT_ENGAGED u) eqn:Eo; [by intros [= <- <-]|]. destruct Hu as [Hq Ho Hs Hp Ha Hin Hout].
  cbn zeta. destruct (buf_alloc _ _ _) as [[b|] u1] eqn:Ea.
  - destruct (owned_alloc M _ _ _ _ _ Ea) as [HbM Ho1]; [eapply owned_eq, Ho; simpl; auto|].
    unfold buf_alloc in Ea. destruct (usbd_ep_buf_alloc _ _ _) as [r d]. injection Ea as -> <-.
    unfold ep_enqueue. destruct (usbd_ep_enqueue b [] _) as [r d2] eqn:Ee.
    pose proof (enqueue_in_use b [] d) as Hd2. simpl in Ee. rewrite Ee in Hd2. simpl in Hd2.
    replace M with (({[ b ]} ∪ M) ∖ {[ b ]}) by set_solver. destruct (decide (r <> 0%Z)) as [Hr|Hr].
    + intros [= <- <-]. rewrite !(decide_False (P := r = 0%Z)) by done.
      assert (streamed (((trace u ++ [EAlloc b]) ++ []) ++ [EUnref b]) = streamed (trace u)) as Ht.
      { rewrite app_nil_r, <- app_assoc. apply streamed_silent. repeat constructor. }
      split; [|exact Ht]. split; try done; [by eapply queue_ok_eq, Hq| |by unfold queued, handed; simpl; rewrite Ht].
      match goal with |- owned _ (set_out_engaged false ?v) => apply (owned_eq _ v); [done|done|by left|by left|] end.
      apply owned_unref; [set_solver|].
      eapply owned_eq, Ho1; simpl; auto. by rewrite app_nil_r.
    + apply dec_stable in Hr. subst r. intros [= <- <-]. 
      assert (streamed ((trace u ++ [EAlloc b]) ++ [EOut b]) = streamed (trace u)) as Ht.
      { rewrite <- app_assoc. apply streamed_silent. repeat constructor. }
      split; [|exact Ht]. split; try done; [by eapply queue_ok_eq, Hq| |by unfold queued, handed; simpl; rewrite Ht].
      eapply owned_give with (b := b) (ep := ADB_USB_OUT_EP) (e := EOut b);
        [exact Ho1|set_solver|done|done| |by left|by right].
      intros l Hl. simpl. by rewrite decide_True.
  - unfold buf_alloc in Ea. destruct (usbd_ep_buf_alloc _ _ _) as [[]  d] eqn:Ea'; [done|].
    injection Ea as <-. apply alloc_none in Ea'. intros [= <- <-].
    split; [|simpl; by rewrite app_nil_r]. split; try done; [by eapply queue_ok_eq, Hq| |simpl; by rewrite app_nil_r].
    eapply owned_eq, Ho; simpl; auto. by rewrite app_nil_r.
Qed.
End invariant.
