(* ===== verification/AdbUsbSpec.v ===== *)
(** * The USB transport and the engine together

    The sections of the transport in any order ([usb_sections_invariant]); then
    the engine over the transport, as the callbacks of the USB stack and the
    threads of the services drive it ([usb_system]): the IN endpoint carries the
    packets the engine sent ([usb_stream_refines]), buffers are never leaked nor
    released twice ([usb_buffers_safe]), every callback returns and the OUT
    endpoint is posted again ([usb_out_rearmed]); and the serial number. *)

From S2P Require Import Prelude CLib Ring AdbProtocol AdbFraming AdbInvariant AdbSpec AdbTransport AdbUsb AdbUsbInv.
From Stdlib Require Import ZArith Lia.
From Stdlib Require Import Strings.Byte.
From stdpp Require Import base numbers list list_numbers strings countable gmap sets relations.

Import Adb Usb.

(** The bytes of a packet on the wire. *)
Definition encode_packet (p : packet) : list byte :=
  encode_message (p_command p) (p_arg0 p) (p_arg1 p) (p_payload p) ++ p_payload p.

Section system.
Context {cfg : AdbConfig} {ucfg : UsbConfig} {K : UsbStack} {L : UsbStackLaws}.
Implicit Types (u : adb_usb_data) (b : nat) (M : gset nat).

(** ** Sections *)

(** The sections under [tx_lock] and the stores to the bits outside it, by the
    thread of the USB stack and by any thread that sends. *)
Inductive section_step u : adb_usb_data -> Prop :=
| sec_send h p : length h = WEBOS_ADB_HEADER_SIZE -> length p <= ADB_USB_TRANSFER_SIZE ->
    section_step u (send_locked h p u).2
| sec_submit : section_step u (submit_out u).2
| sec_reset_tx : section_step u (reset_tx_queue u)
| sec_reset_queues : section_step u (reset_usb_queues u)
| sec_in b err : active_in_buffer u = Some b -> section_step u (in_complete b err (transfer_done b u)).2
| sec_out b : active_out_buffer u = Some b -> section_step u (out_complete (transfer_done b u))
| sec_stale b ep : held u b ep -> active_in_buffer u <> Some b -> active_out_buffer u <> Some b ->
    section_step u (transfer_done b u)
| sec_unref b l : owners (trace u) = Some l -> l !! b = Some Code -> section_step u (buf_unref b u)
| sec_enabled x : section_step u (set_enabled x u)
| sec_resetting x : section_step u (set_resetting x u)
| sec_clear : section_step u (set_bits false false false false u).

Lemma reset_queues_inv M u : uinv M u -> uinv M (reset_usb_queues u).
Proof.
  intros Hu. pose proof (reset_inv M u (uinv_resettable M u Hu)) as [Hq Ho Hs Hp Ha Hin Hout].
  split; try done; [by eapply queue_ok_eq, Hq|]. eapply owned_eq, Ho; simpl; auto.
Qed.

Lemma device_inv M d u : in_use (device u) ⊆ in_use d -> uinv M u -> uinv M (set_device d [] u).
Proof.
  intros Hd [Hq Ho Hs Hp Ha Hin Hout].
  split; try done; [by eapply queue_ok_eq, Hq| |by simpl; rewrite app_nil_r].
  eapply owned_eq, Ho; simpl; auto. by rewrite app_nil_r.
Qed.

Lemma initial_inv d : uinv ∅ (usb_initial d).
Proof.
  pose proof range_tx_queue_depth. split; simpl; try done.
  - split; simpl.
    + apply (SlotQueue.qwf_reset (SlotQueue.Queue (replicate ADB_USB_TX_QUEUE_DEPTH zero_packet) 0 0 0)).
      unfold SlotQueue.qcap. simpl. rewrite length_replicate. lia.
    + unfold SlotQueue.qcap. simpl. by rewrite length_replicate.
    + apply Forall_replicate. split_and!; [apply length_replicate..|apply Nat.le_0_l].
  - exists ∅. split_and!; [done| |set_solver|done|done]. intros b. rewrite lookup_empty. set_solver.
Qed.

Lemma section_inv M u u' : uinv M u -> section_step u u' -> exists M', uinv M' u'.
Proof.
  intros Hu [h p Hh Hp| | | |b err Hb|b Hb|b ep Hb Hi Ho|b l Hl Hb|x|x|].
  - exists M. destruct (send_locked h p u) as [r u1] eqn:E. by eapply send_locked_inv.
  - exists M. destruct (submit_out u) as [r u1] eqn:E. by eapply submit_out_inv.
  - exists M. by apply reset_inv, uinv_resettable.
  - exists M. by apply reset_queues_inv.
  - exists M. destruct (in_complete b err _) as [r u1] eqn:E. by eapply in_complete_inv.
  - exists ({[ b ]} ∪ M). by apply out_complete_inv.
  - exists ({[ b ]} ∪ M). by eapply stale_inv.
  - exists (M ∖ {[ b ]}). apply unref_inv; [|done]. destruct (u_owned _ _ Hu) as (l' & Hl' & Hm & _).
    rewrite Hl in Hl'. injection Hl' as <-. by apply Hm.
  - exists M. by apply bits_inv.
  - exists M. by apply bits_inv.
  - exists M. by apply bits_inv.
Qed.

Lemma sections_inv d u : rtc section_step (usb_initial d) u -> exists M, uinv M u.
Proof.
  intros Hr. assert (exists M, uinv M (usb_initial d)) as H0 by (exists ∅; apply initial_inv).
  revert H0. induction Hr as [|u u1 u2 Hs _ IH]; [done|]. intros [M HM]. apply IH. by eapply section_inv.
Qed.

(** ** The transport under the engine *)

(** The packets queued since the last reset are the last packets sent. *)
Definition wire_ok u (ps : list packet) : Prop :=
  exists before after, ps = before ++ after /\ queued (trace u) = concat (encode_packet <$> after).

Definition transport_ok M (u : env (AdbEnv := usb_transport)) (ps : list packet) : Prop := uinv M u /\ wire_ok u ps.

(** Steps that keep the queued bytes or empty the queue. *)
Definition keeps_queue u u' : Prop := queued (trace u') = queued (trace u) \/ queued (trace u') = [].

Lemma wire_keeps u u' ps : keeps_queue u u' -> wire_ok u ps -> wire_ok u' ps.
Proof.
  intros [Hq|Hq] (before & after & -> & Ha); [exists before, after; by rewrite Hq|].
  exists (before ++ after), []. by rewrite app_nil_r.
Qed.

Lemma transport_send_ok M u c (a0 a1 : Z) pl ret u' ps :
  transport_ok M u ps ->
  webos_adb_usb_send (Some (encode_message c a0 a1 pl)) (length (encode_message c a0 a1 pl)) (Some pl) (length pl) u = (ret, u') ->
  transport_ok M u' (ps ++ if decide (ret = 0%Z) then [Packet c a0 a1 pl] else []).
Proof.
  intros [Hu Hw]. unfold webos_adb_usb_send.
  assert (transport_ok M u (ps ++ [])) as Hsame by (rewrite app_nil_r; by split).
  destruct (negb _ || _ || _); [intros [= <- <-]; exact Hsame|].
  rewrite decide_False by (intros []; apply length_encode).
  destruct (decide (ADB_USB_TRANSFER_SIZE < length pl)) as [Hlen|Hlen]; [intros [= <- <-]; exact Hsame|].
  rewrite !take_ge by lia. intros Hs.
  destruct (send_locked_inv M _ pl u ret u' Hu (length_encode c a0 a1 pl) ltac:(lia) Hs) as [Hu' Hq].
  split; [done|]. destruct (decide (ret = 0%Z)) as [->|Hne].
  - destruct Hw as (before & after & -> & Ha). exists before, (after ++ [Packet c a0 a1 pl]).
    rewrite <- app_assoc. split; [done|]. rewrite Hq, Ha, fmap_app, concat_app. simpl. by rewrite app_nil_r.
  - rewrite app_nil_r. by eapply wire_keeps, Hw.
Qed.

#[export] Instance transport_invariant M : TransportInvariant (E := usb_transport) (transport_ok M).
Proof.
  split.
  - intros u ps c a0 a1 pl Hok. simpl. destruct (webos_adb_usb_send _ _ _ _ u) as [ret u'] eqn:E.
    by eapply transport_send_ok.
  - intros u ps [Hu Hw]. split; [by apply reset_inv, uinv_resettable|]. eapply wire_keeps, Hw. right. apply queued_reset.
  - intros u ps n [Hu Hw]. simpl. pose proof (malloc_in_use n (device u)) as Hd. destruct (heap_malloc n (device u)) as [ok d].
    split; [by apply device_inv|]. eapply wire_keeps, Hw. left. simpl. by rewrite app_nil_r.
  - intros u ps [Hu Hw]. simpl. unfold Usb.webos_adb_reboot_request. rewrite !decide_False by naive_solver.
    pose proof (reschedule_in_use (device u)) as Hd. destruct (k_work_reschedule_reboot (device u)) as [r d].
    split; [by apply device_inv|]. eapply wire_keeps, Hw. left. simpl. by rewrite app_nil_r.
Qed.
End system.

Section composed.
Context {cfg : AdbConfig} {ucfg : UsbConfig} {K : UsbStack} {L : UsbStackLaws} {S : AdbServices}.
Implicit Types (s : adb (E := usb_transport)) (u : adb_usb_data) (b : nat) (M : gset nat).

(** The engine and its transport, with the buffers [M] in the hands of the
    thread of the USB stack. *)
Definition sys M s : Prop := inv s /\ holds (E := usb_transport) (transport_ok M) s.

Lemma sys_on_usb f M M' s :
  (uinv M (usb s) -> uinv M' (f (usb s)) /\ keeps_queue (usb s) (f (usb s))) -> sys M s -> sys M' (on_usb f s).
Proof.
  intros Hf [Hi [Hu Hw]]. destruct (Hf Hu) as [Hu' Hk]. split.
  - apply (inv_good s); [done|]. apply good_env, Hi.
  - split; [done|]. by eapply wire_keeps, Hw.
Qed.

Lemma sys_with_usb {R} (f : adb_usb_data -> R * adb_usb_data) M M' s :
  (uinv M (usb s) -> uinv M' (f (usb s)).2 /\ keeps_queue (usb s) (f (usb s)).2) -> sys M s -> sys M' (with_usb f s).2.
Proof.
  intros Hf Hs. unfold with_usb. assert (sys M' (on_usb (fun u => (f u).2) s)) as H by (by eapply sys_on_usb, Hs).
  revert H. unfold on_usb. destruct (f (environment s)) as [r u]. done.
Qed.

Lemma keeps_queue_same u u' : streamed (trace u') = streamed (trace u) -> keeps_queue u u'.
Proof. intros H. left. unfold queued. by rewrite H. Qed.

(** The engine's entry points. *)
Lemma sys_protocol_reset M s : sys M s -> sys M (webos_adb_protocol_reset s).
Proof. intros [Hi Hh]. split; [apply inv_reset, Hi|]. by apply holds_reset. Qed.

Lemma sys_tx_ready M s : sys M s -> sys M (webos_adb_protocol_tx_ready s).
Proof. intros [Hi Hh]. split; [eapply inv_good, good_tx_ready, Hi; done|]. by apply (holds_tx_ready (transport_ok M)). Qed.

Lemma sys_receive M data s : sys M s -> exists r, webos_adb_protocol_receive data s = Some r /\ sys M r.2.
Proof.
  intros [Hi Hh]. destruct (inv_receive data s Hi) as (r & Hr & Hi'). exists r. split; [done|]. split; [done|].
  by eapply (holds_receive (transport_ok M)).
Qed.

(** The transport's. *)
Lemma sys_resetting M x s : sys M s -> sys M (on_usb (set_resetting x) s).
Proof. apply sys_on_usb. intros Hu. split; [by apply bits_inv|by left]. Qed.

Lemma sys_reset_queues M s : sys M s -> sys M (on_usb reset_usb_queues s).
Proof. apply sys_on_usb. intros Hu. split; [by apply reset_queues_inv|]. right. apply queued_reset. Qed.

Lemma sys_submit_out M s : sys M s -> sys M (with_usb submit_out s).2.
Proof.
  apply sys_with_usb. intros Hu. destruct (submit_out (usb s)) as [r u'] eqn:E.
  destruct (submit_out_inv M _ _ _ Hu E). split; [done|by apply keeps_queue_same].
Qed.

Lemma sys_unref M b s : b ∈ M -> sys M s -> sys (M ∖ {[ b ]}) (on_usb (buf_unref b) s).
Proof.
  intros Hb. apply sys_on_usb. intros Hu. split; [by apply unref_inv|]. apply keeps_queue_same. simpl.
  apply streamed_silent. repeat constructor.
Qed.

(** The three calls that take the transport back to the start of a session. *)
Lemma sys_restart M s :
  sys M s -> sys M (on_usb (set_resetting false) (on_usb reset_usb_queues (webos_adb_protocol_reset s))).
Proof. intros Hs. by apply sys_resetting, sys_reset_queues, sys_protocol_reset. Qed.

(** A stale transfer is released. *)
Lemma sys_stale b ep s :
  sys ∅ s -> held (usb s) b ep -> active_in_buffer (usb s) <> Some b -> active_out_buffer (usb s) <> Some b ->
  sys ∅ (on_usb (buf_unref b) (on_usb (transfer_done b) s)).
Proof.
  intros Hs Hh Hi Ho. assert (sys ({[ b ]} ∪ ∅) (on_usb (transfer_done b) s)) as H1.
  { revert Hs. apply sys_on_usb. intros Hu. split; [by eapply stale_inv|]. apply keeps_queue_same. simpl.
    apply streamed_silent. repeat constructor. }
  apply (sys_unref _ b) in H1; [|set_solver]. by replace (({[ b ]} ∪ ∅) ∖ {[ b ]} : gset nat) with (∅ : gset nat) in H1 by set_solver.
Qed.

(** A held transfer is the active one of its own endpoint only. *)
Lemma held_active M u b ep :
  uinv M u -> held u b ep ->
  (active_in_buffer u = Some b -> ep = ADB_USB_IN_EP) /\ (active_out_buffer u = Some b -> ep = ADB_USB_OUT_EP).
Proof.
  intros Hu (l & Hl & Hb). destruct (u_owned _ _ Hu) as (l' & Hl' & _ & _ & Hai & Hao).
  rewrite Hl in Hl'. injection Hl' as <-.
  split; [intros H; specialize (Hai _ H)|intros H; specialize (Hao _ H)]; congruence.
Qed.

Lemma sys_request_in b err s :
  sys ∅ s -> held (usb s) b ADB_USB_IN_EP -> sys ∅ (request_in b err (on_usb (transfer_done b) s)).2.
Proof.
  intros Hs Hh. unfold request_in. pose proof (held_active ∅ _ b _ (proj1 (proj2 Hs)) Hh) as [_ Ho].
  case_decide as Ha; [apply (sys_stale b _ s Hs Hh); [done|by intros Hb; specialize (Ho Hb)]|].
  change (active_in_buffer (usb s) = Some b) in Ha.
  assert (sys ∅ (with_usb (in_complete b err) (on_usb (transfer_done b) s)).2) as H1.
  { change (sys ∅ (with_usb (fun u => in_complete b err (transfer_done b u)) s).2). revert Hs. apply sys_with_usb.
    intros Hu. destruct (in_complete b err (transfer_done b (usb s))) as [r u'] eqn:E. by eapply in_complete_inv. }
  destruct (with_usb _ _) as [res s1]. cbn [snd] in *. destruct (reset_protocol res).
  - apply sys_restart in H1. cbn zeta. destruct (ENABLED _); [by apply sys_submit_out|done].
  - destruct (notify_protocol res); [by apply sys_tx_ready|done].
Qed.

Lemma sys_receive_out M data s : sys M s -> exists s', receive_out data s = Some s' /\ sys M s'.
Proof.
  intros Hs. unfold receive_out. destruct (sys_receive M data s Hs) as ([ret s1] & -> & H1). cbn [snd] in H1.
  eexists. split; [done|]. case_decide; [|done]. by apply sys_restart, sys_resetting.
Qed.

Lemma sys_request_out b data err s :
  sys ∅ s -> held (usb s) b ADB_USB_OUT_EP ->
  exists r s', request_out b data err (on_usb (transfer_done b) s) = Some (r, s') /\ sys ∅ s'.
Proof.
  intros Hs Hh. unfold request_out. pose proof (held_active ∅ _ b _ (proj1 (proj2 Hs)) Hh) as [Hi _].
  destruct (decide _) as [Ha|Ha].
  { eexists _, _. split; [done|]. apply (sys_stale b _ s Hs Hh); [by intros Hb; specialize (Hi Hb)|done]. }
  apply dec_stable in Ha. change (active_out_buffer (usb s) = Some b) in Ha. cbn zeta.
  assert (sys ({[ b ]} ∪ ∅) (on_usb out_complete (on_usb (transfer_done b) s))) as H1.
  { change (sys ({[ b ]} ∪ ∅) (on_usb (fun u => out_complete (transfer_done b u)) s)). revert Hs. apply sys_on_usb.
    intros Hu. split; [by apply out_complete_inv|]. apply keeps_queue_same. simpl. apply streamed_silent. repeat constructor. }
  set (s1 := on_usb out_complete _) in *. clearbody s1.
  assert (exists s2, (if decide (err = 0%Z /\ data <> [] /\ RESETTING (usb s1) = false) then receive_out data s1 else Some s1) = Some s2
            /\ sys ({[ b ]} ∪ ∅) s2) as (s2 & -> & H2).
  { case_decide; [by apply sys_receive_out|by exists s1]. }
  apply (sys_unref _ b) in H2; [|set_solver]. replace (({[ b ]} ∪ ∅) ∖ {[ b ]} : gset nat) with (∅ : gset nat) in H2 by set_solver.
  case_decide; [by eexists _, _|]. destruct (_ && _); [|by eexists _, _].
  apply sys_submit_out in H2. destruct (with_usb submit_out _) as [r s3]. by exists r, s3.
Qed.

Lemma sys_request ep b data err s :
  sys ∅ s -> held (usb s) b ep -> exists r s', adb_usb_request ep b data err s = Some (r, s') /\ sys ∅ s'.
Proof.
  intros Hs Hh. unfold adb_usb_request. cbn zeta. case_decide as Hin; [|case_decide as Hout].
  - rewrite Hin in Hh. pose proof (sys_request_in b err s Hs Hh) as H1. destruct (request_in b err _) as [r s1]. eauto.
  - rewrite Hout in Hh. by apply sys_request_out.
  - pose proof (held_active ∅ _ b _ (proj1 (proj2 Hs)) Hh) as [Hi Ho]. eexists _, _. split; [done|].
    apply (sys_stale b ep s Hs Hh); auto.
Qed.

(** ** Starting up *)

Lemma serial_inv M u : uinv M u -> uinv M (prepare_serial_number u).2 /\ keeps_queue u (prepare_serial_number u).2.
Proof.
  intros Hu. unfold prepare_serial_number. pose proof (hwinfo_in_use ADB_DEVICE_ID_BYTES (device u)) as Hd.
  destruct (hwinfo_get_device_id _ _) as [[n id] d]. cbn [fst snd] in Hd.
  assert (uinv M (set_device d [] u)) as H1 by (by apply device_inv).
  assert (keeps_queue u (set_device d [] u)) as H2 by (left; simpl; by rewrite app_nil_r).
  case_decide; [done|]. split; [|exact H2]. destruct H1 as [Hq Ho Hs Hp Ha Hin Hout].
  split; try done; by eapply queue_ok_eq, Hq.
Qed.

Lemma requests_inv M l u : uinv M u -> uinv M (device_requests l u).2 /\ keeps_queue u (device_requests l u).2.
Proof.
  revert u. induction l as [|c l IH]; intros u Hu; cbn [device_requests]; [split; [done|by left]|].
  pose proof (request_in_use c (device u)) as Hd. destruct (device_request c (device u)) as [r d]. cbn [snd] in Hd.
  assert (uinv M (set_device d [] u)) as H1 by (by apply device_inv).
  assert (queued (trace (set_device d [] u)) = queued (trace u)) as H2 by (simpl; by rewrite app_nil_r).
  case_decide; [split; [done|by left]|]. destruct (IH _ H1) as [H3 [H4|H4]]; split; [done|left; congruence|done|by right].
Qed.

Lemma usb_init_inv M u : uinv M u -> uinv M (webos_adb_usb_init u).2 /\ keeps_queue u (webos_adb_usb_init u).2.
Proof.
  intros Hu. unfold webos_adb_usb_init. destruct (serial_inv M u Hu) as [H1 H2].
  destruct (prepare_serial_number u) as [r u1]. cbn [snd] in *. case_decide; [done|].
  match goal with |- context [device_requests ?l u1] => destruct (requests_inv M l u1 H1) as [H3 H4] end.
  split; [done|]. destruct H4 as [H4|H4]; [|by right]. destruct H2 as [H2|H2]; [left|right]; congruence.
Qed.

(** ** The system *)

(** What the thread of the USB stack and the threads of the services do, after
    [webos_adb_init]. The stack completes only transfers it holds. *)
Inductive usb_system : adb (E := usb_transport) -> Prop :=
| sys_boot x d : usb_system (webos_adb_init (initial (E := usb_transport) x (usb_initial d))).2
| sys_class_init s : usb_system s -> usb_system (adb_usb_class_init s).2
| sys_enable s : usb_system s -> usb_system (adb_usb_enable s)
| sys_disable s : usb_system s -> usb_system (adb_usb_disable s)
| sys_message m s : usb_system s -> usb_system (adb_usb_message m s)
| sys_complete ep b data err s r s' :
    usb_system s -> held (usb s) b ep -> adb_usb_request ep b data err s = Some (r, s') -> usb_system s'
| sys_service_write i gen data s : usb_system s -> usb_system (webos_adb_stream_write_generation i gen data s).2
| sys_service_close i gen s : usb_system s -> usb_system (webos_adb_stream_close_generation i gen s)
| sys_services x s : usb_system s -> usb_system (set_services x s).

Lemma sys_initial x d : sys ∅ (webos_adb_init (initial (E := usb_transport) x (usb_initial d))).2.
Proof.
  unfold webos_adb_init. eapply sys_with_usb; [apply usb_init_inv|].
  pose proof (core_initial (E := usb_transport) x (usb_initial d)) as Hc. split.
  - apply inv_reset. destruct Hc. by split.
  - apply (holds_reset (transport_ok ∅)). split; [apply initial_inv|]. by exists [], [].
Qed.

Lemma usb_system_inv s : usb_system s -> sys ∅ s.
Proof.
  induction 1 as [x d|s _ IH|s _ IH|s _ IH|m s _ IH|ep b data err s r s' _ IH Hh Hr|i gen data s _ [Hi Hs]|i gen s _ [Hi Hs]|x s _ [Hi Hs]].
  - apply sys_initial.
  - revert IH. apply sys_on_usb. intros Hu. split; [|by left]. destruct Hu as [Hq Ho Hs Hp Ha Hin Hout].
    split; try done. by eapply queue_ok_eq, Hq.
  - unfold adb_usb_enable. apply sys_submit_out. eapply sys_on_usb; [|by apply sys_protocol_reset, sys_reset_queues].
    intros Hu. split; [by apply bits_inv|by left].
  - unfold adb_usb_disable. apply sys_protocol_reset, sys_reset_queues. revert IH. apply sys_on_usb.
    intros Hu. split; [by apply bits_inv|by left].
  - destruct m; [by apply sys_restart, sys_resetting..|done].
  - destruct (sys_request ep b data err s IH Hh) as (r0 & s0 & Hr0 & H0). rewrite Hr in Hr0. by simplify_eq.
  - split; [eapply inv_good, good_write, Hi; done|]. by apply (holds_write (transport_ok ∅)).
  - split; [eapply inv_good, good_close, Hi; done|]. by apply (holds_close (transport_ok ∅)).
  - split; [eapply inv_good, good_services, Hi; done|]. done.
Qed.
End composed.

(** ** Posting the OUT endpoint again *)

Section rearm.
Context {cfg : AdbConfig} {ucfg : UsbConfig} {K : UsbStack} {L : UsbStackLaws} {S : AdbServices}.
Implicit Types (s : adb (E := usb_transport)) (u : adb_usb_data) (b : nat).

(** The bits [submit_out] looks at. *)
Definition out_bits u : bool * bool * bool := (ENABLED u, OUT_ENGAGED u, RESETTING u).

Lemma enqueue_in_bits data u : out_bits (enqueue_in data u).2 = out_bits u.
Proof.
  unfold enqueue_in, buf_alloc, ep_enqueue. destruct (usbd_ep_buf_alloc _ _ _) as [[b|] d]; [|done].
  destruct (usbd_ep_enqueue _ _ _). by destruct (decide (z <> 0%Z)).
Qed.

Lemma start_tx_bits u : out_bits (start_tx_packet_unlocked u).2 = out_bits u.
Proof.
  unfold start_tx_packet_unlocked. case_decide; [done|]. destruct (IN_ENGAGED u); [done|]. cbn zeta.
  match goal with |- context [enqueue_in ?h ?v] => pose proof (enqueue_in_bits h v) as Hb; destruct (enqueue_in h v) as [r u1] end.
  by case_decide.
Qed.

Lemma send_bits h n p len u : out_bits (webos_adb_usb_send h n p len u).2 = out_bits u.
Proof.
  assert (forall h p, out_bits (send_locked h p u).2 = out_bits u) as Hs.
  { clear. intros h p. unfold send_locked. destruct (negb _ || _); [done|]. case_decide; [done|]. cbn zeta.
    destruct (bool_decide _); [|done].
    match goal with |- context [start_tx_packet_unlocked ?v] => pose proof (start_tx_bits v) as Hb;
      destruct (start_tx_packet_unlocked v) as [r u1] end.
    cbn [snd] in *. by case_decide. }
  unfold webos_adb_usb_send. destruct (_ || _); [done|]. destruct h as [h|]; [|done].
  destruct p; repeat case_decide; done || apply Hs.
Qed.

(** The engine leaves them alone. *)
Definition bits_are (x : bool * bool * bool) (u : env (AdbEnv := usb_transport)) (_ : list packet) : Prop := out_bits u = x.

#[export] Instance bits_invariant x : TransportInvariant (E := usb_transport) (bits_are x).
Proof.
  split.
  - unfold bits_are. intros u ps c a0 a1 pl Hu. simpl.
    pose proof (send_bits (Some (encode_message c a0 a1 pl)) (length (encode_message c a0 a1 pl)) (Some pl) (length pl) u) as Hs.
    destruct (webos_adb_usb_send _ _ _ _ u) as [ret u']. cbn [snd] in Hs. congruence.
  - done.
  - intros u ps n Hu. simpl. by destruct (heap_malloc n (device u)).
  - unfold bits_are. intros u ps Hu. simpl. unfold Usb.webos_adb_reboot_request. rewrite !decide_False by naive_solver.
    by destruct (k_work_reschedule_reboot (device u)).
Qed.

(** A stack that has a buffer and room for a transfer on the OUT endpoint. *)
Definition stack_grants : Prop :=
  forall n d, exists b d', usbd_ep_buf_alloc ADB_USB_OUT_EP n d = (Some b, d') /\ (usbd_ep_enqueue b [] d').1 = 0%Z.

Lemma submit_out_granted u :
  stack_grants -> ENABLED u = true -> OUT_ENGAGED u = false -> RESETTING u = false ->
  exists b u', submit_out u = (0%Z, u') /\ OUT_ENGAGED u' = true /\ active_out_buffer u' = Some b.
Proof.
  intros Hg He Ho Hr. unfold submit_out, buf_alloc, ep_enqueue. rewrite He, Hr, Ho. cbn [negb orb]. cbn zeta.
  destruct (Hg ADB_USB_TRANSFER_SIZE (device u)) as (b & d' & Ha & Hz). cbn [device set_out_engaged set_bits].
  unfold bulk_out_endpoint. rewrite Ha. cbn [device set_active_out set_device].
  destruct (usbd_ep_enqueue b [] d') as [r d2]. cbn [fst] in Hz. subst r.
  rewrite (decide_False (P := 0%Z <> 0%Z)) by naive_solver. by eexists b, _.
Qed.

Lemma receive_out_bits data s s' :
  out_bits (usb s) = (true, false, false) -> receive_out data s = Some s' -> out_bits (usb s') = (true, false, false).
Proof.
  intros Hb. unfold receive_out. destruct (webos_adb_protocol_receive data s) as [[ret s1]|] eqn:Er; [|done].
  assert (out_bits (usb s1) = (true, false, false)) as H1.
  { exact (holds_receive (bits_are (true, false, false)) data s _ Hb Er). }
  intros [= <-]. case_decide; [|done].
  assert (out_bits (usb (webos_adb_protocol_reset (on_usb (set_resetting true) s1))) = (true, false, true)) as H2.
  { apply (holds_reset (E := usb_transport) (bits_are (true, false, true)) (on_usb (set_resetting true) s1)).
    change (out_bits (set_resetting true (usb s1)) = (true, false, true)). unfold out_bits in *. simpl. congruence. }
  set (s2 := webos_adb_protocol_reset _) in *. clearbody s2. unfold out_bits in *. simpl. unfold usb in H2. simpl in H2. congruence.
Qed.
End rearm.

Section theorems.
Context {cfg : AdbConfig} {ucfg : UsbConfig} {K : UsbStack} {L : UsbStackLaws} {S : AdbServices}.
Implicit Types (s : adb (E := usb_transport)) (u : adb_usb_data) (b : nat).

(** C25: the IN endpoint carries the packets of the engine, in
    order: whatever the interleaving, the packets the engine sent split in two
    such that the bytes handed to the controller since the queue was last
    emptied, followed by the bytes still waiting, are the encodings of the later
    part, back to back; and the code has an active IN transfer, which the
    controller holds, exactly while a packet waits.  A transfer that a reset of
    the queue abandoned may still be with the controller; it is no longer the
    active one. *)
Theorem usb_stream_refines s :
  usb_system s ->
  (exists before after, sent s = before ++ after
     /\ handed (trace (usb s)) ++ backlog (usb s) = concat (encode_packet <$> after))
  /\ (active_in_buffer (usb s) = None <-> waiting (usb s) = [])
  /\ (forall b, active_in_buffer (usb s) = Some b -> held (usb s) b ADB_USB_IN_EP).
Proof.
  intros [_ [Hu (before & after & Hs & Hq)]]%usb_system_inv. split_and!.
  - exists before, after. split; [done|]. rewrite <- Hq. symmetry. apply (u_stream _ _ Hu).
  - rewrite (u_active _ _ Hu), <- (SlotQueue.length_qview _ (q_wf _ (u_queue _ _ Hu))). apply length_zero_iff_nil.
  - intros b Hb. destruct (u_owned _ _ Hu) as (l & Hl & _ & _ & Hi & _). exists l. split; [done|by apply Hi].
Qed.

(** C26: no buffer is leaked, released twice or released while the
    controller holds it: between callbacks the history of allocations, transfers
    and releases breaks no rule, every buffer that was allocated is released or
    a transfer the controller holds, and the active buffers are transfers on
    their own endpoints. *)
Theorem usb_buffers_safe s :
  usb_system s ->
  exists l, owners (trace (usb s)) = Some l
    /\ (forall b o, l !! b = Some o -> exists ep, o = Controller ep)
    /\ (forall b, active_in_buffer (usb s) = Some b -> l !! b = Some (Controller ADB_USB_IN_EP))
    /\ (forall b, active_out_buffer (usb s) = Some b -> l !! b = Some (Controller ADB_USB_OUT_EP)).
Proof.
  intros [_ [Hu _]]%usb_system_inv. destruct (u_owned _ _ Hu) as (l & Hl & Hm & _ & Hi & Ho).
  exists l. split_and!; [done| |done..]. intros b [|ep] Hb; [|by exists ep].
  apply Hm in Hb. set_solver.
Qed.

(** The invariant does not depend on the order in which the
    threads enter [tx_lock]: after any sequence of sections and of stores to the
    bits the queue is a bounded FIFO of well-formed packets, the transfers handed
    over and the backlog make up what was queued, the state machine of the IN
    endpoint is idle exactly when the queue is empty, and the history of the
    buffers breaks no rule. *)
Theorem usb_sections_invariant d u :
  rtc section_step (usb_initial d) u ->
  queue_ok u /\ length (waiting u) <= ADB_USB_TX_QUEUE_DEPTH
  /\ queued (trace u) = handed (trace u) ++ backlog u
  /\ (tx_phase u = ADB_USB_TX_IDLE <-> waiting u = []) /\ (active_in_buffer u = None <-> waiting u = [])
  /\ is_Some (owners (trace u)).
Proof.
  intros [M Hu]%sections_inv. pose proof (u_queue _ _ Hu) as Hq. pose proof (SlotQueue.length_qview _ (q_wf _ Hq)) as Hl.
  assert (waiting u = [] <-> SlotQueue.qcount (tx_queue u) = 0) as Hw.
  { rewrite <- Hl. symmetry. apply length_zero_iff_nil. }
  split_and!; [done| |apply Hu|by rewrite Hw; apply Hu|by rewrite Hw; apply Hu|].
  - unfold waiting. rewrite Hl, <- (q_depth _ Hq). by apply SlotQueue.qcount_le, (q_wf _ Hq).
  - destruct (u_owned _ _ Hu) as (l & Hl' & _). by exists l.
Qed.

(** Every callback for a completed transfer returns; and when
    the posted OUT request completes without an error, whatever its bytes make
    the engine do, another one is posted before the callback returns, provided
    the stack has a buffer for it. *)
Theorem usb_out_rearmed s ep b data err :
  usb_system s -> held (usb s) b ep ->
  exists r s', adb_usb_request ep b data err s = Some (r, s')
    /\ (stack_grants -> ENABLED (usb s) = true -> RESETTING (usb s) = false ->
        active_out_buffer (usb s) = Some b -> err = 0%Z ->
        r = 0%Z /\ OUT_ENGAGED (usb s') = true /\ exists b', active_out_buffer (usb s') = Some b').
Proof.
  intros Hs Hh. destruct (sys_request ep b data err s (usb_system_inv s Hs) Hh) as (r & s' & Hr & _).
  exists r, s'. split; [done|]. intros Hg He Hn Ha ->.
  assert (ep = ADB_USB_OUT_EP) as ->.
  { by apply (held_active ∅ (usb s) b ep (proj1 (proj2 (usb_system_inv s Hs))) Hh). }
  revert Hr. unfold adb_usb_request. cbn zeta. rewrite decide_False, decide_True by done.
  unfold request_out. rewrite (decide_False (P := _ <> Some b)) by naive_solver. cbn zeta.
  set (s1 := on_usb out_complete _).
  assert (out_bits (usb s1) = (true, false, false)) as H1.
  { change (out_bits (out_complete (transfer_done b (usb s))) = (true, false, false)). unfold out_bits. simpl. congruence. }
  clearbody s1. destruct (if decide (0%Z = 0%Z /\ data <> [] /\ _) then _ else _) as [s2|] eqn:E2; [|done].
  assert (out_bits (usb s2) = (true, false, false)) as H2.
  { case_decide; [by eapply receive_out_bits|by simplify_eq]. }
  rewrite decide_False by naive_solver. set (s3 := on_usb (buf_unref b) s2).
  assert (out_bits (usb s3) = (true, false, false)) as H3 by exact H2. clearbody s3.
  unfold out_bits in H3. injection H3 as He3 Ho3 Hr3. rewrite He3, Hr3. cbn [andb negb]. unfold with_usb.
  destruct (submit_out_granted (usb s3) Hg He3 Ho3 Hr3) as (b' & u' & Hsub & Heng & Hact). unfold usb in Hsub. rewrite Hsub.
  intros [= <- <-]. split_and!; [done|done|by exists b'].
Qed.

(** ** The serial number *)

Lemma serial_digits_hex id : serial_digits id = concat ((fun c => hex_text 2 (bval c)) <$> id).
Proof. unfold serial_digits. f_equal. apply list_fmap_ext. intros _ c _. by destruct c. Qed.

Definition read_byte (a b : byte) : option byte :=
  x ← digit_value a; y ← digit_value b; Some (byte_of_Z (x * 16 + y)).

Lemma serial_digits_cons c id :
  exists a b : byte, serial_digits (c :: id) = a :: b :: serial_digits id /\ read_byte a b = Some c /\ a <> NUL /\ b <> NUL.
Proof. eexists _, _. split; [done|]. by destruct c. Qed.

Lemma serial_digits_inj id id' : serial_digits id = serial_digits id' -> id = id'.
Proof.
  revert id'. induction id as [|c id IH]; intros [|c' id'] He; try done.
  destruct (serial_digits_cons c id) as (a & b & E & Hr & _), (serial_digits_cons c' id') as (a' & b' & E' & Hr' & _).
  rewrite E, E' in He. injection He as <- <- He. rewrite Hr in Hr'. injection Hr' as <-. by rewrite (IH id').
Qed.

Lemma serial_digits_no_nul id : NUL ∉ serial_digits id.
Proof.
  induction id as [|c id IH]; [set_solver|]. destruct (serial_digits_cons c id) as (a & b & -> & _ & Ha & Hb).
  rewrite !elem_of_cons. naive_solver.
Qed.

Lemma length_serial_digits id : length (serial_digits id) = 2 * length id.
Proof.
  induction id as [|c id IH]; [done|]. destruct (serial_digits_cons c id) as (a & b & -> & _). simpl. lia.
Qed.

(** The serial number is the prefix and two hexadecimal digits
    for each byte of the device's identifier: it fits the array with its NUL for
    every identifier the driver may return, the length of the string descriptor
    does not wrap, and devices with different identifiers have different serial
    numbers. *)
Theorem usb_serial_number u id d :
  hwinfo_get_device_id ADB_DEVICE_ID_BYTES (device u) = ((Z.of_nat (length id), id), d) ->
  0 < length id <= ADB_DEVICE_ID_BYTES -> length (adb_serial u) = ADB_SERIAL_CAPACITY ->
  exists u', prepare_serial_number u = (0%Z, u')
    /\ length (adb_serial u') = ADB_SERIAL_CAPACITY
    /\ c_string (adb_serial u') = ADB_SERIAL_PREFIX ++ concat ((fun c => hex_text 2 (bval c)) <$> id)
    /\ serial_bLength u' = (2 + 2 * Z.of_nat (length (c_string (adb_serial u'))))%Z
    /\ forall id', concat ((fun c => hex_text 2 (bval c)) <$> id') = concat ((fun c => hex_text 2 (bval c)) <$> id) -> id' = id.
Proof.
  intros Hd Hid Hcap. unfold prepare_serial_number. rewrite Hd, decide_False by lia. rewrite Nat2Z.id, firstn_all.
  set (text := ADB_SERIAL_PREFIX ++ serial_digits id).
  assert (length text = 14 + 2 * length id) as Hlen by (subst text; rewrite length_app, length_serial_digits; done).
  assert (NUL ∉ text) as Hnul.
  { subst text. rewrite elem_of_app. intros [H|H]; [|by apply serial_digits_no_nul in H].
    assert (NUL ∉ ADB_SERIAL_PREFIX) as Hp by (by apply (bool_decide_unpack _)). done. }
  change (ADB_SERIAL_CAPACITY) with 27 in *. change ADB_DEVICE_ID_BYTES with 6 in Hid.
  rewrite <- serial_digits_hex. eexists. split; [done|]. cbn [adb_serial serial_bLength set_serial set_device].
  assert (c_string (write_at (adb_serial u) 0 (text ++ [NUL])) = text) as Hc.
  { unfold write_at. rewrite take_0, <- app_assoc. cbn [app]. by apply c_string_app. }
  rewrite Hc. split_and!; [rewrite length_write_at; rewrite ?length_app; change (length [NUL]) with 1; lia|done|rewrite Z.mod_small; lia|].
  intros id' He. rewrite <- serial_digits_hex in He. by apply serial_digits_inj.
Qed.

(** ** What the configuration and the error path allow *)

(** With a transfer buffer that cannot hold the banner, which
    the range of CONFIG_WEBOS_ADB_USB_TRANSFER_SIZE includes, the reply to a
    connection is refused each time and no session ever comes online. *)
Theorem small_transfer_never_online s :
  ADB_ALLOW_NO_AUTH = true -> ADB_USB_TRANSFER_SIZE < length device_banner ->
  (handle_connect s).1 <> 0%Z /\ online (handle_connect s).2 = false.
Proof.
  intros Ha Hn. unfold handle_connect. rewrite Ha. cbn zeta. set (s1 := set_control _ _).
  set (s2 := set_session _ false _).
  assert (SlotQueue.qcount (control s2) = 0 /\ online s2 = false) as [Hc Ho] by (subst s2; by destruct ADB_USB).
  clearbody s2. unfold send_connect, send_control. rewrite decide_False by lia.
  assert (exists ret s3, send_packet_raw WControl ADB_COMMAND_CNXN ADB_VERSION (Z.of_nat ADB_MAX_PAYLOAD) device_banner s2 = (ret, s3)
            /\ (ret = (- ENODEV)%Z \/ ret = (- EMSGSIZE)%Z) /\ online s3 = false) as (ret & s3 & -> & Hret & Ho3).
  { unfold send_packet_raw. destruct (connected s2); [|by eexists _, _; split_and!; [|left|]].
    simpl. unfold webos_adb_usb_send. destruct (_ || _); [by eexists _, _; split_and!; [|left|]|].
    rewrite decide_False by (intros H24; by apply H24). rewrite decide_True by exact Hn.
    by eexists _, _; split_and!; [|right|]. }
  assert (flow_control_error ret = false) as -> by (by destruct Hret as [-> | ->]).
  rewrite decide_False by (by destruct Hret as [-> | ->]). by destruct Hret as [-> | ->].
Qed.
End theorems.

(** ** Witnesses

    A stack that numbers its buffers, accepts every transfer and has a device
    identifier, below the configuration and services of AdbSpec.v. *)

Definition demo_id : list byte := [x24; x0a; xc4; x00; x12; xff].

#[local] Instance demo_stack : UsbStack :=
  Build_UsbStack nat (fun _ _ d => (Some d, Datatypes.S d)) (fun _ _ d => (0%Z, d)) (fun _ d => d) (fun _ d => (0%Z, d))
    (fun _ d => ((6%Z, demo_id), d)) (fun _ d => (true, d)) (fun d => (0%Z, d)).

#[local] Instance demo_stack_laws : UsbStackLaws.
Proof.
  refine (Build_UsbStackLaws demo_stack (fun d => list_to_set (seq 0 d)) _ _ _ _ _ _ _ _); simpl; try done.
  - intros _ _ d b d' [= <- <-]. rewrite elem_of_list_to_set, elem_of_seq. split; [lia|].
    intros x. rewrite elem_of_union, !elem_of_list_to_set, elem_of_singleton, !elem_of_seq. lia.
  - set_solver.
Defined.

#[local] Existing Instance demo_services.
#[local] Instance usb_demo_config : AdbConfig := demo_config true.
#[local] Instance usb_demo_options : UsbConfig.
Proof. refine (Build_UsbConfig _ 6 _ _); simpl; lia. Defined.

Definition usb_demo0 : adb (E := usb_transport) := (webos_adb_init (initial (E := usb_transport) tt (usb_initial 0))).2.
Definition usb_demo1 : adb (E := usb_transport) := adb_usb_enable (adb_usb_class_init usb_demo0).2.

Definition completed (ep : Z) (b : nat) (data : list byte) (err : Z) (s : adb (E := usb_transport)) : adb (E := usb_transport) :=
  match adb_usb_request ep b data err s with Some (_, s') => s' | None => s end.

(** The host connects and opens a shell. *)
Definition usb_demo2 : adb (E := usb_transport) := completed ADB_USB_OUT_EP 0 demo_input 0 usb_demo1.
(** A transfer to the host fails; the host connects again. *)
Definition usb_demo3 : adb (E := usb_transport) := completed ADB_USB_IN_EP 1 [] (- EIO) usb_demo2.
Definition usb_demo4 : adb (E := usb_transport) := completed ADB_USB_OUT_EP 2 demo_input 0 usb_demo3.

Lemma completed_system ep b data err s : usb_system s -> held (usb s) b ep -> usb_system (completed ep b data err s).
Proof.
  intros Hs Hh. unfold completed. destruct (adb_usb_request ep b data err s) as [[r s']|] eqn:Er; [|done].
  by eapply sys_complete.
Qed.

Lemma usb_demo1_system : usb_system usb_demo1.
Proof. apply sys_enable, sys_class_init, sys_boot. Qed.

Lemma usb_demo1_held : held (usb usb_demo1) 0 ADB_USB_OUT_EP.
Proof. eexists. split; [vm_compute; reflexivity|vm_compute; reflexivity]. Qed.

Lemma usb_demo2_system : usb_system usb_demo2.
Proof. apply completed_system; [apply usb_demo1_system|apply usb_demo1_held]. Qed.

(** The transfer that was posted before the IN endpoint failed is still with the
    controller, and what the host sends next arrives in it; the code no longer
    knows it and drops the bytes: the connection request of [usb_demo4] is lost. *)
Lemma in_failure_loses_out :
  usb_system usb_demo4
  /\ held (usb usb_demo3) 2 ADB_USB_OUT_EP /\ active_out_buffer (usb usb_demo3) = Some 3
  /\ online usb_demo4 = false /\ wire usb_demo4 = wire usb_demo3
  /\ online (completed ADB_USB_OUT_EP 3 demo_input 0 usb_demo3) = true.
Proof.
  assert (held (usb usb_demo2) 1 ADB_USB_IN_EP) as H2 by (eexists; split; vm_compute; reflexivity).
  assert (held (usb usb_demo3) 2 ADB_USB_OUT_EP) as H3 by (eexists; split; vm_compute; reflexivity).
  split_and!; [|exact H3|vm_compute; reflexivity..].
  apply completed_system; [|exact H3]. apply completed_system; [exact usb_demo2_system|exact H2].
Qed.

Lemma usb_stream_refines_witness :
  length (waiting (usb usb_demo2)) = 2
  /\ exists before after, sent usb_demo2 = before ++ after
       /\ handed (trace (usb usb_demo2)) ++ backlog (usb usb_demo2) = concat (encode_packet <$> after).
Proof. split; [vm_compute; reflexivity|]. apply (usb_stream_refines usb_demo2 usb_demo2_system). Defined.

(** A reset of the queue abandons the transfer: nothing waits and none is active,
    but the controller still holds buffer 1. *)
Example reset_abandons_transfer :
  let u := reset_tx_queue_unlocked (usb usb_demo2) in
  active_in_buffer (usb usb_demo2) = Some 1 /\ waiting u = [] /\ active_in_buffer u = None /\ held u 1 ADB_USB_IN_EP.
Proof. cbn zeta. split_and!; [vm_compute; reflexivity..|]. eexists. split; vm_compute; reflexivity. Qed.

Lemma usb_buffers_safe_witness :
  active_in_buffer (usb usb_demo2) = Some 1 /\ active_out_buffer (usb usb_demo2) = Some 2
  /\ exists l, owners (trace (usb usb_demo2)) = Some l.
Proof.
  split_and!; [vm_compute; reflexivity..|].
  destruct (usb_buffers_safe usb_demo2 usb_demo2_system) as (l & Hl & _). by exists l.
Defined.

Definition demo_section : adb_usb_data := (submit_out (set_enabled true (usb_initial 0))).2.

Lemma usb_sections_invariant_witness :
  queue_ok demo_section /\ active_out_buffer demo_section = Some 0 /\ is_Some (owners (trace demo_section)).
Proof.
  assert (rtc section_step (usb_initial 0) demo_section) as Hr.
  { eapply rtc_l; [apply (sec_enabled _ true)|]. apply rtc_once. apply sec_submit. }
  destruct (usb_sections_invariant (K := demo_stack) 0 demo_section Hr) as (Hq & _ & _ & _ & _ & Ho).
  split_and!; [exact Hq|vm_compute; reflexivity|exact Ho].
Defined.

Lemma usb_out_rearmed_witness :
  exists r s', adb_usb_request ADB_USB_OUT_EP 0 demo_input 0 usb_demo1 = Some (r, s')
    /\ r = 0%Z /\ OUT_ENGAGED (usb s') = true.
Proof.
  destruct (usb_out_rearmed usb_demo1 ADB_USB_OUT_EP 0 demo_input 0 usb_demo1_system usb_demo1_held) as (r & s' & Hr & Hout).
  exists r, s'. split; [exact Hr|].
  assert (stack_grants (K := demo_stack)) as Hg by (intros n d; exists d, (Datatypes.S d); split; reflexivity).
  assert (ENABLED (usb usb_demo1) = true) as He by (vm_compute; reflexivity).
  assert (RESETTING (usb usb_demo1) = false) as Hn by (vm_compute; reflexivity).
  assert (active_out_buffer (usb usb_demo1) = Some 0) as Ha by (vm_compute; reflexivity).
  destruct (Hout Hg He Hn Ha eq_refl) as (H1 & H2 & _). split; [exact H1|exact H2].
Defined.

Lemma usb_serial_number_witness :
  exists u', prepare_serial_number (usb_initial 0) = (0%Z, u')
    /\ c_string (adb_serial u') = cs "webos-esp32s3-240ac40012ff".
Proof.
  destruct (usb_serial_number (K := demo_stack) (usb_initial (K := demo_stack) 0) demo_id 0) as (u' & Hu & _ & Hc & _);
    [reflexivity|simpl; unfold ADB_DEVICE_ID_BYTES; lia|vm_compute; reflexivity|].
  exists u'. split; [exact Hu|]. rewrite Hc. vm_compute. reflexivity.
Defined.

(** The smallest transfer buffer Kconfig accepts. *)
#[local] Instance small_config : AdbConfig.
Proof. refine (Build_AdbConfig 4096 512 64 4 128 2 true true true true true true _ _ _ _ _); lia. Defined.
#[local] Instance small_options : UsbConfig (cfg := small_config).
Proof. refine (Build_UsbConfig _ 6 _ _); simpl; lia. Defined.

Lemma small_transfer_never_online_witness :
  online (handle_connect (webos_adb_init (initial (E := usb_transport) tt (usb_initial 0))).2).2 = false.
Proof.
  apply (small_transfer_never_online (K := demo_stack)); [reflexivity|apply (bool_decide_unpack _); vm_compute; exact I].
Defined.
