(* ===== verification/AdbService.v ===== *)
(** * Reasoning about service callbacks

    A service callback is a [prog] (AdbProtocol.v): a finite interaction with
    the engine.  This file gives callbacks their monad and their logic.
    [outcome] relates a callback to its possible traces and results, for
    whatever values the engine returns; [wp p Q] says that every outcome of [p]
    satisfies [Q].  What is proved with [wp] holds in particular of the
    engine's own run of the callback ([wp_run]), and [exec] runs a callback
    against an engine that accepts every write. *)

From S2P Require Import Prelude CLib Ring AdbProtocol.
From Stdlib Require Import ZArith Lia.
From Stdlib Require Import Strings.Byte.
From stdpp Require Import base list list_numbers strings.

(** ** The monad *)

#[global] Instance prog_ret : MRet prog := fun A a => Ret a.

#[global] Instance prog_bind : MBind prog :=
  fun A B f => fix bind (p : prog A) : prog B :=
    match p with
    | Ret a => f a
    | StreamWrite i g d k => StreamWrite i g d (fun r => bind (k r))
    | StreamClose i g k => StreamClose i g (bind k)
    | StreamMaxPayload i k => StreamMaxPayload i (fun n => bind (k n))
    | StreamGeneration i k => StreamGeneration i (fun g => bind (k g))
    end.

(** ** Traces and outcomes *)

(** The calls of a callback that change the engine, with what they returned. *)
Inductive service_event :=
| EvWrite (i : nat) (gen : Z) (data : list byte) (ret : Z)
| EvClose (i : nat) (gen : Z).

#[global] Instance service_event_eq_dec : EqDecision service_event.
Proof. solve_decision. Defined.

Inductive outcome {A} : prog A -> list service_event -> A -> Prop :=
| out_ret a : outcome (Ret a) [] a
| out_write i g d k r tr a : outcome (k r) tr a -> outcome (StreamWrite i g d k) (EvWrite i g d r :: tr) a
| out_close i g k tr a : outcome k tr a -> outcome (StreamClose i g k) (EvClose i g :: tr) a
| out_max i k n tr a : outcome (k n) tr a -> outcome (StreamMaxPayload i k) tr a
| out_gen i k g tr a : outcome (k g) tr a -> outcome (StreamGeneration i k) tr a.

(** An engine that accepts every write of at most [n] bytes. *)
Fixpoint exec {A} (n : nat) (p : prog A) : list service_event * A :=
  match p with
  | Ret a => ([], a)
  | StreamWrite i g d k => let '(tr, a) := exec n (k 0%Z) in (EvWrite i g d 0 :: tr, a)
  | StreamClose i g k => let '(tr, a) := exec n k in (EvClose i g :: tr, a)
  | StreamMaxPayload _ k => exec n (k n)
  | StreamGeneration _ k => exec n (k 0%Z)
  end.

Fixpoint wp {A} (p : prog A) (Q : list service_event -> A -> Prop) : Prop :=
  match p with
  | Ret a => Q [] a
  | StreamWrite i g d k => forall r, wp (k r) (fun tr a => Q (EvWrite i g d r :: tr) a)
  | StreamClose i g k => wp k (fun tr a => Q (EvClose i g :: tr) a)
  | StreamMaxPayload _ k => forall n, wp (k n) Q
  | StreamGeneration _ k => forall g, wp (k g) Q
  end.

Section logic.
Context {A B : Type}.
Implicit Types (p : prog A) (f : A -> prog B).

Lemma wp_mono p (Q R : list service_event -> A -> Prop) :
  wp p Q -> (forall tr a, Q tr a -> R tr a) -> wp p R.
Proof.
  revert Q R. induction p as [a|i g d k IH|i g k IH|i k IH|i k IH]; simpl; intros Q R Hp HQR; eauto.
Qed.

Lemma wp_bind p f (Q : list service_event -> B -> Prop) :
  wp p (fun tr a => wp (f a) (fun tr' b => Q (tr ++ tr') b)) -> wp (p ≫= f) Q.
Proof.
  revert Q. induction p as [a|i g d k IH|i g k IH|i k IH|i k IH]; simpl; intros Q H; eauto.
Qed.

(** The rule the proofs use: a known triple for the first callback. *)
Lemma wp_seq p f (P : list service_event -> A -> Prop) (Q : list service_event -> B -> Prop) :
  wp p P -> (forall tr a, P tr a -> wp (f a) (fun tr' b => Q (tr ++ tr') b)) -> wp (p ≫= f) Q.
Proof. intros Hp HQ. apply wp_bind. by eapply wp_mono. Qed.

Lemma wp_outcome p Q : wp p Q <-> forall tr a, outcome p tr a -> Q tr a.
Proof.
  split.
  - intros H tr a Ho. revert Q H.
    induction Ho as [a|i g d k r tr a _ IH|i g k tr a _ IH|i k n tr a _ IH|i k g tr a _ IH];
      simpl; intros Q H; first [apply H | apply (IH _ (H _)) | apply (IH _ H)].
  - revert Q. induction p as [a|i g d k IH|i g k IH|i k IH|i k IH]; simpl; intros Q H; intros;
      eauto using outcome.
Qed.

Lemma wp_and p (Q R : list service_event -> A -> Prop) :
  wp p Q -> wp p R -> wp p (fun tr a => Q tr a /\ R tr a).
Proof. rewrite !wp_outcome. eauto. Qed.

Lemma outcome_exec n p : outcome p (exec n p).1 (exec n p).2.
Proof.
  induction p as [a|i g d k IH|i g k IH|i k IH|i k IH]; simpl.
  - constructor.
  - specialize (IH 0%Z). destruct (exec n (k 0%Z)). by constructor.
  - destruct (exec n k). by constructor.
  - econstructor. apply IH.
  - econstructor. apply IH.
Qed.

Lemma exec_bind n p f : exec n (p ≫= f) = ((exec n p).1 ++ (exec n (f (exec n p).2)).1, (exec n (f (exec n p).2)).2).
Proof.
  induction p as [a|i g d k IH|i g k IH|i k IH|i k IH].
  - apply surjective_pairing.
  - change (exec n (StreamWrite i g d k ≫= f)) with
      (let '(tr, a) := exec n (k 0%Z ≫= f) in (EvWrite i g d 0 :: tr, a)).
    rewrite IH. simpl. by destruct (exec n (k 0%Z)).
  - change (exec n (StreamClose i g k ≫= f)) with (let '(tr, a) := exec n (k ≫= f) in (EvClose i g :: tr, a)).
    rewrite IH. simpl. by destruct (exec n k).
  - apply IH.
  - apply IH.
Qed.

(** The engine's run of a callback is one of its outcomes. *)
Lemma outcome_run {cfg : AdbConfig} {E : AdbEnv} {S : AdbServices} p (s : Adb.adb) :
  exists tr, outcome p tr (Adb.run p s).1.
Proof.
  revert s. induction p as [a|i g d k IH|i g k IH|i k IH|i k IH]; simpl; intros s.
  - exists []. constructor.
  - destruct (Adb.stream_write_locked i g d s) as [r s1]. destruct (IH r s1) as [tr ?].
    eexists. by constructor.
  - destruct (IH (Adb.stream_close_locked i g s)) as [tr ?]. eexists. by constructor.
  - destruct (IH (Adb.webos_adb_stream_max_payload s) s) as [tr ?]. eexists. by econstructor.
  - destruct (IH (Adb.webos_adb_stream_generation s i) s) as [tr ?]. eexists. by econstructor.
Qed.

Lemma wp_run {cfg : AdbConfig} {E : AdbEnv} {S : AdbServices} p (s : Adb.adb) Q :
  wp p Q -> exists tr, Q tr (Adb.run p s).1.
Proof.
  intros H. destruct (outcome_run p s) as [tr Ho]. exists tr. by apply (proj1 (wp_outcome p Q)).
Qed.
End logic.
