(* ===== verification/ShellExec.v ===== *)
(** * Running shell commands

    Model of src/lib/shell_exec/shell_exec.c: commands are run on Zephyr's
    dummy shell backend under a lock and the output is copied into a bounded
    buffer.  [ShellExec] is the interface the ADB shell service uses, with its
    contract [ShellExecLaws]; this file discharges it for every backend. *)

From S2P Require Import Prelude CLib.
From Stdlib Require Import ZArith Lia.
From Stdlib Require Import Strings.Byte.
From stdpp Require Import base numbers list list_numbers strings.

(** What a call leaves: its result, and, when it got as far as copying, the
    bytes stored in front of the terminating NUL and whether some were left
    out.  Otherwise the caller's buffer and variables are untouched. *)
Record shell_result := Result { result : Z; captured : option (list byte * bool) }.

(** ** The interface *)

Class ShellExec := {
  sx : Type;
  webos_shell_execute : cstr -> nat -> sx -> shell_result * sx;    (* command, capacity *)
  webos_shell_clear_output : sx -> sx;
  sx_malloc : sx -> bool * sx;
}.

(** The output and its NUL fit into the buffer. *)
Class ShellExecLaws (S : ShellExec) := {
  execute_in_bounds command capacity s out truncated :
    captured (webos_shell_execute command capacity s).1 = Some (out, truncated) -> length out + 1 <= capacity;
}.

(** ** The implementation *)

(** Zephyr's dummy shell backend, the lock (whose acquisition may time out),
    the heap. *)
Class ShellBackend := {
  backend : Type;
  shell_try_lock : backend -> Z * backend;
  shell_backend_dummy_get_output : backend -> list byte * backend;
  shell_backend_dummy_clear_output : backend -> backend;
  shell_execute_cmd : backend -> cstr -> Z * backend;
  shell_backend_dummy_push_input : backend -> list byte -> Z * backend;
  backend_malloc : backend -> bool * backend;
}.

Module ShellExecutor.
Section implementation.
Context {B : ShellBackend}.

(** The bytes copied, and whether some were left out; [capacity] is not 0. *)
Definition copy_output (capacity : nat) (s : backend) : list byte * bool * backend :=
  let '(dummy_output, s) := shell_backend_dummy_get_output s in
  let copy_len := length dummy_output `min` (capacity - 1) in
  (take copy_len dummy_output, bool_decide (copy_len <> length dummy_output), s).

Definition execute (command : cstr) (capacity : nat) (s : backend) : shell_result * backend :=
  if decide (capacity = 0) then (Result (- EINVAL) None, s)
  else
    let '(ret, s) := shell_try_lock s in
    if decide (ret <> 0%Z) then (Result ret None, s)
    else
      let s := shell_backend_dummy_clear_output s in
      let '(ret, s) := shell_execute_cmd s command in
      let '(out, truncated, s) := copy_output capacity s in
      (Result ret (Some (out, truncated)), s).

(** The pause between the input and the copy is not modelled: the backend's
    state after [shell_backend_dummy_push_input] is the one it has then. *)
Definition webos_shell_push_input (input : list byte) (capacity : nat) (s : backend) : shell_result * backend :=
  if decide (capacity = 0) then (Result (- EINVAL) None, s)
  else
    let '(ret, s) := shell_try_lock s in
    if decide (ret <> 0%Z) then (Result ret None, s)
    else
      let '(ret, s) := shell_backend_dummy_push_input s input in
      let '(out, truncated, s) := copy_output capacity s in
      (Result ret (Some (out, truncated)), s).

Definition clear_output (s : backend) : backend :=
  let '(ret, s) := shell_try_lock s in
  if decide (ret <> 0%Z) then s else shell_backend_dummy_clear_output s.

#[global] Instance shell_exec : ShellExec := {|
  sx := backend;
  webos_shell_execute := execute;
  webos_shell_clear_output := clear_output;
  sx_malloc := backend_malloc;
|}.

Lemma copy_output_bounds capacity s :
  capacity <> 0 -> length (copy_output capacity s).1.1 + 1 <= capacity.
Proof.
  intros Hc. unfold copy_output. destruct (shell_backend_dummy_get_output s) as [out s']. simpl.
  rewrite length_take. lia.
Qed.

#[global] Instance shell_exec_laws : ShellExecLaws shell_exec.
Proof.
  constructor. intros command capacity s out truncated. simpl. unfold execute.
  case_decide as Hc; [done|]. destruct (shell_try_lock s) as [ret s1]. case_decide; [done|].
  destruct (shell_execute_cmd _ command) as [ret2 s2].
  pose proof (copy_output_bounds capacity s2 Hc) as Hb.
  destruct (copy_output capacity s2) as [[o t] s3]. simpl in *. by intros [= <- <-].
Qed.
End implementation.
End ShellExecutor.
