(* ===== verification/AdbShell.v ===== *)
(** * The shell service

    Model of src/lib/adb/adb_shell.c.  [shell:<command>] runs one command of an
    allowlist and streams its output; [shell:] opens an interactive session: the
    bytes the client types are buffered, edited into lines, echoed and run, and
    the output is sent one chunk per acknowledgement.

    Commands run on the interface [ShellExec].  The functions of the file work
    on one context and that interface: the record [work]; those that call the
    engine are callbacks ([prog]). *)

From S2P Require Import Prelude CLib Ring AdbProtocol AdbService ShellExec.
From Stdlib Require Import ZArith Lia.
From Stdlib Require Import Strings.Byte.
From stdpp Require Import base numbers list list_numbers strings.

(** The Kconfig options of the service, with their ranges. *)
Class ShellConfig := {
  SHELL_COMMAND_SIZE : nat;
  SHELL_OUTPUT_SIZE : nat;
  SHELL_INPUT_SIZE : nat;
  SHELL_MAX_STREAMS : nat;
  SHELL_PROMPT_DUMMY : cstr;
  range_shell_command : 32 <= SHELL_COMMAND_SIZE <= 1024;
  range_shell_output : 128 <= SHELL_OUTPUT_SIZE <= 4096;
  range_shell_input : (Z.of_nat SHELL_COMMAND_SIZE <= Z.of_nat SHELL_INPUT_SIZE <= 16384)%Z;
  range_shell_streams : 1 <= SHELL_MAX_STREAMS <= 4;
}.

Module Shell.

(** ** The allowlist *)

Definition safe_path_char (c : byte) : bool :=
  let v := bval c in
  bool_decide (97 <= v <= 122 \/ 65 <= v <= 90 \/ 48 <= v <= 57)%Z
  || bool_decide (c = "/"%byte \/ c = ":"%byte \/ c = "."%byte \/ c = "_"%byte \/ c = "-"%byte).

Definition storage : cstr := cs "/STORAGE:".
Definition storage_len : nat := length storage.

(** Where the first segment of a path starts, if its root is accepted; [None]
    in the second place is the early [return true]. *)
Inductive path_root := Refused | Accepted | Segments (first : nat).

Definition root_of (path : list byte) (storage_only : bool) : path_root :=
  let len := length path in
  if storage_only then
    if decide (len <= storage_len \/ starts_with storage path = false \/ char_at path storage_len <> slash)
    then Refused else Segments (storage_len + 1)
  else if decide (len = storage_len /\ starts_with storage path = true) then Accepted
  else if decide (storage_len < len /\ starts_with storage path = true /\ char_at path storage_len = slash)
  then Segments (storage_len + 1)
  else if decide (4 <= len /\ starts_with (cs "/dev") path = true /\ (len = 4 \/ char_at path 4 = slash))
  then Segments (if decide (len = 4) then len else 5)
  else Refused.

Definition segment_refused (s : list byte) : bool := bool_decide (s = [] \/ s = cs "." \/ s = cs "..").

(** [path] is the bytes from the pointer, [len] many.  The loop over the
    segments is the one [components] lists (CLib.v). *)
Definition safe_path (path : list byte) (storage_only : bool) : bool :=
  match root_of path storage_only with
  | Refused => false
  | Accepted => true
  | Segments first =>
      forallb safe_path_char path
      && forallb (fun c => negb (segment_refused c.1)) (components (drop first path))
      && bool_decide (char_at path (length path - 1) <> slash)
  end.

(** [while ( *p == ' ') ++p;] *)
Fixpoint skip_blanks (s : cstr) : cstr :=
  match s with
  | [] => []
  | c :: s' => if decide (c = " "%byte) then skip_blanks s' else s
  end.

(** The count and the offset; [text] starts with no blank. *)
Definition numbers_allowed (text : cstr) : bool :=
  match text with
  | [] => false
  | _ =>
      let '(count, rest) := strtoul10 text in
      if decide (length rest = length text \/ count = 0%Z \/ (256 < count)%Z) then false
      else
        match skip_blanks rest with
        | [] => true
        | rest =>
            let '(offset, rest) := strtoul10 rest in
            if decide (UINT32_MAX < offset)%Z then false
            else bool_decide (skip_blanks rest = [])
        end
  end.

Definition read_command_allowed (arguments : cstr) : bool :=
  match strchr arguments " "%byte with
  | None => false
  | Some separator =>
      if negb (safe_path (take separator arguments) true) then false
      else numbers_allowed (skip_blanks (drop separator arguments))
  end.

Definition command_allowed (command : cstr) : bool :=
  if decide (command = cs "kernel uptime" \/ command = cs "fs ls") then true
  else if decide (strncmp command (cs "fs read ") 8 = Eq) then read_command_allowed (drop 8 command)
  else if decide (strncmp command (cs "fs ls ") 6 <> Eq) then false
  else safe_path (drop 6 command) false.

(** ** State *)

Section service.
Context {sc : ShellConfig} {X : ShellExec}.

(** [command], [input] and [output] are arrays; [input] is allocated for
    interactive sessions. *)
Record adb_shell_context := Context {
  stream : option nat;
  output_len : nat;
  output_offset : nat;
  command_rc : Z;
  truncated : bool;
  interactive : bool;
  tx_in_flight : bool;
  saw_carriage_return : bool;
  close_requested : bool;
  discard_line : bool;
  escape_state : Z;
  command_len : nat;
  input_len : nat;
  input_capacity : nat;
  command : list byte;
  input : option (list byte);
  output : list byte;
}.

Definition zero_context : adb_shell_context :=
  Context None 0 0 0 false false false false false false 0 0 0 0
    (replicate SHELL_COMMAND_SIZE x00) None (replicate SHELL_OUTPUT_SIZE x00).

Record work := Work { ctx : adb_shell_context; exec : sx }.

Definition on_ctx (f : adb_shell_context -> adb_shell_context) (w : work) : work := Work (f (ctx w)) (exec w).

(** Stores to the context. *)
Definition with_output (a : list byte) (n off : nat) (c : adb_shell_context) : adb_shell_context :=
  Context (stream c) n off (command_rc c) (truncated c) (interactive c) (tx_in_flight c) (saw_carriage_return c)
    (close_requested c) (discard_line c) (escape_state c) (command_len c) (input_len c) (input_capacity c)
    (command c) (input c) a.
Definition with_result (rc : Z) (t : bool) (c : adb_shell_context) : adb_shell_context :=
  Context (stream c) (output_len c) (output_offset c) rc t (interactive c) (tx_in_flight c) (saw_carriage_return c)
    (close_requested c) (discard_line c) (escape_state c) (command_len c) (input_len c) (input_capacity c)
    (command c) (input c) (output c).
Definition with_tx (b : bool) (c : adb_shell_context) : adb_shell_context :=
  Context (stream c) (output_len c) (output_offset c) (command_rc c) (truncated c) (interactive c) b
    (saw_carriage_return c) (close_requested c) (discard_line c) (escape_state c) (command_len c) (input_len c)
    (input_capacity c) (command c) (input c) (output c).
Definition with_line (cr discard : bool) (esc : Z) (c : adb_shell_context) : adb_shell_context :=
  Context (stream c) (output_len c) (output_offset c) (command_rc c) (truncated c) (interactive c) (tx_in_flight c)
    cr (close_requested c) discard esc (command_len c) (input_len c) (input_capacity c) (command c) (input c)
    (output c).
Definition with_close (b : bool) (c : adb_shell_context) : adb_shell_context :=
  Context (stream c) (output_len c) (output_offset c) (command_rc c) (truncated c) (interactive c) (tx_in_flight c)
    (saw_carriage_return c) b (discard_line c) (escape_state c) (command_len c) (input_len c) (input_capacity c)
    (command c) (input c) (output c).
Definition with_command (a : list byte) (n : nat) (c : adb_shell_context) : adb_shell_context :=
  Context (stream c) (output_len c) (output_offset c) (command_rc c) (truncated c) (interactive c) (tx_in_flight c)
    (saw_carriage_return c) (close_requested c) (discard_line c) (escape_state c) n (input_len c) (input_capacity c)
    a (input c) (output c).
Definition with_input (a : option (list byte)) (n : nat) (c : adb_shell_context) : adb_shell_context :=
  Context (stream c) (output_len c) (output_offset c) (command_rc c) (truncated c) (interactive c) (tx_in_flight c)
    (saw_carriage_return c) (close_requested c) (discard_line c) (escape_state c) (command_len c) n
    (input_capacity c) (command c) a (output c).
Definition with_session (st : option nat) (capacity : nat) (i : bool) (c : adb_shell_context) : adb_shell_context :=
  Context st (output_len c) (output_offset c) (command_rc c) (truncated c) i (tx_in_flight c)
    (saw_carriage_return c) (close_requested c) (discard_line c) (escape_state c) (command_len c) (input_len c)
    capacity (command c) (input c) (output c).

(** [webos_adb_stream_write] and [webos_adb_stream_close] on [context->stream]. *)
Definition stream_write (data : list byte) (w : work) : prog (Z * work) :=
  StreamWrite (default 0 (stream (ctx w))) 0 data (fun ret => Ret (ret, w)).
Definition stream_close (w : work) : prog work :=
  StreamClose (default 0 (stream (ctx w))) 0 (Ret w).
Definition stream_max_payload (w : work) : prog nat :=
  StreamMaxPayload (default 0 (stream (ctx w))) (fun n => Ret n).

(** ** Output *)

Definition set_output (a : list byte) (n off : nat) : work -> work := on_ctx (with_output a n off).
Definition set_tx (b : bool) : work -> work := on_ctx (with_tx b).

Definition queue_next_chunk (w : work) : prog (Z * work) :=
  let c := ctx w in
  if tx_in_flight c then Ret (0%Z, w)
  else if interactive c then
    if decide (output_len c = 0) then Ret (0%Z, w)
    else
      n ← stream_max_payload w;
      let chunk_len := output_len c `min` n in
      '(ret, w) ← stream_write (take chunk_len (output c)) w;
      if decide (ret = 0%Z) then
        let left := output_len c - chunk_len in
        Ret (ret, set_tx true (set_output (write_at (output c) 0 (take left (drop chunk_len (output c)))) left (output_offset c) w))
      else Ret (ret, w)
  else
    n ← stream_max_payload w;
    let chunk_len := (output_len c - output_offset c) `min` n in
    if decide (chunk_len = 0) then w ← stream_close w; Ret (0%Z, w)
    else
      '(ret, w) ← stream_write (take chunk_len (drop (output_offset c) (output c))) w;
      if decide (ret = 0%Z) then
        Ret (ret, set_tx true (set_output (output c) (output_len c) (output_offset c + chunk_len) w))
      else Ret (ret, w).

Definition append_output (data : list byte) (w : work) : work :=
  let c := ctx w in
  let available := length (output c) - output_len c in
  let count := length data `min` available in
  let w := if decide (count <> 0) then
             set_output (write_at (output c) (output_len c) (take count data)) (output_len c + count) (output_offset c) w
           else w in
  on_ctx (fun c => with_result (command_rc c) (truncated c || bool_decide (count <> length data)) c) w.

(** [webos_shell_execute] into the output array from [off] on, where [capacity]
    bytes are left; [*truncated] and the length are what the caller passed when
    the call gave up early. *)
Definition run_command (text : cstr) (off capacity : nat) (w : work) : work :=
  let '(r, x) := webos_shell_execute text capacity (exec w) in
  let c := ctx w in
  let c :=
    match captured r with
    | Some (out, t) =>
        with_result (result r) (truncated c || t)
          (with_output (write_at (output c) off (out ++ [NUL])) (off + length out) (output_offset c) c)
    | None => with_result (result r) (truncated c) c
    end in
  Work c x.

(** ** Interactive sessions *)

Definition prompt : cstr := SHELL_PROMPT_DUMMY.
Definition crlf : list byte := [x0d; x0a].

(** [context->command[context->command_len] = 0] *)
Definition terminate_line : work -> work :=
  on_ctx (fun c => with_command (write_at (command c) (command_len c) [NUL]) (command_len c) c).

Definition execute_interactive_line (add_prompt : bool) (w : work) : prog (Z * work) :=
  let w := terminate_line (append_output crlf w) in
  let text := c_string (command (ctx w)) in
  if decide (text = cs "exit") then
    let w := on_ctx (fun c => with_close true (with_command (command c) 0 c)) w in
    w ← stream_close w; Ret (0%Z, w)
  else
    let w :=
      if decide (command_len (ctx w) <> 0) then
        let prompt_len := if add_prompt : bool then length prompt else 0 in
        let available := length (output (ctx w)) - output_len (ctx w) in
        if decide (available <= prompt_len + 1) then on_ctx (fun c => with_result (command_rc c) true c) w
        else run_command text (output_len (ctx w)) (available - prompt_len) w
      else w in
    let w := on_ctx (fun c => with_command (command c) 0 c) w in
    Ret (0%Z, if add_prompt then append_output prompt w else w).

(** How an iteration of the loop ends. *)
Inductive flow := Continue | Break (ret : Z).

Definition is_eol (c : byte) : bool := bool_decide (c = x0d \/ c = x0a).

(** The part of an iteration after the escape sequences. *)
Definition edit_char (value : byte) (w : work) : prog (flow * work) :=
  let c := ctx w in
  if decide (value = x0a /\ saw_carriage_return c = true) then
    Ret (Continue, on_ctx (fun c => with_line false (discard_line c) (escape_state c) c) w)
  else
    let w := on_ctx (fun c => with_line (bool_decide (value = x0d)) (discard_line c) (escape_state c) c) w in
    if discard_line c then
      if is_eol value then
        let w := on_ctx (fun c => with_line (saw_carriage_return c) false (escape_state c) c) w in
        Ret (Break 0, append_output (crlf ++ prompt) w)
      else Ret (Continue, w)
    else if is_eol value then
      '(ret, w) ← execute_interactive_line true w;
      if decide (ret <> 0%Z \/ close_requested (ctx w) = true \/ output_len (ctx w) <> 0)
      then Ret (Break ret, w) else Ret (Continue, w)
    else if decide (value = x04) then
      '(ret, w) ← (if decide (command_len c <> 0) then execute_interactive_line false w else Ret (0%Z, w));
      w ← stream_close (on_ctx (with_close true) w);
      Ret (Break ret, w)
    else if decide (value = x03) then
      let w := on_ctx (fun c => with_command (command c) 0 c) w in
      Ret (Break 0, append_output (cs "^C" ++ crlf ++ prompt) w)
    else if decide (value = x08 \/ value = x7f) then
      Ret (Continue,
           if decide (command_len c <> 0) then
             append_output [x08; " "%byte; x08] (on_ctx (fun c => with_command (command c) (command_len c - 1) c) w)
           else w)
    else if decide (value = x09) then Ret (Continue, append_output [x07] w)
    else if decide (bval value < 32 \/ 126 < bval value)%Z then Ret (Continue, w)
    else if decide (length (command c) <= command_len c + 1) then
      let w := on_ctx (fun c => with_line (saw_carriage_return c) true (escape_state c) (with_command (command c) 0 c)) w in
      Ret (Break 0, append_output (crlf ++ cs "Command too long") w)
    else
      let w := on_ctx (fun c => with_command (write_at (command c) (command_len c) [value]) (command_len c + 1) c) w in
      Ret (Continue, append_output [value] w).

Definition set_escape (e : Z) : work -> work :=
  on_ctx (fun c => with_line (saw_carriage_return c) (discard_line c) e c).

(** One iteration of the loop of [process_interactive_input]. *)
Definition process_char (value : byte) (w : work) : prog (flow * work) :=
  let plain w := if decide (value = x1b) then Ret (Continue, set_escape 1 w) else edit_char value w in
  if decide (escape_state (ctx w) = 1%Z) then
    if decide (value = "["%byte \/ value = "O"%byte) then Ret (Continue, set_escape 2 w)
    else plain (set_escape 0 w)
  else if decide (escape_state (ctx w) = 2%Z) then
    Ret (Continue, if decide (64 <= bval value <= 126)%Z then set_escape 0 w else w)
  else plain w.

(** The loop: the bytes consumed and [ret]. *)
Fixpoint process_loop (data : list byte) (w : work) : prog (nat * Z * work) :=
  match data with
  | [] => Ret (0, 0%Z, w)
  | value :: data =>
      '(f, w) ← process_char value w;
      match f with
      | Break ret => Ret (1, ret, w)
      | Continue => '(n, ret, w) ← process_loop data w; Ret (Datatypes.S n, ret, w)
      end
  end.

(** The input array; reading it through a NULL pointer is not modelled, since
    only interactive sessions have input. *)
Definition input_array (c : adb_shell_context) : list byte := default [] (input c).

Definition process_interactive_input (w : work) : prog (Z * work) :=
  '(consumed, ret, w) ← process_loop (take (input_len (ctx w)) (input_array (ctx w))) w;
  let left := input_len (ctx w) - consumed in
  let w := on_ctx (fun c => with_input
             (if decide (left <> 0 /\ consumed <> 0) then (fun a => write_at a 0 (take left (drop consumed a))) <$> input c
              else input c) left c) w in
  Ret (ret, if close_requested (ctx w) then on_ctx (fun c => with_input (input c) 0 c) w else w).

(** ** The callbacks *)

Record shell := Service { contexts : list adb_shell_context; executor : sx }.

Definition shell_init (x : sx) : shell := Service (replicate SHELL_MAX_STREAMS zero_context) x.

Fixpoint context_index (st : option nat) (l : list adb_shell_context) : option nat :=
  match l with
  | [] => None
  | c :: l' => if decide (stream c = st) then Some 0 else Datatypes.S <$> context_index st l'
  end.

Definition find_context (i : nat) (s : shell) : option nat := context_index (Some i) (contexts s).

Definition allocate_context (i : nat) (s : shell) : option (nat * shell) :=
  n ← context_index None (contexts s);
  Some (n, Service (<[n := with_session (Some i) 0 false zero_context]> (contexts s)) (executor s)).

(** Runs a function on context [n]. *)
Definition load (n : nat) (s : shell) : work := Work (default zero_context (contexts s !! n)) (executor s).
Definition store (n : nat) (s : shell) (w : work) : shell := Service (<[n := ctx w]> (contexts s)) (exec w).

(** [memset(context, 0, sizeof( *context))] *)
Definition clear_context (w : work) : work := Work zero_context (exec w).

(** The start of an interactive session; [None] when the allocation failed. *)
Definition start_interactive (w : work) : option work :=
  let '(ok, x) := sx_malloc (exec w) in
  if ok : bool then
    let w := Work (with_input (Some (replicate SHELL_INPUT_SIZE x00)) 0 (ctx w)) x in
    let w := on_ctx (fun c => with_session (stream c) SHELL_INPUT_SIZE true c) w in
    let w := Work (ctx w) (webos_shell_clear_output (exec w)) in
    let n := length prompt `min` length (output (ctx w)) in
    Some (set_output (write_at (output (ctx w)) 0 (take n prompt)) n (output_offset (ctx w)) w)
  else None.

(** What there is to send first; [None] when an allocation failed. *)
Definition first_output (suffix : list byte) (w : work) : option work :=
  if decide (suffix = []) then start_interactive w
  else Some (run_command suffix 0 (length (output (ctx w))) w).

Definition adb_shell_open (i : nat) (suffix : list byte) (s : shell) : prog (Z * shell) :=
  if decide (SHELL_COMMAND_SIZE <= length suffix \/ strchr suffix NUL <> None) then Ret ((- EINVAL)%Z, s)
  else if decide (suffix <> [] /\ command_allowed suffix = false) then Ret ((- EACCES)%Z, s)
  else
    match allocate_context i s with
    | None => Ret ((- EBUSY)%Z, s)
    | Some (n, s) =>
        let w := load n s in
        match first_output suffix w with
        | None => Ret ((- ENOMEM)%Z, store n s (clear_context (Work (ctx w) (sx_malloc (exec w)).2)))
        | Some w =>
            '(ret, w) ← queue_next_chunk w;
            Ret (ret, store n s (if decide (ret <> 0%Z) then clear_context w else w))
        end
    end.

(** The bytes received go behind the ones that wait. *)
Definition receive (data : list byte) : work -> work :=
  on_ctx (fun c => with_input ((fun a => write_at a (input_len c) data) <$> input c) (input_len c + length data) c).

(** The end of both callbacks below: process input if it is time to, then send
    what there is. *)
Definition resume (process : bool) (w : work) : prog (Z * work) :=
  '(ret, w) ← (if process then process_interactive_input w else Ret (0%Z, w));
  if decide (ret = 0%Z) then queue_next_chunk w else Ret (ret, w).

Definition adb_shell_write (i : nat) (data : list byte) (s : shell) : prog (Z * shell) :=
  match find_context i s with
  | None => Ret ((- EINVAL)%Z, s)
  | Some n =>
      let w := load n s in
      let c := ctx w in
      if negb (interactive c) then Ret (if decide (data = []) then 0%Z else (- ENOTSUP)%Z, s)
      else if decide (input_capacity c - input_len c < length data) then Ret ((- ENOSPC)%Z, s)
      else
        let w := receive data w in
        '(ret, w) ← resume (bool_decide (tx_in_flight c = false /\ output_len c = 0)) w;
        Ret (ret, store n s w)
  end.

Definition adb_shell_tx_ready (i : nat) (s : shell) : prog shell :=
  match find_context i s with
  | None => Ret s
  | Some n =>
      let w := set_tx false (load n s) in
      let c := ctx w in
      '(ret, w) ← resume (bool_decide (interactive c = true /\ output_len c = 0 /\ input_len c <> 0
                                        /\ close_requested c = false)) w;
      if decide (ret <> 0%Z) then StreamClose i 0 (Ret (store n s w)) else Ret (store n s w)
  end.

Definition adb_shell_close (i : nat) (s : shell) : shell :=
  match find_context i s with
  | None => s
  | Some n =>
      let w := load n s in
      let x := if interactive (ctx w) then webos_shell_clear_output (exec w) else exec w in
      store n s (Work zero_context x)
  end.
End service.
End Shell.
