(* ===== verification/AdbShellAllow.v ===== *)
(** * The commands of [shell:<command>]

    [command_allowed] decides a readable predicate: the two fixed commands, a
    listing of a path of the storage or of /dev, or a read of a file of the
    storage with a count and an offset.  No accepted path has an empty or a dot
    segment, and no other command reaches the executor. *)

From S2P Require Import Prelude CLib Ring AdbProtocol AdbService ShellExec AdbShell.
From Stdlib Require Import ZArith Lia.
From Stdlib Require Import Strings.Byte.
From stdpp Require Import base numbers list list_numbers strings sets.

Module ShellAllow.
Import Shell.

(** ** Numbers *)

Definition digit (c : byte) : Prop := (48 <= bval c <= 57)%Z.

Definition dec_value (acc : Z) (ds : list byte) : Z := foldl (fun a c => a * 10 + (bval c - 48))%Z acc ds.

Definition starts_with_digit (s : cstr) : Prop := match s with c :: _ => digit c | [] => False end.

Lemma digit_value_spec c : (exists d, digit_value c = Some d /\ (d < 10)%Z) <-> digit c.
Proof.
  unfold digit_value, digit. split.
  - intros (d & Hd & Hlt). repeat case_decide; simplify_eq; lia.
  - intros Hc. rewrite decide_True by done. eexists. split; [done|]. lia.
Qed.

Lemma parse_digits_digit acc c s :
  digit c -> parse_digits 10 acc (c :: s) = parse_digits 10 (acc * 10 + (bval c - 48)) s.
Proof.
  intros Hc. simpl. unfold digit_value. unfold digit in Hc. rewrite decide_True by done. by rewrite decide_True by lia.
Qed.

Lemma parse_digits_other acc s : ~ starts_with_digit s -> parse_digits 10 acc s = (acc, s).
Proof.
  intros Hs. apply parse_digits_stop. destruct s as [|c s]; [done|]. unfold not_digit. simpl in Hs.
  destruct (digit_value c) as [d|] eqn:E; [|done].
  destruct (decide (10 <= d)%Z); [done|]. exfalso. apply Hs, digit_value_spec. exists d. split; [done|lia].
Qed.

Lemma parse_digits_spec acc ds rest :
  Forall digit ds -> ~ starts_with_digit rest -> parse_digits 10 acc (ds ++ rest) = (dec_value acc ds, rest).
Proof.
  intros Hd Hr. revert acc. induction Hd as [|c ds Hc _ IH]; intros acc; [by apply parse_digits_other|].
  cbn [app]. by rewrite parse_digits_digit, IH.
Qed.

(** The digits at the start of a string. *)
Lemma digits_split s : exists ds rest, s = ds ++ rest /\ Forall digit ds /\ ~ starts_with_digit rest.
Proof.
  induction s as [|c s (ds & rest & -> & Hd & Hr)]; [exists [], []; split_and!; [done|constructor|by intros []]|].
  destruct (decide (48 <= bval c <= 57)%Z) as [Hc|Hc].
  - exists (c :: ds), rest. split_and!; [done| |done]. by constructor.
  - exists [], (c :: ds ++ rest). split_and!; [done|constructor|exact Hc].
Qed.

(** A number as [strtoul] reads it: white space, a sign, digits. *)
Definition number (s : cstr) (v : Z) (rest : cstr) : Prop :=
  exists ws sign ds,
    s = ws ++ sign ++ ds ++ rest /\ Forall (fun c => isspace c = true) ws
    /\ (sign = [] \/ sign = cs "-" \/ sign = cs "+")
    /\ ds <> [] /\ Forall digit ds /\ ~ starts_with_digit rest
    /\ v = (if decide (ULONG_MAX < dec_value 0 ds)%Z then ULONG_MAX
            else if decide (sign = cs "-") then u32 (- dec_value 0 ds) else dec_value 0 ds).

Lemma spaces_split s : exists ws rest, s = ws ++ rest /\ Forall (fun c => isspace c = true) ws /\ skip_spaces s = rest
  /\ (forall c r, rest = c :: r -> isspace c = false).
Proof.
  induction s as [|c s (ws & rest & E & Hw & Hs & Hr)]; [exists [], []; by split_and!; [|constructor| |]|]. simpl.
  destruct (isspace c) eqn:Hc.
  - exists (c :: ws), rest. split_and!; [by rewrite E| |done|done]. by constructor.
  - exists [], (c :: s). split_and!; [done|constructor|done|]. by intros ? ? [= <- <-].
Qed.

Lemma digit_plain_char c : digit c -> isspace c = false /\ c <> "-"%byte /\ c <> "+"%byte.
Proof.
  intros Hc. destruct (proj2 (digit_value_spec c) Hc) as (d & Hd & Hlt).
  destruct (digit_plain c d Hd Hlt) as (?&?&?&_). done.
Qed.

Lemma strtoul10_number s v rest : number s v rest -> strtoul10 s = (v, rest) /\ length rest < length s.
Proof.
  intros (ws & sign & ds & -> & Hw & Hsign & Hne & Hd & Hr & ->). destruct ds as [|c ds]; [done|].
  pose proof (Forall_inv Hd) as Hc. apply digit_plain_char in Hc as (Hsp & Hm & Hp).
  assert (length rest < length (ws ++ sign ++ (c :: ds) ++ rest)) as Hlen.
  { rewrite !length_app. simpl. lia. }
  split; [|done]. unfold strtoul10. rewrite skip_spaces_app by done.
  assert (exists neg, parse_sign (skip_spaces (sign ++ (c :: ds) ++ rest)) = (neg, (c :: ds) ++ rest)
    /\ neg = bool_decide (sign = cs "-")) as (neg & -> & Hneg).
  { destruct Hsign as [->|[->| ->]]; simpl app.
    - exists false. rewrite skip_spaces_head by done. simpl. rewrite !decide_False by done. done.
    - exists true. split; reflexivity.
    - exists false. split; reflexivity. }
  rewrite parse_digits_spec by done. rewrite decide_False by (rewrite length_app; simpl; lia).
  destruct (decide (ULONG_MAX < _)%Z); [done|]. subst neg.
  destruct (decide (sign = _)); [by rewrite bool_decide_true|by rewrite bool_decide_false].
Qed.

Lemma number_strtoul10 s v rest : strtoul10 s = (v, rest) -> length rest <> length s -> number s v rest.
Proof.
  intros H Hlen. destruct (spaces_split s) as (ws & t & E & Hw & Hsk & Hh). unfold strtoul10 in H. rewrite Hsk in H.
  assert (exists sign u, t = sign ++ u /\ (sign = [] \/ sign = cs "-" \/ sign = cs "+")
    /\ parse_sign t = (bool_decide (sign = cs "-"), u)) as (sign & u & -> & Hsign & Hp).
  { destruct t as [|c t]; [by exists [], []; auto|]. simpl.
    destruct (decide (c = "-"%byte)) as [->|]; [exists (cs "-"), t; auto|].
    destruct (decide (c = "+"%byte)) as [->|]; [exists (cs "+"), t; auto|]. exists [], (c :: t). auto. }
  rewrite Hp in H. destruct (digits_split u) as (ds & r & -> & Hd & Hr). rewrite parse_digits_spec in H by done.
  destruct (decide (length r = length (ds ++ r))) as [Hl|Hl]; [by injection H as _ <-|].
  assert (ds <> []) as Hne by (intros ->; done).
  exists ws, sign, ds. destruct (decide (ULONG_MAX < dec_value 0 ds)%Z); injection H as <- <-; split_and!; try done.
  by destruct Hsign as [->|[->| ->]].
Qed.

Lemma skip_blanks_spec s : exists b, s = b ++ skip_blanks s /\ Forall (fun c => c = " "%byte) b
  /\ head (skip_blanks s) <> Some " "%byte.
Proof.
  induction s as [|c s (b & E & Hb & Hh)]; [by exists []; split_and!; [|constructor|]|]. simpl. destruct (decide (c = " "%byte)) as [->|Hc].
  - exists (" "%byte :: b). split_and!; [by rewrite E at 1| |done]. by constructor.
  - exists []. split_and!; [done|constructor|]. simpl. congruence.
Qed.

(** Blanks are white space. *)
Lemma skip_spaces_blanks s : skip_spaces (skip_blanks s) = skip_spaces s.
Proof.
  induction s as [|c s IH]; [done|]. simpl. destruct (decide (c = " "%byte)) as [->|]; [exact IH|done].
Qed.

Lemma skip_blanks_nil s : skip_blanks s = [] <-> Forall (fun c => c = " "%byte) s.
Proof.
  induction s as [|c s IH]; simpl; [split; [constructor|done]|].
  rewrite Forall_cons. destruct (decide (c = " "%byte)); [naive_solver|]. split; [done|]. naive_solver.
Qed.

Lemma number_spaces s t v rest : skip_spaces t = skip_spaces s -> number t v rest -> number s v rest.
Proof.
  intros Ht Hn. destruct (spaces_split s) as (ws & r & E & Hw & Hs & Hh).
  destruct Hn as (ws' & sign & ds & E' & Hw' & Hsign & Hne & Hd & Hr & Hv).
  assert (skip_spaces t = sign ++ ds ++ rest) as Hsk.
  { rewrite E', skip_spaces_app by done. destruct ds as [|c ds]; [done|].
    pose proof (Forall_inv Hd) as Hc. apply digit_plain_char in Hc as (Hsp & _ & _).
    destruct Hsign as [->|[->| ->]]; simpl app; [by apply skip_spaces_head|reflexivity..]. }
  exists ws, sign, ds. split_and!; try done. rewrite E at 1. f_equal. congruence.
Qed.

Lemma number_blanks s v rest : number (skip_blanks s) v rest <-> number s v rest.
Proof. split; apply number_spaces; [|symmetry]; apply skip_spaces_blanks. Qed.

(** ** Paths *)

(** What follows the root of a path: segments that name one entry each, made of
    the accepted characters, with no slash at the end. *)
Definition segments (q : list byte) : Prop :=
  q <> [] /\ last q <> Some slash /\ Forall (fun c => safe_path_char c = true) q
  /\ Forall (fun s => s.1 <> [] /\ s.1 <> cs "." /\ s.1 <> cs "..") (components q).

Definition storage_path (p : list byte) : Prop := exists q, p = cs "/STORAGE:/" ++ q /\ segments q.

Definition browsable (p : list byte) : Prop :=
  p = cs "/STORAGE:" \/ storage_path p \/ p = cs "/dev" \/ exists q, p = cs "/dev/" ++ q /\ segments q.

Lemma segments_checks root q :
  last root = Some slash -> Forall (fun c => safe_path_char c = true) root ->
  forallb safe_path_char (root ++ q)
  && forallb (fun c => negb (segment_refused c.1)) (components (drop (length root) (root ++ q)))
  && bool_decide (char_at (root ++ q) (length (root ++ q) - 1) <> slash) = true <-> segments q.
Proof.
  intros Hl Hr. rewrite !andb_true_iff, drop_app_length, bool_decide_eq_true, !forallb_Forall, Forall_app.
  assert (forall p, p <> [] -> char_at p (length p - 1) <> slash <-> last p <> Some slash) as Hlast.
  { intros p Hp. unfold char_at. rewrite last_lookup. replace (length p - 1) with (pred (length p)) by lia.
    destruct (p !! pred (length p)) eqn:E; simpl; [naive_solver|].
    apply lookup_ge_None in E. destruct p; [done|]. simpl in E. lia. }
  rewrite Hlast by (destruct root; simpl; [done|by destruct q]).
  assert (Forall (fun c : list byte * bool => negb (segment_refused c.1) = true) (components q)
    <-> Forall (fun s : list byte * bool => s.1 <> [] /\ s.1 <> cs "." /\ s.1 <> cs "..") (components q)) as Hseg.
  { apply Forall_iff. intros [c b]. simpl. unfold segment_refused. rewrite negb_true_iff, bool_decide_eq_false. tauto. }
  rewrite Hseg. unfold segments. destruct q as [|c q].
  - rewrite app_nil_r. naive_solver.
  - rewrite last_app, last_cons. destruct (last q); naive_solver.
Qed.

Lemma char_at_app (p q : list byte) : char_at (p ++ q) (length p) = char_at q 0.
Proof. unfold char_at. by rewrite lookup_app_r, Nat.sub_diag by lia. Qed.

Lemma storage_prefix p :
  (exists q, p = cs "/STORAGE:/" ++ q)
  <-> ~ (length p <= storage_len \/ starts_with storage p = false \/ char_at p storage_len <> slash).
Proof.
  split.
  - intros [q ->]. intros [H|[H|H]]; [cbn in H; lia|done|done].
  - intros H. destruct (starts_with storage p) eqn:E; [|exfalso; auto].
    apply starts_with_spec in E as [k ->].
    assert (char_at k 0 = slash) as Hk.
    { rewrite <- (char_at_app storage k). apply dec_stable. intros Hn. apply H. auto. }
    destruct k as [|c k]; [done|]. unfold char_at in Hk. simpl in Hk. subst c. by exists k.
Qed.

Lemma safe_path_storage p : safe_path p true = true <-> storage_path p.
Proof.
  unfold safe_path, root_of. destruct (decide _) as [Hd|Hd].
  - split; [done|]. intros (q & Hq & _). exfalso. by apply (proj1 (storage_prefix p)); [exists q|].
  - apply storage_prefix in Hd as [q ->]. rewrite (segments_checks (cs "/STORAGE:/") q) by (repeat constructor).
    unfold storage_path. split; [by exists q|]. by intros (q' & ->%app_inv_head & ?).
Qed.

Lemma safe_path_browsable p : safe_path p false = true <-> browsable p.
Proof.
  unfold safe_path, root_of. cbv iota.
  destruct (decide (length p = storage_len /\ _)) as [[Hl Hs]|H1].
  { apply starts_with_spec in Hs as [k ->]. rewrite length_app in Hl. destruct k; [|cbn in Hl; lia].
    rewrite app_nil_r. split; [by left|done]. }
  assert (p <> cs "/STORAGE:") as Hp1 by (intros ->; by apply H1).
  destruct (decide (storage_len < length p /\ _)) as [H2|H2].
  { assert (exists q, p = cs "/STORAGE:/" ++ q) as [q ->].
    { apply storage_prefix. destruct H2 as (?&?&?). intros [?|[?|?]]; [lia|congruence|done]. }
    rewrite (segments_checks (cs "/STORAGE:/") q) by (repeat constructor). unfold browsable, storage_path.
    split; [by eauto|]. intros [?|[(q' & ->%app_inv_head & ?)|[?|(q' & ? & _)]]]; done. }
  assert (~ storage_path p) as Hp2.
  { intros (q & -> & _). apply H2. split; [cbn; lia|done]. }
  destruct (decide (4 <= length p /\ _)) as [(Hl & Hs & Hc)|H3].
  - apply starts_with_spec in Hs as [k ->]. destruct (decide (length (cs "/dev" ++ k) = 4)) as [E|E].
    + destruct k; [|cbn in E; lia]. rewrite app_nil_r. split; [by right; right; left|done].
    + destruct Hc as [?|Hc]; [done|]. change 4 with (length (cs "/dev")) in Hc. rewrite char_at_app in Hc.
      destruct k as [|c k]; [done|]. unfold char_at in Hc. simpl in Hc. subst c.
      change (cs "/dev" ++ slash :: k) with (cs "/dev/" ++ k).
      rewrite (segments_checks (cs "/dev/") k) by (repeat constructor).
      split; [by right; right; right; eauto|]. intros [?|[?|[?|(q' & ->%app_inv_head & ?)]]]; done.
  - split; [done|]. intros [?|[?|[->|(q & -> & _)]]]; [done..| |]; exfalso; apply H3.
    + split; [done|]. auto.
    + split; [cbn; lia|]. auto.
Qed.

(** ** Commands *)

Definition blank (s : cstr) : Prop := Forall (fun c => c = " "%byte) s.

(** A count from 1 to 256 and, optionally, an offset. *)
Definition read_numbers (t : cstr) : Prop :=
  exists count r, number t count r /\ (1 <= count <= 256)%Z /\ (blank r \/ exists offset r', number r offset r' /\ blank r').

Lemma strtoul10_max s : ((strtoul10 s).1 <= UINT32_MAX)%Z.
Proof.
  unfold strtoul10. destruct (parse_sign _) as [neg t], (parse_digits 10 0 t) as [v r].
  unfold ULONG_MAX, UINT32_MAX. destruct (decide _); simpl; [lia|]. destruct (decide _); simpl; [lia|].
  destruct neg; [|lia]. pose proof (u32_range (- v)). lia.
Qed.

(** A text after which no number was found is where it was. *)
Lemma strtoul10_none s : length (strtoul10 s).2 = length s -> (strtoul10 s).2 = s.
Proof.
  intros Hl. unfold strtoul10 in *. destruct (spaces_split s) as (ws & t & E & _ & Hs & _). rewrite Hs in *.
  destruct (parse_sign t) as [neg u] eqn:Ep. assert (length u <= length t) as Hu.
  { destruct t as [|c t]; simpl in Ep; [by injection Ep as <- <-|]. repeat case_decide; injection Ep as <- <-; simpl; lia. }
  destruct (digits_split u) as (ds & r & -> & Hd & Hr). rewrite parse_digits_spec in * by done.
  destruct (decide (length r = length (ds ++ r))) as [|Hne]; [done|]. exfalso.
  apply (f_equal length) in E. rewrite !length_app in *. destruct (decide _); simpl in Hl; lia.
Qed.

Lemma not_number_nil v r : ~ number [] v r.
Proof.
  intros (ws & sign & ds & E & _ & _ & Hne & _). symmetry in E.
  apply app_eq_nil in E as [_ E]. apply app_eq_nil in E as [_ E]. by apply app_eq_nil in E as [-> _].
Qed.

Lemma second_number r :
  skip_blanks r <> [] ->
  (let '(offset, rest) := strtoul10 (skip_blanks r) in
   if decide (UINT32_MAX < offset)%Z then false else bool_decide (skip_blanks rest = [])) = true
  <-> exists offset r', number r offset r' /\ blank r'.
Proof.
  intros Hne. pose proof (strtoul10_max (skip_blanks r)) as Hmax. pose proof (strtoul10_none (skip_blanks r)) as Hnone.
  destruct (strtoul10 (skip_blanks r)) as [o r'] eqn:E. simpl in *.
  rewrite decide_False, bool_decide_eq_true, skip_blanks_nil by lia. split.
  - intros Hb. exists o, r'. split; [|done]. apply number_blanks, number_strtoul10; [done|].
    intros Hl. rewrite (Hnone Hl) in Hb. destruct (skip_blanks_spec r) as (_ & _ & _ & Hh).
    destruct (skip_blanks r); [done|]. apply Forall_inv in Hb. simpl in *. congruence.
  - intros (o' & r'' & Hn & Hb). apply number_blanks, strtoul10_number in Hn as [Hn _]. rewrite E in Hn.
    by injection Hn as -> ->.
Qed.

Lemma numbers_allowed_iff t : numbers_allowed (skip_blanks t) = true <-> read_numbers t.
Proof.
  unfold read_numbers. destruct (decide (skip_blanks t = [])) as [Hnil|Hne].
  { rewrite Hnil. split; [done|]. intros (c & r & Hn & _). apply number_blanks in Hn. rewrite Hnil in Hn.
    by apply not_number_nil in Hn. }
  unfold numbers_allowed. destruct (skip_blanks t) as [|x u] eqn:Et; [done|]. rewrite <- Et.
  destruct (strtoul10 (skip_blanks t)) as [c r] eqn:E. split.
  - destruct (decide _) as [|Hd]; [done|]. intros H. exists c, r. split; [|split].
    + apply number_blanks, number_strtoul10; [done|tauto].
    + assert (c <> 0%Z /\ ~ (256 < c)%Z /\ length r <> length (skip_blanks t)) as (?&?&Hl) by tauto.
      apply number_strtoul10 in E as (ws & sign & ds & _ & _ & _ & _ & Hds & _ & Hv); [|done].
      assert (0 <= c)%Z; [|lia]. subst c. case_decide; [done|]. case_decide; [apply u32_range|].
      clear -Hds. assert (forall a, 0 <= a -> 0 <= dec_value a ds)%Z as H; [|by apply H].
      induction Hds as [|d ds Hd _ IH]; intros a Ha; [done|]. simpl. apply IH. unfold digit in Hd. lia.
    + destruct (decide (skip_blanks r = [])) as [Hr|Hr]; [left; by apply skip_blanks_nil|right].
      apply second_number; [done|]. by destruct (skip_blanks r).
  - intros (c' & r' & Hn & Hc & Hr). apply number_blanks, strtoul10_number in Hn as [Hn Hl]. rewrite E in Hn.
    injection Hn as -> ->. rewrite decide_False by lia.
    destruct (decide (skip_blanks r' = [])) as [Hb|Hb]; [by rewrite Hb|].
    destruct Hr as [Hr|Hr]; [by apply skip_blanks_nil in Hr|].
    apply second_number in Hr; [|done]. by destruct (skip_blanks r').
Qed.

(** The argument of a read: a path, a blank, the numbers. *)
Lemma read_command_allowed_iff a :
  read_command_allowed a = true <-> exists p t, a = p ++ " "%byte :: t /\ storage_path p /\ read_numbers t.
Proof.
  unfold read_command_allowed. destruct (strchr a " "%byte) as [i|] eqn:Es.
  - apply strchr_Some in Es as (Ea & Hc & Hi). set (p := take i a) in *. set (t := drop (S i) a) in *.
    assert (drop i a = " "%byte :: t) as Ed.
    { rewrite Ea. rewrite drop_app_length'; [done|]. unfold p. rewrite length_take. lia. }
    rewrite Ed. cbn [skip_blanks]. rewrite decide_True by done.
    assert (forall p' t', a = p' ++ " "%byte :: t' -> storage_path p' -> p' = p /\ t' = t) as Huniq.
    { intros p' t' E (q & -> & _ & _ & Hq & _). rewrite Ea in E.
      assert (" "%byte ∉ cs "/STORAGE:/" ++ q) as Hc'.
      { rewrite elem_of_app. intros [H|H]; [by vm_compute in H; set_solver|].
        rewrite Forall_forall in Hq. by specialize (Hq _ H). }
      revert E Hc Hc'. generalize (cs "/STORAGE:/" ++ q) p. intros l1 l2. revert l2.
      induction l1 as [|x l1 IH]; intros [|y l2] E H1 H2; simpl in E; simplify_eq; set_solver. }
    destruct (safe_path p true) eqn:Hp; simpl.
    + apply safe_path_storage in Hp. rewrite numbers_allowed_iff. split; [by exists p, t|].
      intros (p' & t' & E & Hp' & Ht). by destruct (Huniq p' t' E Hp') as [-> ->].
    + split; [done|]. intros (p' & t' & E & Hp' & Ht). destruct (Huniq p' t' E Hp') as [-> ->].
      by apply safe_path_storage in Hp'; rewrite Hp in Hp'.
  - apply strchr_None in Es. split; [done|]. intros (p & t & -> & _). exfalso. apply Es. set_solver.
Qed.

Definition allowed (c : cstr) : Prop :=
  c = cs "kernel uptime" \/ c = cs "fs ls" \/ (exists p, c = cs "fs ls " ++ p /\ browsable p)
  \/ (exists p t, c = cs "fs read " ++ p ++ " "%byte :: t /\ storage_path p /\ read_numbers t).

(** C23: the allowlist.  [shell:<command>] runs a command exactly when it is
    "kernel uptime", "fs ls", a listing of /STORAGE:, of /dev or of a path below
    one of them, or a read of a file below /STORAGE:/ with a count from 1 to 256
    and at most one more number; a path below a root consists of plain
    characters and has no empty, "." or ".." segment. *)
Theorem command_allowed_iff c : command_allowed c = true <-> allowed c.
Proof.
  unfold command_allowed, allowed.
  destruct (decide (c = cs "kernel uptime" \/ c = cs "fs ls")) as [Hd|Hd]; [naive_solver|].
  change 8 with (length (cs "fs read ")). change 6 with (length (cs "fs ls ")).
  destruct (decide (strncmp c (cs "fs read ") (length (cs "fs read ")) = Eq)) as [Hr|Hr].
  - apply strncmp_starts_with, starts_with_spec in Hr as [a ->]. rewrite drop_app_length, read_command_allowed_iff. split.
    + intros (p & t & -> & ?). right. right. right. by exists p, t.
    + intros [?|[?|[(p & ? & _)|(p & t & E%app_inv_head & ?)]]]; [tauto|tauto|done|by exists p, t].
  - assert (forall a, c <> cs "fs read " ++ a) as Hr'.
    { intros a E. apply Hr, strncmp_starts_with, starts_with_spec. by exists a. }
    destruct (decide (strncmp c (cs "fs ls ") (length (cs "fs ls ")) <> Eq)) as [Hl|Hl].
    + split; [done|]. intros [?|[?|[(p & E & _)|(p & t & E & _)]]]; [tauto|tauto| |by apply Hr' in E].
      exfalso. apply Hl, strncmp_starts_with, starts_with_spec. by exists p.
    + apply dec_stable, strncmp_starts_with, starts_with_spec in Hl as [p ->]. rewrite drop_app_length, safe_path_browsable.
      split; [by eauto 6|]. intros [?|[?|[(p' & E%app_inv_head & ?)|(p' & t & E & _)]]]; [tauto|tauto|by subst|by apply Hr' in E].
Qed.
End ShellAllow.
