(* ===== verification/AdbShellInv.v ===== *)
(** * Invariant of the shell service

    Whatever the client sends, whatever the engine answers and whatever the
    commands print, every copy stays within the arrays of its context: the line
    being edited within [command], the bytes waiting within [input], the output
    within [output].  The invariant also says that a session with bytes waiting
    has a packet in flight, whose acknowledgement resumes it. *)

From S2P Require Import Prelude CLib Ring AdbProtocol AdbService ShellExec AdbShell.
From Stdlib Require Import ZArith Lia.
From Stdlib Require Import Strings.Byte.
From stdpp Require Import base numbers list list_numbers strings sets.

Module ShellInv.
Import Shell.

Section invariant.
Context {sc : ShellConfig} {X : ShellExec} {XL : ShellExecLaws X}.

(** The array of an interactive session, and none otherwise. *)
Definition input_ok (c : adb_shell_context) : Prop :=
  match input c with
  | Some a => interactive c = true /\ length a = SHELL_INPUT_SIZE /\ input_capacity c = SHELL_INPUT_SIZE
              /\ input_len c <= SHELL_INPUT_SIZE
  | None => interactive c = false /\ input_len c = 0
  end.

(** The line being edited. *)
Definition line (c : adb_shell_context) : list byte := take (command_len c) (command c).

Record wf (c : adb_shell_context) : Prop := {
  wf_command : length (command c) = SHELL_COMMAND_SIZE;
  wf_command_len : command_len c < SHELL_COMMAND_SIZE;
  wf_line : NUL ∉ line c;
  wf_output : length (output c) = SHELL_OUTPUT_SIZE;
  wf_output_len : output_len c <= SHELL_OUTPUT_SIZE;
  wf_output_offset : output_offset c <= output_len c;
  wf_plain_offset : interactive c = true -> output_offset c = 0;
  wf_escape : (0 <= escape_state c <= 2)%Z;
  wf_input : input_ok c;
}.

(** What processing input leaves alone. *)
Definition same_session (c c' : adb_shell_context) : Prop :=
  stream c' = stream c /\ interactive c' = interactive c /\ tx_in_flight c' = tx_in_flight c
  /\ input c' = input c /\ input_len c' = input_len c /\ input_capacity c' = input_capacity c.

Lemma same_session_refl c : same_session c c.
Proof. done. Qed.

Lemma same_session_trans c1 c2 c3 : same_session c1 c2 -> same_session c2 c3 -> same_session c1 c3.
Proof. unfold same_session. intuition congruence. Qed.

(** The invariant of one context under a function that keeps the session. *)
Definition keeps (w w' : work) : Prop := wf (ctx w') /\ same_session (ctx w) (ctx w').

Lemma keeps_trans w1 w2 w3 : keeps w1 w2 -> keeps w2 w3 -> keeps w1 w3.
Proof. intros [_ ?] [? ?]. split; [done|]. by eapply same_session_trans. Qed.

Lemma zero_shell_wf : wf zero_context.
Proof.
  pose proof range_shell_command. constructor; simpl; rewrite ?length_replicate; unfold line, input_ok; simpl; try lia; try done.
  set_solver.
Qed.

(** ** Stores *)

Lemma keeps_same w : wf (ctx w) -> keeps w w.
Proof. done. Qed.

Lemma keeps_result w rc t : wf (ctx w) -> keeps w (on_ctx (with_result rc t) w).
Proof. intros []. split; [by constructor|done]. Qed.

Lemma keeps_line w cr d e : wf (ctx w) -> (0 <= e <= 2)%Z -> keeps w (on_ctx (with_line cr d e) w).
Proof. intros [] ?. split; [by constructor|done]. Qed.

Lemma keeps_close w b : wf (ctx w) -> keeps w (on_ctx (with_close b) w).
Proof. intros []. split; [by constructor|done]. Qed.

Lemma line_shorten c n : n <= command_len c -> take n (command c) ⊆ line c.
Proof.
  intros Hn. unfold line. rewrite <- (Nat.min_l n (command_len c)) by done. rewrite <- take_take. apply subseteq_take.
Qed.

(** Shortening the line. *)
Lemma keeps_shorten w n :
  wf (ctx w) -> n <= command_len (ctx w) -> keeps w (on_ctx (fun c => with_command (command c) n c) w).
Proof.
  intros [] ?. split; [constructor; try done; simpl; [lia|]|done].
  intros Hn. by eapply wf_line0, line_shorten.
Qed.

(** Adding a character. *)
Lemma keeps_extend w c :
  wf (ctx w) -> command_len (ctx w) + 1 < SHELL_COMMAND_SIZE -> c <> NUL ->
  keeps w (on_ctx (fun x => with_command (write_at (command x) (command_len x) [c]) (command_len x + 1) x) w).
Proof.
  intros [] ? Hc. split; [constructor; try done; simpl; try lia|done].
  - rewrite length_write_at; simpl; lia.
  - unfold line in *. simpl. pose proof (take_write_at (command (ctx w)) (command_len (ctx w)) [c] ltac:(lia)) as E.
    simpl in E. rewrite E. set_solver.
Qed.

(** Terminating the line does not change it. *)
Lemma keeps_terminate w :
  wf (ctx w) ->
  keeps w (terminate_line w) /\ line (ctx (terminate_line w)) = line (ctx w)
  /\ c_string (command (ctx (terminate_line w))) = line (ctx w).
Proof.
  intros []. unfold terminate_line. simpl.
  assert (take (command_len (ctx w)) (write_at (command (ctx w)) (command_len (ctx w)) [NUL]) = line (ctx w)) as Hl.
  { unfold line, write_at. rewrite take_app_le by (rewrite length_take; lia). rewrite take_take. f_equal. lia. }
  split_and!; [|done|].
  - split; [constructor; try done; simpl|done].
    + rewrite length_write_at; simpl; lia.
    + unfold line in *. simpl. by rewrite Hl.
  - unfold write_at. apply c_string_app. done.
Qed.

Lemma keeps_append w data : wf (ctx w) -> keeps w (append_output data w).
Proof.
  intros []. unfold append_output. split; [|by case_decide].
  case_decide; constructor; simpl; try done; [|lia|lia].
  rewrite length_write_at; [done|]. rewrite length_take. lia.
Qed.

Lemma append_nonempty w data :
  wf (ctx w) -> data <> [] -> output_len (ctx (append_output data w)) <> 0.
Proof.
  intros [] Hd. pose proof range_shell_output. unfold append_output.
  destruct data as [|b data]; [done|]. cbn [length]. case_decide; cbn -[Nat.min]; lia.
Qed.

Lemma append_grows w data : output_len (ctx w) <= output_len (ctx (append_output data w)).
Proof. unfold append_output. case_decide; simpl; lia. Qed.

(** A command writes within the room it was given. *)
Lemma keeps_run w text capacity :
  wf (ctx w) -> output_len (ctx w) + capacity <= SHELL_OUTPUT_SIZE ->
  keeps w (run_command text (output_len (ctx w)) capacity w)
  /\ output_len (ctx w) <= output_len (ctx (run_command text (output_len (ctx w)) capacity w)).
Proof.
  intros [] Hcap. unfold run_command.
  pose proof (execute_in_bounds text capacity (exec w)) as Hb.
  destruct (webos_shell_execute text capacity (exec w)) as [[r [[out t]|]] x]; simpl in *.
  - specialize (Hb out t eq_refl). split; [|lia]. split; [|done]. constructor; simpl; try done; try lia.
    rewrite length_write_at; [done|]. rewrite length_app. simpl. lia.
  - split; [|lia]. split; [|done]. by constructor.
Qed.

(** ** The editor *)

(** Callbacks that write nothing. *)
Definition quiet (tr : list service_event) : Prop :=
  Forall (fun e => match e with EvWrite _ _ _ _ => False | EvClose _ _ => True end) tr.

Lemma execute_line_ok b w :
  wf (ctx w) ->
  wp (execute_interactive_line b w)
    (fun tr r => quiet tr /\ r.1 = 0%Z /\ keeps w r.2 /\ output_len (ctx r.2) <> 0).
Proof.
  intros Hw. unfold execute_interactive_line. cbv zeta.
  pose proof (keeps_append w crlf Hw) as H1. pose proof (append_nonempty w crlf Hw ltac:(done)) as Hn.
  destruct (keeps_terminate (append_output crlf w) ltac:(apply H1)) as (H2 & _ & _).
  change (output_len (ctx (terminate_line (append_output crlf w))) <> 0) in Hn.
  pose proof (keeps_trans _ _ _ H1 H2) as H12. clear H1 H2. rename Hn into Hn2.
  generalize dependent (terminate_line (append_output crlf w)). intros w2 Hn2 H12.
  case_decide.
  - simpl. split_and!; [by repeat constructor|done| |done].
    eapply keeps_trans; [exact H12|]. split; [|done].
    pose proof (keeps_shorten w2 0 ltac:(apply H12) ltac:(lia)) as [[] _]. by constructor.
  - set (w3 := if decide (command_len (ctx w2) <> 0) then _ else w2).
    assert (keeps w2 w3 /\ output_len (ctx w3) <> 0) as [H3 Hn3].
    { unfold w3. destruct (decide _); [|by split; [apply keeps_same, H12|]].
      pose proof (wf_output _ (proj1 H12)).
      destruct (decide (length (output (ctx w2)) - output_len (ctx w2) <= _)).
      - split; [|done]. apply keeps_result, H12.
      - set (pl := if b then _ else _) in *.
        destruct (keeps_run w2 (c_string (command (ctx w2)))
                    (length (output (ctx w2)) - output_len (ctx w2) - pl) ltac:(apply H12)) as [Hk Hle]; [lia|].
        split; [done|lia]. }
    clearbody w3. simpl. split_and!; [constructor|done|..].
    + eapply keeps_trans; [exact H12|]. eapply keeps_trans; [exact H3|].
      pose proof (keeps_shorten w3 0 ltac:(apply H3) ltac:(lia)) as H4.
      destruct b; [|done]. eapply keeps_trans; [exact H4|]. apply keeps_append, H4.
    + destruct b; [|done].
      match goal with |- output_len (ctx (append_output _ ?x)) <> 0 => pose proof (append_grows x prompt) end.
      simpl in *. lia.
Qed.

(** What an iteration leaves: it never fails, and breaks only with something
    to show or at the end of the session. *)
Definition iteration_ok (w : work) (tr : list service_event) (r : flow * work) : Prop :=
  quiet tr /\ keeps w r.2
  /\ (forall ret, r.1 = Break ret -> ret = 0%Z /\ (close_requested (ctx r.2) = true \/ output_len (ctx r.2) <> 0)).

Lemma iteration_ret w w' : keeps w w' -> iteration_ok w [] (Continue, w').
Proof. intros H. split_and!; [constructor|done|done]. Qed.

Lemma iteration_show w w' data :
  keeps w w' -> data <> [] -> iteration_ok w [] (Break 0, append_output data w').
Proof.
  intros H Hd. split_and!; [constructor| |].
  - eapply keeps_trans; [exact H|]. apply keeps_append, H.
  - intros ret [= <-]. split; [done|]. right. apply append_nonempty; [apply H|done].
Qed.

Lemma iteration_append w w' data : keeps w w' -> iteration_ok w [] (Continue, append_output data w').
Proof.
  intros H. apply iteration_ret. eapply keeps_trans; [exact H|]. apply keeps_append, H.
Qed.

(** A printable character is not NUL. *)
Lemma printable_not_nul c : ~ (bval c < 32 \/ 126 < bval c)%Z -> c <> NUL.
Proof. intros H ->. apply H. left. done. Qed.

Lemma edit_char_ok value w : wf (ctx w) -> wp (edit_char value w) (iteration_ok w).
Proof.
  intros Hw. unfold edit_char. cbv zeta.
  destruct (decide (value = x0a /\ _)); [apply iteration_ret, keeps_line; [done|apply Hw]|].
  pose proof (keeps_line w (bool_decide (value = x0d)) (discard_line (ctx w)) _ Hw (wf_escape _ Hw)) as H1.
  set (w1 := on_ctx _ w) in *. change (keeps w w1) in H1.
  assert (wf (ctx w1)) as Hw1 by apply H1.
  assert (command_len (ctx w) = command_len (ctx w1) /\ command (ctx w) = command (ctx w1)) as [El Ec] by done.
  rewrite El, Ec. clearbody w1. clear El Ec.
  destruct (discard_line (ctx w)).
  { destruct (is_eol value); [|by apply iteration_ret].
    apply iteration_show; [|done]. eapply keeps_trans; [exact H1|]. apply (keeps_line w1); [done|apply Hw1]. }
  destruct (is_eol value).
  { eapply wp_seq; [by apply execute_line_ok|]. intros tr [ret w2] (Hq & Hr & Hk & Hn). simpl in Hr, Hk, Hn. subst ret.
    rewrite decide_True by auto. simpl. rewrite app_nil_r.
    split_and!; [done|by eapply keeps_trans|]. intros ret [= <-]. auto. }
  destruct (decide (value = x04)).
  { eapply (wp_seq _ _ (fun tr r => quiet tr /\ r.1 = 0%Z /\ keeps w1 r.2)).
    - destruct (decide (command_len (ctx w1) <> 0)); [|by simpl; split_and!; [constructor| |apply keeps_same]].
      eapply wp_mono; [by apply execute_line_ok|]. naive_solver.
    - intros tr [ret w2] (Hq & Hr & Hk). simpl in Hr, Hk. subst ret. split_and!.
      + apply Forall_app. split; [done|]. by repeat constructor.
      + eapply keeps_trans; [exact H1|]. eapply keeps_trans; [exact Hk|]. apply keeps_close, Hk.
      + intros ret [= <-]. auto. }
  destruct (decide (value = x03)).
  { apply iteration_show; [|by destruct prompt]. eapply keeps_trans; [exact H1|]. apply keeps_shorten; [done|lia]. }
  destruct (decide (value = x08 \/ value = x7f)).
  { destruct (decide (command_len (ctx w1) <> 0)); [|by apply iteration_ret].
    apply iteration_append. eapply keeps_trans; [exact H1|]. apply (keeps_shorten w1 (command_len (ctx w1) - 1)); [done|lia]. }
  destruct (decide (value = x09)); [by apply iteration_append|].
  destruct (decide (bval value < 32 \/ 126 < bval value)%Z) as [|Hp]; [by apply iteration_ret|].
  destruct (decide (length (command (ctx w1)) <= command_len (ctx w1) + 1)) as [|Hroom].
  - apply iteration_show; [|done]. eapply keeps_trans; [exact H1|].
    eapply keeps_trans; [apply (keeps_shorten w1 0); [done|lia]|].
    apply (keeps_line (on_ctx (fun c => with_command (command c) 0 c) w1)); [|apply Hw1].
    apply (keeps_shorten w1 0); [done|lia].
  - apply iteration_append. eapply keeps_trans; [exact H1|]. apply keeps_extend; [done| |by apply printable_not_nul].
    rewrite (wf_command _ Hw1) in Hroom. lia.
Qed.

Lemma process_char_ok value w : wf (ctx w) -> wp (process_char value w) (iteration_ok w).
Proof.
  intros Hw. unfold process_char. cbv zeta.
  assert (forall e, (0 <= e <= 2)%Z -> keeps w (set_escape e w)) as He by (intros; by apply keeps_line).
  assert (forall w', keeps w w' ->
    wp (if decide (value = x1b) then Ret (Continue, set_escape 1 w') else edit_char value w') (iteration_ok w)) as Hplain.
  { intros w' Hk. destruct (decide (value = x1b)).
    - apply iteration_ret. eapply keeps_trans; [exact Hk|]. apply keeps_line; [apply Hk|done].
    - eapply wp_mono; [apply edit_char_ok, Hk|]. intros tr r (?&?&?). split_and!; [done|by eapply keeps_trans|done]. }
  destruct (decide (escape_state (ctx w) = 1%Z)).
  - destruct (decide (value = _ \/ _)); [by apply iteration_ret, He|]. by apply Hplain, He.
  - destruct (decide (escape_state (ctx w) = 2%Z)); [|by apply Hplain, keeps_same].
    apply iteration_ret. destruct (decide (64 <= bval value <= 126)%Z); [by apply He|by apply keeps_same].
Qed.

Lemma process_loop_ok data w :
  wf (ctx w) ->
  wp (process_loop data w) (fun tr r => let '(n, ret, w') := r in
    quiet tr /\ keeps w w' /\ ret = 0%Z /\ n <= length data
    /\ (n < length data -> close_requested (ctx w') = true \/ output_len (ctx w') <> 0)).
Proof.
  revert w. induction data as [|value data IH]; intros w Hw; cbn [process_loop].
  { simpl. split_and!; [constructor|by apply keeps_same|done..|lia]. }
  eapply wp_seq; [by apply process_char_ok|]. intros tr [[|ret] w1] (Hq & Hk & Hb); simpl in Hk, Hb.
  - eapply wp_seq; [apply IH, Hk|]. intros tr2 [[n ret] w2] (Hq2 & Hk2 & -> & Hn & Hc). simpl.
    rewrite app_nil_r. split_and!; [by apply Forall_app|by eapply keeps_trans|done|lia|]. intros ?. apply Hc. lia.
  - destruct (Hb ret eq_refl) as [-> Hc]. simpl. rewrite app_nil_r. split_and!; [done..|lia|done].
Qed.

(** ** The callbacks *)

Definition same_stream (c c' : adb_shell_context) : Prop := stream c' = stream c /\ interactive c' = interactive c.

(** A session that has something to do waits for an acknowledgement. *)
Definition settled (c : adb_shell_context) : Prop :=
  interactive c = true -> close_requested c = false -> input_len c <> 0 \/ output_len c <> 0 ->
  tx_in_flight c = true.

Lemma keeps_input w a n :
  wf (ctx w) -> interactive (ctx w) = true -> length a = SHELL_INPUT_SIZE -> n <= SHELL_INPUT_SIZE ->
  wf (ctx (on_ctx (with_input (Some a) n) w)).
Proof.
  intros [] Hi Ha Hn. constructor; try done. unfold input_ok in *. simpl.
  destruct (input (ctx w)) as [b|]; [naive_solver|]. destruct wf_input0. congruence.
Qed.

Lemma input_array_ok c : wf c -> input_len c <= length (input_array c) /\ (input c = Some (input_array c) \/ input c = None).
Proof.
  intros []. unfold input_array, input_ok in *. destruct (input c); simpl; [|naive_solver lia].
  destruct wf_input0 as (_ & -> & _ & ?). auto.
Qed.

Lemma process_input_ok w :
  wf (ctx w) ->
  wp (process_interactive_input w) (fun tr r =>
    quiet tr /\ r.1 = 0%Z /\ wf (ctx r.2) /\ same_stream (ctx w) (ctx r.2)
    /\ tx_in_flight (ctx r.2) = tx_in_flight (ctx w)
    /\ (close_requested (ctx r.2) = false -> input_len (ctx r.2) <> 0 -> output_len (ctx r.2) <> 0)).
Proof.
  intros Hw. unfold process_interactive_input. destruct (input_array_ok _ Hw) as [Hlen Ha].
  eapply wp_seq; [by apply process_loop_ok|].
  intros tr [[n ret] w1] (Hq & [Hw1 (Hst & Hi & Htx & Hin & Hil & _)] & -> & Hn & Hb). rewrite length_take in Hn, Hb.
  cbv beta iota zeta. rewrite Hil. set (a := input_array (ctx w)) in *.
  set (left := input_len (ctx w) - n).
  set (w2 := on_ctx _ w1).
  assert (wf (ctx w2) /\ same_stream (ctx w) (ctx w2) /\ tx_in_flight (ctx w2) = tx_in_flight (ctx w)
          /\ (left = 0 \/ close_requested (ctx w2) = true \/ output_len (ctx w2) <> 0)
          /\ input_len (ctx w2) = left) as (Hw2 & Hs2 & Ht2 & Hb2 & Hl2).
  { split; [|split; [done|split; [done|split; [|done]]]].
    - pose proof (wf_input _ Hw) as Hiw. unfold input_ok in Hiw. destruct Ha as [Ha|Ha]; rewrite Ha in Hiw.
      + destruct Hiw as (Hit & Hal & Hcap & _).
        assert (wf (ctx (on_ctx (with_input (Some (if decide (left <> 0 /\ n <> 0) then write_at a 0 (take left (drop n a)) else a)) left) w1))) as Hx.
        { apply keeps_input; [done|congruence| |unfold left; lia].
          case_decide; [|done]. rewrite length_write_at; [done|]. rewrite length_take, length_drop. lia. }
        unfold w2, on_ctx. cbn [ctx]. rewrite Hin, Ha. destruct (decide (left <> 0 /\ n <> 0)); exact Hx.
      + unfold w2, on_ctx. cbn [ctx]. rewrite Hin, Ha. destruct Hw1. constructor; try done.
        unfold input_ok in *. simpl. rewrite Hin, Ha in wf_input0. case_decide; simpl; split; try tauto; unfold left; lia.
    - destruct (decide (n < length (take (input_len (ctx w)) a))) as [Hlt|Hge]; rewrite length_take in *.
      + right. apply Hb. lia.
      + left. unfold left. lia. }
  clearbody w2. simpl. rewrite app_nil_r. split; [done|]. split; [done|].
  destruct (close_requested (ctx w2)) eqn:Hc; simpl.
  - split_and!; [|exact Hs2|done|congruence].
    destruct Hw2. constructor; try done. unfold input_ok in *. simpl. destruct (input (ctx w2)); naive_solver lia.
  - split_and!; [done|exact Hs2|done|]. intros _ Hl. rewrite Hl2 in Hl. naive_solver.
Qed.

(** Writes of a trace that the engine accepted. *)
Definition accepted (tr : list service_event) : Prop :=
  Forall (fun e => match e with EvWrite _ _ _ r => r = 0%Z | EvClose _ _ => True end) tr.

(** What sending the next chunk leaves alone. *)
Definition same_input (c c' : adb_shell_context) : Prop :=
  same_stream c c' /\ close_requested c' = close_requested c /\ input c' = input c /\ input_len c' = input_len c.

Lemma keeps_sent w a n off :
  wf (ctx w) -> length a = SHELL_OUTPUT_SIZE -> n <= SHELL_OUTPUT_SIZE -> off <= n ->
  (interactive (ctx w) = true -> off = 0) -> wf (ctx (set_tx true (set_output a n off w))).
Proof. intros []. intros. by constructor. Qed.

Lemma queue_ok w :
  wf (ctx w) ->
  wp (queue_next_chunk w) (fun tr r =>
    wf (ctx r.2) /\ same_input (ctx w) (ctx r.2) /\ (r.1 = 0%Z <-> accepted tr)
    /\ (r.1 = 0%Z -> interactive (ctx w) = true -> output_len (ctx r.2) <> 0 -> tx_in_flight (ctx r.2) = true)
    /\ (interactive (ctx w) = true -> output_len (ctx r.2) <> 0 -> output_len (ctx w) <> 0)
    /\ (tx_in_flight (ctx w) = true -> tx_in_flight (ctx r.2) = true)
    /\ (interactive (ctx w) = true -> output_len (ctx w) <> 0 -> r.1 = 0%Z -> tx_in_flight (ctx r.2) = true)).
Proof.
  intros Hw. unfold queue_next_chunk. cbv zeta. pose proof Hw as [].
  assert (accepted []) as Hnil by constructor.
  destruct (tx_in_flight (ctx w)) eqn:Htx; [by split_and!|].
  destruct (interactive (ctx w)) eqn:Hi.
  - destruct (decide (output_len (ctx w) = 0)) as [Hz|Hz]; [by split_and!|].
    simpl. intros n r. set (k := output_len (ctx w) `min` n).
    destruct (decide (r = 0%Z)) as [->|Hr]; simpl; rewrite ?Hi.
    + split_and!; try done; [|by repeat constructor].
      apply keeps_sent; [done| |lia..|intros _; by apply wf_plain_offset0].
      rewrite length_write_at; [done|]. rewrite length_take, length_drop. lia.
    + split_and!; try done. split; [done|]. intros Ha. by apply Forall_cons in Ha as [? _].
  - simpl. intros n. set (k := (output_len (ctx w) - output_offset (ctx w)) `min` n).
    destruct (decide (k = 0)); simpl; [split_and!; try done; by repeat constructor|].
    intros r. destruct (decide (r = 0%Z)) as [->|Hr]; simpl; rewrite ?Hi.
    + split_and!; try done; [|by repeat constructor]. apply keeps_sent; [done|done|lia|lia|congruence].
    + split_and!; try done. split; [done|]. intros Ha. by apply Forall_cons in Ha as [? _].
Qed.

Lemma start_interactive_ok w w' :
  wf (ctx w) -> output_offset (ctx w) = 0 -> start_interactive w = Some w' ->
  wf (ctx w') /\ stream (ctx w') = stream (ctx w) /\ interactive (ctx w') = true.
Proof.
  intros [] Hoff. unfold start_interactive. destruct (sx_malloc (exec w)) as [[] x]; [|done].
  intros [= <-]. simpl. split_and!; [|done..].
  constructor; try done; simpl; rewrite ?length_write_at; rewrite ?length_take; try lia.
  unfold input_ok. simpl. rewrite length_replicate. split_and!; try done. lia.
Qed.

(** ** The service *)

Definition contexts_ok (s : shell) : Prop := length (contexts s) = SHELL_MAX_STREAMS /\ Forall wf (contexts s).

Lemma load_wf n s : contexts_ok s -> wf (ctx (load n s)).
Proof.
  intros [_ Hf]. unfold load. simpl. destruct (contexts s !! n) as [c|] eqn:E; simpl; [|apply zero_shell_wf].
  rewrite Forall_lookup in Hf. eauto.
Qed.

Lemma store_wf n s w : contexts_ok s -> wf (ctx w) -> contexts_ok (store n s w).
Proof. intros [Hl Hf] Hw. split; simpl; [by rewrite length_insert|]. by apply Forall_insert. Qed.

Lemma shell_index_lt st l n : context_index st l = Some n -> n < length l /\ exists c, l !! n = Some c /\ stream c = st.
Proof.
  revert n. induction l as [|c l IH]; intros n; simpl; [done|].
  case_decide; [intros [= <-]; split; [lia|eauto]|].
  destruct (context_index st l) as [m|]; [|done]. intros [= <-].
  destruct (IH m eq_refl) as (? & c' & ? & ?). split; [lia|]. eauto.
Qed.

Lemma find_load i s n : find_context i s = Some n -> stream (ctx (load n s)) = Some i /\ contexts s !! n = Some (ctx (load n s)).
Proof. intros (_ & c & Hc & Hs)%shell_index_lt. unfold load. simpl. by rewrite Hc. Qed.

Definition fresh_context (i : nat) : adb_shell_context := with_session (Some i) 0 false zero_context.

Lemma fresh_context_wf i : wf (fresh_context i).
Proof. pose proof zero_shell_wf as []. by constructor. Qed.

Lemma allocate_ok i s n s' :
  contexts_ok s -> allocate_context i s = Some (n, s') -> contexts_ok s' /\ ctx (load n s') = fresh_context i.
Proof.
  intros Hs. unfold allocate_context. destruct (context_index None (contexts s)) as [m|] eqn:E; [|done].
  intros [= -> <-]. apply shell_index_lt in E as [Hlt _]. split.
  - apply (store_wf n s (Work (fresh_context i) (executor s))); [done|apply fresh_context_wf].
  - unfold load. simpl. by rewrite list_lookup_insert_eq.
Qed.

Lemma first_output_ok suffix i w w' :
  ctx w = fresh_context i -> first_output suffix w = Some w' -> wf (ctx w') /\ stream (ctx w') = Some i.
Proof.
  intros Hc. pose proof (fresh_context_wf i) as Hw. rewrite <- Hc in Hw. unfold first_output. case_decide.
  - intros E. apply start_interactive_ok in E as (?&Hs&_); [|done|by rewrite Hc]. by rewrite Hs, Hc.
  - intros [= <-]. pose proof (keeps_run w suffix SHELL_OUTPUT_SIZE Hw) as Hk.
    rewrite Hc in Hk |- *. change (output_len (fresh_context i)) with 0 in Hk.
    replace (length (output (fresh_context i))) with SHELL_OUTPUT_SIZE by (symmetry; apply length_replicate).
    destruct Hk as [[? [Hs _]] _]; [lia|]. by rewrite Hs, Hc.
Qed.

(** Receiving what there is room for. *)
Lemma receive_ok data w :
  wf (ctx w) -> interactive (ctx w) = true -> length data <= input_capacity (ctx w) - input_len (ctx w) ->
  wf (ctx (receive data w)) /\ take (input_len (ctx (receive data w))) (input_array (ctx (receive data w)))
                               = take (input_len (ctx w)) (input_array (ctx w)) ++ data.
Proof.
  intros Hw Hi Hroom. pose proof (wf_input _ Hw) as Hin. unfold input_ok in Hin.
  unfold receive, on_ctx, input_array. cbn [ctx input input_len with_input].
  destruct (input (ctx w)) as [a|] eqn:Ha; [|destruct Hin; congruence].
  destruct Hin as (_ & Hal & Hcap & Hle). split.
  - apply keeps_input; [done|done|rewrite length_write_at; lia|lia].
  - simpl. apply take_write_at. lia.
Qed.

Lemma shell_open_ok i suffix s :
  contexts_ok s -> wp (adb_shell_open i suffix s) (fun _ r => contexts_ok r.2).
Proof.
  intros Hs. unfold adb_shell_open. case_decide; [done|]. case_decide; [done|].
  destruct (allocate_context i s) as [[n s1]|] eqn:Ea; [|done].
  destruct (allocate_ok _ _ _ _ Hs Ea) as [Hs1 Hc]. cbv zeta.
  destruct (first_output suffix (load n s1)) as [w|] eqn:Ef; [|apply store_wf; [done|apply zero_shell_wf]].
  destruct (first_output_ok _ _ _ _ Hc Ef) as [Hw _].
  eapply wp_seq; [by apply queue_ok|]. intros tr [ret w'] (Hw' & _). simpl in *.
  apply store_wf; [done|]. case_decide; [apply zero_shell_wf|done].
Qed.

(** The end of a callback: processing, then sending. *)
Lemma resume_ok w (b : bool) :
  wf (ctx w) -> (b = false -> tx_in_flight (ctx w) = true \/ output_len (ctx w) <> 0 \/ input_len (ctx w) = 0
                              \/ close_requested (ctx w) = true) ->
  wp (resume b w)
    (fun tr r => wf (ctx r.2) /\ same_stream (ctx w) (ctx r.2) /\ (r.1 = 0%Z <-> accepted tr)
       /\ (accepted tr -> settled (ctx r.2))).
Proof.
  intros Hw Hb. unfold resume. eapply (wp_seq _ _ (fun tr r => quiet tr /\ r.1 = 0%Z /\ wf (ctx r.2) /\ same_stream (ctx w) (ctx r.2)
    /\ (tx_in_flight (ctx r.2) = true \/ output_len (ctx r.2) <> 0 \/ input_len (ctx r.2) = 0 \/ close_requested (ctx r.2) = true))).
  { destruct b; [|by simpl; split_and!; [constructor| | | |apply Hb]].
    eapply wp_mono; [by apply process_input_ok|]. intros tr [ret w1] (?&?&?&?&?&Hx). simpl in *. split_and!; [done..|].
    destruct (close_requested (ctx w1)); [by auto|]. destruct (decide (input_len (ctx w1) = 0)); auto. }
  intros tr1 [ret w1] (Hq & Hr & Hw1 & Hs1 & Hc). simpl in *. subst ret. rewrite decide_True by done.
  eapply wp_mono; [by apply queue_ok|]. intros tr2 [ret w2] (Hw2 & Hs2 & Hacc & H1 & H2 & H3 & H4). simpl in *.
  destruct Hs2 as (Hs2 & Hcl & _ & Hil).
  assert (accepted (tr1 ++ tr2) <-> accepted tr2) as Ha.
  { unfold accepted. rewrite Forall_app. split; [tauto|]. split; [|done].
    eapply Forall_impl; [exact Hq|]. by intros []. }
  split_and!; [done| |by rewrite Ha|].
  - destruct Hs1, Hs2. split; congruence.
  - rewrite Ha, <- Hacc. intros Hr. unfold settled. intros Hi Hcr Hpend. destruct Hs2 as [_ Hi2].
    rewrite Hi2 in Hi. rewrite Hcl in Hcr. rewrite Hil in Hpend.
    destruct Hc as [Hc|[Hc|[Hc|Hc]]]; [by apply H3|by apply H4| |congruence].
    destruct Hpend as [?|?]; [done|]. by apply H1.
Qed.

Lemma accepted_app tr tr' : accepted (tr ++ tr') <-> accepted tr /\ accepted tr'.
Proof. apply Forall_app. Qed.

(** The context a callback works on stays that of its stream. *)
Lemma find_store i n s w :
  find_context i s = Some n -> stream (ctx w) = Some i -> find_context i (store n s w) = Some n.
Proof.
  unfold find_context. simpl. revert n. induction (contexts s) as [|c l IH]; intros n; simpl; [done|].
  case_decide as Hc; [intros [= <-] ?; simpl; by rewrite decide_True|].
  destruct (context_index (Some i) l) as [m|] eqn:E; [|done]. intros [= <-] Hw. simpl.
  rewrite decide_False by done. by rewrite (IH m).
Qed.

Lemma same_stream_trans c1 c2 c3 : same_stream c1 c2 -> same_stream c2 c3 -> same_stream c1 c3.
Proof. unfold same_stream. intuition congruence. Qed.

(** What a write or an acknowledgement leaves of the context of its stream. *)
Definition served (i : nat) (s : shell) (tr : list service_event) (s' : shell) : Prop :=
  contexts_ok s'
  /\ forall n, find_context i s = Some n ->
       find_context i s' = Some n
       /\ interactive (ctx (load n s')) = interactive (ctx (load n s))
       /\ (accepted tr -> settled (ctx (load n s)) -> settled (ctx (load n s'))).

Lemma served_refl i s tr : contexts_ok s -> served i s tr s.
Proof. done. Qed.

Lemma load_stored n s w : n < length (contexts s) -> load n (store n s w) = w.
Proof. intros Hn. unfold load, store. simpl. rewrite list_lookup_insert_eq by done. by destruct w. Qed.

Lemma served_store i n s tr w :
  contexts_ok s -> find_context i s = Some n -> wf (ctx w) -> same_stream (ctx (load n s)) (ctx w) ->
  (accepted tr -> settled (ctx w)) -> served i s tr (store n s w).
Proof.
  intros Hs Hn Hw [Hst Hi] Hset. split; [by apply store_wf|]. intros m Hm.
  destruct (find_load _ _ _ Hn) as [Hst0 _]. assert (m = n) as -> by congruence.
  pose proof (shell_index_lt _ _ _ Hn) as [Hlt _]. rewrite load_stored by done.
  split_and!; [apply find_store; congruence|done|auto].
Qed.

Lemma shell_write_ok i data s :
  contexts_ok s -> wp (adb_shell_write i data s) (fun tr r => served i s tr r.2 /\ (r.1 = 0%Z -> accepted tr)).
Proof.
  intros Hs. unfold adb_shell_write. assert (accepted []) as Hnil by constructor.
  destruct (find_context i s) as [n|] eqn:Hn; [|by split; [apply served_refl|]].
  pose proof (load_wf n s Hs) as Hw. cbv zeta.
  destruct (interactive (ctx (load n s))) eqn:Hi; [|by split; [apply served_refl|]]. simpl negb. cbv iota.
  destruct (decide (_ < length data)) as [|Hroom]; [by split; [apply served_refl|]|].
  destruct (receive_ok data (load n s) Hw Hi ltac:(lia)) as [Hw1 _].
  assert (same_stream (ctx (load n s)) (ctx (receive data (load n s)))) as Hs1 by done.
  set (w1 := receive data (load n s)) in *.
  eapply wp_seq; [apply resume_ok; [done|]|].
  - rewrite bool_decide_eq_false. intros Hb.
    destruct (tx_in_flight (ctx w1)) eqn:Ht; [by left|]. right. left. intros Hz. apply Hb. split; [exact Ht|exact Hz].
  - clearbody w1. intros tr [ret w2] (Hw2 & Hs2 & Hacc & Hset). simpl. rewrite app_nil_r. simpl in *.
    split; [|by apply Hacc]. apply served_store; [done..| |done]. exact (same_stream_trans _ _ _ Hs1 Hs2).
Qed.

Lemma shell_tx_ready_ok i s :
  contexts_ok s -> wp (adb_shell_tx_ready i s) (fun tr r => served i s tr r).
Proof.
  intros Hs. unfold adb_shell_tx_ready. destruct (find_context i s) as [n|] eqn:Hn; [|by apply served_refl].
  pose proof (load_wf n s Hs) as Hw. cbv zeta.
  set (w1 := set_tx false (load n s)).
  assert (wf (ctx w1) /\ same_stream (ctx (load n s)) (ctx w1)) as [Hw1 Hs1].
  { split; [|done]. destruct Hw. by constructor. }
  eapply wp_seq; [apply resume_ok; [done|]|].
  - rewrite bool_decide_eq_false. intros Hb.
    destruct (interactive (ctx w1)) eqn:Hi.
    + destruct (decide (output_len (ctx w1) = 0)); [|auto]. destruct (decide (input_len (ctx w1) = 0)); [auto|].
      destruct (close_requested (ctx w1)) eqn:Hc; [auto|]. exfalso. by apply Hb.
    + right. right. left. pose proof (wf_input _ Hw1) as Hin. unfold input_ok in Hin.
      destruct (input (ctx w1)); [|by destruct Hin]. destruct Hin; congruence.
  - clearbody w1. intros tr [ret w2] (Hw2 & Hs2 & Hacc & Hset). simpl in *.
    assert (served i s tr (store n s w2)) as Hsv.
    { apply served_store; [done..| |done]. exact (same_stream_trans _ _ _ Hs1 Hs2). }
    case_decide as Hr; simpl; [|by rewrite app_nil_r].
    destruct Hsv as [Hok Hn']. split; [done|]. intros m Hm. destruct (Hn' m Hm) as (?&?&Hst).
    split_and!; [done..|]. rewrite accepted_app. intros [? _]. by apply Hst.
Qed.

Lemma shell_close_ok i s : contexts_ok s -> contexts_ok (adb_shell_close i s).
Proof.
  intros Hs. unfold adb_shell_close. destruct (find_context i s); [|done].
  apply store_wf; [done|apply zero_shell_wf].
Qed.

(** ** Reachable states *)

(** One call of a callback by the engine. *)
Inductive shell_step : shell -> shell -> Prop :=
| step_open i suffix s tr r s' : outcome (adb_shell_open i suffix s) tr (r, s') -> shell_step s s'
| step_write i data s tr r s' : outcome (adb_shell_write i data s) tr (r, s') -> shell_step s s'
| step_ready i s tr s' : outcome (adb_shell_tx_ready i s) tr s' -> shell_step s s'
| step_close i s : shell_step s (adb_shell_close i s).

Inductive shell_reachable (x : sx) : shell -> Prop :=
| reach_init : shell_reachable x (shell_init x)
| reach_step s s' : shell_reachable x s -> shell_step s s' -> shell_reachable x s'.

Lemma shell_reachable_ok x s : shell_reachable x s -> contexts_ok s.
Proof.
  induction 1 as [|s s' _ IH Hstep].
  - split; [apply length_replicate|]. apply Forall_replicate, zero_shell_wf.
  - destruct Hstep as [i suffix s tr r s' Ho|i data s tr r s' Ho|i s tr s' Ho|i s].
    + by apply (proj1 (wp_outcome _ _) (shell_open_ok i suffix s IH)) in Ho.
    + by apply (proj1 (wp_outcome _ _) (shell_write_ok i data s IH)) in Ho as [[? _] _].
    + by apply (proj1 (wp_outcome _ _) (shell_tx_ready_ok i s IH)) in Ho as [? _].
    + by apply shell_close_ok.
Qed.

(** In every state the shell service can reach - any clients, any answers
    of the engine, any commands and output - every context stays within its
    arrays: the line being edited is shorter than the command buffer and holds
    no NUL, the pending input fits the input buffer, the pending output the
    output buffer. *)
Theorem shell_service_invariant x s : shell_reachable x s -> contexts_ok s.
Proof. apply shell_reachable_ok. Qed.
End invariant.
End ShellInv.
