(* ===== verification/AdbShellSpec.v ===== *)
(** * Interactive sessions

    The reference is a terminal, [term_run]: a function of the bytes typed that
    knows nothing of buffers, chunks and acknowledgements, and lists what is to
    be shown and which commands are to be run.  A session of the service
    refines it: as long as nothing was cut off, the bytes sent and still to be
    sent are what the terminal shows for the bytes consumed, with the output of
    the commands in place, and the bytes received are those consumed and those
    still waiting - however the input is cut into packets and whenever the
    acknowledgements arrive. *)

From S2P Require Import Prelude CLib Ring AdbProtocol AdbService ShellExec AdbShell AdbShellInv.
From Stdlib Require Import ZArith Lia.
From Stdlib Require Import Strings.Byte.
From stdpp Require Import base numbers list list_numbers strings sets.

Module ShellSpec.
Import Shell ShellInv.

(** ** The terminal *)

Record term := Term { t_escape : Z; t_cr : bool; t_discard : bool; t_line : list byte; t_closed : bool }.

Inductive term_event := Show (text : list byte) | Run (command : cstr).

Section terminal.
Context {sc : ShellConfig}.

(** The end of a line. *)
Definition enter (add_prompt : bool) (l : list byte) : list term_event :=
  Show crlf ::
  if decide (l = cs "exit") then []
  else (if decide (l = []) then [] else [Run l]) ++ (if add_prompt then [Show prompt] else []).

Definition term_edit (t : term) (v : byte) : term * list term_event :=
  if decide (v = x0a /\ t_cr t = true) then (Term (t_escape t) false (t_discard t) (t_line t) (t_closed t), [])
  else
    let cr := bool_decide (v = x0d) in
    let e := t_escape t in
    if t_discard t then
      if is_eol v then (Term e cr false (t_line t) (t_closed t), [Show (crlf ++ prompt)])
      else (Term e cr true (t_line t) (t_closed t), [])
    else
      let t' l := Term e cr false l (t_closed t) in
      if is_eol v then (Term e cr false [] (t_closed t || bool_decide (t_line t = cs "exit")), enter true (t_line t))
      else if decide (v = x04) then
        (Term e cr false [] true, if decide (t_line t = []) then [] else enter false (t_line t))
      else if decide (v = x03) then (t' [], [Show (cs "^C" ++ crlf ++ prompt)])
      else if decide (v = x08 \/ v = x7f) then
        (t' (take (length (t_line t) - 1) (t_line t)),
         if decide (t_line t = []) then [] else [Show [x08; " "%byte; x08]])
      else if decide (v = x09) then (t' (t_line t), [Show [x07]])
      else if decide (bval v < 32 \/ 126 < bval v)%Z then (t' (t_line t), [])
      else if decide (SHELL_COMMAND_SIZE <= length (t_line t) + 1) then
        (Term e cr true [] (t_closed t), [Show (crlf ++ cs "Command too long")])
      else (t' (t_line t ++ [v]), [Show [v]]).

Definition term_step (t : term) (v : byte) : term * list term_event :=
  let escape e t := Term e (t_cr t) (t_discard t) (t_line t) (t_closed t) in
  let plain t := if decide (v = x1b) then (escape 1%Z t, []) else term_edit t v in
  if decide (t_escape t = 1%Z) then
    if decide (v = "["%byte \/ v = "O"%byte) then (escape 2%Z t, []) else plain (escape 0%Z t)
  else if decide (t_escape t = 2%Z) then
    (if decide (64 <= bval v <= 126)%Z then escape 0%Z t else t, [])
  else plain t.

Fixpoint term_run (t : term) (typed : list byte) : term * list term_event :=
  match typed with
  | [] => (t, [])
  | v :: typed =>
      let '(t, e) := term_step t v in
      let '(t, es) := term_run t typed in
      (t, e ++ es)
  end.

Definition term_start : term := Term 0 false false [] false.

Lemma term_run_app t a b :
  term_run t (a ++ b) = ((term_run (term_run t a).1 b).1, (term_run t a).2 ++ (term_run (term_run t a).1 b).2).
Proof.
  revert t. induction a as [|v a IH]; intros t; simpl; [by destruct (term_run t b)|].
  destruct (term_step t v) as [t1 e]. rewrite IH. destruct (term_run t1 a) as [t2 es]. simpl. by rewrite app_assoc.
Qed.
End terminal.

(** The text a list of events shows, given the commands run and their output. *)
Inductive renders : list term_event -> list (cstr * list byte) -> list byte -> Prop :=
| render_nil : renders [] [] []
| render_show text evs log out : renders evs log out -> renders (Show text :: evs) log (text ++ out)
| render_run c o evs log out : renders evs log out -> renders (Run c :: evs) ((c, o) :: log) (o ++ out).

Lemma renders_app e1 l1 o1 e2 l2 o2 :
  renders e1 l1 o1 -> renders e2 l2 o2 -> renders (e1 ++ e2) (l1 ++ l2) (o1 ++ o2).
Proof. induction 1; simpl; intros H2; rewrite <- ?app_assoc; try constructor; auto. Qed.

(** The commands among the events are the ones that were run. *)
Definition commands (evs : list term_event) : list cstr :=
  omap (fun e => match e with Run c => Some c | Show _ => None end) evs.

Lemma renders_commands evs log out : renders evs log out -> map fst log = commands evs.
Proof. unfold commands. induction 1; csimpl; congruence. Qed.

(** ** Recording the commands *)

(** An executor that records every command and what it printed. *)
Definition logged (X : ShellExec) : ShellExec := {|
  sx := @sx X * list (cstr * list byte);
  webos_shell_execute c n s :=
    let '(r, x) := @webos_shell_execute X c n s.1 in
    (r, (x, s.2 ++ [(c, from_option fst [] (captured r))]));
  webos_shell_clear_output s := (@webos_shell_clear_output X s.1, s.2);
  sx_malloc s := let '(ok, x) := @sx_malloc X s.1 in (ok, (x, s.2));
|}.

#[global] Instance logged_laws (X : ShellExec) (XL : ShellExecLaws X) : ShellExecLaws (logged X).
Proof.
  constructor. intros c n [x l] out t. simpl. pose proof (@execute_in_bounds X XL c n x out t) as H.
  by destruct (@webos_shell_execute X c n x) as [r x'].
Qed.

Section refinement.
Context {sc : ShellConfig}.
Variable X : ShellExec.
Variable XL : ShellExecLaws X.

#[local] Instance recorded : ShellExec := logged X.
#[local] Instance recorded_laws : ShellExecLaws recorded := logged_laws X XL.

Definition log_of (w : work) : list (cstr * list byte) := (exec w).2.

(** What is waiting to be sent. *)
Definition shown (c : adb_shell_context) : list byte := take (output_len c) (output c).

(** From [w] to [w'], exactly the events were shown and run, unless something
    was cut off. *)
Definition advances (evs : list term_event) (w w' : work) : Prop :=
  truncated (ctx w') = false ->
  truncated (ctx w) = false
  /\ exists log out, log_of w' = log_of w ++ log /\ shown (ctx w') = shown (ctx w) ++ out /\ renders evs log out.

Lemma advances_trans e1 e2 w1 w2 w3 : advances e1 w1 w2 -> advances e2 w2 w3 -> advances (e1 ++ e2) w1 w3.
Proof.
  intros H1 H2 Ht. destruct (H2 Ht) as (Ht2 & l2 & o2 & El2 & Eo2 & R2).
  destruct (H1 Ht2) as (Ht1 & l1 & o1 & El1 & Eo1 & R1). split; [done|].
  exists (l1 ++ l2), (o1 ++ o2). rewrite El2, El1, Eo2, Eo1, <- !app_assoc. split_and!; [done..|by apply renders_app].
Qed.

(** Nothing shown. *)
Lemma advances_nil w w' :
  truncated (ctx w') = truncated (ctx w) -> log_of w' = log_of w -> shown (ctx w') = shown (ctx w) -> advances [] w w'.
Proof. intros E1 E2 E3 Ht. split; [congruence|]. exists [], []. rewrite !app_nil_r. split_and!; [done..|constructor]. Qed.

(** The editor's own state. *)
Definition same_editor (c c' : adb_shell_context) : Prop :=
  escape_state c' = escape_state c /\ saw_carriage_return c' = saw_carriage_return c /\ discard_line c' = discard_line c
  /\ command c' = command c /\ command_len c' = command_len c /\ close_requested c' = close_requested c.

Lemma append_editor w data : same_editor (ctx w) (ctx (append_output data w)).
Proof. unfold append_output. by case_decide. Qed.

Lemma append_cases w data :
  let n := length data `min` (length (output (ctx w)) - output_len (ctx w)) in
  append_output data w =
    on_ctx (fun c => with_result (command_rc c) (truncated c || bool_decide (n <> length data)) c)
      (if decide (n <> 0) then set_output (write_at (output (ctx w)) (output_len (ctx w)) (take n data))
                                 (output_len (ctx w) + n) (output_offset (ctx w)) w else w).
Proof. done. Qed.

Lemma advances_append w data : wf (ctx w) -> advances [Show data] w (append_output data w).
Proof.
  intros [] Ht. rewrite append_cases in *. cbv zeta in *.
  set (n := length data `min` _) in *.
  assert (n = length data /\ truncated (ctx w) = false) as [Hn Htr].
  { destruct (decide (n <> 0)); simpl in Ht; apply orb_false_iff in Ht as [? Ht%bool_decide_eq_false];
      split; try done; by destruct (decide (n = length data)). }
  split; [done|]. exists [], data. rewrite app_nil_r.
  assert (renders [Show data] [] data) as Hr by (rewrite <- (app_nil_r data) at 2; repeat constructor).
  destruct (decide (n <> 0)) as [Hz|Hz]; split_and!; try done.
  - unfold shown. simpl. rewrite Hn at 2. rewrite firstn_all.
    rewrite <- (take_write_at (output (ctx w)) (output_len (ctx w)) data) by lia. by rewrite Hn.
  - assert (data = []) as -> by (destruct data; [done|simpl in *; lia]). unfold shown. simpl. by rewrite app_nil_r.
Qed.

Lemma advances_run w text capacity :
  wf (ctx w) -> output_len (ctx w) + capacity <= SHELL_OUTPUT_SIZE ->
  advances [Run text] w (run_command text (output_len (ctx w)) capacity w)
  /\ same_editor (ctx w) (ctx (run_command text (output_len (ctx w)) capacity w)).
Proof.
  intros [] Hcap. unfold run_command, advances, log_of. pose proof (execute_in_bounds text capacity (exec w)) as Hb. simpl in *.
  destruct (@webos_shell_execute X text capacity (exec w).1) as [[r [[out t]|]] x]; simpl in *.
  - specialize (Hb out t eq_refl). split; [|done]. intros [? _]%orb_false_iff. split; [done|].
    exists [(text, out)], out. split_and!; [done| |].
    + unfold shown. simpl. unfold write_at.
      rewrite app_assoc, (take_app_le (_ ++ _)) by (rewrite !length_app, length_take; simpl; lia).
      rewrite app_assoc. apply take_app_length'. rewrite length_app, length_take. lia.
    + rewrite <- (app_nil_r out) at 2. repeat constructor.
  - split; [|done]. intros ?. split; [done|]. exists [(text, [])], []. rewrite app_nil_r.
    split_and!; [done..|]. apply (render_run text [] [] [] []). constructor.
Qed.

(** The terminal that a context renders. *)
Definition term_of (c : adb_shell_context) : term :=
  Term (escape_state c) (saw_carriage_return c) (discard_line c) (line c) (close_requested c).

Lemma term_of_editor c c' : same_editor c c' -> term_of c' = term_of c.
Proof. intros (E1&E2&E3&E4&E5&E6). unfold term_of, line. congruence. Qed.

Lemma line_empty c : wf c -> line c = [] <-> command_len c = 0.
Proof.
  intros []. unfold line. split; [|by intros ->].
  intros H%(f_equal length). rewrite length_take in H. simpl in H. lia.
Qed.

Lemma length_line c : wf c -> length (line c) = command_len c.
Proof. intros []. unfold line. rewrite length_take. lia. Qed.

Lemma execute_line_spec b w :
  wf (ctx w) ->
  wp (execute_interactive_line b w) (fun _ r =>
    advances (enter b (line (ctx w))) w r.2
    /\ term_of (ctx r.2) = Term (escape_state (ctx w)) (saw_carriage_return (ctx w)) (discard_line (ctx w)) []
                             (close_requested (ctx w) || bool_decide (line (ctx w) = cs "exit"))).
Proof.
  intros Hw. unfold execute_interactive_line. cbv zeta.
  pose proof (advances_append w crlf Hw) as Ha. destruct (keeps_append w crlf Hw) as [Hw0 _].
  pose proof (append_editor w crlf) as He.
  destruct (keeps_terminate (append_output crlf w) Hw0) as ([Hw1 _] & El & Es).
  assert (line (ctx (append_output crlf w)) = line (ctx w)) as El0.
  { destruct He as (_&_&_&E1&E2&_). unfold line. congruence. }
  assert (advances [Show crlf] w (terminate_line (append_output crlf w))) as Ha1.
  { exact Ha. }
  destruct He as (E1&E2&E3&_&_&E4).
  assert (escape_state (ctx (terminate_line (append_output crlf w))) = escape_state (ctx w)
    /\ saw_carriage_return (ctx (terminate_line (append_output crlf w))) = saw_carriage_return (ctx w)
    /\ discard_line (ctx (terminate_line (append_output crlf w))) = discard_line (ctx w)
    /\ close_requested (ctx (terminate_line (append_output crlf w))) = close_requested (ctx w)) as (F1&F2&F3&F4) by done.
  rewrite Es, El0. rewrite El0 in El. clear Ha Es El0 E1 E2 E3 E4 Hw0.
  generalize dependent (terminate_line (append_output crlf w)). intros w1 Hw1 El Ha1 F1 F2 F3 F4.
  unfold enter. destruct (decide (line (ctx w) = cs "exit")) as [Hx|Hx].
  { simpl. split; [exact Ha1|]. unfold term_of. simpl. by rewrite F1, F2, F3, bool_decide_true, orb_true_r by done. }
  rewrite bool_decide_false, orb_false_r by done.
  set (w2 := if decide (command_len (ctx w1) <> 0) then _ else w1).
  assert (wf (ctx w2) /\ advances (if decide (line (ctx w) = []) then [] else [Run (line (ctx w))]) w1 w2
          /\ same_editor (ctx w1) (ctx w2)) as (Hw2 & Ha2 & He2).
  { unfold w2. pose proof (line_empty _ Hw1) as Hle. rewrite El in Hle. pose proof (wf_output _ Hw1).
    destruct (decide (line (ctx w) = [])) as [Hl|Hl], (decide (command_len (ctx w1) <> 0)); try tauto.
    - split_and!; [done|by apply advances_nil|done].
    - destruct (decide (_ <= _)).
      + split_and!; [apply (keeps_result w1); done|intros [=]|done].
      + set (pl := if b then _ else _) in *.
        destruct (keeps_run w1 (line (ctx w)) (length (output (ctx w1)) - output_len (ctx w1) - pl) Hw1) as [[Hk _] _]; [lia|].
        destruct (advances_run w1 (line (ctx w)) (length (output (ctx w1)) - output_len (ctx w1) - pl) Hw1); [lia|done]. }
  clearbody w2. simpl.
  set (w3 := on_ctx _ w2). destruct (keeps_shorten w2 0 Hw2 ltac:(lia)) as [Hw3 _]. change (wf (ctx w3)) in Hw3.
  assert (advances ([Show crlf] ++ (if decide (line (ctx w) = []) then [] else [Run (line (ctx w))])) w w3
    /\ term_of (ctx w3) = Term (escape_state (ctx w)) (saw_carriage_return (ctx w)) (discard_line (ctx w)) [] (close_requested (ctx w)))
    as [Ha3 Ht3].
  { split; [eapply advances_trans; [exact Ha1|exact Ha2]|].
    destruct He2 as (G1&G2&G3&_&_&G4). unfold term_of. simpl. by rewrite G1, G2, G3, G4, F1, F2, F3, F4. }
  clearbody w3. destruct b.
  - split; [|by rewrite (term_of_editor _ _ (append_editor w3 prompt))].
    change (Show crlf :: ?x ++ ?y) with ([Show crlf] ++ (x ++ y)). rewrite app_assoc.
    eapply advances_trans; [exact Ha3|by apply advances_append].
  - split; [|done]. by rewrite app_nil_r.
Qed.

(** A step of the editor is a step of the terminal. *)
Definition simulates (s : term * list term_event) (w w' : work) : Prop :=
  advances s.2 w w' /\ term_of (ctx w') = s.1.

Lemma simulates_append t w w1 data :
  wf (ctx w1) -> advances [] w w1 -> term_of (ctx w1) = t -> simulates (t, [Show data]) w (append_output data w1).
Proof.
  intros Hw Ha Ht. split.
  - simpl. change [Show data] with ([] ++ [Show data]). eapply advances_trans; [exact Ha|by apply advances_append].
  - change (term_of (ctx (append_output data w1)) = t). by rewrite (term_of_editor _ _ (append_editor w1 data)).
Qed.

Lemma simulates_ret t w w1 : advances [] w w1 -> term_of (ctx w1) = t -> simulates (t, []) w w1.
Proof. done. Qed.

Lemma line_shortened w :
  wf (ctx w) -> take (command_len (ctx w) - 1) (command (ctx w)) = take (length (line (ctx w)) - 1) (line (ctx w)).
Proof. intros Hw. rewrite length_line by done. unfold line. rewrite take_take. f_equal. lia. Qed.

Lemma edit_char_spec v w :
  wf (ctx w) -> wp (edit_char v w) (fun _ r => simulates (term_edit (term_of (ctx w)) v) w r.2).
Proof.
  intros Hw. unfold edit_char, term_edit. cbv zeta. cbn [term_of t_escape t_cr t_discard t_line t_closed].
  destruct (decide (v = x0a /\ _)); [by apply simulates_ret; [apply advances_nil|]|].
  pose proof (keeps_line w (bool_decide (v = x0d)) (discard_line (ctx w)) _ Hw (wf_escape _ Hw)) as [Hw1 _].
  set (w1 := on_ctx (fun c => with_line (bool_decide (v = x0d)) (discard_line c) (escape_state c) c) w).
  change (wf (ctx w1)) in Hw1.
  assert (advances [] w w1) as Ha1 by (by apply advances_nil).
  assert (line (ctx w) = line (ctx w1)) as El by done.
  assert (escape_state (ctx w1) = escape_state (ctx w) /\ saw_carriage_return (ctx w1) = bool_decide (v = x0d)
          /\ discard_line (ctx w1) = discard_line (ctx w) /\ close_requested (ctx w1) = close_requested (ctx w))
    as (E1&E2&E3&E6) by done.
  assert (command_len (ctx w) = command_len (ctx w1) /\ command (ctx w) = command (ctx w1)) as [E4 E5] by done.
  rewrite El, E4, E5. rewrite <- E1, <- E2, <- E6. clearbody w1. clear El E4 E5.
  rewrite <- E3. destruct (discard_line (ctx w1)) eqn:Hd.
  { destruct (is_eol v).
    - apply simulates_append; [apply (keeps_line w1); [done|apply Hw1]|exact Ha1|done].
    - apply simulates_ret; [done|]. unfold term_of. cbn [snd]. by rewrite Hd. }
  destruct (is_eol v).
  { eapply wp_seq; [by apply execute_line_spec|]. intros tr [ret w2] [Ha Ht]. simpl in *. rewrite Hd in Ht.
    destruct (decide (ret <> 0%Z \/ _)); (split; [|exact Ht]); exact (advances_trans _ _ _ _ _ Ha1 Ha). }
  pose proof (line_empty _ Hw1) as Hle.
  destruct (decide (v = x04)).
  { eapply (wp_seq _ _ (fun _ r => advances (if decide (line (ctx w1) = []) then [] else enter false (line (ctx w1))) w1 r.2
       /\ exists cl, term_of (ctx r.2) = Term (escape_state (ctx w1)) (saw_carriage_return (ctx w1)) false [] cl)).
    - destruct (decide (command_len (ctx w1) <> 0)), (decide (line (ctx w1) = [])) as [Hl|]; try tauto.
      + eapply wp_mono; [by apply execute_line_spec|]. intros tr r [Ha Ht]. split; [done|]. rewrite Ht, Hd. by eexists.
      + simpl. split; [by apply advances_nil|]. unfold term_of. rewrite Hl, Hd. by eexists.
    - intros tr [ret w2] [Ha [cl Ht]]. simpl in *. split; [|injection Ht as ????; unfold term_of; simpl; by f_equal]. exact (advances_trans _ _ _ _ _ Ha1 Ha). }
  destruct (decide (v = x03)).
  { apply simulates_append; [apply (keeps_shorten w1 0); [done|lia]|exact Ha1|]. unfold term_of. simpl. by rewrite Hd. }
  destruct (decide (v = x08 \/ v = x7f)).
  { destruct (decide (command_len (ctx w1) <> 0)), (decide (line (ctx w1) = [])) as [Hl|]; try tauto.
    - apply simulates_append; [apply (keeps_shorten w1 (command_len (ctx w1) - 1)); [done|lia]|exact Ha1|].
      unfold term_of. simpl. rewrite Hd. f_equal. by apply line_shortened.
    - apply simulates_ret; [done|]. unfold term_of. cbn [snd]. by rewrite Hl, Hd. }
  destruct (decide (v = x09)).
  { apply simulates_append; [done..|]. unfold term_of. cbn [snd]. by rewrite Hd. }
  destruct (decide (bval v < 32 \/ 126 < bval v)%Z) as [|Hp].
  { apply simulates_ret; [done|]. unfold term_of. cbn [snd]. by rewrite Hd. }
  rewrite length_line, (wf_command _ Hw1) by done.
  destruct (decide (SHELL_COMMAND_SIZE <= command_len (ctx w1) + 1)).
  - apply simulates_append; [|exact Ha1|done].
    apply (keeps_line (on_ctx (fun c => with_command (command c) 0 c) w1)); [|apply Hw1].
    apply (keeps_shorten w1 0); [done|lia].
  - apply simulates_append; [apply keeps_extend; [done|lia|by apply printable_not_nul]|exact Ha1|].
    unfold term_of. simpl. rewrite Hd. f_equal. destruct Hw1. unfold line. simpl.
    pose proof (take_write_at (command (ctx w1)) (command_len (ctx w1)) [v] ltac:(lia)) as E. simpl in E. by rewrite E.
Qed.

Lemma process_char_spec v w :
  wf (ctx w) -> wp (process_char v w) (fun _ r => simulates (term_step (term_of (ctx w)) v) w r.2).
Proof.
  intros Hw. unfold process_char, term_step. cbv zeta. cbn [term_of t_escape t_cr t_discard t_line t_closed].
  assert (forall e, (0 <= e <= 2)%Z -> keeps w (set_escape e w)) as He by (intros; by apply keeps_line).
  assert (forall w', keeps w w' -> advances [] w w' ->
    wp (if decide (v = x1b) then Ret (Continue, set_escape 1 w') else edit_char v w')
       (fun _ r => simulates (if decide (v = x1b) then (term_of (ctx (set_escape 1 w')), [])
                              else term_edit (term_of (ctx w')) v) w r.2)) as Hplain.
  { intros w' [Hw' _] Ha. destruct (decide (v = x1b)); [by apply simulates_ret|].
    eapply wp_mono; [by apply edit_char_spec|]. intros tr r [Hr Ht]. split; [|done].
    exact (advances_trans _ _ _ _ _ Ha Hr). }
  destruct (decide (escape_state (ctx w) = 1%Z)).
  - destruct (decide (v = _ \/ _)); [by apply simulates_ret; [apply advances_nil|]|].
    apply (Hplain (set_escape 0 w)); [by apply He|by apply advances_nil].
  - destruct (decide (escape_state (ctx w) = 2%Z)); [|apply (Hplain w); [done|by apply advances_nil]].
    destruct (decide (64 <= bval v <= 126)%Z); apply simulates_ret; try done; by apply advances_nil.
Qed.

Lemma process_loop_spec data w :
  wf (ctx w) ->
  wp (process_loop data w) (fun _ r => let '(n, ret, w') := r in
    simulates (term_run (term_of (ctx w)) (take n data)) w w').
Proof.
  revert w. induction data as [|v data IH]; intros w Hw; cbn [process_loop].
  { by apply simulates_ret; [apply advances_nil|]. }
  eapply wp_seq; [apply wp_and; [by apply process_char_spec|by apply process_char_ok]|].
  intros tr [[|ret] w1] [[Ha Ht] (_ & [Hw1 _] & _)]; simpl in Ha, Ht, Hw1.
  - eapply wp_seq; [by apply IH|]. intros tr2 [[n ret] w2] [Ha2 Ht2]. simpl.
    destruct (term_step (term_of (ctx w)) v) as [t e]. simpl in *. subst t.
    destruct (term_run (term_of (ctx w1)) (take n data)) as [t2 es]. simpl in *.
    split; [by eapply advances_trans|done].
  - simpl. destruct (term_step (term_of (ctx w)) v) as [t e]. simpl in *. split; [|done].
    simpl. by rewrite app_nil_r.
Qed.

(** ** What a session keeps track of *)

(** The bytes of the writes the engine accepted. *)
Fixpoint sent (tr : list service_event) : list byte :=
  match tr with
  | [] => []
  | EvWrite _ _ d r :: tr => (if decide (r = 0%Z) then d else []) ++ sent tr
  | EvClose _ _ :: tr => sent tr
  end.

Lemma sent_app a b : sent (a ++ b) = sent a ++ sent b.
Proof. induction a as [|[] a IH]; simpl; rewrite ?IH; by rewrite <- ?app_assoc. Qed.

Lemma sent_quiet tr : quiet tr -> sent tr = [].
Proof. induction 1 as [|[] tr H]; done. Qed.

(** Input waiting to be consumed. *)
Definition pending (c : adb_shell_context) : list byte := take (input_len c) (input_array c).

(** The state of a session after the bytes [received], the bytes [out] sent and
    the commands [log]: some bytes [typed] were consumed, the rest waits or
    came after the end of the session. *)
Definition tracks (received out : list byte) (log : list (cstr * list byte)) (c : adb_shell_context) : Prop :=
  exists typed rest,
    received = typed ++ rest /\ (close_requested c = false -> rest = pending c)
    /\ term_of c = (term_run term_start typed).1
    /\ renders (Show (take SHELL_OUTPUT_SIZE prompt) :: (term_run term_start typed).2) log (out ++ shown c).

(** Carried by a function that adds to the log and sends. *)
Definition carries (received out : list byte) (log : list (cstr * list byte)) (w : work)
    (tr : list service_event) (w' : work) : Prop :=
  truncated (ctx w') = false ->
  truncated (ctx w) = false
  /\ exists added, log_of w' = log_of w ++ added /\ tracks received (out ++ sent tr) (log ++ added) (ctx w').

(** The memmove that drops the consumed input. *)
Lemma shift_array (o : option (list byte)) n len :
  len <= length (default [] o) -> n <= len ->
  take (len - n) (default [] (if decide (len - n <> 0 /\ n <> 0)
                              then (fun a => write_at a 0 (take (len - n) (drop n a))) <$> o else o))
  = drop n (take len (default [] o)).
Proof.
  intros Hlen Hn. assert (drop n (take len (default [] o)) = take (len - n) (drop n (default [] o))) as ->.
  { rewrite take_drop_commute. do 2 f_equal. lia. }
  destruct (decide (len - n <> 0 /\ n <> 0)) as [[Hl Hn0]|Hz].
  - destruct o as [a|]; simpl in *; [|lia]. unfold write_at. simpl.
    rewrite take_app_le by (rewrite length_take, length_drop; lia). by rewrite take_take, Nat.min_id.
  - destruct (decide (n = 0)) as [->|]; [by rewrite drop_0|]. by replace (len - n) with 0 by lia.
Qed.

Lemma process_input_spec received out log w :
  wf (ctx w) -> close_requested (ctx w) = false ->
  (truncated (ctx w) = false -> tracks received out log (ctx w)) ->
  wp (process_interactive_input w) (fun tr r => carries received out log w tr r.2).
Proof.
  intros Hw Hc Htr. unfold process_interactive_input.
  eapply wp_seq; [apply wp_and; [by apply process_loop_spec|by apply process_loop_ok]|].
  intros tr [[n ret] w1] [[Ha Ht] (Hq & [Hw1 (Hst & Hi & Htx & Hin & Hil & _)] & _ & Hn & _)].
  change (take (input_len (ctx w)) (input_array (ctx w))) with (pending (ctx w)) in *.
  cbv beta iota zeta. rewrite Hil.
  set (w2 := on_ctx _ w1).
  assert (wp (Ret (ret, if close_requested (ctx w2) then on_ctx (fun c => with_input (input c) 0 c) w2 else w2))
    (fun tr' r => carries received out log w (tr ++ tr') r.2)); [|done].
  destruct (input_array_ok _ Hw) as [Hlen _].
  assert (length (pending (ctx w)) = input_len (ctx w)) as Hpl by (unfold pending; rewrite length_take; lia).
  assert (log_of w2 = log_of w1 /\ shown (ctx w2) = shown (ctx w1) /\ truncated (ctx w2) = truncated (ctx w1)
    /\ term_of (ctx w2) = term_of (ctx w1) /\ pending (ctx w2) = drop n (pending (ctx w))) as (E1&E2&E3&E4&E5).
  { split_and!; try done. unfold w2, pending, input_array, on_ctx. cbn [ctx input input_len with_input]. rewrite Hin.
    apply shift_array; [done|]. rewrite <- Hpl. exact Hn. }
  clearbody w2. simpl. rewrite app_nil_r.
  set (w3 := if close_requested (ctx w2) then _ else w2).
  assert (log_of w3 = log_of w1 /\ shown (ctx w3) = shown (ctx w1) /\ truncated (ctx w3) = truncated (ctx w1)
    /\ term_of (ctx w3) = term_of (ctx w1) /\ (close_requested (ctx w3) = false -> pending (ctx w3) = drop n (pending (ctx w))))
    as (F1&F2&F3&F4&F5).
  { unfold w3. destruct (close_requested (ctx w2)) eqn:Hc2; [|by split_and!].
    split_and!; [done..|]. simpl. congruence. }
  clearbody w3. intros Htr3. rewrite F3 in Htr3. destruct (Ha Htr3) as (Ht0 & added & o & El & Eo & R).
  split; [done|]. exists added. split; [congruence|].
  destruct (Htr Ht0) as (typed & rest & -> & Hrest & Hterm & Hr). specialize (Hrest Hc).
  exists (typed ++ take n (pending (ctx w))), (drop n (pending (ctx w))).
  rewrite term_run_app. cbn [fst snd]. rewrite <- Hterm. split_and!.
  - by rewrite <- app_assoc, take_drop, Hrest.
  - intros H3. by rewrite F5.
  - by rewrite F4.
  - rewrite F2, Eo, sent_quiet, app_nil_r, app_assoc by done.
    rewrite app_comm_cons. by apply renders_app.
Qed.

(** Sending moves bytes from the output buffer to the stream. *)
Lemma queue_spec w :
  wf (ctx w) -> interactive (ctx w) = true ->
  wp (queue_next_chunk w) (fun tr r =>
    log_of r.2 = log_of w /\ truncated (ctx r.2) = truncated (ctx w) /\ term_of (ctx r.2) = term_of (ctx w)
    /\ pending (ctx r.2) = pending (ctx w) /\ shown (ctx w) = sent tr ++ shown (ctx r.2)).
Proof.
  intros [] Hi. unfold queue_next_chunk. cbv zeta. rewrite Hi.
  destruct (tx_in_flight (ctx w)); [done|]. destruct (decide (output_len (ctx w) = 0)); [done|].
  simpl. intros limit r. set (k := output_len (ctx w) `min` limit).
  destruct (decide (r = 0%Z)) as [->|Hr]; simpl; [|done].
  split_and!; [done..|]. rewrite app_nil_r. unfold shown. simpl. unfold write_at. simpl.
  rewrite take_app_le by (rewrite length_take, length_drop; lia). rewrite take_take, Nat.min_id.
  rewrite take_drop_commute. replace (k + (output_len (ctx w) - k)) with (output_len (ctx w)) by lia.
  rewrite <- (take_drop k (take (output_len (ctx w)) (output (ctx w)))) at 1. f_equal. rewrite take_take. f_equal. lia.
Qed.

Lemma resume_spec received out log b w :
  wf (ctx w) -> interactive (ctx w) = true -> (b = true -> close_requested (ctx w) = false) ->
  (truncated (ctx w) = false -> tracks received out log (ctx w)) ->
  wp (resume b w) (fun tr r => carries received out log w tr r.2).
Proof.
  intros Hw Hi Hc Htr. unfold resume.
  eapply (wp_seq _ _ (fun tr r => carries received out log w tr r.2 /\ r.1 = 0%Z /\ wf (ctx r.2) /\ interactive (ctx r.2) = true)).
  { destruct b.
    - eapply wp_mono; [apply wp_and; [by apply process_input_spec; auto|by apply process_input_ok]|].
      intros tr r [? (?&?&?&[? ?]&?)]. split_and!; [done..|congruence].
    - simpl. split_and!; [|done..]. intros Ht. split; [done|]. exists []. rewrite !app_nil_r. auto. }
  intros tr1 [ret w1] (Hcar & Hr & Hw1 & Hi1). simpl in *. subst ret. rewrite decide_True by done.
  eapply wp_mono; [by apply queue_spec|]. intros tr2 [ret w2] (El & Et & Ete & Ep & Es). simpl in *.
  intros Htr2. rewrite Et in Htr2. destruct (Hcar Htr2) as (Ht0 & added & El1 & typed & rest & Hrec & Hrest & Hterm & R).
  split; [done|]. exists added. split; [congruence|]. exists typed, rest. split_and!; [done| |congruence|].
  - intros Hcl. rewrite Ep. apply Hrest. unfold term_of in Ete. congruence.
  - by rewrite sent_app, <- !app_assoc, <- Es, app_assoc.
Qed.

Lemma start_interactive_spec i w w' :
  ctx w = fresh_context i -> start_interactive w = Some w' -> tracks [] [] [] (ctx w') /\ log_of w' = log_of w.
Proof.
  intros Hc. unfold start_interactive, log_of. simpl. destruct (@sx_malloc X (exec w).1) as [[] x]; [|done].
  intros [= <-]. rewrite Hc. simpl. split; [|done]. exists [], []. split_and!; [done..|].
  rewrite length_replicate. unfold shown, write_at. simpl.
  rewrite take_app_le by (rewrite length_take; lia). rewrite take_take, Nat.min_id.
  replace (take (length prompt `min` SHELL_OUTPUT_SIZE) prompt) with (take SHELL_OUTPUT_SIZE prompt).
  - rewrite <- (app_nil_r (take _ prompt)) at 2. repeat constructor.
  - rewrite <- take_take. symmetry. apply take_ge. rewrite length_take. lia.
Qed.

(** ** Sessions *)

(** One call of a callback for stream [j]. *)
Inductive call (j : nat) (s s' : shell) : Prop :=
| call_open suffix tr r : outcome (adb_shell_open j suffix s) tr (r, s') -> call j s s'
| call_write data tr r : outcome (adb_shell_write j data s) tr (r, s') -> call j s s'
| call_ready tr : outcome (adb_shell_tx_ready j s) tr s' -> call j s s'
| call_close : s' = adb_shell_close j s -> call j s s'.

(** A session on stream [i] that has received [received], sent [out] and run
    the commands [log], each with its output.  The engine writes to a session
    that is not closing, and closes the stream of one whose write or send
    failed; other streams are served in between. *)
Inductive session (x : sx) (i : nat) : shell -> list byte -> list byte -> list (cstr * list byte) -> Prop :=
| session_open s tr s' :
    shell_reachable x s -> find_context i s = None -> outcome (adb_shell_open i [] s) tr (0%Z, s') ->
    session x i s' [] (sent tr) []
| session_write s received out log n data tr s' added :
    session x i s received out log -> find_context i s = Some n -> close_requested (ctx (load n s)) = false ->
    outcome (adb_shell_write i data s) tr (0%Z, s') -> (executor s').2 = (executor s).2 ++ added ->
    session x i s' (received ++ data) (out ++ sent tr) (log ++ added)
| session_ready s received out log tr s' added :
    session x i s received out log -> outcome (adb_shell_tx_ready i s) tr s' -> accepted tr ->
    (executor s').2 = (executor s).2 ++ added ->
    session x i s' received (out ++ sent tr) (log ++ added)
| session_other s received out log j s' :
    session x i s received out log -> j <> i -> call j s s' ->
    session x i s' received out log.

Lemma call_step j s s' : call j s s' -> shell_step s s'.
Proof. destruct 1; subst; eauto using shell_step. Qed.

Lemma session_reachable x i s received out log : session x i s received out log -> shell_reachable x s.
Proof.
  induction 1 as [s tr s' Hr _ Ho|s received out log n data tr s' added _ IH _ _ Ho _
                 |s received out log tr s' added _ IH Ho _ _|s received out log j s' _ IH _ Hcall].
  - eapply reach_step; [done|by econstructor].
  - eapply reach_step; [done|by econstructor].
  - eapply reach_step; [done|by econstructor].
  - eapply reach_step; [done|by eapply call_step].
Qed.

(** The state of a session in the service. *)
Definition in_session (i : nat) (s : shell) (received out : list byte) (log : list (cstr * list byte)) : Prop :=
  exists n, find_context i s = Some n /\ interactive (ctx (load n s)) = true /\ settled (ctx (load n s))
    /\ (truncated (ctx (load n s)) = false -> tracks received out log (ctx (load n s))).

Lemma find_insert i n c l :
  context_index (Some i) l = None -> context_index None l = Some n -> stream c = Some i ->
  context_index (Some i) (<[n := c]> l) = Some n.
Proof.
  revert n. induction l as [|c' l IH]; intros n; simpl; [done|].
  destruct (decide (stream c' = Some i)); [done|]. destruct (context_index (Some i) l) eqn:E; [done|].
  destruct (decide (stream c' = None)); [intros _ [= <-] Hc; simpl; by rewrite decide_True|].
  destruct (context_index None l) as [k|]; [|done]. intros _ [= <-] Hc. simpl.
  rewrite decide_False by done. by rewrite (IH k).
Qed.

Lemma open_session i s :
  contexts_ok s -> find_context i s = None ->
  wp (adb_shell_open i [] s) (fun tr r => r.1 = 0%Z -> in_session i r.2 [] (sent tr) []).
Proof.
  intros Hs Hf. unfold adb_shell_open. destruct (decide (_ \/ _)) as [|Hb1]; [done|]. destruct (decide (_ /\ _)) as [|Hb2]; [done|].
  destruct (allocate_context i s) as [[n s1]|] eqn:Ea; [|done].
  destruct (allocate_ok _ _ _ _ Hs Ea) as [Hs1 Hc]. cbv zeta. unfold first_output. rewrite decide_True by done.
  destruct (start_interactive (load n s1)) as [w|] eqn:Ew; [|done].
  destruct (start_interactive_spec _ _ _ Hc Ew) as [Htr Hl].
  assert (wf (ctx (load n s1))) as Hw0 by (rewrite Hc; apply fresh_context_wf).
  destruct (start_interactive_ok _ _ Hw0 ltac:(by rewrite Hc) Ew) as (Hw & Hst & Hi).
  eapply wp_seq; [apply wp_and; [by apply queue_spec|by apply queue_ok]|].
  intros tr [ret w2] [(El & Et & Ete & Ep & Es) (Hw2 & [[Hst2 Hi2] [Hcl [_ Hil]]] & Hacc & _ & Hout & _ & Hset)].
  simpl in *. rewrite app_nil_r. intros ->. rewrite decide_False by (intros Hx; by apply Hx).
  assert (n < length (contexts s1)) as Hn.
  { unfold allocate_context in Ea. destruct (context_index None (contexts s)) as [m|] eqn:E; [|done].
    injection Ea as -> <-. simpl. rewrite length_insert. by apply shell_index_lt in E as [? _]. }
  exists n. rewrite load_stored by done. split_and!; [|congruence| |].
  - unfold find_context, store. simpl. unfold allocate_context in Ea.
    destruct (context_index None (contexts s)) as [m|] eqn:E; [|done]. injection Ea as -> <-. simpl.
    rewrite list_insert_insert_eq. apply find_insert; [done..|]. rewrite Hst2, Hst, Hc. done.
  - intros _ _ [Hz|Hz]; [|by apply Hset; [congruence|apply Hout; congruence|]].
    exfalso. apply Hz. rewrite Hil. destruct Htr as (typed & rest & Hnil & Hrest & _).
    unfold start_interactive in Ew. destruct (sx_malloc _) as [[] ?]; [|done]. by injection Ew as <-.
  - intros _. destruct Htr as (typed & rest & Hnil & Hrest & Hterm & R). exists typed, rest.
    rewrite Ep, Hcl, Ete. split_and!; try done. simpl in R. by rewrite <- Es.
Qed.

Lemma write_session i data s n received out log :
  contexts_ok s -> find_context i s = Some n -> interactive (ctx (load n s)) = true ->
  close_requested (ctx (load n s)) = false ->
  (truncated (ctx (load n s)) = false -> tracks received out log (ctx (load n s))) ->
  wp (adb_shell_write i data s) (fun tr r =>
    r.1 = 0%Z -> carries (received ++ data) out log (load n s) tr (load n r.2)).
Proof.
  intros Hs Hf Hi Hc Htr. unfold adb_shell_write. rewrite Hf. cbv zeta. rewrite Hi. simpl negb. cbv iota.
  destruct (decide (_ < length data)) as [|Hroom]; [done|].
  pose proof (load_wf n s Hs) as Hw.
  destruct (receive_ok data (load n s) Hw Hi ltac:(lia)) as [Hw1 Ep]. set (w1 := receive data (load n s)) in *.
  change (pending (ctx w1) = pending (ctx (load n s)) ++ data) in Ep.
  assert (truncated (ctx w1) = false -> tracks (received ++ data) out log (ctx w1)) as Htr1.
  { intros Ht. destruct (Htr Ht) as (typed & rest & -> & Hrest & Hterm & R). exists typed, (rest ++ data).
    split_and!; [by rewrite <- app_assoc| |done|done]. intros _. rewrite Ep. f_equal. by apply Hrest. }
  eapply wp_seq; [apply resume_spec; [exact Hw1|exact Hi|by intros _|exact Htr1]|].
  intros tr [ret w2] Hcar. simpl. rewrite app_nil_r. intros _.
  apply shell_index_lt in Hf as [Hlt _]. rewrite load_stored by done. exact Hcar.
Qed.

Lemma ready_session i s n received out log :
  contexts_ok s -> find_context i s = Some n -> interactive (ctx (load n s)) = true ->
  (truncated (ctx (load n s)) = false -> tracks received out log (ctx (load n s))) ->
  wp (adb_shell_tx_ready i s) (fun tr r => carries received out log (load n s) tr (load n r)).
Proof.
  intros Hs Hf Hi Htr. unfold adb_shell_tx_ready. rewrite Hf. cbv zeta.
  pose proof (load_wf n s Hs) as Hw. set (w1 := set_tx false (load n s)).
  assert (wf (ctx w1)) as Hw1 by (destruct Hw; by constructor).
  eapply wp_seq; [apply (resume_spec received out log _ w1 Hw1); [exact Hi|by intros (_&_&_&?)%bool_decide_eq_true|exact Htr]|].
  intros tr [ret w2] Hcar. simpl. apply shell_index_lt in Hf as [Hlt _].
  assert (forall tr', sent tr' = [] -> carries received out log (load n s) (tr ++ tr') (load n (store n s w2))) as Hdone.
  { intros tr' Hnil. rewrite load_stored by done. unfold carries in *. rewrite sent_app, Hnil, app_nil_r. exact Hcar. }
  destruct (decide (ret <> 0%Z)); simpl; by apply Hdone.
Qed.

(** ** Other streams *)

Definition only (j : nat) (s s' : shell) : Prop :=
  forall i, i <> j -> find_context i s' = find_context i s
    /\ forall n, find_context i s = Some n -> contexts s' !! n = contexts s !! n.

Lemma only_trans j s1 s2 s3 : only j s1 s2 -> only j s2 s3 -> only j s1 s3.
Proof.
  intros H1 H2 i Hi. destruct (H1 i Hi) as [E1 F1], (H2 i Hi) as [E2 F2]. split; [congruence|].
  intros n Hn. rewrite F2, F1; [done..|]. congruence.
Qed.

Lemma index_insert st n c c' l :
  l !! n = Some c -> stream c <> st -> stream c' <> st -> context_index st (<[n := c']> l) = context_index st l.
Proof.
  revert n. induction l as [|d l IH]; intros [|n] Hl H1 H2; simpl in *; try done.
  - injection Hl as ->. by rewrite !decide_False by done.
  - case_decide; [done|]. by rewrite (IH n).
Qed.

Lemma store_only j n s w c :
  contexts s !! n = Some c -> stream c = Some j \/ stream c = None -> stream (ctx w) = Some j \/ stream (ctx w) = None ->
  only j s (store n s w).
Proof.
  intros Hc Hs Hw i Hi. split.
  - unfold find_context, store. simpl. apply index_insert with (c := c); [done|naive_solver..].
  - intros m (Hm & d & Hd & Hst)%shell_index_lt. unfold store. simpl.
    rewrite list_lookup_insert_ne; [done|]. intros ->. naive_solver.
Qed.

Lemma resume_stream b w : wf (ctx w) -> wp (resume b w) (fun _ r => stream (ctx r.2) = stream (ctx w)).
Proof.
  intros Hw. unfold resume. eapply (wp_seq _ _ (fun _ r => wf (ctx r.2) /\ stream (ctx r.2) = stream (ctx w))).
  - destruct b; [|done]. eapply wp_mono; [by apply process_input_ok|]. intros tr r (_&_&?&[? _]&_). done.
  - intros tr [ret w1] [Hw1 Hs1]. simpl in *. destruct (decide (ret = 0%Z)); [|done].
    eapply wp_mono; [by apply queue_ok|]. intros tr' r (_&[[? _] _]&_). congruence.
Qed.

Lemma open_only j suffix s : contexts_ok s -> wp (adb_shell_open j suffix s) (fun _ r => only j s r.2).
Proof.
  intros Hs. unfold adb_shell_open. destruct (decide (_ \/ _)) as [|Hb1]; [done|].
  destruct (decide (suffix <> [] /\ _)) as [|Hb2]; [done|].
  destruct (allocate_context j s) as [[n s1]|] eqn:Ea; [|done].
  destruct (allocate_ok _ _ _ _ Hs Ea) as [Hs1 Hc]. cbv zeta.
  assert (only j s s1 /\ contexts s1 !! n = Some (ctx (load n s1))) as [Ho1 Hn1].
  { unfold allocate_context in Ea. destruct (context_index None (contexts s)) as [m|] eqn:E; [|done].
    injection Ea as -> <-. apply shell_index_lt in E as (Hlt & c & Hcl & Hst). split.
    - apply (store_only j n s (Work (fresh_context j) (executor s)) c); auto.
    - unfold load. simpl. by rewrite list_lookup_insert_eq by done. }
  assert (forall w, stream (ctx w) = Some j \/ stream (ctx w) = None -> only j s (store n s1 w)) as Hstore.
  { intros w Hw. eapply only_trans; [exact Ho1|]. apply (store_only j n s1 w (ctx (load n s1))); [done| |done].
    rewrite Hc. by left. }
  destruct (first_output suffix (load n s1)) as [w|] eqn:Ef; [|apply Hstore; by right].
  destruct (first_output_ok _ _ _ _ Hc Ef) as [Hw Hst]. eapply wp_seq; [by apply queue_ok|].
  intros tr [ret w2] (_&[[Hst2 _] _]&_). simpl in *. apply Hstore. case_decide; [by right|]. left. congruence.
Qed.

Lemma write_only j data s : contexts_ok s -> wp (adb_shell_write j data s) (fun _ r => only j s r.2).
Proof.
  intros Hs. unfold adb_shell_write. destruct (find_context j s) as [n|] eqn:Hf; [|done]. cbv zeta.
  destruct (find_load _ _ _ Hf) as [Hst Hl]. destruct (interactive (ctx (load n s))) eqn:Hi; [|done]. simpl negb. cbv iota.
  destruct (decide (_ < length data)) as [|Hroom]; [done|].
  destruct (receive_ok data (load n s) (load_wf n s Hs) Hi ltac:(lia)) as [Hw1 _].
  eapply wp_seq; [by apply resume_stream|]. intros tr [ret w2] E. simpl.
  apply (store_only j n s w2 (ctx (load n s))); [done|by left|]. left. exact (eq_trans E Hst).
Qed.

Lemma ready_only j s : contexts_ok s -> wp (adb_shell_tx_ready j s) (fun _ r => only j s r).
Proof.
  intros Hs. unfold adb_shell_tx_ready. destruct (find_context j s) as [n|] eqn:Hf; [|done]. cbv zeta.
  destruct (find_load _ _ _ Hf) as [Hst Hl]. pose proof (load_wf n s Hs) as Hw. set (w1 := set_tx false (load n s)).
  assert (wf (ctx w1)) as Hw1 by (destruct Hw; by constructor).
  eapply wp_seq; [by apply resume_stream|]. intros tr [ret w2] E.
  assert (only j s (store n s w2)) as Ho.
  { apply (store_only j n s w2 (ctx (load n s))); [done|by left|]. left. exact (eq_trans E Hst). }
  simpl. case_decide; exact Ho.
Qed.

Lemma close_only j s : only j s (adb_shell_close j s).
Proof.
  unfold adb_shell_close. destruct (find_context j s) as [n|] eqn:Hf; [|done]. cbv zeta.
  destruct (find_load _ _ _ Hf) as [Hst Hl]. apply (store_only j n s _ (ctx (load n s))); [done|by left|by right].
Qed.

Lemma call_only j s s' : contexts_ok s -> call j s s' -> only j s s'.
Proof.
  intros Hs. destruct 1 as [suffix tr r Ho|data tr r Ho|tr Ho| ->].
  - by apply (proj1 (wp_outcome _ _) (open_only j suffix s Hs)) in Ho.
  - by apply (proj1 (wp_outcome _ _) (write_only j data s Hs)) in Ho.
  - by apply (proj1 (wp_outcome _ _) (ready_only j s Hs)) in Ho.
  - apply close_only.
Qed.

(** ** The invariant of a session *)

(** The bookkeeping of one step. *)
Lemma carries_step received out log n s tr s' added :
  carries received out log (load n s) tr (load n s') -> (executor s').2 = (executor s).2 ++ added ->
  truncated (ctx (load n s')) = false -> tracks received (out ++ sent tr) (log ++ added) (ctx (load n s')).
Proof.
  intros Hcar Hadd Ht. destruct (Hcar Ht) as (_ & added' & Hlog & Htr).
  unfold log_of, load in Hlog. simpl in Hlog. rewrite Hadd in Hlog. by apply app_inv_head in Hlog as ->.
Qed.

Lemma session_inv x i s received out log : session x i s received out log -> in_session i s received out log.
Proof.
  induction 1 as [s tr s' Hr Hf Ho|s received out log n data tr s' added Hs IH Hf Hc Ho Hadd
                 |s received out log tr s' added Hs IH Ho Hacc Hadd|s received out log j s' Hs IH Hj Hcall].
  - apply shell_reachable_ok in Hr. by apply (proj1 (wp_outcome _ _) (open_session i s Hr Hf)) in Ho; [apply Ho|].
  - apply session_reachable, shell_reachable_ok in Hs. destruct IH as (m & Hm & Hi & Hset & Htr).
    assert (m = n) as -> by congruence.
    pose proof (proj1 (wp_outcome _ _) (wp_and _ _ _ (shell_write_ok i data s Hs)
      (write_session i data s n received out log Hs Hf Hi Hc Htr)) _ _ Ho) as [[[_ Hsv] Hacc] Hcar].
    destruct (Hsv n Hf) as (Hf' & Hi' & Hset'). exists n. simpl in *. split_and!; [done|congruence|auto|].
    by apply carries_step with (s := s); [apply Hcar|].
  - apply session_reachable, shell_reachable_ok in Hs. destruct IH as (n & Hf & Hi & Hset & Htr).
    pose proof (proj1 (wp_outcome _ _) (wp_and _ _ _ (shell_tx_ready_ok i s Hs)
      (ready_session i s n received out log Hs Hf Hi Htr)) _ _ Ho) as [[_ Hsv] Hcar].
    destruct (Hsv n Hf) as (Hf' & Hi' & Hset'). exists n. simpl in *. split_and!; [done|congruence|auto|].
    by apply carries_step with (s := s).
  - apply session_reachable, shell_reachable_ok in Hs. destruct IH as (n & Hf & Hi & Hset & Htr).
    destruct (call_only j s s' Hs Hcall i ltac:(congruence)) as [Ef El]. specialize (El n Hf).
    assert (ctx (load n s') = ctx (load n s)) as E by (unfold load; simpl; by rewrite El).
    exists n. rewrite E. split_and!; [congruence|done..].
Qed.

(** C22: an interactive session renders the terminal.  However the client's bytes
    are cut into writes, whenever acknowledgements arrive and whatever other
    streams do: if nothing had to be cut off, what was sent and what is waiting
    to be sent is the prompt followed by what the terminal shows for the bytes
    consumed, with the output of each command in its place; and until the
    session closes, the bytes received are those consumed and those waiting. *)
Theorem shell_session_refines x i s received out log :
  session x i s received out log ->
  exists n, find_context i s = Some n /\ (truncated (ctx (load n s)) = false ->
    exists typed rest, received = typed ++ rest
      /\ (close_requested (ctx (load n s)) = false ->
          rest = take (input_len (ctx (load n s))) (input_array (ctx (load n s))))
      /\ renders (Show (take SHELL_OUTPUT_SIZE prompt) :: (term_run term_start typed).2) log
           (out ++ take (output_len (ctx (load n s))) (output (ctx (load n s))))).
Proof.
  intros Hs. apply session_inv in Hs as (n & Hf & _ & _ & Htr). exists n. split; [done|]. intros Ht.
  destruct (Htr Ht) as (typed & rest & E & Hrest & _ & R). by exists typed, rest.
Qed.

(** No lost wake-up.  In every state of an open session in which input waits
    to be processed or output to be sent, a packet is in flight, so its
    acknowledgement will resume the session. *)
Theorem shell_never_stalls x i s received out log n :
  session x i s received out log -> find_context i s = Some n -> close_requested (ctx (load n s)) = false ->
  input_len (ctx (load n s)) <> 0 \/ output_len (ctx (load n s)) <> 0 ->
  tx_in_flight (ctx (load n s)) = true.
Proof.
  intros Hs Hf Hc Hp. apply session_inv in Hs as (m & Hm & Hi & Hset & _).
  assert (m = n) as -> by congruence. by apply Hset.
Qed.

(** ** Lines *)

Lemma step_closed t v : t_closed t = true -> t_closed (term_step t v).1 = true.
Proof.
  intros Hc. unfold term_step, term_edit.
  repeat (case_match; simpl; try done); simplify_eq; simpl in *; by rewrite ?Hc.
Qed.

Lemma run_closed t typed : t_closed t = true -> t_closed (term_run t typed).1 = true.
Proof.
  revert t. induction typed as [|v typed IH]; intros t Hc; [done|]. simpl.
  pose proof (step_closed t v Hc) as H1. destruct (term_step t v) as [t1 e]. simpl in H1. specialize (IH _ H1).
  revert IH. by destruct (term_run t1 typed).
Qed.

Definition printable (v : byte) : Prop := (32 <= bval v <= 126)%Z.

Lemma step_printable cr l c v :
  printable v -> length l + 1 < SHELL_COMMAND_SIZE ->
  term_step (Term 0 cr false l c) v = (Term 0 false false (l ++ [v]) c, [Show [v]]).
Proof.
  intros Hv Hl. assert (forall b, (bval b < 32 \/ 126 < bval b)%Z -> v <> b) as Hne by (intros b Hb ->; unfold printable in Hv; lia).
  unfold term_step, term_edit. simpl.
  assert (v <> x1b /\ v <> x0a /\ v <> x0d /\ v <> x04 /\ v <> x03 /\ v <> x08 /\ v <> x7f /\ v <> x09)
    as (?&?&?&?&?&?&?&?) by (split_and!; apply Hne; vm_compute; intuition discriminate).
  unfold is_eol. rewrite !bool_decide_false by naive_solver. rewrite !decide_False by (naive_solver lia || (unfold printable in Hv; lia)).
  done.
Qed.

Lemma run_printable cr l text c :
  Forall printable text -> length l + length text < SHELL_COMMAND_SIZE ->
  term_run (Term 0 cr false l c) text
  = (Term 0 (match text with [] => cr | _ => false end) false (l ++ text) c, map (fun v => Show [v]) text).
Proof.
  intros Hp. revert cr l. induction Hp as [|v text Hv _ IH]; intros cr l Hl; simpl; [by rewrite app_nil_r|].
  simpl in Hl. rewrite step_printable by (done || lia). rewrite IH by (rewrite length_app; simpl; lia).
  rewrite <- app_assoc. simpl. by destruct text.
Qed.

Lemma step_eol v cr l c :
  v = x0d \/ v = x0a /\ cr = false ->
  term_step (Term 0 cr false l c) v
  = (Term 0 (bool_decide (v = x0d)) false [] (c || bool_decide (l = cs "exit")), enter true l).
Proof.
  intros Hv. unfold term_step, term_edit, is_eol. cbn [t_escape t_cr t_discard t_line t_closed].
  rewrite (decide_False (P := 0%Z = 1%Z)), (decide_False (P := 0%Z = 2%Z)) by done.
  rewrite (decide_False (P := v = x1b)) by naive_solver.
  rewrite (decide_False (P := v = x0a /\ cr = true)) by naive_solver. by rewrite (bool_decide_true (v = x0d \/ v = x0a)) by naive_solver.
Qed.

(** The newline of a carriage return is dropped. *)
Lemma step_newline l c : term_step (Term 0 true false l c) x0a = (Term 0 false false l c, []).
Proof. done. Qed.

(** The ways to end a line. *)
Definition eol (e : list byte) : Prop := e = [x0d] \/ e = [x0a] \/ e = crlf.

(** A line the editor takes as it is. *)
Definition plain_line (l : list byte) : Prop :=
  Forall printable l /\ length l < SHELL_COMMAND_SIZE /\ l <> cs "exit".

Lemma run_line e cr l :
  eol e -> (cr = true -> e = [x0d]) -> plain_line l ->
  exists events,
    term_run (Term 0 cr false [] false) (l ++ e) = (Term 0 (bool_decide (e = [x0d])) false [] false, events)
    /\ commands events = (if decide (l = []) then [] else [l]).
Proof.
  intros He Hcr (Hp & Hlen & Hx). rewrite term_run_app, run_printable by done. cbn [fst snd].
  set (cr' := match l with [] => cr | _ => false end).
  assert (cr' = true -> e = [x0d]) as Hcr' by (unfold cr'; by destruct l).
  assert (commands (map (fun v => Show [v]) l) = []) as Hm.
  { clear. induction l as [|v l IH]; [done|]. exact IH. }
  assert (forall es, commands (map (fun v => Show [v]) l ++ es) = commands es) as Hc.
  { intros es. unfold commands in *. rewrite omap_app, Hm. done. }
  assert (commands (enter true l) = (if decide (l = []) then [] else [l])) as Hent.
  { unfold enter. rewrite decide_False by done. by case_decide. }
  assert (bool_decide (l = cs "exit") = false) as Hex by (by rewrite bool_decide_false).
  clearbody cr'. cbn [app term_run]. destruct He as [->|[->| ->]]; cbn [term_run crlf].
  - rewrite step_eol, Hex by auto. eexists. split; [done|]. by rewrite app_nil_r, Hc.
  - rewrite step_eol, Hex by (right; split; [done|]; destruct cr'; [by specialize (Hcr' eq_refl)|done]).
    eexists. split; [done|]. by rewrite app_nil_r, Hc.
  - rewrite step_eol, Hex, bool_decide_true, step_newline by auto. eexists. split; [done|]. by rewrite !app_nil_r, Hc.
Qed.

(** The bytes of a list of lines. *)
Definition typed_lines (e : list byte) (lines : list (list byte)) : list byte := concat (map (fun l => l ++ e) lines).

Lemma run_lines e cr lines :
  eol e -> (cr = true -> e = [x0d]) -> Forall plain_line lines ->
  commands (term_run (Term 0 cr false [] false) (typed_lines e lines)).2 = filter (fun l => l <> []) lines
  /\ t_closed (term_run (Term 0 cr false [] false) (typed_lines e lines)).1 = false.
Proof.
  intros He Hcr Hl. revert cr Hcr. induction Hl as [|l lines Hl _ IH]; intros cr Hcr; [done|].
  unfold typed_lines. cbn [map concat]. fold (typed_lines e lines). rewrite term_run_app.
  destruct (run_line e cr l He Hcr Hl) as (events & -> & Hev). cbn [fst snd].
  destruct (IH (bool_decide (e = [x0d]))) as [IH1 IH2]; [by intros ?%bool_decide_eq_true|].
  split; [|done]. unfold commands in *. rewrite omap_app, Hev, IH1, filter_cons.
  destruct (decide (l = [])) as [->|]; [by rewrite decide_False by naive_solver|by rewrite decide_True].
Qed.

(** A session runs the lines that were typed.  For any lines of printable
    characters that fit the command buffer, ended by a carriage return, a
    newline or both, cut into writes anywhere: once the input is consumed, and
    if nothing was cut off, the commands run are the non-empty lines in order. *)
Theorem shell_runs_lines x i s e lines out log n :
  session x i s (typed_lines e lines) out log -> eol e -> Forall plain_line lines ->
  find_context i s = Some n -> truncated (ctx (load n s)) = false -> input_len (ctx (load n s)) = 0 ->
  map fst log = filter (fun l => l <> []) lines.
Proof.
  intros Hs He Hl Hf Ht Hin. apply session_inv in Hs as (m & Hm & _ & _ & Htr). assert (m = n) as -> by congruence.
  destruct (Htr Ht) as (typed & rest & E & Hrest & Hterm & R).
  destruct (run_lines e false lines He ltac:(done) Hl) as [Hc Hcl].
  change (Term 0 false false [] false) with term_start in Hc, Hcl.
  assert (close_requested (ctx (load n s)) = false) as Hopen.
  { apply not_true_iff_false. intros Hclosed. rewrite E, term_run_app in Hcl. cbn [fst] in Hcl.
    rewrite run_closed in Hcl; [done|]. by rewrite <- Hterm. }
  assert (rest = []) as -> by (rewrite Hrest by done; unfold pending; by rewrite Hin).
  rewrite app_nil_r in E. subst typed. apply renders_commands in R. rewrite R. unfold commands. csimpl.
  exact Hc.
Qed.

(** Building a session by running the callbacks. *)
Lemma session_exec_open x i s out :
  shell_reachable x s -> find_context i s = None -> (AdbService.exec 64 (adb_shell_open i [] s)).2.1 = 0%Z ->
  sent (AdbService.exec 64 (adb_shell_open i [] s)).1 = out ->
  session x i (AdbService.exec 64 (adb_shell_open i [] s)).2.2 [] out [].
Proof.
  intros Hr Hf H0 <-. eapply session_open; [done|done|]. rewrite <- H0, <- surjective_pairing. apply outcome_exec.
Qed.

Lemma session_exec_write x i s received out log n data received' out' log' added :
  session x i s received out log -> find_context i s = Some n -> close_requested (ctx (load n s)) = false ->
  (AdbService.exec 64 (adb_shell_write i data s)).2.1 = 0%Z ->
  (executor (AdbService.exec 64 (adb_shell_write i data s)).2.2).2 = (executor s).2 ++ added ->
  received ++ data = received' -> out ++ sent (AdbService.exec 64 (adb_shell_write i data s)).1 = out' ->
  log ++ added = log' ->
  session x i (AdbService.exec 64 (adb_shell_write i data s)).2.2 received' out' log'.
Proof.
  intros Hs Hf Hc H0 Hadd <- <- <-. eapply session_write; [done|done|done| |done].
  rewrite <- H0, <- surjective_pairing. apply outcome_exec.
Qed.

Lemma session_exec_ready x i s received out log out' log' added :
  session x i s received out log -> accepted (AdbService.exec 64 (adb_shell_tx_ready i s)).1 ->
  (executor (AdbService.exec 64 (adb_shell_tx_ready i s)).2).2 = (executor s).2 ++ added ->
  out ++ sent (AdbService.exec 64 (adb_shell_tx_ready i s)).1 = out' -> log ++ added = log' ->
  session x i (AdbService.exec 64 (adb_shell_tx_ready i s)).2 received out' log'.
Proof. intros Hs Hacc Hadd <- <-. eapply session_ready; [done|apply outcome_exec|done|done]. Qed.
End refinement.

(** ** A session *)

Section demo.

#[local] Instance demo_shell : ShellConfig.
Proof. refine {| SHELL_COMMAND_SIZE := 32; SHELL_OUTPUT_SIZE := 128; SHELL_INPUT_SIZE := 32; SHELL_MAX_STREAMS := 1;
                 SHELL_PROMPT_DUMMY := cs "~$ " |}; lia. Defined.

(** An executor that prints the command. *)
Definition demo_executor : ShellExec := {|
  sx := unit;
  webos_shell_execute c n s :=
    if decide (n = 0) then (Result (- EINVAL) None, s)
    else (Result 0 (Some (take (n - 1) c, bool_decide (n - 1 < length c))), s);
  webos_shell_clear_output s := s;
  sx_malloc s := (true, s);
|}.

Lemma demo_laws : ShellExecLaws demo_executor.
Proof.
  constructor. intros c n s out t. simpl. case_decide; [done|]. simpl. intros [= <- _]. rewrite length_take. lia.
Qed.

#[local] Instance demo_recorded : ShellExec := recorded demo_executor.

Definition demo_0 : shell := shell_init ((), []).
Definition demo_1 : shell := (AdbService.exec 64 (adb_shell_open 5 [] demo_0)).2.2.
Definition demo_2 : shell := (AdbService.exec 64 (adb_shell_tx_ready 5 demo_1)).2.
Definition demo_3 : shell := (AdbService.exec 64 (adb_shell_write 5 (cs "fs l") demo_2)).2.2.
Definition demo_4 : shell := (AdbService.exec 64 (adb_shell_write 5 (cs "s" ++ [x0d]) demo_3)).2.2.
Definition demo_5 : shell := (AdbService.exec 64 (adb_shell_tx_ready 5 demo_4)).2.

(** The second write waits for the acknowledgement of the first echo. *)
Lemma demo_waiting :
  session demo_executor ((), []) 5 demo_4 (typed_lines [x0d] [cs "fs ls"]) (cs "~$ fs l") [].
Proof.
  assert (session demo_executor ((), []) 5 demo_1 [] (cs "~$ ") []) as H1.
  { apply session_exec_open; [constructor|vm_compute; done..]. }
  assert (session demo_executor ((), []) 5 demo_2 [] (cs "~$ ") []) as H2.
  { apply (session_exec_ready _ _ _ _ _ _ _ _ _ [] H1); [vm_compute; repeat constructor|vm_compute; done..]. }
  assert (session demo_executor ((), []) 5 demo_3 (cs "fs l") (cs "~$ fs l") []) as H3.
  { apply (session_exec_write _ _ _ _ _ _ _ 0 (cs "fs l") _ _ _ [] H2); vm_compute; done. }
  apply (session_exec_write _ _ _ _ _ _ _ 0 (cs "s" ++ [x0d]) _ _ _ [] H3); vm_compute; done.
Qed.

Lemma demo_session :
  session demo_executor ((), []) 5 demo_5 (typed_lines [x0d] [cs "fs ls"])
    (cs "~$ fs ls" ++ crlf ++ cs "fs ls~$ ") [(cs "fs ls", cs "fs ls")].
Proof.
  apply (session_exec_ready _ _ _ _ _ _ _ _ _ [(cs "fs ls", cs "fs ls")] demo_waiting);
    [vm_compute; repeat constructor|vm_compute; done..].
Qed.

(** The write callback does not look at [close_requested]: a write that arrives
    after the acknowledgement of the last output, while the engine has not sent
    its CLSE yet, is processed and its commands are run. *)
Definition demo_exit : shell :=
  (AdbService.exec 64 (adb_shell_tx_ready 5
     (AdbService.exec 64 (adb_shell_write 5 (cs "exit" ++ [x0d]) demo_2)).2.2)).2.

Lemma shell_runs_after_exit :
  close_requested (ctx (load 0 demo_exit)) = true /\ (executor demo_exit).2 = []
  /\ (executor (AdbService.exec 64 (adb_shell_write 5 (cs "fs ls" ++ [x0d]) demo_exit)).2.2).2 = [(cs "fs ls", cs "fs ls")].
Proof. vm_compute. done. Qed.

Lemma demo_lines : Forall plain_line [cs "fs ls"].
Proof.
  apply Forall_singleton. unfold plain_line, printable.
  split_and!; [by apply (bool_decide_unpack _); vm_compute|simpl; lia|done].
Qed.

Lemma shell_service_invariant_witness : contexts_ok demo_5.
Proof.
  apply (shell_service_invariant (X := demo_recorded) (XL := recorded_laws demo_executor demo_laws) ((), [])).
  exact (session_reachable _ _ _ _ _ _ _ demo_session).
Defined.

Lemma shell_session_refines_witness :
  exists n, find_context 5 demo_5 = Some n /\ (truncated (ctx (load n demo_5)) = false ->
    exists typed rest, typed_lines [x0d] [cs "fs ls"] = typed ++ rest
      /\ (close_requested (ctx (load n demo_5)) = false ->
          rest = take (input_len (ctx (load n demo_5))) (input_array (ctx (load n demo_5))))
      /\ renders (Show (take SHELL_OUTPUT_SIZE prompt) :: (term_run term_start typed).2) [(cs "fs ls", cs "fs ls")]
           ((cs "~$ fs ls" ++ crlf ++ cs "fs ls~$ ") ++ take (output_len (ctx (load n demo_5))) (output (ctx (load n demo_5))))).
Proof. exact (shell_session_refines demo_executor demo_laws _ _ _ _ _ _ demo_session). Defined.

Lemma shell_never_stalls_witness :
  input_len (ctx (load 0 demo_4)) = 2 /\ tx_in_flight (ctx (load 0 demo_4)) = true.
Proof.
  split; [vm_compute; done|].
  apply (shell_never_stalls demo_executor demo_laws _ _ _ _ _ _ 0 demo_waiting);
    [vm_compute; done|vm_compute; done|left; vm_compute; discriminate].
Defined.

Lemma shell_runs_lines_witness : map fst [(cs "fs ls", cs "fs ls")] = filter (fun l => l <> []) [cs "fs ls"].
Proof.
  apply (shell_runs_lines demo_executor demo_laws _ _ _ [x0d] [cs "fs ls"] _ _ 0 demo_session);
    [by left|apply demo_lines|vm_compute; done..].
Defined.
End demo.
End ShellSpec.
