(* ===== verification/AdbShellCommand.v ===== *)
(** * One command: [shell:<command>]

    The output captured from an accepted command is streamed chunk by chunk, one
    per acknowledgement, and the stream is closed after the last one. *)

From S2P Require Import Prelude CLib Ring AdbProtocol AdbService ShellExec AdbShell AdbShellAllow AdbShellInv AdbShellSpec.
From Stdlib Require Import ZArith Lia.
From Stdlib Require Import Strings.Byte.
From stdpp Require Import base numbers list list_numbers strings sets.

Module ShellCommand.
Import Shell ShellAllow ShellInv ShellSpec.

Section command.
Context {sc : ShellConfig} {X : ShellExec} {XL : ShellExecLaws X}.

(** [acks] acknowledgements on stream [i], with an engine that takes chunks of
    at most [k] bytes. *)
Fixpoint acknowledge (acks k i : nat) (s : shell) : list service_event * shell :=
  match acks with
  | O => ([], s)
  | S acks =>
      let '(tr, s) := AdbService.exec k (adb_shell_tx_ready i s) in
      let '(tr', s) := acknowledge acks k i s in
      (tr ++ tr', s)
  end.

(** A context that streams the rest [out] of its output. *)
Definition streaming (i n : nat) (s : shell) (out : list byte) : Prop :=
  contexts_ok s /\ find_context i s = Some n /\ interactive (ctx (load n s)) = false
  /\ take (output_len (ctx (load n s)) - output_offset (ctx (load n s)))
          (drop (output_offset (ctx (load n s))) (output (ctx (load n s)))) = out.

Lemma streaming_length i n s out :
  streaming i n s out -> output_len (ctx (load n s)) - output_offset (ctx (load n s)) = length out.
Proof.
  intros (Hs & _ & _ & <-). destruct (load_wf n s Hs). rewrite length_take, length_drop. lia.
Qed.

(** One chunk. *)
Lemma queue_chunk k w out :
  wf (ctx w) -> tx_in_flight (ctx w) = false -> interactive (ctx w) = false ->
  take (output_len (ctx w) - output_offset (ctx w)) (drop (output_offset (ctx w)) (output (ctx w))) = out ->
  exists w', AdbService.exec k (queue_next_chunk w)
    = ((if decide (length out `min` k = 0) then [EvClose (default 0 (stream (ctx w))) 0]
        else [EvWrite (default 0 (stream (ctx w))) 0 (take k out) 0]), (0%Z, w'))
    /\ wf (ctx w') /\ stream (ctx w') = stream (ctx w) /\ interactive (ctx w') = false
    /\ take (output_len (ctx w') - output_offset (ctx w')) (drop (output_offset (ctx w')) (output (ctx w'))) = drop k out
    /\ exec w' = exec w.
Proof.
  intros Hw Htx Hi Hout. pose proof Hw as [].
  assert (output_len (ctx w) - output_offset (ctx w) = length out) as Hlen.
  { subst out. rewrite length_take, length_drop. lia. }
  unfold queue_next_chunk. rewrite Htx, Hi. cbv zeta iota. simpl. rewrite Hlen in *.
  destruct (decide (length out `min` k = 0)) as [Hz|Hz]; simpl.
  - exists w. split_and!; try done. rewrite Hlen, Hout. destruct k; [done|].
    destruct out; [done|]. simpl in Hz. lia.
  - eexists. split_and!; [f_equal; f_equal; f_equal| | | | |]; try done.
    + rewrite <- Hout at 2. rewrite take_take. f_equal. lia.
    + apply keeps_sent; try done; lia || congruence.
    + simpl. rewrite <- drop_drop. set (m := length out) in *.
      replace (output_len (ctx w) - (output_offset (ctx w) + m `min` k)) with (m - k) by lia.
      rewrite <- Hout. destruct (decide (m <= k)).
      * replace (m - k) with 0 by lia. symmetry. apply drop_ge. rewrite length_take. lia.
      * rewrite Nat.min_r, take_drop_commute by lia. do 2 f_equal. lia.
Qed.

(** An acknowledgement of a stream with output left. *)
Lemma ack_chunk k i n s out :
  streaming i n s out -> 
  exists s', AdbService.exec k (adb_shell_tx_ready i s)
    = ((if decide (length out `min` k = 0) then [EvClose i 0] else [EvWrite i 0 (take k out) 0]), s')
    /\ streaming i n s' (drop k out).
Proof.
  intros (Hs & Hf & Hi & Hout). destruct (find_load _ _ _ Hf) as [Hst _]. pose proof (load_wf n s Hs) as Hw.
  unfold adb_shell_tx_ready. rewrite Hf. cbv zeta.
  rewrite (bool_decide_false (interactive (ctx (set_tx false (load n s))) = true /\ _)) by (intros [H _]; exact (eq_true_false_abs _ H Hi)).
  assert (wf (ctx (set_tx false (load n s)))) as Hw1 by (destruct Hw; by constructor).
  destruct (queue_chunk k (set_tx false (load n s)) out Hw1 eq_refl Hi Hout) as (w' & E & Hw' & Hst' & Hi' & Hout' & Hex').
  assert (stream (ctx (set_tx false (load n s))) = Some i) as Est by exact Hst.
  rewrite exec_bind. unfold resume. rewrite exec_bind. cbn [AdbService.exec fst snd]. rewrite decide_True by done.
  rewrite E. cbn [fst snd app]. rewrite (decide_False (P := 0%Z <> 0%Z)) by (intros H; by apply H).
  cbn [AdbService.exec fst snd]. rewrite app_nil_r. exists (store n s w'). rewrite Est in Hst' |- *. split; [done|].
  pose proof (shell_index_lt _ _ _ Hf) as [Hlt _].
  unfold streaming. rewrite load_stored by done. split_and!; try done; [by apply store_wf|by apply find_store].
Qed.

(** The rest is sent, then the stream is closed. *)
Lemma acknowledge_all k i n out acks s :
  0 < k -> streaming i n s out -> length out < acks ->
  sent (acknowledge acks k i s).1 = out /\ EvClose i 0 ∈ (acknowledge acks k i s).1.
Proof.
  intros Hk. revert out s. induction acks as [|acks IH]; intros out s Hs Hlen; [lia|].
  cbn [acknowledge]. destruct (ack_chunk k i n s out Hs) as (s' & -> & Hs').
  specialize (IH (drop k out) s' Hs').
  destruct (decide (length out `min` k = 0)) as [Hz|Hz].
  - assert (out = []) as -> by (apply length_zero_iff_nil; lia). clear IH Hlen. rewrite drop_nil in Hs'.
    assert (sent (acknowledge acks k i s').1 = []) as Hnil.
    { clear -XL Hs'. revert s' Hs'. induction acks as [|acks IH]; intros s' Hs'; [done|].
      cbn [acknowledge]. destruct (ack_chunk k i n s' [] Hs') as (s2 & -> & Hs2). rewrite drop_nil in Hs2.
      specialize (IH s2 Hs2). rewrite decide_True by done. by destruct (acknowledge acks k i s2). }
    destruct (acknowledge acks k i s') as [tr s2]. simpl in *. split; [done|]. set_solver.
  - rewrite length_drop in IH. destruct IH as [IH1 IH2]; [lia|]. destruct (acknowledge acks k i s') as [tr s2].
    simpl in *. rewrite IH1, take_drop. split; [done|]. set_solver.
Qed.

(** An accepted command runs once and its whole captured output reaches the
    client: with an engine that takes up to [k] bytes at a time, opening the
    stream and acknowledging each chunk sends the output in order, nothing
    more, and then closes the stream. *)
Theorem shell_command_streams x s i command out t rc x' k acks :
  shell_reachable x s -> find_context i s = None -> context_index None (contexts s) <> None ->
  allowed command -> command <> [] -> length command < SHELL_COMMAND_SIZE -> NUL ∉ command ->
  webos_shell_execute command SHELL_OUTPUT_SIZE (executor s) = (Result rc (Some (out, t)), x') ->
  0 < k -> length out < acks ->
  exists tr s1, AdbService.exec k (adb_shell_open i command s) = (tr, (0%Z, s1))
    /\ executor s1 = x'
    /\ sent (tr ++ (acknowledge acks k i s1).1) = out
    /\ EvClose i 0 ∈ tr ++ (acknowledge acks k i s1).1.
Proof.
  intros Hr Hf Hfree Hal Hne Hlen Hnul Hex Hk Hacks. apply shell_reachable_ok in Hr.
  apply command_allowed_iff in Hal.
  unfold adb_shell_open. rewrite decide_False by (rewrite (proj2 (strchr_None command NUL)) by done; intros [?|?]; [lia|done]).
  rewrite decide_False by (intros [_ ?]; congruence).
  destruct (context_index None (contexts s)) as [n|] eqn:En; [|done].
  assert (exists s1, allocate_context i s = Some (n, s1) /\ contexts s1 = <[n := fresh_context i]> (contexts s)
            /\ executor s1 = executor s) as (s1 & Ea & Ec & Ee).
  { unfold allocate_context. rewrite En. by eexists. }
  rewrite Ea. destruct (allocate_ok _ _ _ _ Hr Ea) as [Hs1 Hc]. cbv zeta.
  assert (exists w, first_output command (load n s1) = Some w /\ exec w = x' /\ interactive (ctx w) = false
    /\ tx_in_flight (ctx w) = false
    /\ take (output_len (ctx w) - output_offset (ctx w)) (drop (output_offset (ctx w)) (output (ctx w))) = out)
    as (w & Ef & Ex & Hi & Htx & Hout).
  { unfold first_output. rewrite decide_False by done. eexists. split; [done|].
    unfold run_command. rewrite Hc. change (exec (load n s1)) with (executor s1). rewrite Ee.
    replace (length (output (fresh_context i))) with SHELL_OUTPUT_SIZE by (symmetry; apply length_replicate).
    rewrite Hex. simpl. split_and!; [done..|]. rewrite Nat.sub_0_r. unfold write_at. simpl. rewrite drop_0.
    rewrite <- app_assoc. apply take_app_length. }
  rewrite Ef. destruct (first_output_ok _ _ _ _ Hc Ef) as [Hw Hst].
  destruct (queue_chunk k w out Hw Htx Hi Hout) as (w' & E & Hw' & Hst' & Hi' & Hout' & Hex').
  rewrite exec_bind, E. cbn [fst snd]. rewrite (decide_False (P := 0%Z <> 0%Z)) by (intros H; by apply H).
  cbn [AdbService.exec fst snd]. rewrite app_nil_r. rewrite Hst in Hst' |- *. cbn [default from_option id].
  assert (n < length (contexts s1)) as Hn.
  { rewrite Ec, length_insert. by apply shell_index_lt in En as [? _]. }
  assert (streaming i n (store n s1 w') (drop k out)) as Hstr.
  { unfold streaming. rewrite load_stored by done. split_and!; try done; [by apply store_wf|].
    unfold find_context, store. simpl. rewrite Ec, list_insert_insert_eq. by apply find_insert. }
  eexists _, _. split; [done|]. split; [simpl; congruence|].
  destruct (acknowledge_all k i n (drop k out) acks _ Hk Hstr) as [H1 H2]; [rewrite length_drop; lia|].
  rewrite sent_app, H1. split; [|apply elem_of_app; by right].
  destruct (decide (length out `min` k = 0)); simpl.
  - assert (out = []) as -> by (apply length_zero_iff_nil; lia). by rewrite drop_nil.
  - by rewrite app_nil_r, take_drop.
Qed.
End command.

(** ** An example *)

Section demo.

#[local] Instance command_shell : ShellConfig.
Proof. refine {| SHELL_COMMAND_SIZE := 32; SHELL_OUTPUT_SIZE := 128; SHELL_INPUT_SIZE := 32; SHELL_MAX_STREAMS := 1;
                 SHELL_PROMPT_DUMMY := cs "~$ " |}; lia. Defined.

#[local] Instance command_executor : ShellExec := demo_executor.

Definition command_state : @sx command_executor := ().
Definition demo_command : cstr := cs "fs ls /STORAGE:/apps".

Lemma shell_command_streams_witness :
  exists tr s1, AdbService.exec 8 (adb_shell_open 5 demo_command (shell_init command_state)) = (tr, (0%Z, s1))
    /\ executor s1 = command_state
    /\ sent (tr ++ (acknowledge 64 8 5 s1).1) = demo_command
    /\ EvClose 5 0 ∈ tr ++ (acknowledge 64 8 5 s1).1.
Proof.
  apply (shell_command_streams (XL := demo_laws) command_state (shell_init command_state) 5 demo_command demo_command false 0 command_state 8 64).
  - constructor.
  - done.
  - done.
  - apply command_allowed_iff. vm_compute. done.
  - done.
  - vm_compute. lia.
  - apply (bool_decide_unpack _). vm_compute. done.
  - vm_compute. done.
  - lia.
  - vm_compute. lia.
Defined.
End demo.
End ShellCommand.
