(* ===== verification/AdbLogcat.v ===== *)
(** * The logcat service

    Model of src/lib/adb/adb_logcat.c: [shell:logcat ...] streams the retained
    log and, unless a dump was asked for, follows it.  The single context keeps
    the bytes to send in a ring that drops the oldest ones.  It is filled by the
    listener of the log buffer (LogBuffer.v) on the logging thread and drained
    by [queue_next], which runs on the work queue, in the open callback and on
    each acknowledgement.

    [queue_next] holds [logcat_lock] twice, around the call of the engine: its
    two locked sections are [take_chunk] and [write_failed].  The listener is
    called after the log buffer has released its own lock, and [adb_logcat_close]
    removes it after the section of the service; every other function is one
    locked section.  The callbacks below compose the sections in order;
    AdbLogcatSpec.v interleaves them. *)

From S2P Require Import Prelude CLib Ring LogBuffer AdbProtocol AdbService AdbShell.
From Stdlib Require Import ZArith Lia.
From Stdlib Require Import Strings.Byte.
From stdpp Require Import base numbers list list_numbers strings.

(** The Kconfig options of the service, with their ranges. *)
Class LogcatConfig := {
  LOGCAT_BUFFER_SIZE : nat;
  range_logcat_buffer : (512 <= Z.of_nat LOGCAT_BUFFER_SIZE <= 16384)%Z;
}.

Module Logcat.

(** ** The command *)

Definition contains_bytes (data token : list byte) : bool :=
  if decide (length data < length token) then false
  else existsb (fun i => bool_decide (take (length token) (drop i data) = token)) (seq 0 (length data - length token + 1)).

Definition webos_adb_logcat_matches {sc : ShellConfig} (suffix : list byte) : bool :=
  if decide (suffix = [] \/ SHELL_COMMAND_SIZE <= length suffix \/ strchr suffix NUL <> None
             \/ strchr suffix x0a <> None \/ strchr suffix x0d <> None) then false
  else if decide (suffix = cs "logcat") then true
  else if decide (length (cs "logcat ") < length suffix /\ starts_with (cs "logcat ") suffix = true) then true
  else contains_bytes suffix (cs "; exec logcat").

Definition option_requested (suffix quoted plain long_option : list byte) : bool :=
  contains_bytes suffix quoted || contains_bytes suffix plain || contains_bytes suffix long_option.

Definition drain_requested (suffix : list byte) : bool :=
  option_requested suffix (cs "'-d'") (cs " -d") (cs "--dump")
  || option_requested suffix (cs "'-t'") (cs " -t") (cs "--tail").

Definition clear_requested (suffix : list byte) : bool :=
  option_requested suffix (cs "'-c'") (cs " -c") (cs "--clear").

(** ** State *)

Section service.
Context {lc : LogConfig} {sc : ShellConfig} {gc : LogcatConfig}.

(** The functions and contexts that can be registered with the log buffer;
    [live_log_listener] and the context are the service's own. *)
Context {F C : Type} `{EqDecision F, EqDecision C}.
Context (listener : F) (own_context : C).

(** [ring] is [None] while it is NULL; its capacity is the size of its storage. *)
Record adb_logcat_context := Context {
  stream : option nat;
  ring : option (ByteRing.ring byte);
  stream_generation : Z;
  active : bool;
  sending : bool;
  drain : bool;
  tx_chunk : list byte;
}.

Definition logcat_init (n : nat) : adb_logcat_context := Context None None 0 false false false (replicate n x00).

Definition set_ring (r : option (ByteRing.ring byte)) (c : adb_logcat_context) : adb_logcat_context :=
  Context (stream c) r (stream_generation c) (active c) (sending c) (drain c) (tx_chunk c).
Definition set_sending (b : bool) (c : adb_logcat_context) : adb_logcat_context :=
  Context (stream c) (ring c) (stream_generation c) (active c) b (drain c) (tx_chunk c).
Definition set_chunk (b : list byte) (c : adb_logcat_context) : adb_logcat_context :=
  Context (stream c) (ring c) (stream_generation c) (active c) (sending c) (drain c) b.

Definition ring_push (data : list byte) (c : adb_logcat_context) : adb_logcat_context :=
  set_ring ((fun r => ByteRing.push r data) <$> ring c) c.

(** The section of [live_log_listener]; the work item is submitted after it. *)
Definition live_log_listener (data : list byte) (c : adb_logcat_context) : adb_logcat_context :=
  if active c && negb (drain c) then ring_push data c else c.

(** ** Sending *)

(** The bytes held; a NULL ring holds none. *)
Definition ring_len (c : adb_logcat_context) : nat :=
  match ring c with Some r => ByteRing.len r | None => 0 end.

(** What the first section of [queue_next] decides. *)
Inductive decision :=
| Nothing
| CloseStream (stream : nat) (generation : Z)
| SendChunk (stream : nat) (generation : Z) (chunk : list byte).

(** The first section; [max_payload] is what [webos_adb_stream_max_payload]
    returns.  The chunk stays in [tx_chunk] until the engine has copied it. *)
Definition take_chunk (max_payload : nat) (c : adb_logcat_context) : decision * adb_logcat_context :=
  let st := default 0 (stream c) in
  if negb (active c) || sending c then (Nothing, c)
  else
    match ring c with
    | Some r =>
        if decide (ByteRing.len r = 0) then
          (if drain c then CloseStream st (stream_generation c) else Nothing, c)
        else
          let chunk_len := ByteRing.len r `min` max_payload in
          let chunk := ByteRing.copy_out r chunk_len in
          (SendChunk st (stream_generation c) chunk,
           set_sending true (set_ring (Some (ByteRing.advance r chunk_len)) (set_chunk (write_at (tx_chunk c) 0 chunk) c)))
    | None => (if drain c then CloseStream st (stream_generation c) else Nothing, c)
    end.

(** The second section, after a write that failed: whether the session is still
    the one the chunk was taken for. *)
Definition write_failed (generation : Z) (c : adb_logcat_context) : bool * adb_logcat_context :=
  let current := active c && bool_decide (stream_generation c = generation) in
  (current, if current then set_sending false c else c).

Definition queue_next (c : adb_logcat_context) : prog (Z * adb_logcat_context) :=
  StreamMaxPayload (default 0 (stream c)) (fun max_payload =>
    let '(d, c) := take_chunk max_payload c in
    match d with
    | Nothing => Ret (0%Z, c)
    | CloseStream st gen => StreamClose st gen (Ret (0%Z, c))
    | SendChunk st gen chunk =>
        if decide (chunk = []) then Ret (0%Z, c)
        else
          StreamWrite st gen chunk (fun ret =>
            if decide (ret <> 0%Z) then
              let '(current, c) := write_failed gen c in
              if current then StreamClose st gen (Ret (ret, c)) else Ret (ret, c)
            else Ret (ret, c))
    end).

(** ** The callbacks *)

(** The section of [adb_logcat_open], for a command that matches: [malloc] is
    whether an allocation would succeed. *)
Definition start_logcat (st : nat) (gen : Z) (suffix : list byte) (malloc : bool)
    (c : adb_logcat_context) (l : LogBuffer.log_state) : Z * adb_logcat_context * LogBuffer.log_state :=
  let clear := clear_requested suffix in
  let dump := clear || drain_requested suffix in
  if active c then ((- EBUSY)%Z, c, l)
  else
    match (match ring c with
           | Some r => Some r
           | None => if malloc then Some (ByteRing.Ring (replicate LOGCAT_BUFFER_SIZE x00) 0 0) else None
           end) with
    | None => ((- ENOMEM)%Z, c, l)
    | Some r =>
        let c := Context (Some st) (Some (ByteRing.Ring (ByteRing.buf r) 0 0)) gen false false dump (tx_chunk c) in
        let started dst n := Context (Some st) (Some (ByteRing.Ring dst 0 n)) gen true false dump (tx_chunk c) in
        if clear then (0%Z, started (ByteRing.buf r) 0, LogBuffer.log_buffer_clear l)
        else if dump then
          let '(n, dst) := LogBuffer.log_buffer_read l (Some (ByteRing.buf r)) in
          (0%Z, started (default [] dst) n, l)
        else
          let '(ret, l, dst, n) :=
            LogBuffer.log_buffer_snapshot_and_set_listener l (Some listener) (Some own_context)
              (Some (ByteRing.buf r)) (Some 0) in
          if decide (ret <> 0%Z) then
            (ret, Context None (Some (ByteRing.Ring (default [] dst) 0 0)) 0 false false dump (tx_chunk c), l)
          else (0%Z, started (default [] dst) (default 0 n), l)
    end.

Definition adb_logcat_open (st : nat) (suffix : list byte) (malloc : bool)
    (c : adb_logcat_context) (l : LogBuffer.log_state) : prog (Z * adb_logcat_context * LogBuffer.log_state) :=
  if negb (webos_adb_logcat_matches suffix) then Ret ((- EINVAL)%Z, c, l)
  else
    StreamGeneration st (fun gen =>
      let '(ret, c, l) := start_logcat st gen suffix malloc c l in
      if decide (ret = 0%Z) then '(ret, c) ← queue_next c; Ret (ret, c, l) else Ret (ret, c, l)).

Definition adb_logcat_write (data : list byte) : Z := if decide (data = []) then 0%Z else (- ENOTSUP)%Z.

(** The section of [adb_logcat_tx_ready]: whether [queue_next] follows. *)
Definition acknowledge (st : nat) (c : adb_logcat_context) : bool * adb_logcat_context :=
  let current := active c && bool_decide (stream c = Some st) in
  (current, if current then set_sending false c else c).

Definition adb_logcat_tx_ready (st : nat) (c : adb_logcat_context) : prog adb_logcat_context :=
  let '(current, c) := acknowledge st c in
  if current then '(_, c) ← queue_next c; Ret c else Ret c.

(** The section of [adb_logcat_close], and the section of the log buffer in which
    the listener is removed. *)
Definition stop_logcat (c : adb_logcat_context) : adb_logcat_context :=
  Context None ((fun r => ByteRing.Ring (ByteRing.buf r) 0 0) <$> ring c) 0 false false (drain c) (tx_chunk c).

Definition remove_listener (l : LogBuffer.log_state) : LogBuffer.log_state :=
  LogBuffer.log_buffer_clear_listener l (Some listener) (Some own_context).

Definition adb_logcat_close (c : adb_logcat_context) (l : LogBuffer.log_state) : adb_logcat_context * LogBuffer.log_state :=
  (stop_logcat c, remove_listener l).
End service.
End Logcat.
