(* ===== verification/AdbLogcatSpec.v ===== *)
(** * Streaming the log under concurrency

    The locked sections of the log buffer and of the logcat service are run by
    several threads: a logging thread stores its message in one section of the
    log buffer, releases its lock, and calls the listener it found, which is a
    section of the service, and then submits the work item; the work queue runs
    [queue_next]; the transport thread runs the callbacks, one at a time, which
    also run [queue_next], and whose close is a section of the service followed
    by one of the log buffer.  [logcat_step] interleaves the sections freely;
    what a thread still has to do is an entry of [todo].  In the build of
    app/prj.conf every thread logs for itself (CONFIG_LOG_MODE_IMMEDIATE), so
    [writers] of them may be between the two sections.  The engine is represented
    by what it guarantees (AdbSpec.v): stream generations are not reused, a write
    of a stale generation fails, and an accepted write is acknowledged at most
    once. *)

From S2P Require Import Prelude CLib Ring LogBuffer AdbProtocol AdbService AdbShell AdbLogcat.
From Stdlib Require Import ZArith Lia.
From Stdlib Require Import Strings.Byte.
From stdpp Require Import base numbers list list_numbers strings sets.

Module LogcatSpec.
Import Logcat.

(** What a thread still has to do: inside [queue_next], inside [log_buffer_put]
    with the service's listener, or inside [adb_logcat_close]. *)
Inductive task :=
| QueueNext                                                (* the first section *)
| Send (st : nat) (gen : Z) (chunk : list byte)            (* the write *)
| Close (st : nat) (gen : Z)                               (* the close *)
| Deliver (m : list byte)                                  (* the call of the listener *)
| Submit                                                   (* the work item *)
| RemoveListener.                                          (* the section of the log buffer *)

#[global] Instance task_eq_dec : EqDecision task.
Proof. solve_decision. Defined.

(** The chunks that are being sent for a generation. *)
Definition chunks (gen : Z) (l : list task) : list (list byte) :=
  omap (fun t => match t with Send _ g c => if decide (g = gen) then Some c else None | _ => None end) l.

#[local] Arguments chunks : simpl never.

Definition task_gen (t : task) : option Z :=
  match t with Send _ g _ | Close _ g => Some g | _ => None end.

(** The messages the listener is about to be called with. *)
Definition deliveries (l : list task) : list (list byte) :=
  omap (fun t => match t with Deliver m => Some m | _ => None end) l.

#[local] Arguments deliveries : simpl never.

(** ** The command *)

Lemma contains_bytes_iff data token : contains_bytes data token = true <-> exists a b, data = a ++ token ++ b.
Proof.
  unfold contains_bytes. split.
  - destruct (decide _) as [|Hl]; [done|]. rewrite existsb_exists. intros (i & Hi & Ht%bool_decide_eq_true).
    exists (take i data), (drop (length token) (drop i data)). rewrite <- Ht at 1. by rewrite !take_drop.
  - intros (a & b & ->). rewrite !length_app. rewrite decide_False by lia. apply existsb_exists. exists (length a).
    split; [apply in_seq; lia|]. apply bool_decide_eq_true. by rewrite drop_app_length, take_app_length.
Qed.

(** A shell command is taken for logcat exactly when it is one line that fits
    the command buffer and is "logcat", starts with "logcat " and goes on, or
    contains "; exec logcat", the form adb sends. *)
Theorem logcat_matches_iff {sc : ShellConfig} suffix :
  webos_adb_logcat_matches suffix = true <->
  suffix <> [] /\ length suffix < SHELL_COMMAND_SIZE /\ NUL ∉ suffix /\ x0a ∉ suffix /\ x0d ∉ suffix
  /\ (suffix = cs "logcat" \/ (exists k, k <> [] /\ suffix = cs "logcat " ++ k)
      \/ exists a b, suffix = a ++ cs "; exec logcat" ++ b).
Proof.
  unfold webos_adb_logcat_matches. rewrite <- !strchr_None.
  assert (length (cs "logcat ") < length suffix /\ starts_with (cs "logcat ") suffix = true
    <-> exists k, k <> [] /\ suffix = cs "logcat " ++ k) as Hpre.
  { rewrite starts_with_spec. split.
    - intros [Hl [k ->]]. exists k. split; [|done]. intros ->. rewrite app_nil_r in Hl. lia.
    - intros (k & Hk & ->). split; [|by exists k]. rewrite length_app. destruct k; [done|simpl; lia]. }
  destruct (decide _) as [Hd|Hd].
  - split; [done|]. intros (?&?&?&?&?&_). destruct Hd as [?|[?|[?|[?|?]]]]; done || lia.
  - assert (suffix <> [] /\ length suffix < SHELL_COMMAND_SIZE /\ strchr suffix NUL = None /\ strchr suffix x0a = None
            /\ strchr suffix x0d = None) as Hall.
    { split; [tauto|]. split; [apply not_le; tauto|]. split_and!; apply dec_stable; tauto. }
    destruct (decide (suffix = cs "logcat")); [tauto|]. destruct (decide (_ /\ _)) as [H1|H1]; rewrite Hpre in H1; [tauto|].
    rewrite contains_bytes_iff. tauto.
Qed.

Section system.
Context {lc : LogConfig} {sc : ShellConfig} {gc : LogcatConfig}.
Context {F C : Type} `{EqDecision F, EqDecision C}.
Variable listener : F.
Variable own_context : C.

(** How many threads may be calling the listener. *)
Variable writers : nat.

(** A session: the bytes of the log it started with; the calls of the listener
    that were under way then, whose messages are in the log already; the messages
    logged since, cut to the size of the log buffer; and those the listener
    was called with, in the order of its section. *)
Record session_log := SessionLog {
  snapshot : list byte;
  stale : list (list byte);
  logged : list (list byte);
  delivered : list (list byte);
}.

Definition add_logged (m : list byte) (h : session_log) : session_log :=
  SessionLog (snapshot h) (stale h) (logged h ++ (if decide (m = []) then [] else [lastn LOG_BUFFER_SIZE m])) (delivered h).
Definition add_delivered (m : list byte) (h : session_log) : session_log :=
  SessionLog (snapshot h) (stale h) (logged h) (delivered h ++ [m]).

(** [history] describes the current session, [sent] the bytes the engine has
    accepted in it, and [lossless] whether the ring had room for everything and
    every write was accepted.  [unacked]: the last accepted write awaits its
    acknowledgement; [closing]: the engine was asked to close the stream;
    [generations]: those handed out so far. *)
Record system := System {
  context : adb_logcat_context;
  log : @LogBuffer.log_state F C;
  todo : list task;
  work : bool;
  unacked : bool;
  closing : bool;
  generations : list Z;
  history : session_log;
  sent : list byte;
  lossless : bool;
}.

(** What the service was given to send in this session. *)
Definition offered (s : system) : list byte := snapshot (history s) ++ concat (delivered (history s)).

Definition no_history : session_log := SessionLog [] [] [] [].
Definition boot (n : nat) (l : LogBuffer.log_state) : system :=
  System (logcat_init n) l [] false false false [] no_history [] true.

(** What a session starts with: the oldest bytes of the log that fit. *)
Definition snapshot_of (suffix : list byte) (l : @LogBuffer.log_state F C) : list byte :=
  if clear_requested suffix then [] else take (LOGCAT_BUFFER_SIZE - 1) (LogBuffer.contents l).

Definition live (c : adb_logcat_context) : bool := active c && negb (drain c).

Definition with_context (c : adb_logcat_context) (l : list task) (s : system) : system :=
  System c (log s) l (work s) (unacked s) (closing s) (generations s) (history s) (sent s) (lossless s).

Definition is_ours (n : LogBuffer.notification) : bool :=
  bool_decide (LogBuffer.to n = listener /\ LogBuffer.to_context n = Some own_context).

(** The call of the listener that a message leads to. *)
Definition calls_listener (n : option (@LogBuffer.notification F C)) : list task :=
  match n with Some n => if is_ours n then [Deliver (LogBuffer.payload n)] else [] | None => [] end.

(** Operations of other users of the log buffer. *)
Definition foreign (o : @LogBuffer.op F C) : Prop :=
  match o with
  | LogBuffer.Read _ | LogBuffer.Clear => True
  | LogBuffer.SetListener l _ | LogBuffer.ClearListener l _ => l <> Some listener
  | _ => False
  end.

Inductive logcat_step : system -> system -> Prop :=
| step_put s m l n :
    length (deliveries (todo s)) < writers -> LogBuffer.log_buffer_put (log s) (Some m) = (l, n) ->
    logcat_step s (System (context s) l (todo s ++ calls_listener n) (work s) (unacked s) (closing s) (generations s)
                     (if live (context s) then add_logged m (history s) else history s) (sent s) (lossless s))
| step_deliver s l1 l2 m :
    todo s = l1 ++ Deliver m :: l2 ->
    logcat_step s (System (live_log_listener m (context s)) (log s) (l1 ++ Submit :: l2) (work s) (unacked s) (closing s) (generations s)
                     (if live (context s) then add_delivered m (history s) else history s) (sent s)
                     (lossless s && (negb (live (context s)) || bool_decide (ring_len (context s) + length m <= LOGCAT_BUFFER_SIZE))))
| step_submit s l1 l2 :
    todo s = l1 ++ Submit :: l2 ->
    logcat_step s (System (context s) (log s) (l1 ++ l2) true (unacked s) (closing s) (generations s)
                     (history s) (sent s) (lossless s))
| step_foreign s o :
    foreign o ->
    logcat_step s (System (context s) (LogBuffer.step (log s) o) (todo s) (work s) (unacked s) (closing s) (generations s)
                     (history s) (sent s) (lossless s))
| step_work s :
    work s = true ->
    logcat_step s (System (context s) (log s) (QueueNext :: todo s) false (unacked s) (closing s) (generations s)
                     (history s) (sent s) (lossless s))
| step_queue s l1 l2 max_payload d c :
    todo s = l1 ++ QueueNext :: l2 -> 0 < max_payload -> take_chunk max_payload (context s) = (d, c) ->
    logcat_step s (with_context c (match d with
                                   | Nothing => l1 ++ l2
                                   | CloseStream st g => Close st g :: l1 ++ l2
                                   | SendChunk st g b => Send st g b :: l1 ++ l2
                                   end) s)
| step_accepted s l1 l2 st g b :
    todo s = l1 ++ Send st g b :: l2 -> active (context s) = true -> stream_generation (context s) = g ->
    logcat_step s (System (context s) (log s) (l1 ++ l2) (work s) true (closing s) (generations s)
                     (history s) (sent s ++ b) (lossless s))
| step_refused s l1 l2 st g b current c :
    todo s = l1 ++ Send st g b :: l2 -> write_failed g (context s) = (current, c) ->
    logcat_step s (System c (log s) (if current then Close st g :: l1 ++ l2 else l1 ++ l2) (work s) (unacked s) (closing s)
                     (generations s) (history s) (sent s) (if current then false else lossless s))
| step_closing s l1 l2 st g :
    todo s = l1 ++ Close st g :: l2 ->
    logcat_step s (System (context s) (log s) (l1 ++ l2) (work s) (unacked s)
                     (closing s || bool_decide (stream_generation (context s) = g)) (generations s)
                     (history s) (sent s) (lossless s))
| step_ack s st current c :
    unacked s = true -> stream (context s) = Some st -> acknowledge st (context s) = (current, c) ->
    logcat_step s (System c (log s) (if current then QueueNext :: todo s else todo s) (work s) false (closing s)
                     (generations s) (history s) (sent s) (lossless s))
| step_open s st gen suffix malloc c l :
    RemoveListener ∉ todo s -> gen ∉ generations s ->
    start_logcat listener own_context st gen suffix malloc (context s) (log s) = (0%Z, c, l) ->
    logcat_step s (System c l (QueueNext :: todo s) (work s) false false (gen :: generations s)
                     (SessionLog (snapshot_of suffix (log s)) (deliveries (todo s)) [] []) [] true)
| step_open_failed s st gen suffix malloc ret c l :
    RemoveListener ∉ todo s -> gen ∉ generations s -> ret <> 0%Z ->
    start_logcat listener own_context st gen suffix malloc (context s) (log s) = (ret, c, l) ->
    logcat_step s (System c l (todo s) (work s) (unacked s) (closing s) (gen :: generations s)
                     (history s) (sent s) (lossless s))
| step_close s :
    RemoveListener ∉ todo s ->
    logcat_step s (System (stop_logcat (context s)) (log s) (RemoveListener :: todo s) (work s) false false (generations s)
                     (history s) (sent s) (lossless s))
| step_remove s l1 l2 :
    todo s = l1 ++ RemoveListener :: l2 ->
    logcat_step s (System (context s) (remove_listener listener own_context (log s)) (l1 ++ l2) (work s) (unacked s) (closing s)
                     (generations s) (history s) (sent s) (lossless s)).

Inductive logcat_reachable (n : nat) (l : LogBuffer.log_state) : system -> Prop :=
| reach_boot : logcat_reachable n l (boot n l)
| reach_logcat s s' : logcat_reachable n l s -> logcat_step s s' -> logcat_reachable n l s'.

(** ** The invariant *)

Definition ring_view (c : adb_logcat_context) : list byte :=
  match ring c with Some r => ByteRing.view r | None => [] end.

Definition in_flight (s : system) : list (list byte) := chunks (stream_generation (context s)) (todo s).

(** What is being sent and what the engine waits for. *)
Definition flow_ok (s : system) : Prop :=
  if sending (context s)
  then (unacked s = false /\ exists b, in_flight s = [b]) \/ (unacked s = true /\ in_flight s = [])
  else unacked s = false /\ in_flight s = [].

(** Nothing is lost or reordered. *)
Definition data_ok (s : system) : Prop :=
  sublist (sent s ++ concat (in_flight s) ++ ring_view (context s)) (offered s)
  /\ (lossless s = true -> sent s ++ concat (in_flight s) ++ ring_view (context s) = offered s).

(** The close of the current stream is on its way. *)
Definition closes (s : system) : Prop := closing s = true \/ exists st, Close st (stream_generation (context s)) ∈ todo s.

(** The calls of the listener: nothing removes it during a session, and what it
    was called with and will be called with is what was logged since, and the
    calls that were under way at the start, in any order - in the order of the
    log when only one thread logs. *)
Record calls_ok (s : system) : Prop := {
  ca_listener : RemoveListener ∉ todo s;
  ca_stale : length (stale (history s)) <= writers;
  ca_logged : live (context s) = true ->
    delivered (history s) ++ deliveries (todo s) ≡ₚ stale (history s) ++ logged (history s);
  ca_order : live (context s) = true -> writers = 1 ->
    delivered (history s) ++ deliveries (todo s) = stale (history s) ++ logged (history s);
}.

Record session_ok (s : system) : Prop := {
  so_ring : is_Some (ring (context s));
  so_stream : is_Some (stream (context s));
  so_gen : stream_generation (context s) ∈ generations s;
  so_flow : flow_ok s;
  so_data : data_ok s;
  so_listener : live (context s) = true ->
    LogBuffer.log_listener (log s) = Some listener /\ LogBuffer.log_listener_context (log s) = Some own_context;
  so_done : drain (context s) = true -> lossless s = true -> closes s -> sent s = offered s;
  so_progress : ring_view (context s) <> [] \/ drain (context s) = true ->
    sending (context s) = true \/ work s = true \/ Submit ∈ todo s \/ QueueNext ∈ todo s \/ closes s;
  so_calls : calls_ok s;
}.

Record inv (s : system) : Prop := {
  inv_log : LogBuffer.log_ok (log s);
  inv_ring r : ring (context s) = Some r -> ByteRing.wf r /\ ByteRing.cap r = LOGCAT_BUFFER_SIZE;
  inv_tasks : Forall (fun t => forall g, task_gen t = Some g -> g ∈ generations s) (todo s);
  inv_writers : length (deliveries (todo s)) <= writers;
  inv_idle : active (context s) = false -> unacked s = false;
  inv_session : active (context s) = true -> session_ok s;
}.

(** ** Tasks *)

Lemma chunks_app gen l1 l2 : chunks gen (l1 ++ l2) = chunks gen l1 ++ chunks gen l2.
Proof. apply omap_app. Qed.

Lemma chunks_other gen t l1 l2 :
  (forall st b, t <> Send st gen b) -> chunks gen (l1 ++ t :: l2) = chunks gen (l1 ++ l2).
Proof.
  intros Ht. rewrite !chunks_app. f_equal. unfold chunks. csimpl. destruct t as [|st g b|st g|m| |]; try done.
  destruct (decide (g = gen)) as [->|]; [by destruct (Ht st b)|done].
Qed.

Lemma chunks_cons_other gen t l : (forall st b, t <> Send st gen b) -> chunks gen (t :: l) = chunks gen l.
Proof. apply (chunks_other gen t []). Qed.

Lemma chunks_send gen st b l1 l2 x :
  chunks gen (l1 ++ Send st gen b :: l2) = [x] -> x = b /\ chunks gen (l1 ++ l2) = [].
Proof.
  rewrite !chunks_app. unfold chunks at 2. csimpl. rewrite decide_True by done. fold (chunks gen l2).
  destruct (chunks gen l1) as [|y l]; simpl; [by intros [= -> ->]|]. intros [= -> E]. by destruct l.
Qed.

Lemma chunks_send_nonempty gen st b l1 l2 : chunks gen (l1 ++ Send st gen b :: l2) <> [].
Proof.
  rewrite chunks_app. unfold chunks at 2. csimpl. rewrite decide_True by done. by destruct (chunks gen l1).
Qed.

Lemma deliveries_app l1 l2 : deliveries (l1 ++ l2) = deliveries l1 ++ deliveries l2.
Proof. apply omap_app. Qed.

Lemma deliveries_deliver m l : deliveries (Deliver m :: l) = m :: deliveries l.
Proof. done. Qed.

Lemma deliveries_cons t l : (forall m, t <> Deliver m) -> deliveries (t :: l) = deliveries l.
Proof. intros Ht. unfold deliveries. csimpl. destruct t; try done. by destruct (Ht m). Qed.

Lemma deliveries_middle t l1 l2 : (forall m, t <> Deliver m) -> deliveries (l1 ++ t :: l2) = deliveries (l1 ++ l2).
Proof. intros Ht. by rewrite !deliveries_app, deliveries_cons. Qed.

(** Tasks that do not concern the data in flight. *)
Definition chunks_free (l : list task) : Prop := forall gen, chunks gen l = [] /\ forall st, Close st gen ∉ l.

(** A call of the listener gives way to the submission of the work item. *)
Lemma deliver_todo l1 l2 m :
  (forall gen, chunks gen (l1 ++ Submit :: l2) = chunks gen (l1 ++ Deliver m :: l2))
  /\ deliveries (l1 ++ Deliver m :: l2) = deliveries l1 ++ m :: deliveries l2
  /\ forall t, t ∈ l1 ++ Submit :: l2 -> t <> Submit -> t ∈ l1 ++ Deliver m :: l2.
Proof.
  split_and!; [|by rewrite deliveries_app|set_solver]. intros gen. by rewrite !chunks_other.
Qed.

(** A generation that was not handed out has no task. *)
Lemma chunks_fresh gen (gens : list Z) l :
  gen ∉ gens -> Forall (fun t => forall g, task_gen t = Some g -> g ∈ gens) l -> chunks gen l = [].
Proof.
  intros Hg. induction 1 as [|t l Ht _ IH]; [done|]. rewrite chunks_cons_other; [done|].
  intros st b ->. by apply Hg, Ht.
Qed.

Lemma middle_elem {A} (x y : A) l1 l2 : x <> y -> x ∈ l1 ++ y :: l2 <-> x ∈ l1 ++ l2.
Proof. set_solver. Qed.

Lemma middle_forall {A} (P : A -> Prop) y l1 l2 : Forall P (l1 ++ y :: l2) -> Forall P (l1 ++ l2).
Proof. rewrite !Forall_app, Forall_cons. tauto. Qed.

Lemma middle_intro {A} (P : A -> Prop) y l1 l2 : Forall P (l1 ++ l2) -> P y -> Forall P (l1 ++ y :: l2).
Proof. rewrite !Forall_app, Forall_cons. tauto. Qed.

(** ** The sections *)

Lemma view_nil (r : ByteRing.ring byte) : ByteRing.wf r -> ByteRing.view r = [] <-> ByteRing.len r = 0.
Proof.
  intros Hw. rewrite <- (ByteRing.length_view r) by done. split; [by intros ->|]. apply length_zero_iff_nil.
Qed.

(** What [take_chunk] decides in a session. *)
Lemma take_chunk_spec n c d c' r :
  0 < n -> active c = true -> ring c = Some r -> ByteRing.wf r -> take_chunk n c = (d, c') ->
  (d = Nothing /\ c' = c /\ (sending c = true \/ ring_view c = [] /\ drain c = false))
  \/ (d = CloseStream (default 0 (stream c)) (stream_generation c) /\ c' = c /\ sending c = false
      /\ drain c = true /\ ring_view c = [])
  \/ (exists b r', d = SendChunk (default 0 (stream c)) (stream_generation c) b /\ sending c = false
        /\ ring c' = Some r' /\ ByteRing.wf r' /\ ByteRing.cap r' = ByteRing.cap r /\ ring_view c = b ++ ByteRing.view r'
        /\ sending c' = true /\ active c' = true /\ stream c' = stream c /\ stream_generation c' = stream_generation c
        /\ drain c' = drain c).
Proof.
  intros Hn Ha Hr Hw. unfold take_chunk, ring_view. rewrite Ha, Hr. simpl.
  destruct (sending c); [intros [= <- <-]; by left; auto|].
  pose proof (view_nil r Hw) as Hnil. destruct (decide (ByteRing.len r = 0)) as [Hz|Hz].
  - destruct (drain c); intros [= <- <-].
    + right. left. split_and!; try done. by apply Hnil.
    + left. split_and!; try done. right. split; [by apply Hnil|done].
  - intros [= <- <-]. right. right. eexists _, _. split_and!; try done.
    + by apply ByteRing.wf_advance.
    + rewrite ByteRing.copy_out_view, ByteRing.view_advance by (done || lia). by rewrite take_drop.
Qed.

Lemma notification_payload l m l' n :
  m <> [] -> LogBuffer.log_buffer_put (F := F) (C := C) l (Some m) = (l', n) ->
  LogBuffer.log_listener l' = LogBuffer.log_listener l
  /\ LogBuffer.log_listener_context l' = LogBuffer.log_listener_context l
  /\ n = (fun f => LogBuffer.Notify f (LogBuffer.log_listener_context l) (lastn LOG_BUFFER_SIZE m)) <$> LogBuffer.log_listener l.
Proof.
  intros Hm. unfold LogBuffer.log_buffer_put. destruct (decide (length m = 0)) as [Hz|_]; [by destruct m|].
  intros [= <- <-]. split_and!; [done..|]. destruct (LogBuffer.log_listener l); [|done]. simpl. do 2 f_equal.
  unfold lastn. case_decide; [done|]. by replace (length m - LOG_BUFFER_SIZE) with 0 by lia.
Qed.

(** A ring that starts at its first byte. *)
Lemma flat_view (b : list byte) n : ByteRing.view (ByteRing.Ring b 0 n) = take n b.
Proof. unfold ByteRing.view. simpl. by rewrite drop_0, take_0, app_nil_r. Qed.

Lemma take_same {A} (l : list A) i j : i `min` length l = j `min` length l -> take i l = take j l.
Proof.
  intros H. rewrite <- (firstn_all l) at 1. rewrite <- (firstn_all l) at 3. by rewrite !take_take, H.
Qed.

Lemma start_logcat_spec st gen suffix malloc c l ret c' l' :
  LogBuffer.log_ok l -> (forall r, ring c = Some r -> ByteRing.wf r /\ ByteRing.cap r = LOGCAT_BUFFER_SIZE) ->
  start_logcat listener own_context st gen suffix malloc c l = (ret, c', l') ->
  LogBuffer.log_ok l'
  /\ (forall r, ring c' = Some r -> ByteRing.wf r /\ ByteRing.cap r = LOGCAT_BUFFER_SIZE)
  /\ (ret = 0%Z -> active c = false /\ active c' = true /\ is_Some (ring c') /\ ring_view c' = snapshot_of suffix l /\ stream c' = Some st
        /\ stream_generation c' = gen /\ sending c' = false
        /\ (live c' = true -> LogBuffer.log_listener l' = Some listener /\ LogBuffer.log_listener_context l' = Some own_context))
  /\ (ret <> 0%Z -> l' = l /\ (c' = c \/ active c = false /\ active c' = false)).
Proof.
  intros Hl Hc. pose proof range_logcat_buffer as Hrange. unfold start_logcat. cbv zeta.
  destruct (active c) eqn:Ha; [intros [= <- <- <-]; by split_and!; auto|].
  set (o := match ring c with Some r => Some r | None => _ end).
  assert (forall r : ByteRing.ring byte, o = Some r -> length (ByteRing.buf r) = LOGCAT_BUFFER_SIZE) as Hbuf.
  { intros r. unfold o. destruct (ring c) as [r0|]; [intros [= <-]; by apply Hc|]. destruct malloc; [|done].
    intros [= <-]. apply length_replicate. }
  destruct o as [r|]; [|intros [= <- <- <-]; by split_and!; auto]. specialize (Hbuf r eq_refl).
  assert (forall (b : list byte) n, length b = LOGCAT_BUFFER_SIZE -> n <= LOGCAT_BUFFER_SIZE ->
    ByteRing.wf (ByteRing.Ring b 0 n) /\ ByteRing.cap (ByteRing.Ring b 0 n) = LOGCAT_BUFFER_SIZE) as Hwf.
  { intros b n Hb Hn. unfold ByteRing.cap. simpl. split; [|done]. constructor; unfold ByteRing.cap; simpl; lia. }
  assert (ByteRing.buf r <> []) as Hne by (intros E; rewrite E in Hbuf; simpl in Hbuf; lia).
  pose proof (LogBuffer.copy_log_spec l (ByteRing.buf r) Hl Hne) as Hcopy. cbv zeta in Hcopy.
  set (n := length (LogBuffer.contents l) `min` (length (ByteRing.buf r) - 1)) in *.
  set (dst := take n (LogBuffer.contents l) ++ [NUL] ++ drop (S n) (ByteRing.buf r)) in *.
  assert (length dst = LOGCAT_BUFFER_SIZE) as Hdst.
  { unfold dst. rewrite !length_app, length_take, length_drop. simpl. unfold n. lia. }
  assert (n <= LOGCAT_BUFFER_SIZE) as Hn by (unfold n; lia).
  assert (take n dst = take (LOGCAT_BUFFER_SIZE - 1) (LogBuffer.contents l)) as Hview.
  { unfold dst. rewrite <- Hbuf, take_app_le, take_take by (rewrite length_take; unfold n; lia). apply take_same. unfold n. lia. }
  clearbody n dst. unfold ring_view, snapshot_of.
  destruct (clear_requested suffix) eqn:Hcl; simpl orb; cbv iota.
  { intros [= <- <- <-]. split_and!; try done.
    - destruct Hl as [[] Hcap]. split; [constructor; unfold ByteRing.cap in *; simpl in *; lia|done].
    - simpl. intros r' [= <-]. apply Hwf; lia. }
  destruct (drain_requested suffix).
  { unfold LogBuffer.log_buffer_read. rewrite Hcopy. intros [= <- <- <-]. split_and!; try done.
    - simpl. intros r' [= <-]. by apply Hwf.
    - intros _. split_and!; try done. simpl. by rewrite flat_view. }
  unfold LogBuffer.log_buffer_snapshot_and_set_listener.
  destruct (decide (length (ByteRing.buf r) = 0)); [lia|].
  destruct (LogBuffer.log_listener l).
  - intros [= <- <- <-]. split_and!; try done; [simpl; intros r' [= <-]; apply Hwf; [done|lia]|]. auto.
  - rewrite Hcopy. intros [= <- <- <-]. split_and!; try done.
    + by destruct Hl.
    + simpl. intros r' [= <-]. by apply Hwf.
    + intros _. split_and!; try done. simpl. by rewrite flat_view.
Qed.

(** ** Preservation *)

Lemma boot_inv n l : LogBuffer.log_ok l -> inv (boot n l).
Proof. intros Hl. constructor; try done. apply Nat.le_0_l. Qed.

(** A message that is logged during a live session is on its way to the listener. *)
Lemma put_step s m l n :
  inv s -> LogBuffer.log_buffer_put (log s) (Some m) = (l, n) ->
  LogBuffer.log_listener l = LogBuffer.log_listener (log s)
  /\ LogBuffer.log_listener_context l = LogBuffer.log_listener_context (log s)
  /\ length (deliveries (calls_listener n)) <= 1
  /\ (live (context s) = true -> deliveries (calls_listener n) = if decide (m = []) then [] else [lastn LOG_BUFFER_SIZE m]).
Proof.
  intros Hs Hput. destruct (decide (m = [])) as [->|Hm].
  { unfold LogBuffer.log_buffer_put in Hput. simpl in Hput. injection Hput as <- <-. split_and!; try done. simpl. lia. }
  destruct (notification_payload _ _ _ _ Hm Hput) as (E1 & E2 & ->). split_and!; try done.
  - destruct (LogBuffer.log_listener (log s)); simpl; [|lia]. destruct (is_ours _); simpl; lia.
  - intros Hlive. pose proof Hlive as Hl2. unfold live in Hl2. apply andb_true_iff in Hl2 as [Ha _].
    destruct (so_listener _ (inv_session _ Hs Ha) Hlive) as [-> ->]. simpl.
    unfold is_ours. simpl. by rewrite bool_decide_true.
Qed.

(** Sections that neither call the listener nor log. *)
Lemma calls_same s s' :
  calls_ok s -> (RemoveListener ∈ todo s' -> RemoveListener ∈ todo s) -> deliveries (todo s') = deliveries (todo s) ->
  history s' = history s -> (live (context s') = true -> live (context s) = true) -> calls_ok s'.
Proof.
  intros [Hr Hs Hl Ho] Hrm Hd Hh Hlive. constructor; rewrite ?Hh, ?Hd; auto.
Qed.

Lemma calls_submit (n : option (@LogBuffer.notification F C)) :
  RemoveListener ∉ calls_listener n /\ Forall (fun t => task_gen t = None) (calls_listener n) /\ chunks_free (calls_listener n).
Proof.
  destruct n as [n|]; simpl; [destruct (is_ours n)|]; (split; [set_solver|]); (split; [by repeat constructor|]);
    intros gen; (split; [done|]); set_solver.
Qed.

Lemma inv_put s m l n :
  inv s -> length (deliveries (todo s)) < writers -> LogBuffer.log_buffer_put (log s) (Some m) = (l, n) ->
  inv (System (context s) l (todo s ++ calls_listener n) (work s) (unacked s) (closing s) (generations s)
         (if live (context s) then add_logged m (history s) else history s) (sent s) (lossless s)).
Proof.
  intros Hs Hw Hput. destruct (put_step s m l n Hs Hput) as (El & Ec & Hone & Hnew).
  destruct (calls_submit n) as (Hrm & Hgen & Hfree). set (h := if live _ then _ else _).
  assert (snapshot h = snapshot (history s) /\ delivered h = delivered (history s) /\ stale h = stale (history s)) as (Eh1 & Eh2 & Eh3)
    by (unfold h; by destruct (live _)).
  constructor; try apply Hs; simpl.
  - pose proof (LogBuffer.put_some (log s) m (inv_log _ Hs)) as [H _]. by rewrite Hput in H.
  - apply Forall_app. split; [apply Hs|]. eapply Forall_impl; [exact Hgen|]. by intros t ->.
  - rewrite deliveries_app, length_app. lia.
  - intros Ha. destruct (inv_session _ Hs Ha) as [Hr Hst Hg Hfl Hda Hli Hdn Hpr [Hca Hcs Hcl Hco]].
    constructor; unfold flow_ok, data_ok, in_flight, offered, closes in *; simpl; rewrite ?El, ?Ec, ?Eh1, ?Eh2; try done.
    + rewrite chunks_app, (proj1 (Hfree _)), app_nil_r. done.
    + rewrite chunks_app, (proj1 (Hfree _)), app_nil_r. done.
    + intros Hd Hll Hc. apply Hdn; [done..|]. destruct Hc as [?|[st Hc]]; [by left|]. right. exists st.
      apply elem_of_app in Hc as [?|Hc]; [done|]. by destruct (proj2 (Hfree (stream_generation (context s))) st).
    + intros Hx. destruct (Hpr Hx) as [?|[?|[?|[?|[?|[st ?]]]]]]; rewrite ?elem_of_app; auto 6.
      do 4 right. right. exists st. apply elem_of_app. by left.
    + constructor; simpl; rewrite ?Eh3; [|done|..].
      * rewrite elem_of_app. tauto.
      * intros Hlive. unfold h. rewrite Hlive. simpl. rewrite deliveries_app, (Hnew Hlive), !app_assoc. by rewrite Hcl.
      * intros Hlive H1. unfold h. rewrite Hlive. simpl. rewrite deliveries_app, (Hnew Hlive), !app_assoc. by rewrite Hco.
Qed.

Lemma sublist_lastn {A} n (l : list A) : sublist (lastn n l) l.
Proof. apply sublist_drop. Qed.

(** The call of the listener: the message reaches the ring of a live session. *)
Lemma inv_deliver s l1 l2 m :
  inv s -> todo s = l1 ++ Deliver m :: l2 ->
  inv (System (live_log_listener m (context s)) (log s) (l1 ++ Submit :: l2) (work s) (unacked s) (closing s) (generations s)
         (if live (context s) then add_delivered m (history s) else history s) (sent s)
         (lossless s && (negb (live (context s)) || bool_decide (ring_len (context s) + length m <= LOGCAT_BUFFER_SIZE)))).
Proof.
  intros Hs Ht. destruct (deliver_todo l1 l2 m) as (Hch & Hdel & Hin).
  assert (Forall (fun t => forall g, task_gen t = Some g -> g ∈ generations s) (l1 ++ Submit :: l2)) as Hf.
  { pose proof (inv_tasks _ Hs) as Hf. rewrite Ht in Hf. apply middle_forall in Hf. apply middle_intro; done. }
  assert (length (deliveries (l1 ++ Submit :: l2)) <= writers) as Hwr.
  { pose proof (inv_writers _ Hs) as Hw. rewrite Ht, Hdel, length_app in Hw. rewrite deliveries_middle, deliveries_app, length_app by done. simpl in Hw. lia. }
  destruct (live (context s)) eqn:Hl; cbn [negb orb].
  - pose proof Hl as Hl2. unfold live in Hl2. apply andb_true_iff in Hl2 as [Ha Hd]. apply negb_true_iff in Hd.
    pose proof (inv_session _ Hs Ha) as Hso. destruct (so_ring _ Hso) as [r Hr]. destruct (inv_ring _ Hs r Hr) as [Hw Hcap].
    assert (live_log_listener m (context s) = set_ring (Some (ByteRing.push r m)) (context s)) as ->.
    { unfold live_log_listener. unfold live in Hl. rewrite Hl. unfold ring_push. by rewrite Hr. }
    constructor; try done; [apply Hs| |simpl; congruence|].
    + simpl. intros r' [= <-]. rewrite ByteRing.cap_push by done. split; [by apply ByteRing.wf_push|done].
    + intros _. destruct Hso as [_ Hst Hg Hfl [Hsub Heq] Hli Hdn Hpr [Hca Hcs Hcl Hco]].
      constructor; unfold flow_ok, data_ok, in_flight, offered, ring_view, ring_len in *; simpl in *; rewrite ?Hr in *; try done.
      * by rewrite Hch, <- Ht.
      * rewrite Hch, <- Ht, concat_app, ByteRing.view_push by done. simpl. rewrite app_nil_r. split.
        -- rewrite !app_assoc in *. etrans; [apply sublist_app; [done|apply sublist_lastn]|].
           rewrite app_assoc. by apply sublist_app.
        -- intros [Hll Hfit%bool_decide_eq_true]%andb_true_iff.
           rewrite lastn_all; [rewrite (app_assoc (snapshot _)), <- (Heq Hll); by rewrite <- !app_assoc|].
           rewrite length_app, ByteRing.length_view by done. lia.
      * congruence.
      * intros _. do 2 right. left. set_solver.
      * constructor; simpl; [|done|..].
        -- intros Hx%Hin; [|done]. apply Hca. by rewrite Ht.
        -- intros _. rewrite deliveries_middle by done. rewrite <- (Hcl Hl), Ht, Hdel, deliveries_app, <- app_assoc.
           apply Permutation_app_head. simpl. apply Permutation_middle.
        -- intros _ H1. rewrite deliveries_middle by done. rewrite <- (Hco Hl H1), Ht, Hdel, deliveries_app, <- app_assoc. f_equal.
           pose proof (inv_writers _ Hs) as Hw1. rewrite Ht, Hdel, length_app, H1 in Hw1. simpl in Hw1.
           destruct (deliveries l1); [done|simpl in Hw1; lia].
  - assert (live_log_listener m (context s) = context s) as ->.
    { unfold live_log_listener. unfold live in Hl. by rewrite Hl. }
    rewrite andb_true_r. constructor; try done; try apply Hs.
    intros Ha. simpl in Ha. destruct (inv_session _ Hs Ha) as [Hr Hst Hg Hfl Hda Hli Hdn Hpr [Hca Hcs Hcl Hco]].
    constructor; unfold flow_ok, data_ok, in_flight, offered, closes in *; simpl; rewrite ?Hch, <- ?Ht; try done.
    + intros Hd Hll [?|[st Hc]]; apply Hdn; try done; [by left|]. right. exists st. rewrite Ht. by apply Hin in Hc.
    + intros _. do 2 right. left. set_solver.
    + constructor; simpl; [|done|congruence..]. intros Hx%Hin; [|done]. apply Hca. by rewrite Ht.
Qed.

Lemma inv_foreign s o :
  inv s -> foreign o ->
  inv (System (context s) (LogBuffer.step (log s) o) (todo s) (work s) (unacked s) (closing s) (generations s)
         (history s) (sent s) (lossless s)).
Proof.
  intros Hs Ho. constructor; try apply Hs.
  - simpl. pose proof (inv_log _ Hs) as Hl. destruct o as [|d| |f c| |f c]; try done; simpl.
    + destruct Hl as [[] Hcap]. split; [constructor; unfold ByteRing.cap in *; simpl in *; lia|done].
    + by apply (LogBuffer.same_ring_ok (log s)); [apply (LogBuffer.set_listener_step (log s) (LogBuffer.SetListener f c))|].
    + by apply (LogBuffer.same_ring_ok (log s)); [apply (LogBuffer.set_listener_step (log s) (LogBuffer.ClearListener f c))|].
  - intros Ha. destruct (inv_session _ Hs Ha). constructor; try done; [|by apply (calls_same s)]. simpl. intros Hlive.
    destruct (so_listener0 Hlive) as [E1 E2]. destruct o as [|d| |f c| |f c]; try done; simpl.
    + unfold LogBuffer.log_buffer_set_listener. destruct f; [|done]. by rewrite E1.
    + unfold LogBuffer.log_buffer_clear_listener. rewrite decide_False; [done|]. rewrite E1. simpl in Ho. naive_solver.
Qed.

(** The tasks change, the data does not: what is under way goes on, is asked of
    the engine or is submitted. *)
Lemma session_todo s l w cl :
  session_ok s -> chunks (stream_generation (context s)) l = in_flight s -> deliveries l = deliveries (todo s) ->
  (RemoveListener ∈ l -> RemoveListener ∈ todo s) ->
  (forall t, t ∈ todo s -> t = QueueNext \/ t = Submit \/ (exists st, t = Close st (stream_generation (context s))) ->
     t ∈ l \/ (t = Submit /\ w = true) \/ ((exists st, t = Close st (stream_generation (context s))) /\ cl = true)) ->
  (work s = true -> w = true \/ QueueNext ∈ l) ->
  (closing s = true -> cl = true) ->
  (cl = true \/ (exists st, Close st (stream_generation (context s)) ∈ l) -> closes s) ->
  session_ok (System (context s) (log s) l w (unacked s) cl (generations s) (history s) (sent s) (lossless s)).
Proof.
  intros [Hr Hst Hg Hfl Hda Hli Hdn Hpr Hca] Hch Hdel Hrm Htasks Hwork Hcl Hcloses.
  constructor; try done; unfold flow_ok, data_ok, in_flight in *; simpl in *; try by rewrite Hch.
  - intros Hd Hll Hc. apply Hdn; [done..|]. apply Hcloses. exact Hc.
  - intros Hx. unfold closes in *. simpl in *. destruct (Hpr Hx) as [?|[Hw|[Hq|[Hq|[Hc|[st Hc]]]]]].
    + by left.
    + destruct (Hwork Hw); auto.
    + destruct (Htasks Submit Hq) as [?|[[_ ?]|[[? ?] _]]]; [by right; left|auto..|done].
    + destruct (Htasks QueueNext Hq) as [?|[[? _]|[[? ?] _]]]; [by left|auto|done..].
    + do 4 right. left. auto.
    + destruct (Htasks (Close st (stream_generation (context s))) Hc) as [?|[[? _]|[_ ?]]]; [by right; right; eauto|eauto 8|done|auto 6].
  - by apply (calls_same s).
Qed.

Lemma inv_work s :
  inv s -> work s = true ->
  inv (System (context s) (log s) (QueueNext :: todo s) false (unacked s) (closing s) (generations s)
         (history s) (sent s) (lossless s)).
Proof.
  intros Hs Hw. constructor; try apply Hs.
  - constructor; [done|]. apply Hs.
  - intros Ha. apply session_todo; [by apply Hs| |by rewrite deliveries_cons|set_solver| |set_solver|done|].
    + by rewrite chunks_cons_other.
    + intros t Ht _. left. set_solver.
    + unfold closes. intros [?|[st Hx]]; [by left|]. right. exists st. set_solver.
Qed.

Lemma inv_submit s l1 l2 :
  inv s -> todo s = l1 ++ Submit :: l2 ->
  inv (System (context s) (log s) (l1 ++ l2) true (unacked s) (closing s) (generations s) (history s) (sent s) (lossless s)).
Proof.
  intros Hs Ht. constructor; try apply Hs; simpl.
  - pose proof (inv_tasks _ Hs) as Hf. rewrite Ht in Hf. by apply middle_forall in Hf.
  - pose proof (inv_writers _ Hs) as Hw. by rewrite Ht, deliveries_middle in Hw.
  - intros Ha. apply session_todo; [by apply Hs| | |rewrite Ht; set_solver| |by left|done|].
    + unfold in_flight. by rewrite Ht, chunks_other.
    + by rewrite Ht, deliveries_middle.
    + rewrite Ht. intros t Hin _. rewrite !elem_of_app, elem_of_cons in *. destruct Hin as [?|[->|?]]; auto.
    + unfold closes. rewrite Ht. intros [?|[st Hx]]; [by left|]. right. exists st. set_solver.
Qed.

Lemma inv_closing s l1 l2 st g :
  inv s -> todo s = l1 ++ Close st g :: l2 ->
  inv (System (context s) (log s) (l1 ++ l2) (work s) (unacked s)
         (closing s || bool_decide (stream_generation (context s) = g)) (generations s)
         (history s) (sent s) (lossless s)).
Proof.
  intros Hs Ht. constructor; try apply Hs.
  - simpl. pose proof (inv_tasks _ Hs) as Hf. rewrite Ht in Hf. by apply middle_forall in Hf.
  - simpl. pose proof (inv_writers _ Hs) as Hw. by rewrite Ht, deliveries_middle in Hw.
  - intros Ha. apply session_todo; [by apply Hs| |by rewrite Ht, deliveries_middle|rewrite Ht; set_solver| |auto| |].
    + unfold in_flight. by rewrite Ht, chunks_other.
    + rewrite Ht. intros t Hin Hk. rewrite !elem_of_app, elem_of_cons in *.
      destruct Hin as [?|[->|?]]; [auto| |auto]. right. right.
      destruct Hk as [?|[?|[st' [= -> ->]]]]; [done..|]. split; [by eexists|]. by rewrite bool_decide_true, orb_true_r.
    + by intros ->.
    + unfold closes. rewrite Ht. intros [[?|Hg%bool_decide_eq_true]%orb_true_iff|[st' Hx]]; [by left| |].
      * right. exists st. subst g. set_solver.
      * right. exists st'. set_solver.
Qed.

Lemma inv_queue s l1 l2 n d c :
  inv s -> todo s = l1 ++ QueueNext :: l2 -> 0 < n -> take_chunk n (context s) = (d, c) ->
  inv (with_context c (match d with
                       | Nothing => l1 ++ l2
                       | CloseStream st g => Close st g :: l1 ++ l2
                       | SendChunk st g b => Send st g b :: l1 ++ l2
                       end) s).
Proof.
  intros Hs Ht Hn Htake.
  assert (Forall (fun t => forall g, task_gen t = Some g -> g ∈ generations s) (l1 ++ l2)) as Hf.
  { pose proof (inv_tasks _ Hs) as Hf. rewrite Ht in Hf. by apply middle_forall in Hf. }
  assert (chunks (stream_generation (context s)) (l1 ++ l2) = in_flight s) as Hch.
  { unfold in_flight. by rewrite Ht, chunks_other. }
  assert (forall t, (forall m, t <> Deliver m) -> deliveries (t :: l1 ++ l2) = deliveries (todo s)) as Hdel.
  { intros t Hd. by rewrite deliveries_cons, Ht, deliveries_middle by done. }
  assert (deliveries (l1 ++ l2) = deliveries (todo s)) as Hdel0 by by rewrite Ht, deliveries_middle.
  pose proof (inv_writers _ Hs) as Hwr.
  assert (RemoveListener ∈ l1 ++ l2 -> RemoveListener ∈ todo s) as Hrm by (rewrite Ht; set_solver).
  destruct (active (context s)) eqn:Ha.
  2: { unfold take_chunk in Htake. rewrite Ha in Htake. injection Htake as <- <-.
       constructor; try apply Hs; try done; simpl; congruence. }
  pose proof (inv_session _ Hs Ha) as Hso. pose proof Hso as [[r Hr] Hst Hg Hfl [Hsub Heq] Hli Hdn Hpr Hca].
  destruct (inv_ring _ Hs r Hr) as [Hw Hcap].
  destruct (take_chunk_spec _ _ _ _ r Hn Ha Hr Hw Htake)
    as [(-> & -> & Hwhy)|[(-> & -> & Hse & Hdr & Hnil)|(b & r' & -> & Hse & Hr' & Hw' & Hcap' & Hv & Hse' & Ha' & Hst' & Hg' & Hdr')]].
  - constructor; try apply Hs; [done|simpl; congruence|]. intros _. unfold with_context.
    constructor; try done; unfold flow_ok, data_ok, in_flight in *; simpl; try by rewrite Hch.
    + intros Hd Hll [Hc|[st Hc]]; apply Hdn; try done; [by left|]. right. exists st. simpl in Hc. rewrite Ht. set_solver.
    + intros Hx. destruct Hwhy as [?|[E1 E2]]; [by left|]. destruct Hx; [done|congruence].
    + by apply (calls_same s).
  - constructor; try apply Hs.
    + constructor; [|done]. by intros g [= <-].
    + simpl. by rewrite Hdel.
    + intros _. unfold with_context.
      assert (in_flight s = [] /\ unacked s = false) as [Hfl1 Hfl2] by (unfold flow_ok in Hfl; rewrite Hse in Hfl; tauto).
      constructor; try done; unfold flow_ok, data_ok, in_flight in *; simpl; rewrite ?chunks_cons_other, ?Hch by done; try done.
      * intros _ Hll _. specialize (Heq Hll). rewrite Hfl1, Hnil in Heq. simpl in Heq. by rewrite app_nil_r in Heq.
      * intros _. do 5 right. eexists. left.
      * apply (calls_same s); [done|simpl; set_solver|by apply Hdel|done..].
  - assert (in_flight s = [] /\ unacked s = false) as [Hfl1 Hfl2] by (unfold flow_ok in Hfl; rewrite Hse in Hfl; tauto).
    assert (chunks (stream_generation (context s)) (Send (default 0 (stream (context s))) (stream_generation (context s)) b :: l1 ++ l2)
            = [b]) as Hone.
    { unfold chunks. csimpl. rewrite decide_True by done. f_equal. fold (chunks (stream_generation (context s)) (l1 ++ l2)).
      by rewrite Hch. }
    constructor; try apply Hs.
    + simpl. rewrite Hr'. intros r2 [= <-]. split; [done|congruence].
    + constructor; [|done]. by intros g [= <-].
    + simpl. by rewrite Hdel.
    + simpl. congruence.
    + intros _. unfold with_context.
      constructor; unfold flow_ok, data_ok, in_flight, ring_view, live in *; simpl; rewrite ?Hr', ?Hst', ?Hg', ?Ha', ?Hdr', ?Hse'; try done.
      * rewrite Hone. left. eauto.
      * rewrite Hone. simpl. rewrite app_nil_r. rewrite Hfl1, Hv in Hsub, Heq. done.
      * rewrite Ha in Hli. done.
      * intros Hd Hll [Hc|[st Hc]]; apply Hdn; try done; [by left|]. right. exists st. simpl in Hc.
        rewrite Hg' in Hc. rewrite Ht. set_solver.
      * auto.
      * apply (calls_same s); [done|simpl; set_solver|by apply Hdel|done|]. unfold live. simpl. by rewrite Ha, Ha', Hdr'.
Qed.

Lemma inv_accepted s l1 l2 st g b :
  inv s -> todo s = l1 ++ Send st g b :: l2 -> active (context s) = true -> stream_generation (context s) = g ->
  inv (System (context s) (log s) (l1 ++ l2) (work s) true (closing s) (generations s) (history s) (sent s ++ b) (lossless s)).
Proof.
  intros Hs Ht Ha <-. constructor; try apply Hs.
  - simpl. pose proof (inv_tasks _ Hs) as Hf. rewrite Ht in Hf. by apply middle_forall in Hf.
  - simpl. pose proof (inv_writers _ Hs) as Hw. by rewrite Ht, deliveries_middle in Hw.
  - simpl. congruence.
  - intros _. destruct (inv_session _ Hs Ha) as [Hr Hst Hg Hfl [Hsub Heq] Hli Hdn Hpr Hca].
    unfold flow_ok, in_flight in *. rewrite Ht in Hfl, Hsub, Heq.
    assert (sending (context s) = true /\ exists x, chunks (stream_generation (context s))
      (l1 ++ Send st (stream_generation (context s)) b :: l2) = [x]) as (Hse & x & Hx).
    { destruct (sending (context s)); [|by destruct Hfl as [_ Hfl%chunks_send_nonempty]].
      destruct Hfl as [[_ Hx]|[_ Hx%chunks_send_nonempty]]; [|done]. by split. }
    rewrite Hx in Hsub, Heq. destruct (chunks_send _ _ _ _ _ _ Hx) as [-> Hrest].
    constructor; try done; unfold flow_ok, data_ok, in_flight; simpl; rewrite ?Hrest, ?Hse.
    + by right.
    + simpl in *. rewrite app_nil_r in *. rewrite <- app_assoc. done.
    + intros Hd Hll Hc. specialize (Heq Hll).
      assert (sent s = offered s) as E.
      { apply Hdn; [done..|]. destruct Hc as [?|[st' Hc]]; [by left|]. right. exists st'. simpl in Hc. rewrite Ht. set_solver. }
      rewrite <- E in Heq. simpl in Heq.
      apply (f_equal (drop (length (sent s)))) in Heq. rewrite drop_app_length, drop_all in Heq. rewrite app_nil_r in Heq. apply app_eq_nil in Heq as [-> _]. by rewrite app_nil_r.
    + auto.
    + apply (calls_same s); [done|simpl; rewrite Ht; set_solver|by rewrite Ht, deliveries_middle|done..].
Qed.

Lemma inv_refused s l1 l2 st g b current c :
  inv s -> todo s = l1 ++ Send st g b :: l2 -> write_failed g (context s) = (current, c) ->
  inv (System c (log s) (if current then Close st g :: l1 ++ l2 else l1 ++ l2) (work s) (unacked s) (closing s)
         (generations s) (history s) (sent s) (if current then false else lossless s)).
Proof.
  intros Hs Ht. unfold write_failed. intros [= <- <-].
  pose proof (inv_tasks _ Hs) as Hf. rewrite Ht in Hf.
  assert (g ∈ generations s) as Hgen.
  { rewrite Forall_app, Forall_cons in Hf. destruct Hf as (_ & Hg & _). by apply Hg. }
  apply middle_forall in Hf. pose proof (inv_writers _ Hs) as Hwr. rewrite Ht, deliveries_middle in Hwr by done.
  destruct (active (context s) && bool_decide (stream_generation (context s) = g)) eqn:Hc.
  - apply andb_true_iff in Hc as [Ha <-%bool_decide_eq_true]. constructor; try apply Hs.
    + constructor; [|done]. by intros ? [= <-].
    + simpl. by rewrite deliveries_cons.
    + intros _. destruct (inv_session _ Hs Ha) as [Hr Hst Hg Hfl [Hsub Heq] Hli Hdn Hpr Hca].
      unfold flow_ok, in_flight in *. rewrite Ht in Hfl, Hsub.
      assert (unacked s = false /\ exists x, chunks (stream_generation (context s))
        (l1 ++ Send st (stream_generation (context s)) b :: l2) = [x]) as (Hu & x & Hx).
      { destruct (sending (context s)); [|by destruct Hfl as [_ Hfl%chunks_send_nonempty]].
        by destruct Hfl as [?|[_ Hx%chunks_send_nonempty]]. }
      rewrite Hx in Hsub. destruct (chunks_send _ _ _ _ _ _ Hx) as [-> Hrest].
      constructor; try done; unfold flow_ok, data_ok, in_flight; simpl; rewrite ?chunks_cons_other, ?Hrest by done; try done.
      * split; [|done]. simpl in *. etrans; [|exact Hsub]. apply sublist_app; [done|]. by apply sublist_inserts_l.
      * intros _. do 5 right. exists st. left.
      * apply (calls_same s); [done|simpl; rewrite Ht; set_solver|simpl; by rewrite deliveries_cons, Ht, deliveries_middle|done..].
  - constructor; try apply Hs; [done|done|]. intros Ha. simpl in Ha. rewrite Ha in Hc. apply bool_decide_eq_false in Hc.
    assert (forall l, chunks (stream_generation (context s)) (Send st g b :: l) = chunks (stream_generation (context s)) l) as Hoth.
    { intros l. unfold chunks. csimpl. by rewrite decide_False by congruence. }
    assert (chunks (stream_generation (context s)) (l1 ++ l2) = in_flight s) as Hch.
    { unfold in_flight. by rewrite Ht, !chunks_app, Hoth. }
    apply session_todo; [by apply Hs|done|by rewrite Ht, deliveries_middle|rewrite Ht; set_solver| |auto|done|].
    + rewrite Ht. intros t Hin Hk. left. rewrite !elem_of_app, elem_of_cons in *.
      destruct Hin as [?|[->|?]]; [auto| |auto]. by destruct Hk as [?|[?|[? ?]]].
    + unfold closes. rewrite Ht. intros [?|[st' Hx]]; [by left|]. right. exists st'. set_solver.
Qed.

Lemma inv_ack s st current c :
  inv s -> unacked s = true -> stream (context s) = Some st -> acknowledge st (context s) = (current, c) ->
  inv (System c (log s) (if current then QueueNext :: todo s else todo s) (work s) false (closing s)
         (generations s) (history s) (sent s) (lossless s)).
Proof.
  intros Hs Hu Hst. unfold acknowledge.
  assert (active (context s) = true) as Ha.
  { apply not_false_iff_true. intros Ha. by rewrite (inv_idle _ Hs Ha) in Hu. }
  rewrite Ha, Hst, bool_decide_true by done. intros [= <- <-]. constructor; try apply Hs; try done.
  - constructor; [done|]. apply Hs.
  - intros _. destruct (inv_session _ Hs Ha) as [Hr _ Hg Hfl [Hsub Heq] Hli Hdn Hpr Hca].
    assert (in_flight s = []) as Hnil.
    { unfold flow_ok in Hfl. destruct (sending (context s)); [|tauto]. destruct Hfl as [[? _]|[_ ?]]; [congruence|done]. }
    unfold in_flight in *. constructor; try done; unfold flow_ok, data_ok, in_flight; simpl; rewrite ?chunks_cons_other by done; try done.
    + intros Hd Hll Hc. apply Hdn; [done..|]. destruct Hc as [?|[st' Hx]]; [by left|]. right. exists st'. simpl in Hx. set_solver.
    + intros _. do 3 right. left. left.
    + apply (calls_same s); try done. simpl. set_solver.
Qed.

Lemma inv_open s st gen suffix malloc c l :
  inv s -> RemoveListener ∉ todo s -> gen ∉ generations s ->
  start_logcat listener own_context st gen suffix malloc (context s) (log s) = (0%Z, c, l) ->
  inv (System c l (QueueNext :: todo s) (work s) false false (gen :: generations s)
         (SessionLog (snapshot_of suffix (log s)) (deliveries (todo s)) [] []) [] true).
Proof.
  intros Hs Hrm Hfresh Hst. destruct (start_logcat_spec _ _ _ _ _ _ _ _ _ (inv_log _ Hs) (inv_ring _ Hs) Hst)
    as (Hl & Hr & Hok & _). destruct (Hok eq_refl) as (Ha0 & Ha & Hring & Hsnap & Hstr & Hg & Hse & Hli).
  pose proof (chunks_fresh _ _ _ Hfresh (inv_tasks _ Hs)) as Hnil. pose proof (inv_writers _ Hs) as Hw.
  constructor; try done.
  - constructor; [done|]. eapply Forall_impl; [apply Hs|]. intros t Ht g' Hg'. right. by apply Ht.
  - intros _. constructor; try done; unfold flow_ok, data_ok, in_flight, offered; simpl; rewrite ?Hse, ?Hg; simpl;
      rewrite ?chunks_cons_other, ?Hnil by done; try done.
    + left.
    + simpl. rewrite Hsnap, app_nil_r. done.
    + intros _ _ [?|[st' Hx]]; [done|]. exfalso. apply Hfresh. simpl in Hx. rewrite Hg in Hx.
      apply elem_of_cons in Hx as [?|Hx]; [done|]. pose proof (inv_tasks _ Hs) as Hf. rewrite Forall_forall in Hf.
      by apply (Hf _ Hx).
    + intros _. do 3 right. left. left.
    + constructor; simpl; rewrite ?deliveries_cons, ?app_nil_r by done; [set_solver|done..].
Qed.

Lemma inv_open_failed s st gen suffix malloc ret c l :
  inv s -> ret <> 0%Z ->
  start_logcat listener own_context st gen suffix malloc (context s) (log s) = (ret, c, l) ->
  inv (System c l (todo s) (work s) (unacked s) (closing s) (gen :: generations s) (history s) (sent s) (lossless s)).
Proof.
  intros Hs Hret Hst. destruct (start_logcat_spec _ _ _ _ _ _ _ _ _ (inv_log _ Hs) (inv_ring _ Hs) Hst)
    as (Hl & Hr & _ & Hfail). destruct (Hfail Hret) as [-> Hc].
  assert (Forall (fun t => forall g, task_gen t = Some g -> g ∈ gen :: generations s) (todo s)) as Hf.
  { eapply Forall_impl; [apply Hs|]. intros t Ht g' Hg'. right. by apply Ht. }
  constructor; try done.
  - simpl. apply Hs.
  - simpl. intros Ha. destruct Hc as [->|[Ha0 _]]; by apply Hs.
  - simpl. intros Ha. destruct Hc as [->|[_ ?]]; [|congruence].
    destruct (inv_session _ Hs Ha). constructor; try done; [simpl; by right|]. by apply (calls_same s).
Qed.

Lemma logcat_inv_close s :
  inv s -> inv (System (stop_logcat (context s)) (log s) (RemoveListener :: todo s) (work s) false false (generations s)
         (history s) (sent s) (lossless s)).
Proof.
  intros Hs. constructor; simpl; try done; try apply Hs.
  - intros r. destruct (ring (context s)) as [r0|] eqn:Hr; [|done]. simpl. intros [= <-].
    destruct (inv_ring _ Hs r0 Hr) as [[] Hcap]. split; [|done].
    constructor; unfold ByteRing.cap in *; simpl in *; lia.
  - constructor; [done|apply Hs].
Qed.

Lemma inv_remove s l1 l2 :
  inv s -> todo s = l1 ++ RemoveListener :: l2 ->
  inv (System (context s) (remove_listener listener own_context (log s)) (l1 ++ l2) (work s) (unacked s) (closing s)
         (generations s) (history s) (sent s) (lossless s)).
Proof.
  intros Hs Ht. constructor; simpl; try apply Hs.
  - apply (LogBuffer.same_ring_ok (log s)); [|apply Hs].
    apply (LogBuffer.set_listener_step (log s) (LogBuffer.ClearListener (Some listener) (Some own_context))). done.
  - pose proof (inv_tasks _ Hs) as Hf. rewrite Ht in Hf. by apply middle_forall in Hf.
  - pose proof (inv_writers _ Hs) as Hw. by rewrite Ht, deliveries_middle in Hw.
  - intros Ha. destruct (ca_listener _ (so_calls _ (inv_session _ Hs Ha))). rewrite Ht. set_solver.
Qed.

(** The two sections of the close are the callback. *)
Lemma close_sections c (l : @LogBuffer.log_state F C) :
  adb_logcat_close listener own_context c l = (stop_logcat c, remove_listener listener own_context l).
Proof. done. Qed.

Lemma logcat_reachable_inv n l s : LogBuffer.log_ok l -> logcat_reachable n l s -> inv s.
Proof.
  intros Hl. induction 1 as [|s s' _ IH Hstep]; [by apply boot_inv|].
  destruct Hstep; eauto using inv_put, inv_deliver, inv_submit, inv_foreign, inv_work, inv_queue, inv_accepted, inv_refused,
    inv_closing, inv_ack, inv_open, inv_open_failed, logcat_inv_close, inv_remove.
Qed.

(** C24: the log is streamed in the order in which the listener was called.  In
    every reachable interleaving of the logging threads, the work queue and the
    transport, the bytes the client was sent in the current session, the chunk
    being sent and the bytes waiting in the ring are, in this order, the oldest
    part of the log at the start of the session and then the messages the
    listener was called with - with gaps only where the ring overflowed or a
    write failed.  While the session follows the log, the messages the listener
    was called with and those it is about to be called with are, up to their
    order, every message logged since the start and those whose call was under
    way then, which are at most as many as there are logging threads and are in
    the log already; with one logging thread they are so in the order of the
    log. *)
Theorem logcat_streams_in_order n l s :
  LogBuffer.log_ok l -> logcat_reachable n l s -> active (context s) = true ->
  sublist (sent s ++ concat (in_flight s) ++ ring_view (context s)) (snapshot (history s) ++ concat (delivered (history s)))
  /\ (lossless s = true ->
      sent s ++ concat (in_flight s) ++ ring_view (context s) = snapshot (history s) ++ concat (delivered (history s)))
  /\ length (in_flight s) <= 1
  /\ (live (context s) = true ->
      delivered (history s) ++ deliveries (todo s) ≡ₚ stale (history s) ++ logged (history s)
      /\ length (stale (history s)) <= writers
      /\ (writers = 1 -> delivered (history s) ++ deliveries (todo s) = stale (history s) ++ logged (history s))).
Proof.
  intros Hl Hr Ha. apply (logcat_reachable_inv _ _ _ Hl) in Hr.
  destruct (inv_session _ Hr Ha) as [_ _ _ Hfl [Hsub Heq] _ _ _ [_ Hst Hlo Hor]].
  split_and!; [done..| |by auto]. unfold flow_ok in Hfl. destruct (sending (context s)).
  - destruct Hfl as [[_ [b ->]]|[_ ->]]; simpl; lia.
  - destruct Hfl as [_ ->]. simpl. lia.
Qed.

(** A dump ends only when it is complete: when the close of a dump's stream
    is on its way and no write failed, everything of the snapshot was sent. *)
Theorem logcat_dump_complete n l s :
  LogBuffer.log_ok l -> logcat_reachable n l s -> active (context s) = true -> drain (context s) = true ->
  lossless s = true -> closes s -> sent s = offered s.
Proof.
  intros Hl Hr Ha. apply (logcat_reachable_inv _ _ _ Hl) in Hr. by destruct (inv_session _ Hr Ha).
Qed.

(** Streaming never stops for good: in a session with bytes to send or a dump
    to end, a chunk is being sent, or awaits its acknowledgement, or the work
    item is submitted, or a thread is about to submit it or to run [queue_next],
    or the close of the stream is on its way. *)
Theorem logcat_never_stalls n l s :
  LogBuffer.log_ok l -> logcat_reachable n l s -> active (context s) = true ->
  ring_view (context s) <> [] \/ drain (context s) = true ->
  in_flight s <> [] \/ unacked s = true \/ work s = true \/ Submit ∈ todo s \/ QueueNext ∈ todo s \/ closes s.
Proof.
  intros Hl Hr Ha Hx. apply (logcat_reachable_inv _ _ _ Hl) in Hr. destruct (inv_session _ Hr Ha) as [_ _ _ Hfl _ _ _ Hpr _].
  destruct (Hpr Hx) as [Hse|[?|[?|[?|?]]]]; auto 6. unfold flow_ok in Hfl. rewrite Hse in Hfl.
  destruct Hfl as [[_ [b ->]]|[-> _]]; auto.
Qed.

(** With a negotiated payload of 0 a chunk is taken, nothing is written and
    [sending] stays set: the session never sends again. *)
Lemma logcat_zero_payload_stuck c r :
  active c = true -> sending c = false -> ring c = Some r -> ByteRing.wf r -> ByteRing.view r <> [] ->
  exists c', AdbService.exec 0 (queue_next c) = ([], (0%Z, c')) /\ sending c' = true /\ active c' = true.
Proof.
  intros Ha Hse Hr Hw Hne. unfold queue_next. cbn [AdbService.exec]. unfold take_chunk. rewrite Ha, Hse, Hr. simpl.
  rewrite decide_False by (by rewrite <- view_nil). rewrite Nat.min_0_r. rewrite ByteRing.copy_out_view by (done || lia).
  rewrite take_0. simpl. eexists. split; [done|]. done.
Qed.

(** ** Steps that compute their result *)

(** The first task, in an engine that accepts every write of the current stream
    and takes [k] bytes at most. *)
Definition run_head (k : nat) (s : system) : system :=
  match todo s with
  | [] => s
  | Deliver m :: l =>
      System (live_log_listener m (context s)) (log s) (Submit :: l) (work s) (unacked s) (closing s) (generations s)
        (if live (context s) then add_delivered m (history s) else history s) (sent s)
        (lossless s && (negb (live (context s)) || bool_decide (ring_len (context s) + length m <= LOGCAT_BUFFER_SIZE)))
  | Submit :: l =>
      System (context s) (log s) l true (unacked s) (closing s) (generations s) (history s) (sent s) (lossless s)
  | RemoveListener :: l =>
      System (context s) (remove_listener listener own_context (log s)) l (work s) (unacked s) (closing s) (generations s)
        (history s) (sent s) (lossless s)
  | QueueNext :: l =>
      let r := take_chunk k (context s) in
      with_context r.2 (match r.1 with
                        | Nothing => l
                        | CloseStream st g => Close st g :: l
                        | SendChunk st g b => Send st g b :: l
                        end) s
  | Send st g b :: l =>
      if decide (active (context s) = true /\ stream_generation (context s) = g)
      then System (context s) (log s) l (work s) true (closing s) (generations s) (history s) (sent s ++ b) (lossless s)
      else s
  | Close st g :: l =>
      System (context s) (log s) l (work s) (unacked s) (closing s || bool_decide (stream_generation (context s) = g))
        (generations s) (history s) (sent s) (lossless s)
  end.

Definition run_put (m : list byte) (s : system) : system :=
  let r := LogBuffer.log_buffer_put (log s) (Some m) in
  System (context s) r.1 (todo s ++ calls_listener r.2) (work s) (unacked s) (closing s) (generations s)
    (if live (context s) then add_logged m (history s) else history s) (sent s) (lossless s).

Definition run_open (st : nat) (gen : Z) (suffix : list byte) (s : system) : system :=
  let r := start_logcat listener own_context st gen suffix true (context s) (log s) in
  System r.1.2 r.2 (QueueNext :: todo s) (work s) false false (gen :: generations s)
    (SessionLog (snapshot_of suffix (log s)) (deliveries (todo s)) [] []) [] true.

Definition run_close (s : system) : system :=
  System (stop_logcat (context s)) (log s) (RemoveListener :: todo s) (work s) false false (generations s)
    (history s) (sent s) (lossless s).

Definition run_ack (s : system) : system :=
  match stream (context s) with
  | Some st =>
      let r := acknowledge st (context s) in
      System r.2 (log s) (if r.1 then QueueNext :: todo s else todo s) (work s) false (closing s) (generations s)
        (history s) (sent s) (lossless s)
  | None => s
  end.

Lemma run_head_reachable n l k s : 0 < k -> logcat_reachable n l s -> logcat_reachable n l (run_head k s).
Proof.
  intros Hk Hr. unfold run_head. destruct (todo s) as [|[|st g b|st g|m| |] l2] eqn:Ht; [done|..].
  - eapply reach_logcat; [exact Hr|]. apply (step_queue s [] l2 k); [done..|]. by destruct (take_chunk k (context s)).
  - case_decide as Hd; [|done]. eapply reach_logcat; [exact Hr|]. by eapply (step_accepted s [] l2); [exact Ht|apply Hd..].
  - eapply reach_logcat; [exact Hr|]. by apply (step_closing s [] l2 st g).
  - eapply reach_logcat; [exact Hr|]. by apply (step_deliver s [] l2 m).
  - eapply reach_logcat; [exact Hr|]. by apply (step_submit s [] l2).
  - eapply reach_logcat; [exact Hr|]. by apply (step_remove s [] l2).
Qed.

Lemma run_put_reachable n l m s :
  length (deliveries (todo s)) < writers -> logcat_reachable n l s -> logcat_reachable n l (run_put m s).
Proof.
  intros Hw Hr. eapply reach_logcat; [exact Hr|]. apply step_put; [done|]. by destruct (LogBuffer.log_buffer_put _ _).
Qed.

Lemma run_open_reachable n l st gen suffix s :
  RemoveListener ∉ todo s -> gen ∉ generations s ->
  (start_logcat listener own_context st gen suffix true (context s) (log s)).1.1 = 0%Z ->
  logcat_reachable n l s -> logcat_reachable n l (run_open st gen suffix s).
Proof.
  intros Hrm Hg H0 Hr. unfold run_open. eapply reach_logcat; [exact Hr|]. apply (step_open s st gen suffix true); [done..|].
  rewrite <- H0. by destruct (start_logcat _ _ _ _ _ _ _ _) as [[? ?] ?].
Qed.

Lemma run_close_reachable n l s : RemoveListener ∉ todo s -> logcat_reachable n l s -> logcat_reachable n l (run_close s).
Proof. intros Hrm Hr. eapply reach_logcat; [exact Hr|]. by apply step_close. Qed.

Lemma run_ack_reachable n l s : unacked s = true -> logcat_reachable n l s -> logcat_reachable n l (run_ack s).
Proof.
  intros Hu Hr. unfold run_ack. destruct (stream (context s)) as [st|] eqn:Hst; [|done].
  eapply reach_logcat; [exact Hr|]. apply (step_ack s st); [done..|]. by destruct (acknowledge st (context s)).
Qed.
End system.

(** ** Examples *)

Section demo.
#[local] Instance demo_log_config : LogConfig.
Proof. refine {| LOG_BUFFER_SIZE := Z.to_nat 1024 |}. rewrite Z2Nat.id; lia. Defined.
#[local] Instance demo_logcat_config : LogcatConfig.
Proof. refine {| LOGCAT_BUFFER_SIZE := 512 |}; lia. Defined.

(** The log holds "boot"; the listener and the context are numbered 1, and one
    thread logs. *)
Definition demo_log : @LogBuffer.log_state nat nat :=
  (LogBuffer.log_buffer_put LogBuffer.log_init (Some (cs "boot"))).1.

Definition demo_boot : @system nat nat := boot 64 demo_log.
Definition demo_runs : @system nat nat -> Prop := logcat_reachable 1 1 1 64 demo_log.

Lemma demo_logcat_ok : LogBuffer.log_ok demo_log.
Proof. apply LogBuffer.put_some, LogBuffer.log_ok_init. Qed.

(** A chunk is taken and sent, then "up" is logged and delivered. *)
Definition demo_sending : @system nat nat := run_head 1 1 64 (run_open 1 1 3 7 (cs "logcat") demo_boot).
Definition demo_live : @system nat nat := run_head 1 1 64 (run_put 1 1 (cs "up") (run_head 1 1 64 demo_sending)).

Lemma demo_live_reachable : demo_runs demo_live.
Proof.
  apply run_head_reachable; [lia|]. apply run_put_reachable; [apply (bool_decide_unpack _); vm_compute; exact I|].
  apply run_head_reachable; [lia|]. apply run_head_reachable; [lia|].
  apply run_open_reachable; [apply not_elem_of_nil..|vm_compute; reflexivity|constructor].
Qed.

(** "logcat -d", acknowledged. *)
Definition demo_dump : @system nat nat :=
  run_head 1 1 64 (run_ack (run_head 1 1 64 (run_head 1 1 64 (run_open 1 1 3 7 (cs "logcat -d") demo_boot)))).

Lemma demo_dump_reachable : demo_runs demo_dump.
Proof.
  apply run_head_reachable; [lia|]. apply run_ack_reachable; [vm_compute; reflexivity|].
  apply run_head_reachable; [lia|]. apply run_head_reachable; [lia|].
  apply run_open_reachable; [apply not_elem_of_nil..|vm_compute; reflexivity|constructor].
Qed.

(** "late" is logged during a session; before the listener is called for it the
    stream is closed and logcat is started again: the new session has the message
    in its snapshot, and it is delivered to it once more. *)
Definition demo_closed : @system nat nat :=
  run_head 1 1 64 (run_head 1 1 64 (run_close (run_put 1 1 (cs "late") (run_open 1 1 3 7 (cs "logcat") demo_boot)))).
Definition demo_late : @system nat nat :=
  run_head 1 1 64 (run_head 1 1 64 (run_head 1 1 64 (run_open 1 1 3 8 (cs "logcat") demo_closed))).

Lemma demo_late_reachable : demo_runs demo_late.
Proof.
  do 3 (apply run_head_reachable; [lia|]).
  apply run_open_reachable; [apply (bool_decide_unpack _); vm_compute; exact I..|vm_compute; reflexivity|].
  do 2 (apply run_head_reachable; [lia|]). apply run_close_reachable; [apply (bool_decide_unpack _); vm_compute; exact I|].
  apply run_put_reachable; [apply (bool_decide_unpack _); vm_compute; exact I|].
  apply run_open_reachable; [apply not_elem_of_nil..|vm_compute; reflexivity|constructor].
Qed.

Example late_delivered_twice :
  demo_runs demo_late /\ LogBuffer.contents (log demo_late) = cs "bootlate" /\ logged (history demo_late) = []
  /\ sent demo_late = cs "bootlate" /\ ring_view (context demo_late) = cs "late".
Proof. split; [apply demo_late_reachable|]. vm_compute. split_and!; reflexivity. Qed.

Lemma logcat_streams_in_order_witness :
  sent demo_live = cs "boot" /\ ring_view (context demo_live) = cs "up" /\ delivered (history demo_live) ++ deliveries (todo demo_live) = [cs "up"]
  /\ sublist (sent demo_live ++ concat (in_flight demo_live) ++ ring_view (context demo_live))
       (snapshot (history demo_live) ++ concat (delivered (history demo_live)))
  /\ delivered (history demo_live) ++ deliveries (todo demo_live) = stale (history demo_live) ++ logged (history demo_live).
Proof.
  split; [vm_compute; reflexivity|]. split; [vm_compute; reflexivity|]. split; [vm_compute; reflexivity|].
  destruct (logcat_streams_in_order 1 1 1 64 demo_log demo_live demo_logcat_ok demo_live_reachable) as (H1 & _ & _ & H2);
    [vm_compute; reflexivity|]. split; [exact H1|]. apply H2; [vm_compute; reflexivity|reflexivity].
Defined.

Lemma logcat_dump_complete_witness : sent demo_dump = offered demo_dump.
Proof.
  apply (logcat_dump_complete 1 1 1 64 demo_log demo_dump demo_logcat_ok demo_dump_reachable); [vm_compute; done..|].
  right. exists 3. vm_compute. left.
Defined.

Lemma logcat_never_stalls_witness :
  in_flight demo_dump <> [] \/ unacked demo_dump = true \/ work demo_dump = true \/ Submit ∈ todo demo_dump
  \/ QueueNext ∈ todo demo_dump \/ closes demo_dump.
Proof.
  apply (logcat_never_stalls 1 1 1 64 demo_log demo_dump demo_logcat_ok demo_dump_reachable); [vm_compute; done|right; vm_compute; done].
Defined.
End demo.
End LogcatSpec.
