(* ===== verification/HttpClient.v ===== *)
(** * The HTTP client

    Model of src/app/src/services/http_client/http_client.c: the parsing of URLs
    and the check of request headers, the callback that collects the response,
    the mapping of errors, and a request as a whole with its sockets, TLS options
    and the lock that admits one request at a time.

    The socket layer, the resolver, Zephyr's URL parser and HTTP client and the
    credential store are the parameters [UrlParser] and [NetStack].  The strings
    of [struct parsed_url] are modelled as C strings; HttpClientSpec.v shows that
    they fit their arrays.  The field [calls] is a ghost, the history of the calls
    on sockets and addresses; no definition reads it. *)

From S2P Require Import Prelude CLib.
From Stdlib Require Import ZArith Lia.
From Stdlib Require Import Strings.Byte.
From stdpp Require Import base numbers list list_numbers strings.

(** ** Constants *)

Definition WEB_HTTP_OK : Z := 0.
Definition WEB_HTTP_ERR_INVALID : Z := -1.
Definition WEB_HTTP_ERR_NO_NETWORK : Z := -2.
Definition WEB_HTTP_ERR_DNS : Z := -3.
Definition WEB_HTTP_ERR_CONNECT : Z := -4.
Definition WEB_HTTP_ERR_TLS : Z := -5.
Definition WEB_HTTP_ERR_TIMEOUT : Z := -6.
Definition WEB_HTTP_ERR_TOO_LARGE : Z := -7.
Definition WEB_HTTP_ERR_IO : Z := -8.
Definition WEB_HTTP_ERR_DENIED : Z := -9.
Definition WEB_HTTP_ERR_BUSY : Z := -10.
Definition WEB_HTTP_ERR_UNSUPPORTED : Z := -11.

Definition WEB_HTTP_RESPONSE_TRUNCATED : Z := 1.
Definition WEB_HTTP_RESPONSE_LENGTH_UNKNOWN : Z := 2.

Definition WEB_HTTP_CA_TAG : Z := 42.
Definition WEB_HTTP_MAX_HOST_LEN : nat := 128.
Definition WEB_HTTP_MAX_URI_LEN : nat := 512.
Definition WEB_HTTP_MAX_HEADER_LINES : nat := 16.
Definition WEB_HTTP_DEFAULT_TIMEOUT_MS : Z := 10000.
Definition UINT16_MAX : Z := 65535.

(** ** Interfaces *)

(** [http_parser_parse_url] and its result: which fields are set, offset and
    length of each, the number of the port. *)
Inductive url_field := UF_SCHEMA | UF_HOST | UF_PORT | UF_PATH | UF_QUERY | UF_FRAGMENT | UF_USERINFO.

Record http_parser_url := ParserUrl {
  field_set : url_field -> bool;
  field_off : url_field -> nat;
  field_len : url_field -> nat;
  parser_port : Z;
}.

Class UrlParser := { http_parser_parse_url : list byte -> option http_parser_url }.

Inductive http_method := HTTP_GET | HTTP_POST | HTTP_PUT | HTTP_DELETE | HTTP_PATCH | HTTP_HEAD.

(** What [http_client_req] is given. *)
Record http_request := Request {
  rq_method : http_method;
  rq_url : cstr;
  rq_host : cstr;
  rq_port : option cstr;
  rq_header_fields : option cstr;
  rq_payload : option (list byte);
}.

(** What the response callback is given. *)
Record http_response := Response {
  http_status_code : Z;
  cl_present : bool;
  rsp_content_length : Z;
  body_frag : list byte;
}.

Inductive sockopt :=
| SO_RCVTIMEO (ms : Z) | SO_SNDTIMEO (ms : Z)
| TLS_SEC_TAG_LIST (tags : list Z) | TLS_HOSTNAME (host : cstr) | TLS_PEER_VERIFY_REQUIRED.

#[global] Instance sockopt_eq_dec : EqDecision sockopt.
Proof. solve_decision. Defined.

(** [http_client_req] passes the fragments of the response to the callback and
    may look at what it returns, which the argument of type
    [list http_response -> Z] gives for the fragments passed so far. *)
Class NetStack := {
  net : Type;
  address : Type;
  zsock_getaddrinfo : cstr -> cstr -> net -> (Z * list address) * net;
  zsock_freeaddrinfo : list address -> net -> net;
  zsock_socket : address -> bool -> net -> Z * net;                 (* whether the protocol is TLS 1.2 *)
  zsock_setsockopt : Z -> sockopt -> net -> Z * net;
  zsock_connect : Z -> address -> net -> Z * net;
  zsock_close : Z -> net -> net;
  errno : net -> Z;
  http_client_req : Z -> http_request -> Z -> (list http_response -> Z) -> net -> (list http_response * Z) * net;
  tls_credential_add : Z -> net -> Z * net;
}.

Module HttpClient.

(** ** URLs *)

Record parsed_url := ParsedUrl { host : cstr; port : cstr; uri : cstr; tls : bool; explicit_port : bool }.

(** [copy_url_field]: the string copied out, or the error. *)
Definition copy_url_field (url : cstr) (parsed : http_parser_url) (field : url_field) (capacity : nat) : Z + cstr :=
  let offset := field_off parsed field in
  let length := field_len parsed field in
  if decide (length = 0 \/ capacity <= length) then inl (- EINVAL)%Z else inr (take length (drop offset url)).

(** The request target. *)
Definition parse_uri (url : cstr) (parsed : http_parser_url) : Z + cstr :=
  if field_set parsed UF_PATH then
    let rest := drop (field_off parsed UF_PATH) url in
    if decide (WEB_HTTP_MAX_URI_LEN <= length rest) then inl (- ENAMETOOLONG)%Z else inr rest
  else if field_set parsed UF_QUERY then
    let query_len := field_len parsed UF_QUERY in
    if decide (WEB_HTTP_MAX_URI_LEN <= query_len + 2) then inl (- ENAMETOOLONG)%Z
    else inr (cs "/?" ++ take query_len (drop (field_off parsed UF_QUERY) url))
  else inr (cs "/").

Definition parse_url {P : UrlParser} (url : cstr) : Z + parsed_url :=
  if decide (length url = 0 \/ (UINT16_MAX <= Z.of_nat (length url))%Z \/ strchr url "#"%byte <> None) then inl (- EINVAL)%Z
  else
    match http_parser_parse_url url with
    | None => inl (- EINVAL)%Z
    | Some parsed =>
        match copy_url_field url parsed UF_SCHEMA 6 with
        | inl ret => inl ret
        | inr scheme =>
            if decide (scheme <> cs "https" /\ scheme <> cs "http") then inl (- EPROTONOSUPPORT)%Z
            else
              let tls := bool_decide (scheme = cs "https") in
              let default_port := if tls then cs "443" else cs "80" in
              if field_set parsed UF_USERINFO then inl (- EINVAL)%Z
              else
                match copy_url_field url parsed UF_HOST WEB_HTTP_MAX_HOST_LEN with
                | inl _ => inl (- EINVAL)%Z
                | inr host =>
                    if decide (strchr host ":"%byte <> None) then inl (- EINVAL)%Z
                    else if decide (field_set parsed UF_PORT = true /\ parser_port parsed = 0%Z) then inl (- EINVAL)%Z
                    else
                      let explicit := field_set parsed UF_PORT in
                      let port := if explicit then take 5 (dec_text (parser_port parsed)) else default_port in
                      match parse_uri url parsed with
                      | inl ret => inl ret
                      | inr uri => inr (ParsedUrl host port uri tls explicit)
                      end
                end
        end
    end.

(** ** Headers *)

Definition tolower (c : byte) : byte :=
  if decide (65 <= bval c <= 90)%Z then byte_of_Z (bval c + 32) else c.

Definition forbidden : list cstr := [cs "host"; cs "content-length"; cs "connection"; cs "transfer-encoding"].

(** [strncasecmp] of names of equal length. *)
Definition is_forbidden_header (name : list byte) : bool :=
  existsb (fun f => bool_decide (length f = length name) && bool_decide ((tolower <$> name) = (tolower <$> f))) forbidden.

Definition name_char (c : byte) : bool :=
  bool_decide (97 <= bval c <= 122 \/ 65 <= bval c <= 90 \/ 48 <= bval c <= 57)%Z || bool_decide (c = "-"%byte).

Definition value_char (c : byte) : bool :=
  negb (bool_decide (bval c < 0x20)%Z && negb (bool_decide (c = x09)) || bool_decide (c = x7f)).

Definition CRLF : list byte := [x0d; x0a].

(** The loop over the lines; every iteration takes at least two characters, so
    the length of the text bounds the iterations. *)
Fixpoint validate_lines (fuel : nat) (line_count : nat) (line : cstr) : Z :=
  match fuel with
  | O => 0%Z
  | S fuel' =>
      match line with
      | [] => 0%Z
      | _ =>
          match strstr line CRLF with
          | None => (- EINVAL)%Z
          | Some e =>
              if decide (e = 0 \/ WEB_HTTP_MAX_HEADER_LINES < line_count + 1) then (- EINVAL)%Z
              else
                match strchr (take e line) ":"%byte with
                | None => (- EINVAL)%Z
                | Some colon =>
                    if decide (colon = 0 \/ is_forbidden_header (take colon line) = true) then (- EINVAL)%Z
                    else if negb (forallb name_char (take colon line)) then (- EINVAL)%Z
                    else if negb (forallb value_char (take (e - (colon + 1)) (drop (colon + 1) line))) then (- EINVAL)%Z
                    else validate_lines fuel' (line_count + 1) (drop (e + 2) line)
                end
          end
      end
  end.

Definition validate_headers (headers : option cstr) : Z :=
  match headers with None => 0%Z | Some h => validate_lines (length h) 0 h end.

Definition map_method (method : Z) : option http_method :=
  if decide (method = 0)%Z then Some HTTP_GET else if decide (method = 1)%Z then Some HTTP_POST
  else if decide (method = 2)%Z then Some HTTP_PUT else if decide (method = 3)%Z then Some HTTP_DELETE
  else if decide (method = 4)%Z then Some HTTP_PATCH else if decide (method = 5)%Z then Some HTTP_HEAD
  else None.

(** ** The response *)

Record web_http_response := WebResponse {
  struct_size : Z; status_code : Z; body_len : Z; content_length : Z; flags : Z;
}.

(** The response being filled in, with the array of the body. *)
Record response_context := ResponseContext { response : web_http_response; body : list byte; capacity : nat }.



(** [response_cb]: the value returned and the context after it. *)
Definition response_cb (rsp : http_response) (c : response_context) : Z * response_context :=
  let r := response c in
  let '(len, fl) :=
    if cl_present rsp
    then (Z.min (rsp_content_length rsp) UINT32_MAX, Z.ldiff (flags r) WEB_HTTP_RESPONSE_LENGTH_UNKNOWN)
    else (UINT32_MAX, Z.lor (flags r) WEB_HTTP_RESPONSE_LENGTH_UNKNOWN) in
  let used := Z.to_nat (body_len r) in
  let remaining := capacity c - used in
  if decide (remaining < length (body_frag rsp)) then
    let r' := WebResponse (struct_size r) (http_status_code rsp) (body_len r + Z.of_nat remaining) len
                (Z.lor fl WEB_HTTP_RESPONSE_TRUNCATED) in
    ((- ENOSPC)%Z, ResponseContext r' (write_at (body c) used (take remaining (body_frag rsp))) (capacity c))
  else
    let r' := WebResponse (struct_size r) (http_status_code rsp) (body_len r + Z.of_nat (length (body_frag rsp))) len fl in
    (0%Z, ResponseContext r' (write_at (body c) used (body_frag rsp)) (capacity c)).

(** The callback called for a list of fragments, and what its last call returned. *)
Definition collect (fs : list http_response) (c : response_context) : response_context :=
  foldl (fun c f => (response_cb f c).2) c fs.
Definition callback_results (c : response_context) (fs : list http_response) : Z :=
  match last fs with
  | None => 0%Z
  | Some f => (response_cb f (collect (take (length fs - 1) fs) c)).1
  end.

Definition map_request_error (ret : Z) (tls : bool) (r : web_http_response) : Z :=
  if decide (Z.land (flags r) WEB_HTTP_RESPONSE_TRUNCATED <> 0 \/ ret = - ENOSPC)%Z then WEB_HTTP_ERR_TOO_LARGE
  else if decide (ret = - ETIMEDOUT \/ ret = - EAGAIN)%Z then WEB_HTTP_ERR_TIMEOUT
  else if decide (ret = - ENETDOWN \/ ret = - ENETUNREACH)%Z then WEB_HTTP_ERR_NO_NETWORK
  else if decide (tls = true /\ (ret = - ECONNABORTED \/ ret = - ECONNRESET \/ ret = - EIO))%Z then WEB_HTTP_ERR_TLS
  else WEB_HTTP_ERR_IO.

(** ** Requests *)

Section client.
Context {P : UrlParser} {N : NetStack}.

(** Calls on sockets and addresses, with what the other side answered: of a
    request, the fragments the HTTP library passed to the callback and the
    library's result. *)
Inductive net_call :=
| CallResolve (host port : cstr) (addresses : list address)
| CallSocket (fd : Z) (tls : bool)
| CallOption (fd : Z) (o : sockopt) (ret : Z)
| CallConnect (fd : Z) (ret : Z)
| CallRequest (fd : Z) (r : http_request) (answer : list http_response) (ret : Z)
| CallClose (fd : Z)
| CallFree (addresses : list address).

(** [request_lock] tells whether a request holds the mutex. *)
Record client := Client { request_lock : bool; network : net; calls : list net_call }.

Definition set_network (n : net) (l : list net_call) (w : client) : client :=
  Client (request_lock w) n (calls w ++ l).
Definition set_lock (b : bool) (w : client) : client := Client b (network w) (calls w).

Definition webos_http_client_init (w : client) : Z * client :=
  let '(ret, n) := tls_credential_add WEB_HTTP_CA_TAG (network w) in
  ((if decide (ret <> 0 /\ ret <> - EEXIST)%Z then ret else 0%Z), set_network n [] w).

(** [zsock_setsockopt] for each option, up to the first that fails. *)
Fixpoint set_options (fd : Z) (l : list sockopt) (w : client) : bool * client :=
  match l with
  | [] => (true, w)
  | o :: l' =>
      let '(ret, n) := zsock_setsockopt fd o (network w) in
      let w := set_network n [CallOption fd o ret] w in
      if decide (ret < 0)%Z then (false, w) else set_options fd l' w
  end.

Definition close_socket (fd : Z) (w : client) : client := set_network (zsock_close fd (network w)) [CallClose fd] w.

Definition timeouts (timeout_ms : Z) : list sockopt := [SO_RCVTIMEO timeout_ms; SO_SNDTIMEO timeout_ms].
Definition tls_options (host : cstr) : list sockopt :=
  [TLS_SEC_TAG_LIST [WEB_HTTP_CA_TAG]; TLS_HOSTNAME host; TLS_PEER_VERIFY_REQUIRED].

(** One iteration over the addresses: the connected socket, if any, and
    [connect_timed_out]. *)
Definition try_address (parsed : parsed_url) (timeout_ms : Z) (a : address) (timed_out : bool) (w : client)
    : (option Z * bool) * client :=
  let '(fd, n) := zsock_socket a (tls parsed) (network w) in
  if decide (fd < 0)%Z then ((None, timed_out), set_network n [] w)
  else
    let w := set_network n [CallSocket fd (tls parsed)] w in
    let '(ok, w) := set_options fd (timeouts timeout_ms) w in
    if negb ok then ((None, timed_out), close_socket fd w)
    else
      let '(ok, w) := if tls parsed then set_options fd (tls_options (host parsed)) w else (true, w) in
      if negb ok then ((None, timed_out), close_socket fd w)
      else
        let '(ret, n) := zsock_connect fd a (network w) in
        let w := set_network n [CallConnect fd ret] w in
        if decide (ret = 0%Z) then ((Some fd, timed_out), w)
        else
          let timed_out := timed_out || bool_decide (errno n = ETIMEDOUT \/ errno n = EAGAIN) in
          ((None, timed_out), close_socket fd w).

Fixpoint connect_loop (parsed : parsed_url) (timeout_ms : Z) (l : list address) (timed_out : bool) (w : client)
    : (option Z * bool) * client :=
  match l with
  | [] => ((None, timed_out), w)
  | a :: l' =>
      let '((fd, timed_out), w) := try_address parsed timeout_ms a timed_out w in
      match fd with
      | Some _ => ((fd, timed_out), w)
      | None => connect_loop parsed timeout_ms l' timed_out w
      end
  end.

(** The request on a connected socket. *)
Definition perform (fd : Z) (parsed : parsed_url) (m : http_method) (headers : option cstr) (request_body : option (list byte))
    (timeout_ms : Z) (c : response_context) (w : client) : (Z * response_context) * client :=
  let fields := match headers with Some (_ :: _) => headers | _ => None end in
  let r := Request m (uri parsed) (host parsed) (if explicit_port parsed then Some (port parsed) else None) fields request_body in
  let '((fs, ret), n) := http_client_req fd r timeout_ms (callback_results c) (network w) in
  let w := set_network n [CallRequest fd r fs ret] w in
  let c := collect fs c in
  (((if decide (ret < 0)%Z then map_request_error ret (tls parsed) (response c) else WEB_HTTP_OK), c), w).

(** From the loop over the addresses to [cleanup]. *)
Definition exchange (parsed : parsed_url) (m : http_method) (headers : option cstr) (request_body : option (list byte))
    (timeout_ms : Z) (addresses : list address) (c : response_context) (w : client) : (Z * response_context) * client :=
  let '((fd, timed_out), w) := connect_loop parsed timeout_ms addresses false w in
  match fd with
  | None => ((if timed_out then WEB_HTTP_ERR_TIMEOUT else if tls parsed then WEB_HTTP_ERR_TLS else WEB_HTTP_ERR_CONNECT, c), w)
  | Some fd => let '(r, w) := perform fd parsed m headers request_body timeout_ms c w in (r, close_socket fd w)
  end.

(** From the lookup on, with the lock held. *)
Definition locked_request (parsed : parsed_url) (m : http_method) (headers : option cstr) (request_body : option (list byte))
    (timeout_ms : Z) (c : response_context) (w : client) : (Z * response_context) * client :=
  let '((ret, addresses), n) := zsock_getaddrinfo (host parsed) (port parsed) (network w) in
  let w := set_network n [CallResolve (host parsed) (port parsed) addresses] w in
  let '((ret, c), w) :=
    if decide (ret <> 0%Z \/ length addresses = 0) then ((WEB_HTTP_ERR_DNS, c), w)
    else exchange parsed m headers request_body timeout_ms addresses c w in
  let w := if decide (length addresses <> 0)
           then set_network (zsock_freeaddrinfo addresses (network w)) [CallFree addresses] w else w in
  ((ret, c), w).

(** A NULL pointer is [None]; the arrays are at least as long as the lengths
    that come with them. *)
Definition webos_http_request (method : Z) (url : option cstr) (headers : option cstr) (request_body : option (list byte))
    (request_body_len : nat) (response_body : option (list byte)) (response_capacity : nat)
    (resp : option web_http_response) (timeout_ms : Z) (w : client) : (Z * option response_context) * client :=
  match url, resp with
  | Some u, Some r =>
      if decide ((0 < request_body_len /\ request_body = None) \/ (0 < response_capacity /\ response_body = None))
      then ((WEB_HTTP_ERR_INVALID, None), w)
      else
        match map_method method with
        | None => ((WEB_HTTP_ERR_UNSUPPORTED, None), w)
        | Some m =>
            match parse_url u with
            | inl ret => ((if decide (ret = - EPROTONOSUPPORT)%Z then WEB_HTTP_ERR_UNSUPPORTED else WEB_HTTP_ERR_INVALID, None), w)
            | inr parsed =>
                if decide (validate_headers headers <> 0%Z) then ((WEB_HTTP_ERR_INVALID, None), w)
                else
                  let timeout_ms := if decide (timeout_ms = 0%Z) then WEB_HTTP_DEFAULT_TIMEOUT_MS else timeout_ms in
                  let c := ResponseContext (WebResponse (struct_size r) 0 0 UINT32_MAX WEB_HTTP_RESPONSE_LENGTH_UNKNOWN)
                             (default [] response_body) response_capacity in
                  if request_lock w then ((WEB_HTTP_ERR_BUSY, Some c), w)
                  else
                    let '((ret, c), w) := locked_request parsed m headers (take request_body_len <$> request_body)
                                            timeout_ms c (set_lock true w) in
                    ((ret, Some c), set_lock false w)
            end
        end
  | _, _ => ((WEB_HTTP_ERR_INVALID, None), w)
  end.
End client.
End HttpClient.
