(* ===== verification/HttpClientSpec.v ===== *)
(** * The HTTP client: properties

    The headers an application may send are exactly a block of at most sixteen
    well-formed lines that name none of the reserved fields
    ([validate_headers_iff]); the response buffer holds the longest prefix of the
    response that fits ([http_response_exact]); every path gives back the sockets,
    the addresses and the lock ([http_request_releases]); a request leaves only on
    a socket that was connected after all its options were set, for https the
    verification of the peer ([http_request_verified]); and the parts of a parsed
    URL fit their arrays ([parse_url_fits]). *)

From S2P Require Import Prelude CLib HttpClient.
From Stdlib Require Import ZArith Lia.
From Stdlib Require Import Strings.Byte.
From stdpp Require Import base numbers list list_numbers strings sets.

Import HttpClient.

(** ** Headers *)

(** Letters, digits and the hyphen. *)
Definition token_char (c : byte) : Prop :=
  (97 <= bval c <= 122 \/ 65 <= bval c <= 90 \/ 48 <= bval c <= 57)%Z \/ c = "-"%byte.

(** No control character but the tab. *)
Definition text_char (c : byte) : Prop := c = x09 \/ (32 <= bval c /\ bval c <> 127)%Z.

(** The fields the client sets itself, in any case. *)
Definition reserved (name : cstr) : Prop :=
  (tolower <$> name) ∈ [cs "host"; cs "content-length"; cs "connection"; cs "transfer-encoding"].

Record header_ok (nv : cstr * cstr) : Prop := {
  ho_name : nv.1 <> [];
  ho_chars : Forall token_char nv.1;
  ho_free : ~ reserved nv.1;
  ho_value : Forall text_char nv.2;
}.

Lemma name_char_iff c : name_char c = true <-> token_char c.
Proof. unfold name_char, token_char. by rewrite orb_true_iff, !bool_decide_eq_true. Qed.

Lemma value_char_iff c : value_char c = true <-> text_char c.
Proof.
  unfold value_char, text_char. assert (c = x7f <-> bval c = 127%Z) as H7f by (split; [by intros ->|by destruct c]).
  rewrite negb_true_iff, orb_false_iff, andb_false_iff, negb_false_iff, !bool_decide_eq_false, bool_decide_eq_true, H7f.
  split; [intros [[H|H] H']|intros [->|[H H']]]; [right; lia|by left|split; [by right|done]|split; [left; lia|done]].
Qed.

Lemma forbidden_iff name : is_forbidden_header name = true <-> reserved name.
Proof.
  unfold is_forbidden_header, reserved. rewrite existsb_exists.
  assert (forall f, (tolower <$> f) = f -> bool_decide (length f = length name) && bool_decide ((tolower <$> name) = (tolower <$> f)) = true
    <-> (tolower <$> name) = f) as Hf.
  { intros f Ef. rewrite andb_true_iff, !bool_decide_eq_true, Ef. split; [by intros []|]. intros H. split; [|done].
    apply (f_equal length) in H. by rewrite length_fmap in H. }
  split.
  - intros (f & Hin & Hb). simpl in Hin. destruct Hin as [<-|[<-|[<-|[<-|[]]]]]; apply Hf in Hb; try (by vm_compute); set_solver.
  - rewrite !elem_of_cons. intros [H|[H|[H|[H|H]]]]; [..|by apply elem_of_nil in H]; eexists; (split; [|apply Hf; [|exact H]; by vm_compute]);
      simpl; auto.
Qed.

Lemma Forall_name l : Forall token_char l <-> forallb name_char l = true.
Proof. rewrite forallb_Forall. apply Forall_iff. intros c. by rewrite name_char_iff. Qed.

Lemma Forall_value l : Forall text_char l <-> forallb value_char l = true.
Proof. rewrite forallb_Forall. apply Forall_iff. intros c. by rewrite value_char_iff. Qed.

Definition header_line (nv : cstr * cstr) : cstr := nv.1 ++ ":"%byte :: nv.2 ++ CRLF.

Lemma strstr_Some s pat i :
  strstr s pat = Some i -> s = take i s ++ pat ++ drop (i + length pat) s.
Proof.
  revert i. induction s as [|x s IH]; intros i; simpl.
  - destruct (starts_with pat []) eqn:E; [|done]. intros [= <-]. apply starts_with_spec in E as [k E].
    symmetry in E. apply app_nil in E as [-> ->]. done.
  - destruct (starts_with pat (x :: s)) eqn:E.
    + intros [= <-]. apply starts_with_spec in E as [k ->]. simpl. by rewrite drop_app_length.
    + destruct (strstr s pat) as [j|]; [|done]. intros [= <-]. simpl. f_equal. by apply IH.
Qed.

Lemma strstr_crlf a b : x0d ∉ a -> strstr (a ++ CRLF ++ b) CRLF = Some (length a).
Proof.
  induction a as [|x a IH]; intros Ha; [done|]. rewrite not_elem_of_cons in Ha. destruct Ha as [Hx Ha].
  change (strstr ((x :: a) ++ CRLF ++ b) CRLF)
    with (if starts_with CRLF (x :: a ++ CRLF ++ b) then Some 0 else S <$> strstr (a ++ CRLF ++ b) CRLF).
  rewrite (IH Ha). destruct (starts_with CRLF _) eqn:E; [|done].
  apply starts_with_spec in E as [k E]. simpl in E. injection E as -> _. done.
Qed.

Lemma name_char_plain c : token_char c -> c <> ":"%byte /\ c <> x0d.
Proof. intros H%name_char_iff. split; intros ->; revert H; by vm_compute. Qed.

Lemma value_char_plain c : text_char c -> c <> x0d.
Proof. intros H%value_char_iff ->. revert H. by vm_compute. Qed.

(** The characters of a good line before its end. *)
Lemma header_line_split nv rest :
  header_ok nv ->
  strstr (header_line nv ++ rest) CRLF = Some (length nv.1 + 1 + length nv.2)
  /\ take (length nv.1 + 1 + length nv.2) (header_line nv ++ rest) = nv.1 ++ ":"%byte :: nv.2
  /\ drop (length nv.1 + 1 + length nv.2 + 2) (header_line nv ++ rest) = rest
  /\ strchr (nv.1 ++ ":"%byte :: nv.2) ":"%byte = Some (length nv.1).
Proof.
  intros [Hn Hc Hf Hv]. destruct nv as [n v]. cbn [fst snd] in *. set (a := n ++ ":"%byte :: v).
  assert (length a = length n + 1 + length v) as Hl by (subst a; rewrite length_app; simpl; lia).
  assert (header_line (n, v) ++ rest = a ++ CRLF ++ rest) as E.
  { subst a. unfold header_line. simpl. rewrite <- !app_assoc. simpl. by rewrite <- !app_assoc. }
  rewrite E, <- Hl. split_and!.
  - apply strstr_crlf. subst a. rewrite elem_of_app, elem_of_cons. rewrite Forall_forall in Hc, Hv.
    intros [H|[H|H]]; [by apply Hc, name_char_plain in H as []|done|by apply Hv, value_char_plain in H].
  - apply take_app_length.
  - rewrite app_assoc. assert (length a + 2 = length (a ++ CRLF)) as -> by (rewrite length_app; done). apply drop_app_length.
  - apply strchr_Some. subst a. rewrite take_app_length. split_and!.
    + by rewrite drop_app_ge by lia; replace (S (length n) - length n) with 1 by lia.
    + rewrite Forall_forall in Hc. intros H. by apply Hc, name_char_plain in H as [].
    + rewrite length_app. simpl. lia.
Qed.

Lemma validate_lines_nil fuel count : validate_lines fuel count [] = 0%Z.
Proof. by destruct fuel. Qed.

(** A line is accepted exactly when it is a good one, and the rest is. *)
Lemma validate_lines_step fuel count line :
  line <> [] ->
  validate_lines (S fuel) count line = 0%Z <->
  exists nv rest, line = header_line nv ++ rest /\ header_ok nv /\ count < WEB_HTTP_MAX_HEADER_LINES
    /\ validate_lines fuel (count + 1) rest = 0%Z.
Proof.
  intros Hne. assert (validate_lines (S fuel) count line =
    match strstr line CRLF with
    | None => (- EINVAL)%Z
    | Some e =>
        if decide (e = 0 \/ WEB_HTTP_MAX_HEADER_LINES < count + 1) then (- EINVAL)%Z
        else match strchr (take e line) ":"%byte with
             | None => (- EINVAL)%Z
             | Some colon =>
                 if decide (colon = 0 \/ is_forbidden_header (take colon line) = true) then (- EINVAL)%Z
                 else if negb (forallb name_char (take colon line)) then (- EINVAL)%Z
                 else if negb (forallb value_char (take (e - (colon + 1)) (drop (colon + 1) line))) then (- EINVAL)%Z
                 else validate_lines fuel (count + 1) (drop (e + 2) line)
             end
    end) as -> by (by destruct line). clear Hne. split.
  - destruct (strstr line CRLF) as [e|] eqn:Es; [|done]. case_decide as He; [done|].
    destruct (strchr (take e line) ":"%byte) as [colon|] eqn:Ec; [|done]. case_decide as Hc; [done|].
    destruct (forallb name_char _) eqn:En; [|done]. destruct (forallb value_char _) eqn:Ev; [|done]. cbn [negb].
    intros Hrest. apply strstr_Some in Es. apply strchr_Some in Ec as (Ec & Hcn & Hcl).
    assert (colon < e) as Hlt by (rewrite length_take in Hcl; lia).
    rewrite take_take, Nat.min_l in Ec by lia.
    exists (take colon line, take (e - (colon + 1)) (drop (colon + 1) line)), (drop (e + 2) line).
    split_and!; [| |lia|done].
    + rewrite Es at 1. rewrite Ec at 1. unfold header_line. simpl. rewrite <- !app_assoc. simpl.
      rewrite <- !app_assoc. simpl. do 3 f_equal. rewrite skipn_firstn_comm. f_equal; [lia|f_equal; lia].
    + split; cbn [fst snd].
      * intros H. apply (f_equal length) in H. rewrite length_take in H, Hcl. simpl in H. lia.
      * by apply Forall_name.
      * rewrite <- forbidden_iff. naive_solver.
      * by apply Forall_value.
  - intros (nv & rest & -> & Hok & Hcount & Hrest). destruct (header_line_split nv rest Hok) as (-> & Ht & Hd & Hch).
    rewrite decide_False by lia. rewrite Ht, Hch. destruct Hok as [Hn Hc Hf Hv].
    assert (take (length nv.1) (header_line nv ++ rest) = nv.1) as Htn.
    { unfold header_line. rewrite <- app_assoc. apply take_app_length. }
    assert (take (length nv.1 + 1 + length nv.2 - (length nv.1 + 1)) (drop (length nv.1 + 1) (header_line nv ++ rest)) = nv.2) as Htv.
    { unfold header_line. rewrite <- app_assoc. simpl. rewrite drop_app_ge by lia.
      replace (length nv.1 + 1 - length nv.1) with 1 by lia. simpl. rewrite <- app_assoc.
      replace (length nv.1 + 1 + length nv.2 - (length nv.1 + 1)) with (length nv.2) by lia. apply take_app_length. }
    rewrite Htn, Htv, Hd. rewrite decide_False.
    + rewrite (proj1 (Forall_name nv.1) Hc), (proj1 (Forall_value nv.2) Hv). exact Hrest.
    + intros [H|H]; [by apply length_zero_iff_nil in H|by apply forbidden_iff in H].
Qed.

Lemma header_line_length nv : 3 <= length (header_line nv).
Proof. unfold header_line. rewrite length_app. simpl. rewrite length_app. simpl. lia. Qed.

Lemma validate_lines_iff fuel count line :
  length line <= fuel ->
  validate_lines fuel count line = 0%Z <->
  exists l, line = concat (header_line <$> l) /\ Forall header_ok l /\ (l <> [] -> count + length l <= WEB_HTTP_MAX_HEADER_LINES).
Proof.
  revert count line. induction fuel as [|fuel IH]; intros count line Hl.
  - destruct line; [|simpl in Hl; lia]. split; [by exists []|done].
  - destruct (decide (line = [])) as [->|Hne].
    { rewrite validate_lines_nil. split; [by exists []|done]. }
    rewrite validate_lines_step by done. split.
    + intros (nv & rest & -> & Hok & Hc & Hrest). pose proof (header_line_length nv). rewrite length_app in Hl.
      apply IH in Hrest as (l & -> & Hall & Hlen); [|lia]. exists (nv :: l). split_and!; [done|by constructor|].
      intros _. simpl. destruct l; simpl in *; [lia|]. specialize (Hlen ltac:(done)). lia.
    + intros (l & -> & Hall & Hlen). destruct l as [|nv l]; [done|]. apply Forall_cons in Hall as [Hok Hall].
      pose proof (header_line_length nv).
      change (concat (header_line <$> nv :: l)) with (header_line nv ++ concat (header_line <$> l)) in Hl. rewrite length_app in Hl. specialize (Hlen ltac:(done)). simpl in Hlen.
      exists nv, (concat (header_line <$> l)). split_and!; [done|done|lia|]. apply IH; [lia|].
      exists l. split_and!; [done|done|]. intros _. lia.
Qed.

(** C27: the headers an application may send are exactly a sequence of at most
    sixteen lines, each a name, a colon, a value and CR LF, where the name is a
    non-empty word of letters, digits and hyphens other than Host, Content-Length,
    Connection and Transfer-Encoding in any case, and the value has no control
    character but the tab: they cannot end the header block, start another
    request or change its framing. *)
Theorem validate_headers_iff (h : cstr) :
  validate_headers (Some h) = 0%Z <->
  exists l, h = concat (header_line <$> l) /\ Forall header_ok l /\ length l <= WEB_HTTP_MAX_HEADER_LINES.
Proof.
  unfold validate_headers. rewrite validate_lines_iff by lia. split; intros (l & -> & Hall & Hlen); exists l; split_and!; try done.
  - destruct l; simpl in *; [apply Nat.le_0_l|by apply Hlen].
Qed.

(** ** The response *)

Definition total (fs : list http_response) : list byte := concat (body_frag <$> fs).

(** The context after the fragments [fs]. *)
Record collected (c0 : response_context) (fs : list http_response) (c : response_context) : Prop := {
  co_capacity : capacity c = capacity c0;
  co_length : length (body c) = length (body c0);
  co_len : body_len (response c) = Z.of_nat (capacity c0 `min` length (total fs));
  co_body : take (capacity c0 `min` length (total fs)) (body c) = take (capacity c0) (total fs);
  co_rest : drop (capacity c0) (body c) = drop (capacity c0) (body c0);
  co_truncated : Z.testbit (flags (response c)) 0 = bool_decide (capacity c0 < length (total fs));
}.

Lemma length_filled (b t : list byte) n : length t <= length b -> n = length t -> take n b = t -> b = t ++ drop n b.
Proof. intros _ _ <-. by rewrite take_drop. Qed.

Lemma flag_bits (f : Z) (cl : bool) :
  Z.testbit (if cl then Z.ldiff f WEB_HTTP_RESPONSE_LENGTH_UNKNOWN else Z.lor f WEB_HTTP_RESPONSE_LENGTH_UNKNOWN) 0 = Z.testbit f 0.
Proof.
  unfold WEB_HTTP_RESPONSE_LENGTH_UNKNOWN. destruct cl; [rewrite Z.ldiff_spec|rewrite Z.lor_spec];
    change (Z.testbit 2 0) with false; [by rewrite andb_true_r|by rewrite orb_false_r].
Qed.

(** A store of [data] after the bytes collected so far. *)
Lemma fill_body (b0 b t data : list byte) cap :
  cap <= length b0 -> length b = length b0 -> length t + length data <= cap ->
  take (length t) b = t -> drop cap b = drop cap b0 ->
  length (write_at b (length t) data) = length b0
  /\ take (length t + length data) (write_at b (length t) data) = t ++ data
  /\ drop cap (write_at b (length t) data) = drop cap b0.
Proof.
  intros Hc Hb Hl Ht Hd. split_and!.
  - rewrite length_write_at; lia.
  - rewrite take_write_at by lia. by rewrite Ht.
  - rewrite <- Hd. unfold write_at. rewrite app_assoc, drop_app_ge; [|rewrite length_app, length_take; lia].
    rewrite drop_drop, length_app, length_take. f_equal. lia.
Qed.

Lemma collected_step c0 fs c f :
  capacity c0 <= length (body c0) -> collected c0 fs c -> collected c0 (fs ++ [f]) (response_cb f c).2.
Proof.
  intros Hcap [Hc Hlen Hbl Hbody Hrest Htr]. unfold response_cb.
  set (fl := if cl_present f then (_, _) else _). pose proof (flag_bits (flags (response c)) (cl_present f)) as Hbits.
  assert (Z.testbit fl.2 0 = Z.testbit (flags (response c)) 0) as Hfl by (subst fl; by destruct (cl_present f)).
  destruct fl as [len flag]. cbn [snd] in Hfl. rewrite Hbl, Nat2Z.id, Hc.
  assert (total (fs ++ [f]) = total fs ++ body_frag f) as Ht.
  { unfold total. rewrite fmap_app, concat_app. simpl. by rewrite app_nil_r. }
  set (t := take (capacity c0) (total fs)) in *.
  assert (length t = capacity c0 `min` length (total fs)) as Hlt by (subst t; by rewrite length_take).
  rewrite <- Hlt in Hbody |- *. destruct (decide (capacity c0 - length t < length (body_frag f))) as [Hover|Hfit].
  - destruct (fill_body (body c0) (body c) t (take (capacity c0 - length t) (body_frag f)) (capacity c0)) as (H1 & H2 & H3);
      [done|done|rewrite length_take; lia|done|done|].
    assert (capacity c0 < length (total fs ++ body_frag f)) as Hbig by (rewrite length_app; lia).
    assert (t ++ take (capacity c0 - length t) (body_frag f) = take (capacity c0) (total fs ++ body_frag f)) as Htk.
    { rewrite take_app. fold t. f_equal. destruct (decide (capacity c0 <= length (total fs))).
      - replace (capacity c0 - length t) with 0 by lia. by replace (capacity c0 - length (total fs)) with 0 by lia.
      - by replace (length t) with (length (total fs)) by lia. }
    split; cbn [snd response body capacity body_len flags]; rewrite ?Ht; try done.
    + rewrite Nat.min_l by lia. rewrite Hlt. lia.
    + rewrite Nat.min_l by lia. rewrite <- Htk, <- H2. f_equal. rewrite length_take. lia.
    + rewrite Z.lor_spec. change (Z.testbit WEB_HTTP_RESPONSE_TRUNCATED 0) with true. rewrite orb_true_r.
      by rewrite bool_decide_true.
  - destruct (fill_body (body c0) (body c) t (body_frag f) (capacity c0)) as (H1 & H2 & H3); [done|done|lia|done|done|].
    destruct (decide (body_frag f = [])) as [Hnil|Hne].
    + rewrite Hnil, app_nil_r in Ht. rewrite Hnil, write_at_nil. rewrite Z.add_0_r.
      split; cbn [snd response body capacity body_len flags]; rewrite ?Ht; try done; [by rewrite Hlt|by rewrite <- Hlt|congruence].
    + assert (0 < length (body_frag f)) by (destruct (body_frag f); [done|simpl; lia]).
      assert (length t = length (total fs)) as Hall by lia.
      assert (t = total fs) as Htt by (subst t; apply take_ge; lia).
      split; cbn [snd response body capacity body_len flags]; rewrite ?Ht; try done.
      * rewrite length_app, Nat.min_r by lia. lia.
      * rewrite length_app, Nat.min_r by lia. rewrite <- Hall, H2, Htt. rewrite take_ge; [done|]. rewrite length_app. lia.
      * rewrite Hfl, Htr. apply bool_decide_ext. rewrite length_app. lia.
Qed.

Lemma collected_all c0 fs :
  capacity c0 <= length (body c0) -> body_len (response c0) = 0%Z -> Z.testbit (flags (response c0)) 0 = false ->
  collected c0 fs (collect fs c0).
Proof.
  intros Hcap Hbl Hfl. induction fs as [|f fs IH] using rev_ind.
  - split; try done; change (total []) with (@nil byte); [by rewrite Nat.min_0_r|by rewrite Nat.min_0_r; destruct (capacity c0)].
  - unfold collect. rewrite foldl_app. by apply collected_step.
Qed.

(** ** Sockets *)

Section requests.
Context {P : UrlParser} {N : NetStack}.
Implicit Types (w : client) (fd : Z).

(** The sockets open after a call, the newest first; [None] for a call on a
    socket that is not open. *)
Definition socket_step (o : option (list Z)) (c : net_call) : option (list Z) :=
  l ← o;
  match c with
  | CallSocket fd _ => Some (fd :: l)
  | CallOption fd _ _ | CallConnect fd _ | CallRequest fd _ _ _ => if decide (fd ∈ l) then Some l else None
  | CallClose fd => match l with fd' :: l' => if decide (fd = fd') then Some l' else None | [] => None end
  | CallResolve _ _ _ | CallFree _ => Some l
  end.
Definition open_sockets (l : list net_call) : option (list Z) := foldl socket_step (Some []) l.

Definition resolved (c : net_call) : option (list address) :=
  match c with CallResolve _ _ (a :: l) => Some (a :: l) | _ => None end.
Definition freed (c : net_call) : option (list address) := match c with CallFree l => Some l | _ => None end.

Definition is_request (c : net_call) : Prop := match c with CallRequest _ _ _ _ => True | _ => False end.

(** The answers of the HTTP library, each with its result; and everything the
    library passed to the callback. *)
Definition answer_of (c : net_call) : option (list http_response * Z) :=
  match c with CallRequest _ _ fs r => Some (fs, r) | _ => None end.
Definition answers (l : list net_call) : list (list http_response * Z) := omap answer_of l.
Definition received (l : list net_call) : list http_response := concat (fst <$> answers l).

Lemma answers_app l k : answers (l ++ k) = answers l ++ answers k.
Proof. apply omap_app. Qed.

Lemma no_answers l : Forall (fun c => ~ is_request c) l -> answers l = [].
Proof. unfold answers. induction 1 as [|c l Hc _ IH]; [done|]. destruct c; try exact IH. by destruct Hc. Qed.

(** Calls on an open socket other than a request. *)
Definition prepares fd (c : net_call) : Prop :=
  match c with CallOption fd' _ _ | CallConnect fd' _ => fd' = fd | _ => False end.

(** The options every connection of a request has. *)
Definition options (parsed : parsed_url) (timeout_ms : Z) : list sockopt :=
  [SO_RCVTIMEO timeout_ms; SO_SNDTIMEO timeout_ms]
  ++ (if tls parsed then [TLS_SEC_TAG_LIST [WEB_HTTP_CA_TAG]; TLS_HOSTNAME (host parsed); TLS_PEER_VERIFY_REQUIRED] else []).

Lemma options_eq parsed timeout_ms :
  options parsed timeout_ms = timeouts timeout_ms ++ (if tls parsed then tls_options (host parsed) else []).
Proof. done. Qed.

(** The calls of a connection that was made with all its options set. *)
Definition connection (parsed : parsed_url) (timeout_ms : Z) fd (rets : list Z) : list net_call :=
  CallSocket fd (tls parsed) :: zip_with (CallOption fd) (options parsed timeout_ms) rets ++ [CallConnect fd 0].

(** An attempt that was given up leaves nothing open. *)
Definition abandoned (l : list net_call) : Prop :=
  l = [] \/ exists fd t mid, l = CallSocket fd t :: mid ++ [CallClose fd] /\ Forall (prepares fd) mid.

Lemma socket_step_None l : foldl socket_step None l = None.
Proof. by induction l. Qed.

Lemma prepares_open fd mid : Forall (prepares fd) mid -> foldl socket_step (Some [fd]) mid = Some [fd].
Proof.
  induction 1 as [|c mid Hc _ IH]; [done|]. cbn [foldl].
  assert (socket_step (Some [fd]) c = Some [fd]) as ->; [|done].
  destruct c; simpl in Hc; try done; subst; cbn; by rewrite decide_True by set_solver.
Qed.

Lemma abandoned_open l : abandoned l -> open_sockets l = Some [].
Proof.
  intros [->|(fd & t & mid & -> & Hm)]; [done|]. unfold open_sockets. cbn [foldl]. rewrite foldl_app.
  change (socket_step (Some []) (CallSocket fd t)) with (Some [fd]). rewrite prepares_open by done. cbn.
  by rewrite decide_True.
Qed.

Lemma open_app l k : open_sockets l = Some [] -> open_sockets (l ++ k) = open_sockets k.
Proof. unfold open_sockets. rewrite foldl_app. by intros ->. Qed.

Lemma abandoned_quiet l : abandoned l -> Forall (fun c => ~ is_request c /\ resolved c = None /\ freed c = None) l.
Proof.
  intros [->|(fd & t & mid & -> & Hm)]; [done|]. constructor; [by simpl; split_and!; [intros []|..]|].
  apply Forall_app. split; [|constructor; [by simpl; split_and!; [intros []|..]|done]].
  eapply Forall_impl; [exact Hm|]. intros [] Hc; try done; simpl; split_and!; done || intros [].
Qed.

Lemma set_options_calls fd l w ok w' :
  set_options fd l w = (ok, w') ->
  request_lock w' = request_lock w
  /\ exists rets, calls w' = calls w ++ zip_with (CallOption fd) l rets
     /\ (ok = true -> length rets = length l /\ Forall (fun r => 0 <= r)%Z rets).
Proof.
  revert w. induction l as [|o l IH]; intros w; cbn [set_options].
  { intros [= <- <-]. split; [done|]. exists []. by rewrite app_nil_r. }
  destruct (zsock_setsockopt fd o (network w)) as [ret n]. case_decide as Hr.
  { intros [= <- <-]. split; [done|]. exists [ret]. by destruct l. }
  intros H. destruct (IH _ H) as (Hl & rets & Hc & Hok). split; [done|]. exists (ret :: rets). split.
  - rewrite Hc. simpl. by rewrite <- app_assoc.
  - intros Ht. destruct (Hok Ht) as [H1 H2]. split; [simpl; lia|]. constructor; [lia|done].
Qed.

Lemma zip_prepares fd l rets : Forall (prepares fd) (zip_with (CallOption fd) l rets).
Proof. revert rets. induction l as [|o l IH]; intros [|r rets]; simpl; constructor; done || apply IH. Qed.

(** What an attempt did. *)
Definition attempt_calls (parsed : parsed_url) (timeout_ms : Z) (r : option Z) (l : list net_call) : Prop :=
  match r with
  | None => abandoned l
  | Some fd => exists rets, l = connection parsed timeout_ms fd rets
      /\ length rets = length (options parsed timeout_ms) /\ Forall (fun x => 0 <= x)%Z rets
  end.

Lemma try_address_calls parsed timeout_ms a timed_out w r t w' :
  try_address parsed timeout_ms a timed_out w = ((r, t), w') ->
  request_lock w' = request_lock w
  /\ exists l, calls w' = calls w ++ l /\ attempt_calls parsed timeout_ms r l.
Proof.
  unfold try_address. destruct (zsock_socket a (tls parsed) (network w)) as [fd n]. case_decide.
  { intros [= <- <- <-]. split; [done|]. exists []. split; [done|by left]. }
  destruct (set_options fd (timeouts timeout_ms) _) as [ok w1] eqn:E1.
  destruct (set_options_calls _ _ _ _ _ E1) as (Hl1 & r1 & Hc1 & Hok1). cbn [calls set_network request_lock] in Hc1, Hl1.
  destruct ok; cbn [negb].
  2: { intros [= <- <- <-]. split; [done|]. eexists. split; [cbn [calls set_network close_socket]; rewrite Hc1, <- !app_assoc; done|]. right.
       eexists fd, _, _. split; [done|apply zip_prepares]. }
  destruct (Hok1 eq_refl) as [Hn1 Hp1]. clear Hok1.
  set (second := if tls parsed then _ else _). destruct second as [ok w2] eqn:E2.
  assert (request_lock w2 = request_lock w1 /\ exists r2, calls w2 = calls w1 ++ zip_with (CallOption fd) (if tls parsed then tls_options (host parsed) else []) r2
     /\ (ok = true -> length r2 = length (if tls parsed then tls_options (host parsed) else []) /\ Forall (fun r => 0 <= r)%Z r2))
    as (Hl2 & r2 & Hc2 & Hok2).
  { subst second. destruct (tls parsed); [by apply set_options_calls|]. injection E2 as <- <-. split; [done|].
    exists []. by rewrite app_nil_r. }
  clear E2 second. destruct ok; cbn [negb].
  2: { intros [= <- <- <-]. split; [simpl; congruence|]. eexists. split; [cbn [calls set_network close_socket]; rewrite Hc2, Hc1, <- !app_assoc; done|]. right.
       eexists fd, _, (_ ++ _). split; [cbn [app]; rewrite <- app_assoc; done|]. apply Forall_app. split; apply zip_prepares. }
  destruct (Hok2 eq_refl) as [Hn2 Hp2]. clear Hok2. destruct (zsock_connect fd a (network w2)) as [ret n2].
  case_decide as Hret; intros [= <- <- <-]; (split; [simpl; congruence|]); eexists;
    (split; [cbn [calls set_network close_socket]; rewrite Hc2, Hc1, <- !app_assoc; done|]).
  - exists (r1 ++ r2). rewrite Hret. split_and!.
    + unfold connection. rewrite options_eq, zip_with_app by done. rewrite <- !app_assoc. done.
    + rewrite options_eq, !length_app. lia.
    + by apply Forall_app.
  - right. exists fd, (tls parsed), (zip_with (CallOption fd) (timeouts timeout_ms) r1
      ++ zip_with (CallOption fd) (if tls parsed then tls_options (host parsed) else []) r2 ++ [CallConnect fd ret]). split; [cbn [app]; rewrite <- !app_assoc; done|].
    rewrite !Forall_app. split_and!; [apply zip_prepares..|]. by constructor.
Qed.

(** Calls that leave everything as it was: nothing open, no request. *)
Definition harmless (l : list net_call) : Prop :=
  open_sockets l = Some [] /\ Forall (fun c => ~ is_request c /\ resolved c = None /\ freed c = None) l.

Lemma connect_loop_calls parsed timeout_ms l timed_out w r t w' :
  connect_loop parsed timeout_ms l timed_out w = ((r, t), w') ->
  request_lock w' = request_lock w
  /\ exists k1 k2, calls w' = calls w ++ k1 ++ k2 /\ harmless k1 /\ attempt_calls parsed timeout_ms r k2.
Proof.
  revert timed_out w. induction l as [|a l IH]; intros timed_out w; cbn [connect_loop].
  { intros [= <- <- <-]. split; [done|]. exists [], []. split_and!; [by rewrite app_nil_r|by split|by left]. }
  destruct (try_address _ _ a timed_out w) as [[r1 t1] w1] eqn:E1.
  destruct (try_address_calls _ _ _ _ _ _ _ _ E1) as (Hl1 & k & Hc1 & Ha). destruct r1 as [fd|].
  { intros [= <- <- <-]. split; [done|]. exists [], k. split_and!; [done|by split|done]. }
  intros H. destruct (IH _ _ H) as (Hl2 & k1 & k2 & Hc2 & [Ho Hq] & Hk2). split; [congruence|].
  exists (k ++ k1), k2. split_and!; [by rewrite Hc2, Hc1, <- !app_assoc| |done]. split.
  - rewrite open_app by (by apply abandoned_open). done.
  - apply Forall_app. split; [by apply abandoned_quiet|done].
Qed.

(** At most one request, on a connection that has all its options. *)
Definition sends_verified (parsed : parsed_url) (headers : option cstr) (timeout_ms : Z) (l : list net_call) : Prop :=
  Forall (fun c => ~ is_request c) l
  \/ exists before fd rets rq fs r after, l = (before ++ connection parsed timeout_ms fd rets) ++ CallRequest fd rq fs r :: after
       /\ Forall (fun c => ~ is_request c) (before ++ connection parsed timeout_ms fd rets)
       /\ Forall (fun c => ~ is_request c) after
       /\ length rets = length (options parsed timeout_ms) /\ Forall (fun x => 0 <= x)%Z rets
       /\ rq_host rq = host parsed /\ rq_url rq = uri parsed
       /\ (rq_header_fields rq = None \/ rq_header_fields rq = headers).

Lemma connection_rest parsed timeout_ms fd rets :
  exists mid, connection parsed timeout_ms fd rets = CallSocket fd (tls parsed) :: mid /\ Forall (prepares fd) mid.
Proof.
  eexists. split; [done|]. apply Forall_app. split; [apply zip_prepares|by constructor].
Qed.

Definition quiet (c : net_call) : Prop := ~ is_request c /\ resolved c = None /\ freed c = None.

Lemma connection_quiet parsed timeout_ms fd rets : Forall quiet (connection parsed timeout_ms fd rets).
Proof.
  destruct (connection_rest parsed timeout_ms fd rets) as (mid & -> & Hm). constructor; [by split_and!; [intros []|..]|].
  eapply Forall_impl; [exact Hm|]. intros [] Hc; try done; split_and!; done || intros [].
Qed.

Lemma attempt_harmless parsed timeout_ms k1 k2 :
  harmless k1 -> attempt_calls parsed timeout_ms None k2 -> harmless (k1 ++ k2).
Proof.
  intros [Ho Hq] Ha. split; [by rewrite open_app; [apply abandoned_open|]|].
  apply Forall_app. split; [done|by apply abandoned_quiet].
Qed.

Definition addresses_freed (l : list address) : list net_call := if decide (length l <> 0) then [CallFree l] else [].

Lemma omap_quiet l : Forall quiet l -> omap resolved l = [] /\ omap freed l = [].
Proof. induction 1 as [|c l (_ & H1 & H2) _ [IH1 IH2]]; simpl; [done|]. by rewrite H1, H2. Qed.

(** A request between the lookup and the release of the addresses. *)
Lemma wrap_calls h p (l : list address) mid :
  open_sockets mid = Some [] -> omap resolved mid = [] -> omap freed mid = [] ->
  open_sockets (CallResolve h p l :: mid ++ addresses_freed l) = Some []
  /\ omap resolved (CallResolve h p l :: mid ++ addresses_freed l) = omap freed (CallResolve h p l :: mid ++ addresses_freed l).
Proof.
  intros Ho Hr Hf. split.
  - change (open_sockets (mid ++ addresses_freed l) = Some []). rewrite open_app by done.
    unfold addresses_freed. by case_decide.
  - cbn [omap list_omap]. rewrite !omap_app, Hr, Hf. unfold addresses_freed. by destruct l.
Qed.

Lemma not_requests l : Forall quiet l -> Forall (fun c => ~ is_request c) l.
Proof. intros H. eapply Forall_impl; [exact H|]. by intros c []. Qed.

Lemma free_not_requests l : Forall (fun c => ~ is_request c) (addresses_freed l).
Proof. unfold addresses_freed. case_decide; [constructor; [by intros []|done]|done]. Qed.

(** How many requests were made, and how the library's result decides: none, or
    one, which succeeded exactly if the library says so. *)
Definition asked (ret : Z) (l : list net_call) : Prop :=
  (answers l = [] /\ ret <> WEB_HTTP_OK)
  \/ exists fs r, answers l = [(fs, r)] /\ (ret = WEB_HTTP_OK <-> (0 <= r)%Z).

(** How a request that made the calls [l] ended. *)
Definition request_result (c : response_context) (ret : Z) (c' : response_context) (l : list net_call) : Prop :=
  asked ret l /\ c' = collect (received l) c
  /\ (Z.testbit (flags (response c')) 0 = true -> answers l = [] \/ ret = WEB_HTTP_OK \/ ret = WEB_HTTP_ERR_TOO_LARGE).

Lemma request_result_answers c ret c' l k : answers k = answers l -> request_result c ret c' l -> request_result c ret c' k.
Proof. unfold request_result, asked, received. by intros ->. Qed.

Lemma not_requested c ret l : ret <> WEB_HTTP_OK -> Forall (fun c => ~ is_request c) l -> request_result c ret c l.
Proof.
  intros Hr Hl%no_answers. unfold request_result, asked, received. rewrite Hl. split_and!; [by left|done|by left].
Qed.

Lemma map_request_error_fails ret tls r : map_request_error ret tls r <> WEB_HTTP_OK.
Proof. unfold map_request_error. by repeat case_decide. Qed.

Lemma perform_result fd parsed m headers body timeout_ms c w ret c' w' :
  perform fd parsed m headers body timeout_ms c w = ((ret, c'), w') ->
  request_lock w' = request_lock w
  /\ exists rq fs r, calls w' = calls w ++ [CallRequest fd rq fs r]
       /\ request_result c ret c' [CallRequest fd rq fs r]
       /\ rq_host rq = host parsed /\ rq_url rq = uri parsed
       /\ (rq_header_fields rq = None \/ rq_header_fields rq = headers).
Proof.
  unfold perform. set (rq := Request _ _ _ _ _ _). destruct (http_client_req _ _ _ _ _) as [[fs r] n].
  intros [= <- <- <-]. split; [done|]. exists rq, fs, r.
  split_and!; [done| |done|done|subst rq; simpl; destruct headers as [[|x h]|]; [by left|by right|by left]].
  assert (received [CallRequest fd rq fs r] = fs) as Hfs by apply app_nil_r. unfold request_result. rewrite Hfs. split_and!.
  - right. exists fs, r. split; [done|]. case_decide; [|split; [lia|done]]. split; [by intros ?%map_request_error_fails|lia].
  - done.
  - intros Ht. right. case_decide; [|by left]. right. unfold map_request_error.
    rewrite decide_True; [done|]. left. intros H0. apply (f_equal (fun z => Z.testbit z 0)) in H0.
    rewrite Z.land_spec, Ht in H0. done.
Qed.

Lemma exchange_spec parsed m headers body timeout_ms addresses c w ret c' w' :
  exchange parsed m headers body timeout_ms addresses c w = ((ret, c'), w') ->
  request_lock w' = request_lock w
  /\ exists mid, calls w' = calls w ++ mid /\ request_result c ret c' mid /\ open_sockets mid = Some [] /\ omap resolved mid = [] /\ omap freed mid = []
     /\ sends_verified parsed headers timeout_ms mid.
Proof.
  unfold exchange. destruct (connect_loop _ _ addresses false w) as [[fd t] w1] eqn:E1.
  destruct (connect_loop_calls _ _ _ _ _ _ _ _ E1) as (Hl1 & k1 & k2 & Hc1 & Hk1 & Hk2). destruct fd as [fd|].
  - destruct (perform _ _ _ _ _ _ _ _) as [[ret2 c2] w2] eqn:E2. intros [= <- <- <-].
    destruct (perform_result _ _ _ _ _ _ _ _ _ _ _ E2) as (Hl2 & rq & fs & r & Hc2 & Hres & Hrq).
    destruct Hk2 as (rets & -> & Hlen & Hpos). destruct Hk1 as [Ho1 Hq1].
    assert (Forall quiet (k1 ++ connection parsed timeout_ms fd rets)) as Hqq
      by (apply Forall_app; split; [done|apply connection_quiet]).
    destruct (omap_quiet _ Hqq) as [Hor Hof]. split; [simpl; congruence|].
    exists ((k1 ++ connection parsed timeout_ms fd rets) ++ [CallRequest fd rq fs r; CallClose fd]). split_and!.
    + cbn [calls set_network close_socket]. rewrite Hc2, Hc1, <- !app_assoc. done.
    + apply (request_result_answers _ _ _ [CallRequest fd rq fs r]); [|done].
      by rewrite answers_app, (no_answers _ (not_requests _ Hqq)).
    + rewrite <- app_assoc, open_app by done.
      destruct (connection_rest parsed timeout_ms fd rets) as (mid & -> & Hm). unfold open_sockets. cbn [foldl app].
      rewrite foldl_app. change (socket_step (Some []) (CallSocket fd (tls parsed))) with (Some [fd]).
      rewrite prepares_open by done. cbn. rewrite decide_True by set_solver. cbn. by rewrite decide_True.
    + by rewrite omap_app, Hor.
    + by rewrite omap_app, Hof.
    + right. exists k1, fd, rets, rq, fs, r, [CallClose fd]. split_and!; try done; [by apply not_requests| |apply Hrq..].
      constructor; [by intros []|done].
  - intros [= <- <- <-]. destruct (attempt_harmless parsed timeout_ms k1 k2 Hk1 Hk2) as [Ho Hq].
    destruct (omap_quiet _ Hq) as [Hor Hof]. split; [done|].
    exists (k1 ++ k2). split_and!; [done| |done..|left; by apply not_requests].
    apply not_requested; [by destruct t, (tls parsed)|by apply not_requests].
Qed.

Lemma verified_wrap parsed headers timeout_ms h p addresses mid :
  sends_verified parsed headers timeout_ms mid ->
  sends_verified parsed headers timeout_ms (CallResolve h p addresses :: mid ++ addresses_freed addresses).
Proof.
  intros [Hreq|(before & fd & rets & rq & fs & r & after & -> & Hb & Haf & Hrest)].
  - left. constructor; [by intros []|]. apply Forall_app. split; [done|apply free_not_requests].
  - right. exists (CallResolve h p addresses :: before), fd, rets, rq, fs, r, (after ++ addresses_freed addresses).
    split_and!; [by rewrite <- !app_assoc; simpl; rewrite <- app_assoc|constructor; [by intros []|done]| |apply Hrest..].
    apply Forall_app. split; [done|apply free_not_requests].
Qed.

Lemma locked_request_spec parsed m headers body timeout_ms c w ret c' w' :
  locked_request parsed m headers body timeout_ms c w = ((ret, c'), w') ->
  request_lock w' = request_lock w
  /\ exists l, calls w' = calls w ++ l /\ request_result c ret c' l /\ open_sockets l = Some [] /\ omap resolved l = omap freed l
     /\ sends_verified parsed headers timeout_ms l.
Proof.
  unfold locked_request. destruct (zsock_getaddrinfo _ _ _) as [[r addresses] n].
  set (w0 := set_network n _ w). assert (calls w0 = calls w ++ [CallResolve (host parsed) (port parsed) addresses]) as Hc0 by done.
  assert (request_lock w0 = request_lock w) as Hl0 by done. clearbody w0.
  destruct (if decide (r <> 0%Z \/ _) then _ else _) as [[ret1 c1] w1] eqn:E.
  assert (request_lock w1 = request_lock w0
    /\ exists mid, calls w1 = calls w0 ++ mid /\ request_result c ret1 c1 mid /\ open_sockets mid = Some [] /\ omap resolved mid = [] /\ omap freed mid = []
       /\ sends_verified parsed headers timeout_ms mid) as (Hl1 & mid & Hc1 & Hres & Ho & Hr & Hf & Hs).
  { revert E. case_decide; [|by apply exchange_spec]. intros [= <- <- <-].
    split; [done|]. exists []. split_and!; try done; [by rewrite app_nil_r|by apply not_requested|by left]. }
  intros [= <- <- <-]. destruct (wrap_calls (host parsed) (port parsed) addresses mid Ho Hr Hf) as [Hs' Ha].
  split; [destruct (decide (length addresses <> 0)); simpl; congruence|].
  exists (CallResolve (host parsed) (port parsed) addresses :: mid ++ addresses_freed addresses).
  split_and!; [| |done|done|by apply verified_wrap].
  2: { apply (request_result_answers _ _ _ mid); [|done]. change (answers (mid ++ addresses_freed addresses) = answers mid).
       by rewrite answers_app, (no_answers _ (free_not_requests _)), app_nil_r. }
  unfold addresses_freed. destruct (decide (length addresses <> 0)); cbn [calls set_network]; rewrite Hc1, Hc0, <- !app_assoc; [done|by rewrite app_nil_r].
Qed.

(** ** Theorems *)

(** Whatever the network does, a request gives back what it took: the lock is
    as before, every socket that was opened is closed, once and after its last
    use, and exactly the addresses the resolver returned are freed. *)
Theorem http_request_releases method url headers rb rlen body cap resp timeout_ms w r w' :
  webos_http_request method url headers rb rlen body cap resp timeout_ms w = (r, w') ->
  request_lock w' = request_lock w
  /\ exists l, calls w' = calls w ++ l /\ open_sockets l = Some [] /\ omap resolved l = omap freed l.
Proof.
  intros H. assert (request_lock w' = request_lock w /\ (w' = w \/ exists l, calls w' = calls w ++ l
    /\ open_sockets l = Some [] /\ omap resolved l = omap freed l)) as [Hl [->|Hc]]; [|split; [done|]; by exists []; rewrite app_nil_r|done].
  revert H. unfold webos_http_request. destruct url as [u|]; [|intros [= <- <-]; auto]. destruct resp as [rs|]; [|intros [= <- <-]; auto].
  case_decide; [intros [= <- <-]; auto|]. destruct (map_method method) as [m|]; [|intros [= <- <-]; auto].
  destruct (parse_url u) as [|parsed]; [intros [= <- <-]; auto|]. case_decide; [intros [= <- <-]; auto|]. cbn zeta.
  destruct (request_lock w) eqn:El; [intros [= <- <-]; auto|].
  destruct (locked_request _ _ _ _ _ _ _) as [[ret c] w1] eqn:E. intros [= <- <-]. split; [done|]. right.
  destruct (locked_request_spec _ _ _ _ _ _ _ _ _ _ E) as (_ & l & Hc & _ & Ho & Ha & _). by exists l.
Qed.

(** The timeout that is used. *)
Definition effective_timeout (timeout_ms : Z) : Z := if decide (timeout_ms = 0%Z) then WEB_HTTP_DEFAULT_TIMEOUT_MS else timeout_ms.

(** A request that got as far as the network. *)
Lemma http_request_inv method url headers rb rlen body cap resp timeout_ms w ret c w' :
  webos_http_request method url headers rb rlen body cap resp timeout_ms w = ((ret, c), w') ->
  (calls w' = calls w /\ ret <> WEB_HTTP_OK /\ (c = None \/ exists rs, c = Some (ResponseContext rs (default [] body) cap)
      /\ body_len rs = 0%Z /\ Z.testbit (flags rs) 0 = false))
  \/ exists u parsed m rs c' w1, url = Some u /\ parse_url u = inr parsed /\ validate_headers headers = 0%Z
      /\ locked_request parsed m headers (take rlen <$> rb) (effective_timeout timeout_ms)
           (ResponseContext (WebResponse rs 0 0 UINT32_MAX WEB_HTTP_RESPONSE_LENGTH_UNKNOWN) (default [] body) cap)
           (set_lock true w) = ((ret, c'), w1)
      /\ c = Some c' /\ w' = set_lock false w1.
Proof.
  unfold webos_http_request. destruct url as [u|]; [|intros [= <- <- <-]; auto]. destruct resp as [rs|]; [|intros [= <- <- <-]; auto].
  case_decide; [intros [= <- <- <-]; auto|]. destruct (map_method method) as [m|]; [|intros [= <- <- <-]; auto].
  destruct (parse_url u) as [|parsed] eqn:Eu; [intros [= <- <- <-]; left; split_and!; [done|by case_decide|by left]|].
  destruct (decide (validate_headers headers <> 0%Z)) as [Hv|Hv]; [intros [= <- <- <-]; auto|]. cbn zeta.
  destruct (request_lock w) eqn:El.
  { intros [= <- <- <-]. left. split; [done|]. split; [done|]. right. eexists. split; [done|done]. }
  destruct (locked_request _ _ _ _ _ _ _) as [[ret1 c1] w1] eqn:E. intros [= <- <- <-]. right.
  exists u, parsed, m, (struct_size rs), c1, w1. split_and!; try done. by apply dec_stable.
Qed.

Lemma split_unique {A} (Q : A -> Prop) a x b pre y post :
  Forall (fun z => ~ Q z) a -> Forall (fun z => ~ Q z) b -> Q y -> a ++ x :: b = pre ++ y :: post -> a = pre /\ x = y /\ b = post.
Proof.
  intros Ha Hb Hy. revert pre. induction Ha as [|z a Hz Ha IH]; intros [|p pre]; simpl; intros E; injection E as E1 E2.
  - by subst.
  - subst. apply Forall_app in Hb as [_ Hb]. by apply Forall_cons in Hb as [? _].
  - by subst.
  - subst. destruct (IH pre E2) as (-> & -> & ->). done.
Qed.

(** C28: data of a request leaves only on a verified connection: each request is
    sent right after a connect that succeeded, on a socket that was opened with
    the protocol the URL asks for and on which every option was set successfully,
    for https the credential, the host name of the URL and the required
    verification of the peer; it names that host and the target of the URL, and
    its header block has passed [validate_headers]; and there is one at most. *)
Theorem http_request_verified method url headers rb rlen body cap resp timeout_ms w r w' :
  webos_http_request method url headers rb rlen body cap resp timeout_ms w = (r, w') ->
  exists l, calls w' = calls w ++ l
  /\ forall pre fd rq fs r post, l = pre ++ CallRequest fd rq fs r :: post ->
     exists u parsed before rets, url = Some u /\ parse_url u = inr parsed
       /\ rq_host rq = host parsed /\ rq_url rq = uri parsed /\ validate_headers (rq_header_fields rq) = 0%Z
       /\ pre = before ++ CallSocket fd (tls parsed)
             :: zip_with (CallOption fd) (options parsed (effective_timeout timeout_ms)) rets ++ [CallConnect fd 0]
       /\ length rets = length (options parsed (effective_timeout timeout_ms)) /\ Forall (fun x => 0 <= x)%Z rets
       /\ Forall (fun c => ~ is_request c) (pre ++ post).
Proof.
  destruct r as [ret c]. intros [[Hc _]|(u & parsed & m & rs & c' & w1 & -> & Hu & Hv & E & -> & ->)]%http_request_inv.
  { exists []. split; [by rewrite app_nil_r|]. by intros [|? ?] ? ? ? ? ?. }
  destruct (locked_request_spec _ _ _ _ _ _ _ _ _ _ E) as (_ & l & Hc & _ & _ & _ & Hs). exists l. split; [done|].
  intros pre fd rq fs r post ->. destruct Hs as [Hs|(before & fd' & rets & rq' & fs' & r' & after & El & Hb & Ha & Hlen & Hpos & Hh & Hr & Hf)].
  { apply Forall_app in Hs as [_ Hs]. apply Forall_cons in Hs as [Hs _]. by destruct Hs. }
  symmetry in El. destruct (split_unique is_request _ _ _ _ (CallRequest fd rq fs r) _ Hb Ha I El) as (<- & [= -> -> _ _] & ->).
  exists u, parsed, before, rets. split_and!; try done; [by destruct Hf as [-> | ->]|by apply Forall_app].
Qed.

(** The array of the body keeps its length. *)
Lemma http_body_length method url headers rb rlen body cap resp timeout_ms w ret c w' :
  webos_http_request method url headers rb rlen body cap resp timeout_ms w = ((ret, Some c), w') ->
  cap <= length (default [] body) -> length (HttpClient.body c) = length (default [] body).
Proof.
  intros [(_ & _ & [|(rs & [= ->] & _)])|(u & parsed & m & rs & c' & w1 & _ & _ & _ & E & [= <-] & ->)]%http_request_inv Hcap; [done|done|].
  destruct (locked_request_spec _ _ _ _ _ _ _ _ _ _ E) as (_ & l & _ & (_ & -> & _) & _). set (c0 := ResponseContext _ _ _).
  by destruct (collected_all c0 (received l) Hcap eq_refl eq_refl).
Qed.

(** Whatever becomes of a request, it is made at most once. *)
Lemma http_request_asked method url headers rb rlen body cap resp timeout_ms w ret c w' :
  webos_http_request method url headers rb rlen body cap resp timeout_ms w = ((ret, c), w') ->
  exists l, calls w' = calls w ++ l /\ asked ret l.
Proof.
  intros [(Hc & Hr & _)|(u & parsed & m & rs & c' & w1 & _ & _ & _ & E & _ & ->)]%http_request_inv.
  - exists []. rewrite app_nil_r. split; [done|by left].
  - destruct (locked_request_spec _ _ _ _ _ _ _ _ _ _ E) as (_ & l & Hc & (Ha & _) & _). by exists l.
Qed.

(** C29: the response buffer holds exactly the longest prefix of the received
    body that fits: at most one request is made, it succeeds exactly if the HTTP
    library says so, and then exactly one was made; whatever fragments the library
    passed for it, and however often it went on after the callback refused one,
    [body_len] bytes of the buffer are their first bytes in order, nothing past
    the capacity is written, the truncation flag is set exactly when they did not
    fit, and then a request that does not succeed reports that they were too many. *)
Theorem http_response_exact method url headers rb rlen body cap resp timeout_ms w ret c w' :
  webos_http_request method url headers rb rlen body cap resp timeout_ms w = ((ret, Some c), w') ->
  cap <= length (default [] body) ->
  exists l, calls w' = calls w ++ l /\ asked ret l
    /\ body_len (response c) = Z.of_nat (cap `min` length (total (received l)))
    /\ take (Z.to_nat (body_len (response c))) (HttpClient.body c) = take cap (total (received l))
    /\ length (HttpClient.body c) = length (default [] body) /\ drop cap (HttpClient.body c) = drop cap (default [] body)
    /\ Z.testbit (flags (response c)) 0 = bool_decide (cap < length (total (received l)))
    /\ (cap < length (total (received l)) -> ret = WEB_HTTP_OK \/ ret = WEB_HTTP_ERR_TOO_LARGE).
Proof.
  intros [(Hc & Hr & [|(rs & [= ->] & Hl & Hf)])|(u & parsed & m & rs & c' & w1 & _ & _ & _ & E & [= <-] & ->)]%http_request_inv Hcap; [done| |].
  - exists []. cbn [response HttpClient.body]. change (total (received [])) with (@nil byte). rewrite Hl, Hf, Nat.min_0_r, app_nil_r.
    split_and!; try done; [by left|by destruct cap|simpl; lia].
  - destruct (locked_request_spec _ _ _ _ _ _ _ _ _ _ E) as (_ & l & Hc & (Ha & -> & Hres) & _). exists l.
    set (c0 := ResponseContext _ _ _) in *. destruct (collected_all c0 (received l) Hcap eq_refl eq_refl) as [H1 H2 H3 H4 H5 H6].
    split_and!; [done|done|done|by rewrite H3, Nat2Z.id|done|done|done|]. intros Hbig.
    destruct Hres as [Hn|Hres]; [by rewrite H6; apply bool_decide_true| |done].
    unfold received in Hbig. rewrite Hn in Hbig. simpl in Hbig. lia.
Qed.

End requests.

(** ** URLs *)

(** The fields of a parsed URL lie within it, and a port is a 16-bit number. *)
Class UrlParserLaws {P : UrlParser} : Prop := {
  field_within url p f : http_parser_parse_url url = Some p -> field_off p f + field_len p f <= length url;
  path_within url p : http_parser_parse_url url = Some p -> field_set p UF_PATH = true ->
    0 < field_len p UF_PATH;
  port_range url p : http_parser_parse_url url = Some p -> (0 <= parser_port p <= UINT16_MAX)%Z;
}.

Section urls.
Context {P : UrlParser} {L : UrlParserLaws}.

Lemma copy_url_field_inv url p f n s :
  http_parser_parse_url url = Some p -> copy_url_field url p f n = inr s ->
  0 < length s < n /\ s = take (field_len p f) (drop (field_off p f) url).
Proof.
  intros Hp. unfold copy_url_field. case_decide as H; [done|]. intros [= <-]. split; [|done].
  pose proof (field_within url p f Hp). rewrite length_take, length_drop. lia.
Qed.

Lemma dec_text_nonempty v : (0 <= v)%Z -> dec_text v <> [].
Proof. intros H. destruct (dec_text_head v H) as (x & s & -> & _). done. Qed.

Lemma parse_uri_inv url p s : http_parser_parse_url url = Some p -> parse_uri url p = inr s -> 0 < length s < WEB_HTTP_MAX_URI_LEN.
Proof.
  intros Hp. unfold parse_uri. destruct (field_set p UF_PATH) eqn:Ep.
  - case_decide as H; [done|]. intros [= <-]. pose proof (path_within url p Hp Ep). pose proof (field_within url p UF_PATH Hp).
    rewrite length_drop in *. lia.
  - destruct (field_set p UF_QUERY).
    + case_decide as H; [done|]. intros [= <-]. cbn [length]. rewrite length_take. lia.
    + intros [= <-]. change (length (cs "/")) with 1. unfold WEB_HTTP_MAX_URI_LEN. lia.
Qed.

(** The parts of an accepted URL fit the arrays of [struct parsed_url] with
    their NUL: the host is 1 to 127 characters without a colon, the port is the
    default one of the scheme or the decimal text of a number from 1 to 65535, the
    request target 1 to 511 characters; TLS is used exactly for the scheme https,
    and URLs with credentials or a fragment are refused. *)
Theorem parse_url_fits u parsed :
  parse_url u = inr parsed ->
  0 < length (host parsed) < WEB_HTTP_MAX_HOST_LEN /\ ":"%byte ∉ host parsed
  /\ 0 < length (uri parsed) < WEB_HTTP_MAX_URI_LEN /\ 0 < length (port parsed) < 6
  /\ "#"%byte ∉ u
  /\ exists p, http_parser_parse_url u = Some p /\ field_set p UF_USERINFO = false
     /\ (tls parsed = true <-> take (field_len p UF_SCHEMA) (drop (field_off p UF_SCHEMA) u) = cs "https")
     /\ (explicit_port parsed = true -> (1 <= parser_port p <= UINT16_MAX)%Z /\ port parsed = take 5 (dec_text (parser_port p)))
     /\ (explicit_port parsed = false -> port parsed = if tls parsed then cs "443" else cs "80").
Proof.
  unfold parse_url. case_decide as Hu; [done|]. destruct (http_parser_parse_url u) as [p|] eqn:Ep; [|done].
  destruct (copy_url_field u p UF_SCHEMA 6) as [|scheme] eqn:Es; [done|]. case_decide; [done|]. cbn zeta.
  destruct (field_set p UF_USERINFO) eqn:Ei; [done|]. destruct (copy_url_field u p UF_HOST _) as [|hst] eqn:Eh; [done|].
  case_decide as Hcolon; [done|]. case_decide as Hport; [done|]. destruct (parse_uri u p) as [|ur] eqn:Eu; [done|].
  intros [= <-]. cbn [host port uri tls explicit_port].
  apply copy_url_field_inv in Es as [_ ->]; [|done]. apply copy_url_field_inv in Eh as [Hh _]; [|done].
  apply parse_uri_inv in Eu; [|done]. pose proof (port_range u p Ep) as Hr.
  split_and!; [lia|lia|apply strchr_None; first [exact Hcolon|by apply dec_stable]|lia|lia| | |apply strchr_None; destruct (strchr u "#"%byte); [exfalso; apply Hu; by right; right|done]|].
  - destruct (field_set p UF_PORT); [|destruct (bool_decide _); vm_compute; lia]. rewrite length_take.
    pose proof (dec_text_nonempty (parser_port p) ltac:(lia)). destruct (dec_text _); [done|simpl; lia].
  - destruct (field_set p UF_PORT); [|destruct (bool_decide _); vm_compute; lia]. rewrite length_take. lia.
  - exists p. split_and!; try done; [by rewrite bool_decide_eq_true| |by intros ->].
    intros Hset. rewrite Hset. split; [|done].
    assert (parser_port p <> 0%Z) by (intros H0; apply Hport; by rewrite Hset). lia.
Qed.
End urls.

(** ** Witnesses

    A parser that knows one URL and a network that answers every request with two
    fragments of five bytes. *)

Definition demo_url : cstr := cs "https://h.io/p".
Definition demo_fields : http_parser_url :=
  ParserUrl (fun f => match f with UF_SCHEMA | UF_HOST | UF_PATH => true | _ => false end)
    (fun f => match f with UF_HOST => 8 | UF_PATH => 12 | _ => 0 end)
    (fun f => match f with UF_SCHEMA => 5 | UF_HOST => 4 | UF_PATH => 2 | _ => 0 end) 0.

#[local] Instance demo_parser : UrlParser := {|
  http_parser_parse_url u := if decide (u = demo_url) then Some demo_fields else None |}.

#[local] Instance demo_parser_laws : UrlParserLaws.
Proof.
  split; simpl; intros u p; [intros f| |]; case_decide as H; try done; intros [= <-]; subst.
  - destruct f; vm_compute; lia.
  - intros _. vm_compute. lia.
  - vm_compute. split; discriminate.
Defined.

Definition demo_fragment (s : list byte) : http_response := Response 200 true 10 s.

#[local] Instance demo_net : NetStack := {|
  net := unit;
  address := unit;
  zsock_getaddrinfo _ _ n := ((0%Z, [tt]), n);
  zsock_freeaddrinfo _ n := n;
  zsock_socket _ _ n := (3%Z, n);
  zsock_setsockopt _ _ n := (0%Z, n);
  zsock_connect _ _ n := (0%Z, n);
  zsock_close _ n := n;
  errno _ := 0%Z;
  http_client_req _ _ _ results n :=
    let fs := [demo_fragment (cs "hello"); demo_fragment (cs "world")] in ((fs, results fs), n);
  tls_credential_add _ n := (0%Z, n);
|}.

Definition demo_client : client := Client false tt [].
Definition demo_headers : cstr := cs "X-A: b" ++ CRLF.
(** A GET into a buffer of 16 bytes of which [cap] may be used. *)
Definition demo_get (cap : nat) : (Z * option response_context) * client :=
  webos_http_request 0 (Some demo_url) (Some demo_headers) None 0 (Some (replicate 16 "."%byte)) cap
    (Some (WebResponse 20 0 0 0 0)) 0 demo_client.

Lemma http_request_releases_witness :
  (demo_get 8).1.1 = WEB_HTTP_ERR_TOO_LARGE
  /\ exists l, calls (demo_get 8).2 = calls demo_client ++ l /\ open_sockets l = Some [] /\ omap resolved l = omap freed l.
Proof.
  split; [vm_compute; reflexivity|].
  exact (proj2 (http_request_releases 0 (Some demo_url) (Some demo_headers) None 0 (Some (replicate 16 "."%byte)) 8
    (Some (WebResponse 20 0 0 0 0)) 0 demo_client (demo_get 8).1 (demo_get 8).2 (surjective_pairing (demo_get 8)))).
Defined.

Lemma http_request_verified_witness :
  exists l, calls (demo_get 10).2 = calls demo_client ++ l
  /\ forall pre fd rq fs r post, l = pre ++ CallRequest fd rq fs r :: post -> rq_host rq = cs "h.io" /\ validate_headers (rq_header_fields rq) = 0%Z.
Proof.
  destruct (http_request_verified 0 (Some demo_url) (Some demo_headers) None 0 (Some (replicate 16 "."%byte)) 10
    (Some (WebResponse 20 0 0 0 0)) 0 demo_client (demo_get 10).1 (demo_get 10).2 (surjective_pairing (demo_get 10)))
    as (l & Hl & Hr).
  exists l. split; [exact Hl|]. intros pre fd rq fs r post Hp.
  destruct (Hr pre fd rq fs r post Hp) as (u & parsed & before & rets & [= <-] & Hu & Hh & _ & Hv & _).
  split; [|exact Hv]. rewrite Hh. vm_compute in Hu. injection Hu as <-. reflexivity.
Defined.

Lemma http_response_exact_witness :
  exists c l, (demo_get 8).1.2 = Some c /\ calls (demo_get 8).2 = calls demo_client ++ l
    /\ total (received l) = cs "helloworld"
    /\ take (Z.to_nat (body_len (response c))) (HttpClient.body c) = take 8 (total (received l))
    /\ Z.to_nat (body_len (response c)) = 8 /\ HttpClient.body c = cs "hellowor........".
Proof.
  destruct (http_response_exact 0 (Some demo_url) (Some demo_headers) None 0 (Some (replicate 16 "."%byte)) 8
    (Some (WebResponse 20 0 0 0 0)) 0 demo_client (demo_get 8).1.1
    (default (ResponseContext (WebResponse 0 0 0 0 0) [] 0) (demo_get 8).1.2) (demo_get 8).2) as (l & Hl & _ & _ & Hb & _);
    [vm_compute; reflexivity|vm_compute; lia|].
  eexists _, l. split; [vm_compute; reflexivity|]. split; [exact Hl|]. split; [|split; [exact Hb|split; vm_compute; reflexivity]].
  change (calls (demo_get 8).2 = [] ++ l) in Hl. simpl app in Hl. rewrite <- Hl. vm_compute. reflexivity.
Defined.

Lemma parse_url_fits_witness :
  exists parsed, parse_url demo_url = inr parsed /\ 0 < length (host parsed) < WEB_HTTP_MAX_HOST_LEN /\ tls parsed = true.
Proof.
  exists (ParsedUrl (cs "h.io") (cs "443") (cs "/p") true false). split; [vm_compute; reflexivity|].
  split; [|reflexivity]. apply (parse_url_fits demo_url). vm_compute. reflexivity.
Defined.

(** Headers that are refused: a reserved field, a folded line, a bare line feed. *)
Example demo_refused :
  validate_headers (Some (cs "Content-LENGTH: 0" ++ CRLF)) = (- EINVAL)%Z
  /\ validate_headers (Some (cs "A: b" ++ CRLF ++ cs " c" ++ CRLF)) = (- EINVAL)%Z
  /\ validate_headers (Some (cs "A: b" ++ [x0a] ++ cs "Host: evil" ++ CRLF)) = (- EINVAL)%Z
  /\ validate_headers (Some demo_headers) = 0%Z.
Proof. vm_compute. done. Qed.
