(* ===== verification/AdbSync.v ===== *)
(** * The sync service: uploads over ADB

    Model of src/lib/adb/adb_sync.c: the legacy SEND/DATA/DONE upload protocol
    and STAT, one context per stream.  A SEND names the destination; DATA
    records are streamed into a temporary file beside it; DONE moves the old
    destination out of the way, renames the temporary over it and removes the
    old file.  Any failure removes the temporary, reports FAIL and drains the
    records the client still sends.

    The file system is the interface [SyncFs].  The functions of the file work
    on one context, the nonce of the side names and the file system: the record
    [work].  The ones that call the engine are callbacks ([prog]). *)

From S2P Require Import Prelude CLib Ring AdbProtocol AdbService.
From Stdlib Require Import ZArith Lia.
From Stdlib Require Import Strings.Byte.
From stdpp Require Import base numbers list list_numbers strings countable sets.

(** ** Configuration and interfaces *)

(** The Kconfig options of the service, with their ranges. *)
Class SyncConfig := {
  SYNC_PATH_MAX : nat;
  SYNC_DATA_MAX : Z;
  range_sync_path : 64 <= SYNC_PATH_MAX <= 512;
  range_sync_data : (4096 <= SYNC_DATA_MAX <= 65536)%Z;
}.

Inductive fs_entry_type := FS_DIR_ENTRY_FILE | FS_DIR_ENTRY_DIR.
Record fs_dirent := Dirent { entry_type : fs_entry_type; entry_size : Z }.

#[global] Instance fs_entry_type_eq_dec : EqDecision fs_entry_type.
Proof. solve_decision. Defined.

(** Zephyr's file system.  [fs_stat] fills the entry when it returns 0;
    [fs_open] is called with FS_O_CREATE, FS_O_WRITE and FS_O_TRUNC. *)
Class SyncFs := {
  filesystem : Type;
  fs_file_t : Type;
  fs_file_t_init : fs_file_t;
  fs_stat : filesystem -> cstr -> option fs_dirent;
  fs_open : filesystem -> fs_file_t -> cstr -> Z * fs_file_t * filesystem;
  fs_write : filesystem -> fs_file_t -> list byte -> Z * fs_file_t * filesystem;
  fs_close : filesystem -> fs_file_t -> Z * fs_file_t * filesystem;
  fs_rename : filesystem -> cstr -> cstr -> Z * filesystem;
  fs_unlink : filesystem -> cstr -> Z * filesystem;
}.

Module Sync.

Definition SYNC_ID_STAT : Z := 0x54415453.
Definition SYNC_ID_SEND : Z := 0x444e4553.
Definition SYNC_ID_DATA : Z := 0x41544144.
Definition SYNC_ID_DONE : Z := 0x454e4f44.
Definition SYNC_ID_QUIT : Z := 0x54495551.
Definition SYNC_ID_OKAY : Z := 0x59414b4f.
Definition SYNC_ID_FAIL : Z := 0x4c494146.

Definition SYNC_ROOT : cstr := cs "/STORAGE:/".
Definition SYNC_SIDE_SUFFIX_LEN : nat := 20.
Definition SYNC_FAIL_CAPACITY : nat := 96.

Inductive sync_state :=
| SYNC_REQUEST_HEADER
| SYNC_REQUEST_SPEC
| SYNC_STAT_PATH
| SYNC_SEND_HEADER
| SYNC_SEND_DATA
| SYNC_DRAIN_HEADER
| SYNC_DRAIN_DATA
| SYNC_DISCARD_AND_CLOSE.

#[global] Instance sync_state_eq_dec : EqDecision sync_state.
Proof. solve_decision. Defined.

(** ** Which paths the service touches *)

(** A component that starts here is [.] or [..]. *)
Definition dot_component (p : cstr) : bool :=
  bool_decide (p = cs ".") || starts_with (cs "./") p || bool_decide (p = cs "..") || starts_with (cs "../") p.

(** A character no path may hold. *)
Definition bad_char (c : byte) : bool :=
  bool_decide (bval c < 32)%Z || bool_decide (c = "\"%byte) || bool_decide (c = ":"%byte).

(** The loop of [sync_path_allowed]; [start] says that [p] starts a component. *)
Fixpoint path_scan (start : bool) (p : cstr) : bool :=
  match p with
  | [] => true
  | c :: p' =>
      if bad_char c || (bool_decide (c = slash) && (bool_decide (char_at p' 0 = slash) || bool_decide (char_at p' 0 = NUL)))
      then false
      else if start && dot_component p then false
      else path_scan (bool_decide (c = slash)) p'
  end.

Definition sync_path_allowed {sc : SyncConfig} (path : cstr) : bool :=
  let root_len := length SYNC_ROOT in
  let len := length path in
  if decide (len <= root_len \/ SYNC_PATH_MAX <= len \/ strncmp path SYNC_ROOT root_len <> Eq
             \/ char_at path (len - 1) = slash \/ strstr path (cs ".adb-part-") <> None
             \/ strstr path (cs ".adb-old-") <> None)
  then false
  else path_scan true (drop root_len path).

(** The loop of [sync_stat_path_allowed], which lets a path end in a slash. *)
Fixpoint stat_path_scan (start : bool) (p : cstr) : bool :=
  match p with
  | [] => true
  | c :: p' =>
      if bad_char c || (bool_decide (c = slash) && bool_decide (char_at p' 0 = slash))
      then false
      else if start && dot_component p then false
      else stat_path_scan (bool_decide (c = slash)) p'
  end.

Definition sync_stat_path_allowed {sc : SyncConfig} (path : cstr) : bool :=
  let root_len := length SYNC_ROOT in
  let len := length path in
  if decide (len < root_len \/ SYNC_PATH_MAX <= len \/ strncmp path SYNC_ROOT root_len <> Eq)
  then false
  else stat_path_scan true (drop root_len path).

(** ** State *)

Section service.
Context {cfg : AdbConfig} {sc : SyncConfig} {F : SyncFs}.

Definition SYNC_SPEC_CAPACITY : nat := SYNC_PATH_MAX + 16.

(** [header] and [spec] are arrays; [path], [temporary] and [backup] are the
    strings their arrays hold. *)
Record sync_context := Context {
  stream : option nat;
  file : fs_file_t;
  state : sync_state;
  header : list byte;
  header_used : nat;
  remaining : Z;
  spec : list byte;
  spec_used : nat;
  path : cstr;
  temporary : cstr;
  backup : cstr;
  file_open : bool;
  temporary_live : bool;
}.

Definition zero_context : sync_context :=
  Context None fs_file_t_init SYNC_REQUEST_HEADER (replicate 8 x00) 0 0
    (replicate SYNC_SPEC_CAPACITY x00) 0 [] [] [] false false.

Record work := Work { ctx : sync_context; side_nonce : Z; fs : filesystem }.

(** Stores to the context. *)
Definition on_ctx (f : sync_context -> sync_context) (w : work) : work := Work (f (ctx w)) (side_nonce w) (fs w).

Definition with_state (x : sync_state) (c : sync_context) : sync_context :=
  Context (stream c) (file c) x (header c) (header_used c) (remaining c) (spec c) (spec_used c)
    (path c) (temporary c) (backup c) (file_open c) (temporary_live c).
Definition with_header (h : list byte) (n : nat) (c : sync_context) : sync_context :=
  Context (stream c) (file c) (state c) h n (remaining c) (spec c) (spec_used c)
    (path c) (temporary c) (backup c) (file_open c) (temporary_live c).
Definition with_remaining (n : Z) (c : sync_context) : sync_context :=
  Context (stream c) (file c) (state c) (header c) (header_used c) n (spec c) (spec_used c)
    (path c) (temporary c) (backup c) (file_open c) (temporary_live c).
Definition with_spec (s : list byte) (n : nat) (c : sync_context) : sync_context :=
  Context (stream c) (file c) (state c) (header c) (header_used c) (remaining c) s n
    (path c) (temporary c) (backup c) (file_open c) (temporary_live c).
Definition with_paths (p t b : cstr) (c : sync_context) : sync_context :=
  Context (stream c) (file c) (state c) (header c) (header_used c) (remaining c) (spec c) (spec_used c)
    p t b (file_open c) (temporary_live c).
Definition with_file (f : fs_file_t) (o l : bool) (c : sync_context) : sync_context :=
  Context (stream c) f (state c) (header c) (header_used c) (remaining c) (spec c) (spec_used c)
    (path c) (temporary c) (backup c) o l.

Definition set_state (x : sync_state) : work -> work := on_ctx (with_state x).
Definition set_fs (x : filesystem) (w : work) : work := Work (ctx w) (side_nonce w) x.
Definition set_nonce (n : Z) (w : work) : work := Work (ctx w) n (fs w).

(** [webos_adb_stream_write] and [webos_adb_stream_close] on [context->stream]. *)
Definition stream_write (data : list byte) (w : work) : prog (Z * work) :=
  StreamWrite (default 0 (stream (ctx w))) 0 data (fun ret => Ret (ret, w)).
Definition stream_close (w : work) : prog work :=
  StreamClose (default 0 (stream (ctx w))) 0 (Ret w).

(** ** Replies *)

Definition path_exists (p : cstr) (w : work) : bool := bool_decide (is_Some (fs_stat (fs w) p)).

(** [context->spec[context->spec_used] = 0] *)
Definition terminate_spec (w : work) : work :=
  on_ctx (fun c => with_spec (write_at (spec c) (spec_used c) [NUL]) (spec_used c) c) w.

(** [memchr(context->spec, 0, context->spec_used) == NULL] *)
Definition spec_is_string (c : sync_context) : bool := bool_decide (strchr (take (spec_used c) (spec c)) NUL = None).

(** Modes 0040755 and 0100644. *)
Definition S_DIR : Z := 0x41ed.
Definition S_FILE : Z := 0x81a4.

Definition send_stat (w : work) : prog (Z * work) :=
  let w := terminate_spec w in
  let name := c_string (spec (ctx w)) in
  let '(mode, size) :=
    if spec_is_string (ctx w) && sync_stat_path_allowed name then
      match fs_stat (fs w) name with
      | Some e => (if decide (entry_type e = FS_DIR_ENTRY_DIR) then S_DIR else S_FILE, Z.min (entry_size e) UINT32_MAX)
      | None => (0, 0)%Z
      end
    else (0, 0)%Z in
  stream_write (put_le32 SYNC_ID_STAT ++ put_le32 mode ++ put_le32 size ++ put_le32 0)
    (set_state SYNC_REQUEST_HEADER w).

Definition cleanup_partial (w : work) : work :=
  let w := if file_open (ctx w) then
             let '(_, f, s) := fs_close (fs w) (file (ctx w)) in
             set_fs s (on_ctx (fun c => with_file f false (temporary_live c) c) w)
           else w in
  if temporary_live (ctx w) then
    let '(_, s) := fs_unlink (fs w) (temporary (ctx w)) in
    set_fs s (on_ctx (fun c => with_file (file c) (file_open c) false c) w)
  else w.

(** A status reply; [message] is the bytes of the message, none for NULL. *)
Definition status_reply (id : Z) (message : list byte) : list byte :=
  let m := take (SYNC_FAIL_CAPACITY - 8) message in
  put_le32 id ++ put_le32 (Z.of_nat (length m)) ++ m.

Definition send_status (id : Z) (message : list byte) (w : work) : prog (Z * work) :=
  stream_write (status_reply id message) w.

Definition fail_transfer (reason : cstr) (drain_state : sync_state) (w : work) : prog (Z * work) :=
  let w := cleanup_partial w in
  '(ret, w) ← send_status SYNC_ID_FAIL reason w;
  if decide (ret <> 0%Z) then Ret (ret, w) else Ret (0%Z, set_state drain_state w).

(** ** SEND *)

(** [snprintk] into an array of [n] bytes: the length of the text and the
    string stored. *)
Definition snprintk (n : nat) (text : list byte) : nat * cstr := (length text, take (n - 1) text).

Definition part_suffix (token : Z) : cstr := cs ".adb-part-" ++ hex_text 8 token.
Definition old_suffix (token : Z) : cstr := cs ".adb-old-" ++ hex_text 8 token.

Definition side_capacity : nat := SYNC_PATH_MAX + SYNC_SIDE_SUFFIX_LEN.

Fixpoint choose_loop (attempts : nat) (w : work) : Z * work :=
  match attempts with
  | O => ((- EEXIST)%Z, w)
  | Datatypes.S attempts' =>
      let token := u32 (side_nonce w + 1) in
      let w := set_nonce token w in
      let '(ret, text) := snprintk side_capacity (path (ctx w) ++ part_suffix token) in
      let w := on_ctx (fun c => with_paths (path c) text (backup c) c) w in
      if decide (side_capacity <= ret) then ((- ENAMETOOLONG)%Z, w)
      else
        let '(ret, text) := snprintk side_capacity (path (ctx w) ++ old_suffix token) in
        let w := on_ctx (fun c => with_paths (path c) (temporary c) text c) w in
        if decide (side_capacity <= ret) then ((- ENAMETOOLONG)%Z, w)
        else if negb (path_exists (temporary (ctx w)) w) && negb (path_exists (backup (ctx w)) w) then (0%Z, w)
        else choose_loop attempts' w
  end.

Definition choose_side_paths (w : work) : Z * work := choose_loop 32 w.

(** Modes whose file type is neither absent nor regular (masks 0170000 and
    0100000). *)
Definition mode_refused (mode : Z) : bool :=
  bool_decide (Z.land mode 0xf000 <> 0%Z) && bool_decide (Z.land mode 0xf000 <> 0x8000%Z).

(** The part of [start_send] after the destination has been copied. *)
Definition open_temporary (w : work) : prog (Z * work) :=
  let '(ret, w) := choose_side_paths w in
  if decide (ret <> 0%Z) then
    fail_transfer (if decide (ret = (- ENAMETOOLONG)%Z) then cs "path too long" else cs "no free staging name")
      SYNC_DRAIN_HEADER w
  else if match fs_stat (fs w) (path (ctx w)) with
          | Some e => bool_decide (entry_type e <> FS_DIR_ENTRY_FILE)
          | None => false
          end then fail_transfer (cs "destination is not a file") SYNC_DRAIN_HEADER w
  else
    let '(ret, f, s) := fs_open (fs w) fs_file_t_init (temporary (ctx w)) in
    let w := set_fs s (on_ctx (fun c => with_file f (file_open c) (temporary_live c) c) w) in
    if decide (ret <> 0%Z) then fail_transfer (cs "cannot create partial file") SYNC_DRAIN_HEADER w
    else Ret (0%Z, set_state SYNC_SEND_HEADER (on_ctx (fun c => with_file (file c) true true c) w)).

Definition start_send (w : work) : prog (Z * work) :=
  let w := terminate_spec w in
  if negb (spec_is_string (ctx w)) then fail_transfer (cs "NUL in SEND path") SYNC_DRAIN_HEADER w
  else
    let text := c_string (spec (ctx w)) in
    match strrchr text ","%byte with
    | None => fail_transfer (cs "SEND requires path,mode") SYNC_DRAIN_HEADER w
    | Some comma =>
        if decide (comma = 0 \/ char_at text (comma + 1) = NUL) then
          fail_transfer (cs "SEND requires path,mode") SYNC_DRAIN_HEADER w
        else
          let w := on_ctx (fun c => with_spec (write_at (spec c) comma [NUL]) (spec_used c) c) w in
          let '(mode, erange, rest) := strtoul (drop (comma + 1) text) in
          if decide (erange = true \/ rest <> [] \/ (UINT32_MAX < mode)%Z) then
            fail_transfer (cs "invalid SEND mode") SYNC_DRAIN_HEADER w
          else if mode_refused mode then
            fail_transfer (cs "only regular files supported") SYNC_DRAIN_HEADER w
          else
            let destination := c_string (spec (ctx w)) in
            if decide (sync_path_allowed destination = false \/ SYNC_PATH_MAX <= length destination) then
              fail_transfer (cs "path outside /STORAGE:") SYNC_DRAIN_HEADER w
            else
              open_temporary (on_ctx (fun c => with_paths destination (temporary c) (backup c) c) w)
    end.

(** ** DONE *)

Definition replace_destination (w : work) : Z * work :=
  let '(ret, f, s) := fs_close (fs w) (file (ctx w)) in
  let w := set_fs s (on_ctx (fun c => with_file f false (temporary_live c) c) w) in
  if decide (ret <> 0%Z) then (ret, w)
  else
    let p := path (ctx w) in
    let had_destination := path_exists p w in
    let '(ret, w) := if had_destination then
                       let '(ret, s) := fs_rename (fs w) p (backup (ctx w)) in (ret, set_fs s w)
                     else (0%Z, w) in
    if decide (ret <> 0%Z) then (ret, w)
    else
      let '(ret, s) := fs_rename (fs w) (temporary (ctx w)) p in
      let w := set_fs s w in
      if decide (ret <> 0%Z) then
        (ret, if had_destination then set_fs (fs_rename (fs w) (backup (ctx w)) p).2 w else w)
      else
        let w := on_ctx (fun c => with_file (file c) (file_open c) false c) w in
        (0%Z, if had_destination then set_fs (fs_unlink (fs w) (backup (ctx w))).2 w else w).

Definition finish_send (timestamp : Z) (w : work) : prog (Z * work) :=
  let '(ret, w) := replace_destination w in
  if decide (ret <> 0%Z) then fail_transfer (cs "cannot install completed file") SYNC_DRAIN_HEADER w
  else
    '(ret, w) ← send_status SYNC_ID_OKAY [] w;
    Ret (ret, if decide (ret = 0%Z) then set_state SYNC_REQUEST_HEADER w else w).

(** ** Headers *)

(** The three parts of [process_header], by the state it is called in. *)
Definition request_header (id value : Z) (w : work) : prog (Z * work) :=
  if decide (id = SYNC_ID_QUIT /\ value = 0%Z) then
    w ← stream_close w; Ret (0%Z, w)
  else if decide ((id = SYNC_ID_SEND \/ id = SYNC_ID_STAT) /\ value <> 0%Z /\ (value < Z.of_nat SYNC_SPEC_CAPACITY)%Z) then
    Ret (0%Z, on_ctx (fun c => with_spec (spec c) 0 (with_remaining value
                (with_state (if decide (id = SYNC_ID_SEND) then SYNC_REQUEST_SPEC else SYNC_STAT_PATH) c))) w)
  else
    '(ret, w) ← send_status SYNC_ID_FAIL (cs "only bounded STAT and SEND are supported") w;
    if decide (ret <> 0%Z) then Ret ((- EIO)%Z, w)
    else
      w ← stream_close (on_ctx (with_remaining 0) (set_state SYNC_DISCARD_AND_CLOSE w));
      Ret (0%Z, w).

Definition drain_header (id value : Z) (w : work) : prog (Z * work) :=
  if decide (id = SYNC_ID_DONE) then Ret (0%Z, set_state SYNC_REQUEST_HEADER w)
  else if decide (id <> SYNC_ID_DATA \/ (SYNC_DATA_MAX < value)%Z) then
    w ← stream_close w; Ret (0%Z, w)
  else Ret (0%Z, on_ctx (with_remaining value)
                   (set_state (if decide (value = 0%Z) then SYNC_DRAIN_HEADER else SYNC_DRAIN_DATA) w)).

Definition send_header (id value : Z) (w : work) : prog (Z * work) :=
  if decide (id = SYNC_ID_DONE) then finish_send value w
  else if decide (id <> SYNC_ID_DATA \/ (SYNC_DATA_MAX < value)%Z) then
    '(ret, w) ← fail_transfer (cs "invalid or oversized DATA") SYNC_DISCARD_AND_CLOSE w;
    w ← stream_close w; Ret (ret, w)
  else Ret (0%Z, on_ctx (with_remaining value)
                   (set_state (if decide (value = 0%Z) then SYNC_SEND_HEADER else SYNC_SEND_DATA) w)).

Definition process_header (w : work) : prog (Z * work) :=
  let id := get_le32 (header (ctx w)) in
  let value := get_le32 (drop 4 (header (ctx w))) in
  let w := on_ctx (fun c => with_header (header c) 0 c) w in
  if decide (state (ctx w) = SYNC_REQUEST_HEADER) then request_header id value w
  else if decide (state (ctx w) = SYNC_DRAIN_HEADER) then drain_header id value w
  else send_header id value w.

(** ** The write callback *)

Definition header_state (st : sync_state) : bool :=
  bool_decide (st = SYNC_REQUEST_HEADER \/ st = SYNC_SEND_HEADER \/ st = SYNC_DRAIN_HEADER).
Definition request_state (st : sync_state) : bool := bool_decide (st = SYNC_REQUEST_SPEC \/ st = SYNC_STAT_PATH).

(** What an iteration of the loop ends with: a [return], or the number of
    bytes it consumed. *)
Inductive iteration := Return (ret : Z) | Consumed (count : nat).

(** An error ends the loop. *)
Definition or_return (count : nat) (p : prog (Z * work)) : prog (iteration * work) :=
  '(ret, w) ← p; Ret (if decide (ret <> 0%Z) then Return ret else Consumed count, w).

(** One iteration of the loop of [sync_write], on the data left ([data] is not
    empty). *)
Definition write_iteration (data : list byte) (w : work) : prog (iteration * work) :=
  let c := ctx w in
  let take_remaining := length data `min` Z.to_nat (remaining c) in
  if decide (state c = SYNC_DISCARD_AND_CLOSE /\ remaining c = 0%Z) then Ret (Return 0, w)
  else if header_state (state c) then
    let count := length data `min` (8 - header_used c) in
    let w := on_ctx (fun c => with_header (write_at (header c) (header_used c) (take count data))
                                (header_used c + count) c) w in
    if decide (header_used (ctx w) = 8) then or_return count (process_header w) else Ret (Consumed count, w)
  else if request_state (state c) then
    let count := take_remaining in
    let w := on_ctx (fun c => with_remaining (remaining c - Z.of_nat count)
                       (with_spec (write_at (spec c) (spec_used c) (take count data)) (spec_used c + count) c)) w in
    if decide (remaining (ctx w) = 0%Z) then
      or_return count (if decide (state c = SYNC_STAT_PATH) then send_stat w else start_send w)
    else Ret (Consumed count, w)
  else if decide (state c = SYNC_SEND_DATA) then
    let count := take_remaining in
    let '(written, f, s) := fs_write (fs w) (file c) (take count data) in
    let w := set_fs s (on_ctx (fun c => with_remaining (remaining c - Z.of_nat count)
                                 (with_file f (file_open c) (temporary_live c) c)) w) in
    if decide (written <> Z.of_nat count) then
      '(ret, w) ← fail_transfer (cs "write failed")
                    (if decide (remaining (ctx w) = 0%Z) then SYNC_DRAIN_HEADER else SYNC_DRAIN_DATA) w;
      Ret (if decide (ret <> 0%Z) then Return (- EIO) else Consumed count, w)
    else
      Ret (Consumed count, if decide (remaining (ctx w) = 0%Z) then set_state SYNC_SEND_HEADER w else w)
  else
    (* SYNC_DRAIN_DATA or SYNC_DISCARD_AND_CLOSE *)
    let count := take_remaining in
    let w := on_ctx (fun c => with_remaining (remaining c - Z.of_nat count) c) w in
    if decide (remaining (ctx w) = 0%Z) then
      if decide (state c = SYNC_DISCARD_AND_CLOSE) then w ← stream_close w; Ret (Consumed count, w)
      else Ret (Consumed count, set_state SYNC_DRAIN_HEADER w)
    else Ret (Consumed count, w).

(** The loop; [None] is an exhausted fuel. *)
Fixpoint write_loop (fuel : nat) (data : list byte) (w : work) : prog (option Z * work) :=
  match data with
  | [] => Ret (Some 0%Z, w)
  | _ =>
      match fuel with
      | O => Ret (None, w)
      | Datatypes.S fuel' =>
          '(r, w) ← write_iteration data w;
          match r with
          | Return ret => Ret (Some ret, w)
          | Consumed count => write_loop fuel' (drop count data) w
          end
      end
  end.

(** An iteration consumes a byte or leaves a state with nothing to consume, so
    twice the length is fuel enough. *)
Definition write_fuel (data : list byte) : nat := 2 * length data.

(** ** The service *)

Record sync := Service { contexts : list sync_context; nonce : Z; files : filesystem }.

Definition sync_init (n : Z) (f : filesystem) : sync := Service (replicate ADB_MAX_STREAMS zero_context) n f.

Fixpoint context_index (st : option nat) (l : list sync_context) : option nat :=
  match l with
  | [] => None
  | c :: l' => if decide (stream c = st) then Some 0 else Datatypes.S <$> context_index st l'
  end.

Definition find_context (i : nat) (s : sync) : option nat := context_index (Some i) (contexts s).

(** Runs a function on context [n]. *)
Definition load (n : nat) (s : sync) : work := Work (default zero_context (contexts s !! n)) (nonce s) (files s).
Definition store (n : nat) (s : sync) (w : work) : sync := Service (<[n := ctx w]> (contexts s)) (side_nonce w) (fs w).

Definition sync_open (i : nat) (suffix : list byte) (s : sync) : Z * sync :=
  if decide (suffix <> []) then ((- EINVAL)%Z, s)
  else
    match context_index None (contexts s) with
    | None => ((- ENOSPC)%Z, s)
    | Some n =>
        let z := zero_context in
        let c := Context (Some i) (file z) SYNC_REQUEST_HEADER (header z) (header_used z) (remaining z) (spec z)
                   (spec_used z) (path z) (temporary z) (backup z) (file_open z) (temporary_live z) in
        (0%Z, Service (<[n := c]> (contexts s)) (nonce s) (files s))
    end.

Definition sync_write (i : nat) (data : list byte) (s : sync) : prog (option Z * sync) :=
  match find_context i s with
  | None => Ret (Some (- EINVAL)%Z, s)
  | Some n => '(ret, w) ← write_loop (write_fuel data) data (load n s); Ret (ret, store n s w)
  end.

Definition sync_tx_ready (i : nat) (s : sync) : sync := s.

Definition sync_close (i : nat) (s : sync) : sync :=
  match find_context i s with
  | None => s
  | Some n =>
      let w := cleanup_partial (load n s) in
      store n s (Work zero_context (side_nonce w) (fs w))
  end.

End service.
End Sync.
