(* ===== verification/AdbSyncPaths.v ===== *)
(** * The paths the sync service accepts

    [sync_path_allowed] decides a readable predicate: the path is the root of
    the storage followed by components none of which is empty, [.], [..] or
    holds a control character, a backslash or a colon.  The names of the
    temporary and backup files stay below the root, are never accepted as a
    destination, and never collide. *)

From S2P Require Import Prelude CLib Ring AdbProtocol AdbService AdbSync.
From Stdlib Require Import ZArith Lia.
From Stdlib Require Import Strings.Byte.
From stdpp Require Import base numbers list list_numbers strings countable sets.

Module SyncPaths.
Import Sync.

#[local] Arguments bad_char : simpl never.
#[local] Arguments dot_component : simpl never.

(** A component that names one entry of its directory. *)
Definition good_component (c : cstr) : Prop :=
  c <> [] /\ c <> cs "." /\ c <> cs ".." /\ Forall (fun x => bad_char x = false) c.

(** A relative path made of such components, with no slash at the end. *)
Definition clean (q : cstr) : Prop :=
  q <> [] /\ last q <> Some slash /\ Forall (fun c => good_component c.1) (components q).

(** A path that names an entry below the root. One extra slash after the root
    is accepted. *)
Definition below_root (p : cstr) : Prop :=
  exists q, clean q /\ (p = SYNC_ROOT ++ q \/ p = SYNC_ROOT ++ slash :: q).

Lemma bad_slash : bad_char slash = false.
Proof. done. Qed.

Lemma scan_cons st c p :
  path_scan st (c :: p) =
    if bad_char c || (bool_decide (c = slash) && (bool_decide (char_at p 0 = slash) || bool_decide (char_at p 0 = NUL)))
    then false
    else if st && dot_component (c :: p) then false
    else path_scan (bool_decide (c = slash)) p.
Proof. done. Qed.

Lemma scan_slash st p :
  path_scan st (slash :: p) =
  negb (bool_decide (char_at p 0 = slash) || bool_decide (char_at p 0 = NUL)) && path_scan true p.
Proof.
  rewrite scan_cons, bad_slash, bool_decide_true by done. rewrite orb_false_l, andb_true_l.
  destruct (_ || _); [done|].
  replace (dot_component (slash :: p)) with false by done. by rewrite andb_false_r.
Qed.

(** Within a component only its characters are checked. *)
Lemma scan_inside c rest :
  slash ∉ c -> path_scan false (c ++ rest) = forallb (fun x => negb (bad_char x)) c && path_scan false rest.
Proof.
  induction c as [|x c IH]; intros Hc; [done|].
  rewrite <- app_comm_cons, scan_cons, (bool_decide_false (x = slash)) by set_solver.
  rewrite orb_false_r. cbn [forallb].
  destruct (bad_char x); [done|]. cbn [negb andb]. apply IH. set_solver.
Qed.

(** The look-ahead at the start of a component sees the whole component. *)
Lemma dot_component_spec c rest :
  slash ∉ c -> c <> [] -> (rest = [] \/ exists r, rest = slash :: r) ->
  dot_component (c ++ rest) = bool_decide (c = cs "." \/ c = cs "..").
Proof.
  intros Hc Hn Hr. apply eq_true_iff_eq.
  unfold dot_component. rewrite !orb_true_iff, !bool_decide_eq_true, !starts_with_spec.
  change (cs "./") with (cs "." ++ [slash]). change (cs "../") with (cs ".." ++ [slash]).
  assert (forall k k', slash ∉ k -> c ++ rest = (k ++ [slash]) ++ k' -> c = k) as Hcut.
  { intros k k' Hk E. rewrite <- app_assoc in E. destruct Hr as [->|[r ->]].
    - exfalso. apply Hc. rewrite app_nil_r in E. rewrite E. set_solver.
    - clear Hn. revert k Hk E. induction c as [|x c IH]; intros [|y k] Hk E; simpl in E; simplify_eq; try set_solver.
      f_equal. eapply IH; eauto; set_solver. }
  assert (forall k, slash ∉ k -> c ++ rest = k -> c = k) as Hall.
  { intros k Hk E. destruct Hr as [->|[r ->]]; [by rewrite app_nil_r in E|]. subst k. set_solver. }
  split.
  - intros [[[E|[k E]]|E]|[k E]].
    + left. by apply Hall; [vm_compute; set_solver|].
    + left. by apply (Hcut _ k); [vm_compute; set_solver|].
    + right. by apply Hall; [vm_compute; set_solver|].
    + right. by apply (Hcut _ k); [vm_compute; set_solver|].
  - intros [->| ->]; destruct Hr as [->|[r ->]]; rewrite ?app_nil_r; auto.
    + left. left. right. by exists r.
    + right. by exists r.
Qed.

Lemma forallb_not_bad c : forallb (fun x => negb (bad_char x)) c = true <-> Forall (fun x => bad_char x = false) c.
Proof.
  rewrite forallb_Forall. apply Forall_iff. intros x. by rewrite negb_true_iff.
Qed.

(** A whole component. *)
Lemma scan_component c rest :
  slash ∉ c -> c <> [] -> (rest = [] \/ exists r, rest = slash :: r) ->
  path_scan true (c ++ rest) = true <-> good_component c /\ path_scan false rest = true.
Proof.
  intros Hc Hn Hr. pose proof (dot_component_spec c rest Hc Hn Hr) as Hd.
  destruct c as [|x c]; [done|]. rewrite <- app_comm_cons in Hd |- *.
  rewrite scan_cons, Hd, (bool_decide_false (x = slash)) by set_solver.
  rewrite orb_false_r, andb_true_l, scan_inside by set_solver.
  unfold good_component. rewrite Forall_cons.
  destruct (bad_char x) eqn:Eb; [naive_solver|].
  case_bool_decide as Hdot; [naive_solver|].
  rewrite andb_true_iff, forallb_not_bad. naive_solver.
Qed.

Lemma clean_single c : slash ∉ c -> c <> [] -> clean c <-> good_component c.
Proof.
  intros Hc Hn. unfold clean. rewrite components_unfold, (proj2 (strchr_None c slash)) by done.
  destruct c as [|x c]; [done|]. rewrite Forall_singleton. simpl fst. split; [naive_solver|].
  intros Hg. split_and!; [done| |done]. intros Hl. apply Hc, list_elem_of_lookup.
  rewrite last_lookup in Hl. eauto.
Qed.

Lemma clean_cons c r :
  slash ∉ c -> clean (c ++ slash :: r) <-> good_component c /\ clean r.
Proof.
  intros Hc. unfold clean at 1.
  assert (strchr (c ++ slash :: r) slash = Some (length c)) as Hs.
  { apply strchr_Some. rewrite take_app_length, length_app. simpl. split_and!; [|done|lia].
    by rewrite drop_app_ge, Nat.sub_succ_l, Nat.sub_diag by lia. }
  rewrite components_unfold, Hs. destruct (c ++ slash :: r) as [|x l] eqn:E; [by destruct c|].
  rewrite <- E, Forall_cons, take_app_length. simpl fst.
  replace (drop (S (length c)) (c ++ slash :: r)) with r
    by (rewrite drop_app_ge, Nat.sub_succ_l, Nat.sub_diag by lia; done).
  unfold clean. rewrite last_app_cons. destruct r as [|y r]; [naive_solver|].
  rewrite last_cons_cons, E. naive_solver.
Qed.

Lemma clean_no_slash p : ~ clean (slash :: p).
Proof.
  intros (_ & _ & Hf). rewrite components_unfold in Hf. simpl in Hf.
  inversion Hf as [|?? Hg _]. by destruct Hg.
Qed.

Lemma scan_spec_aux n p :
  length p <= n -> p <> [] -> head p <> Some slash -> path_scan true p = true <-> clean p.
Proof.
  revert p. induction n as [|n IH]; intros p Hlen Hp Hh; [by destruct p; simpl in *; [|lia]|].
  destruct (strchr p slash) as [i|] eqn:Es.
  - apply strchr_Some in Es as (Ep & Hc & Hi).
    set (c := take i p) in *. set (r := drop (S i) p) in *.
    assert (c <> []) as Hcn.
    { intros E. rewrite Ep, E in Hh. done. }
    rewrite Ep, clean_cons, scan_component by eauto. rewrite scan_slash.
    apply and_iff_compat_l.
    destruct r as [|y r'] eqn:Er; [split; [done|]; by intros [? _]|].
    rewrite andb_true_iff, negb_true_iff, orb_false_iff, !bool_decide_eq_false.
    change (char_at (y :: r') 0) with y.
    destruct (decide (y = slash)) as [->|Hy].
    + split; [naive_solver|]. by intros ?%clean_no_slash.
    + rewrite IH; [| |done|by intros [=]].
      * split; [naive_solver|]. intros Hcl. split_and!; [done| |done]. intros ->.
        apply IH in Hcl; [done| |done|done].
        apply (f_equal length) in Er. unfold r in Er. rewrite length_drop in Er. simpl in *. lia.
      * apply (f_equal length) in Er. unfold r in Er. rewrite length_drop in Er. simpl in *. lia.
  - apply strchr_None in Es. rewrite clean_single by done.
    rewrite <- (app_nil_r p) at 1. rewrite scan_component by auto. naive_solver.
Qed.

(** What the loop of [sync_path_allowed] decides. *)
Lemma path_scan_spec p :
  path_scan true p = true <-> p = [] \/ clean p \/ exists q, p = slash :: q /\ clean q.
Proof.
  destruct p as [|x p]; [naive_solver|].
  destruct (decide (x = slash)) as [->|Hx].
  - rewrite scan_slash, andb_true_iff, negb_true_iff, orb_false_iff, !bool_decide_eq_false.
    pose proof (clean_no_slash p) as Hn.
    destruct p as [|y p]; [split; [naive_solver|]; intros [?|[?|(q & [= <-] & [? _])]]; done|].
    change (char_at (y :: p) 0) with y. split.
    + intros [[Hy _] Hs]. right. right. exists (y :: p). split; [done|].
      apply (scan_spec_aux (S (length p))) in Hs; [done|simpl; lia|done|simpl; congruence].
    + intros [?|[?|(q & [= <-] & Hc)]]; [done..|].
      assert (y <> slash) as Hy.
      { intros ->. by apply clean_no_slash in Hc. }
      assert (path_scan true (y :: p) = true) as Hs.
      { apply (scan_spec_aux (S (length p))); [simpl; lia|done|simpl; congruence|done]. }
      split; [|done]. split; [done|]. by intros ->.
  - rewrite (scan_spec_aux (S (length p))); [|simpl; lia|done|simpl; congruence]. naive_solver.
Qed.

Lemma clean_scan p : clean p -> path_scan true p = true.
Proof. rewrite path_scan_spec. auto. Qed.

Section allowed.
Context {sc : SyncConfig}.

Lemma below_root_scan p :
  below_root p <-> starts_with SYNC_ROOT p = true /\ length SYNC_ROOT < length p
                  /\ last p <> Some slash /\ path_scan true (drop (length SYNC_ROOT) p) = true.
Proof.
  rewrite starts_with_spec. split.
  - intros (q & Hq & Hp). assert (exists k, p = SYNC_ROOT ++ k /\ k <> [] /\ last k = last q /\ path_scan true k = true)
      as (k & -> & Hk & Hl & Hs).
    { pose proof Hq as (? & _ & _). destruct Hp as [->| ->]; eexists; (split; [done|]).
      - split_and!; [done|done|by apply clean_scan].
      - split_and!; [done| |apply path_scan_spec; eauto].
        by destruct q. }
    rewrite drop_app_length, length_app, last_app. split_and!; [eauto| | |done].
    + destruct k; [done|]. simpl. lia.
    + destruct Hq as (_ & Hq & _). destruct (last k) eqn:E; [congruence|]. by apply last_None in E.
  - intros ([k ->] & Hlen & Hlast & Hs). rewrite drop_app_length in Hs. rewrite length_app in Hlen.
    apply path_scan_spec in Hs as [->|[Hc|(q & -> & Hc)]]; [simpl in Hlen; lia| |]; eexists; eauto.
Qed.

(** ** Side names *)

(** What the characters appended to a path must satisfy. *)
Definition plain (x : byte) : Prop := bad_char x = false /\ x <> slash.

Lemma plain_hex_digit n : (0 <= n < 16)%Z -> plain (hex_digit n).
Proof.
  intros Hn.
  assert (Forall (fun i => plain (hex_digit i)) (Z.of_nat <$> seq 0 16)) as Hall.
  { repeat constructor; done. }
  rewrite Forall_forall in Hall. apply Hall, list_elem_of_fmap.
  exists (Z.to_nat n). split; [lia|]. apply elem_of_seq. lia.
Qed.

Lemma plain_hex_text n v : Forall plain (hex_text n v).
Proof.
  revert v. induction n as [|n IH]; intros v; [constructor|].
  apply Forall_app. split; [apply IH|]. apply Forall_singleton, plain_hex_digit, Z.mod_pos_bound. lia.
Qed.

(** A side suffix: plain characters, too many of them for a dot component. *)
Definition side_suffix (s : cstr) : Prop := Forall plain s /\ 4 <= length s.

Lemma part_suffix_side t : side_suffix (part_suffix t).
Proof.
  split.
  - apply Forall_app. split; [repeat constructor; done|apply plain_hex_text].
  - unfold part_suffix. rewrite length_app, length_hex_text. simpl. lia.
Qed.

Lemma old_suffix_side t : side_suffix (old_suffix t).
Proof.
  split.
  - apply Forall_app. split; [repeat constructor; done|apply plain_hex_text].
  - unfold old_suffix. rewrite length_app, length_hex_text. simpl. lia.
Qed.

Lemma dot_component_suffix q s :
  dot_component q = false -> q <> [] -> 4 <= length s -> dot_component (q ++ s) = false.
Proof.
  unfold dot_component, starts_with. intros Hd Hq Hs.
  assert (forall k, length k < 4 -> q ++ s <> k) as Hlen.
  { intros k Hk <-. rewrite length_app in Hk. lia. }
  rewrite !orb_false_iff, !bool_decide_eq_false in Hd |- *.
  destruct Hd as [[[H1 H2] H3] H4]. split_and!; try (by apply Hlen; simpl; lia).
  all: change (cs ".") with ["."%byte] in *; change (cs "./") with ["."%byte; "/"%byte] in *;
    change (cs "..") with ["."%byte; "."%byte] in *; change (cs "../") with ["."%byte; "."%byte; "/"%byte] in *;
    destruct q as [|x [|y [|z q]]]; simpl in *; rewrite ?take_0 in *; congruence.
Qed.

Lemma scan_suffix st q s :
  path_scan st q = true -> q <> [] -> side_suffix s -> path_scan st (q ++ s) = true.
Proof.
  intros Hq Hn [Hs Hl]. revert st Hq Hn. induction q as [|x q IH]; intros st Hq Hn; [done|].
  rewrite <- app_comm_cons. rewrite scan_cons in Hq |- *.
  destruct (bad_char x) eqn:Eb; [done|]. rewrite orb_false_l in Hq |- *.
  destruct (st && dot_component (x :: q)) eqn:Ed; [by destruct (bool_decide (x = slash) && _)|].
  replace (st && dot_component (x :: q ++ s)) with false.
  2: { symmetry. apply andb_false_iff. apply andb_false_iff in Ed as [?|Ed]; [by left|right].
       rewrite app_comm_cons. by apply dot_component_suffix. }
  destruct q as [|y q].
  - case_bool_decide as Ex; [done|]. simpl. clear -Hs. induction Hs as [|z s [Hz ?] _ IHs]; [done|].
    by rewrite scan_cons, Hz, (bool_decide_false (z = slash)).
  - rewrite <- app_comm_cons. change (char_at (y :: q ++ s) 0) with (char_at (y :: q) 0).
    destruct (bool_decide (x = slash) && _); [done|]. apply IH; [|done]. apply Hq.
Qed.

Lemma below_root_suffix p s : below_root p -> side_suffix s -> below_root (p ++ s).
Proof.
  rewrite !below_root_scan, !starts_with_spec. intros ([k ->] & Hlen & Hlast & Hs) [Hp Hl].
  rewrite drop_app_length in Hs. rewrite !length_app in *.
  rewrite <- app_assoc, drop_app_length. split_and!; [eauto|lia| |].
  - rewrite app_assoc, last_app. destruct (last s) as [x|] eqn:E; [|by apply last_None in E; subst].
    intros [= ->]. rewrite Forall_forall in Hp. rewrite last_lookup in E.
    apply list_elem_of_lookup_2, Hp in E as [_ E]. done.
  - apply scan_suffix; [done| |done]. intros ->. simpl in Hlen. lia.
Qed.

Lemma allowed_below_root p : sync_path_allowed p = true -> below_root p.
Proof.
  intros H. apply below_root_scan. unfold sync_path_allowed in H.
  case_decide as Hd; [done|].
  assert (length SYNC_ROOT < length p) as Hl by lia.
  assert (forall A B, ~ (A \/ B) -> ~ A /\ ~ B) as dm by tauto.
  apply dm in Hd as [_ [? [? [? _]%dm]%dm]%dm].
  split_and!; [apply strncmp_starts_with; by apply dec_stable|done| |done].
  rewrite last_lookup, <- Nat.sub_1_r.
  destruct (lookup_lt_is_Some_2 p (length p - 1)) as [x E]; [lia|].
  unfold char_at in *. rewrite E in *. simpl in *. congruence.
Qed.

(** A destination is neither of the side names of any path. *)
Lemma allowed_not_side p q t :
  sync_path_allowed p = true -> p <> q ++ part_suffix t /\ p <> q ++ old_suffix t.
Proof.
  intros H. unfold sync_path_allowed in H. case_decide as Hd; [done|].
  split; intros ->; apply Hd.
  - do 4 right. left. intros Hn. by apply (proj1 (strstr_None _ _) Hn q (hex_text 8 t)).
  - do 5 right. intros Hn. by apply (proj1 (strstr_None _ _) Hn q (hex_text 8 t)).
Qed.
(** [sync_path_allowed] accepts exactly the paths shorter than the limit
    that name an entry below the root - every component non-empty, not [.] nor
    [..], free of control characters, backslashes and colons - and that cannot
    be mistaken for a temporary or backup file. *)
Theorem sync_path_allowed_iff (p : cstr) :
  sync_path_allowed p = true
  <-> below_root p /\ length p < SYNC_PATH_MAX
      /\ (forall a b, p <> a ++ cs ".adb-part-" ++ b) /\ (forall a b, p <> a ++ cs ".adb-old-" ++ b).
Proof.
  rewrite below_root_scan, <- !strstr_None. unfold sync_path_allowed.
  rewrite <- strncmp_starts_with.
  assert (p <> [] -> last p <> Some slash <-> char_at p (length p - 1) <> slash) as Hlast.
  { intros Hp. rewrite last_lookup, <- Nat.sub_1_r. unfold char_at.
    destruct (lookup_lt_is_Some_2 p (length p - 1)) as [x ->]; [destruct p; simpl in *; [done|lia]|].
    simpl. naive_solver. }
  case_decide as Hd.
  - split; [done|]. intros ((H1 & H2 & H3 & _) & H4 & H5 & H6). exfalso.
    assert (p <> []) as Hp by (intros ->; simpl in H2; lia).
    apply (Hlast Hp) in H3. destruct Hd as [?|[?|[?|[?|[?|?]]]]]; [lia|lia|done..].
  - assert (length SYNC_ROOT < length p) as Hl by lia.
    assert (p <> []) as Hp by (intros ->; simpl in Hl; lia). rewrite Hlast by done.
    assert (forall A B, ~ (A \/ B) -> ~ A /\ ~ B) as dm by tauto.
    apply dm in Hd as [_ [? [? [? [? ?]%dm]%dm]%dm]%dm].
    split; [|naive_solver]. intros Hs. split_and!; first [done | lia | by apply dec_stable].
Qed.
End allowed.

(** Temporary and backup names never coincide. *)
Lemma part_not_old p q t u : p ++ part_suffix t <> q ++ old_suffix u.
Proof.
  intros E. apply (f_equal (fun l => lastn 10 l)) in E. revert E.
  assert (forall (l k : list byte), length k = 8 -> forall a b c d, lastn 10 (l ++ [a; b; c; d] ++ k) = [c; d] ++ k) as Hl.
  { intros l k Hk a b c d. unfold lastn.
    replace (l ++ [a; b; c; d] ++ k) with ((l ++ [a; b]) ++ [c; d] ++ k) by (by rewrite <- app_assoc).
    rewrite drop_app_ge by (rewrite !length_app; simpl; lia).
    rewrite !length_app, Hk. simpl length.
    replace (length l + 2 + (2 + 8) - 10 - (length l + 2)) with 0 by lia. done. }
  replace (p ++ part_suffix t)
    with ((p ++ cs ".adb-p") ++ ["a"%byte; "r"%byte; "t"%byte; "-"%byte] ++ hex_text 8 t)
    by (rewrite <- app_assoc; reflexivity).
  replace (q ++ old_suffix u)
    with ((q ++ cs ".adb-") ++ ["o"%byte; "l"%byte; "d"%byte; "-"%byte] ++ hex_text 8 u)
    by (rewrite <- app_assoc; reflexivity).
  rewrite !Hl by apply length_hex_text. simpl. congruence.
Qed.

End SyncPaths.
