(* ===== verification/AdbSyncInv.v ===== *)
(** * Invariant of the sync service

    Every context stays well formed whatever the client sends, whatever the
    engine answers and however the file system behaves: arrays keep their
    bounds, a file is open only while an upload is being received, and the loop
    of [sync_write] ends.  The invariant carries any property [K] of the file
    system that operations on paths below the root preserve; instantiated with
    a log of the paths passed to the file system, it shows that the service
    touches nothing outside the storage root. *)

From S2P Require Import Prelude CLib Ring AdbProtocol AdbService AdbSync AdbSyncPaths.
From Stdlib Require Import ZArith Lia.
From Stdlib Require Import Strings.Byte.
From stdpp Require Import base numbers list list_numbers strings countable sets.

Module SyncInv.
Import Sync SyncPaths.

(** An upload is being received. *)
Definition sending (st : sync_state) : bool := bool_decide (st = SYNC_SEND_HEADER \/ st = SYNC_SEND_DATA).

Section invariant.
Context {cfg : AdbConfig} {sc : SyncConfig} {F : SyncFs}.

Record wf (c : sync_context) : Prop := {
  wf_header : length (header c) = 8;
  wf_header_used : header_used c < 8;
  wf_spec : length (spec c) = SYNC_SPEC_CAPACITY;
  wf_room : (Z.of_nat (spec_used c) + (if request_state (state c) then remaining c else 0)
             < Z.of_nat SYNC_SPEC_CAPACITY)%Z;
  wf_remaining : (0 <= remaining c < 2 ^ 32)%Z;
  wf_path : length (path c) < SYNC_PATH_MAX;
  wf_temporary : length (temporary c) < side_capacity;
  wf_backup : length (backup c) < side_capacity;
  wf_staging : sending (state c) = true ->
    sync_path_allowed (path c) = true
    /\ exists t, temporary c = path c ++ part_suffix t /\ backup c = path c ++ old_suffix t;
  wf_live : temporary_live c = true -> sending (state c) = true;
  wf_open : file_open c = true -> temporary_live c = true;
}.

(** At the end of a callback the file is open as long as the temporary lives. *)
Definition tidy (c : sync_context) : Prop := file_open c = temporary_live c.

(** A state that waits for bytes waits for at least one. *)
Definition settled (c : sync_context) : Prop :=
  request_state (state c) = true \/ state c = SYNC_SEND_DATA \/ state c = SYNC_DRAIN_DATA -> (0 < remaining c)%Z.

Lemma zero_context_wf : wf zero_context.
Proof.
  pose proof range_sync_path.
  constructor; simpl; rewrite ?length_replicate; unfold side_capacity, SYNC_SPEC_CAPACITY; try lia; try done.
Qed.

(** ** The property of the file system *)

Context (K : filesystem -> Prop).

Record preserved : Prop := {
  K_open f h p : below_root p -> K f -> K (fs_open f h p).2;
  K_write f h d : K f -> K (fs_write f h d).2;
  K_close f h : K f -> K (fs_close f h).2;
  K_rename f p q : below_root p -> below_root q -> K f -> K (fs_rename f p q).2;
  K_unlink f p : below_root p -> K f -> K (fs_unlink f p).2;
}.

Context (HK : preserved).

Definition ok (w : work) : Prop := wf (ctx w) /\ K (fs w).

(** The three paths of an upload are below the root. *)
Lemma staging_paths c :
  wf c -> sending (state c) = true -> below_root (path c) /\ below_root (temporary c) /\ below_root (backup c).
Proof.
  intros Hc Hs. destruct (wf_staging _ Hc Hs) as (Hp & t & -> & ->).
  pose proof (allowed_below_root _ Hp).
  split_and!; [done|apply below_root_suffix; [done|apply part_suffix_side]
              |apply below_root_suffix; [done|apply old_suffix_side]].
Qed.

(** Stores that keep a context well formed. *)
Lemma wf_with_file c f o l :
  wf c -> (l = true -> sending (state c) = true) -> (o = true -> l = true) -> wf (with_file f o l c).
Proof. intros [] ??. by constructor. Qed.

Lemma wf_with_state c st :
  wf c -> request_state st = false -> (sending st = true -> sending (state c) = true) ->
  (temporary_live c = true -> sending st = true) -> wf (with_state st c).
Proof.
  intros [] Hr Hs Hl. constructor; simpl; auto. rewrite Hr.
  destruct (request_state (state c)); lia.
Qed.

Lemma cleanup_ok w :
  ok w -> ok (cleanup_partial w) /\ file_open (ctx (cleanup_partial w)) = false
          /\ temporary_live (ctx (cleanup_partial w)) = false
          /\ state (ctx (cleanup_partial w)) = state (ctx w)
          /\ remaining (ctx (cleanup_partial w)) = remaining (ctx w)
          /\ stream (ctx (cleanup_partial w)) = stream (ctx w).
Proof.
  intros [Hc Hk]. unfold cleanup_partial.
  set (w1 := if file_open (ctx w) then _ else w).
  assert (ok w1 /\ file_open (ctx w1) = false /\ state (ctx w1) = state (ctx w) /\ temporary (ctx w1) = temporary (ctx w)
          /\ temporary_live (ctx w1) = temporary_live (ctx w) /\ remaining (ctx w1) = remaining (ctx w)
          /\ stream (ctx w1) = stream (ctx w))
    as ([Hc1 Hk1] & Ho & Hs & Ht & Hl & Hr & Hst).
  { unfold w1. destruct (file_open (ctx w)) eqn:Ho; [|done].
    pose proof (K_close HK (fs w) (file (ctx w)) Hk) as Hk'.
    destruct (fs_close (fs w) (file (ctx w))) as [[r f] s]. simpl. split; [split|]; [|done..].
    apply wf_with_file; [done|apply (wf_live _ Hc)|done]. }
  destruct (temporary_live (ctx w1)) eqn:Hl1.
  - rewrite Ht. symmetry in Hl. apply (wf_live _ Hc) in Hl as Hs'. destruct (staging_paths _ Hc Hs') as (_ & Hb & _).
    pose proof (K_unlink HK (fs w1) (temporary (ctx w)) Hb Hk1) as Hk'.
    destruct (fs_unlink (fs w1) (temporary (ctx w))) as [r s]. simpl.
    split_and!; try done. split; [|done]. apply wf_with_file; [done|done|]. by rewrite Ho.
  - split_and!; done.
Qed.

(** What a failing transfer leaves: no file, no temporary; the drain state is
    entered only when the status could be sent. *)
Definition failed (drain : sync_state) (w : work) (r : Z * work) : Prop :=
  ok r.2 /\ file_open (ctx r.2) = false /\ temporary_live (ctx r.2) = false
  /\ remaining (ctx r.2) = remaining (ctx w) /\ stream (ctx r.2) = stream (ctx w)
  /\ state (ctx r.2) = (if decide (r.1 = 0%Z) then drain else state (ctx w)).

Lemma fail_transfer_ok reason drain w :
  ok w -> request_state drain = false -> sending drain = false ->
  wp (fail_transfer reason drain w) (fun _ r => failed drain w r).
Proof.
  intros Hw Hr Hs. destruct (cleanup_ok w Hw) as ([Hc Hk] & Ho & Hl & Hst & Hrem & Hstr).
  unfold fail_transfer. simpl. intros r. unfold failed.
  destruct (decide (r = 0%Z)) as [->|Hr0]; simpl.
  2: { rewrite decide_True by done. simpl. rewrite decide_False by done. done. }
  split_and!; try done. split; [|done]. apply wf_with_state; [done|done|congruence|congruence].
Qed.

(** ** The start of an upload *)

Lemma side_length p t :
  length p < SYNC_PATH_MAX ->
  length (p ++ part_suffix t) < side_capacity - 1 /\ length (p ++ old_suffix t) < side_capacity - 1.
Proof.
  intros Hp. unfold part_suffix, old_suffix, side_capacity, SYNC_SIDE_SUFFIX_LEN.
  rewrite !length_app, !length_hex_text. simpl. lia.
Qed.

(** The search never runs into the capacity of the side names: it ends with a
    free pair of names or, after all attempts, with [-EEXIST]. *)
Lemma choose_loop_spec n w :
  length (path (ctx w)) < SYNC_PATH_MAX -> length (temporary (ctx w)) < side_capacity ->
  length (backup (ctx w)) < side_capacity ->
  let r := choose_loop n w in
  fs r.2 = fs w
  /\ (exists t b, ctx r.2 = with_paths (path (ctx w)) t b (ctx w)
       /\ length t < side_capacity /\ length b < side_capacity)
  /\ ((r.1 = 0%Z /\ exists t, temporary (ctx r.2) = path (ctx w) ++ part_suffix t
                            /\ backup (ctx r.2) = path (ctx w) ++ old_suffix t
                            /\ fs_stat (fs w) (temporary (ctx r.2)) = None
                            /\ fs_stat (fs w) (backup (ctx r.2)) = None)
      \/ r.1 = (- EEXIST)%Z).
Proof.
  revert w. induction n as [|n IH]; intros w Hp Ht Hb; simpl.
  { split_and!; [done| |by right]. exists (temporary (ctx w)), (backup (ctx w)). by destruct w as [[] ? ?]. }
  set (t := u32 (side_nonce w + 1)).
  destruct (side_length _ t Hp) as [Hl1 Hl2]. rewrite decide_False by lia. rewrite decide_False by lia.
  rewrite !take_ge by lia.
  destruct (_ && _) eqn:E.
  - unfold path_exists in E. simpl in *.
    apply andb_true_iff in E as [E1%negb_true_iff E2%negb_true_iff].
    apply bool_decide_eq_false in E1, E2. rewrite <- eq_None_not_Some in E1, E2.
    split_and!; [done| |left; split; [done|]]; eauto.
    eexists _, _. split_and!; [done|lia..].
  - match goal with |- context [choose_loop n ?w'] => specialize (IH w') end.
    simpl in IH. destruct IH as (Hfs & (t' & b' & Hctx & ? & ?) & Hr); [done|lia|lia|].
    split_and!; [done| |done]. exists t', b'. rewrite Hctx. done.
Qed.

(** What a handler of a complete header or name establishes. *)
Definition handled (w : work) (r : Z * work) : Prop :=
  ok r.2 /\ tidy (ctx r.2) /\ stream (ctx r.2) = stream (ctx w) /\ (r.1 = 0%Z -> settled (ctx r.2)).

Lemma failed_handled drain w r :
  failed drain w r -> drain = SYNC_DRAIN_HEADER \/ drain = SYNC_DISCARD_AND_CLOSE -> handled w r.
Proof.
  intros (Hok & Ho & Hl & Hrem & Hstr & Hst) Hd. split_and!; [done| |done|].
  - unfold tidy. congruence.
  - intros Hr. rewrite decide_True in Hst by done. unfold settled. rewrite Hst.
    destruct Hd as [->| ->]; by intros [?|[?|?]].
Qed.

Lemma fail_handled reason drain w w0 :
  ok w -> stream (ctx w) = stream (ctx w0) -> drain = SYNC_DRAIN_HEADER \/ drain = SYNC_DISCARD_AND_CLOSE ->
  wp (fail_transfer reason drain w) (fun _ r => handled w0 r).
Proof.
  intros Hw Hs Hd. eapply wp_mono; [apply fail_transfer_ok; [done|by destruct Hd; subst drain..]|].
  intros tr r Hf. apply failed_handled in Hf; [|done]. destruct Hf as (?&?&?&?).
  split_and!; [done|done|congruence|done].
Qed.

Lemma open_temporary_handled w :
  ok w -> request_state (state (ctx w)) = true -> sync_path_allowed (path (ctx w)) = true ->
  wp (open_temporary w) (fun _ r => handled w r).
Proof.
  intros [Hc Hk] Hs Hp. unfold open_temporary, choose_side_paths.
  destruct (choose_loop_spec 32 w) as (Hfs & (t & b & Hctx & Ht & Hb) & Hr);
    [apply Hc|apply Hc|apply Hc|].
  destruct (choose_loop 32 w) as [r w1]. simpl in *.
  assert (sending (state (ctx w)) = false) as Hsend by (by destruct (state (ctx w))).
  assert (ok w1) as Hok.
  { split; [|by rewrite Hfs]. rewrite Hctx. destruct Hc. constructor; simpl; try done. congruence. }
  assert (stream (ctx w1) = stream (ctx w)) as Hstr by (by rewrite Hctx).
  case_decide as Hr0; [by apply fail_handled; auto|].
  destruct Hr as [(_ & tok & Ht' & Hb' & _)|Hr]; [|subst; done].
  destruct (match fs_stat (fs w1) (path (ctx w1)) with Some _ => _ | None => _ end); [by apply fail_handled; auto|].
  assert (below_root (temporary (ctx w1))) as Hbelow.
  { rewrite Ht'. apply below_root_suffix; [by apply allowed_below_root|apply part_suffix_side]. }
  pose proof (K_open HK (fs w1) fs_file_t_init (temporary (ctx w1)) Hbelow (proj2 Hok)) as Hk'.
  destruct (fs_open (fs w1) fs_file_t_init (temporary (ctx w1))) as [[ro f] s]. simpl in Hk'.
  destruct Hok as [Hc1 Hk1].
  assert (temporary_live (ctx w1) = false /\ file_open (ctx w1) = false) as [Hl1 Ho1].
  { rewrite Hctx. simpl. destruct (temporary_live (ctx w)) eqn:El.
    - apply (wf_live _ Hc) in El. congruence.
    - split; [done|]. destruct (file_open (ctx w)) eqn:Eo; [|done]. apply (wf_open _ Hc) in Eo. congruence. }
  case_decide as Hro.
  - apply fail_handled; [|done|auto]. split; [|done]. simpl. apply wf_with_file; [done| |]; congruence.
  - simpl. split_and!; [split|done|done|].
    + simpl. assert (path (ctx w1) = path (ctx w)) as Hpath by (by rewrite Hctx).
      destruct Hc1. constructor; simpl; try done.
      * destruct (request_state (state (ctx w1))); lia.
      * intros _. rewrite Hpath. eauto.
    + done.
    + intros _ [?|[?|?]]; done.
Qed.

Lemma wf_with_spec c s n :
  wf c -> length s = SYNC_SPEC_CAPACITY ->
  (Z.of_nat n + (if request_state (state c) then remaining c else 0) < Z.of_nat SYNC_SPEC_CAPACITY)%Z ->
  wf (with_spec s n c).
Proof. intros [] ??. by constructor. Qed.

Lemma wf_spec_used c : wf c -> spec_used c < SYNC_SPEC_CAPACITY.
Proof.
  intros Hc. pose proof (wf_room _ Hc). pose proof (wf_remaining _ Hc).
  destruct (request_state (state c)); lia.
Qed.

Lemma terminate_spec_ok w : ok w -> ok (terminate_spec w).
Proof.
  intros [Hc Hk]. split; [|done]. simpl. pose proof (wf_spec_used _ Hc).
  apply wf_with_spec; [done| |apply (wf_room _ Hc)].
  rewrite length_write_at; [apply Hc|]. rewrite (wf_spec _ Hc). simpl. lia.
Qed.

Lemma not_sending_tidy c : wf c -> sending (state c) = false -> file_open c = false /\ temporary_live c = false.
Proof.
  intros Hc Hs. pose proof (wf_live _ Hc). pose proof (wf_open _ Hc).
  destruct (temporary_live c), (file_open c); naive_solver congruence.
Qed.

Lemma start_send_handled w :
  ok w -> request_state (state (ctx w)) = true -> wp (start_send w) (fun _ r => handled w r).
Proof.
  intros Hw Hs. pose proof (terminate_spec_ok w Hw) as Hok. unfold start_send.
  set (w1 := terminate_spec w) in *.
  assert (stream (ctx w1) = stream (ctx w)) as Hstr by done.
  assert (state (ctx w1) = state (ctx w)) as Hst by done. clearbody w1.
  assert (forall reason w', ok w' -> stream (ctx w') = stream (ctx w) ->
            wp (fail_transfer reason SYNC_DRAIN_HEADER w') (fun _ r => handled w r)) as Hfail.
  { intros. apply fail_handled; auto. }
  destruct (negb _); [by apply Hfail|].
  set (text := c_string (spec (ctx w1))).
  destruct (strrchr text ","%byte) as [comma|] eqn:Ec; [|by apply Hfail].
  case_decide; [by apply Hfail|].
  destruct Hok as [Hc Hk].
  set (w2 := on_ctx _ w1).
  assert (ok w2) as [Hc2 Hk2].
  { split; [|done]. simpl. apply wf_with_spec; [done| |apply (wf_room _ Hc)].
    rewrite length_write_at; [apply Hc|].
    apply strrchr_lt in Ec. pose proof (length_c_string (spec (ctx w1))). unfold text in Ec. simpl. lia. }
  destruct (strtoul _) as [[mode erange] rest].
  case_decide; [by apply Hfail|]. destruct (mode_refused mode); [by apply Hfail|].
  set (dest := c_string (spec (ctx w2))). case_decide as Hd; [by apply Hfail|].
  set (w3 := on_ctx _ w2).
  assert (sync_path_allowed dest = true) as Hp by (destruct (sync_path_allowed dest); tauto).
  assert (sending (state (ctx w2)) = false) as Hsend.
  { simpl. rewrite Hst. by destruct (state (ctx w)). }
  eapply wp_mono; [apply (open_temporary_handled w3)|].
  - split; [|done]. destruct Hc2. constructor; simpl in *; try done; [lia|congruence].
  - simpl. by rewrite Hst.
  - done.
  - intros tr r (?&?&?&?). split_and!; try done. rewrite <- Hstr. done.
Qed.

Lemma reply_handled data w w0 :
  ok w -> tidy (ctx w) -> stream (ctx w) = stream (ctx w0) -> settled (ctx w) ->
  wp (stream_write data w) (fun _ r => handled w0 r).
Proof. intros ????. simpl. intros r. by split_and!. Qed.

Lemma send_stat_handled w :
  ok w -> request_state (state (ctx w)) = true -> wp (send_stat w) (fun _ r => handled w r).
Proof.
  intros Hw Hs. pose proof (terminate_spec_ok w Hw) as [Hc Hk]. unfold send_stat.
  destruct (if _ && _ then _ else _) as [mode size].
  assert (sending (state (ctx w)) = false) as Hsend by (by destruct (state (ctx w))).
  destruct (not_sending_tidy (ctx w)) as [Ho Hl]; [apply Hw|done|].
  apply reply_handled; [split; [|done]|by unfold tidy; simpl; rewrite Ho|done|by intros [?|[?|?]]].
  simpl. apply wf_with_state; [done|done|done|]. simpl. congruence.
Qed.

(** ** The end of an upload *)

Lemma replace_destination_ok w :
  ok w -> sending (state (ctx w)) = true ->
  let r := replace_destination w in
  ok r.2 /\ file_open (ctx r.2) = false /\ (r.1 = 0%Z -> temporary_live (ctx r.2) = false)
  /\ state (ctx r.2) = state (ctx w) /\ stream (ctx r.2) = stream (ctx w).
Proof.
  intros [Hc Hk] Hs. destruct (staging_paths _ Hc Hs) as (Hp & Ht & Hb).
  unfold replace_destination.
  pose proof (K_close HK (fs w) (file (ctx w)) Hk) as Hk1.
  destruct (fs_close (fs w) (file (ctx w))) as [[rc f] s1].
  set (w1 := set_fs s1 _). simpl in Hk1.
  assert (wf (ctx w1)) as Hc1 by (by apply wf_with_file).
  case_decide; [done|].
  change (path (ctx w1)) with (path (ctx w)). change (backup (ctx w1)) with (backup (ctx w)).
  set (had := path_exists _ w1).
  set (first := if had then _ else _).
  assert (exists s2, first = (first.1, set_fs s2 w1) /\ K s2) as (s2 & -> & Hk2).
  { unfold first. destruct had; [|by exists s1].
    pose proof (K_rename HK s1 _ _ Hp Hb Hk1) as Hk2. simpl.
    destruct (fs_rename s1 _ _) as [r2 s2]. by exists s2. }
  case_decide; [done|].
  change (temporary (ctx (set_fs s2 w1))) with (temporary (ctx w)). change (fs (set_fs s2 w1)) with s2.
  pose proof (K_rename HK s2 _ _ Ht Hp Hk2) as Hk3.
  destruct (fs_rename s2 _ _) as [r3 s3]. simpl in Hk3.
  case_decide.
  - destruct had; simpl; [|done]. split_and!; [split; [done|]|done..]. simpl. by apply (K_rename HK).
  - assert (wf (with_file (file (ctx w1)) (file_open (ctx w1)) false (ctx w1))) as Hc2 by (by apply wf_with_file).
    destruct had; simpl; [|done]. split_and!; [split; [done|]|done..]. simpl. by apply (K_unlink HK).
Qed.

Lemma finish_send_handled ts w :
  ok w -> sending (state (ctx w)) = true -> wp (finish_send ts w) (fun _ r => handled w r).
Proof.
  intros Hw Hs. unfold finish_send.
  destruct (replace_destination_ok w Hw Hs) as (Hok & Ho & Hl & Hst & Hstr).
  destruct (replace_destination w) as [ret w1]. simpl in *.
  destruct (decide (ret <> 0%Z)) as [|Hret]; [by apply fail_handled; auto|].
  apply dec_stable in Hret. specialize (Hl Hret).
  simpl. intros r. destruct Hok as [Hc Hk].
  destruct (decide (r = 0%Z)) as [->|Hr].
  - split_and!; [split; [|done]|..]; simpl.
    + apply wf_with_state; [done|done|done|congruence].
    + unfold tidy. simpl. congruence.
    + done.
    + intros _ [?|[?|?]]; done.
  - split_and!; [done|unfold tidy; simpl; congruence|done|done].
Qed.

(** ** Headers *)

Lemma close_handled (r : Z) w w0 :
  handled w0 (r, w) -> wp (w ← stream_close w; Ret (r, w)) (fun _ r => handled w0 r).
Proof. done. Qed.

(** Leaving for a state that receives nothing of an upload. *)
Lemma wf_leave c st n :
  wf c -> temporary_live c = false -> sending st = false ->
  (0 <= n < 2 ^ 32)%Z ->
  (Z.of_nat (spec_used c) + (if request_state st then n else 0) < Z.of_nat SYNC_SPEC_CAPACITY)%Z ->
  wf (with_remaining n (with_state st c)).
Proof. intros [] ????. constructor; simpl; try done; congruence. Qed.

Lemma request_header_handled id value w :
  ok w -> tidy (ctx w) -> state (ctx w) = SYNC_REQUEST_HEADER -> (0 <= value < 2 ^ 32)%Z ->
  wp (request_header id value w) (fun _ r => handled w r).
Proof.
  intros [Hc Hk] Ht Hs Hv. unfold request_header.
  destruct (not_sending_tidy _ Hc) as [Ho Hl]; [by rewrite Hs|].
  case_decide as Hq; [|case_decide as Hreq].
  - apply close_handled. split_and!; [done|done|done|]. intros _. unfold settled. simpl. rewrite Hs. by intros [?|[?|?]].
  - destruct Hreq as (_ & Hv0 & Hcap).
    split_and!; [split; [|done]|done|done|intros _ _; simpl; lia].
    destruct Hc. constructor; simpl; try done; try (case_decide; done); try congruence.
  - simpl. intros r. destruct (decide (r = 0%Z)) as [->|Hr].
    + simpl. split_and!; [split; [|done]|done|done|by intros _ [?|[?|?]]].
      simpl. pose proof (wf_spec_used _ Hc). apply wf_leave; simpl; [done..|lia].
    + rewrite decide_True by done. by split_and!.
Qed.

Lemma drain_header_handled id value w :
  ok w -> tidy (ctx w) -> state (ctx w) = SYNC_DRAIN_HEADER -> (0 <= value < 2 ^ 32)%Z ->
  wp (drain_header id value w) (fun _ r => handled w r).
Proof.
  intros [Hc Hk] Ht Hs Hv. unfold drain_header.
  destruct (not_sending_tidy _ Hc) as [Ho Hl]; [by rewrite Hs|].
  pose proof (wf_spec_used _ Hc).
  case_decide as Hd; [|case_decide as Hq].
  - split_and!; [split; [|done]|done|done|by intros _ [?|[?|?]]].
    apply wf_with_state; [done|done|done|congruence].
  - apply close_handled. split_and!; [done|done|done|]. intros _. unfold settled. simpl. rewrite Hs. by intros [?|[?|?]].
  - split_and!; [split; [|done]|done|done|].
    + apply wf_leave; [done|done|by case_decide|done|]. case_decide; simpl; lia.
    + intros _. unfold settled. simpl. case_decide; [by intros [?|[?|?]]|lia].
Qed.

Lemma send_header_handled id value w :
  ok w -> tidy (ctx w) -> state (ctx w) = SYNC_SEND_HEADER -> (0 <= value < 2 ^ 32)%Z ->
  wp (send_header id value w) (fun _ r => handled w r).
Proof.
  intros Hw Ht Hs Hv. unfold send_header.
  case_decide as Hd; [|case_decide as Hq].
  - apply finish_send_handled; [done|by rewrite Hs].
  - eapply wp_seq; [by apply (fail_handled _ _ w w); auto|]. intros tr [r w'] Hr. by apply close_handled.
  - destruct Hw as [Hc Hk]. split_and!; [split; [|done]|done|done|].
    + pose proof (wf_spec_used _ Hc). destruct Hc. rewrite Hs in *.
      constructor; simpl; try done; try (case_decide; simpl; done); case_decide; simpl; lia.
    + intros _. unfold settled. simpl. case_decide; [by intros [?|[?|?]]|lia].
Qed.

(** The header states hold no pending bytes. *)
Lemma process_header_handled w :
  header_used (ctx w) = 8 -> header_state (state (ctx w)) = true -> tidy (ctx w) ->
  ok (on_ctx (fun c => with_header (header c) 0 c) w) ->
  wp (process_header w) (fun _ r => handled w r).
Proof.
  intros Hu Hs Ht Hw. unfold process_header.
  set (w1 := on_ctx _ w) in *.
  pose proof (get_le32_range (drop 4 (header (ctx w)))) as Hv.
  assert (state (ctx w1) = state (ctx w)) as Hst by done.
  assert (forall p, wp p (fun _ r => handled w1 r) -> wp p (fun _ r => handled w r)) as Hmono.
  { intros p Hp. by eapply wp_mono. }
  apply Hmono. rewrite Hst. unfold header_state in Hs. apply bool_decide_eq_true in Hs.
  case_decide; [by apply request_header_handled|].
  case_decide; [by apply drain_header_handled|].
  apply send_header_handled; try done. naive_solver.
Qed.

(** ** The loop *)

(** What one iteration establishes: progress is a byte consumed or the end of
    a wait for nothing. *)
Definition iterated (data : list byte) (w : work) (r : iteration * work) : Prop :=
  ok r.2 /\ tidy (ctx r.2) /\ stream (ctx r.2) = stream (ctx w)
  /\ match r.1 with
     | Return _ => True
     | Consumed n => n <= length data /\ settled (ctx r.2) /\ (settled (ctx w) -> 0 < n)
     end.

Lemma iterated_consumed data w n w' :
  ok w' -> tidy (ctx w') -> stream (ctx w') = stream (ctx w) -> n <= length data ->
  settled (ctx w') -> (settled (ctx w) -> 0 < n) -> iterated data w (Consumed n, w').
Proof. intros; unfold iterated; simpl; split_and!; done. Qed.

Lemma or_return_iterated data count p w w0 :
  wp p (fun _ r => handled w r) -> stream (ctx w) = stream (ctx w0) ->
  count <= length data -> (settled (ctx w0) -> 0 < count) ->
  wp (or_return count p) (fun _ r => iterated data w0 r).
Proof.
  intros Hp Hs Hn Hpos. unfold or_return. eapply wp_seq; [exact Hp|].
  intros tr [ret w'] (Hok & Ht & Hstr & Hset). simpl in *.
  split_and!; simpl; [done|done|congruence|]. case_decide as Hr; simpl; [done|].
  split_and!; [done| |done]. apply Hset. lia.
Qed.

Lemma settled_header st c : state c = st -> header_state st = true -> settled c.
Proof. intros <- Hs. unfold settled. by destruct (state c); intros [?|[?|?]]. Qed.

Lemma wf_with_remaining c n : wf c -> (0 <= n <= remaining c)%Z -> wf (with_remaining n c).
Proof. intros [] ?. constructor; simpl; try done; [destruct (request_state _)|]; lia. Qed.

(** The header bytes. *)
Lemma header_iteration data w :
  data <> [] -> ok w -> tidy (ctx w) -> header_state (state (ctx w)) = true ->
  wp (write_iteration data w) (fun _ r => iterated data w r).
Proof.
  intros Hd [Hc Hk] Ht Hs. unfold write_iteration.
  rewrite decide_False by (intros [E _]; by rewrite E in Hs). rewrite Hs.
  set (count := length data `min` (8 - header_used (ctx w))). set (w1 := on_ctx _ w).
  assert (0 < count <= length data) as Hcount.
  { pose proof (wf_header_used _ Hc). destruct data; [done|]. unfold count. cbn [length]. lia. }
  assert (forall n, n < 8 -> wf (with_header (header (ctx w1)) n (ctx w1))) as Hwf.
  { intros n Hn. destruct Hc. constructor; simpl; try done.
    rewrite length_write_at; [done|]. rewrite length_take. lia. }
  case_decide as H8.
  - apply (or_return_iterated _ _ _ w1); [|done|lia|lia].
    apply process_header_handled; [done|done|done|]. split; [|done]. apply Hwf. lia.
  - simpl. split_and!; [split; [|done]|done|done|].
    + apply (Hwf (header_used (ctx w1))). pose proof (wf_header_used _ Hc).
      unfold w1 in *. simpl in *. unfold count in *. lia.
    + split_and!; [lia|by eapply settled_header|lia].
Qed.

(** The bytes of a name. *)
Lemma request_iteration data w :
  data <> [] -> ok w -> tidy (ctx w) -> request_state (state (ctx w)) = true ->
  wp (write_iteration data w) (fun _ r => iterated data w r).
Proof.
  intros Hd [Hc Hk] Ht Hs. unfold write_iteration.
  rewrite decide_False by (intros [E _]; by rewrite E in Hs).
  replace (header_state _) with false by (by destruct (state (ctx w))). rewrite Hs.
  set (count := length data `min` Z.to_nat (remaining (ctx w))). set (w1 := on_ctx _ w).
  pose proof (wf_remaining _ Hc) as Hrem. pose proof (wf_room _ Hc) as Hroom. rewrite Hs in Hroom.
  assert (settled (ctx w) -> 0 < count) as Hpos.
  { intros Hset. specialize (Hset (or_introl Hs)). destruct data; [done|]. unfold count. cbn [length]. lia. }
  assert (ok w1) as Hok.
  { split; [|done]. destruct Hc. unfold count. constructor; simpl; try done; rewrite ?Hs; try lia.
    rewrite length_write_at; [done|]. rewrite length_take. lia. }
  case_decide as Hz.
  - apply (or_return_iterated _ _ _ w1); [|done|unfold count; lia|done].
    case_decide; [apply send_stat_handled|apply start_send_handled]; done.
  - simpl. split_and!; [done|done|done|]. split_and!; [unfold count; lia| |done].
    intros _. pose proof (wf_remaining _ (proj1 Hok)). change (0 < remaining (ctx w1))%Z. lia.
Qed.

(** The bytes of a DATA record. *)
Lemma data_iteration data w :
  data <> [] -> ok w -> tidy (ctx w) -> state (ctx w) = SYNC_SEND_DATA ->
  wp (write_iteration data w) (fun _ r => iterated data w r).
Proof.
  intros Hd [Hc Hk] Ht Hs. unfold write_iteration.
  rewrite decide_False by (intros [E _]; by rewrite E in Hs). rewrite Hs.
  change (header_state _) with false. change (request_state _) with false. cbv iota.
  rewrite decide_True by done.
  set (count := length data `min` Z.to_nat (remaining (ctx w))).
  pose proof (K_write HK (fs w) (file (ctx w)) (take count data) Hk) as Hk1.
  destruct (fs_write _ _ _) as [[written f] s]. simpl in Hk1.
  set (w1 := set_fs s _).
  pose proof (wf_remaining _ Hc) as Hrem.
  assert (settled (ctx w) -> 0 < count) as Hpos.
  { intros Hset. specialize (Hset (or_intror (or_introl Hs))). destruct data; [done|]. unfold count. cbn [length]. lia. }
  assert (ok w1) as Hok.
  { split; [|done]. apply wf_with_remaining; [|unfold count; cbn; lia].
    apply wf_with_file; [done|apply (wf_live _ Hc)|apply (wf_open _ Hc)]. }
  pose proof (wf_remaining _ (proj1 Hok)) as Hrem1.
  case_decide as Hw.
  - eapply wp_seq; [apply fail_transfer_ok; [done|by case_decide..]|].
    intros tr [ret w2] (Hok2 & Ho & Hl & Hr & Hstr & Hst). simpl in *.
    split_and!; [done|unfold tidy; simpl; congruence|done|].
    destruct (decide (ret <> 0%Z)) as [|Hret]; simpl; [done|]. apply dec_stable in Hret.
    split_and!; [unfold count; lia| |done]. rewrite decide_True in Hst by done.
    unfold settled. rewrite Hst, Hr. case_decide; [by intros [?|[?|?]]|simpl in *; lia].
  - simpl. split_and!.
    + case_decide; [|done]. destruct Hok as [Hc1 ?]. split; [|done].
      apply wf_with_state; [done|done|by simpl; rewrite Hs|done].
    + by case_decide.
    + by case_decide.
    + cbn [fst snd]. split_and!; [unfold count; lia| |done].
      unfold settled. case_decide; simpl; [by intros [?|[?|?]]|simpl in *; lia].
Qed.

(** Bytes that are thrown away. *)
Lemma drain_iteration data w :
  data <> [] -> ok w -> tidy (ctx w) -> state (ctx w) = SYNC_DRAIN_DATA \/ state (ctx w) = SYNC_DISCARD_AND_CLOSE ->
  wp (write_iteration data w) (fun _ r => iterated data w r).
Proof.
  intros Hd [Hc Hk] Ht Hs. unfold write_iteration.
  case_decide as Hdc; [done|].
  replace (header_state _) with false by (by destruct Hs as [->| ->]).
  replace (request_state _) with false by (by destruct Hs as [->| ->]).
  rewrite decide_False by (by destruct Hs as [->| ->]).
  set (count := length data `min` Z.to_nat (remaining (ctx w))). set (w1 := on_ctx _ w).
  pose proof (wf_remaining _ Hc) as Hrem.
  assert (settled (ctx w) -> 0 < count) as Hpos.
  { intros Hset. destruct data; [done|]. unfold count. cbn [length].
    destruct Hs as [Hs|Hs]; [specialize (Hset (or_intror (or_intror Hs)))|]; [lia|].
    assert (remaining (ctx w) <> 0%Z) by tauto. lia. }
  assert (ok w1) as Hok by (split; [apply wf_with_remaining; [done|unfold count; lia]|done]).
  destruct (not_sending_tidy _ Hc) as [Ho Hl]; [by destruct Hs as [->| ->]|].
  assert (count <= length data) by (unfold count; lia).
  case_decide as Hz; [case_decide as Hst|].
  - simpl. apply iterated_consumed; [done..| |done]. unfold settled. simpl. rewrite Hst. by intros [?|[?|?]].
  - simpl. apply iterated_consumed; [|done..|by intros [?|[?|?]]|done]. destruct Hok as [Hc1 ?]. split; [|done].
    apply wf_with_state; [done|done|done|simpl; congruence].
  - simpl. apply iterated_consumed; [done..| |done]. intros _.
    pose proof (wf_remaining _ (proj1 Hok)). change (0 < remaining (ctx w1))%Z. lia.
Qed.

Lemma write_iteration_ok data w :
  data <> [] -> ok w -> tidy (ctx w) -> wp (write_iteration data w) (fun _ r => iterated data w r).
Proof.
  intros Hd Hok Ht. destruct (state (ctx w)) eqn:Hs.
  1,4,6: by apply header_iteration; rewrite ?Hs.
  1,2: by apply request_iteration; rewrite ?Hs.
  1: by apply data_iteration.
  all: by apply drain_iteration; auto.
Qed.

(** The loop returns: an iteration of a settled state consumes a byte, and
    only the first state can be unsettled. *)
Lemma write_loop_ok fuel data w :
  ok w -> tidy (ctx w) -> (settled (ctx w) /\ length data <= fuel) \/ length data < fuel \/ data = [] ->
  wp (write_loop fuel data w)
     (fun _ r => ok r.2 /\ tidy (ctx r.2) /\ stream (ctx r.2) = stream (ctx w) /\ is_Some r.1).
Proof.
  revert data w. induction fuel as [|fuel IH]; intros data w Hok Ht Hfuel; destruct data as [|b data]; try done.
  { simpl in Hfuel. destruct Hfuel as [[_ ?]|[?|?]]; [lia|lia|done]. }
  cbn [write_loop]. eapply wp_seq; [by apply write_iteration_ok|].
  intros tr [[ret|n] w'] (Hok' & Ht' & Hstr & Hr); simpl in Hr |- *; [by split_and!|].
  destruct Hr as (Hn & Hset & Hpos). change (fst (Consumed n, w')) with (Consumed n).
  eapply wp_mono; [apply IH; [done|done|]|].
  - left. split; [done|]. rewrite length_drop. cbn [length] in *.
    destruct Hfuel as [[Hs ?]|[?|?]]; [specialize (Hpos Hs); lia|lia|done].
  - intros tr' r (?&?&?&?). simpl in *. split_and!; [done..|congruence|done].
Qed.
End invariant.
End SyncInv.
