(* ===== verification/AdbSyncSpec.v ===== *)
(** * What the sync service guarantees on its own

    The states the service can reach under any sequence of opens, writes and
    closes, any answers of the engine and any file system: contexts stay well
    formed and every write returns; and the service passes no path to the file
    system, for anything but [fs_stat], that is not below the storage root. *)

From S2P Require Import Prelude CLib Ring AdbProtocol AdbService AdbSync AdbSyncPaths AdbSyncInv.
From Stdlib Require Import ZArith Lia.
From Stdlib Require Import Strings.Byte.
From stdpp Require Import base numbers list list_numbers strings countable sets.

Module SyncSpec.
Import Sync SyncPaths SyncInv.

Section reachable.
Context {cfg : AdbConfig} {sc : SyncConfig} {F : SyncFs}.

(** One call of a callback by the engine. *)
Inductive sync_step : sync -> sync -> Prop :=
| step_open i suffix s : sync_step s (sync_open i suffix s).2
| step_write i data s tr r s' : outcome (sync_write i data s) tr (r, s') -> sync_step s s'
| step_close i s : sync_step s (sync_close i s).

Inductive sync_reachable (n : Z) (f : filesystem) : sync -> Prop :=
| reach_init : sync_reachable n f (sync_init n f)
| reach_step s s' : sync_reachable n f s -> sync_step s s' -> sync_reachable n f s'.

(** The contexts of a service between two calls. *)
Definition contexts_ok (s : sync) : Prop :=
  length (contexts s) = ADB_MAX_STREAMS /\ Forall (fun c => wf c /\ tidy c) (contexts s).

Context (K : filesystem -> Prop) (HK : preserved K).

Definition sinv (s : sync) : Prop := contexts_ok s /\ K (files s).

Lemma context_index_lt st l n : context_index st l = Some n -> n < length l /\ exists c, l !! n = Some c /\ stream c = st.
Proof.
  revert n. induction l as [|c l IH]; intros n; simpl; [done|].
  case_decide; [intros [= <-]; split; [lia|eauto]|].
  destruct (context_index st l) as [m|]; [|done]. intros [= <-].
  destruct (IH m eq_refl) as (? & c' & ? & ?). split; [lia|]. eauto.
Qed.

Lemma load_ok i n s : sinv s -> find_context i s = Some n -> ok K (load n s) /\ tidy (ctx (load n s)).
Proof.
  intros [[Hl Hf] Hk] Hn. apply context_index_lt in Hn as (_ & c & Hc & _).
  unfold load, ok. simpl. rewrite Hc. simpl. rewrite Forall_lookup in Hf. by destruct (Hf _ _ Hc).
Qed.

Lemma store_ok n s w : sinv s -> ok K w -> tidy (ctx w) -> sinv (store n s w).
Proof.
  intros [[Hl Hf] Hk] [? ?] ?. split; [|done]. split; simpl; [by rewrite length_insert|].
  by apply Forall_insert.
Qed.

Lemma sync_open_sinv i suffix s : sinv s -> sinv (sync_open i suffix s).2.
Proof.
  intros Hs. unfold sync_open. case_decide; [done|].
  destruct (context_index None (contexts s)) as [n|]; [|done].
  destruct Hs as [[Hl Hf] Hk]. split; [|done]. split; simpl; [by rewrite length_insert|].
  apply Forall_insert; [done|]. split; [|done]. pose proof zero_context_wf as []. by constructor.
Qed.

Lemma sync_write_sinv i data s :
  sinv s -> wp (sync_write i data s) (fun _ r => sinv r.2 /\ is_Some r.1).
Proof.
  intros Hs. unfold sync_write. destruct (find_context i s) as [n|] eqn:Hn; [|by simpl; eauto].
  destruct (load_ok i n s Hs Hn) as [Hok Ht].
  eapply wp_seq; [apply (write_loop_ok K HK); [done|done|]|].
  - destruct data; [by right; right|]. right. left. unfold write_fuel. cbn [length]. lia.
  - intros tr [r w] (?&?&_&?). simpl in *. split; [|done]. by apply store_ok.
Qed.

Lemma sync_close_sinv i s : sinv s -> sinv (sync_close i s).
Proof.
  intros Hs. unfold sync_close. destruct (find_context i s) as [n|] eqn:Hn; [|done].
  destruct (load_ok i n s Hs Hn) as [Hok Ht].
  destruct (cleanup_ok K HK _ Hok) as ([_ Hk] & _).
  apply store_ok; [done|split; [apply zero_context_wf|done]|done].
Qed.

Lemma sync_step_sinv s s' : sinv s -> sync_step s s' -> sinv s'.
Proof.
  intros Hs. destruct 1 as [| i data s tr r s' Ho |].
  - by apply sync_open_sinv.
  - by apply (proj1 (wp_outcome _ _) (sync_write_sinv i data s Hs)) in Ho as [? _].
  - by apply sync_close_sinv.
Qed.

Lemma sync_init_sinv n f : K f -> sinv (sync_init n f).
Proof.
  intros Hk. split; [|done]. split; simpl; [apply length_replicate|].
  apply Forall_replicate. split; [apply zero_context_wf|done].
Qed.

Lemma sync_reachable_sinv n f s : K f -> sync_reachable n f s -> sinv s.
Proof.
  intros Hk. induction 1; [by apply sync_init_sinv|by eapply sync_step_sinv].
Qed.
End reachable.

Section bounds.
Context {cfg : AdbConfig} {sc : SyncConfig} {F : SyncFs}.

Lemma preserved_True : preserved (fun _ => True).
Proof. by constructor. Qed.

(** C21: in every state the service can reach, with any file system and any
    answers of the engine, each context is well formed - the header and the
    name stay within their arrays, the paths within theirs, a file is open
    exactly while the temporary of an upload is live - and every further write
    keeps it so and returns: the loop of [sync_write] ends. *)
Theorem sync_service_invariant n f s i data tr r s' :
  sync_reachable n f s -> outcome (sync_write i data s) tr (r, s') ->
  contexts_ok s /\ contexts_ok s' /\ is_Some r.
Proof.
  intros Hr Ho. apply (sync_reachable_sinv _ preserved_True) in Hr; [|done].
  apply (proj1 (wp_outcome _ _) (sync_write_sinv _ preserved_True i data s Hr)) in Ho as [[Hs' _] Hr'].
  split_and!; [apply Hr|done|done].
Qed.
End bounds.

(** ** Confinement *)

(** A file system that records the paths of the operations that can change it. *)
Section logged.
Context (F : SyncFs).

Definition logged_fs : SyncFs := {|
  filesystem := @filesystem F * list cstr;
  fs_file_t := @fs_file_t F;
  fs_file_t_init := @fs_file_t_init F;
  fs_stat f p := @fs_stat F f.1 p;
  fs_open f h p := let '(r, h, g) := @fs_open F f.1 h p in (r, h, (g, f.2 ++ [p]));
  fs_write f h d := let '(r, h, g) := @fs_write F f.1 h d in (r, h, (g, f.2));
  fs_close f h := let '(r, h, g) := @fs_close F f.1 h in (r, h, (g, f.2));
  fs_rename f p q := let '(r, g) := @fs_rename F f.1 p q in (r, (g, f.2 ++ [p; q]));
  fs_unlink f p := let '(r, g) := @fs_unlink F f.1 p in (r, (g, f.2 ++ [p]));
|}.

(** The paths recorded so far. *)
Definition touched (f : @filesystem logged_fs) : list cstr := f.2.

Lemma preserved_log : @preserved logged_fs (fun f => Forall below_root (touched f)).
Proof.
  constructor; unfold touched; simpl; intros [g l]; intros; simpl in *.
  - destruct (@fs_open F _ _ _) as [[??]?]. simpl. apply Forall_app. auto.
  - by destruct (@fs_write F _ _ _) as [[??]?].
  - by destruct (@fs_close F _ _) as [[??]?].
  - destruct (@fs_rename F _ _ _) as [??]. simpl. apply Forall_app. auto.
  - destruct (@fs_unlink F _ _) as [??]. simpl. apply Forall_app. auto.
Qed.
End logged.

(** C8: confinement.  Whatever clients send, in any interleaving of any number
    of streams, every path the service opens, renames or removes is below
    /STORAGE:/ and has no [.] or [..] component. *)
Theorem sync_confined {cfg : AdbConfig} {sc : SyncConfig} (F : SyncFs) n g s :
  @sync_reachable cfg sc (logged_fs F) n (g, []) s -> Forall below_root (touched F (files s)).
Proof.
  intros Hr. apply (sync_reachable_sinv _ (preserved_log F)) in Hr as [_ ?]; [done|]. constructor.
Qed.
End SyncSpec.
