(* ===== verification/AdbSyncFs.v ===== *)
(** * What uploads rely on of the file system

    [SyncFsLaws] states the documented behaviour of the operations of
    zephyr/fs/fs.h the service calls, through a view of the file system as a
    map from paths to nodes.  Operations may fail at any time; a failing write
    may have stored part of its data.  The laws take distinct path strings for distinct
    files, as a file system that compares names exactly does; the FAT file
    system of the board also takes names that differ in the case of letters only
    for one file, and what uploads do to such a pair of paths is outside the laws.
    [RamFs] is a file system in memory that
    satisfies the laws; it is used to evaluate the model on concrete uploads. *)

From S2P Require Import Prelude CLib Ring AdbProtocol AdbService AdbSync.
From Stdlib Require Import ZArith Lia.
From Stdlib Require Import Strings.Byte.
From stdpp Require Import base numbers list list_numbers strings countable gmap.

Inductive node := NFile (content : list byte) | NDir.

#[global] Instance node_eq_dec : EqDecision node.
Proof. solve_decision. Defined.

(** [open_at f h p]: the handle [h] is open for writing at the end of the file
    at [p]. *)
Class SyncFsLaws (F : SyncFs) := {
  view : filesystem -> cstr -> option node;
  open_at : filesystem -> fs_file_t -> cstr -> Prop;
  law_stat f p :
    match view f p with
    | Some (NFile _) => exists e, fs_stat f p = Some e /\ entry_type e = FS_DIR_ENTRY_FILE
    | Some NDir => exists e, fs_stat f p = Some e /\ entry_type e = FS_DIR_ENTRY_DIR
    | None => fs_stat f p = None
    end;
  law_open f p r h f' :
    fs_open f fs_file_t_init p = (r, h, f') ->
    (forall q, q <> p -> view f' q = view f q)
    /\ (r = 0%Z -> view f' p = Some (NFile []) /\ open_at f' h p);
  law_write f h p c d r h' f' :
    open_at f h p -> view f p = Some (NFile c) -> fs_write f h d = (r, h', f') ->
    (forall q, q <> p -> view f' q = view f q) /\ open_at f' h' p
    /\ exists k, k <= length d /\ view f' p = Some (NFile (c ++ take k d))
                /\ (r = Z.of_nat (length d) -> k = length d);
  law_close f h p r h' f' :
    open_at f h p -> fs_close f h = (r, h', f') ->
    (forall q, q <> p -> view f' q = view f q) /\ (r = 0%Z -> view f' p = view f p);
  law_rename f p q c r f' :
    p <> q -> view f p = Some (NFile c) -> view f q = None -> fs_rename f p q = (r, f') ->
    (forall x, x <> p -> x <> q -> view f' x = view f x)
    /\ (r = 0%Z -> view f' q = Some (NFile c) /\ view f' p = None)
    /\ (r <> 0%Z -> view f' p = view f p /\ view f' q = view f q);
  law_unlink f p r f' :
    fs_unlink f p = (r, f') ->
    (forall q, q <> p -> view f' q = view f q)
    /\ (view f' p = None \/ view f' p = view f p);
}.

(** ** A file system in memory

    A map from paths to nodes with room for [budget] more bytes. A handle is
    the path of its file. *)
Module RamFs.

Record ram := Ram { nodes : gmap cstr node; budget : nat }.

Definition stat (f : ram) (p : cstr) : option fs_dirent :=
  match nodes f !! p with
  | Some (NFile c) => Some (Dirent FS_DIR_ENTRY_FILE (Z.of_nat (length c)))
  | Some NDir => Some (Dirent FS_DIR_ENTRY_DIR 0)
  | None => None
  end.

Definition open (f : ram) (h p : cstr) : Z * cstr * ram :=
  match nodes f !! p with
  | Some NDir => ((- EISDIR)%Z, h, f)
  | _ => (0%Z, p, Ram (<[p := NFile []]> (nodes f)) (budget f))
  end.

Definition write (f : ram) (h : cstr) (d : list byte) : Z * cstr * ram :=
  match nodes f !! h with
  | Some (NFile c) =>
      let k := length d `min` budget f in
      (Z.of_nat k, h, Ram (<[h := NFile (c ++ take k d)]> (nodes f)) (budget f - k))
  | _ => ((- EBADMSG)%Z, h, f)
  end.

Definition close (f : ram) (h : cstr) : Z * cstr * ram := (0%Z, h, f).

Definition rename (f : ram) (p q : cstr) : Z * ram :=
  match nodes f !! p, nodes f !! q with
  | Some n, None => (0%Z, Ram (<[q := n]> (delete p (nodes f))) (budget f))
  | Some _, Some _ => ((- EEXIST)%Z, f)
  | None, _ => ((- ENOENT)%Z, f)
  end.

Definition unlink (f : ram) (p : cstr) : Z * ram :=
  match nodes f !! p with
  | Some (NFile _) => (0%Z, Ram (delete p (nodes f)) (budget f))
  | Some NDir => ((- EISDIR)%Z, f)
  | None => ((- ENOENT)%Z, f)
  end.

#[global] Instance ram_fs : SyncFs := {|
  filesystem := ram;
  fs_file_t := cstr;
  fs_file_t_init := [];
  fs_stat := stat;
  fs_open := open;
  fs_write := write;
  fs_close := close;
  fs_rename := rename;
  fs_unlink := unlink;
|}.

#[global] Program Instance ram_laws : SyncFsLaws ram_fs := {|
  view f p := nodes f !! p;
  open_at f h p := h = p;
|}.
Next Obligation. intros f p. simpl. unfold stat. destruct (nodes f !! p) as [[]|]; eauto. Qed.
Next Obligation.
  intros f p r h f' E. simpl in *. unfold open in E.
  destruct (nodes f !! p) as [[]|]; simplify_eq; simpl; (split; [intros; by rewrite ?lookup_insert_ne|]);
    first [by rewrite lookup_insert_eq | done].
Qed.
Next Obligation.
  intros f h p c d r h' f' -> Hv E. simpl in *. unfold write in E. rewrite Hv in E. simplify_eq. simpl.
  split_and!; [intros; by rewrite lookup_insert_ne|done|].
  exists (length d `min` budget f). rewrite lookup_insert_eq. split_and!; [lia|done|lia].
Qed.
Next Obligation. intros f h p r h' f' -> E. simpl in *. unfold close in E. by simplify_eq. Qed.
Next Obligation.
  intros f p q c r f' Hn Hp Hq E. simpl in *. unfold rename in E. rewrite Hp, Hq in E. simplify_eq. simpl.
  split_and!; [|split; [by rewrite lookup_insert_eq|]|done].
  - intros x ??. by rewrite lookup_insert_ne, lookup_delete_ne.
  - by rewrite lookup_insert_ne, lookup_delete_eq.
Qed.
Next Obligation.
  intros f p r f' E. simpl in *. unfold unlink in E.
  destruct (nodes f !! p) as [[]|] eqn:En; simplify_eq; simpl; [|auto..].
  split; [intros; by rewrite lookup_delete_ne|]. left. apply lookup_delete_eq.
Qed.
End RamFs.
