(* ===== verification/AdbSyncUpload.v ===== *)
(** * Uploads are exact and atomic

    An upload sent as SEND, DATA records and DONE, cut into writes in any way,
    ends with one status reply.  If it is OKAY the destination holds exactly
    the bytes of the DATA records; if it is FAIL the destination is what it
    was, save when moving the old file back failed too.  At no point of the
    upload does the destination hold a part of the data.

    The proof follows the bytes still to come: [at_phase] relates a context to
    the rest of the stream, and an iteration of the loop of [sync_write] moves
    along it. *)

From S2P Require Import Prelude CLib Ring AdbProtocol AdbService AdbSync AdbSyncPaths AdbSyncInv AdbSyncSpec AdbSyncFs.
From Stdlib Require Import ZArith Lia.
From Stdlib Require Import Strings.Byte.
From stdpp Require Import base numbers list list_numbers strings countable sets gmap.

Module SyncUpload.
Import Sync SyncPaths SyncInv SyncSpec.

(** ** The stream of an upload *)

(** A sync header. *)
Definition frame (id value : Z) : list byte := put_le32 id ++ put_le32 value.

Definition data_record (r : list byte) : list byte := frame SYNC_ID_DATA (Z.of_nat (length r)) ++ r.

Definition spec_text (p mode : cstr) : cstr := p ++ [","%byte] ++ mode.

Definition records_tail (records : list (list byte)) (timestamp : Z) : list byte :=
  concat (data_record <$> records) ++ frame SYNC_ID_DONE timestamp.

Definition upload_stream (p mode : cstr) (records : list (list byte)) (timestamp : Z) : list byte :=
  frame SYNC_ID_SEND (Z.of_nat (length (spec_text p mode))) ++ spec_text p mode ++ records_tail records timestamp.

(** The text after the comma is a number that asks for a regular file. *)
Definition valid_mode (mode : cstr) : Prop :=
  mode <> [] /\ NUL ∉ mode /\ ","%byte ∉ mode
  /\ exists v, strtoul mode = (v, false, []) /\ (v <= UINT32_MAX)%Z /\ mode_refused v = false.

Lemma length_frame id v : length (frame id v) = 8.
Proof. done. Qed.

Lemma get_frame id v l : get_le32 (frame id v ++ l) = u32 id /\ get_le32 (drop 4 (frame id v ++ l)) = u32 v.
Proof.
  unfold frame. split.
  - rewrite <- app_assoc. apply get_put_le32.
  - change (drop 4 ((put_le32 id ++ put_le32 v) ++ l)) with (put_le32 v ++ l). apply get_put_le32.
Qed.

Lemma records_tail_cons r rs ts :
  records_tail (r :: rs) ts = frame SYNC_ID_DATA (Z.of_nat (length r)) ++ r ++ records_tail rs ts.
Proof. unfold records_tail, data_record. simpl. by rewrite <- !app_assoc. Qed.

(** A path and one of its side names. *)
Definition side_of (p q : cstr) : Prop := exists t, q = p ++ part_suffix t \/ q = p ++ old_suffix t.

Lemma part_suffix_ne p t : p ++ part_suffix t <> p.
Proof.
  intros E. apply (f_equal length) in E. unfold part_suffix in E.
  rewrite !length_app, length_hex_text in E. simpl in E. lia.
Qed.

Lemma old_suffix_ne p t : p ++ old_suffix t <> p.
Proof.
  intros E. apply (f_equal length) in E. unfold old_suffix in E.
  rewrite !length_app, length_hex_text in E. simpl in E. lia.
Qed.

Section upload.
Context {cfg : AdbConfig} {sc : SyncConfig} {F : SyncFs} {L : SyncFsLaws F}.
Context (p : cstr) (fs0 : filesystem).

(** ** The file system during an upload *)

(** The destination and everything but the two side files of the upload. *)
Definition untouched (t : Z) (f : filesystem) : Prop :=
  forall q, q <> p -> q <> p ++ part_suffix t -> q <> p ++ old_suffix t -> view f q = view fs0 q.

(** The destination is what it was, or the old file could not be moved back
    and still exists under the backup name. *)
Definition kept (f : filesystem) : Prop :=
  view f p = view fs0 p \/ (view f p = None /\ exists t, view f (p ++ old_suffix t) = view fs0 p).

(** While data is received: the temporary holds it, the rest is as before. *)
Record staged (t : Z) (content : list byte) (w : work) : Prop := {
  st_path : path (ctx w) = p;
  st_temporary : temporary (ctx w) = p ++ part_suffix t;
  st_backup : backup (ctx w) = p ++ old_suffix t;
  st_open : file_open (ctx w) = true;
  st_live : temporary_live (ctx w) = true;
  st_handle : open_at (fs w) (file (ctx w)) (p ++ part_suffix t);
  st_content : view (fs w) (p ++ part_suffix t) = Some (NFile content);
  st_free : view fs0 (p ++ part_suffix t) = None /\ view fs0 (p ++ old_suffix t) = None;
  st_file : view fs0 p <> Some NDir;
  st_others q : q <> p ++ part_suffix t -> view (fs w) q = view fs0 q;
}.

(** [cleanup_partial] on a context with a temporary, its file open or closed:
    only the temporary changes. *)
Lemma cleanup_view w tmp :
  temporary (ctx w) = tmp ->
  (file_open (ctx w) = true -> open_at (fs w) (file (ctx w)) tmp) ->
  forall q, q <> tmp -> view (fs (cleanup_partial w)) q = view (fs w) q.
Proof.
  intros Ht Ho q Hq. unfold cleanup_partial.
  set (w1 := if file_open (ctx w) then _ else w).
  assert (view (fs w1) q = view (fs w) q /\ temporary (ctx w1) = tmp) as [E Ht1].
  { unfold w1. destruct (file_open (ctx w)); [|done].
    destruct (fs_close (fs w) (file (ctx w))) as [[r f] s] eqn:Ec. simpl.
    destruct (law_close _ _ _ _ _ _ (Ho eq_refl) Ec) as [Hv _]. split; [by apply Hv|done]. }
  destruct (temporary_live (ctx w1)); [|done].
  destruct (fs_unlink (fs w1) (temporary (ctx w1))) as [r s] eqn:Eu. simpl.
  apply law_unlink in Eu as [Hu _]. rewrite Hu by congruence. done.
Qed.

(** Without a temporary [cleanup_partial] does nothing. *)
Lemma cleanup_nothing w : file_open (ctx w) = false -> temporary_live (ctx w) = false -> cleanup_partial w = w.
Proof. intros Ho Hl. unfold cleanup_partial. rewrite Ho. by rewrite Hl. Qed.

(** ** Installing the file *)

Definition installed (t : Z) (content : list byte) (f : filesystem) : Prop :=
  view f p = Some (NFile content) /\ view f (p ++ part_suffix t) = None
  /\ (view f (p ++ old_suffix t) = None \/ view f (p ++ old_suffix t) = view fs0 p) /\ untouched t f.

Lemma path_exists_view q w : path_exists q w = bool_decide (view (fs w) q <> None).
Proof.
  unfold path_exists. pose proof (law_stat (fs w) q) as H.
  apply bool_decide_ext. destruct (view (fs w) q) as [[]|]; [destruct H as (e & -> & _)..|rewrite H].
  - split; [done|eauto].
  - split; [done|eauto].
  - split; [by intros [? ?]|done].
Qed.

(** Nothing but the temporary file has been touched. *)
Definition only_temporary (t : Z) (s : filesystem) : Prop := forall q, q <> p ++ part_suffix t -> view s q = view fs0 q.

Lemma only_temporary_kept t s : only_temporary t s -> untouched t s /\ kept s.
Proof.
  intros Hs. split; [intros q ???; by apply Hs|]. left. apply Hs. apply not_eq_sym, part_suffix_ne.
Qed.

(** The destination is out of the way, under the backup name if there was one. *)
Definition moved_out (t : Z) (content : list byte) (s : filesystem) : Prop :=
  view s p = None /\ view s (p ++ part_suffix t) = Some (NFile content) /\ view s (p ++ old_suffix t) = view fs0 p /\ untouched t s.

(** The first rename, when there is a destination. *)
Lemma move_out t content s r s' :
  only_temporary t s -> view s (p ++ part_suffix t) = Some (NFile content) -> view fs0 (p ++ old_suffix t) = None ->
  view fs0 p <> Some NDir ->
  (if bool_decide (view fs0 p <> None) then fs_rename s p (p ++ old_suffix t) else (0%Z, s)) = (r, s') ->
  (r <> 0%Z -> only_temporary t s') /\ (r = 0%Z -> moved_out t content s').
Proof.
  pose proof (part_suffix_ne p t) as Hne1. pose proof (old_suffix_ne p t) as Hne2. pose proof (part_not_old p p t t) as Hne3.
  unfold moved_out, untouched, only_temporary. set (T := p ++ part_suffix t) in *. set (B := p ++ old_suffix t) in *.
  intros Hs HT HB Hnd. case_bool_decide as Hex.
  - destruct (view fs0 p) as [[o|]|] eqn:Eo; [|done..]. intros Er.
    assert (view s p = Some (NFile o)) as Hp by (rewrite <- Eo; apply Hs; congruence).
    assert (view s B = None) as HsB by (rewrite Hs; [done|congruence]).
    destruct (law_rename _ _ _ _ _ _ (not_eq_sym Hne2) Hp HsB Er) as (Hx & H0 & Hn). split.
    + intros Hr q HqT. destruct (Hn Hr) as [HnP HnB].
      destruct (decide (q = p)) as [->|]; [congruence|]. destruct (decide (q = B)) as [->|]; [congruence|].
      rewrite Hx by done. by apply Hs.
    + intros Hr. destruct (H0 Hr) as [HB' HP']. split_and!; [done| |done|].
      * by rewrite Hx by congruence.
      * intros q ???. rewrite Hx by done. by apply Hs.
  - intros [= <- <-]. split; [done|]. intros _. split_and!; [rewrite Hs by congruence; congruence|done| |].
    + rewrite Hs by congruence. congruence.
    + intros q ???. by apply Hs.
Qed.

(** The second rename failed: the destination is moved back. *)
Lemma move_back t s s' :
  view s p = None -> view s (p ++ old_suffix t) = view fs0 p -> untouched t s -> view fs0 p <> Some NDir ->
  s' = (if bool_decide (view fs0 p <> None) then (fs_rename s (p ++ old_suffix t) p).2 else s) -> untouched t s' /\ kept s'.
Proof.
  pose proof (old_suffix_ne p t) as Hne2. intros Hp HB Hu Hnd ->. case_bool_decide as Hex.
  - destruct (view fs0 p) as [[o|]|] eqn:Eo; [|done..].
    destruct (fs_rename s (p ++ old_suffix t) p) as [r s'] eqn:Er. simpl.
    destruct (law_rename _ _ _ _ _ _ Hne2 HB Hp Er) as (Hx & H0 & Hn). split.
    + intros q ???. rewrite Hx by done. by apply Hu.
    + unfold kept. destruct (decide (r = 0%Z)) as [Hz|Hz]; [left|right].
      * destruct (H0 Hz). congruence.
      * destruct (Hn Hz) as [? ?]. split; [congruence|]. exists t. congruence.
  - split; [done|]. left. congruence.
Qed.

(** The second rename worked: the backup is removed, if that works. *)
Lemma drop_backup t content s s' :
  view s p = Some (NFile content) -> view s (p ++ part_suffix t) = None -> view s (p ++ old_suffix t) = view fs0 p -> untouched t s ->
  s' = (if bool_decide (view fs0 p <> None) then (fs_unlink s (p ++ old_suffix t)).2 else s) -> installed t content s'.
Proof.
  pose proof (old_suffix_ne p t) as Hne2. pose proof (part_not_old p p t t) as Hne3. intros Hp HT HB Hu ->. case_bool_decide as Hex.
  - destruct (fs_unlink s (p ++ old_suffix t)) as [r s'] eqn:Eu. simpl. apply law_unlink in Eu as [Hu1 Hu2].
    split_and!; [by rewrite Hu1 by congruence|by rewrite Hu1 by congruence| |].
    + destruct Hu2; [by left|right; congruence].
    + intros q ???. rewrite Hu1 by done. by apply Hu.
  - split_and!; [done|done|by right|done].
Qed.

(** What [replace_destination] does to the view: the new file is installed, or
    the destination is kept. *)
Lemma replace_destination_view t content w :
  staged t content w ->
  let r := replace_destination w in
  temporary (ctx r.2) = p ++ part_suffix t
  /\ ((r.1 = 0%Z /\ installed t content (fs r.2))
      \/ (r.1 <> 0%Z /\ untouched t (fs r.2) /\ kept (fs r.2) /\ file_open (ctx r.2) = false)).
Proof.
  intros [Hp Ht Hb Ho Hl Hh Hc [Hf1 Hf2] Hnd Hq]. unfold replace_destination.
  pose proof (part_suffix_ne p t) as Hne1. pose proof (part_not_old p p t t) as Hne3.
  destruct (fs_close (fs w) (file (ctx w))) as [[rc f] s1] eqn:Ec.
  destruct (law_close _ _ _ _ _ _ Hh Ec) as [Hc1 Hc2].
  set (w1 := set_fs s1 _).
  assert (only_temporary t s1) as Hq1 by (intros q ?; rewrite Hc1 by done; by apply Hq).
  case_decide as Hrc; simpl.
  { split; [done|]. right. destruct (only_temporary_kept t s1 Hq1). by split_and!. }
  rewrite path_exists_view. change (path (ctx w1)) with (path (ctx w)). change (backup (ctx w1)) with (backup (ctx w)).
  change (fs w1) with s1. rewrite Hp, Hb, (Hq1 p) by congruence.
  assert (view s1 (p ++ part_suffix t) = Some (NFile content)) as HcT by (rewrite Hc2; [done|lia]).
  destruct (if bool_decide (view fs0 p <> None) then fs_rename s1 p (p ++ old_suffix t) else (0%Z, s1)) as [r2 s2] eqn:E2.
  destruct (move_out t content s1 r2 s2 Hq1 HcT Hf2 Hnd E2) as [Hfail Hok].
  assert ((if bool_decide (view fs0 p <> None) then let '(ret, s) := fs_rename s1 p (p ++ old_suffix t) in (ret, set_fs s w1) else (0%Z, w1))
    = (r2, set_fs s2 w1)) as ->.
  { destruct (bool_decide _); [by rewrite E2|]. by injection E2 as <- <-. }
  case_decide as Hr2; simpl.
  { split; [done|]. destruct (only_temporary_kept t s2 (Hfail Hr2)). right. by split_and!. }
  destruct (Hok Hr2) as (HsP & HsT & HsB & Hsq).
  rewrite Ht, Hb. destruct (fs_rename s2 (p ++ part_suffix t) p) as [r3 s3] eqn:Er3.
  destruct (law_rename _ _ _ _ _ _ Hne1 HsT HsP Er3) as (Hx & H0 & Hn).
  assert (untouched t s3) as Hu3 by (intros q ???; rewrite Hx by done; by apply Hsq).
  assert (view s3 (p ++ old_suffix t) = view fs0 p) as HB3.
  { rewrite Hx; [done|congruence|]. apply old_suffix_ne. }
  case_decide as Hr3; simpl.
  - destruct (Hn Hr3) as [HnT HnP]. split; [by destruct (bool_decide _)|]. right. split; [done|].
    destruct (move_back t s3 _ ltac:(congruence) HB3 Hu3 Hnd eq_refl). by destruct (bool_decide _).
  - destruct H0 as [HP3 HT3]; [lia|]. split; [by destruct (bool_decide _)|]. left. split; [done|].
    pose proof (drop_backup t content s3 _ HP3 HT3 HB3 Hu3 eq_refl). by destruct (bool_decide _).
Qed.

(** ** The phases of an upload *)

Context (i : nat) (mode : cstr) (records : list (list byte)) (timestamp : Z).

(** The whole content and the replies. *)
Definition whole : list byte := concat records.
Definition okay_reply : service_event := EvWrite i 0 (status_reply SYNC_ID_OKAY []) 0.
Definition fail_reply (reason : cstr) : service_event := EvWrite i 0 (status_reply SYNC_ID_FAIL reason) 0.

Definition sized (r : list byte) : Prop := (Z.of_nat (length r) <= SYNC_DATA_MAX)%Z.

(** The file system of an upload that failed. *)
Definition refused (f : filesystem) : Prop := kept f /\ exists t, untouched t f.

(** [header_with w l]: the header bytes collected so far followed by [l]. *)
Definition header_with (w : work) (l : list byte) : list byte := take (header_used (ctx w)) (header (ctx w)) ++ l.

(** [at_phase tr rest w]: after the replies [tr], with the bytes [rest] of the
    upload still to come. *)
Inductive at_phase (w : work) : list service_event -> list byte -> Prop :=
| ph_request rest :
    state (ctx w) = SYNC_REQUEST_HEADER -> fs w = fs0 -> file_open (ctx w) = false -> temporary_live (ctx w) = false ->
    header_with w rest = upload_stream p mode records timestamp ->
    at_phase w [] rest
| ph_spec rest :
    state (ctx w) = SYNC_REQUEST_SPEC -> fs w = fs0 -> file_open (ctx w) = false -> temporary_live (ctx w) = false ->
    header_used (ctx w) = 0 ->
    remaining (ctx w) = (Z.of_nat (length (spec_text p mode)) - Z.of_nat (spec_used (ctx w)))%Z ->
    (0 < remaining (ctx w))%Z ->
    take (spec_used (ctx w)) (spec (ctx w)) ++ rest = spec_text p mode ++ records_tail records timestamp ->
    at_phase w [] rest
| ph_header t done records' rest :
    state (ctx w) = SYNC_SEND_HEADER -> staged t done w -> Forall sized records' ->
    done ++ concat records' = whole ->
    header_with w rest = records_tail records' timestamp ->
    at_phase w [] rest
| ph_data t done r records' :
    state (ctx w) = SYNC_SEND_DATA -> staged t done w -> Forall sized records' ->
    header_used (ctx w) = 0 -> r <> [] -> remaining (ctx w) = Z.of_nat (length r) ->
    done ++ r ++ concat records' = whole ->
    at_phase w [] (r ++ records_tail records' timestamp)
| ph_drain_header reason records' rest :
    state (ctx w) = SYNC_DRAIN_HEADER -> refused (fs w) -> Forall sized records' ->
    header_with w rest = records_tail records' timestamp ->
    at_phase w [fail_reply reason] rest
| ph_drain_data reason r records' :
    state (ctx w) = SYNC_DRAIN_DATA -> refused (fs w) -> Forall sized records' ->
    header_used (ctx w) = 0 -> r <> [] -> remaining (ctx w) = Z.of_nat (length r) ->
    at_phase w [fail_reply reason] (r ++ records_tail records' timestamp)
| ph_installed t :
    state (ctx w) = SYNC_REQUEST_HEADER -> header_used (ctx w) = 0 -> installed t whole (fs w) ->
    at_phase w [okay_reply] []
| ph_refused reason :
    state (ctx w) = SYNC_REQUEST_HEADER -> header_used (ctx w) = 0 -> refused (fs w) ->
    at_phase w [fail_reply reason] []
| ph_not_installed reason :
    state (ctx w) = SYNC_DRAIN_HEADER -> header_used (ctx w) = 0 -> refused (fs w) ->
    at_phase w [fail_reply reason] [].

(** What the theorem assumes of the request. *)
Record request_ok : Prop := {
  rq_path : sync_path_allowed p = true;
  rq_mode : valid_mode mode;
  rq_length : length (spec_text p mode) < SYNC_SPEC_CAPACITY;
  rq_records : Forall sized records;
}.

Context (Hrq : request_ok).

(** *** Headers *)

(** Collecting a header: it is still incomplete, or it is the frame and the
    rest of the data follows it. *)
Lemma collect_header w data rest id v x :
  wf (ctx w) -> header_with w (data ++ rest) = frame id v ++ x ->
  let count := length data `min` (8 - header_used (ctx w)) in
  let c := with_header (write_at (header (ctx w)) (header_used (ctx w)) (take count data))
             (header_used (ctx w) + count) (ctx w) in
  (header_used c = 8 /\ header c = frame id v /\ drop count data ++ rest = x)
  \/ (header_used c < 8 /\ take (header_used c) (header c) ++ drop count data ++ rest = frame id v ++ x).
Proof.
  intros Hc Hh. simpl. set (u := header_used (ctx w)) in *.
  set (count := length data `min` (8 - u)).
  pose proof (wf_header_used _ Hc) as Hu. pose proof (wf_header _ Hc) as Hlen. fold u in Hu.
  assert (length (take count data) = count) as Hcount by (rewrite length_take; unfold count; lia).
  assert (take (u + count) (write_at (header (ctx w)) u (take count data)) ++ drop count data ++ rest = frame id v ++ x)
    as Htake.
  { rewrite <- Hcount at 1. rewrite take_write_at by lia. rewrite <- app_assoc, (app_assoc (take count data)), take_drop.
    apply Hh. }
  destruct (decide (u + count = 8)) as [H8|H8]; [left|right].
  - split; [done|]. rewrite H8 in Htake.
    rewrite take_ge in Htake by (rewrite length_write_at; lia).
    apply app_inj_1 in Htake; [done|]. by rewrite length_write_at, Hlen by lia.
  - split; [unfold count in *; lia|done].
Qed.

(** The first frame of the records that are left. *)
Lemma records_tail_frame rs :
  (rs = [] /\ records_tail rs timestamp = frame SYNC_ID_DONE timestamp ++ [])
  \/ exists r rs', rs = r :: rs'
       /\ records_tail rs timestamp = frame SYNC_ID_DATA (Z.of_nat (length r)) ++ r ++ records_tail rs' timestamp.
Proof.
  destruct rs as [|r rs']; [left|right].
  - split; [done|]. unfold records_tail. by rewrite app_nil_r.
  - exists r, rs'. split; [done|]. apply records_tail_cons.
Qed.

(** *** Failing *)

Lemma cleanup_ctx w : exists f o l, ctx (cleanup_partial w) = with_file f o l (ctx w).
Proof.
  unfold cleanup_partial. set (w1 := if file_open (ctx w) then _ else w).
  assert (exists f o, ctx w1 = with_file f o (temporary_live (ctx w)) (ctx w)) as (f & o & E).
  { unfold w1. destruct (file_open (ctx w)) eqn:Eo; [destruct (fs_close _ _) as [[??]?]; simpl; eauto|].
    exists (file (ctx w)), (file_open (ctx w)). by destruct (ctx w). }
  destruct (temporary_live (ctx w1)); [|eauto].
  destruct (fs_unlink _ _). simpl. rewrite E. by exists f, o, false.
Qed.

Lemma fail_transfer_view reason drain w :
  stream (ctx w) = Some i ->
  wp (fail_transfer reason drain w)
     (fun tr r => r.1 = 0%Z ->
        tr = [fail_reply reason] /\ state (ctx r.2) = drain /\ fs r.2 = fs (cleanup_partial w)
        /\ header_used (ctx r.2) = header_used (ctx w) /\ header (ctx r.2) = header (ctx w)
        /\ remaining (ctx r.2) = remaining (ctx w)).
Proof.
  intros Hs. destruct (cleanup_ctx w) as (f & o & l & Hctx). unfold fail_transfer. simpl.
  rewrite Hctx. simpl. rewrite Hs. simpl. intros r. case_decide as Hr; simpl; [done|].
  intros _. rewrite Hctx. simpl. by rewrite Hr.
Qed.

(** A failure before the temporary exists. *)
Lemma fail_early_phase reason w rest :
  stream (ctx w) = Some i -> file_open (ctx w) = false -> temporary_live (ctx w) = false ->
  header_used (ctx w) = 0 -> refused (fs w) -> rest = records_tail records timestamp ->
  wp (fail_transfer reason SYNC_DRAIN_HEADER w) (fun tr r => r.1 = 0%Z -> at_phase r.2 tr rest).
Proof.
  intros Hs Ho Hl Hu Hf ->. eapply wp_mono; [by apply fail_transfer_view|].
  intros tr r Hr Hr0. destruct (Hr Hr0) as (-> & Hst & Hfs & Hu' & _).
  eapply ph_drain_header; [done| |apply Hrq|].
  - by rewrite Hfs, cleanup_nothing.
  - unfold header_with. by rewrite Hu', Hu.
Qed.

Lemma refused_init f t : (forall q, q <> p ++ part_suffix t -> view f q = view fs0 q) -> refused f.
Proof.
  intros H. split; [left; apply H; apply not_eq_sym, part_suffix_ne|]. exists t. intros q ???. by apply H.
Qed.

(** Removing the temporary changes nothing else. *)
Lemma refused_cleanup w t :
  temporary (ctx w) = p ++ part_suffix t ->
  (file_open (ctx w) = true -> open_at (fs w) (file (ctx w)) (p ++ part_suffix t)) ->
  kept (fs w) -> untouched t (fs w) -> refused (fs (cleanup_partial w)).
Proof.
  intros Ht Ho Hk Hu. pose proof (cleanup_view w _ Ht Ho) as Hv. split.
  - destruct Hk as [Hk|(Hk & u & Hu')]; [left|right; split; [|exists u]].
    + rewrite Hv; [done|]. apply not_eq_sym, part_suffix_ne.
    + rewrite Hv; [done|]. apply not_eq_sym, part_suffix_ne.
    + rewrite Hv; [done|]. apply not_eq_sym, part_not_old.
  - exists t. intros q ???. rewrite Hv by done. by apply Hu.
Qed.

(** A failure while data is received. *)
Lemma staged_cleanup t done w : staged t done w -> refused (fs (cleanup_partial w)).
Proof.
  intros []. eapply refused_cleanup; [done|done| |].
  - left. apply st_others0, not_eq_sym, part_suffix_ne.
  - intros q ???. by apply st_others0.
Qed.

(** *** Starting *)

Lemma refused_same f : f = fs0 -> refused f.
Proof. intros ->. split; [by left|]. exists 0%Z. by intros q ???. Qed.

Lemma stat_free f q : fs_stat f q = None -> view f q = None.
Proof.
  intros E. pose proof (law_stat f q) as H.
  destruct (view f q) as [[]|]; [destruct H as (e & ? & _); congruence..|done].
Qed.

Lemma open_temporary_phase w :
  wf (ctx w) -> stream (ctx w) = Some i -> path (ctx w) = p -> fs w = fs0 ->
  file_open (ctx w) = false -> temporary_live (ctx w) = false -> header_used (ctx w) = 0 ->
  wp (open_temporary w) (fun tr r => r.1 = 0%Z -> at_phase r.2 tr (records_tail records timestamp)).
Proof.
  intros Hc Hs Hp Hfs Ho Hl Hu. unfold open_temporary, choose_side_paths.
  destruct (choose_loop_spec 32 w) as (Hfs1 & (tm & bk & Hctx & _ & _) & Hr); [apply Hc|apply Hc|apply Hc|].
  destruct (choose_loop 32 w) as [ret w1]. simpl in *. rewrite Hp in *.
  assert (forall reason w', fs w' = fs0 -> ctx w' = ctx w1 ->
            wp (fail_transfer reason SYNC_DRAIN_HEADER w')
              (fun tr r => r.1 = 0%Z -> at_phase r.2 tr (records_tail records timestamp))) as Hfail.
  { intros reason w' Hf' Hc'. apply fail_early_phase; rewrite ?Hc', ?Hctx; try done. by apply refused_same. }
  rewrite Hfs in Hfs1.
  case_decide as Hr0; [by apply Hfail|].
  destruct Hr as [(_ & t & Ht & Hb & HfT & HfB)|Hr]; [|unfold EEXIST in Hr; lia].
  rewrite Ht in HfT. rewrite Hb in HfB. rewrite Hfs in HfT, HfB. apply stat_free in HfT, HfB.
  assert (path (ctx w1) = p) as Hp1 by (by rewrite Hctx). rewrite Hp1, Ht.
  destruct (match fs_stat (fs w1) p with Some _ => _ | None => _ end) eqn:Edir; [by apply Hfail|].
  assert (view fs0 p <> Some NDir) as Hnd.
  { intros E. pose proof (law_stat fs0 p) as H. rewrite E in H. destruct H as (e & H1 & H2).
    rewrite Hfs1, H1, H2 in Edir. done. }
  destruct (fs_open (fs w1) fs_file_t_init (p ++ part_suffix t)) as [[ro h] f'] eqn:Eo.
  rewrite Hfs1 in Eo. apply law_open in Eo as [Hv Hok].
  case_decide as Hro.
  - apply fail_early_phase; simpl; rewrite ?Hctx; try done. by apply (refused_init _ t).
  - destruct Hok as [Hvt Hat]; [lia|]. simpl. intros _.
    apply (ph_header _ t [] records); simpl; [done| |apply Hrq|done|].
    + constructor; simpl; try done.
    + unfold header_with. simpl. rewrite Hctx. simpl. by rewrite Hu.
Qed.

Lemma allowed_no_nul q : sync_path_allowed q = true -> NUL ∉ q.
Proof.
  intros H. apply allowed_below_root, below_root_scan in H as (Hp & _ & _ & Hs).
  apply starts_with_spec in Hp as [k ->]. rewrite drop_app_length in Hs.
  rewrite elem_of_app. intros [Hn|Hn]; [vm_compute in Hn; set_solver|].
  apply list_elem_of_lookup in Hn as [n Hn]. apply list_elem_of_split_length in Hn as (a & b & -> & _).
  assert (forall st, path_scan st (a ++ NUL :: b) = false) as Hf; [|by rewrite Hf in Hs].
  clear. induction a as [|x a IH]; intros st; [done|].
  rewrite <- app_comm_cons, scan_cons. destruct (_ || _); [done|]. by destruct (st && _).
Qed.

Lemma spec_text_no_nul : NUL ∉ spec_text p mode.
Proof.
  destruct Hrq as [Hp (_ & Hm & _) _ _]. apply allowed_no_nul in Hp. unfold spec_text. set_solver.
Qed.

(** The request is parsed as it was sent. *)
Lemma start_send_phase w :
  wf (ctx w) -> stream (ctx w) = Some i -> fs w = fs0 ->
  file_open (ctx w) = false -> temporary_live (ctx w) = false -> header_used (ctx w) = 0 ->
  state (ctx w) = SYNC_REQUEST_SPEC ->
  take (spec_used (ctx w)) (spec (ctx w)) = spec_text p mode ->
  spec_used (ctx w) = length (spec_text p mode) ->
  wp (start_send w) (fun tr r => r.1 = 0%Z -> at_phase r.2 tr (records_tail records timestamp)).
Proof.
  intros Hc Hs Hfs Ho Hl Hu Hst Htext Hused. pose proof spec_text_no_nul as Hnn.
  destruct Hrq as [Hp (Hm0 & Hm1 & Hm2 & v & Hv & Hv1 & Hv2) Hlen Hrec].
  unfold start_send.
  assert (wf (ctx (terminate_spec w))) as Hc1 by (by apply (terminate_spec_ok (fun _ => True) w)).
  set (w1 := terminate_spec w) in *.
  assert (exists x, spec (ctx w1) = spec_text p mode ++ NUL :: x) as [x Hx].
  { unfold w1. simpl. unfold write_at. rewrite Htext. simpl. eauto. }
  assert (spec_is_string (ctx w1) = true) as ->.
  { unfold spec_is_string. change (spec_used (ctx w1)) with (spec_used (ctx w)).
    rewrite Hx, Hused, take_app_length. apply bool_decide_eq_true, strchr_None. done. }
  rewrite Hx, c_string_app by done. cbn [negb].
  assert (strrchr (spec_text p mode) ","%byte = Some (length p)) as -> by (by apply strrchr_last).
  assert (drop (length p + 1) (spec_text p mode) = mode) as Hdrop.
  { unfold spec_text. rewrite (app_assoc p). apply drop_app_length'. rewrite length_app. done. }
  rewrite Hdrop, Hv.
  assert (0 < length p) as Hp0.
  { destruct p; [done|]. simpl. lia. }
  rewrite decide_False.
  2: { intros [?|E]; [lia|]. unfold char_at in E. rewrite <- (Nat.add_0_r (length p + 1)), <- lookup_drop, Hdrop in E.
       destruct mode as [|y l]; [done|]. simpl in E. subst y. set_solver. }
  rewrite decide_False by (intros [?|[?|?]]; [done|done|lia]). rewrite Hv2.
  set (w2 := on_ctx _ w1).
  assert (c_string (spec (ctx w2)) = p) as Hdest.
  { change (spec (ctx w2)) with (write_at (spec (ctx w1)) (length p) [NUL]). rewrite Hx. unfold write_at, spec_text.
    rewrite <- app_assoc, take_app_length. apply c_string_app. by apply allowed_no_nul. }
  rewrite Hdest, Hp.
  assert (length p < SYNC_PATH_MAX) as Hpl.
  { unfold sync_path_allowed in Hp. case_decide as Hd; [done|]. lia. }
  rewrite decide_False by (intros [?|?]; [done|lia]).
  apply open_temporary_phase; try done.
  destruct Hc1. constructor; simpl in *; try done; [|by rewrite Hst].
  rewrite length_write_at; [done|]. rewrite wf_spec0. simpl. unfold spec_text in Hlen. rewrite length_app in Hlen. lia.
Qed.

(** *** Receiving *)

(** The frame in a header buffer, as [process_header] reads it. *)
Lemma frame_value id v : (0 <= id < 2 ^ 32)%Z ->
  get_le32 (frame id v) = id /\ get_le32 (drop 4 (frame id v)) = u32 v.
Proof.
  intros Hid. destruct (get_frame id v []) as [H1 H2]. rewrite app_nil_r in H1, H2.
  by rewrite H1, H2, (u32_small id).
Qed.

Lemma process_frame w id v :
  (0 <= id < 2 ^ 32)%Z ->
  process_header (on_ctx (with_header (frame id v) 8) w) =
  let w1 := on_ctx (with_header (frame id v) 0) w in
  if decide (state (ctx w) = SYNC_REQUEST_HEADER) then request_header id (u32 v) w1
  else if decide (state (ctx w) = SYNC_DRAIN_HEADER) then drain_header id (u32 v) w1
  else send_header id (u32 v) w1.
Proof.
  intros Hid. unfold process_header. change (header (ctx (on_ctx (with_header (frame id v) 8) w))) with (frame id v).
  by destruct (frame_value id v Hid) as [-> ->].
Qed.

(** DONE: the file is installed and OKAY sent, or the upload is refused. *)
Lemma finish_send_phase w t ts :
  stream (ctx w) = Some i -> header_used (ctx w) = 0 -> staged t whole w ->
  wp (finish_send ts w) (fun tr r => r.1 = 0%Z -> at_phase r.2 tr []).
Proof.
  intros Hs Hu Hst. unfold finish_send. destruct (replace_destination_view _ _ _ Hst) as (Ht & Hr).
  assert (stream (ctx (replace_destination w).2) = Some i /\ header_used (ctx (replace_destination w).2) = 0) as [Hs' Hu'].
  { unfold replace_destination. repeat (case_match; simplify_eq/=; try done). }
  destruct (replace_destination w) as [ret w1]. simpl in *.
  destruct Hr as [(-> & Hins)|(Hret & Hun & Hk & Hclosed)].
  - rewrite decide_False by auto. simpl. intros r ->. rewrite decide_True by done. rewrite Hs'. simpl.
    by apply (ph_installed _ t).
  - rewrite decide_True by done. eapply wp_mono; [by apply fail_transfer_view|].
    intros tr r Hr Hr0. destruct (Hr Hr0) as (-> & Hstate & Hfs & Hu2 & _).
    apply ph_not_installed; [done|congruence|]. rewrite Hfs. eapply refused_cleanup; [done| |done|done].
    congruence.
Qed.

Lemma staged_ext t done w w' :
  staged t done w -> fs w' = fs w -> path (ctx w') = path (ctx w) -> temporary (ctx w') = temporary (ctx w) ->
  backup (ctx w') = backup (ctx w) -> file_open (ctx w') = file_open (ctx w) ->
  temporary_live (ctx w') = temporary_live (ctx w) -> file (ctx w') = file (ctx w) -> staged t done w'.
Proof.
  intros [] Hfs ????? Hf. constructor; rewrite ?Hfs, ?Hf; first [done | congruence].
Qed.

(** What an iteration must establish. *)
Definition moves (tr0 : list service_event) (data rest : list byte) (tr : list service_event) (r : iteration * work) : Prop :=
  match r.1 with
  | Return ret => ret <> 0%Z
  | Consumed n => at_phase r.2 (tr0 ++ tr) (drop n data ++ rest)
  end.

Lemma or_return_moves tr0 data rest count q :
  wp q (fun tr r => r.1 = 0%Z -> at_phase r.2 (tr0 ++ tr) (drop count data ++ rest)) ->
  wp (or_return count q) (moves tr0 data rest).
Proof.
  intros Hq. unfold or_return. eapply wp_seq; [exact Hq|].
  intros tr [ret w] Hr. simpl in *. rewrite app_nil_r. unfold moves. simpl.
  case_decide as E; [done|]. apply Hr. lia.
Qed.

(** One iteration in a header state. *)
Lemma header_moves tr0 data rest w id v x :
  wf (ctx w) -> header_state (state (ctx w)) = true -> header_with w (data ++ rest) = frame id v ++ x ->
  (forall count h n, let w1 := on_ctx (with_header h n) w in
     header_with w1 (drop count data ++ rest) = frame id v ++ x -> at_phase w1 tr0 (drop count data ++ rest)) ->
  (forall w1, w1 = on_ctx (with_header (frame id v) 8) w ->
     wp (process_header w1) (fun tr r => r.1 = 0%Z -> at_phase r.2 (tr0 ++ tr) x)) ->
  wp (write_iteration data w) (moves tr0 data rest).
Proof.
  intros Hc Hs Hh Hpart Hfull. unfold write_iteration.
  rewrite decide_False by (intros [E _]; by rewrite E in Hs). rewrite Hs.
  pose proof (collect_header w data rest id v x Hc Hh) as Hcol. simpl in Hcol.
  set (count := length data `min` (8 - header_used (ctx w))) in *.
  set (w1 := on_ctx _ w).
  destruct Hcol as [(H8 & Hhd & Hx)|(Hlt & Htake)].
  - rewrite decide_True by done. apply or_return_moves. rewrite Hx. apply Hfull.
    unfold w1, on_ctx. by rewrite Hhd, H8.
  - rewrite decide_False by (unfold w1; simpl; lia). unfold moves. simpl. rewrite app_nil_r.
    apply (Hpart count (write_at (header (ctx w)) (header_used (ctx w)) (take count data)) (header_used (ctx w) + count)).
    exact Htake.
Qed.

Lemma spec_capacity_word : (Z.of_nat SYNC_SPEC_CAPACITY < 2 ^ 32)%Z.
Proof. pose proof range_sync_path. unfold SYNC_SPEC_CAPACITY. lia. Qed.

Lemma spec_text_length : 0 < length (spec_text p mode).
Proof. unfold spec_text. rewrite length_app. simpl. lia. Qed.

Lemma request_moves w data rest :
  wf (ctx w) -> stream (ctx w) = Some i -> state (ctx w) = SYNC_REQUEST_HEADER -> fs w = fs0 ->
  file_open (ctx w) = false -> temporary_live (ctx w) = false ->
  header_with w (data ++ rest) = upload_stream p mode records timestamp ->
  wp (write_iteration data w) (moves [] data rest).
Proof.
  intros Hc Hs Hst Hfs Ho Hl Hh. eapply header_moves; [done|by rewrite Hst|exact Hh| |].
  - intros count h n w1 Hw1. by apply ph_request.
  - intros w1 ->. rewrite process_frame, Hst by done. cbv zeta.
    pose proof spec_text_length. pose proof (rq_length Hrq). pose proof spec_capacity_word.
    rewrite u32_small by lia.
    rewrite decide_True by done. unfold request_header.
    rewrite decide_False by (intros [? ?]; done).
    rewrite decide_True by (split_and!; [by left|lia|lia]). simpl. intros _.
    apply ph_spec; simpl; try done; lia.
Qed.

Lemma wf_take_spec w data rest :
  wf (ctx w) -> spec_used (ctx w) <= SYNC_SPEC_CAPACITY -> forall count,
  take (spec_used (ctx w) + length (take count data)) (write_at (spec (ctx w)) (spec_used (ctx w)) (take count data))
    ++ drop count data ++ rest = take (spec_used (ctx w)) (spec (ctx w)) ++ data ++ rest.
Proof.
  intros Hc Hu count. rewrite take_write_at by (rewrite (wf_spec _ Hc); done).
  by rewrite <- app_assoc, (app_assoc (take count data)), take_drop.
Qed.

Lemma spec_moves w data rest :
  wf (ctx w) -> stream (ctx w) = Some i -> state (ctx w) = SYNC_REQUEST_SPEC -> fs w = fs0 ->
  file_open (ctx w) = false -> temporary_live (ctx w) = false -> header_used (ctx w) = 0 ->
  remaining (ctx w) = (Z.of_nat (length (spec_text p mode)) - Z.of_nat (spec_used (ctx w)))%Z ->
  (0 < remaining (ctx w))%Z ->
  take (spec_used (ctx w)) (spec (ctx w)) ++ data ++ rest = spec_text p mode ++ records_tail records timestamp ->
  wp (write_iteration data w) (moves [] data rest).
Proof.
  intros Hc Hs Hst Hfs Ho Hl Hu Hrem Hpos Htext. unfold write_iteration.
  rewrite decide_False by (intros [E _]; by rewrite E in Hst). rewrite Hst.
  change (header_state _) with false. change (request_state _) with true. cbv iota.
  set (count := length data `min` Z.to_nat (remaining (ctx w))).
  assert (length (take count data) = count) as Hcount by (rewrite length_take; unfold count; lia).
  pose proof (wf_spec_used _ Hc) as Huc.
  pose proof (wf_take_spec w data rest Hc ltac:(lia) count) as Htake. rewrite Hcount, Htext in Htake.
  set (w1 := on_ctx _ w).
  case_decide as Hz.
  - apply or_return_moves. simpl in Hz.
    assert (spec_used (ctx w) + count = length (spec_text p mode)) as Hfull by lia.
    assert (length (write_at (spec (ctx w)) (spec_used (ctx w)) (take count data)) = SYNC_SPEC_CAPACITY) as Hlw.
    { rewrite length_write_at; [apply Hc|]. rewrite Hcount, (wf_spec _ Hc). pose proof (rq_length Hrq). lia. }
    apply app_inj_1 in Htake as [Htext' Hrest].
    2: { rewrite length_take, Hlw. pose proof (rq_length Hrq). lia. }
    rewrite Hrest. rewrite decide_False by done.
    apply start_send_phase; try done.
    destruct Hc. constructor; simpl in *; try done; [|lia..].
    rewrite Hst. simpl. pose proof (rq_length Hrq). lia.
  - unfold moves. simpl. apply ph_spec; simpl in *; try done; unfold count in *; lia.
Qed.

Lemma sized_word r : sized r -> u32 (Z.of_nat (length r)) = Z.of_nat (length r).
Proof. unfold sized. intros. pose proof range_sync_data. apply u32_small. lia. Qed.

Lemma send_header_moves t done_ records' w data rest :
  wf (ctx w) -> stream (ctx w) = Some i -> state (ctx w) = SYNC_SEND_HEADER -> staged t done_ w ->
  Forall sized records' -> done_ ++ concat records' = whole ->
  header_with w (data ++ rest) = records_tail records' timestamp ->
  wp (write_iteration data w) (moves [] data rest).
Proof.
  intros Hc Hs Hst Hsg Hrec Hall Hh.
  assert (header_state (state (ctx w)) = true) as Hhs by (by rewrite Hst).
  assert (forall count h n, let w1 := on_ctx (with_header h n) w in
            header_with w1 (drop count data ++ rest) = records_tail records' timestamp ->
            at_phase w1 [] (drop count data ++ rest)) as Hpart.
  { intros count h n w1 Hw1. eapply ph_header; [done|by eapply staged_ext|done|done|done]. }
  destruct (records_tail_frame records') as [[-> E]|(r & rs & -> & E)]; rewrite E in Hh, Hpart.
  - eapply header_moves; [done|done|exact Hh|exact Hpart|].
    intros w1 ->. rewrite process_frame, Hst by done. cbv zeta. rewrite !decide_False by done.
    unfold send_header. rewrite decide_True by done.
    apply (finish_send_phase _ t); [done|done|].
    simpl in Hall. rewrite app_nil_r in Hall. rewrite <- Hall. by eapply staged_ext.
  - apply Forall_cons in Hrec as [Hr Hrs].
    eapply header_moves; [done|done|exact Hh|exact Hpart|].
    intros w1 ->. rewrite process_frame, Hst, sized_word by done. cbv zeta. rewrite !decide_False by done.
    unfold send_header. rewrite decide_False by done. rewrite decide_False by (intros [?|?]; [done|unfold sized in Hr; lia]).
    simpl. intros _. simpl in Hall. case_decide as Hz.
    + destruct r; [|done]. eapply (ph_header _ t done_ rs); [done|by eapply staged_ext|done|done|done].
    + apply (ph_data _ t done_ r rs); try done; [by eapply staged_ext|]. by destruct r.
Qed.

(** Data already stored, and [count] bytes of the record [r] written now. *)
Lemma record_split (r data rest tail : list byte) :
  r ++ tail = data ++ rest ->
  let count := length data `min` length r in
  take count data = take count r /\ drop count data ++ rest = drop count r ++ tail.
Proof.
  intros E. simpl. set (count := length data `min` length r).
  assert (take count (r ++ tail) = take count (data ++ rest)) as Et by (by rewrite E).
  assert (drop count (r ++ tail) = drop count (data ++ rest)) as Ed by (by rewrite E).
  rewrite !take_app_le in Et by (unfold count; lia). rewrite !drop_app_le in Ed by (unfold count; lia). done.
Qed.

Lemma data_moves t done_ r records' w data rest :
  wf (ctx w) -> stream (ctx w) = Some i -> state (ctx w) = SYNC_SEND_DATA -> staged t done_ w ->
  Forall sized records' -> header_used (ctx w) = 0 -> r <> [] -> remaining (ctx w) = Z.of_nat (length r) ->
  done_ ++ r ++ concat records' = whole ->
  r ++ records_tail records' timestamp = data ++ rest ->
  wp (write_iteration data w) (moves [] data rest).
Proof.
  intros Hc Hs Hst Hsg Hrec Hu Hr Hrem Hall E. unfold write_iteration.
  rewrite decide_False by (intros [E' _]; by rewrite E' in Hst). rewrite Hst.
  change (header_state _) with false. change (request_state _) with false. cbv iota. rewrite decide_True by done.
  rewrite Hrem, Nat2Z.id. destruct (record_split _ _ _ _ E) as [Htake Hdrop].
  set (count := length data `min` length r) in *.
  assert (length (take count data) = count) as Hcount by (rewrite length_take; unfold count; lia).
  destruct (fs_write (fs w) (file (ctx w)) (take count data)) as [[written h] f'] eqn:Ew.
  destruct Hsg as [Hp Ht Hb Ho Hl Hh Hcont Hfree Hnd Hoth].
  destruct (law_write _ _ _ _ _ _ _ _ Hh Hcont Ew) as (Hv & Hat & k & Hk & Hvt & Hfull).
  rewrite Hcount in Hk, Hfull.
  set (w1 := set_fs f' _).
  assert (forall st, staged t (done_ ++ take k (take count data)) (set_state st w1)) as Hsg1.
  { intros st. constructor; simpl; try done. intros q Hq. rewrite Hv by done. by apply Hoth. }
  assert (staged t (done_ ++ take k (take count data)) w1) as Hsg2 by (by eapply staged_ext).
  assert (remaining (ctx w1) = Z.of_nat (length (drop count r))) as Hrem1.
  { simpl. rewrite Hrem, length_drop. unfold count. lia. }
  case_decide as Hw.
  - eapply wp_seq; [by apply fail_transfer_view|].
    intros tr [ret w2] Hf. simpl in *. rewrite app_nil_r. unfold moves. simpl.
    destruct (decide (ret = 0%Z)) as [Hret0|Hret]; [rewrite decide_False by auto|by rewrite decide_True].
    destruct (Hf Hret0) as (-> & Hst2 & Hfs2 & Hu2 & _ & Hr2). simpl in Hr2. rewrite Hdrop.
    assert (refused (fs w2)) as Href by (rewrite Hfs2; by eapply staged_cleanup).
    case_decide as Hz.
    + assert (drop count r = []) as -> by (apply length_zero_iff_nil; lia).
      eapply ph_drain_header; [done|done|exact Hrec|]. unfold header_with. by rewrite Hu2, Hu.
    + eapply ph_drain_data; [done|done|done|congruence| |congruence].
      intros En. rewrite En in Hrem1. simpl in *. lia.
  - assert (written = Z.of_nat count) as Hw' by lia. specialize (Hfull Hw'). subst k.
    rewrite (take_ge (take count data)) in Hsg1, Hsg2 by lia. rewrite Htake in Hsg1, Hsg2.
    assert ((done_ ++ take count r) ++ drop count r ++ concat records' = whole) as Hall1.
    { rewrite <- app_assoc, (app_assoc (take count r)), take_drop. done. }
    unfold moves. simpl. rewrite Hdrop. case_decide as Hz.
    + assert (drop count r = []) as Hnil by (apply length_zero_iff_nil; simpl in Hrem1; lia).
      rewrite Hnil in *. eapply (ph_header _ t); [done|apply Hsg1|done|done|]. unfold header_with. simpl. by rewrite Hu.
    + eapply (ph_data _ t); [done|exact Hsg2|done|done| |done|done].
      intros En. rewrite En in Hrem1. simpl in *. lia.
Qed.

(** *** Draining *)

Lemma drain_header_moves reason records' w data rest :
  wf (ctx w) -> state (ctx w) = SYNC_DRAIN_HEADER -> refused (fs w) -> Forall sized records' ->
  header_with w (data ++ rest) = records_tail records' timestamp ->
  wp (write_iteration data w) (moves [fail_reply reason] data rest).
Proof.
  intros Hc Hst Hf Hrec Hh.
  assert (header_state (state (ctx w)) = true) as Hhs by (by rewrite Hst).
  assert (forall count h n, let w1 := on_ctx (with_header h n) w in
            header_with w1 (drop count data ++ rest) = records_tail records' timestamp ->
            at_phase w1 [fail_reply reason] (drop count data ++ rest)) as Hpart.
  { intros count h n w1 Hw1. by eapply ph_drain_header. }
  destruct (records_tail_frame records') as [[-> E]|(r & rs & -> & E)]; rewrite E in Hh, Hpart.
  - eapply header_moves; [done|done|exact Hh|exact Hpart|].
    intros w1 ->. rewrite process_frame, Hst by done. cbv zeta. rewrite decide_False by done. rewrite decide_True by done.
    unfold drain_header. rewrite decide_True by done. simpl. intros _. by apply ph_refused.
  - apply Forall_cons in Hrec as [Hr Hrs].
    eapply header_moves; [done|done|exact Hh|exact Hpart|].
    intros w1 ->. rewrite process_frame, Hst, sized_word by done. cbv zeta.
    rewrite decide_False by done. rewrite decide_True by done.
    unfold drain_header. rewrite decide_False by done. rewrite decide_False by (intros [?|?]; [done|unfold sized in Hr; lia]).
    simpl. intros _. case_decide as Hz.
    + destruct r; [|done]. by eapply ph_drain_header.
    + eapply ph_drain_data; try done. by destruct r.
Qed.

Lemma drain_data_moves reason r records' w data rest :
  state (ctx w) = SYNC_DRAIN_DATA -> refused (fs w) -> Forall sized records' ->
  header_used (ctx w) = 0 -> r <> [] -> remaining (ctx w) = Z.of_nat (length r) ->
  r ++ records_tail records' timestamp = data ++ rest ->
  wp (write_iteration data w) (moves [fail_reply reason] data rest).
Proof.
  intros Hst Hf Hrec Hu Hr Hrem E. unfold write_iteration.
  rewrite decide_False by (intros [E' _]; by rewrite E' in Hst). rewrite Hst.
  change (header_state _) with false. change (request_state _) with false. cbv iota. rewrite decide_False by done.
  rewrite Hrem, Nat2Z.id. destruct (record_split _ _ _ _ E) as [_ Hdrop].
  set (count := length data `min` length r) in *.
  set (w1 := on_ctx _ w).
  assert (remaining (ctx w1) = Z.of_nat (length (drop count r))) as Hrem1.
  { simpl. rewrite Hrem, length_drop. unfold count. lia. }
  case_decide as Hz; unfold moves; simpl; rewrite Hdrop.
  - assert (drop count r = []) as -> by (apply length_zero_iff_nil; lia).
    eapply ph_drain_header; [done|done|exact Hrec|]. unfold header_with. simpl. by rewrite Hu.
  - eapply ph_drain_data; try done. intros En. rewrite En in Hrem1. simpl in *. lia.
Qed.

(** *** The loop *)

Lemma iteration_moves tr0 w data rest :
  data <> [] -> wf (ctx w) -> stream (ctx w) = Some i -> at_phase w tr0 (data ++ rest) ->
  wp (write_iteration data w) (moves tr0 data rest).
Proof.
  intros Hd Hc Hs Hph. remember (data ++ rest) as l eqn:E.
  destruct Hph as [l Hst Hfs Ho Hl Hh|l Hst Hfs Ho Hl Hu Hrem Hpos Htext|t dn rs l Hst Hsg Hrec Hall Hh
    |t dn r rs Hst Hsg Hrec Hu Hr Hrem Hall|reason rs l Hst Hf Hrec Hh
    |reason r rs Hst Hf Hrec Hu Hr Hrem|t Hst Hu Hf|reason Hst Hu Hf|reason Hst Hu Hf]; subst.
  - by apply request_moves.
  - by apply spec_moves.
  - by eapply send_header_moves.
  - by eapply data_moves.
  - by eapply drain_header_moves.
  - by eapply drain_data_moves.
  - by destruct data.
  - by destruct data.
  - by destruct data.
Qed.

(** A context in a phase. *)
Definition in_phase (w : work) (tr : list service_event) (rest : list byte) : Prop :=
  wf (ctx w) /\ tidy (ctx w) /\ stream (ctx w) = Some i /\ at_phase w tr rest.

Lemma write_loop_moves fuel data rest tr0 w :
  in_phase w tr0 (data ++ rest) ->
  wp (write_loop fuel data w) (fun tr r => r.1 = Some 0%Z -> in_phase r.2 (tr0 ++ tr) rest).
Proof.
  revert data tr0 w. induction fuel as [|fuel IH]; intros data tr0 w (Hc & Ht & Hs & Hph).
  { destruct data; simpl; [|done]. rewrite app_nil_r. by intros _. }
  destruct data as [|b data]; [simpl; rewrite app_nil_r; by intros _|]. cbn [write_loop].
  eapply wp_seq; [apply wp_and; [by apply (iteration_moves tr0 _ _ rest)|]|].
  { by apply (write_iteration_ok (fun _ => True) preserved_True). }
  intros tr [[ret|n] w'] [Hm (Hok & Ht' & Hs' & _)]; unfold moves in Hm; simpl in *.
  - intros [= ->]. done.
  - eapply wp_mono; [apply IH|].
    + split_and!; [apply Hok|done|congruence|exact Hm].
    + intros tr' r Hr Hr0. rewrite app_assoc. by apply Hr.
Qed.
End upload.

(** ** The service *)

Section service.
Context {cfg : AdbConfig} {sc : SyncConfig} {F : SyncFs} {L : SyncFsLaws F}.

(** The writes of a client on stream [i], all accepted, with the replies. *)
Inductive feed (i : nat) : sync -> list (list byte) -> list service_event -> sync -> Prop :=
| feed_nil s : feed i s [] [] s
| feed_cons s d tr s1 ds tr' s2 :
    outcome (sync_write i d s) tr (Some 0%Z, s1) -> feed i s1 ds tr' s2 -> feed i s (d :: ds) (tr ++ tr') s2.

(** The stream has a context that waits for a request. *)
Definition ready (i : nat) (s : sync) : Prop :=
  exists k, find_context i s = Some k /\ state (ctx (load k s)) = SYNC_REQUEST_HEADER
            /\ header_used (ctx (load k s)) = 0.

Lemma context_index_insert st l k c :
  context_index st l = Some k -> stream c = st -> context_index st (<[k := c]> l) = Some k.
Proof.
  revert k. induction l as [|x l IH]; intros k; simpl; [done|].
  case_decide as Hx.
  - intros [= <-] Hc. simpl. by rewrite decide_True.
  - destruct (context_index st l) as [m|]; [|done]. intros [= <-] Hc. simpl.
    rewrite decide_False by done. by rewrite IH.
Qed.

Lemma load_store i s k w :
  find_context i s = Some k -> stream (ctx w) = Some i ->
  find_context i (store k s w) = Some k /\ load k (store k s w) = w.
Proof.
  intros Hk Hs. split; [by apply context_index_insert|].
  apply context_index_lt in Hk as (Hlt & _). unfold load, store. simpl.
  rewrite list_lookup_insert_eq by done. by destruct w.
Qed.

Section request.
Context (p : cstr) (fs0 : filesystem) (i : nat) (mode : cstr) (records : list (list byte)) (ts : Z).
Context (Hrq : request_ok p mode records).

Lemma feed_phase s chunks tr s' tr0 rest k :
  feed i s chunks tr s' -> find_context i s = Some k ->
  in_phase p fs0 i mode records ts (load k s) tr0 (concat chunks ++ rest) ->
  in_phase p fs0 i mode records ts (load k s') (tr0 ++ tr) rest /\ find_context i s' = Some k.
Proof.
  intros Hf. revert tr0. induction Hf as [s|s d tr s1 ds tr' s2 Ho _ IH]; intros tr0 Hk Hph.
  { by rewrite app_nil_r. }
  unfold sync_write in Ho. rewrite Hk in Ho. simpl in Hph. rewrite <- app_assoc in Hph.
  assert (wp ('(ret, w) ← write_loop (write_fuel d) d (load k s); Ret (ret, store k s w))
            (fun tr r => r.1 = Some 0%Z ->
               in_phase p fs0 i mode records ts (load k r.2) (tr0 ++ tr) (concat ds ++ rest)
               /\ find_context i r.2 = Some k)) as Hwp.
  { eapply wp_seq; [by apply (write_loop_moves p fs0 i mode records ts Hrq)|].
    intros tr1 [r w] Hr Hr0. simpl in *. rewrite app_nil_r.
    specialize (Hr Hr0). pose proof Hr as (_ & _ & Hs & _).
    destruct (load_store i s k w Hk Hs) as [? ->]. done. }
  destruct (proj1 (wp_outcome _ _) Hwp _ _ Ho eq_refl) as [Hph1 Hk1].
  rewrite app_assoc. by apply IH.
Qed.

Lemma ready_phase n f s :
  fs0 = files s -> sync_reachable n f s -> ready i s ->
  exists k, find_context i s = Some k
    /\ in_phase p fs0 i mode records ts (load k s) [] (upload_stream p mode records ts).
Proof.
  intros -> Hr (k & Hk & Hst & Hu). exists k. split; [done|].
  apply (sync_reachable_sinv _ preserved_True) in Hr; [|done].
  destruct (load_ok _ i k s Hr Hk) as [[Hc _] Ht].
  destruct (not_sending_tidy _ Hc) as [Ho Hl]; [by rewrite Hst|].
  pose proof (context_index_lt _ _ _ Hk) as (Hlt & c & Hc' & Hs).
  split_and!; [done|done| |apply ph_request; try done].
  - unfold load. simpl. rewrite Hc'. done.
  - unfold header_with. by rewrite Hu.
Qed.
(** When every byte has been received one reply has been sent. *)
Lemma phase_end w tr rest :
  wf (ctx w) -> at_phase p fs0 i mode records ts w tr rest -> rest = [] ->
  (exists t, tr = [okay_reply i] /\ installed p fs0 t (concat records) (fs w))
  \/ (exists reason, tr = [fail_reply i reason] /\ refused p fs0 (fs w)).
Proof.
  intros Hc Hp Er.
  assert (forall a v x, header_with w rest <> frame a v ++ x) as Hno.
  { intros a v x E. apply (f_equal length) in E. pose proof (wf_header_used _ Hc).
    unfold header_with in E. rewrite Er, !length_app, length_take, length_frame in E. cbn [length] in E. lia. }
  destruct Hp as [l Hst Hfs Ho Hl Hh|l Hst Hfs Ho Hl Hu Hrem Hpos Htext|t dn rs l Hst Hsg Hrec Hall Hh
    |t dn r rs Hst Hsg Hrec Hu Hne Hrem Hall|reason rs l Hst Hrf Hrec Hh
    |reason r rs Hst Hrf Hrec Hu Hne Hrem|t Hst Hu Hrf|reason Hst Hu Hrf|reason Hst Hu Hrf];
    [exfalso..|left; eauto|right; eauto|right; eauto].
  - by apply Hno in Hh.
  - subst l. apply (f_equal length) in Htext. rewrite !length_app, length_take in Htext.
    cbn [length] in Htext. lia.
  - destruct (records_tail_frame ts rs) as [[_ E]|(?&?&_&E)]; rewrite E in Hh; by apply Hno in Hh.
  - by destruct r.
  - destruct (records_tail_frame ts rs) as [[_ E]|(?&?&_&E)]; rewrite E in Hh; by apply Hno in Hh.
  - by destruct r.
Qed.

(** What the destination is before the last byte. *)
Lemma phase_destination w tr rest :
  at_phase p fs0 i mode records ts w tr rest ->
  kept p fs0 (fs w) \/ (rest = [] /\ view (fs w) p = Some (NFile (concat records))).
Proof.
  intros Hp.
  destruct Hp as [l Hst Hfs Ho Hl Hh|l Hst Hfs Ho Hl Hu Hrem Hpos Htext|t dn rs l Hst Hsg Hrec Hall Hh
    |t dn r rs Hst Hsg Hrec Hu Hne Hrem Hall|reason rs l Hst Hrf Hrec Hh
    |reason r rs Hst Hrf Hrec Hu Hne Hrem|t Hst Hu Hrf|reason Hst Hu Hrf|reason Hst Hu Hrf].
  1,2: by left; left; rewrite Hfs.
  1,2: left; left; apply Hsg, not_eq_sym, part_suffix_ne.
  1,2,4,5: left; apply Hrf.
  right. split; [done|]. apply Hrf.
Qed.
End request.

(** C2: an upload sent in any number of writes, cut anywhere, that the service
    accepts gets exactly one reply.  After OKAY the destination holds exactly
    the bytes of the DATA records and the temporary file is gone; after FAIL
    the destination is as before, or, when moving the old file back failed as
    well, its old content is under the backup name.  No other path changes. *)
Theorem upload_exact n f s i p mode records ts chunks tr s' :
  sync_reachable n f s -> ready i s -> request_ok p mode records ->
  concat chunks = upload_stream p mode records ts -> feed i s chunks tr s' ->
  (exists t, tr = [okay_reply i] /\ installed p (files s) t (concat records) (files s'))
  \/ (exists reason, tr = [fail_reply i reason] /\ refused p (files s) (files s')).
Proof.
  intros Hr Hready Hrq Hch Hf.
  destruct (ready_phase p (files s) i mode records ts n f s eq_refl Hr Hready) as (k & Hk & Hph).
  rewrite <- Hch, <- (app_nil_r (concat chunks)) in Hph.
  destruct (feed_phase _ _ _ _ _ _ Hrq _ _ _ _ _ _ _ Hf Hk Hph) as [(Hc & _ & _ & Hp) _].
  change (files s') with (fs (load k s')).
  by apply (phase_end _ _ _ _ _ _ _ _ [] Hc Hp).
Qed.

(** C12: no reader sees a partial file: at any point of an upload - after any
    number of its bytes, in any writes - the destination is as before the
    upload, or missing with its old content under the backup name, or, once
    every byte has been received, the whole new file. *)
Theorem upload_never_partial n f s i p mode records ts chunks rest tr s' :
  sync_reachable n f s -> ready i s -> request_ok p mode records ->
  concat chunks ++ rest = upload_stream p mode records ts -> feed i s chunks tr s' ->
  kept p (files s) (files s') \/ (rest = [] /\ view (files s') p = Some (NFile (concat records))).
Proof.
  intros Hr Hready Hrq Hch Hf.
  destruct (ready_phase p (files s) i mode records ts n f s eq_refl Hr Hready) as (k & Hk & Hph).
  rewrite <- Hch in Hph.
  destruct (feed_phase _ _ _ _ _ _ Hrq _ _ _ _ _ _ _ Hf Hk Hph) as [(_ & _ & _ & Hp) _].
  by apply phase_destination in Hp.
Qed.

(** Evaluating a sequence of writes against an engine that accepts replies of
    [m] bytes; [None] when a write is refused. *)
Fixpoint run_feed (m i : nat) (s : sync) (chunks : list (list byte)) : option (list service_event * sync) :=
  match chunks with
  | [] => Some ([], s)
  | d :: ds =>
      let '(tr, (r, s1)) := exec m (sync_write i d s) in
      if decide (r = Some 0%Z) then
        '(tr', s2) ← run_feed m i s1 ds; Some (tr ++ tr', s2)
      else None
  end.

Lemma run_feed_feed m i s chunks tr s' : run_feed m i s chunks = Some (tr, s') -> feed i s chunks tr s'.
Proof.
  revert s tr s'. induction chunks as [|d ds IH]; intros s tr s'; simpl.
  - intros [= <- <-]. constructor.
  - pose proof (outcome_exec m (sync_write i d s)) as Ho.
    destruct (exec m (sync_write i d s)) as [tr1 [r s1]]. simpl in Ho.
    case_decide as Hr; [|done]. subst r.
    destruct (run_feed m i s1 ds) as [[tr' s2]|] eqn:E; [|done]. intros [= <- <-].
    eapply feed_cons; eauto.
Qed.
Lemma step_exec m i data s : sync_step s (exec m (sync_write i data s)).2.2.
Proof.
  pose proof (outcome_exec m (sync_write i data s)) as Ho.
  destruct (exec m (sync_write i data s)) as [tr [r s']]. by eapply step_write.
Qed.
End service.

(** ** A concrete upload *)

#[local] Program Instance demo_adb : AdbConfig := {|
  ADB_MAX_PAYLOAD := 256; ADB_TX_PAYLOAD_SIZE := 128; ADB_USB_TRANSFER_SIZE := 128;
  ADB_CONTROL_QUEUE_DEPTH := 2; ADB_CONTROL_PAYLOAD_SIZE := 104; ADB_MAX_STREAMS := 2;
  ADB_ALLOW_NO_AUTH := true; ADB_USB := true; ADB_REBOOT := true; ADB_LOGCAT := true;
  ADB_SHELL := true; ADB_SYNC := true;
|}.
Solve Obligations with lia.

#[local] Program Instance demo_sync : SyncConfig := {| SYNC_PATH_MAX := 64; SYNC_DATA_MAX := 4096 |}.
Solve Obligations with lia.

Definition demo_path : cstr := cs "/STORAGE:/a.txt".
Definition demo_mode : cstr := cs "33206".
Definition demo_records : list (list byte) := [cs "hello "; []; cs "world"].
Definition demo_stream : list byte := upload_stream demo_path demo_mode demo_records 7.

(** Two streams are open; the destination holds an old file; room for [n] bytes. *)
Definition demo_fs (n : nat) : filesystem := RamFs.Ram {[ demo_path := NFile (cs "old") ]} n.
Definition demo_state (n : nat) : sync := (sync_open 1 [] (sync_open 0 [] (sync_init 0 (demo_fs n))).2).2.

Definition demo_chunks : list (list byte) := [take 3 demo_stream; take 40 (drop 3 demo_stream); drop 43 demo_stream].

Lemma demo_reachable n : sync_reachable 0 (demo_fs n) (demo_state n).
Proof. unfold demo_state. repeat (eapply reach_step; [|apply step_open]). constructor. Qed.

Lemma demo_ready n : ready 1 (demo_state n).
Proof. exists 1. split_and!; reflexivity. Qed.

Lemma demo_request : request_ok demo_path demo_mode demo_records.
Proof.
  constructor.
  - vm_compute. reflexivity.
  - split_and!; [done|apply (bool_decide_unpack _); vm_compute; exact I..|].
    eexists. split_and!; [vm_compute; reflexivity|vm_compute; congruence|vm_compute; reflexivity].
  - apply Nat.ltb_lt. vm_compute. reflexivity.
  - repeat constructor; unfold sized; vm_compute; congruence.
Qed.

Lemma demo_feed n chunks :
  is_Some (run_feed 64 1 (demo_state n) chunks) ->
  exists tr s', run_feed 64 1 (demo_state n) chunks = Some (tr, s') /\ feed 1 (demo_state n) chunks tr s'.
Proof. intros [[tr s'] E]. exists tr, s'. split; [done|]. by eapply run_feed_feed. Qed.

(** The replies and the final content of the destination. *)
Definition demo_result (n : nat) (chunks : list (list byte)) : option (list service_event * option node) :=
  (fun r => (r.1, RamFs.nodes (files r.2) !! demo_path)) <$> run_feed 64 1 (demo_state n) chunks.

Example demo_uploaded : demo_result 20 demo_chunks = Some ([okay_reply 1], Some (NFile (cs "hello world"))).
Proof. vm_compute. reflexivity. Qed.

Example demo_no_space :
  demo_result 5 demo_chunks = Some ([fail_reply 1 (cs "write failed")], Some (NFile (cs "old"))).
Proof. vm_compute. reflexivity. Qed.

Lemma upload_exact_witness :
  exists tr s', run_feed 64 1 (demo_state 20) demo_chunks = Some (tr, s') /\
  ((exists t, tr = [okay_reply 1] /\ installed demo_path (files (demo_state 20)) t (concat demo_records) (files s'))
   \/ (exists reason, tr = [fail_reply 1 reason] /\ refused demo_path (files (demo_state 20)) (files s'))).
Proof.
  destruct (demo_feed 20 demo_chunks) as (tr & s' & E & Hf).
  { apply (bool_decide_unpack _). vm_compute. exact I. }
  exists tr, s'. split; [exact E|].
  eapply (upload_exact 0 (demo_fs 20) (demo_state 20) 1 demo_path demo_mode demo_records 7 demo_chunks);
    [apply demo_reachable|apply demo_ready|apply demo_request|vm_compute; reflexivity|exact Hf].
Defined.

Lemma upload_never_partial_witness :
  exists tr s', run_feed 64 1 (demo_state 20) [take 50 demo_stream] = Some (tr, s') /\
  (kept demo_path (files (demo_state 20)) (files s')
   \/ (drop 50 demo_stream = [] /\ view (files s') demo_path = Some (NFile (concat demo_records)))).
Proof.
  destruct (demo_feed 20 [take 50 demo_stream]) as (tr & s' & E & Hf).
  { apply (bool_decide_unpack _). vm_compute. exact I. }
  exists tr, s'. split; [exact E|].
  eapply (upload_never_partial 0 (demo_fs 20) (demo_state 20) 1 demo_path demo_mode demo_records 7
           [take 50 demo_stream] (drop 50 demo_stream));
    [apply demo_reachable|apply demo_ready|apply demo_request|vm_compute; reflexivity|exact Hf].
Defined.

Lemma sync_service_invariant_witness :
  exists tr r s', outcome (sync_write 1 demo_stream (demo_state 20)) tr (r, s') /\
  contexts_ok (demo_state 20) /\ contexts_ok s' /\ is_Some r.
Proof.
  pose proof (outcome_exec 64 (sync_write 1 demo_stream (demo_state 20))) as Ho.
  destruct (exec 64 (sync_write 1 demo_stream (demo_state 20))) as [tr [r s']].
  exists tr, r, s'. split; [exact Ho|].
  eapply (sync_service_invariant 0 (demo_fs 20)); [apply demo_reachable|exact Ho].
Defined.

(** The service over a file system that records paths, after an upload. *)
Definition demo_logged_start : sync (F:=logged_fs RamFs.ram_fs) :=
  (sync_open (F:=logged_fs RamFs.ram_fs) 1 [] (sync_init (F:=logged_fs RamFs.ram_fs) 0 (demo_fs 20, []))).2.
Definition demo_logged : sync (F:=logged_fs RamFs.ram_fs) :=
  (exec 64 (sync_write (F:=logged_fs RamFs.ram_fs) 1 demo_stream demo_logged_start)).2.2.

Lemma demo_logged_reachable : sync_reachable (F:=logged_fs RamFs.ram_fs) 0 (demo_fs 20, []) demo_logged.
Proof.
  eapply reach_step; [|apply step_exec]. eapply reach_step; [constructor|apply step_open].
Qed.

Lemma sync_confined_witness :
  length (touched RamFs.ram_fs (files demo_logged)) = 6
  /\ Forall below_root (touched RamFs.ram_fs (files demo_logged)).
Proof.
  split; [vm_compute; reflexivity|].
  exact (sync_confined RamFs.ram_fs 0 (demo_fs 20) demo_logged demo_logged_reachable).
Defined.
End SyncUpload.
