(* ===== verification/AppFs.v ===== *)
(** * The file system the application services use

    The interface of Zephyr's file system (fs_stat, fs_mkdir, fs_open, ...) as
    src/app/src/services calls it, with what a result relies on as the laws
    [AppFsLaws]: a view of the regular files as a map from paths to contents, and
    where an open handle reads and writes.  [MemFs] is an instance that keeps the
    files in a map; the theorems of the services are applied to it. *)

From S2P Require Import Prelude CLib.
From Stdlib Require Import ZArith Lia.
From Stdlib Require Import Strings.Byte.
From stdpp Require Import base numbers list list_numbers strings gmap.

(** The flags of [fs_open]: FS_O_READ, FS_O_WRITE, FS_O_CREATE and FS_O_TRUNC. *)
Record open_mode := Mode { o_read : bool; o_write : bool; o_create : bool; o_trunc : bool }.

Definition FS_O_READ : open_mode := Mode true false false false.

Inductive whence := FS_SEEK_SET | FS_SEEK_END.

(** [fs_read] returns its result and the bytes it stored in the buffer; [filep]
    tells whether the pointer of that name in [struct fs_file_t] is set. *)
Class AppFs := {
  appfs : Type;
  app_file : Type;
  fs_stat : cstr -> appfs -> Z;
  fs_mkdir : cstr -> appfs -> Z * appfs;
  fs_open : open_mode -> cstr -> appfs -> (Z * app_file) * appfs;
  fs_read : app_file -> nat -> appfs -> ((Z * list byte) * app_file) * appfs;
  fs_write : app_file -> list byte -> appfs -> (Z * app_file) * appfs;
  fs_seek : app_file -> Z -> whence -> appfs -> (Z * app_file) * appfs;
  fs_tell : app_file -> appfs -> Z;
  fs_close : app_file -> appfs -> Z * appfs;
  filep : app_file -> bool;
  fs_wait : Z -> appfs -> appfs;              (* what other threads do during a k_sleep *)
}.

(** The paths of devfs, which are no regular files. *)
Definition is_device (p : cstr) : bool := starts_with (cs "/dev/") p.

(** What the services rely on.  [files] has the regular files; [cursor_of] is the
    file and the offset of a handle of a regular file. *)
Class AppFsLaws (F : AppFs) := {
  files : appfs -> gmap cstr (list byte);
  cursor_of : app_file -> option (cstr * nat);
  mkdir_files p f : files (fs_mkdir p f).2 = files f;
  open_device m p f : is_device p = true ->
    files (fs_open m p f).2 = files f /\ cursor_of (fs_open m p f).1.2 = None;
  open_others m p f q : q <> p -> files (fs_open m p f).2 !! q = files f !! q;
  open_regular m p f : is_device p = false -> (fs_open m p f).1.1 = 0%Z -> cursor_of (fs_open m p f).1.2 = Some (p, 0);
  open_truncates m p f : is_device p = false -> o_trunc m = true -> (fs_open m p f).1.1 = 0%Z ->
    files (fs_open m p f).2 !! p = Some [];
  open_keeps m p f : o_trunc m = false -> o_create m = false -> files (fs_open m p f).2 = files f;
  write_device h data f : cursor_of h = None -> files (fs_write h data f).2 = files f;
  write_regular h data f p o c : cursor_of h = Some (p, o) -> files f !! p = Some c ->
    exists k, k <= length data /\ files (fs_write h data f).2 = <[p := write_at c o (take k data)]> (files f)
      /\ ((0 <= (fs_write h data f).1.1)%Z -> (fs_write h data f).1.1 = Z.of_nat k);
  read_files h n f : files (fs_read h n f).2 = files f;
  read_bounded h n f : length (fs_read h n f).1.1.2 <= n
    /\ ((0 <= (fs_read h n f).1.1.1)%Z -> (fs_read h n f).1.1.1 = Z.of_nat (length (fs_read h n f).1.1.2));
  read_regular h n f p o c : cursor_of h = Some (p, o) -> files f !! p = Some c -> (0 <= (fs_read h n f).1.1.1)%Z ->
    exists k, (fs_read h n f).1.1.2 = take k (drop o c);
  seek_files h o wh f : files (fs_seek h o wh f).2 = files f;
  close_files h f : files (fs_close h f).2 = files f;
}.

(** The pointer in the handle is set exactly while the file is open. *)
Class AppFsHandles (F : AppFs) := {
  filep_open m p f : filep (fs_open m p f).1.2 = bool_decide ((fs_open m p f).1.1 = 0%Z);
  filep_write h d f : filep (fs_write h d f).1.2 = filep h;
  filep_read h n f : filep (fs_read h n f).1.2 = filep h;
}.

(** What is read fits into the buffer. *)
Class AppFsReads (F : AppFs) := { read_fits h n f : length (fs_read h n f).1.1.2 <= n }.

#[export] Instance laws_read_fits (F : AppFs) (L : AppFsLaws F) : AppFsReads F.
Proof. split. intros h n f. apply (read_bounded (AppFsLaws := L)). Qed.

(** ** A file system in memory

    Directories and files in a list and a map, the whole content written at once
    up to [capacity] bytes of a file. *)

Module MemFs.

Record mem_fs := Mem { dirs : list cstr; store : gmap cstr (list byte); capacity : nat }.
Record handle := Handle { h_path : cstr; h_off : nat; h_open : bool }.

Definition exists_path (p : cstr) (f : mem_fs) : bool :=
  bool_decide (p ∈ dirs f) || bool_decide (is_Some (store f !! p)).

Definition put (p : cstr) (c : list byte) (f : mem_fs) : mem_fs := Mem (dirs f) (<[p := c]> (store f)) (capacity f).

Definition open (m : open_mode) (p : cstr) (f : mem_fs) : (Z * handle) * mem_fs :=
  if is_device p then ((0%Z, Handle p 0 true), f)
  else match store f !! p with
       | Some _ => ((0%Z, Handle p 0 true), if o_trunc m then put p [] f else f)
       | None => if o_create m then ((0%Z, Handle p 0 true), put p [] f) else (((- ENOENT)%Z, Handle p 0 false), f)
       end.

Definition content (h : handle) (f : mem_fs) : list byte := default [] (store f !! h_path h).

Definition write (h : handle) (data : list byte) (f : mem_fs) : (Z * handle) * mem_fs :=
  if is_device (h_path h) then ((Z.of_nat (length data), h), f)
  else
    let k := length data `min` (capacity f - h_off h) in
    ((Z.of_nat k, Handle (h_path h) (h_off h + k) (h_open h)), put (h_path h) (write_at (content h f) (h_off h) (take k data)) f).

Definition read (h : handle) (n : nat) (f : mem_fs) : ((Z * list byte) * handle) * mem_fs :=
  let d := if is_device (h_path h) then [] else take n (drop (h_off h) (content h f)) in
  (((Z.of_nat (length d), d), Handle (h_path h) (h_off h + length d) (h_open h)), f).

#[global] Instance mem : AppFs := {|
  appfs := mem_fs;
  app_file := handle;
  fs_stat p f := if exists_path p f then 0%Z else (- ENOENT)%Z;
  fs_mkdir p f := if exists_path p f then ((- EEXIST)%Z, f) else (0%Z, Mem (p :: dirs f) (store f) (capacity f));
  fs_open := open;
  fs_read := read;
  fs_write := write;
  fs_seek h o wh f :=
    ((0%Z, Handle (h_path h) (match wh with FS_SEEK_SET => Z.to_nat o | FS_SEEK_END => length (content h f) + Z.to_nat o end) (h_open h)), f);
  fs_tell h f := Z.of_nat (h_off h);
  fs_close h f := (0%Z, f);
  filep := h_open;
  fs_wait _ f := f;
|}.

#[global] Instance mem_laws : AppFsLaws mem.
Proof.
  refine {| files := store;
            cursor_of := fun h : app_file => if is_device (h_path h) then None else Some (h_path h, h_off h) |}; cbn.
  - intros p f. by case_match.
  - intros m p f Hd. unfold open. rewrite Hd. cbn. by rewrite Hd.
  - intros m p f q Hq. unfold open. repeat case_match; cbn; try done; by rewrite lookup_insert_ne.
  - intros m p f Hd. unfold open. rewrite Hd. destruct (store f !! p), (o_trunc m), (o_create m); cbn; by rewrite Hd.
  - intros m p f Hd Ht. unfold open. rewrite Hd, Ht. repeat case_match; cbn; try done; by rewrite lookup_insert_eq.
  - intros m p f Ht Hc. unfold open. rewrite Ht, Hc. by repeat case_match.
  - intros h data f. unfold write. by destruct (is_device _).
  - intros h data f p o c. unfold write. destruct (is_device _); [done|]. intros [= <- <-] Hc.
    eexists (length data `min` _). split; [lia|]. cbn. unfold content. by rewrite Hc.
  - done.
  - intros h n f. unfold read. cbn. split; [|done]. case_match; [cbn; lia|]. rewrite length_take. lia.
  - intros h n f p o c. unfold read. cbn. destruct (is_device _); [done|]. intros [= <- <-] Hc _. unfold content. rewrite Hc. by exists n.
  - done.
  - done.
Defined.

#[global] Instance mem_handles : AppFsHandles mem.
Proof.
  split; cbn.
  - intros m p f. unfold open. by repeat case_match.
  - intros h d f. unfold write. by case_match.
  - done.
Qed.
End MemFs.
