(* ===== verification/DeviceFs.v ===== *)
(** * The file system with the device files

    Zephyr's file system passes every operation on a path below /dev to devfs, which
    start-up has mounted there, and every other one to the file system of the
    storage.  [MountedDevfs] states this dispatch for any [AppFs]; [DeviceFs] is an
    instance, built from devfs over the drivers of a board and any other file
    system. *)

From S2P Require Import Prelude CLib Devfs DevfsPart AppFs.
From Stdlib Require Import ZArith Lia.
From Stdlib Require Import Strings.Byte.
From stdpp Require Import base numbers list list_numbers strings countable gmap.

(** The error of an operation on a handle that is not open. *)
Definition EBADF : Z := 9.

(** The hardware of a board while an application sleeps. *)
Class DeviceClock (W : Type) := { time_passes : Z -> W -> W }.

(** [devices] are devfs and the state of the drivers; [device_handle] is the
    [struct devfs_file] in a handle.  While a thread sleeps no other one uses the
    device files. *)
Class MountedDevfs {cfg : DevfsConfig} (W : Type) {C : DeviceClock W} (F : AppFs) := {
  devices : appfs -> Tree.devfs (W := W) * W;
  set_devices : Tree.devfs (W := W) * W -> appfs -> appfs;
  device_handle : app_file -> option positive;
  handle_malloc : appfs -> bool;
  open_flags : open_mode -> Z;
  devices_set d f : devices (set_devices d f) = d;
  device_open m p f r id s w : is_device p = true ->
    Tree.devfs_open (devices f).1 (devices f).2 (handle_malloc f) (Some p) (open_flags m) = (r, id, s, w) ->
    (fs_open m p f).1.1 = r /\ device_handle (fs_open m p f).1.2 = id /\ (fs_open m p f).2 = set_devices (s, w) f;
  device_read h id n f r out s w : device_handle h = Some id ->
    Tree.devfs_read (devices f).1 (devices f).2 id n = (r, out, s, w) ->
    (fs_read h n f).1.1 = (r, out) /\ device_handle (fs_read h n f).1.2 = Some id /\ (fs_read h n f).2 = set_devices (s, w) f;
  device_write h id d f r s w : device_handle h = Some id ->
    Tree.devfs_write (devices f).1 (devices f).2 id d = (r, s, w) ->
    (fs_write h d f).1.1 = r /\ device_handle (fs_write h d f).1.2 = Some id /\ (fs_write h d f).2 = set_devices (s, w) f;
  device_close h id f r s w : device_handle h = Some id ->
    Tree.devfs_close (devices f).1 (devices f).2 id = (r, s, w) -> (fs_close h f).2 = set_devices (s, w) f;
  device_wait ms f : devices (fs_wait ms f) = ((devices f).1, time_passes ms (devices f).2);
}.

(** What is done to the storage does not reach the devices. *)
Class StorageApart {cfg : DevfsConfig} {W : Type} {C : DeviceClock W} {F : AppFs} (D : MountedDevfs W F) := {
  storage_mkdir p f : is_device p = false -> devices (fs_mkdir p f).2 = devices f;
  storage_open m p f : is_device p = false -> devices (fs_open m p f).2 = devices f /\ device_handle (fs_open m p f).1.2 = None;
  storage_read h n f : device_handle h = None -> devices (fs_read h n f).2 = devices f /\ device_handle (fs_read h n f).1.2 = None;
  storage_close h f : device_handle h = None -> devices (fs_close h f).2 = devices f;
}.

Module DeviceFs.
Section devicefs.
Context {cfg : DevfsConfig} {W : Type} {C : DeviceClock W} (F : AppFs).

Record board_fs := Board { tree : Tree.devfs (W := W); drivers : W; storage : @appfs F }.
Inductive handle := OnDevice (id : option positive) | OnStorage (h : @app_file F).

Definition FS_O_FLAGS (m : open_mode) : Z :=
  ((if o_read m then 1 else 0) + (if o_write m then 2 else 0) + (if o_create m then 16 else 0) + (if o_trunc m then 64 else 0))%Z.

Definition put_storage (s : @appfs F) (f : board_fs) : board_fs := Board (tree f) (drivers f) s.

Definition open (m : open_mode) (p : cstr) (f : board_fs) : (Z * handle) * board_fs :=
  if is_device p then
    let '(r, id, s, w) := Tree.devfs_open (tree f) (drivers f) true (Some p) (FS_O_FLAGS m) in
    ((r, OnDevice id), Board s w (storage f))
  else let '((r, h), s) := fs_open m p (storage f) in ((r, OnStorage h), put_storage s f).

Definition read (h : handle) (n : nat) (f : board_fs) : ((Z * list byte) * handle) * board_fs :=
  match h with
  | OnDevice (Some id) =>
      let '(r, out, s, w) := Tree.devfs_read (tree f) (drivers f) id n in (((r, out), h), Board s w (storage f))
  | OnDevice None => ((((- EBADF)%Z, []), h), f)
  | OnStorage h => let '((r, h), s) := fs_read h n (storage f) in ((r, OnStorage h), put_storage s f)
  end.

Definition write (h : handle) (d : list byte) (f : board_fs) : (Z * handle) * board_fs :=
  match h with
  | OnDevice (Some id) =>
      let '(r, s, w) := Tree.devfs_write (tree f) (drivers f) id d in ((r, h), Board s w (storage f))
  | OnDevice None => (((- EBADF)%Z, h), f)
  | OnStorage h => let '((r, h), s) := fs_write h d (storage f) in ((r, OnStorage h), put_storage s f)
  end.

(** The values of [FS_SEEK_SET] and [FS_SEEK_END]. *)
Definition whence_number (wh : whence) : Z := match wh with FS_SEEK_SET => 0 | FS_SEEK_END => 2 end.

Definition seek (h : handle) (o : Z) (wh : whence) (f : board_fs) : (Z * handle) * board_fs :=
  match h with
  | OnDevice (Some _) => ((Tree.devfs_lseek o (whence_number wh), h), f)
  | OnDevice None => (((- EBADF)%Z, h), f)
  | OnStorage h => let '((r, h), s) := fs_seek h o wh (storage f) in ((r, OnStorage h), put_storage s f)
  end.

Definition close (h : handle) (f : board_fs) : Z * board_fs :=
  match h with
  | OnDevice (Some id) =>
      let '(r, s, w) := Tree.devfs_close (tree f) (drivers f) id in (r, Board s w (storage f))
  | OnDevice None => (0%Z, f)
  | OnStorage h => let '(r, s) := fs_close h (storage f) in (r, put_storage s f)
  end.

Definition wait (ms : Z) (f : board_fs) : board_fs := Board (tree f) (time_passes ms (drivers f)) (fs_wait ms (storage f)).

Definition device_fs : AppFs := {|
  appfs := board_fs;
  app_file := handle;
  fs_stat p f := if is_device p then (Tree.devfs_stat (Tree.nodes (tree f)) (Some p)).1 else fs_stat p (storage f);
  fs_mkdir p f := if is_device p then ((- ENOTSUP)%Z, f) else let '(r, s) := fs_mkdir p (storage f) in (r, put_storage s f);
  fs_open := open; fs_read := read; fs_write := write; fs_seek := seek;
  fs_tell h f := match h with OnDevice (Some _) => Tree.devfs_tell | OnDevice None => (- EBADF)%Z | OnStorage h => fs_tell h (storage f) end;
  fs_close := close;
  filep h := match h with OnDevice id => bool_decide (is_Some id) | OnStorage h => filep h end;
  fs_wait := wait;
|}.

#[global] Instance device_fs_mounted : MountedDevfs W device_fs.
Proof.
  refine {| devices := fun f : @appfs device_fs => (tree f, drivers f);
            set_devices := fun d (f : @appfs device_fs) => Board d.1 d.2 (storage f) : @appfs device_fs;
            device_handle := fun h : @app_file device_fs => match h with OnDevice id => id | OnStorage _ => None end;
            handle_malloc := fun _ => true; open_flags := FS_O_FLAGS |}; cbn.
  - by intros [].
  - intros m p f r id s w Hd E. unfold open. by rewrite Hd, E.
  - intros h id n f r out s w Hh E. destruct h as [i|]; [|done]. subst i. cbn. by rewrite E.
  - intros h id d f r s w Hh E. destruct h as [i|]; [|done]. subst i. cbn. by rewrite E.
  - intros h id f r s w Hh E. destruct h as [i|]; [|done]. subst i. cbn. by rewrite E.
  - done.
Defined.

#[global] Instance device_fs_apart : StorageApart device_fs_mounted.
Proof.
  split; cbn.
  - intros p f Hp. rewrite Hp. by destruct (fs_mkdir p (storage f)).
  - intros m p f Hp. unfold open. rewrite Hp. by destruct (fs_open m p (storage f)) as [[r h] s].
  - intros [i|h] n f Hh; [by subst i|]. cbn. by destruct (fs_read h n (storage f)) as [[r h'] s].
  - intros [i|h] f Hh; [by subst i|]. cbn. by destruct (fs_close h (storage f)).
Qed.

(** A failed open leaves no handle. *)
Lemma devfs_open_handle (s : Tree.devfs (W := W)) w ok p fl :
  let '(r, id, _, _) := Tree.devfs_open s w ok p fl in bool_decide (is_Some id) = bool_decide (r = 0%Z).
Proof.
  unfold Tree.devfs_open, Tree.open_begin, Tree.open_locked. destruct ok; cbn [negb]; [|done].
  destruct (Tree.find_node _ _) as [n|]; [|done]. destruct (decide _); [done|].
  unfold Tree.open_finish. cbn. rewrite lookup_insert_eq. cbn.
  destruct (alter _ _ _ !! _) as [nd|].
  - destruct (op_open _) as [op|].
    + destruct (op _ _ _ _) as [[r d] w']. destruct (decide (r <> 0%Z)); [|reflexivity].
      by rewrite (bool_decide_eq_false_2 (r = 0%Z)).
    + reflexivity.
  - reflexivity.
Qed.

#[global] Instance device_fs_handles : AppFsHandles F -> AppFsHandles device_fs.
Proof.
  intros [Ho Hw Hr]. split; cbn.
  - intros m p f. unfold open. destruct (is_device p).
    + pose proof (devfs_open_handle (tree f) (drivers f) true (Some p) (FS_O_FLAGS m)) as H.
      by destruct (Tree.devfs_open _ _ _ _ _) as [[[r id] s] w].
    + specialize (Ho m p (storage f)). by destruct (fs_open _ _ _) as [[r h] s].
  - intros [[id|]|h] d f; cbn; [by destruct (Tree.devfs_write _ _ _ _) as [[r s] w]|done|].
    specialize (Hw h d (storage f)). by destruct (fs_write _ _ _) as [[r h'] s].
  - intros [[id|]|h] n f; cbn; [by destruct (Tree.devfs_read _ _ _ _) as [[[r o] s] w]|done|].
    specialize (Hr h n (storage f)). by destruct (fs_read _ _ _) as [[r h'] s].
Qed.
End devicefs.
End DeviceFs.
