(* ===== verification/FileService.v ===== *)
(** * The file service

    Model of src/app/src/services/fs/fs.c: the paths the web interface may
    write, the creation of missing directories and the writing of a file, over
    any file system ([AppFs]).  The field [ops] is a ghost, the history of the
    calls that change the file system. *)

From S2P Require Import Prelude CLib AppFs.
From Stdlib Require Import ZArith Lia.
From Stdlib Require Import Strings.Byte.
From stdpp Require Import base numbers list list_numbers strings gmap.

Module FileService.

Definition WEBOS_MOUNT_POINT : cstr := cs "/STORAGE:".
Definition PARENT_SIZE : nat := 128.

Definition webos_path_allowed (path : cstr) : bool :=
  (starts_with (WEBOS_MOUNT_POINT ++ cs "/") path || starts_with (cs "/dev/") path)
  && bool_decide (strstr path (cs "..") = None).

Section service.
Context {F : AppFs}.

Inductive fs_op := OpMkdir (p : cstr) (ret : Z) | OpOpen (p : cstr) (truncate : bool) (ret : Z) | OpWrite (n : nat) | OpClose.

Record world := World { fs : appfs; ops : list fs_op }.

Definition set_fs (f : appfs) (l : list fs_op) (w : world) : world := World f (ops w ++ l).

Definition ensure_dir (path : cstr) (w : world) : Z * world :=
  if decide (fs_stat path (fs w) = 0%Z) then (0%Z, w)
  else let '(ret, f) := fs_mkdir path (fs w) in (ret, set_fs f [OpMkdir path ret] w).

(** The loop over the characters of [parent] after the mount point; [i] is the
    index of the next one. *)
Fixpoint ensure_loop (parent : cstr) (i : nat) (rest : cstr) (w : world) : Z * world :=
  match rest with
  | [] => (0%Z, w)
  | c :: rest' =>
      if decide (c = slash /\ length WEBOS_MOUNT_POINT < i) then
        let '(ret, w) := ensure_dir (take i parent) w in
        if decide (ret <> 0%Z) then (ret, w) else ensure_loop parent (S i) rest' w
      else ensure_loop parent (S i) rest' w
  end.

Definition ensure_parent_dirs (path : cstr) (w : world) : Z * world :=
  match strrchr path slash with
  | None | Some O => (0%Z, w)
  | Some parent_len =>
      if decide (PARENT_SIZE <= parent_len) then ((- ENAMETOOLONG)%Z, w)
      else
        let parent := take parent_len path in
        let mount_len := length WEBOS_MOUNT_POINT in
        if negb (starts_with WEBOS_MOUNT_POINT parent) then ((- EINVAL)%Z, w)
        else
          let '(ret, w) := ensure_loop parent mount_len (drop mount_len parent) w in
          if decide (ret <> 0%Z) then (ret, w) else ensure_dir parent w
  end.

(** From [fs_open] on. *)
Definition write_opened (path : cstr) (truncate : bool) (data : list byte) (w : world) : Z * world :=
  let '((ret, file), f) := fs_open (Mode true true true truncate) path (fs w) in
  let w := set_fs f [OpOpen path truncate ret] w in
  if decide (ret <> 0%Z) then (ret, w)
  else
    let '((ret, file), f) := fs_write file data (fs w) in
    let w := set_fs f [OpWrite (length data)] w in
    let ret := if decide (0 <= ret /\ ret <> Z.of_nat (length data))%Z then (- EIO)%Z else ret in
    let '(close_ret, f) := fs_close file (fs w) in
    let w := set_fs f [OpClose] w in
    (if decide (ret < 0)%Z then ret else close_ret, w).

Definition write_file_bin (path : cstr) (data : list byte) (w : world) : Z * world :=
  if negb (webos_path_allowed path) then ((- EINVAL)%Z, w)
  else if is_device path then write_opened path false data w
  else
    let '(ret, w) := ensure_parent_dirs path w in
    if decide (ret <> 0%Z) then (ret, w) else write_opened path true data w.

(** [data] is a C string. *)
Definition write_file (path data : cstr) (w : world) : Z * world := write_file_bin path data w.

Definition directories : list cstr :=
  (fun d => WEBOS_MOUNT_POINT ++ d) <$> [cs "/apps"; cs "/config"; cs "/logs"; cs "/ota"; cs "/www"].

(** The loop that waits for the mount: the last result. *)
Fixpoint wait_mounted (attempts : nat) (w : world) : Z * world :=
  match attempts with
  | O => ((- ENODEV)%Z, w)
  | S n =>
      let ret := fs_stat WEBOS_MOUNT_POINT (fs w) in
      if decide (ret = 0%Z) then (0%Z, w)
      else
        let w := set_fs (fs_wait 500 (fs w)) [] w in
        match n with O => (ret, w) | S _ => wait_mounted n w end
  end.

(** The loop over the directories, which goes on after an error. *)
Fixpoint ensure_all (l : list cstr) (first_error : Z) (w : world) : Z * world :=
  match l with
  | [] => (first_error, w)
  | d :: l' =>
      let '(ret, w) := ensure_dir d w in
      ensure_all l' (if decide (ret <> 0%Z /\ first_error = 0%Z) then ret else first_error) w
  end.

Definition init_filesystem_layout (w : world) : Z * world :=
  let '(ret, w) := wait_mounted 20 w in
  if decide (ret <> 0%Z) then (ret, w) else ensure_all directories 0 w.

(** ** Paths *)

(** A path the service may write: below the storage or in /dev, without two dots
    in a row. *)
Definition allowed (p : cstr) : Prop :=
  ((exists k, p = cs "/STORAGE:/" ++ k) \/ (exists k, p = cs "/dev/" ++ k)) /\ forall a b, p <> a ++ cs ".." ++ b.

Lemma webos_path_allowed_spec p : webos_path_allowed p = true <-> allowed p.
Proof.
  unfold webos_path_allowed, allowed. rewrite andb_true_iff, orb_true_iff, !starts_with_spec, bool_decide_eq_true, strstr_None.
  done.
Qed.

(** The directories a path needs: its prefixes that end before a slash, from the
    first one below the mount point. *)
Definition ancestor (path d : cstr) : Prop :=
  (exists k, path = d ++ slash :: k) /\ exists k, d = WEBOS_MOUNT_POINT ++ k.

(** The calls of a write: directories first, each an ancestor and none after one
    that failed; then the file is opened once and, if that worked, written once
    and closed. *)
Definition dirs_made (path : cstr) (l : list fs_op) : Prop :=
  Forall (fun o => exists d ret, o = OpMkdir d ret /\ ancestor path d) l.

Lemma ensure_dir_ops d w ret w' :
  ensure_dir d w = (ret, w') -> exists l, ops w' = ops w ++ l /\ Forall (fun o => o = OpMkdir d ret) l.
Proof.
  unfold ensure_dir. case_decide; [intros [= <- <-]; exists []; by rewrite app_nil_r|].
  destruct (fs_mkdir d (fs w)) as [r f]. intros [= <- <-]. exists [OpMkdir d r]. split; [done|by constructor].
Qed.

Lemma ensure_loop_ops path parent i rest w ret w' :
  (exists k, path = parent ++ slash :: k) -> (exists k, parent = WEBOS_MOUNT_POINT ++ k) ->
  length WEBOS_MOUNT_POINT <= i -> rest = drop i parent ->
  ensure_loop parent i rest w = (ret, w') -> exists l, ops w' = ops w ++ l /\ dirs_made path l.
Proof.
  intros Hpath Hparent. revert i w. induction rest as [|c rest IH]; intros i w Hi Hrest; cbn [ensure_loop].
  { intros [= <- <-]. exists []. split; [by rewrite app_nil_r|constructor]. }
  assert (rest = drop (S i) parent) as Hrest'.
  { replace (S i) with (i + 1) by lia. rewrite <- drop_drop, <- Hrest. done. }
  case_decide as Hc; [|by apply IH; [lia|]]. destruct Hc as [-> Hlt].
  destruct (ensure_dir (take i parent) w) as [r w1] eqn:Ed.
  destruct (ensure_dir_ops _ _ _ _ Ed) as (l1 & Hl1 & Hm1).
  assert (ancestor path (take i parent)) as Ha.
  { destruct Hpath as [k ->], Hparent as [m Hm]. split.
    - exists (drop (S i) parent ++ slash :: k). rewrite <- (take_drop i parent) at 1.
      rewrite <- Hrest, Hrest'. rewrite <- app_assoc. done.
    - exists (take (i - length WEBOS_MOUNT_POINT) m). rewrite Hm, take_app. f_equal. by apply take_ge. }
  assert (dirs_made path l1) as Hd1.
  { eapply Forall_impl; [exact Hm1|]. intros o ->. eauto. }
  case_decide; [intros [= <- <-]; eauto|]. intros Hr. destruct (IH (S i) w1 ltac:(lia) Hrest' Hr) as (l2 & Hl2 & Hd2).
  exists (l1 ++ l2). split; [by rewrite Hl2, Hl1, app_assoc|by apply Forall_app].
Qed.

Lemma ensure_parent_ops path w ret w' :
  ensure_parent_dirs path w = (ret, w') -> exists l, ops w' = ops w ++ l /\ dirs_made path l.
Proof.
  assert (forall r : Z, (r, w) = (ret, w') -> exists l, ops w' = ops w ++ l /\ dirs_made path l) as Hnone.
  { intros r [= <- <-]. exists []. split; [by rewrite app_nil_r|constructor]. }
  unfold ensure_parent_dirs. destruct (strrchr path slash) as [[|n]|] eqn:Es; [apply Hnone| |apply Hnone].
  case_decide as Hn; [apply Hnone|]. destruct (starts_with WEBOS_MOUNT_POINT (take (S n) path)) eqn:Em; [|apply Hnone].
  cbn [negb]. apply starts_with_spec in Em.
  assert (exists k, path = take (S n) path ++ slash :: k) as Hpath.
  { exists (drop (S (S n)) path). clear -Es. revert Es. generalize (S n) as i. induction path as [|c path IH]; intros i; [done|].
    simpl. destruct (strrchr path slash) as [j|] eqn:E.
    - intros [= <-]. simpl. f_equal. by apply IH.
    - case_decide as Hc; [|done]. intros [= <-]. simpl. by rewrite Hc, drop_0. }
  destruct (ensure_loop _ _ _ w) as [r w1] eqn:El.
  destruct (ensure_loop_ops path _ _ _ _ _ _ Hpath Em (le_n _) eq_refl El) as (l1 & Hl1 & Hd1).
  case_decide; [intros [= <- <-]; eauto|]. intros Hd. destruct (ensure_dir_ops _ _ _ _ Hd) as (l2 & Hl2 & Hm2).
  exists (l1 ++ l2). split; [by rewrite Hl2, Hl1, app_assoc|]. apply Forall_app. split; [done|].
  eapply Forall_impl; [exact Hm2|]. intros o ->. eexists _, _. split; [done|]. by split.
Qed.

Lemma write_opened_ops path t data w ret w' :
  write_opened path t data w = (ret, w') ->
  ops w' = ops w ++ [OpOpen path t ret] /\ ret <> 0%Z
  \/ ops w' = ops w ++ [OpOpen path t 0; OpWrite (length data); OpClose].
Proof.
  unfold write_opened. destruct (fs_open _ path (fs w)) as [[r h] f]. case_decide as Hr; [intros [= <- <-]; by left|].
  subst r. destruct (fs_write h data _) as [[r h'] f']. destruct (fs_close h' _) as [cr f''].
  intros [= <- <-]. right. cbn [ops set_fs]. by rewrite <- !app_assoc.
Qed.

(** A write of the web interface touches only its own path and the
    directories above it, below the storage: a path that is not allowed changes
    nothing; otherwise only ancestors of the path are created, the file is opened
    once, truncated unless it is a device, and if it was opened it is written
    once and closed. *)
Theorem write_file_confined path data w ret w' :
  write_file_bin path data w = (ret, w') ->
  (~ allowed path /\ w' = w /\ ret = (- EINVAL)%Z)
  \/ (allowed path /\ exists dirs rest, ops w' = ops w ++ dirs ++ rest /\ dirs_made path dirs
      /\ (is_device path = true -> dirs = [])
      /\ (rest = [] \/ exists t, t = negb (is_device path)
          /\ (rest = [OpOpen path t ret] \/ rest = [OpOpen path t 0; OpWrite (length data); OpClose]))).
Proof.
  unfold write_file_bin. destruct (webos_path_allowed path) eqn:Ea; cbn [negb].
  2: { intros [= <- <-]. left. split_and!; try done. rewrite <- webos_path_allowed_spec. by rewrite Ea. }
  apply webos_path_allowed_spec in Ea. intros Hw. right. split; [done|]. revert Hw.
  destruct (is_device path) eqn:Ed.
  - intros Hw. apply write_opened_ops in Hw as [[Ho _]|Ho]; eexists [], _; (split; [exact Ho|]); (split; [constructor|]);
      (split; [done|]); right; exists false; auto.
  - destruct (ensure_parent_dirs path w) as [r w1] eqn:Ee. destruct (ensure_parent_ops _ _ _ _ Ee) as (l & Hl & Hd).
    case_decide.
    + intros [= <- <-]. exists l, []. rewrite app_nil_r. split_and!; [done|done|done|by left].
    + intros Hw. apply write_opened_ops in Hw as [[Ho _]|Ho]; exists l; eexists;
        (split; [rewrite Ho, Hl, <- app_assoc; reflexivity|]); (split; [done|]); (split; [done|]); right; exists true; auto.
Qed.

(** ** What a write stores *)

Section stored.
Context {L : AppFsLaws F}.

Lemma ensure_dir_files d w ret w' : ensure_dir d w = (ret, w') -> files (fs w') = files (fs w).
Proof.
  unfold ensure_dir. case_decide; [by intros [= _ <-]|]. pose proof (mkdir_files d (fs w)) as Hm.
  destruct (fs_mkdir d (fs w)) as [r f]. by intros [= _ <-].
Qed.

Lemma ensure_loop_files parent i rest w ret w' :
  ensure_loop parent i rest w = (ret, w') -> files (fs w') = files (fs w).
Proof.
  revert i w. induction rest as [|c rest IH]; intros i w; cbn [ensure_loop]; [by intros [= _ <-]|].
  case_decide; [|apply IH]. destruct (ensure_dir (take i parent) w) as [r w1] eqn:Ed. apply ensure_dir_files in Ed.
  case_decide; [by intros [= _ <-]|]. intros Hl. by rewrite (IH _ _ Hl).
Qed.

Lemma ensure_parent_files path w ret w' : ensure_parent_dirs path w = (ret, w') -> files (fs w') = files (fs w).
Proof.
  unfold ensure_parent_dirs. destruct (strrchr path slash) as [[|n]|]; [by intros [= _ <-]| |by intros [= _ <-]].
  case_decide; [by intros [= _ <-]|]. destruct (negb _); [by intros [= _ <-]|].
  destruct (ensure_loop _ _ _ w) as [r w1] eqn:El. apply ensure_loop_files in El.
  case_decide; [by intros [= _ <-]|]. intros Hd. by rewrite (ensure_dir_files _ _ _ _ Hd).
Qed.

(** The file after a write that opened it: all of the data if 0 is returned. *)
Lemma write_opened_files path data w ret w' :
  is_device path = false -> write_opened path true data w = (ret, w') ->
  (ret = 0%Z -> files (fs w') = <[path := data]> (files (fs w)))
  /\ forall q, q <> path -> files (fs w') !! q = files (fs w) !! q.
Proof.
  intros Hp. unfold write_opened. set (m := Mode true true true true).
  pose proof (open_others m path (fs w)) as Ho. pose proof (open_truncates m path (fs w) Hp eq_refl) as Ht.
  pose proof (open_regular m path (fs w) Hp) as Hc.
  destruct (fs_open m path (fs w)) as [[r h] f]. cbn [fst snd] in *. case_decide as Hr; [by intros [= <- <-]|].
  subst r. cbn [fs set_fs].
  destruct (write_regular h data f path 0 [] (Hc eq_refl) (Ht eq_refl)) as (k & Hk & Hf & Hret).
  destruct (fs_write h data f) as [[r h'] f']. cbn [fst snd] in *.
  pose proof (close_files h' f') as Hcl. destruct (fs_close h' f') as [cr f'']. cbn [snd] in Hcl.
  intros [= Hv <-]. cbn [fs set_fs]. rewrite Hcl, Hf. split.
  - intros ->. assert (files f = <[path := []]> (files (fs w))) as Hfw.
    { apply map_eq. intros q. destruct (decide (q = path)) as [->|Hq]; [by rewrite lookup_insert_eq, Ht|].
      by rewrite lookup_insert_ne, Ho. }
    rewrite Hfw, insert_insert_eq. f_equal. revert Hv. destruct (decide (_ /\ _)) as [Hs|Hs].
    + unfold EIO. case_decide; lia.
    + case_decide as Hn; [lia|]. intros _. assert (k = length data) as -> by (specialize (Hret ltac:(lia)); lia).
      rewrite firstn_all. unfold write_at. simpl. by rewrite drop_nil, app_nil_r.
  - intros q Hq. rewrite lookup_insert_ne by done. by apply Ho.
Qed.

(** A write that returns 0 has stored exactly the data in the file, whatever
    it held before, and no write changes any other file. *)
Theorem write_file_stored path data w ret w' :
  is_device path = false -> write_file_bin path data w = (ret, w') ->
  (ret = 0%Z -> files (fs w') = <[path := data]> (files (fs w)))
  /\ forall q, q <> path -> files (fs w') !! q = files (fs w) !! q.
Proof.
  intros Hp. unfold write_file_bin. destruct (negb _); [by intros [= <- <-]|]. rewrite Hp.
  destruct (ensure_parent_dirs path w) as [r w1] eqn:Ee. apply ensure_parent_files in Ee.
  case_decide; [by intros [= <- <-]; rewrite Ee|]. intros Hw. rewrite <- Ee. by apply write_opened_files.
Qed.
End stored.
End service.

(** ** A write in memory *)

Definition demo_fs : MemFs.mem_fs := MemFs.Mem [cs "/STORAGE:"] {[cs "/STORAGE:/apps/x" := cs "old"]} 10.

Definition demo_world : world (F := MemFs.mem) := World demo_fs [].

Example demo_layout :
  (init_filesystem_layout demo_world).1 = 0%Z
  /\ MemFs.dirs (fs (init_filesystem_layout demo_world).2)
     = rev directories ++ [cs "/STORAGE:"].
Proof. by vm_compute. Qed.

(** More than the device holds: the result is an error, the file is cut. *)
Example demo_full : (write_file_bin (cs "/STORAGE:/apps/x") (cs "0123456789ab") demo_world).1 = (- EIO)%Z.
Proof. by vm_compute. Qed.
End FileService.

(** ** Witnesses *)

Lemma write_file_confined_witness :
  length (FileService.ops (FileService.write_file_bin (cs "/STORAGE:/a/b/x") (cs "new") FileService.demo_world).2) = 5
  /\ exists d r, FileService.ops (FileService.write_file_bin (cs "/STORAGE:/a/b/x") (cs "new") FileService.demo_world).2 = d ++ r
      /\ FileService.dirs_made (cs "/STORAGE:/a/b/x") d.
Proof.
  split; [vm_compute; reflexivity|].
  destruct (FileService.write_file_bin (cs "/STORAGE:/a/b/x") (cs "new") FileService.demo_world) as [ret w'] eqn:E.
  destruct (FileService.write_file_confined (cs "/STORAGE:/a/b/x") (cs "new") FileService.demo_world ret w' E)
    as [(Hn & _)|(_ & d & r & Ho & Hd & _)].
  - exfalso. apply Hn. apply FileService.webos_path_allowed_spec. vm_compute. reflexivity.
  - exists d, r. split; [exact Ho|exact Hd].
Defined.

Lemma write_file_stored_witness :
  files (F := MemFs.mem) (FileService.fs (FileService.write_file_bin (cs "/STORAGE:/apps/x") (cs "new") FileService.demo_world).2)
    !! cs "/STORAGE:/apps/x" = Some (cs "new").
Proof.
  rewrite (proj1 (FileService.write_file_stored (cs "/STORAGE:/apps/x") (cs "new") FileService.demo_world _ _ eq_refl (surjective_pairing _))).
  - apply lookup_insert_eq.
  - vm_compute. reflexivity.
Defined.
