(* ===== verification/Ota.v ===== *)
(** * Firmware update

    Model of src/app/src/services/ota/ota.c: an upload session over Zephyr's
    flash image writer, the request of the upgrade and the delayed reboot.  Every
    function holds [ota_lock] for its whole body, so it is one step on the state.
    The flash image library, the bootloader and the work queue are the class
    [FlashImg].  The field [calls] is a ghost, the history of the calls into
    them; no definition reads it. *)

From S2P Require Import Prelude CLib.
From Stdlib Require Import ZArith Lia.
From Stdlib Require Import Strings.Byte.
From stdpp Require Import base numbers list list_numbers strings.

(** The context [ota_flash_ctx] is part of [flash]. *)
Class FlashImg := {
  flash : Type;
  flash_img_init : flash -> Z * flash;
  flash_img_buffered_write : list byte -> bool -> flash -> Z * flash;   (* data, flush *)
  flash_img_bytes_written : flash -> Z;
  boot_request_upgrade : flash -> Z * flash;                            (* BOOT_UPGRADE_TEST *)
  k_work_reschedule : Z -> flash -> flash;                              (* ota_reboot_work *)
}.

Definition WEBOS_OTA_REBOOT_DELAY_MS : Z := 2000.

Module Ota.
Section ota.
Context {F : FlashImg}.

Inductive flash_call :=
| CallInit (ret : Z)
| CallWrite (data : list byte) (flush : bool) (ret : Z)
| CallUpgrade (ret : Z)
| CallReboot (delay_ms : Z).

Record ota := State { ota_active : bool; device : flash; calls : list flash_call }.

Definition set_active (b : bool) (s : ota) : ota := State b (device s) (calls s).
Definition set_device (f : flash) (l : list flash_call) (s : ota) : ota := State (ota_active s) f (calls s ++ l).

Definition ota_begin (s : ota) : Z * ota :=
  if ota_active s then (0%Z, s)
  else
    let '(ret, f) := flash_img_init (device s) in
    let s := set_device f [CallInit ret] s in
    if decide (ret <> 0%Z) then (ret, s) else (0%Z, set_active true s).

Definition ota_write (data : list byte) (final : bool) (s : ota) : Z * ota :=
  if decide (length data = 0) then (0%Z, s)
  else if negb (ota_active s) then ((- ECANCELED)%Z, s)
  else
    let '(ret, f) := flash_img_buffered_write data final (device s) in
    (ret, set_device f [CallWrite data final ret] s).

(** The result and the number of bytes written. *)
Definition ota_finish (s : ota) : (Z * Z) * ota :=
  let written := flash_img_bytes_written (device s) in
  let s := set_active false s in
  let '(ret, f) := boot_request_upgrade (device s) in
  let s := set_device f [CallUpgrade ret] s in
  if decide (ret = 0%Z)
  then ((ret, written), set_device (k_work_reschedule WEBOS_OTA_REBOOT_DELAY_MS (device s)) [CallReboot WEBOS_OTA_REBOOT_DELAY_MS] s)
  else ((ret, written), s).

Definition ota_abort (s : ota) : ota := set_active false s.

(** ** The session an upgrade rests on *)

Definition write_done (c : flash_call) : Prop := exists data flush, c = CallWrite data flush 0.

(** The calls end with a session that is open: an initialisation that worked and
    writes that all did. *)
Definition open_session (l : list flash_call) : Prop :=
  exists pre ws, l = pre ++ CallInit 0 :: ws /\ Forall write_done ws.

(** Every request for an upgrade follows such a session at once. *)
Definition upgrades_justified (l : list flash_call) : Prop :=
  forall pre ret post, l = pre ++ CallUpgrade ret :: post -> open_session pre.

Lemma justified_snoc l c :
  upgrades_justified l -> (forall ret, c = CallUpgrade ret -> open_session l) -> upgrades_justified (l ++ [c]).
Proof.
  intros Hl Hc pre ret post E. destruct post as [|x post _] using rev_ind.
  - apply app_inj_tail in E as [-> ->]. by eapply Hc.
  - rewrite app_comm_cons, app_assoc in E. apply app_inj_tail in E as [-> _]. by eapply Hl.
Qed.

Lemma open_session_write l data flush : open_session l -> open_session (l ++ [CallWrite data flush 0]).
Proof.
  intros (pre & ws & -> & Hw). exists pre, (ws ++ [CallWrite data flush 0]). split; [by rewrite <- app_assoc|].
  apply Forall_app. split; [done|]. constructor; [by eexists _, _|constructor].
Qed.

(** The invariant between calls of the service: while the session is active and
    no write of it has failed, the history ends with its calls. *)
Record ota_ok (s : ota) : Prop := {
  ok_justified : upgrades_justified (calls s);
  ok_session : ota_active s = true -> open_session (calls s);
}.

Lemma begin_ok s ret s' : ota_ok s -> ota_begin s = (ret, s') -> ota_ok s' /\ (ret = 0%Z -> ota_active s' = true).
Proof.
  intros [Hj Hs]. unfold ota_begin. destruct (ota_active s) eqn:Ea;
    [intros [= <- <-]; split; [split; [done|intros _; by apply Hs]|done]|].
  destruct (flash_img_init (device s)) as [r f]. assert (upgrades_justified (calls s ++ [CallInit r])) as Hj'.
  { by apply justified_snoc. }
  case_decide as Hr; intros [= <- <-]; cbn.
  - split; [split; [done|]; cbn; by rewrite Ea|done].
  - split; [split; [done|]|done]. intros _. exists (calls s), []. by subst r.
Qed.

(** A write that fails breaks the session: the caller has to abort it. *)
Lemma write_ok data final s ret s' :
  ota_ok s -> ota_active s = true -> ota_write data final s = (ret, s') ->
  upgrades_justified (calls s') /\ (ret = 0%Z -> ota_ok s' /\ ota_active s' = true).
Proof.
  intros [Hj Hs] Ha. unfold ota_write. case_decide; [by intros [= <- <-]|]. rewrite Ha. cbn [negb].
  destruct (flash_img_buffered_write data final (device s)) as [r f]. intros [= <- <-]. cbn.
  assert (upgrades_justified (calls s ++ [CallWrite data final r])) as Hj' by by apply justified_snoc.
  split; [done|]. intros ->. split; [|done]. split; [done|]. intros _. by apply open_session_write, Hs.
Qed.

Lemma finish_ok s r s' : ota_ok s -> ota_active s = true -> ota_finish s = (r, s') -> ota_ok s' /\ ota_active s' = false.
Proof.
  intros [Hj Hs] Ha. unfold ota_finish. cbn. destruct (boot_request_upgrade (device s)) as [ret f].
  assert (upgrades_justified (calls s ++ [CallUpgrade ret])) as Hj'.
  { apply justified_snoc; [done|]. intros _ _. by apply Hs. }
  case_decide; intros [= _ <-]; (split; [split|]); cbn; try done. by apply justified_snoc.
Qed.

Lemma abort_ok s : upgrades_justified (calls s) -> ota_ok (ota_abort s).
Proof. intros Hj. by split. Qed.
End ota.
Arguments ota _ : clear implicits.
End Ota.
