(* ===== verification/HttpServer.v ===== *)
(** * The web interface

    Model of src/app/src/services/http/http.c and http_handlers.c: the responses,
    the health status and the request handlers.  Zephyr's HTTP server calls a
    handler with the pieces of a request as they arrive, then tells it that the
    transaction is over; a handler keeps what it needs in between in static
    arrays, the fields of the records below.  A call returns the response it
    sets, if any (every handler returns 0), and the new state.

    The handlers work on the file service, the shell, the log buffer and the
    firmware update of the other files.  Contents of arrays on the stack that are
    not initialised are the parameter [Uninit]; the version text that the build
    generates is [AppVersion]. *)

From S2P Require Import Prelude CLib Json LogBuffer ShellExec AppFs FileService Ota AppContext.
From Stdlib Require Import ZArith Lia.
From Stdlib Require Import Strings.Byte.
From stdpp Require Import base numbers list list_numbers strings.

Class Uninit := { uninit : nat -> list byte; length_uninit n : length (uninit n) = n }.
Class AppVersion := { APP_VERSION_STRING : cstr }.

(** The Kconfig symbol of the dummy shell backend. *)
Class DummyConfig := { SHELL_BACKEND_DUMMY_BUF_SIZE : nat; dummy_buf_size_positive : 0 < SHELL_BACKEND_DUMMY_BUF_SIZE }.

Module HttpServer.

Definition WEBOS_HTTP_BODY_MAX : nat := 4096.
Definition WEBOS_JSON_VALUE_MAX : nat := 1536.

(** ** Requests and responses *)

Inductive transaction_status :=
| HTTP_SERVER_TRANSACTION_ABORTED
| HTTP_SERVER_REQUEST_DATA_MORE
| HTTP_SERVER_REQUEST_DATA_FINAL
| HTTP_SERVER_TRANSACTION_COMPLETE.

#[global] Instance transaction_status_eq_dec : EqDecision transaction_status.
Proof. solve_decision. Defined.

Record http_header := Header { name : option cstr; value : option cstr }.

(** A piece of a request; [headers] is [None] for a NULL pointer. *)
Record request_ctx := Request { data : list byte; headers : option (list http_header) }.

Inductive http_status := HTTP_200_OK | HTTP_400_BAD_REQUEST | HTTP_413_PAYLOAD_TOO_LARGE | HTTP_500_INTERNAL_SERVER_ERROR.

#[global] Instance http_status_eq_dec : EqDecision http_status.
Proof. solve_decision. Defined.

(** What a handler sets in the response context; [body] is the array the pointer
    points to, of which [body_len] bytes are sent. *)
Record response := Response {
  status : http_status;
  response_headers : list (cstr * cstr);
  body : list byte;
  body_len : nat;
  final_chunk : bool;
}.

Definition json_headers : list (cstr * cstr) := [(cs "Content-Type", cs "application/json")].
Definition text_headers : list (cstr * cstr) := [(cs "Content-Type", cs "text/plain; charset=utf-8")].

Definition set_json_response (st : http_status) (b : list byte) (len : nat) : response := Response st json_headers b len true.
Definition set_text_response (st : http_status) (b : list byte) (len : nat) : response := Response st text_headers b len true.

(** A string literal as an array, with its NUL. *)
Definition literal (s : string) : list byte := cs s ++ [NUL].

(** [snprintk] into an array that is not empty: the length of the whole text, and
    the array with as much of it as fits and a NUL. *)
Definition snprintk (a : list byte) (text : cstr) : nat * list byte :=
  (length text, write_at a 0 (take (length a - 1) text ++ [NUL])).

Definition newline_text : cstr := [newline].

(** A JSON text with its double quotes written as apostrophes. *)
Definition js (s : string) : cstr := (fun c => if decide (c = "'"%byte) then quote else c) <$> cs s.

#[global] Arguments js : simpl never.
#[global] Arguments snprintk : simpl never.

(** ** The body of a request

    The array and cursor of a handler, and the check and copy all of them make;
    [None] is the answer 413. *)

Record collector := Collector { buf : list byte; cursor : nat }.

Definition append_chunk (d : list byte) (c : collector) : option collector :=
  if decide (WEBOS_HTTP_BODY_MAX <= cursor c + length d) then None
  else Some (Collector (write_at (buf c) (cursor c) d) (cursor c + length d)).

Definition reset_cursor (c : collector) : collector := Collector (buf c) 0.

(** [body[cursor] = 0; cursor = 0]. *)
Definition terminate (c : collector) : collector := Collector (write_at (buf c) (cursor c) [NUL]) 0.

Definition over (st : transaction_status) : bool :=
  bool_decide (st = HTTP_SERVER_TRANSACTION_ABORTED \/ st = HTTP_SERVER_TRANSACTION_COMPLETE).
Definition last_data (st : transaction_status) : bool := bool_decide (st = HTTP_SERVER_REQUEST_DATA_FINAL).

Definition too_large : list byte := js "{'error':'request too large'}" ++ newline_text ++ [NUL].

(** [strlen(too_large)]. *)
Definition too_large_response : response := set_json_response HTTP_413_PAYLOAD_TOO_LARGE too_large (length (c_string too_large)).

Definition error_text (ret : Z) : cstr := js "{'error':" ++ int_text ret ++ js "}" ++ newline_text.
Definition ok_text (path : cstr) : cstr := js "{'ok':true,'path':'" ++ path ++ js "'}" ++ newline_text.

(** ** The root and the health status *)

Record webos_health_status := Health { filesystem : Z; devfs : Z; gpio : Z; led : Z; iwasm : Z; wifi : Z }.

Definition healthy (h : webos_health_status) : bool :=
  bool_decide (filesystem h = 0 /\ devfs h = 0 /\ gpio h = 0 /\ led h = 0 /\ iwasm h = 0 /\ wifi h = 0)%Z.

Definition health_text (h : webos_health_status) : cstr :=
  js "{'status':'" ++ (if healthy h then cs "ok" else cs "degraded") ++ js "','filesystem':" ++ int_text (filesystem h)
  ++ js ",'devfs':" ++ int_text (devfs h) ++ js ",'gpio':" ++ int_text (gpio h) ++ js ",'led':" ++ int_text (led h)
  ++ js ",'iwasm':" ++ int_text (iwasm h) ++ js ",'wifi':" ++ int_text (wifi h)
  ++ js ",'abi':'" ++ dec_text WEBOS_ABI_MAJOR ++ cs "." ++ dec_text WEBOS_ABI_MINOR ++ js "'}" ++ newline_text.

Definition root_handler {V : AppVersion} (st : transaction_status) (array : list byte) : option response * list byte :=
  if last_data st then
    let '(ret, array) := snprintk array (cs "Hello from WebOS " ++ APP_VERSION_STRING ++ newline_text) in
    (Some (set_text_response HTTP_200_OK array ret), array)
  else (None, array).

Definition health_handler (st : transaction_status) (h : webos_health_status) (array : list byte) : option response * list byte :=
  if last_data st then
    let '(len, array) := snprintk array (health_text h) in
    (Some (set_json_response HTTP_200_OK array len), array)
  else (None, array).

(** ** Pushing a file *)

Section push.
Context {F : AppFs} {U : Uninit}.

Record push_statics := Push { push_in : collector; push_response : list byte }.

(** From the lookup of the path on, for a whole document. *)
Definition push_request (document : cstr) (array : list byte) (w : FileService.world) : (response * list byte) * FileService.world :=
  let '(ret, path) := Json.json_get_string document (cs "path") (uninit 128) 128 in
  let '(ret, file) := if decide (ret = 0%Z)
                      then Json.json_get_string document (cs "file") (uninit WEBOS_JSON_VALUE_MAX) WEBOS_JSON_VALUE_MAX
                      else (ret, uninit WEBOS_JSON_VALUE_MAX) in
  let '(ret, w) := if decide (ret = 0%Z) then FileService.write_file (c_string path) (c_string file) w else (ret, w) in
  if decide (ret = 0%Z) then
    let '(ret, array) := snprintk array (ok_text (c_string path)) in
    ((set_json_response HTTP_200_OK array ret, array), w)
  else
    let '(ret, array) := snprintk array (error_text ret) in
    ((set_json_response HTTP_400_BAD_REQUEST array ret, array), w).

Definition push_handler (st : transaction_status) (r : request_ctx) (s : push_statics) (w : FileService.world)
    : (option response * push_statics) * FileService.world :=
  if over st then ((None, Push (reset_cursor (push_in s)) (push_response s)), w)
  else match append_chunk (data r) (push_in s) with
       | None => ((Some too_large_response, Push (reset_cursor (push_in s)) (push_response s)), w)
       | Some c =>
           if negb (last_data st) then ((None, Push c (push_response s)), w)
           else
             let c := terminate c in
             let '((answer, array), w) := push_request (c_string (buf c)) (push_response s) w in
             ((Some answer, Push c array), w)
       end.

(** ** Pushing a binary file *)

Record pushbin_statics := Pushbin { bin_path : list byte; bin_in : collector; bin_response : list byte }.

(** [path[0] = 0]. *)
Definition clear_path (p : list byte) : list byte := write_at p 0 [NUL].

(** [strncpy(path, value, sizeof(path) - 1)], which fills up with NULs, and the
    last NUL. *)
Definition copy_header (p : list byte) (v : cstr) : list byte :=
  let n := length p - 1 in
  write_at (write_at p 0 (take n v ++ replicate (n - length v) NUL)) n [NUL].

(** The loop over the headers. *)
Fixpoint scan_headers (l : list http_header) (p : list byte) : list byte :=
  match l with
  | [] => p
  | h :: l' =>
      match name h with
      | None => scan_headers l' p
      | Some n =>
          match value h with
          | Some v => if decide (n = cs "X-Webos-Path") then copy_header p v else scan_headers l' p
          | None => scan_headers l' p
          end
      end
  end.

Definition path_empty (p : list byte) : bool := bool_decide (char_at p 0 = NUL).

(** The path in front of the data, when no header gave one: the statics, or the
    answer of the error. *)
Definition take_path (s : pushbin_statics) : (response * pushbin_statics) + pushbin_statics :=
  let c := bin_in s in
  let fail text len := inl (set_json_response HTTP_400_BAD_REQUEST text len, Pushbin (bin_path s) (reset_cursor c) (bin_response s)) in
  match strchr (take (cursor c) (buf c)) newline with
  | None => fail (js "{'error':'no path'}" ++ newline_text ++ [NUL]) 19
  | Some path_len =>
      if decide (length (bin_path s) <= path_len) then fail (js "{'error':'bad path'}" ++ newline_text ++ [NUL]) 19
      else
        let rest := take (cursor c - path_len - 1) (drop (path_len + 1) (buf c)) in
        inr (Pushbin (write_at (write_at (bin_path s) 0 (take path_len (buf c))) path_len [NUL])
               (Collector (write_at (buf c) 0 rest) (cursor c - (path_len + 1))) (bin_response s))
  end.

(** From the write on. *)
Definition pushbin_write (s : pushbin_statics) (w : FileService.world) : (option response * pushbin_statics) * FileService.world :=
  let c := bin_in s in
  let path := c_string (bin_path s) in
  let '(ret, w) := FileService.write_file_bin path (take (cursor c) (buf c)) w in
  let '(answer, array) :=
    if decide (ret = 0%Z)
    then let '(ret, array) := snprintk (bin_response s) (ok_text path) in (set_json_response HTTP_200_OK array ret, array)
    else (set_json_response HTTP_500_INTERNAL_SERVER_ERROR (js "{'error':'write failed'}" ++ newline_text ++ [NUL]) 23, bin_response s) in
  ((Some answer, Pushbin (clear_path (bin_path s)) (reset_cursor c) array), w).

Definition pushbin_handler (st : transaction_status) (r : request_ctx) (s : pushbin_statics) (w : FileService.world)
    : (option response * pushbin_statics) * FileService.world :=
  if over st then ((None, Pushbin (clear_path (bin_path s)) (reset_cursor (bin_in s)) (bin_response s)), w)
  else
    let path := if path_empty (bin_path s) then match headers r with Some l => scan_headers l (bin_path s) | None => bin_path s end
                else bin_path s in
    match append_chunk (data r) (bin_in s) with
    | None =>
        ((Some (set_json_response HTTP_413_PAYLOAD_TOO_LARGE (js "{'error':'too large'}" ++ newline_text ++ [NUL]) 20),
          Pushbin (clear_path path) (reset_cursor (bin_in s)) (bin_response s)), w)
    | Some c =>
        let s := Pushbin path c (bin_response s) in
        if negb (last_data st) then ((None, s), w)
        else if path_empty path then
          match take_path s with
          | inl (answer, s) => ((Some answer, s), w)
          | inr s => pushbin_write s w
          end
        else pushbin_write s w
    end.
End push.

(** ** Shell commands *)

Section shell.
Context {B : ShellBackend} {D : DummyConfig}.

Record shell_statics := Shell {
  shell_in : collector;
  shell_cmd : list byte;
  shell_input : list byte;
  shell_response : list byte;
  shell_escaped : list byte;
  shell_output : list byte;
}.

(** What a call of the shell leaves in [output] and [output_len]. *)
Definition store_output (r : shell_result) (output : list byte) : list byte * nat :=
  match captured r with
  | Some (out, _) => (write_at output 0 (out ++ [NUL]), length out)
  | None => (output, 0)
  end.

(** The command, the input or the clearing a document asks for: the result, the
    statics and the length of the output. *)
Definition shell_run (document : cstr) (s : shell_statics) (b : backend) : (Z * nat * shell_statics) * backend :=
  if Json.json_has_key document (cs "cmd") then
    let '(ret, cmd) := Json.json_get_string document (cs "cmd") (shell_cmd s) 256 in
    let s := Shell (shell_in s) cmd (shell_input s) (shell_response s) (shell_escaped s) (shell_output s) in
    if decide (ret = 0%Z) then
      let '(r, b) := ShellExecutor.execute (c_string cmd) SHELL_BACKEND_DUMMY_BUF_SIZE b in
      let '(output, len) := store_output r (shell_output s) in
      ((result r, len, Shell (shell_in s) (shell_cmd s) (shell_input s) (shell_response s) (shell_escaped s) output), b)
    else ((ret, 0, s), b)
  else if Json.json_has_key document (cs "input") then
    let '(ret, input) := Json.json_get_string document (cs "input") (shell_input s) 256 in
    let s := Shell (shell_in s) (shell_cmd s) input (shell_response s) (shell_escaped s) (shell_output s) in
    if decide (ret = 0%Z) then
      let '(r, b) := ShellExecutor.webos_shell_push_input (c_string input) SHELL_BACKEND_DUMMY_BUF_SIZE b in
      let '(output, len) := store_output r (shell_output s) in
      ((result r, len, Shell (shell_in s) (shell_cmd s) (shell_input s) (shell_response s) (shell_escaped s) output), b)
    else ((ret, 0, s), b)
  else
    ((0%Z, 0, Shell (shell_in s) (shell_cmd s) (shell_input s) (shell_response s) (shell_escaped s) (write_at (shell_output s) 0 [NUL])),
     ShellExecutor.clear_output b).

Definition shell_text (ret : Z) (escaped : cstr) (attached : bool) : cstr :=
  js "{'rc':" ++ int_text ret ++ js ",'output':'" ++ escaped ++ js "','attached':" ++ (if attached then cs "true" else cs "false")
  ++ js "}" ++ newline_text.

(** The answer, from the escaping of the output on. *)
Definition shell_answer (document : cstr) (ret : Z) (output_len : nat) (s : shell_statics) : response * shell_statics :=
  let '(_, escaped) := Json.append_json_string (shell_escaped s) (length (shell_escaped s)) (take output_len (shell_output s)) in
  let '(len, array) := snprintk (shell_response s) (shell_text ret (c_string escaped) (negb (Json.json_has_key document (cs "cmd")))) in
  (set_json_response HTTP_200_OK array len, Shell (shell_in s) (shell_cmd s) (shell_input s) array escaped (shell_output s)).

Definition set_shell_in (c : collector) (s : shell_statics) : shell_statics :=
  Shell c (shell_cmd s) (shell_input s) (shell_response s) (shell_escaped s) (shell_output s).

Definition shell_handler (st : transaction_status) (r : request_ctx) (s : shell_statics) (b : backend)
    : (option response * shell_statics) * backend :=
  if over st then ((None, set_shell_in (reset_cursor (shell_in s)) s), b)
  else match append_chunk (data r) (shell_in s) with
       | None => ((Some too_large_response, set_shell_in (reset_cursor (shell_in s)) s), b)
       | Some c =>
           if negb (last_data st) then ((None, set_shell_in c s), b)
           else
             let c := terminate c in
             let document := c_string (buf c) in
             let '((ret, len, s), b) := shell_run document (set_shell_in c s) b in
             let '(answer, s) := shell_answer document ret len s in
             ((Some answer, s), b)
       end.
End shell.

(** ** Firmware *)

Section ota.
Context {G : FlashImg}.

Definition ota_text (written : Z) : cstr :=
  js "{'ok':true,'bytes':" ++ dec_text written ++ js ",'reboot_ms':" ++ int_text WEBOS_OTA_REBOOT_DELAY_MS ++ js "}" ++ newline_text.

Definition ota_error (ret : Z) (array : list byte) (o : Ota.ota G) : (option response * list byte) * Ota.ota G :=
  let '(len, array) := snprintk array (error_text ret) in
  ((Some (set_json_response HTTP_500_INTERNAL_SERVER_ERROR array len), array), o).

Definition ota_handler (st : transaction_status) (r : request_ctx) (array : list byte) (o : Ota.ota G)
    : (option response * list byte) * Ota.ota G :=
  match st with
  | HTTP_SERVER_TRANSACTION_ABORTED => ((None, array), Ota.ota_abort o)
  | HTTP_SERVER_TRANSACTION_COMPLETE => ((None, array), o)
  | HTTP_SERVER_REQUEST_DATA_MORE | HTTP_SERVER_REQUEST_DATA_FINAL =>
      let '(ret, o) := Ota.ota_begin o in
      if decide (ret <> 0%Z) then ota_error ret array o
      else
        let '(ret, o) := if decide (0 < length (data r)) then Ota.ota_write (data r) (last_data st) o else (0%Z, o) in
        if decide (ret = 0%Z /\ last_data st = true) then
          let '((ret, written), o) := Ota.ota_finish o in
          if decide (ret = 0%Z) then
            let '(len, array) := snprintk array (ota_text written) in
            ((Some (set_json_response HTTP_200_OK array len), array), o)
          else ota_error ret array o
        else if decide (ret <> 0%Z) then ota_error ret array (Ota.ota_abort o)
        else ((None, array), o)
  end.
End ota.

(** ** The log *)

Section log.
Context `{LogConfig} {LF LC : Type} `{EqDecision LF, EqDecision LC}.

Record log_statics := LogStatics {
  log_in : collector;
  log_response : list byte;
  log_messages : list byte;
  log_escaped : list byte;
}.

Definition log_text (escaped : cstr) : cstr := js "{'messages':'" ++ escaped ++ js "'}" ++ newline_text.

Definition set_log_in (c : collector) (s : log_statics) : log_statics :=
  LogStatics c (log_response s) (log_messages s) (log_escaped s).

(** From the search for the key on. *)
Definition log_request (document : cstr) (s : log_statics) (l : LogBuffer.log_state (F := LF) (C := LC))
    : (response * log_statics) * LogBuffer.log_state :=
  let clear := Json.json_has_key document (cs "clear") in
  let '(msg_len, messages) := LogBuffer.log_buffer_read l (Some (log_messages s)) in
  let messages := default [] messages in
  let l := if clear then LogBuffer.log_buffer_clear l else l in
  let '(_, escaped) := Json.append_json_string (log_escaped s) (length (log_escaped s)) (take msg_len messages) in
  let '(len, array) := snprintk (log_response s) (log_text (c_string escaped)) in
  ((set_json_response HTTP_200_OK array len, LogStatics (log_in s) array messages escaped), l).

Definition log_handler (st : transaction_status) (r : request_ctx) (s : log_statics) (l : LogBuffer.log_state (F := LF) (C := LC))
    : (option response * log_statics) * LogBuffer.log_state :=
  if over st then ((None, set_log_in (reset_cursor (log_in s)) s), l)
  else match append_chunk (data r) (log_in s) with
       | None => ((Some too_large_response, set_log_in (reset_cursor (log_in s)) s), l)
       | Some c =>
           if negb (last_data st) then ((None, set_log_in c s), l)
           else
             let c := terminate c in
             let '((answer, s), l) := log_request (c_string (buf c)) (set_log_in c s) l in
             ((Some answer, s), l)
       end.
End log.

(** ** The server

    The static variables of all handlers, with what they work on, and the
    resources; the tables at the end of http_handlers.c. *)

Section server.
Context {F : AppFs} {U : Uninit} {B : ShellBackend} {D : DummyConfig} {G : FlashImg} {V : AppVersion}.
Context `{LogConfig} {LF LC : Type} `{EqDecision LF, EqDecision LC}.

Record server := Server {
  root_body : list byte;
  health_body : list byte;
  health_status : webos_health_status;
  push : push_statics;
  pushbin : pushbin_statics;
  shell : shell_statics;
  ota_response : list byte;
  log : log_statics;
  files_world : FileService.world;
  shell_world : backend;
  ota_world : Ota.ota G;
  log_world : LogBuffer.log_state (F := LF) (C := LC);
}.

Inductive http_method := HTTP_GET | HTTP_POST.
Inductive resource := RootResource | HealthResource | PushResource | PushbinResource | ShellResource | LogResource | OtaResource.

Definition resources : list (cstr * (http_method * resource)) :=
  [(cs "/", (HTTP_GET, RootResource)); (cs "/health", (HTTP_GET, HealthResource)); (cs "/push", (HTTP_POST, PushResource));
   (cs "/pushbin", (HTTP_POST, PushbinResource)); (cs "/shell", (HTTP_POST, ShellResource)); (cs "/log", (HTTP_POST, LogResource));
   (cs "/ota", (HTTP_POST, OtaResource))].

Definition empty_collector : collector := Collector (replicate WEBOS_HTTP_BODY_MAX NUL) 0.

(** The statics when the system starts. *)
Definition initial_server (w : FileService.world) (b : backend) (f : flash) (l : LogBuffer.log_state) : server :=
  let d := SHELL_BACKEND_DUMMY_BUF_SIZE in
  {| root_body := replicate 96 NUL; health_body := replicate 224 NUL; health_status := Health 0 0 0 0 0 0;
     push := Push empty_collector (replicate 96 NUL);
     pushbin := Pushbin (replicate 128 NUL) empty_collector (replicate 96 NUL);
     shell := Shell empty_collector (replicate 256 NUL) (replicate 256 NUL) (replicate (d * 2 + 96) NUL) (replicate (d * 2) NUL) (replicate d NUL);
     ota_response := replicate 96 NUL;
     log := LogStatics empty_collector (replicate WEBOS_HTTP_BODY_MAX NUL) (replicate WEBOS_HTTP_BODY_MAX NUL) (replicate (WEBOS_HTTP_BODY_MAX * 2) NUL);
     files_world := w; shell_world := b; ota_world := Ota.State false f []; log_world := l |}.

Definition webos_health_set (h : webos_health_status) (s : server) : server :=
  Server (root_body s) (health_body s) h (push s) (pushbin s) (shell s) (ota_response s) (log s)
    (files_world s) (shell_world s) (ota_world s) (log_world s).

(** A call of the handler of a resource. *)
Definition serve (x : resource) (st : transaction_status) (r : request_ctx) (s : server) : option response * server :=
  match x with
  | RootResource =>
      let '(a, b) := root_handler st (root_body s) in
      (a, Server b (health_body s) (health_status s) (push s) (pushbin s) (shell s) (ota_response s) (log s)
            (files_world s) (shell_world s) (ota_world s) (log_world s))
  | HealthResource =>
      let '(a, b) := health_handler st (health_status s) (health_body s) in
      (a, Server (root_body s) b (health_status s) (push s) (pushbin s) (shell s) (ota_response s) (log s)
            (files_world s) (shell_world s) (ota_world s) (log_world s))
  | PushResource =>
      let '((a, t), w) := push_handler st r (push s) (files_world s) in
      (a, Server (root_body s) (health_body s) (health_status s) t (pushbin s) (shell s) (ota_response s) (log s)
            w (shell_world s) (ota_world s) (log_world s))
  | PushbinResource =>
      let '((a, t), w) := pushbin_handler st r (pushbin s) (files_world s) in
      (a, Server (root_body s) (health_body s) (health_status s) (push s) t (shell s) (ota_response s) (log s)
            w (shell_world s) (ota_world s) (log_world s))
  | ShellResource =>
      let '((a, t), w) := shell_handler st r (shell s) (shell_world s) in
      (a, Server (root_body s) (health_body s) (health_status s) (push s) (pushbin s) t (ota_response s) (log s)
            (files_world s) w (ota_world s) (log_world s))
  | LogResource =>
      let '((a, t), w) := log_handler st r (log s) (log_world s) in
      (a, Server (root_body s) (health_body s) (health_status s) (push s) (pushbin s) (shell s) (ota_response s) t
            (files_world s) (shell_world s) (ota_world s) w)
  | OtaResource =>
      let '((a, t), w) := ota_handler st r (ota_response s) (ota_world s) in
      (a, Server (root_body s) (health_body s) (health_status s) (push s) (pushbin s) (shell s) t (log s)
            (files_world s) (shell_world s) w (log_world s))
  end.
End server.
End HttpServer.
