(* ===== verification/HttpTransaction.v ===== *)
(** * Transactions of the web interface

    What the handlers that gather a body (push, shell, log) have in common, as
    the interface [BodyHandler]: the static array, the answer 413 and the request
    that is handled once the body is complete.  Whatever the pieces the server
    delivers a body in, the handler answers once, at the end, as a function of
    the whole body. *)

From S2P Require Import Prelude CLib Json LogBuffer ShellExec AppFs FileService HttpServer.
From Stdlib Require Import ZArith Lia.
From Stdlib Require Import Strings.Byte.
From stdpp Require Import base numbers list list_numbers strings.

Module Transaction.
Import HttpServer.

Section handler.
Context {S : Type}.
Abbreviation handler := (transaction_status -> request_ctx -> S -> option response * S).

(** The calls for the pieces of a request, and the answers they give. *)
Fixpoint run_pieces (h : handler) (l : list request_ctx) (s : S) : list (option response) * S :=
  match l with
  | [] => ([], s)
  | r :: l' =>
      let '(a, s) := h HTTP_SERVER_REQUEST_DATA_MORE r s in
      let '(answers, s) := run_pieces h l' s in (a :: answers, s)
  end.

Definition transaction (h : handler) (l : list request_ctx) (r : request_ctx) (s : S) : list (option response) * S :=
  let '(answers, s) := run_pieces h l s in
  let '(a, s) := h HTTP_SERVER_REQUEST_DATA_FINAL r s in (answers ++ [a], s).

(** The body of a request. *)
Definition whole (l : list request_ctx) (r : request_ctx) : list byte := concat (data <$> l) ++ data r.

(** The steps shared by the handlers; [reply] is what they do with a document. *)
Class BodyHandler (h : handler) := {
  incoming : S -> collector;
  set_incoming : collector -> S -> S;
  reply : cstr -> S -> response * S;
  incoming_set c s : incoming (set_incoming c s) = c;
  set_set c c' s : set_incoming c (set_incoming c' s) = set_incoming c s;
  set_same s : set_incoming (incoming s) s = s;
  body_step st r s :
    h st r s =
    if over st then (None, set_incoming (reset_cursor (incoming s)) s)
    else match append_chunk (data r) (incoming s) with
         | None => (Some too_large_response, set_incoming (reset_cursor (incoming s)) s)
         | Some c =>
             if negb (last_data st) then (None, set_incoming c s)
             else
               let c := terminate c in
               let '(a, s) := reply (c_string (buf c)) (set_incoming c s) in (Some a, s)
         end;
}.
End handler.
Arguments transaction {S} h l r s.

(** ** The array of the body *)

(** The collector has received the bytes [b]. *)
Record received (c : collector) (b : list byte) : Prop := {
  received_size : length (buf c) = WEBOS_HTTP_BODY_MAX;
  received_cursor : cursor c = length b;
  received_bytes : take (length b) (buf c) = b;
  received_room : length b < WEBOS_HTTP_BODY_MAX;
}.

Definition idle (c : collector) : Prop := received c [].

Lemma idle_intro c : length (buf c) = WEBOS_HTTP_BODY_MAX -> cursor c = 0 -> idle c.
Proof. intros Hl Hc. split; [done|done|by rewrite take_0|unfold WEBOS_HTTP_BODY_MAX; simpl; lia]. Qed.

Lemma reset_idle c b : received c b -> idle (reset_cursor c).
Proof. intros [Hl _ _ _]. by apply idle_intro. Qed.

Lemma append_received c b d :
  received c b ->
  if decide (length (b ++ d) < WEBOS_HTTP_BODY_MAX)
  then exists c', append_chunk d c = Some c' /\ received c' (b ++ d)
  else append_chunk d c = None.
Proof.
  intros [Hl Hc Hb Hr]. unfold append_chunk. rewrite Hc, length_app. case_decide as Hd.
  - rewrite decide_False by lia. eexists. split; [done|]. split; cbn; [arr|by rewrite length_app| |by rewrite length_app].
    rewrite length_app, take_write_at by lia. by rewrite Hb.
  - by rewrite decide_True by lia.
Qed.

Lemma terminate_received c b :
  received c b -> idle (terminate c) /\ c_string (buf (terminate c)) = c_string b.
Proof.
  intros [Hl Hc Hb Hr]. unfold terminate. rewrite Hc. split; [apply idle_intro; cbn; [arr|done]|].
  cbn. unfold write_at. rewrite Hb. apply c_string_stop.
Qed.

(** ** A transaction *)

Section laws.
Context {S : Type} {h : transaction_status -> request_ctx -> S -> option response * S} {BH : BodyHandler h}.

Lemma run_pieces_receives l b s :
  received (incoming s) b -> length (b ++ concat (data <$> l)) < WEBOS_HTTP_BODY_MAX ->
  exists c, run_pieces h l s = (replicate (length l) None, set_incoming c s) /\ received c (b ++ concat (data <$> l)).
Proof.
  revert b s. induction l as [|r l IH]; intros b s Hs Hl.
  { exists (incoming s). cbn. rewrite set_same, app_nil_r. done. }
  cbn [run_pieces]. rewrite body_step. change (over _) with false. change (last_data _) with false. cbv iota.
  rewrite fmap_cons in Hl |- *. cbn [concat] in Hl |- *. rewrite app_assoc in Hl |- *.
  pose proof (append_received (incoming s) b (data r) Hs) as Ha. rewrite decide_True in Ha by (rewrite length_app in Hl; lia).
  destruct Ha as (c & -> & Hc). cbn [negb].
  destruct (IH (b ++ data r) (set_incoming c s)) as (c' & -> & Hc'); [by rewrite incoming_set|done|].
  exists c'. by rewrite set_set.
Qed.

(** Whatever the pieces, a body that fits is answered once, at the end, from its
    text alone, and the handler is idle again. *)
Lemma transaction_whole l r s :
  idle (incoming s) -> length (whole l r) < WEBOS_HTTP_BODY_MAX ->
  exists c, idle c
    /\ transaction h l r s
       = (let '(a, s) := reply (c_string (whole l r)) (set_incoming c s) in (replicate (length l) None ++ [Some a], s)).
Proof.
  unfold whole. intros Hs Hl. unfold transaction.
  destruct (run_pieces_receives l [] s Hs) as (c & -> & Hc); [rewrite length_app in Hl; cbn [app]; lia|].
  cbn [app] in Hc. rewrite body_step, incoming_set. change (over _) with false. change (last_data _) with true. cbv iota.
  pose proof (append_received c _ (data r) Hc) as Ha. rewrite decide_True in Ha by done.
  destruct Ha as (c' & -> & Hc'). cbn [negb].
  destruct (terminate_received c' _ Hc') as [Hi Hstr]. exists (terminate c'). split; [done|].
  rewrite set_set, Hstr. by destruct (reply _ _).
Qed.

(** A piece that makes the body too long is answered 413 and nothing of it is
    kept: what the server delivers next starts a body of its own. *)
Lemma piece_too_large r b s st :
  received (incoming s) b -> over st = false -> WEBOS_HTTP_BODY_MAX <= length (b ++ data r) ->
  h st r s = (Some too_large_response, set_incoming (reset_cursor (incoming s)) s) /\ idle (reset_cursor (incoming s)).
Proof.
  intros Hs Ho Hl. rewrite body_step, Ho. pose proof (append_received (incoming s) b (data r) Hs) as Ha.
  rewrite decide_False in Ha by lia. rewrite Ha. split; [done|]. by apply (reset_idle _ b).
Qed.

(** The end of a transaction, whatever became of it, leaves the handler idle. *)
Lemma over_idle r b s st :
  received (incoming s) b -> over st = true ->
  h st r s = (None, set_incoming (reset_cursor (incoming s)) s) /\ idle (reset_cursor (incoming s)).
Proof. intros Hs Ho. rewrite body_step, Ho. split; [done|]. by apply (reset_idle _ b). Qed.
End laws.

(** ** The handlers *)

(** A handler on the pair of its statics and of what it works on. *)
Definition on_pair {A W} (h : transaction_status -> request_ctx -> A -> W -> (option response * A) * W)
    (st : transaction_status) (r : request_ctx) (s : A * W) : option response * (A * W) :=
  let '((answer, a), w) := h st r s.1 s.2 in (answer, (a, w)).

#[global, program] Instance push_body {F : AppFs} {U : Uninit} : BodyHandler (on_pair push_handler) := {|
  incoming s := push_in s.1;
  set_incoming c s := (Push c (push_response s.1), s.2);
  reply d s := let '((answer, array), w) := push_request d (push_response s.1) s.2 in (answer, (Push (push_in s.1) array, w));
|}.
Next Obligation. done. Qed.
Next Obligation. done. Qed.
Next Obligation. by intros F U [[c a] w]. Qed.
Next Obligation.
  intros F U st r [[c a] w]. unfold on_pair, push_handler. cbn. destruct (over st); [done|].
  destruct (append_chunk (data r) c) as [c'|]; [|done]. destruct (negb (last_data st)); [done|]. cbn.
  by destruct (push_request _ _ _) as [[answer array] w'].
Qed.

#[global, program] Instance shell_body {B : ShellBackend} {D : DummyConfig} : BodyHandler (on_pair shell_handler) := {|
  incoming s := shell_in s.1;
  set_incoming c s := (set_shell_in c s.1, s.2);
  reply d s := let '((ret, len, t), b) := shell_run d s.1 s.2 in let '(answer, t) := shell_answer d ret len t in (answer, (t, b));
|}.
Next Obligation. done. Qed.
Next Obligation. done. Qed.
Next Obligation. by intros B D [[] b]. Qed.
Next Obligation.
  intros B D st r [t b]. unfold on_pair, shell_handler. cbn [fst snd]. destruct (over st); [done|].
  destruct (append_chunk (data r) (shell_in t)) as [c'|]; [|done]. destruct (negb (last_data st)); [done|]. cbn [fst snd].
  destruct (shell_run _ _ _) as [[[ret len] t'] b']. by destruct (shell_answer _ _ _ _).
Qed.

#[global, program] Instance log_body `{LogConfig} {LF LC} `{EqDecision LF, EqDecision LC} :
  BodyHandler (on_pair (log_handler (LF := LF) (LC := LC))) := {|
  incoming s := log_in s.1;
  set_incoming c s := (set_log_in c s.1, s.2);
  reply d s := let '((answer, t), l) := log_request d s.1 s.2 in (answer, (t, l));
|}.
Next Obligation. done. Qed.
Next Obligation. done. Qed.
Next Obligation. by intros ?????[[] l]. Qed.
Next Obligation.
  intros ????? st r [t l]. unfold on_pair, log_handler. cbn [fst snd]. destruct (over st); [done|].
  destruct (append_chunk (data r) (log_in t)) as [c'|]; [|done]. destruct (negb (last_data st)); [done|]. cbn [fst snd].
  by destruct (log_request _ _ _) as [[answer t'] l'].
Qed.
End Transaction.
