(* ===== verification/HttpServerInv.v ===== *)
(** * The buffers of the web interface

    The invariant of the static variables of the HTTP handlers, for every
    sequence of calls of the server: all arrays keep their sizes - no copy leaves
    one -, the bodies are within their arrays, the strings the answers are
    formatted from are terminated, the log buffer and the update session are well
    formed. *)

From S2P Require Import Prelude CLib Json Ring LogBuffer ShellExec AppFs FileService Ota HttpServer HttpTransaction.
From Stdlib Require Import ZArith Lia.
From Stdlib Require Import Strings.Byte.
From stdpp Require Import base numbers list list_numbers strings.

Module ServerInv.
Import HttpServer Transaction.

(** ** Formatting *)

Lemma length_snprintk a text : 0 < length a -> length (snprintk a text).2 = length a.
Proof. intros Ha. unfold snprintk. cbn [snd]. apply length_write_at. rewrite length_app, length_take. simpl. lia. Qed.

(** Names the text and the array of a formatting, and its size. *)
Ltac destruct_snprintk :=
  match goal with
  | |- context [snprintk ?a ?t] =>
      let H := fresh "Hprint" in
      pose proof (length_snprintk a t) as H; destruct (snprintk a t) as [?len ?array]; cbn in H |- *
  end.

(** The text is in the array when it is shorter than it. *)
Lemma snprintk_text a text : length text < length a -> take (length text) (snprintk a text).2 = text.
Proof.
  intros Ha. unfold snprintk. cbn [snd]. unfold write_at. rewrite take_0, (take_ge text) by lia. cbn [app].
  rewrite <- app_assoc. apply take_app_length.
Qed.

Lemma c_string_bound a i : a !! i = Some NUL -> length (c_string a) <= i.
Proof.
  intros Hi. assert (i < length a) as Hlt by (by eapply lookup_lt_Some).
  rewrite <- (take_drop_middle a i NUL Hi), c_string_stop.
  etransitivity; [apply length_c_string|]. rewrite length_take. lia.
Qed.

(** ** Escaping *)

(** The last byte of the destination stays the NUL it is. *)
Lemma append_loop_last src dst pos n :
  length dst = n -> pos < n -> dst !! (n - 1) = Some NUL -> (Json.append_loop dst pos n src).2 !! (n - 1) = Some NUL.
Proof.
  revert dst pos. induction src as [|c src IH]; intros dst pos Hd Hp Hl; cbn [Json.append_loop].
  { destruct (decide (pos = n - 1)) as [->|]; cbn [snd].
    - rewrite lookup_write_at_new by (simpl; lia). by rewrite Nat.sub_diag.
    - rewrite lookup_write_at_old by (simpl; lia). done. }
  assert (forall a off x, length a = n -> off + 1 < n -> a !! (n - 1) = Some NUL ->
            length (write_at a off [x]) = n /\ write_at a off [x] !! (n - 1) = Some NUL) as Hw.
  { intros a off x Ha Ho Hn. split; [arr|]. rewrite lookup_write_at_old by (simpl; lia). done. }
  case_decide; cbn [snd].
  2: { destruct (decide (pos = n - 1)) as [->|]; [|lia]. rewrite lookup_write_at_new by (simpl; lia). by rewrite Nat.sub_diag. }
  destruct (Json.short_escape c) as [e|].
  - case_decide; [done|]. destruct (Hw dst pos backslash Hd ltac:(lia) Hl) as [H1 H2].
    destruct (Hw _ (pos + 1) e H1 ltac:(lia) H2) as [H3 H4]. apply IH; [done|lia|done].
  - case_decide.
    + case_decide; [done|]. change (length (Json.unicode_escape c)) with 6. rewrite decide_False by lia.
      rewrite take_ge by (simpl; lia). apply IH; [arr|lia|]. destruct (decide (pos + 6 = n - 1)) as [E|].
      * rewrite lookup_write_at_new by (rewrite ?length_app; simpl; lia). rewrite <- E.
        replace (pos + 6 - pos) with 6 by lia. done.
      * rewrite lookup_write_at_old by (rewrite ?length_app; simpl; lia). done.
    + destruct (Hw dst pos c Hd ltac:(lia) Hl) as [H1 H2]. apply IH; [done|lia|done].
Qed.

(** A destination for escaped text: its size, and the NUL at its end. *)
Definition escape_buffer (n : nat) (a : list byte) : Prop := length a = n /\ a !! (n - 1) = Some NUL.

Lemma append_json_buffer n a src pos a' :
  0 < n -> escape_buffer n a -> Json.append_json_string a (length a) src = (pos, a') -> escape_buffer n a'.
Proof.
  intros Hn [Hl Hz] E. rewrite Hl in E. split.
  - destruct (Json.append_loop_spec a 0 n src Hl Hn) as (k & d & _ & E' & Hd & _).
    unfold Json.append_json_string in E. rewrite E' in E. by injection E as _ <-.
  - pose proof (append_loop_last src a 0 n Hl Hn Hz) as H. unfold Json.append_json_string in E. by rewrite E in H.
Qed.

(** ** The invariant *)

Definition partial (c : collector) : Prop := exists b, received c b.

Definition push_ok (s : push_statics) : Prop := partial (push_in s) /\ length (push_response s) = 96.

Record pushbin_ok (s : pushbin_statics) : Prop := {
  bin_path_buffer : escape_buffer 128 (bin_path s);
  bin_partial : partial (bin_in s);
  bin_response_size : length (bin_response s) = 96;
}.

Section shell.
Context {B : ShellBackend} {D : DummyConfig}.

Record shell_ok (s : shell_statics) : Prop := {
  shell_partial : partial (shell_in s);
  shell_cmd_size : length (shell_cmd s) = 256;
  shell_input_size : length (shell_input s) = 256;
  shell_response_size : length (shell_response s) = SHELL_BACKEND_DUMMY_BUF_SIZE * 2 + 96;
  shell_escaped_buffer : escape_buffer (SHELL_BACKEND_DUMMY_BUF_SIZE * 2) (shell_escaped s);
  shell_output_size : length (shell_output s) = SHELL_BACKEND_DUMMY_BUF_SIZE;
}.
End shell.

Record log_statics_ok (s : log_statics) : Prop := {
  log_partial : partial (log_in s);
  log_response_size : length (log_response s) = WEBOS_HTTP_BODY_MAX;
  log_messages_size : length (log_messages s) = WEBOS_HTTP_BODY_MAX;
  log_escaped_buffer : escape_buffer (WEBOS_HTTP_BODY_MAX * 2) (log_escaped s);
}.

(** ** Bodies *)

Lemma partial_reset c : partial c -> partial (reset_cursor c).
Proof. intros [b Hb]. exists []. by apply (reset_idle _ b). Qed.

Lemma partial_append c d c' : partial c -> append_chunk d c = Some c' -> partial c'.
Proof.
  intros [b Hb] E. pose proof (append_received c b d Hb) as H. case_decide; [|congruence].
  destruct H as (x & Hx & Hr). rewrite Hx in E. injection E as <-. by exists (b ++ d).
Qed.

Lemma partial_terminate c : partial c -> partial (terminate c).
Proof. intros [b Hb]. exists []. by apply (terminate_received c b). Qed.

Lemma json_get_string_size doc key a n : length a = n -> 0 < n -> length (Json.json_get_string doc key a n).2 = n.
Proof. intros <- Hn. by apply Json.json_get_string_in_bounds. Qed.

#[local] Hint Resolve partial_reset partial_append partial_terminate : core.

(** A handler of the class keeps an invariant of its state when its replies do. *)
Lemma body_handler_keeps {S} (h : transaction_status -> request_ctx -> S -> option response * S) `{!BodyHandler h} (P : S -> Prop) :
  (forall c s, P s -> partial c -> P (set_incoming c s)) -> (forall s, P s -> partial (incoming s)) ->
  (forall d s, P s -> P (reply d s).2) ->
  forall st r s, P s -> P (h st r s).2.
Proof.
  intros Hset Hin Hreply st r s Hs. rewrite body_step. destruct (over st); [by apply Hset; auto|].
  destruct (append_chunk (data r) (incoming s)) as [c|] eqn:E; [|by apply Hset; auto].
  assert (partial c) as Hc by eauto. destruct (negb (last_data st)); [by apply Hset|].
  cbn. pose proof (Hreply (c_string (buf (terminate c))) (set_incoming (terminate c) s)) as Hr.
  destruct (reply _ _) as [a s']. apply Hr. by apply Hset; auto.
Qed.

Lemma on_pair_keeps {A W} (h : transaction_status -> request_ctx -> A -> W -> (option response * A) * W)
    `{!BodyHandler (on_pair h)} (P : A * W -> Prop) :
  (forall c s, P s -> partial c -> P (set_incoming c s)) -> (forall s, P s -> partial (incoming s)) ->
  (forall d s, P s -> P (reply d s).2) ->
  forall st r a w, P (a, w) -> P ((h st r a w).1.2, (h st r a w).2).
Proof.
  intros H1 H2 H3 st r a w Hs. pose proof (body_handler_keeps (on_pair h) P H1 H2 H3 st r (a, w) Hs) as H.
  revert H. unfold on_pair. cbn [fst snd]. by destruct (h st r a w) as [[x a'] w'].
Qed.

(** ** The handlers keep it *)

Section push.
Context {F : AppFs} {U : Uninit}.

Lemma push_request_size d a w : 0 < length a -> length (push_request d a w).1.2 = length a.
Proof.
  intros Ha. unfold push_request. destruct (Json.json_get_string _ _ _ _) as [r1 path].
  destruct (if decide (r1 = 0%Z) then _ else _) as [r2 file]. destruct (if decide (r2 = 0%Z) then _ else _) as [r3 w'].
  case_decide; cbn; apply (length_snprintk a _ Ha).
Qed.

Lemma push_keeps st r s w : push_ok s -> push_ok (push_handler st r s w).1.2.
Proof.
  intros Hs. apply (on_pair_keeps push_handler (fun x => push_ok x.1)); [..|exact Hs]; clear.
  - intros c x [_ Hx] Hc. by split.
  - by intros x [Hx _].
  - intros d [[c a] w] [Hc Ha]. cbn in Hc, Ha |- *. pose proof (push_request_size d a w ltac:(lia)) as Hr.
    destruct (push_request d a w) as [[answer array] w']. cbn in Hr |- *. split; [done|]. cbn. lia.
Qed.

Lemma copy_header_buffer p v : escape_buffer 128 p -> escape_buffer 128 (copy_header p v).
Proof.
  intros [Hl Hz]. unfold copy_header. rewrite Hl. cbn [Nat.sub].
  assert (length (write_at p 0 (take 127 v ++ replicate (127 - length v) NUL)) = 128) as Hw.
  { rewrite length_write_at; [done|]. rewrite length_app, length_take, length_replicate. lia. }
  split; [arr|]. rewrite lookup_write_at_new by (rewrite ?Hw; simpl; lia). done.
Qed.

Lemma scan_headers_buffer l p : escape_buffer 128 p -> escape_buffer 128 (scan_headers l p).
Proof.
  intros Hp. induction l as [|[n v] l IH]; [done|]. cbn. destruct n as [n|], v as [v|]; try done.
  case_decide; [by apply copy_header_buffer|done].
Qed.

Lemma clear_path_buffer p : escape_buffer 128 p -> escape_buffer 128 (clear_path p).
Proof.
  intros [Hl Hz]. unfold clear_path. split; [arr|]. rewrite lookup_write_at_old by (simpl; lia). done.
Qed.

Lemma take_path_ok s : pushbin_ok s ->
  match take_path s with inl (_, s') => pushbin_ok s' | inr s' => pushbin_ok s' end.
Proof.
  intros [Hp Hb Hr]. unfold take_path. cbv zeta. destruct (strchr _ newline) as [n|] eqn:E; [|by split; cbn; auto].
  case_decide as Hn; [by split; cbn; auto|]. apply strchr_Some in E as (_ & _ & Hlt). rewrite length_take in Hlt.
  destruct Hp as [Hl Hz]. destruct Hb as [b [H1 H2 H3 H4]]. split; cbn; [|by exists (take (cursor (bin_in s) - n - 1) (drop (n + 1) (buf (bin_in s))));
    split; cbn; rewrite ?length_take, ?length_drop; [arr|lia|unfold write_at; rewrite take_0, app_nil_l; apply take_app_length'; rewrite length_take, length_drop; lia|lia]|done].
  assert (length (write_at (bin_path s) 0 (take n (buf (bin_in s)))) = 128) as Hw by arr.
  split; [arr|]. destruct (decide (n = 127)) as [->|].
  - rewrite lookup_write_at_new by (simpl; lia). done.
  - rewrite lookup_write_at_old by (simpl; lia). rewrite lookup_write_at_old by (rewrite ?length_take; lia). done.
Qed.

Lemma pushbin_write_ok s w : pushbin_ok s -> pushbin_ok (pushbin_write s w).1.2.
Proof.
  intros [Hp Hb Hr]. unfold pushbin_write. destruct (FileService.write_file_bin _ _ w) as [ret w'].
  case_decide; [|by split; cbn; auto using clear_path_buffer]. split; cbn; [by apply clear_path_buffer|by apply partial_reset|].
  destruct_snprintk. lia.
Qed.

Lemma pushbin_keeps st r s w : pushbin_ok s -> pushbin_ok (pushbin_handler st r s w).1.2.
Proof.
  intros [Hp Hb Hr]. unfold pushbin_handler. destruct (over st); [by split; cbn; auto using clear_path_buffer|]. cbv zeta.
  set (path := if path_empty (bin_path s) then _ else _). assert (escape_buffer 128 path) as Hpath.
  { subst path. destruct (path_empty _); [|done]. destruct (headers r); [by apply scan_headers_buffer|done]. }
  destruct (append_chunk _ _) as [c|] eqn:E; [|by split; cbn; auto using clear_path_buffer].
  assert (pushbin_ok (Pushbin path c (bin_response s))) as Hs by (split; cbn; eauto).
  destruct (negb _); [done|]. destruct (path_empty path); [|by apply pushbin_write_ok].
  pose proof (take_path_ok _ Hs) as Ht. destruct (take_path _) as [[a s']|s']; [done|by apply pushbin_write_ok].
Qed.
End push.

Section shell_handler.
Context {B : ShellBackend} {D : DummyConfig}.

(** What the shell stores fits, with its NUL. *)
Lemma execute_fits c b : forall out t, captured (ShellExecutor.execute c SHELL_BACKEND_DUMMY_BUF_SIZE b).1 = Some (out, t) ->
  length out < SHELL_BACKEND_DUMMY_BUF_SIZE.
Proof.
  intros out t H. pose proof (execute_in_bounds c SHELL_BACKEND_DUMMY_BUF_SIZE b out t H). lia.
Qed.

Lemma push_input_fits c b : forall out t,
  captured (ShellExecutor.webos_shell_push_input c SHELL_BACKEND_DUMMY_BUF_SIZE b).1 = Some (out, t) ->
  length out < SHELL_BACKEND_DUMMY_BUF_SIZE.
Proof.
  intros out t. unfold ShellExecutor.webos_shell_push_input. case_decide as Hc; [done|].
  destruct (shell_try_lock b) as [ret b1]. case_decide; [done|]. destruct (shell_backend_dummy_push_input _ _) as [ret2 b2].
  pose proof (ShellExecutor.copy_output_bounds _ b2 Hc) as Hb. destruct (ShellExecutor.copy_output _ b2) as [[o u] b3].
  cbn in *. intros [= <- <-]. lia.
Qed.

Lemma store_output_size r a :
  length a = SHELL_BACKEND_DUMMY_BUF_SIZE ->
  (forall out t, captured r = Some (out, t) -> length out < SHELL_BACKEND_DUMMY_BUF_SIZE) ->
  length (store_output r a).1 = SHELL_BACKEND_DUMMY_BUF_SIZE.
Proof.
  intros Ha Hr. unfold store_output. destruct (captured r) as [[out t]|]; [|done]. specialize (Hr _ _ eq_refl). cbn. arr.
Qed.

Lemma shell_run_ok d s b : shell_ok s -> shell_ok (shell_run d s b).1.2.
Proof.
  pose proof dummy_buf_size_positive as HD. intros []. unfold shell_run. destruct (Json.json_has_key d (cs "cmd")); [|destruct (Json.json_has_key d (cs "input"))].
  - pose proof (json_get_string_size d (cs "cmd") (shell_cmd s) 256 ltac:(done) ltac:(lia)) as Hj.
    destruct (Json.json_get_string _ _ _ _) as [ret cmd]. case_decide; [|by split].
    pose proof (execute_fits (c_string cmd) b) as He. destruct (ShellExecutor.execute _ _ b) as [r b'].
    pose proof (store_output_size r (shell_output s) ltac:(done) He) as Hs. destruct (store_output _ _) as [output len]. by split.
  - pose proof (json_get_string_size d (cs "input") (shell_input s) 256 ltac:(done) ltac:(lia)) as Hj.
    destruct (Json.json_get_string _ _ _ _) as [ret input]. case_decide; [|by split].
    pose proof (push_input_fits (c_string input) b) as He. destruct (ShellExecutor.webos_shell_push_input _ _ b) as [r b'].
    pose proof (store_output_size r (shell_output s) ltac:(done) He) as Hs. destruct (store_output _ _) as [output len]. by split.
  - split; cbn; try done. arr.
Qed.

Lemma shell_answer_ok d ret len s : shell_ok s -> shell_ok (shell_answer d ret len s).2.
Proof.
  pose proof dummy_buf_size_positive as HD. intros []. unfold shell_answer. destruct (Json.append_json_string _ _ _) as [pos esc] eqn:E.
  pose proof (append_json_buffer (SHELL_BACKEND_DUMMY_BUF_SIZE * 2) _ _ _ _ ltac:(lia) ltac:(done) E) as He.
  split; cbn; try done; destruct_snprintk; first [done|lia].
Qed.

Lemma shell_keeps st r s b : shell_ok s -> shell_ok (shell_handler st r s b).1.2.
Proof.
  intros Hs. apply (on_pair_keeps shell_handler (fun x => shell_ok x.1)); [..|exact Hs]; clear.
  - intros c x [] Hc. by split.
  - by intros x [].
  - intros d [s b] Hs. cbn in Hs |- *. pose proof (shell_run_ok d s b Hs) as Hr.
    destruct (shell_run d s b) as [[[ret len] t] b']. cbn in Hr. pose proof (shell_answer_ok d ret len t Hr) as Ha.
    destruct (shell_answer d ret len t). done.
Qed.
End shell_handler.

Section log_handler.
Context `{LogConfig} {LF LC : Type} `{EqDecision LF, EqDecision LC}.
Implicit Type l : LogBuffer.log_state (F := LF) (C := LC).

Lemma log_request_ok d s l : log_statics_ok s /\ LogBuffer.log_ok l ->
  log_statics_ok (log_request d s l).1.2 /\ LogBuffer.log_ok (log_request d s l).2.
Proof.
  intros [[Hc Hr Hm He] Hl]. unfold log_request. unfold LogBuffer.log_buffer_read.
  pose proof (LogBuffer.copy_log_spec l (log_messages s) Hl) as Hcopy. rewrite Hcopy by (intros E; rewrite E in Hm; done).
  set (n := _ `min` _). cbn [default]. set (messages := take n _ ++ _).
  assert (length messages = WEBOS_HTTP_BODY_MAX) as Hlen.
  { subst messages. rewrite !length_app, length_take, length_drop. subst n. unfold WEBOS_HTTP_BODY_MAX in *. simpl. lia. }
  destruct (Json.append_json_string _ _ _) as [pos esc] eqn:E.
  pose proof (append_json_buffer (WEBOS_HTTP_BODY_MAX * 2) _ _ _ _ ltac:(unfold WEBOS_HTTP_BODY_MAX; lia) He E) as He'.
  destruct_snprintk. rewrite Hr in Hprint. split; [split; cbn; try done; apply Hprint; unfold WEBOS_HTTP_BODY_MAX; lia|].
  destruct (Json.json_has_key _ _); [|done]. destruct Hl as [[H1 H2 H3] Hcap]. split; [split; cbn in *; try lia; done|done].
Qed.

Lemma log_keeps st r s l : log_statics_ok s /\ LogBuffer.log_ok l ->
  log_statics_ok (log_handler st r s l).1.2 /\ LogBuffer.log_ok (log_handler st r s l).2.
Proof.
  intros Hs. apply (on_pair_keeps (log_handler (LF := LF) (LC := LC)) (fun x => log_statics_ok x.1 /\ LogBuffer.log_ok x.2));
    [..|exact Hs]; clear.
  - intros c x [[] Hl] Hc. by split; [split|].
  - by intros x [[] _].
  - intros d [s l] Hs. cbn in Hs |- *. pose proof (log_request_ok d s l Hs) as Hr.
    destruct (log_request d s l) as [[answer t] l']. done.
Qed.
End log_handler.

Section ota_handler.
Context {G : FlashImg}.

(** The update session is sound again at the end of every call: a write that
    failed is followed by the abort. *)
Lemma ota_keeps st r a o : 0 < length a -> Ota.ota_ok o ->
  length (ota_handler st r a o).1.2 = length a /\ Ota.ota_ok (ota_handler st r a o).2.
Proof.
  intros Ha Ho. assert (forall ret o, Ota.ota_ok o -> length (ota_error ret a o).1.2 = length a /\ Ota.ota_ok (ota_error ret a o).2) as He.
  { intros ret o' Ho'. split; [apply (length_snprintk a _ Ha)|done]. }
  assert (Ota.ota_ok (Ota.ota_abort o)) as Hab by (apply Ota.abort_ok, Ho).
  unfold ota_handler. destruct st; [by split| | |by split]; clear Hab.
  all: destruct (Ota.ota_begin o) as [ret o1] eqn:E1; destruct (Ota.begin_ok _ _ _ Ho E1) as [Ho1 Hact];
    case_decide as Hret; [by apply He|]; subst ret; specialize (Hact eq_refl).
  all: destruct (if decide (0 < length (data r)) then _ else _) as [ret o2] eqn:E2.
  all: assert (Ota.upgrades_justified (Ota.calls o2) /\ (ret = 0%Z -> Ota.ota_ok o2 /\ Ota.ota_active o2 = true)) as [Hj2 Ho2];
    [revert E2; case_decide; [by apply Ota.write_ok|intros [= <- <-]; split; [by apply Ho1|done]]|].
  - rewrite !(decide_False (P := ret = 0%Z /\ _)) by (intros [_ Hl]; discriminate Hl).
    destruct (decide (ret = 0%Z)) as [Hr|Hr].
    + rewrite !(decide_False (P := ret <> 0%Z)) by lia. split; [done|]. by apply Ho2.
    + rewrite !(decide_True (P := ret <> 0%Z)) by lia. by apply He, Ota.abort_ok.
  - destruct (decide (ret = 0%Z)) as [Hr|Hr].
    + rewrite !(decide_True (P := ret = 0%Z /\ _)) by done. destruct (Ho2 Hr) as [Ho2' Ha2].
      destruct (Ota.ota_finish o2) as [[ret' written] o3] eqn:E3. destruct (Ota.finish_ok _ _ _ Ho2' Ha2 E3) as [Ho3 _].
      destruct (decide (ret' = 0%Z)); [|by apply He]. split; [|done]. destruct_snprintk. by apply Hprint.
    + rewrite !(decide_False (P := ret = 0%Z /\ _)) by (by intros [Hl _]). rewrite !(decide_True (P := ret <> 0%Z)) by lia.
      by apply He, Ota.abort_ok.
Qed.
End ota_handler.

(** ** The whole server *)

Section server.
Context {F : AppFs} {U : Uninit} {B : ShellBackend} {D : DummyConfig} {G : FlashImg} {V : AppVersion}.
Context `{LogConfig} {LF LC : Type} `{EqDecision LF, EqDecision LC}.
Abbreviation server := (server (LF := LF) (LC := LC)).

(** Every array has the size it is declared with, what is gathered is within it,
    texts end with a NUL, and the log and the update session are well formed. *)
Record buffers_safe (s : server) : Prop := {
  safe_root : length (root_body s) = 96;
  safe_health : length (health_body s) = 224;
  safe_push : push_ok (push s);
  safe_pushbin : pushbin_ok (pushbin s);
  safe_shell : shell_ok (shell s);
  safe_ota_response : length (ota_response s) = 96;
  safe_log : log_statics_ok (log s) /\ LogBuffer.log_ok (log_world s);
  safe_ota : Ota.ota_ok (ota_world s);
}.

(** What happens to the statics: calls of the handlers, in any order, with any
    data and headers, the health status set at the start, messages logged, and
    other threads at work on the files and on the shell. *)
Inductive server_step : server -> server -> Prop :=
| step_serve x st r s : server_step s (serve x st r s).2
| step_health h s : server_step s (webos_health_set h s)
| step_others m w b s :
    server_step s (Server (root_body s) (health_body s) (health_status s) (push s) (pushbin s) (shell s) (ota_response s) (log s)
                     w b (ota_world s) (LogBuffer.log_buffer_put (log_world s) m).1).

Inductive server_reachable : server -> Prop :=
| reach_initial w b f l : LogBuffer.log_ok l -> server_reachable (initial_server w b f l)
| reach_step s s' : server_reachable s -> server_step s s' -> server_reachable s'.

Lemma initial_safe w b f l : LogBuffer.log_ok l -> buffers_safe (initial_server w b f l).
Proof.
  intros Hl. pose proof dummy_buf_size_positive as HD.
  assert (partial empty_collector) as Hc by (exists []; by apply idle_intro).
  assert (forall n, 0 < n -> escape_buffer n (replicate n NUL)) as He.
  { intros n Hn. split; [apply length_replicate|]. apply lookup_replicate. split; [done|lia]. }
  split; cbn -[replicate]; try apply length_replicate.
  - split; [done|apply length_replicate].
  - split; cbn -[replicate]; [apply He; lia|done|apply length_replicate].
  - split; cbn -[replicate]; try apply length_replicate; [done|apply He; lia].
  - split; [|done]. split; cbn -[replicate]; try apply length_replicate; [done|apply He; unfold WEBOS_HTTP_BODY_MAX; lia].
  - split; [|done]. intros [|] ?? [=].
Qed.

Lemma serve_safe x st r s : buffers_safe s -> buffers_safe (serve x st r s).2.
Proof.
  intros []. destruct x; unfold serve.
  - unfold root_handler. destruct (last_data st); [|by split]. destruct_snprintk. specialize (Hprint ltac:(lia)). split; try done; cbn; lia.
  - unfold health_handler. destruct (last_data st); [|by split]. destruct_snprintk. specialize (Hprint ltac:(lia)). split; try done; cbn; lia.
  - pose proof (push_keeps st r (push s) (files_world s) ltac:(done)) as Hk.
    destruct (push_handler _ _ _ _) as [[a t] w]. by split.
  - pose proof (pushbin_keeps st r (pushbin s) (files_world s) ltac:(done)) as Hk.
    destruct (pushbin_handler _ _ _ _) as [[a t] w]. by split.
  - pose proof (shell_keeps st r (shell s) (shell_world s) ltac:(done)) as Hk.
    destruct (shell_handler _ _ _ _) as [[a t] w]. by split.
  - pose proof (log_keeps st r (log s) (log_world s) ltac:(done)) as Hk.
    destruct (log_handler _ _ _ _) as [[a t] w]. by split.
  - pose proof (ota_keeps st r (ota_response s) (ota_world s) ltac:(lia) ltac:(done)) as [Hl Ho].
    destruct (ota_handler _ _ _ _) as [[a t] w]. split; try done; cbn in *; lia.
Qed.

Lemma reachable_safe s : server_reachable s -> buffers_safe s.
Proof.
  induction 1 as [w b f l Hl|s s' _ IH Hs]; [by apply initial_safe|].
  destruct Hs as [x st r s|h s|m w b s]; [by apply serve_safe|by destruct IH; split|].
  destruct IH. split; try done. split; [apply safe_log0|]. destruct m as [m|]; [|apply safe_log0].
  apply LogBuffer.put_some, safe_log0.
Qed.

(** C32: in every state the web interface reaches, whatever requests, pieces and
    headers the server delivers and whatever the other threads do, every static
    array still has its size (no copy has left it), the gathered bodies are within
    their arrays, the texts formatted into answers end with a NUL, and the log
    buffer and the update session are well formed. *)
Theorem http_buffers_safe s : server_reachable s -> buffers_safe s.
Proof. apply reachable_safe. Qed.

(** C33: every upgrade the bootloader is asked for follows, with nothing in
    between, an initialisation of the flash writer that worked and writes that all
    worked: no upgrade is requested after a write that failed, without a session,
    or twice for one session. *)
Theorem ota_upgrade_justified s pre ret post :
  server_reachable s -> Ota.calls (ota_world s) = pre ++ Ota.CallUpgrade ret :: post ->
  exists before ws, pre = before ++ Ota.CallInit 0 :: ws /\ Forall Ota.write_done ws.
Proof.
  intros Hs E. destruct (reachable_safe s Hs) as [_ _ _ _ _ _ _ [Hj _]]. by apply (Hj _ _ _ E).
Qed.
End server.
End ServerInv.
