(* ===== verification/HttpServerSpec.v ===== *)
(** * What the web interface answers

    For each resource, what a whole transaction does and answers as a function of
    the body, however the server cuts it into pieces: the file that is written,
    the command that is run, the log that is returned, the image that is
    installed.  [sent] is what goes over the network, [None] when the length the
    handler sets is longer than the array it formatted the answer into. *)

From S2P Require Import Prelude CLib Json Ring LogBuffer ShellExec AppFs FileService Ota HttpServer HttpTransaction HttpServerInv.
From Stdlib Require Import ZArith Lia.
From Stdlib Require Import Strings.Byte.
From stdpp Require Import base numbers list list_numbers strings.

Module ServerSpec.
Import HttpServer Transaction ServerInv.

Definition sent (a : response) : option (list byte) :=
  if decide (body_len a <= length (body a)) then Some (take (body_len a) (body a)) else None.

(** What is sent of a text formatted into an array of [n] bytes: the text, the
    text with a NUL in place of its last byte, or bytes behind the array. *)
Definition printed (n : nat) (text : cstr) : option (list byte) :=
  if decide (length text < n) then Some text
  else if decide (length text = n) then Some (take (n - 1) text ++ [NUL]) else None.

Lemma snprintk_sent st a text :
  0 < length a -> sent (set_json_response st (snprintk a text).2 (length text)) = printed (length a) text.
Proof.
  intros Ha. unfold sent, printed. cbn [body body_len set_json_response]. rewrite length_snprintk by done.
  destruct (decide (length text < length a)); [rewrite decide_True by lia; by rewrite snprintk_text|].
  destruct (decide (length text = length a)) as [E|]; [|by rewrite decide_False by lia].
  rewrite decide_True by lia. rewrite E. unfold snprintk. cbn [snd]. rewrite take_ge by arr.
  unfold write_at. rewrite take_0, drop_ge, app_nil_l, app_nil_r; [done|]. rewrite length_app, length_take. simpl. lia.
Qed.

(** An answer in JSON with a status and what is sent of it. *)
Record answers (a : response) (st : http_status) (bytes : option (list byte)) : Prop := {
  answer_status : status a = st;
  answer_headers : response_headers a = json_headers;
  answer_final : final_chunk a = true;
  answer_sent : sent a = bytes;
}.

(** ** Texts *)

Lemma length_int_text v : length (int_text v) <= 11.
Proof.
  unfold int_text, dec_text. pose proof (length_dec_digits 10 (- v)). pose proof (length_dec_digits 10 v).
  case_decide; cbn [length]; lia.
Qed.

Lemma length_js t : length (js t) = length (cs t).
Proof. unfold js. apply length_fmap. Qed.

Lemma error_text_fits ret : length (error_text ret) < 96.
Proof.
  unfold error_text. rewrite !length_app, !length_js. generalize (length_int_text ret).
  generalize (length (int_text ret)). intros n Hn. simpl. lia.
Qed.

(** ** Pushing a file *)

Section push.
Context {F : AppFs} {U : Uninit}.

(** The file a document names and holds is written; the status and the text of
    the answer. *)
Definition push_result (document : cstr) (w : FileService.world) : (http_status * cstr) * FileService.world :=
  match Json.json_member document (cs "path") 128 with
  | inl e => ((HTTP_400_BAD_REQUEST, error_text e), w)
  | inr path =>
      match Json.json_member document (cs "file") WEBOS_JSON_VALUE_MAX with
      | inl e => ((HTTP_400_BAD_REQUEST, error_text e), w)
      | inr file =>
          let '(ret, w) := FileService.write_file path file w in
          (if decide (ret = 0%Z) then (HTTP_200_OK, ok_text path) else (HTTP_400_BAD_REQUEST, error_text ret), w)
      end
  end.

Lemma push_request_spec d a w :
  no_nul d -> 0 < length a ->
  (push_request d a w).2 = (push_result d w).2
  /\ answers (push_request d a w).1.1 (push_result d w).1.1 (printed (length a) (push_result d w).1.2).
Proof.
  intros Hd Ha. unfold push_request, push_result.
  pose proof (Json.json_get_string_member d (cs "path") (uninit 128) Hd) as Hp. rewrite length_uninit in Hp. specialize (Hp ltac:(lia)).
  destruct (Json.json_get_string d (cs "path") _ _) as [r1 path]. cbn [fst snd] in Hp.
  destruct (Json.json_member d (cs "path") 128) as [e|p].
  { destruct Hp as [-> He]. rewrite !(decide_False (P := e = 0%Z)) by lia. split; [done|]. split; try done. by apply snprintk_sent. }
  destruct Hp as (-> & Hpath & _). rewrite decide_True by done.
  pose proof (Json.json_get_string_member d (cs "file") (uninit WEBOS_JSON_VALUE_MAX) Hd) as Hf. rewrite length_uninit in Hf.
  specialize (Hf ltac:(unfold WEBOS_JSON_VALUE_MAX; lia)).
  destruct (Json.json_get_string d (cs "file") _ _) as [r2 file]. cbn [fst snd] in Hf.
  destruct (Json.json_member d (cs "file") WEBOS_JSON_VALUE_MAX) as [e|f].
  { destruct Hf as [-> He]. rewrite !(decide_False (P := e = 0%Z)) by lia. split; [done|]. split; try done. by apply snprintk_sent. }
  destruct Hf as (-> & Hfile & _). rewrite (decide_True (P := 0%Z = 0%Z)) by done. rewrite Hpath, Hfile.
  destruct (FileService.write_file p f w) as [ret w'].
  case_decide; (split; [done|]); (split; try done); by apply snprintk_sent.
Qed.

(** Pushing a file, for any way the server cuts the body into pieces: only the
    call for the last piece answers; it has written the file named by the
    document, and nothing else, exactly when it answers 200; the answer is the
    formatted text unless that is longer than the array of the answer; the
    handler is idle again, whatever was in its arrays before. *)
Theorem push_file_exact l r (s : push_statics) w :
  idle (push_in s) -> length (push_response s) = 96 -> length (whole l r) < WEBOS_HTTP_BODY_MAX ->
  exists a s', transaction (on_pair push_handler) l r (s, w)
      = (replicate (length l) None ++ [Some a], (s', (push_result (c_string (whole l r)) w).2))
    /\ idle (push_in s') /\ length (push_response s') = 96
    /\ answers a (push_result (c_string (whole l r)) w).1.1 (printed 96 (push_result (c_string (whole l r)) w).1.2).
Proof.
  intros Hi Hs Hl. destruct (transaction_whole (BH := push_body) l r (s, w) Hi Hl) as (c & Hc & ->). cbn.
  destruct (push_request_spec (c_string (whole l r)) (push_response s) w) as [Hw Ha]; [apply c_string_no_nul|lia|].
  pose proof (push_request_size (c_string (whole l r)) (push_response s) w ltac:(lia)) as Hz.
  destruct (push_request _ _ w) as [[a array] w']. cbn in Hw, Ha, Hz. rewrite Hs in Ha, Hz. subst w'.
  by exists a, (Push c array).
Qed.
End push.

(** ** Pushing a binary file *)

Section pushbin.
Context {F : AppFs}.

(** The path of the headers: the first with the right name and a value. *)
Fixpoint header_path (l : list http_header) : option cstr :=
  match l with
  | [] => None
  | h :: l' =>
      match name h, value h with
      | Some n, Some v => if decide (n = cs "X-Webos-Path") then Some v else header_path l'
      | _, _ => header_path l'
      end
  end.

(** The path after a piece, and after all of them: the first that is not empty,
    cut to what the array holds. *)
Definition step_path (path : cstr) (r : request_ctx) : cstr :=
  match path with
  | [] => match headers r ≫= header_path with Some v => take 127 v | None => [] end
  | _ => path
  end.
Definition given_path (l : list request_ctx) : cstr := foldl step_path [] l.

(** The literal answers, with the length the handler gives. *)
Definition no_path : list byte := take 19 (js "{'error':'no path'}" ++ newline_text).
Definition bad_path : list byte := take 19 (js "{'error':'bad path'}" ++ newline_text).
Definition write_failed : list byte := take 23 (js "{'error':'write failed'}" ++ newline_text).

(** What is written where: below the path of the headers the whole body, otherwise
    what follows the first line, which is the path. *)
Definition pushbin_target (path : cstr) (b : list byte) : list byte + (cstr * list byte) :=
  match path with
  | _ :: _ => inr (path, b)
  | [] =>
      match strchr b newline with
      | None => inl no_path
      | Some n => if decide (128 <= n) then inl bad_path else inr (c_string (take n b), drop (n + 1) b)
      end
  end.

Definition pushbin_result (path : cstr) (b : list byte) (w : FileService.world) : (http_status * option (list byte)) * FileService.world :=
  match pushbin_target path b with
  | inl text => ((HTTP_400_BAD_REQUEST, Some text), w)
  | inr (p, d) =>
      let '(ret, w) := FileService.write_file_bin p d w in
      (if decide (ret = 0%Z) then (HTTP_200_OK, printed 96 (ok_text p)) else (HTTP_500_INTERNAL_SERVER_ERROR, Some write_failed), w)
  end.

(** The static path holds the C string [path]. *)
Definition holds_path (p : list byte) (path : cstr) : Prop := escape_buffer 128 p /\ c_string p = path.

Lemma path_empty_spec p path : holds_path p path -> path_empty p = bool_decide (path = []).
Proof.
  intros [[Hl _] <-]. unfold path_empty. destruct p as [|c p]; [done|]. rewrite c_string_cons. cbn.
  apply bool_decide_ext. by case_decide.
Qed.

Lemma copy_header_holds p v : length p = 128 -> no_nul v -> holds_path (copy_header p v) (take 127 v).
Proof.
  intros Hl Hv. assert (copy_header p v = take 127 v ++ replicate (127 - length v) NUL ++ [NUL]) as E.
  { unfold copy_header. rewrite Hl. cbn [Nat.sub]. set (x := take 127 v ++ replicate (127 - length v) NUL).
    assert (length x = 127) as Hx by (subst x; rewrite length_app, length_take, length_replicate; lia).
    assert (write_at p 0 x = x ++ drop 127 p) as -> by (unfold write_at; by rewrite take_0, Hx).
    unfold write_at. rewrite take_app_length' by done. rewrite drop_ge by (rewrite length_app, length_drop; simpl; lia).
    subst x. rewrite app_nil_r. by rewrite app_assoc. }
  rewrite E. split.
  - split; [rewrite !length_app, length_take, length_replicate; cbn [length]; lia|].
    rewrite app_assoc, lookup_app_r; rewrite length_app, length_take, length_replicate; [|lia].
    by replace (127 `min` length v + (127 - length v)) with 127 by lia.
  - destruct (decide (length v < 127)) as [Hlt|Hge].
    + replace (127 - length v) with (S (126 - length v)) by lia. cbn [replicate app]. apply c_string_app.
      rewrite take_ge by lia. exact Hv.
    + replace (127 - length v) with 0 by lia. cbn [replicate app]. apply c_string_app.
      intros Hin. apply Hv. rewrite <- (take_drop 127 v). apply elem_of_app; by left.
Qed.

Lemma scan_headers_holds l p :
  (forall v, header_path l = Some v -> no_nul v) -> holds_path p [] ->
  holds_path (scan_headers l p) (match header_path l with Some v => take 127 v | None => [] end).
Proof.
  intros Hl Hp. induction l as [|[n v] l IH]; [done|]. cbn in Hl |- *. destruct n as [n|], v as [v|]; auto.
  case_decide; [|auto]. apply copy_header_holds; [apply Hp|by apply Hl].
Qed.

Lemma clear_path_holds p path : holds_path p path -> holds_path (clear_path p) [].
Proof.
  intros [Hb _]. split; [by apply clear_path_buffer|]. destruct Hb as [Hl _]. unfold clear_path, write_at.
  rewrite take_0. simpl. by rewrite c_string_cons.
Qed.

(** The statics while a request is received. *)
Record bin_state (s : pushbin_statics) (path : cstr) (b : list byte) : Prop := {
  bin_holds : holds_path (bin_path s) path;
  bin_received : received (bin_in s) b;
  bin_size : length (bin_response s) = 96;
}.

Definition header_strings (r : request_ctx) : Prop := forall v, headers r ≫= header_path = Some v -> no_nul v.

(** A piece up to the copy. *)
Lemma piece_path s path b r :
  bin_state s path b -> header_strings r ->
  holds_path (if path_empty (bin_path s) then match headers r with Some l => scan_headers l (bin_path s) | None => bin_path s end
              else bin_path s) (step_path path r).
Proof.
  intros [Hp _ _] Hr. rewrite (path_empty_spec _ _ Hp). unfold step_path. destruct path as [|c path]; [|done].
  cbn. unfold header_strings in Hr. destruct (headers r) as [l|]; [|done]. cbn in Hr |- *. by apply scan_headers_holds.
Qed.

Lemma bin_pieces l s path b w :
  bin_state s path b -> Forall header_strings l -> length (b ++ concat (data <$> l)) < WEBOS_HTTP_BODY_MAX ->
  exists s', run_pieces (on_pair pushbin_handler) l (s, w) = (replicate (length l) None, (s', w))
    /\ bin_state s' (foldl step_path path l) (b ++ concat (data <$> l)).
Proof.
  intros Hs Hl. revert s path b Hs. induction Hl as [|r l Hr Hl IH]; intros s path b Hs Hlen.
  { exists s. cbn. by rewrite app_nil_r. }
  rewrite fmap_cons in Hlen |- *. cbn [concat foldl] in Hlen |- *. rewrite app_assoc in Hlen |- *.
  cbn [run_pieces]. set (rest := run_pieces _ l) in *. unfold on_pair. cbn [fst snd]. unfold pushbin_handler. change (over _) with false. cbv zeta iota.
  pose proof (piece_path _ _ _ _ Hs Hr) as Hpath. set (p := if path_empty _ then _ else _) in *.
  pose proof (append_received (bin_in s) b (data r) (bin_received _ _ _ Hs)) as Ha.
  rewrite decide_True in Ha by (rewrite length_app in Hlen; lia). destruct Ha as (c & -> & Hc).
  destruct (IH (Pushbin p c (bin_response s)) (step_path path r) (b ++ data r)) as (s' & E & Hs').
  - split; [done|done|apply Hs].
  - done.
  - change (negb (last_data HTTP_SERVER_REQUEST_DATA_MORE)) with true. cbv iota. rewrite E. by exists s'.
Qed.

(** The path in front of the data. *)
Lemma take_path_spec s b :
  bin_state s [] b ->
  match take_path s with
  | inl (a, s') => pushbin_target [] b = inl (default [] (sent a)) /\ sent a <> None /\ bin_state s' [] []
                   /\ status a = HTTP_400_BAD_REQUEST /\ response_headers a = json_headers /\ final_chunk a = true
  | inr s' => exists path d, pushbin_target [] b = inr (path, d) /\ bin_state s' path d
  end.
Proof.
  intros [Hp [H1 H2 H3 H4] Hr]. unfold take_path. cbv zeta. cbn [pushbin_target]. rewrite H2, H3. destruct Hp as [[Hl Hz] Hstr].
  assert (bin_state (Pushbin (bin_path s) (reset_cursor (bin_in s)) (bin_response s)) [] []) as Hreset.
  { split; [by split|by apply idle_intro|done]. }
  destruct (strchr b newline) as [n|] eqn:E; [|by split_and!]. rewrite Hl.
  destruct (decide (128 <= n)) as [Hn|Hn]; [by split_and!|].
  assert (n < length b) as Hlt by (apply strchr_Some in E; tauto).
  assert (take n (buf (bin_in s)) = take n b) as Htake by (rewrite <- H3, take_take; f_equal; lia).
  assert (take (length b - n - 1) (drop (n + 1) (buf (bin_in s))) = drop (n + 1) b) as Hrest.
  { replace (length b - n - 1) with (length b - (n + 1)) by lia. by rewrite <- skipn_firstn_comm, H3. }
  rewrite Htake, Hrest. exists (c_string (take n b)), (drop (n + 1) b). split; [done|].
  assert (length (take n b) = n) as Htl by (rewrite length_take; lia).
  assert (length (write_at (bin_path s) 0 (take n b)) = 128) as Hw by arr.
  split; [|split; cbn; rewrite ?length_drop; [arr|lia| |lia]|done].
  - split; [split; [cbn; arr|]|]; cbn.
    + destruct (decide (n = 127)) as [->|]; [rewrite lookup_write_at_new by (simpl; lia); done|].
      rewrite lookup_write_at_old by (simpl; lia). rewrite lookup_write_at_old by lia. done.
    + unfold write_at at 1. rewrite <- (c_string_stop (take n b) (drop (n + 1) (write_at (bin_path s) 0 (take n b)))). f_equal.
      cbn [app length]. f_equal. unfold write_at. rewrite take_0, app_nil_l. by apply take_app_length'.
  - unfold write_at. rewrite take_0, app_nil_l. apply take_app_length'. by rewrite length_drop.
Qed.

(** From the write on. *)
Lemma pushbin_write_spec s path b w :
  bin_state s path b ->
  exists a s', pushbin_write s w = ((Some a, s'), (FileService.write_file_bin path b w).2) /\ bin_state s' [] []
    /\ let ret := (FileService.write_file_bin path b w).1 in
       answers a (if decide (ret = 0%Z) then HTTP_200_OK else HTTP_500_INTERNAL_SERVER_ERROR)
         (if decide (ret = 0%Z) then printed 96 (ok_text path) else Some write_failed).
Proof.
  intros [Hp [H1 H2 H3 H4] Hr]. unfold pushbin_write. rewrite H2, H3. destruct Hp as [Hb Hstr]. rewrite Hstr.
  destruct (FileService.write_file_bin path b w) as [ret w']. cbn [fst snd].
  assert (forall array, length array = 96 -> bin_state (Pushbin (clear_path (bin_path s)) (reset_cursor (bin_in s)) array) [] []) as Hs.
  { intros array Ha. split; [by apply (clear_path_holds _ path)|by apply idle_intro|done]. }
  destruct (decide (ret = 0%Z)).
  - pose proof (snprintk_sent HTTP_200_OK (bin_response s) (ok_text path) ltac:(lia)) as Hsent. rewrite Hr in Hsent.
    pose proof (length_snprintk (bin_response s) (ok_text path) ltac:(lia)) as Hlen.
    unfold snprintk in *. cbn [fst snd] in *. eexists _, _. split; [done|]. split; [apply Hs; lia|]. by split.
  - eexists _, _. split; [done|]. split; [by apply Hs|]. by split.
Qed.

(** A body that fits. *)
Lemma pushbin_fits l r (s : pushbin_statics) w :
  bin_state s [] [] -> Forall header_strings (l ++ [r]) -> length (whole l r) < WEBOS_HTTP_BODY_MAX ->
  exists a s', transaction (on_pair pushbin_handler) l r (s, w)
      = (replicate (length l) None ++ [Some a], (s', (pushbin_result (given_path (l ++ [r])) (whole l r) w).2))
    /\ bin_state s' [] []
    /\ answers a (pushbin_result (given_path (l ++ [r])) (whole l r) w).1.1 (pushbin_result (given_path (l ++ [r])) (whole l r) w).1.2.
Proof.
  intros Hs Hh Hl. apply Forall_app in Hh as [Hh Hr]. apply Forall_cons in Hr as [Hr _]. unfold transaction.
  destruct (bin_pieces l s [] [] w Hs Hh) as (s1 & -> & Hs1); [unfold whole in Hl; rewrite length_app in Hl; cbn [app]; lia|].
  cbn [app] in Hs1. unfold given_path. rewrite foldl_app. cbn [foldl]. fold (given_path l) in Hs1 |- *.
  unfold on_pair. cbn [fst snd]. unfold pushbin_handler. change (over _) with false. cbv zeta iota.
  pose proof (piece_path _ _ _ _ Hs1 Hr) as Hpath. set (p := if path_empty _ then _ else _) in *.
  pose proof (append_received (bin_in s1) _ (data r) (bin_received _ _ _ Hs1)) as Ha.
  fold (whole l r) in Ha. rewrite decide_True in Ha by done. destruct Ha as (c & -> & Hc).
  change (negb (last_data HTTP_SERVER_REQUEST_DATA_FINAL)) with false. cbv iota.
  rewrite (path_empty_spec _ _ Hpath). set (path := step_path (given_path l) r) in *.
  assert (bin_state (Pushbin p c (bin_response s1)) path (whole l r)) as Hs2 by (split; [done|done|apply Hs1]).
  assert (forall s2 path' b', pushbin_target path (whole l r) = inr (path', b') -> bin_state s2 path' b' ->
    exists a s', pushbin_write s2 w = ((Some a, s'), (pushbin_result path (whole l r) w).2)
      /\ bin_state s' [] [] /\ answers a (pushbin_result path (whole l r) w).1.1 (pushbin_result path (whole l r) w).1.2) as Hwrite.
  { intros s2 path' b' Ht Hb. destruct (pushbin_write_spec s2 path' b' w Hb) as (a & s' & -> & Hs' & Hans).
    unfold pushbin_result. rewrite Ht. destruct (FileService.write_file_bin path' b' w) as [ret w']. cbn [fst snd] in *.
    exists a, s'. split; [done|]. split; [done|]. by case_decide. }
  destruct path as [|x path'] eqn:Epath.
  - rewrite bool_decide_true by done. pose proof (take_path_spec _ _ Hs2) as Ht.
    destruct (take_path _) as [[a s']|s'].
    + destruct Ht as (Ht & Hsent & Hs' & Ha1 & Ha2 & Ha3). exists a, s'. unfold pushbin_result. rewrite Ht. cbn.
      split; [done|]. split; [done|]. split; try done. by destruct (sent a).
    + destruct Ht as (path' & b' & Ht & Hs'). destruct (Hwrite _ _ _ Ht Hs') as (a & s'' & -> & Hs'' & Hans). by exists a, s''.
  - rewrite bool_decide_false by done. destruct (Hwrite _ _ _ eq_refl Hs2) as (a & s'' & -> & Hs'' & Hans). by exists a, s''.
Qed.

(** A body whose last piece does not fit: the answer, 20 bytes of its text, and
    nothing else. *)
Lemma pushbin_overflows l r (s : pushbin_statics) w :
  bin_state s [] [] -> Forall header_strings (l ++ [r]) ->
  length (concat (data <$> l)) < WEBOS_HTTP_BODY_MAX <= length (whole l r) ->
  exists a s', transaction (on_pair pushbin_handler) l r (s, w) = (replicate (length l) None ++ [Some a], (s', w))
    /\ bin_state s' [] []
    /\ answers a HTTP_413_PAYLOAD_TOO_LARGE (Some (take 20 (js "{'error':'too large'}"))).
Proof.
  intros Hs Hh [Hl Hbig]. apply Forall_app in Hh as [Hh Hr]. apply Forall_cons in Hr as [Hr _]. unfold transaction.
  destruct (bin_pieces l s [] [] w Hs Hh Hl) as (s1 & -> & Hs1). cbn [app] in Hs1.
  unfold on_pair. cbn [fst snd]. unfold pushbin_handler. change (over _) with false. cbv zeta iota.
  pose proof (piece_path _ _ _ _ Hs1 Hr) as Hpath. set (p := if path_empty _ then _ else _) in *.
  pose proof (append_received (bin_in s1) _ (data r) (bin_received _ _ _ Hs1)) as Ha.
  fold (whole l r) in Ha. rewrite decide_False in Ha by lia. rewrite Ha.
  eexists _, _. split; [done|]. split; [|by split].
  destruct Hs1 as [_ [] ?]. split; [by eapply clear_path_holds|by apply idle_intro|done].
Qed.

(** What the handler does with a body: one that does not fit is refused. *)
Definition pushbin_outcome (path : cstr) (b : list byte) (w : FileService.world) : (http_status * option (list byte)) * FileService.world :=
  if decide (length b < WEBOS_HTTP_BODY_MAX) then pushbin_result path b w
  else ((HTTP_413_PAYLOAD_TOO_LARGE, Some (take 20 (js "{'error':'too large'}"))), w).

(** C35: pushing a binary file, for any way the server cuts the body into pieces
    and for any pieces the headers come with, as long as the pieces before the last
    are shorter than [WEBOS_HTTP_BODY_MAX] together: only the last call answers.  If
    the whole body is shorter than that, the file named by the first path a header
    gives, or else by the first line of the body, is written with the rest of the
    body, exactly when the answer is 200; if it is not, the answer is 413 and
    nothing is written.  Then the handler is as it was, without a path and idle. *)
Theorem pushbin_file_exact l r (s : pushbin_statics) w :
  bin_state s [] [] -> Forall header_strings (l ++ [r]) -> length (concat (data <$> l)) < WEBOS_HTTP_BODY_MAX ->
  exists a s', transaction (on_pair pushbin_handler) l r (s, w)
      = (replicate (length l) None ++ [Some a], (s', (pushbin_outcome (given_path (l ++ [r])) (whole l r) w).2))
    /\ bin_state s' [] []
    /\ answers a (pushbin_outcome (given_path (l ++ [r])) (whole l r) w).1.1 (pushbin_outcome (given_path (l ++ [r])) (whole l r) w).1.2.
Proof.
  intros Hs Hh Hl. unfold pushbin_outcome. case_decide; [by apply pushbin_fits|].
  apply pushbin_overflows; [done..|lia].
Qed.
End pushbin.

(** ** Escaped text in a static array *)

Lemma escape_no_nul l : NUL ∉ Json.escape l.
Proof.
  induction l as [|c l IH]; [by apply not_elem_of_nil|]. rewrite Json.escape_cons. apply not_elem_of_app. split; [|done].
  destruct c; apply (bool_decide_unpack _); vm_compute; exact I.
Qed.

(** The text read from the array after the escaping: the escaped source, when it
    fits; otherwise the part that fits and whatever follows it in the array. *)
Lemma append_json_text n a src pos a' :
  0 < n -> escape_buffer n a -> Json.append_json_string a (length a) src = (pos, a') ->
  exists k tail, c_string a' = Json.escape (take k src) ++ tail /\ length (c_string a') < n
    /\ (length (Json.escape src) < n -> c_string a' = Json.escape src).
Proof.
  intros Hn Ha E. pose proof (append_json_buffer n a src pos a' Hn Ha E) as [_ Hz]. destruct Ha as [Hl _]. rewrite Hl in E.
  destruct (Json.append_loop_spec a 0 n src Hl Hn) as (k & d & Hk & E' & Hd & Hf & Ht & Hnul & Hmore).
  unfold Json.append_json_string in E. rewrite E' in E. injection E as <- <-. cbn [Nat.add] in *. rewrite take_0, app_nil_l in Ht.
  assert (forall x b, NUL ∉ x -> c_string (x ++ b) = x ++ c_string b) as Happ.
  { intros x b. induction x as [|y x IH]; [done|]. intros [Hy Hx]%not_elem_of_cons. simpl. rewrite c_string_cons.
    rewrite decide_False by done. by rewrite IH. }
  exists k, (c_string (drop (length (Json.escape (take k src))) d)).
  assert (c_string d = Json.escape (take k src) ++ c_string (drop (length (Json.escape (take k src))) d)) as Hc.
  { rewrite <- (take_drop (length (Json.escape (take k src))) d) at 1. rewrite Ht. apply Happ, escape_no_nul. }
  split; [done|]. split; [pose proof (c_string_bound _ _ Hz); lia|]. intros Hfit.
  assert (k = length src) as ->.
  { apply dec_stable. intros Hne. specialize (Hmore ltac:(lia)).
    assert (length (Json.escape (take (S k) src)) <= length (Json.escape src)); [|lia].
    rewrite <- (take_drop (S k) src) at 2. rewrite Json.escape_app, length_app. lia. }
  rewrite Hc, (take_ge src) by done. specialize (Hnul eq_refl).
  rewrite <- (app_nil_r (Json.escape src)) at 3. f_equal.
  assert (Hlt : length (Json.escape src) < length d) by lia.
  rewrite (drop_S d NUL) by done. by rewrite c_string_cons.
Qed.

(** ** Shell commands *)

Section shell.
Context {B : ShellBackend} {D : DummyConfig}.

Definition run_result (r : shell_result) : Z * list byte :=
  (result r, match captured r with Some (out, _) => out | None => [] end).

(** What a document makes the shell do: the result and the output. *)
Definition document_result (d : cstr) (b : backend) : (Z * list byte) * backend :=
  if Json.json_has_key d (cs "cmd") then
    match Json.json_member d (cs "cmd") 256 with
    | inl e => ((e, []), b)
    | inr c => let '(r, b) := ShellExecutor.execute c SHELL_BACKEND_DUMMY_BUF_SIZE b in (run_result r, b)
    end
  else if Json.json_has_key d (cs "input") then
    match Json.json_member d (cs "input") 256 with
    | inl e => ((e, []), b)
    | inr c => let '(r, b) := ShellExecutor.webos_shell_push_input c SHELL_BACKEND_DUMMY_BUF_SIZE b in (run_result r, b)
    end
  else ((0%Z, []), ShellExecutor.clear_output b).

Lemma store_output_text r a : take (store_output r a).2 (store_output r a).1 = (run_result r).2.
Proof.
  unfold store_output, run_result. destruct (captured r) as [[out t]|]; [|apply take_0]. cbn.
  unfold write_at. rewrite take_0, app_nil_l, <- app_assoc. apply take_app_length.
Qed.

Lemma shell_run_spec d s b :
  shell_ok s -> no_nul d ->
  exists ret len t b', shell_run d s b = ((ret, len, t), b') /\ document_result d b = ((ret, take len (shell_output t)), b')
    /\ shell_in t = shell_in s.
Proof.
  intros Hs Hd. unfold shell_run, document_result. destruct (Json.json_has_key d (cs "cmd")); [|destruct (Json.json_has_key d (cs "input"))].
  - pose proof (Json.json_get_string_member d (cs "cmd") (shell_cmd s) Hd) as Hj. rewrite (shell_cmd_size _ Hs) in Hj.
    specialize (Hj ltac:(lia)). destruct (Json.json_get_string _ _ _ _) as [ret cmd]. cbn [fst snd] in Hj.
    destruct (Json.json_member _ _ _) as [e|c].
    { destruct Hj as [-> He]. rewrite decide_False by lia. eexists _, _, _, _. split; [done|]. split; [by rewrite take_0|done]. }
    destruct Hj as (-> & -> & _). rewrite decide_True by done. destruct (ShellExecutor.execute _ _ b) as [r b'].
    cbn [shell_in shell_cmd shell_input shell_response shell_escaped shell_output].
    pose proof (store_output_text r (shell_output s)) as Ho. destruct (store_output r (shell_output s)) as [output len].
    eexists _, _, _, _. split; [done|]. split; [|done]. unfold run_result in *. cbn in Ho |- *. by rewrite Ho.
  - pose proof (Json.json_get_string_member d (cs "input") (shell_input s) Hd) as Hj. rewrite (shell_input_size _ Hs) in Hj.
    specialize (Hj ltac:(lia)). destruct (Json.json_get_string _ _ _ _) as [ret cmd]. cbn [fst snd] in Hj.
    destruct (Json.json_member _ _ _) as [e|c].
    { destruct Hj as [-> He]. rewrite decide_False by lia. eexists _, _, _, _. split; [done|]. split; [by rewrite take_0|done]. }
    destruct Hj as (-> & -> & _). rewrite decide_True by done. destruct (ShellExecutor.webos_shell_push_input _ _ b) as [r b'].
    cbn [shell_in shell_cmd shell_input shell_response shell_escaped shell_output].
    pose proof (store_output_text r (shell_output s)) as Ho. destruct (store_output r (shell_output s)) as [output len].
    eexists _, _, _, _. split; [done|]. split; [|done]. unfold run_result in *. cbn in Ho |- *. by rewrite Ho.
  - eexists _, _, _, _. split; [done|]. split; [by rewrite take_0|done].
Qed.

Lemma shell_text_fits ret esc attached n : length esc < n -> length (shell_text ret esc attached) < n + 96.
Proof.
  intros He. unfold shell_text. rewrite !length_app, !length_js. generalize (length_int_text ret).
  generalize (length (int_text ret)). intros m Hm. assert (length (if attached then cs "true" else cs "false") <= 5) by (destruct attached; simpl; lia).
  revert H. generalize (length (if attached then cs "true" else cs "false")). intros x Hx. simpl. lia.
Qed.

(** A shell request, for any way the server cuts the body into pieces: the
    command or the input of the document is run once, when the body is complete,
    and nothing otherwise; the only answer has the result and the output, escaped;
    it never reads outside the arrays of the handler.  An output whose escaped form
    does not fit is cut between two escapes, but what the array held before may
    follow. *)
Theorem shell_request_exact l r (s : shell_statics) b :
  shell_ok s -> idle (shell_in s) -> length (whole l r) < WEBOS_HTTP_BODY_MAX ->
  exists a s' k tail,
    transaction (on_pair shell_handler) l r (s, b)
      = (replicate (length l) None ++ [Some a], (s', (document_result (c_string (whole l r)) b).2))
    /\ shell_ok s' /\ idle (shell_in s')
    /\ answers a HTTP_200_OK
         (Some (shell_text (document_result (c_string (whole l r)) b).1.1
                  (Json.escape (take k (document_result (c_string (whole l r)) b).1.2) ++ tail)
                  (negb (Json.json_has_key (c_string (whole l r)) (cs "cmd")))))
    /\ (length (Json.escape (document_result (c_string (whole l r)) b).1.2) < SHELL_BACKEND_DUMMY_BUF_SIZE * 2 ->
        Json.escape (take k (document_result (c_string (whole l r)) b).1.2) ++ tail
        = Json.escape (document_result (c_string (whole l r)) b).1.2).
Proof.
  pose proof dummy_buf_size_positive as HD. intros Hs Hi Hl.
  destruct (transaction_whole (BH := shell_body) l r (s, b) Hi Hl) as (c & Hc & ->). cbn. set (d := c_string (whole l r)).
  assert (shell_ok (set_shell_in c s)) as Hs1 by (destruct Hs; split; try done; by exists []).
  destruct (shell_run_spec d (set_shell_in c s) b Hs1) as (ret & len & t & b' & E & -> & Hin); [apply c_string_no_nul|].
  rewrite E. pose proof (shell_run_ok d _ b Hs1) as Ht. rewrite E in Ht. cbn in Ht.
  pose proof (shell_answer_ok d ret len t Ht) as Ha. unfold shell_answer in *.
  destruct (Json.append_json_string (shell_escaped t) _ _) as [pos esc] eqn:Ee.
  destruct (append_json_text (SHELL_BACKEND_DUMMY_BUF_SIZE * 2) _ _ _ _ ltac:(lia) (shell_escaped_buffer _ Ht) Ee) as (k & tail & Hesc & Hlen & Hfit).
  set (text := shell_text _ _ _) in *. assert (length text < length (shell_response t)) as Hroom.
  { rewrite (shell_response_size _ Ht). by apply shell_text_fits. }
  pose proof (snprintk_sent HTTP_200_OK (shell_response t) text ltac:(lia)) as Hsent.
  unfold printed in Hsent. rewrite decide_True in Hsent by done.
  unfold snprintk in Ha, Hsent |- *. cbn [fst snd] in *. rewrite Hesc in Hfit.
  eexists _, _, k, tail. split; [done|]. split; [done|]. split; [cbn; by rewrite Hin|]. split; [|done].
  split; try done. rewrite Hsent. subst text. by rewrite Hesc.
Qed.
End shell.

(** ** The log *)

Section log.
Context `{LogConfig} {LF LC : Type} `{EqDecision LF, EqDecision LC}.
Implicit Type l : LogBuffer.log_state (F := LF) (C := LC).

(** What of the log fits into the array it is read into: its oldest bytes. *)
Definition log_read l : list byte := take (WEBOS_HTTP_BODY_MAX - 1) (LogBuffer.contents l).

Lemma log_request_spec d (s : log_statics) l :
  log_statics_ok s -> LogBuffer.log_ok l ->
  exists a t k tail,
    log_request d s l = ((a, t), if Json.json_has_key d (cs "clear") then LogBuffer.log_buffer_clear l else l)
    /\ log_in t = log_in s
    /\ answers a HTTP_200_OK (printed WEBOS_HTTP_BODY_MAX (log_text (Json.escape (take k (log_read l)) ++ tail)))
    /\ (length (Json.escape (log_read l)) < WEBOS_HTTP_BODY_MAX * 2 ->
        Json.escape (take k (log_read l)) ++ tail = Json.escape (log_read l)).
Proof.
  intros [_ Hr Hm He] Hlog. assert (0 < WEBOS_HTTP_BODY_MAX) as Hpos by (unfold WEBOS_HTTP_BODY_MAX; lia).
  unfold log_read. generalize dependent WEBOS_HTTP_BODY_MAX. intros size Hr Hm He Hpos.
  unfold log_request, LogBuffer.log_buffer_read.
  pose proof (LogBuffer.copy_log_spec l (log_messages s) Hlog ltac:(intros E; rewrite E in Hm; simpl in Hm; lia)) as Hcopy.
  cbn zeta in Hcopy. rewrite Hcopy, Hm. set (n := length (LogBuffer.contents l) `min` (size - 1)).
  cbn [default id from_option].
  assert (forall rest, take n (take n (LogBuffer.contents l) ++ rest) = take (size - 1) (LogBuffer.contents l)) as ->.
  { intros rest. rewrite take_app_length' by (rewrite length_take; subst n; lia). subst n.
    destruct (decide (length (LogBuffer.contents l) <= size - 1)); [by rewrite !take_ge by lia|f_equal; lia]. }
  destruct (Json.append_json_string (log_escaped s) _ _) as [pos esc] eqn:Ee.
  destruct (append_json_text (size * 2) _ _ _ _ ltac:(lia) He Ee) as (k & tail & Hesc & _ & Hfit).
  pose proof (snprintk_sent HTTP_200_OK (log_response s) (log_text (c_string esc)) ltac:(lia)) as Hsent.
  rewrite Hr, Hesc in Hsent. rewrite Hesc in Hfit |- *. unfold snprintk in *. cbn [fst snd] in *.
  eexists _, _, k, tail. split; [done|]. split; [done|]. split; [by split|done].
Qed.

(** A request for the log, for any way the server cuts the body into pieces:
    the only answer has the log, escaped, as much of it as the array it is read
    into holds; the log is cleared exactly when the document has the key, after
    it was read, and not otherwise.  The answer is what was formatted only below
    the size of the array of the answer, which is half of what the escaped log may
    need: beyond it, bytes behind the array are sent. *)
Theorem log_request_exact pieces r (s : log_statics) l :
  log_statics_ok s -> LogBuffer.log_ok l -> idle (log_in s) -> length (whole pieces r) < WEBOS_HTTP_BODY_MAX ->
  exists a s' k tail,
    transaction (on_pair (log_handler (LF := LF) (LC := LC))) pieces r (s, l)
      = (replicate (length pieces) None ++ [Some a],
         (s', if Json.json_has_key (c_string (whole pieces r)) (cs "clear") then LogBuffer.log_buffer_clear l else l))
    /\ log_statics_ok s' /\ idle (log_in s')
    /\ answers a HTTP_200_OK (printed WEBOS_HTTP_BODY_MAX (log_text (Json.escape (take k (log_read l)) ++ tail)))
    /\ (length (Json.escape (log_read l)) < WEBOS_HTTP_BODY_MAX * 2 ->
        Json.escape (take k (log_read l)) ++ tail = Json.escape (log_read l)).
Proof.
  intros Hs Hlog Hi Hl.
  destruct (transaction_whole (BH := log_body) pieces r (s, l) Hi Hl) as (c & Hc & ->). cbn [reply log_body set_incoming fst snd].
  assert (log_statics_ok (set_log_in c s)) as Hs1 by (destruct Hs; split; try done; by exists []).
  destruct (log_request_ok (c_string (whole pieces r)) _ l (conj Hs1 Hlog)) as [Hs2 _].
  destruct (log_request_spec (c_string (whole pieces r)) _ l Hs1 Hlog) as (a & t & k & tail & E & Hin & Ha & Hfit).
  rewrite E in Hs2 |- *. exists a, t, k, tail. split; [done|]. split; [done|]. split; [by rewrite Hin|]. by split.
Qed.
End log.

(** ** The health status *)

Lemma health_text_fits h : length (health_text h) < 224.
Proof.
  unfold health_text. rewrite !length_app, !length_js.
  assert (length (if healthy h then cs "ok" else cs "degraded") <= 8) as Hs by (destruct (healthy h); simpl; lia).
  revert Hs. generalize (length (if healthy h then cs "ok" else cs "degraded")). intros n Hn.
  assert (forall v, exists m, length (int_text v) = m /\ m <= 11) as Hi by (intros v; eexists; split; [done|apply length_int_text]).
  destruct (Hi (filesystem h)) as (a & -> & ?), (Hi (devfs h)) as (b & -> & ?), (Hi (gpio h)) as (c & -> & ?),
    (Hi (led h)) as (d & -> & ?), (Hi (iwasm h)) as (e & -> & ?), (Hi (wifi h)) as (f & -> & ?). simpl. lia.
Qed.

(** The health of the system is answered in full: "ok" exactly when every part
    started, otherwise "degraded", with the result of every part. *)
Lemma health_answered h a :
  length a = 224 ->
  exists answer array, health_handler HTTP_SERVER_REQUEST_DATA_FINAL h a = (Some answer, array)
    /\ length array = 224 /\ answers answer HTTP_200_OK (Some (health_text h)).
Proof.
  intros Ha. unfold health_handler. change (last_data _) with true. cbv iota.
  pose proof (snprintk_sent HTTP_200_OK a (health_text h) ltac:(lia)) as Hs. pose proof (length_snprintk a (health_text h) ltac:(lia)) as Hl.
  unfold printed in Hs. rewrite Ha, decide_True in Hs by apply health_text_fits.
  unfold snprintk in *. cbn [fst snd] in *. eexists _, _. split; [done|]. split; [lia|]. by split.
Qed.
End ServerSpec.
