(* ===== verification/OtaSpec.v ===== *)
(** * What a firmware upload installs

    The calls the web interface makes into the flash image library for a whole
    upload.  An upload that is answered 200 without an error in between has
    written exactly the pieces that hold data, in their order, in one session, and
    the upgrade was requested after the last of them.  Two examples show what the
    handler does not exclude: an upload that goes on after a failed piece, and one
    whose last piece is empty, so that nothing asks the library to flush. *)

From S2P Require Import Prelude CLib Ota HttpServer HttpTransaction.
From Stdlib Require Import ZArith Lia.
From Stdlib Require Import Strings.Byte.
From stdpp Require Import base numbers list list_numbers strings.

Module OtaSpec.
Import HttpServer Transaction.

Section ota.
Context {G : FlashImg}.

(** The initialisation a piece starts with and the write it makes. *)
Definition init_calls (o : Ota.ota G) : list Ota.flash_call := if Ota.ota_active o then [] else [Ota.CallInit 0].
Definition write_calls (d : list byte) (flush : bool) : list Ota.flash_call :=
  match d with [] => [] | _ => [Ota.CallWrite d flush 0] end.

(** The calls of an upload without errors. *)
Definition upload_calls (l : list request_ctx) (r : request_ctx) : list Ota.flash_call :=
  Ota.CallInit 0 :: concat ((fun p => write_calls (data p) false) <$> l) ++ write_calls (data r) true
  ++ [Ota.CallUpgrade 0; Ota.CallReboot WEBOS_OTA_REBOOT_DELAY_MS].

Lemma begin_calls o ret o' :
  Ota.ota_begin o = (ret, o') ->
  ret = 0%Z -> Ota.ota_active o' = true /\ Ota.calls o' = Ota.calls o ++ init_calls o.
Proof.
  unfold Ota.ota_begin, init_calls. destruct (Ota.ota_active o) eqn:Ea; [intros [= <- <-] _; by rewrite app_nil_r|].
  destruct (flash_img_init (Ota.device o)) as [r f]. case_decide as Hr; intros [= <- <-]; [done|]. intros _. by subst r.
Qed.

(** The write of a piece, when it works. *)
Lemma piece_write d final o ret o' :
  Ota.ota_active o = true ->
  (if decide (0 < length d) then Ota.ota_write d final o else (0%Z, o)) = (ret, o') -> ret = 0%Z ->
  Ota.ota_active o' = true /\ Ota.calls o' = Ota.calls o ++ write_calls d final.
Proof.
  intros Ha. unfold write_calls. destruct d as [|x d]; cbn [length]; [rewrite decide_False by lia|rewrite decide_True by lia].
  { intros [= <- <-] _. by rewrite app_nil_r. }
  unfold Ota.ota_write. cbn [length]. rewrite decide_False by lia. rewrite Ha. cbn [negb].
  destruct (flash_img_buffered_write _ final _) as [r f]. intros [= <- <-] ->. done.
Qed.

(** A piece in the middle that is not answered. *)
Lemma more_unanswered r a o a' o' :
  ota_handler HTTP_SERVER_REQUEST_DATA_MORE r a o = ((None, a'), o') ->
  a' = a /\ Ota.ota_active o' = true /\ Ota.calls o' = Ota.calls o ++ init_calls o ++ write_calls (data r) false.
Proof.
  unfold ota_handler. destruct (Ota.ota_begin o) as [ret o1] eqn:E1. unfold ota_error, snprintk.
  destruct (decide (ret = 0%Z)) as [Hr|Hr]; [rewrite decide_False by lia|by rewrite decide_True by lia].
  destruct (begin_calls _ _ _ E1 Hr) as [Ha Hc]. change (last_data _) with false.
  destruct (if decide (0 < length (data r)) then _ else _) as [ret2 o2] eqn:E2.
  rewrite decide_False by (by intros [_ ?]). destruct (decide (ret2 = 0%Z)) as [Hr2|Hr2]; [rewrite decide_False by lia|by rewrite decide_True by lia].
  destruct (piece_write _ _ _ _ _ Ha E2 Hr2) as [Ha2 Hc2]. intros [= <- <-]. by rewrite Hc2, Hc, app_assoc.
Qed.

(** The last piece, answered 200. *)
Lemma final_accepted r a o answer a' o' :
  ota_handler HTTP_SERVER_REQUEST_DATA_FINAL r a o = ((Some answer, a'), o') -> status answer = HTTP_200_OK ->
  Ota.ota_active o' = false
  /\ Ota.calls o' = Ota.calls o ++ init_calls o ++ write_calls (data r) true ++ [Ota.CallUpgrade 0; Ota.CallReboot WEBOS_OTA_REBOOT_DELAY_MS].
Proof.
  unfold ota_handler. destruct (Ota.ota_begin o) as [ret o1] eqn:E1. unfold ota_error, snprintk.
  destruct (decide (ret = 0%Z)) as [Hr|Hr]; [rewrite decide_False by lia|rewrite decide_True by lia; by intros [= <- <- <-]].
  destruct (begin_calls _ _ _ E1 Hr) as [Ha Hc]. change (last_data _) with true.
  destruct (if decide (0 < length (data r)) then _ else _) as [ret2 o2] eqn:E2.
  destruct (decide (ret2 = 0%Z)) as [Hr2|Hr2].
  2: { rewrite decide_False by (by intros [? _]). rewrite decide_True by lia. by intros [= <- <- <-]. }
  rewrite decide_True by done. destruct (piece_write _ _ _ _ _ Ha E2 Hr2) as [Ha2 Hc2].
  unfold Ota.ota_finish. cbn. destruct (boot_request_upgrade (Ota.device o2)) as [ret3 f].
  destruct (decide (ret3 = 0%Z)) as [->|Hr3].
  - rewrite decide_True by done. intros [= <- <- <-] _. cbn. split; [done|]. by rewrite Hc2, Hc, <- !app_assoc.
  - rewrite !decide_False by done. by intros [= <- <- <-].
Qed.

Lemma pieces_unanswered l a o answers a' o' :
  run_pieces (on_pair ota_handler) l (a, o) = (answers, (a', o')) -> answers = replicate (length l) None ->
  Ota.calls o' ++ init_calls o' = Ota.calls o ++ init_calls o ++ concat ((fun p => write_calls (data p) false) <$> l).
Proof.
  revert a o answers. induction l as [|r l IH]; intros a o answers; cbn [run_pieces fmap list_fmap concat].
  { intros [= <- <- <-] _. by rewrite app_nil_r. }
  unfold on_pair at 1. cbn [fst snd]. destruct (ota_handler _ r a o) as [[x a1] o1] eqn:E1.
  destruct (run_pieces _ l (a1, o1)) as [xs [a2 o2]] eqn:E2. intros [= <- <- <-] [= -> Hxs].
  destruct (more_unanswered _ _ _ _ _ E1) as (_ & Ha & Hc). rewrite (IH _ _ _ E2 Hxs), Hc. unfold init_calls at 2. rewrite Ha.
  by rewrite app_nil_l, <- !app_assoc.
Qed.

(** C34: an upload no piece of which is refused and whose last piece is answered
    200 has, in one session, initialised the flash writer, written exactly the
    pieces that hold data, each once and in the order they were sent, the last one
    flushed, then requested the upgrade and scheduled the reboot; and the session
    is over. *)
Theorem ota_upload_exact l r a o answer a' o' :
  Ota.ota_active o = false ->
  transaction (on_pair ota_handler) l r (a, o) = (replicate (length l) None ++ [Some answer], (a', o')) ->
  status answer = HTTP_200_OK ->
  Ota.calls o' = Ota.calls o ++ upload_calls l r /\ Ota.ota_active o' = false.
Proof.
  intros Ha. unfold transaction. destruct (run_pieces _ l (a, o)) as [xs [a1 o1]] eqn:E1.
  unfold on_pair. cbn [fst snd]. destruct (ota_handler _ r a1 o1) as [[x a2] o2] eqn:E2.
  intros [= Hx -> ->] Hst. apply app_inj_tail in Hx as [Hxs ->].
  pose proof (pieces_unanswered _ _ _ _ _ _ E1 Hxs) as Hp. destruct (final_accepted _ _ _ _ _ _ E2 Hst) as [Hf Hc].
  split; [|done]. rewrite Hc, app_assoc, Hp. unfold init_calls. rewrite Ha. unfold upload_calls. cbn [app].
  by rewrite <- !app_assoc.
Qed.
End ota.

(** ** Uploads on a small device *)

(** A flash writer that counts its calls and fails the one of a given number. *)
Record demo_flash := DemoFlash { image : list byte; count : nat; fails : option nat }.

#[global] Instance demo_img : FlashImg := {|
  flash := demo_flash;
  flash_img_init f := (0%Z, DemoFlash [] (count f) (fails f));
  flash_img_buffered_write d flush f :=
    if decide (fails f = Some (count f)) then ((- EIO)%Z, DemoFlash (image f) (S (count f)) (fails f))
    else (0%Z, DemoFlash (image f ++ d) (S (count f)) (fails f));
  flash_img_bytes_written f := Z.of_nat (length (image f));
  boot_request_upgrade f := (0%Z, f);
  k_work_reschedule _ f := f;
|}.

Definition piece (s : string) : request_ctx := Request (cs s) None.

Definition demo_start (failing : option nat) : list byte * Ota.ota demo_img :=
  (replicate 96 NUL, Ota.State false (DemoFlash [] 0 failing) []).

Definition demo_upload (failing : option nat) (l : list string) (final : string)
    : list (option http_status) * list Ota.flash_call :=
  let t := transaction (on_pair ota_handler) (piece <$> l) (piece final) (demo_start failing) in
  ((fun a : option response => status <$> a) <$> t.1, Ota.calls t.2.2).

(** The second of four pieces fails: it is answered 500, and yet the upload goes
    on as a new image, is answered 200 and the upgrade to it requested. *)
Example demo_failed_upload_goes_on :
  demo_upload (Some 1) ["AA"; "BB"; "CC"] "DD"
  = ([None; Some HTTP_500_INTERNAL_SERVER_ERROR; None; Some HTTP_200_OK],
     [Ota.CallInit 0; Ota.CallWrite (cs "AA") false 0; Ota.CallWrite (cs "BB") false (- EIO);
      Ota.CallInit 0; Ota.CallWrite (cs "CC") false 0; Ota.CallWrite (cs "DD") true 0;
      Ota.CallUpgrade 0; Ota.CallReboot 2000]).
Proof. vm_compute. reflexivity. Qed.

(** The last piece is empty: no call flushes what the library still holds. *)
Example demo_empty_final_not_flushed :
  demo_upload None ["AA"] ""
  = ([None; Some HTTP_200_OK],
     [Ota.CallInit 0; Ota.CallWrite (cs "AA") false 0; Ota.CallUpgrade 0; Ota.CallReboot 2000]).
Proof. vm_compute. reflexivity. Qed.
End OtaSpec.

(** ** Witness *)

Lemma ota_upload_exact_witness :
  Ota.calls (Transaction.transaction (Transaction.on_pair HttpServer.ota_handler) [OtaSpec.piece "AA"] (OtaSpec.piece "BB")
               (OtaSpec.demo_start None)).2.2
  = [Ota.CallInit 0; Ota.CallWrite (cs "AA") false 0; Ota.CallWrite (cs "BB") true 0; Ota.CallUpgrade 0; Ota.CallReboot 2000].
Proof.
  destruct (Transaction.transaction (Transaction.on_pair HttpServer.ota_handler) [OtaSpec.piece "AA"] (OtaSpec.piece "BB")
               (OtaSpec.demo_start None)) as [answers [a' o']] eqn:E.
  assert (exists answer, answers = replicate 1 None ++ [Some answer] /\ HttpServer.status answer = HttpServer.HTTP_200_OK) as (answer & Hx & Hs).
  { apply (f_equal fst) in E. cbn [fst] in E. rewrite <- E. eexists. split; vm_compute; reflexivity. }
  rewrite Hx in E.
  exact (proj1 (OtaSpec.ota_upload_exact [OtaSpec.piece "AA"] (OtaSpec.piece "BB") (replicate 96 NUL) (OtaSpec.demo_start None).2
    answer a' o' eq_refl E Hs)).
Defined.
