(* ===== verification/HttpDemo.v ===== *)
(** * The web interface on a small system

    Instances of everything the web interface works on - files in memory, a shell
    that echoes, a flash writer that counts - with requests evaluated on them, and
    the theorems of HttpServerInv.v and HttpServerSpec.v applied to them. *)

From S2P Require Import Prelude CLib Json Ring LogBuffer ShellExec AppFs FileService Ota HttpServer HttpTransaction HttpServerInv HttpServerSpec OtaSpec.
From Stdlib Require Import ZArith Lia.
From Stdlib Require Import Strings.Byte.
From stdpp Require Import base numbers list list_numbers strings.

Module HttpDemo.
Import HttpServer Transaction ServerInv ServerSpec.

(** The bytes on the stack are not zero. *)
#[global] Instance demo_uninit : Uninit := {| uninit n := replicate n x55; length_uninit n := length_replicate n x55 |}.
#[global] Instance demo_version : AppVersion := {| APP_VERSION_STRING := cs "1.0" |}.
#[global, program] Instance demo_dummy : DummyConfig := {| SHELL_BACKEND_DUMMY_BUF_SIZE := 16 |}.
Next Obligation. lia. Qed.

(** A shell whose output is the command; the state has the output and the
    commands run. *)
#[global] Instance demo_shell : ShellBackend := {|
  backend := list byte * list cstr;
  shell_try_lock b := (0%Z, b);
  shell_backend_dummy_get_output b := (b.1, ([], b.2));
  shell_backend_dummy_clear_output b := ([], b.2);
  shell_execute_cmd b c := (0%Z, (cs "> " ++ c, b.2 ++ [c]));
  shell_backend_dummy_push_input b i := (0%Z, (i, b.2));
  backend_malloc b := (true, b);
|}.

Definition demo_server : server (F := MemFs.mem) (G := OtaSpec.demo_img) (LF := nat) (LC := nat) :=
  initial_server FileService.demo_world ([], []) (OtaSpec.DemoFlash [] 0 None) demo_log.

Definition json (s : string) : request_ctx := Request (js s) None.

(** A file pushed in two pieces, cut within the key. *)
Definition push_pieces : list request_ctx := [json "{'path':'/STORAGE:/x','fi"].
Definition push_final : request_ctx := json "le':'hello'}".

Example demo_push :
  (fun x : option response => x ≫= sent) <$>
    (transaction (on_pair push_handler) push_pieces push_final (push demo_server, files_world demo_server)).1
  = [None; Some (js "{'ok':true,'path':'/STORAGE:/x'}" ++ newline_text)].
Proof. vm_compute. reflexivity. Qed.

Example demo_health :
  health_text (Health 0 0 0 0 (- EIO) 0)
  = js "{'status':'degraded','filesystem':0,'devfs':0,'gpio':0,'led':0,'iwasm':-5,'wifi':0,'abi':'1.0'}" ++ newline_text.
Proof. vm_compute. reflexivity. Qed.

(** An upload of more than the array holds is answered 413, and its last piece is
    then written as a file of its own, named by its first line. *)
Example demo_oversized_tail_is_written :
  let t := transaction (on_pair pushbin_handler) [Request (replicate 4096 "a"%byte) None]
             (Request (cs "/STORAGE:/y" ++ newline_text ++ cs "tail") None) (pushbin demo_server, files_world demo_server) in
  (fun x : option response => status <$> x) <$> t.1 = [Some HTTP_413_PAYLOAD_TOO_LARGE; Some HTTP_200_OK]
  /\ FileService.ops t.2.2
     = [FileService.OpOpen (cs "/STORAGE:/y") true 0; FileService.OpWrite 4; FileService.OpClose].
Proof. vm_compute. split; reflexivity. Qed.

(** The end of an earlier answer shows up behind an output that is cut. *)
Example demo_stale_output :
  c_string (Json.append_json_string (Json.append_json_string (replicate 16 NUL) 16 (replicate 7 newline)).2 16
              ([x01] ++ cs "aaaaa" ++ [x01])).2
  = [backslash] ++ cs "u0001aaaaan" ++ [backslash] ++ cs "n".
Proof. vm_compute. reflexivity. Qed.

(** A path too long for the array of the answer, which is then read past its end. *)
Example demo_long_path : printed 96 (ok_text (cs "/STORAGE:/" ++ replicate 80 "a"%byte)) = None.
Proof. vm_compute. reflexivity. Qed.

(** A literal answer is sent without its last two characters. *)
Example demo_literal_cut : write_failed = js "{'error':'write failed'".
Proof. vm_compute. reflexivity. Qed.

Lemma demo_server_reachable : server_reachable demo_server.
Proof. apply reach_initial, demo_log_ok. Qed.

Lemma demo_safe : buffers_safe demo_server.
Proof. apply initial_safe, demo_log_ok. Qed.

Definition demo_upgraded : server (F := MemFs.mem) (G := OtaSpec.demo_img) (LF := nat) (LC := nat) :=
  (serve OtaResource HTTP_SERVER_REQUEST_DATA_FINAL (Request (cs "image") None) demo_server).2.

Lemma demo_upgraded_reachable : server_reachable demo_upgraded.
Proof. eapply reach_step; [exact demo_server_reachable|apply step_serve]. Qed.
End HttpDemo.

(** ** Witnesses *)

Import HttpDemo.

Lemma http_buffers_safe_witness : ServerInv.buffers_safe demo_upgraded.
Proof. exact (ServerInv.http_buffers_safe demo_upgraded demo_upgraded_reachable). Defined.

Lemma ota_upgrade_justified_witness :
  exists before ws, [Ota.CallInit 0; Ota.CallWrite (cs "image") true 0] = before ++ Ota.CallInit 0 :: ws
  /\ Forall Ota.write_done ws.
Proof.
  apply (ServerInv.ota_upgrade_justified demo_upgraded [Ota.CallInit 0; Ota.CallWrite (cs "image") true 0] 0 [Ota.CallReboot 2000]
           demo_upgraded_reachable).
  vm_compute. reflexivity.
Defined.

Lemma push_file_exact_witness :
  exists a s', Transaction.transaction (Transaction.on_pair HttpServer.push_handler) push_pieces push_final
      (HttpServer.push demo_server, HttpServer.files_world demo_server)
    = ([None; Some a], (s', (ServerSpec.push_result (HttpServer.js "{'path':'/STORAGE:/x','file':'hello'}") FileService.demo_world).2))
  /\ ServerSpec.sent a = Some (HttpServer.js "{'ok':true,'path':'/STORAGE:/x'}" ++ HttpServer.newline_text).
Proof.
  destruct (ServerSpec.push_file_exact push_pieces push_final (HttpServer.push demo_server) (HttpServer.files_world demo_server))
    as (a & s' & E & _ & _ & Ha).
  - apply Transaction.idle_intro; reflexivity.
  - reflexivity.
  - apply Nat.ltb_lt. vm_compute. reflexivity.
  - exists a, s'. split; [exact E|]. rewrite (ServerSpec.answer_sent _ _ _ Ha). vm_compute. reflexivity.
Defined.

Lemma pushbin_file_exact_witness :
  exists a s' w', Transaction.transaction (Transaction.on_pair HttpServer.pushbin_handler)
      [HttpServer.Request (cs "/STORAGE:/apps") None] (HttpServer.Request (cs "/y" ++ HttpServer.newline_text ++ cs "data") None)
      (HttpServer.pushbin demo_server, HttpServer.files_world demo_server)
    = ([None; Some a], (s', w')) /\ ServerSpec.sent a = Some (HttpServer.js "{'ok':true,'path':'/STORAGE:/apps/y'}" ++ HttpServer.newline_text).
Proof.
  destruct (ServerSpec.pushbin_file_exact [HttpServer.Request (cs "/STORAGE:/apps") None]
    (HttpServer.Request (cs "/y" ++ HttpServer.newline_text ++ cs "data") None) (HttpServer.pushbin demo_server)
    (HttpServer.files_world demo_server)) as (a & s' & E & _ & Ha).
  - split; [split; [split|]|apply Transaction.idle_intro|]; reflexivity.
  - repeat constructor; intros v; cbn; discriminate.
  - apply Nat.ltb_lt. vm_compute. reflexivity.
  - exists a, s'. eexists. split; [exact E|]. rewrite (ServerSpec.answer_sent _ _ _ Ha). vm_compute. reflexivity.
Defined.

Lemma shell_request_exact_witness :
  exists a s', Transaction.transaction (Transaction.on_pair HttpServer.shell_handler) [json "{'cmd':"] (json "'ls'}")
      (HttpServer.shell demo_server, HttpServer.shell_world demo_server)
    = ([None; Some a], (s', (cs "" , [cs "ls"])))
  /\ ServerSpec.sent a = Some (HttpServer.js "{'rc':0,'output':'> ls','attached':false}" ++ HttpServer.newline_text).
Proof.
  destruct (ServerSpec.shell_request_exact [json "{'cmd':"] (json "'ls'}") (HttpServer.shell demo_server) (HttpServer.shell_world demo_server))
    as (a & s' & k & tail & E & _ & _ & Ha & Hfit).
  - exact (ServerInv.safe_shell _ demo_safe).
  - apply Transaction.idle_intro; reflexivity.
  - apply Nat.ltb_lt. vm_compute. reflexivity.
  - exists a, s'. split; [exact E|]. rewrite (ServerSpec.answer_sent _ _ _ Ha), Hfit; [vm_compute; reflexivity|].
    apply Nat.ltb_lt. vm_compute. reflexivity.
Defined.

Lemma log_request_exact_witness :
  exists a s', Transaction.transaction (Transaction.on_pair HttpServer.log_handler) [] (json "{'clear':true}")
      (HttpServer.log demo_server, HttpServer.log_world demo_server)
    = ([Some a], (s', LogBuffer.log_buffer_clear demo_log))
  /\ ServerSpec.sent a = Some (HttpServer.js "{'messages':'boot'}" ++ HttpServer.newline_text).
Proof.
  destruct (ServerSpec.log_request_exact [] (json "{'clear':true}") (HttpServer.log demo_server) (HttpServer.log_world demo_server))
    as (a & s' & k & tail & E & _ & _ & Ha & Hfit).
  - exact (proj1 (ServerInv.safe_log _ demo_safe)).
  - exact (proj2 (ServerInv.safe_log _ demo_safe)).
  - apply Transaction.idle_intro; reflexivity.
  - apply Nat.ltb_lt. vm_compute. reflexivity.
  - exists a, s'. split; [exact E|]. rewrite (ServerSpec.answer_sent _ _ _ Ha), Hfit; [vm_compute; reflexivity|].
    apply Nat.ltb_lt. vm_compute. reflexivity.
Defined.
