(* ===== verification/SampleDrivers.v ===== *)
(** * The drivers of the application template

    Models of src/drivers/blink/gpio_led.c with its interface
    src/include/app/drivers/blink.h, of src/drivers/sensor/example_sensor and of
    src/lib/custom/custom.c, over any GPIO controller.  The timer of the blink driver
    is Zephyr's: it is armed with a duration and a period or it is stopped, and it
    expires only while it is armed. *)

From S2P Require Import Prelude CLib.
From Stdlib Require Import ZArith Lia.
From stdpp Require Import base numbers list.

Inductive dt_flags := DT_OUTPUT_INACTIVE | DT_INPUT.

(** The pin of a [struct gpio_dt_spec]. *)
Class DtGpio := {
  dt_hw : Type;
  dt_ready : dt_hw -> bool;
  dt_configure : dt_flags -> dt_hw -> Z * dt_hw;
  dt_set : Z -> dt_hw -> Z * dt_hw;
  dt_toggle : dt_hw -> Z * dt_hw;
  dt_get : dt_hw -> Z;
}.

(** ** The interface of blink drivers *)

Class blink_driver_api (D : Type) := { set_period_ms : Z -> D -> Z * D }.

Section blink_api.
Context {D : Type} {A : blink_driver_api D}.

Definition blink_set_period_ms (period_ms : Z) (dev : D) : Z * D := set_period_ms period_ms dev.
Definition blink_off (dev : D) : Z * D := blink_set_period_ms 0 dev.
End blink_api.

Module BlinkLed.
Section blink.
Context {G : DtGpio}.

(** The period of the device tree, the timer with its duration and its period, and the
    pin. *)
Record blink_gpio_led := Blink { period_ms : Z; timer : option (Z * Z); led : dt_hw }.

Definition set_timer (t : option (Z * Z)) (d : blink_gpio_led) : blink_gpio_led := Blink (period_ms d) t (led d).
Definition set_led (h : dt_hw) (d : blink_gpio_led) : blink_gpio_led := Blink (period_ms d) (timer d) h.

Definition on_timer_expire (d : blink_gpio_led) : blink_gpio_led := set_led (dt_toggle (led d)).2 d.

Definition blink_gpio_led_set_period_ms (period : Z) (d : blink_gpio_led) : Z * blink_gpio_led :=
  if decide (period = 0%Z) then
    let d := set_timer None d in
    let '(ret, h) := dt_set 0 (led d) in (ret, set_led h d)
  else (0%Z, set_timer (Some (period, period)) d).

#[global] Instance blink_gpio_led_api : blink_driver_api blink_gpio_led := {| set_period_ms := blink_gpio_led_set_period_ms |}.

Definition blink_gpio_led_init (d : blink_gpio_led) : Z * blink_gpio_led :=
  if negb (dt_ready (led d)) then ((- ENODEV)%Z, d)
  else
    let '(ret, h) := dt_configure DT_OUTPUT_INACTIVE (led d) in
    let d := set_led h d in
    if decide (ret < 0)%Z then (ret, d)
    else
      let d := set_timer None d in
      (0%Z, if decide (0 < period_ms d)%Z then set_timer (Some (period_ms d, period_ms d)) d else d).

(** ** The driver at work *)

Inductive blink_event := Period (p : Z) | Expire.

(** Calls of the interface, and expiries of the timer while it is armed. *)
Inductive blink_step : blink_event -> blink_gpio_led -> blink_gpio_led -> Prop :=
| step_period p d : blink_step (Period p) d (blink_set_period_ms p d).2
| step_expire d : timer d <> None -> blink_step Expire d (on_timer_expire d).

Inductive blink_steps : list blink_event -> blink_gpio_led -> blink_gpio_led -> Prop :=
| steps_nil d : blink_steps [] d d
| steps_cons e l d1 d2 d3 : blink_step e d1 d2 -> blink_steps l d2 d3 -> blink_steps (e :: l) d1 d3.

(** What the events ask of the pin. *)
Definition pin_effect (e : blink_event) (h : dt_hw) : dt_hw :=
  match e with
  | Period p => if decide (p = 0%Z) then (dt_set 0 h).2 else h
  | Expire => (dt_toggle h).2
  end.

(** The last period asked for, if there was one. *)
Definition asked (d : blink_gpio_led) (l : list blink_event) : option (Z * Z) :=
  foldl (fun t e => match e with Period p => if decide (p = 0%Z) then None else Some (p, p) | Expire => t end) (timer d) l.

Lemma blink_step_effect e d d' :
  blink_step e d d' -> led d' = pin_effect e (led d) /\ timer d' = asked d [e] /\ period_ms d' = period_ms d.
Proof.
  intros [p d0|d0 Ht]; [|done]. cbn. unfold blink_gpio_led_set_period_ms. case_decide; [|done]. cbn. by destruct (dt_set 0 (led d0)).
Qed.

(** C40: the blink driver, whatever the order of its calls and of the expiries of its
    timer: the pin is toggled once for every expiry and set to 0 by every call that
    turns blinking off, and by nothing else; the timer runs with the last period that
    was asked for, so that after [blink_off] nothing happens to the pin until a period
    is set again. *)
Theorem blink_driver_traces l d d' :
  blink_steps l d d' ->
  led d' = foldl (fun h e => pin_effect e h) (led d) l /\ timer d' = asked d l
  /\ forall l2 d2, blink_steps l2 (blink_off d').2 d2 -> Forall (fun e => e = Expire) l2 -> l2 = [] /\ d2 = (blink_off d').2.
Proof.
  intros H. split; [|split].
  - induction H as [d|e l d1 d2 d3 H1 _ IH]; [done|]. destruct (blink_step_effect e d1 d2 H1) as (E & _ & _). cbn. by rewrite <- E.
  - induction H as [d|e l d1 d2 d3 H1 _ IH]; [done|]. destruct (blink_step_effect e d1 d2 H1) as (_ & E & _).
    rewrite IH. unfold asked in *. cbn in *. by rewrite <- E.
  - assert (timer (blink_off d').2 = None) as Hoff by (cbn; unfold blink_gpio_led_set_period_ms; cbn; by destruct (dt_set 0 _)).
    intros l2 d2 H2 Hall. destruct H2 as [d2|e l2 d1 d2 d3 H1 _]; [done|]. apply Forall_cons in Hall as [-> _]. by inversion H1.
Qed.

(** A start with a period arms the timer; a controller that is not ready or refuses
    leaves the driver out. *)
Lemma blink_init_spec d ret d' :
  blink_gpio_led_init d = (ret, d') ->
  (ret = 0%Z /\ led d' = (dt_configure DT_OUTPUT_INACTIVE (led d)).2
     /\ timer d' = if decide (0 < period_ms d)%Z then Some (period_ms d, period_ms d) else None)
  \/ ((ret < 0)%Z /\ timer d' = timer d).
Proof.
  unfold blink_gpio_led_init. destruct (dt_ready (led d)); cbn [negb]; [|intros [= <- <-]; right; by split].
  destruct (dt_configure _ _) as [r h]. case_decide; intros [= <- <-]; [by right|]. left. cbn. by case_decide.
Qed.
End blink.
End BlinkLed.

(** ** The example sensor *)

(** The channel of Zephyr's sensor interface the driver serves. *)
Class SensorChannels := { SENSOR_CHAN_PROX : Z }.

Module ExampleSensor.
Section sensor.
Context {G : DtGpio} {SC : SensorChannels}.

Record example_sensor := Sensor { state : Z; input : dt_hw }.

Definition example_sensor_sample_fetch (chan : Z) (d : example_sensor) : Z * example_sensor :=
  (0%Z, Sensor (dt_get (input d)) (input d)).

(** The result and, when it is stored, [val1]. *)
Definition example_sensor_channel_get (chan : Z) (d : example_sensor) : Z * option Z :=
  if decide (chan <> SENSOR_CHAN_PROX) then ((- ENOTSUP)%Z, None) else (0%Z, Some (state d)).

Definition example_sensor_init (d : example_sensor) : Z * example_sensor :=
  if negb (dt_ready (input d)) then ((- ENODEV)%Z, d)
  else
    let '(ret, h) := dt_configure DT_INPUT (input d) in
    let d := Sensor (state d) h in
    if decide (ret < 0)%Z then (ret, d) else (0%Z, d).

(** A fetch that fails is not reported: the error is the next sample. *)
Lemma sensor_error_is_sample chan d :
  (dt_get (input d) < 0)%Z ->
  (example_sensor_sample_fetch chan d).1 = 0%Z
  /\ example_sensor_channel_get SENSOR_CHAN_PROX (example_sensor_sample_fetch chan d).2 = (0%Z, Some (dt_get (input d))).
Proof. intros _. split; [done|]. unfold example_sensor_channel_get. rewrite decide_False by (intros Hn; by apply Hn). done. Qed.
End sensor.
End ExampleSensor.

(** ** The custom library *)

Class CustomConfig := { CONFIG_CUSTOM_GET_VALUE_DEFAULT : Z }.

Definition custom_get_value {C : CustomConfig} (val : Z) : Z :=
  if decide (val <> 0%Z) then val else CONFIG_CUSTOM_GET_VALUE_DEFAULT.

(** ** A pin that records *)

Module SampleDriversDemo.
Import BlinkLed.

Inductive pin_call := Set_ (v : Z) | Toggle.

#[local] Instance demo_pin : DtGpio := {|
  dt_hw := list pin_call;
  dt_ready _ := true;
  dt_configure _ h := (0%Z, h);
  dt_set v h := (0%Z, h ++ [Set_ v]);
  dt_toggle h := (0%Z, h ++ [Toggle]);
  dt_get _ := 1%Z;
|}.

Definition demo_events : list blink_event := [Expire; Expire; Period 100; Expire; Period 0].
Definition demo_led : blink_gpio_led := (blink_gpio_led_init (Blink 500 None [])).2.
Definition demo_end : blink_gpio_led := Blink 500 None [Toggle; Toggle; Toggle; Set_ 0].

Lemma demo_steps : blink_steps demo_events demo_led demo_end.
Proof.
  eapply steps_cons; [by apply step_expire|]. eapply steps_cons; [by apply step_expire|].
  eapply steps_cons; [apply step_period|]. eapply steps_cons; [by apply step_expire|].
  eapply steps_cons; [apply step_period|]. apply steps_nil.
Qed.

Lemma blink_driver_traces_witness :
  blink_steps demo_events demo_led demo_end
  /\ led demo_end = foldl (fun h e => pin_effect e h) (led demo_led) demo_events /\ timer demo_end = asked demo_led demo_events.
Proof.
  split; [exact demo_steps|]. destruct (blink_driver_traces demo_events demo_led demo_end demo_steps) as (H1 & H2 & _). exact (conj H1 H2).
Defined.
End SampleDriversDemo.
