(* ===== verification/WasmMemory.v ===== *)
(** * Memory of applications

    The memory of a WebAssembly instance as the host functions see it: native
    addresses, with the check of the runtime that a range lies in the linear
    memory of the instance.  [LinearMemory] is an instance of the interface, an
    array of bytes at an address. *)

From S2P Require Import Prelude CLib.
From Stdlib Require Import ZArith Lia.
From Stdlib Require Import Strings.Byte.
From stdpp Require Import base numbers list list_numbers strings.

(** Addresses are integers, 0 is NULL; [validate_native_addr] is
    [wasm_runtime_validate_native_addr]. *)
Class AppMemory := {
  mem : Type;
  load : Z -> nat -> mem -> list byte;
  store : Z -> list byte -> mem -> mem;
  validate_native_addr : Z -> Z -> mem -> bool;
}.

(** The range of [n] bytes at [a] and that of [k] bytes at [b] have no byte in
    common. *)
Definition disjoint_ranges (a n b k : Z) : Prop := (a + n <= b \/ b + k <= a)%Z.

Class AppMemoryLaws (M : AppMemory) := {
  valid_addresses a n m : (0 <= n)%Z -> validate_native_addr a n m = true -> (0 < a /\ a + n < 2 ^ 32)%Z;
  valid_after_store a n b d m : validate_native_addr a n (store b d m) = validate_native_addr a n m;
  load_nothing a m : load a 0 m = [];
  length_load a n m : validate_native_addr a (Z.of_nat n) m = true -> length (load a n m) = n;
  load_part a k n m : k <= n -> validate_native_addr a (Z.of_nat n) m = true -> load a k m = take k (load a n m);
  load_store a d m : validate_native_addr a (Z.of_nat (length d)) m = true -> load a (length d) (store a d m) = d;
  load_disjoint a n b d m : disjoint_ranges a (Z.of_nat n) b (Z.of_nat (length d)) -> load a n (store b d m) = load a n m;
}.

Module LinearMemory.

(** The bytes of an instance, the first at the address [base]. *)
Record linear := Linear { base : positive; bytes : list byte }.

(** The index of an address in the array, and the check of a range. *)
Definition offset (a : Z) (m : linear) : nat := Z.to_nat (a - Z.pos (base m)).
Definition inside (a n : Z) (m : linear) : bool :=
  bool_decide (Z.pos (base m) <= a /\ a + n <= Z.pos (base m) + Z.of_nat (length (bytes m)) /\ a + n < 2 ^ 32)%Z.

Definition linear_load (a : Z) (n : nat) (m : linear) : list byte :=
  if inside a (Z.of_nat n) m then take n (drop (offset a m) (bytes m)) else [].
Definition linear_store (a : Z) (d : list byte) (m : linear) : linear :=
  if inside a (Z.of_nat (length d)) m then Linear (base m) (write_at (bytes m) (offset a m) d) else m.

#[global] Instance linear_memory : AppMemory :=
  {| mem := linear; load := linear_load; store := linear_store; validate_native_addr := inside |}.

Lemma inside_range a n m :
  inside a (Z.of_nat n) m = true ->
  offset a m + n <= length (bytes m) /\ (0 < a)%Z /\ (a + Z.of_nat n < 2 ^ 32)%Z /\ Z.of_nat (offset a m) = (a - Z.pos (base m))%Z.
Proof. unfold inside, offset. rewrite bool_decide_eq_true. lia. Qed.

Lemma inside_store a n b d m : inside a n (linear_store b d m) = inside a n m.
Proof.
  unfold linear_store. destruct (inside b _ m) eqn:E; [|done]. apply inside_range in E as (E & _).
  unfold inside. cbn. by rewrite length_write_at by lia.
Qed.

Lemma linear_load_disjoint a n b d m :
  disjoint_ranges a (Z.of_nat n) b (Z.of_nat (length d)) -> linear_load a n (linear_store b d m) = linear_load a n m.
Proof.
  intros Hd. unfold linear_load. rewrite inside_store. destruct (inside a (Z.of_nat n) m) eqn:Ea; [|done].
  unfold linear_store. destruct (inside b _ m) eqn:Eb; [|done].
  apply inside_range in Ea as (Ha & _ & _ & Hoa). apply inside_range in Eb as (Hb & _ & _ & Hob). unfold disjoint_ranges in Hd.
  unfold offset in Hoa, Hob, Ha, Hb |- *. cbn. apply list_eq. intros i. destruct (decide (i < n)) as [Hi|Hi].
  - rewrite !lookup_take_lt, !lookup_drop by done. apply lookup_write_at_old; lia.
  - rewrite !lookup_take_ge by lia. done.
Qed.

#[global] Instance linear_memory_laws : AppMemoryLaws linear_memory.
Proof.
  split; cbn [mem load store validate_native_addr linear_memory].
  - intros a n m Hn Hv. apply bool_decide_eq_true in Hv. lia.
  - intros a n b d m. apply inside_store.
  - intros a m. unfold linear_load. by case_match.
  - intros a n m Hv. unfold linear_load. rewrite Hv. apply inside_range in Hv as (Hv & _). rewrite length_take, length_drop. lia.
  - intros a k n m Hk Hv. assert (inside a (Z.of_nat k) m = true) as Hv'.
    { unfold inside in *. rewrite bool_decide_eq_true in *. lia. }
    unfold linear_load. by rewrite Hv, Hv', take_take, Nat.min_l by done.
  - intros a d m Hv. unfold linear_load. rewrite inside_store, Hv. unfold linear_store. rewrite Hv.
    apply inside_range in Hv as (Hv & _). unfold offset, write_at in *. cbn.
    rewrite drop_app_length'; [apply take_app_length|]. rewrite length_take. lia.
  - intros a n b d m. apply linear_load_disjoint.
Qed.
End LinearMemory.
