(* ===== verification/WasmHost.v ===== *)
(** * The host functions of WebAssembly applications

    Model of the native functions that
    src/app/src/services/iwasm/iwasm.c registers with the WebAssembly runtime:
    logging, files, time and HTTP requests, each with the checks of addresses,
    sizes, paths and URLs it makes before it touches anything.

    The application memory is any [AppMemory], the file system any [AppFs], the
    kernel heap any [KernelHeap]; requests go to the HTTP client of HttpClient.v.
    The context of the application is the custom data of its instance.  The field
    [events] is a ghost, the history of what an application makes the host do; no
    definition reads it. *)

From S2P Require Import Prelude CLib AppContext HttpClient AppFs WasmMemory.
From Stdlib Require Import ZArith Lia.
From Stdlib Require Import Strings.Byte.
From stdpp Require Import base numbers list list_numbers strings.

(** The limits of HTTP requests, from Kconfig. *)
Class HttpLimits := {
  WASM_HTTP_MAX_URL_LEN : Z;
  WASM_HTTP_MAX_HEADERS_LEN : Z;
  WASM_HTTP_MAX_REQUEST_BODY : Z;
  WASM_HTTP_MAX_RESPONSE_BODY : Z;
  WASM_HTTP_MAX_TIMEOUT_MS : Z;
  http_limits_range : (64 <= WASM_HTTP_MAX_URL_LEN <= 2048 /\ 0 <= WASM_HTTP_MAX_HEADERS_LEN <= 4096
    /\ 0 <= WASM_HTTP_MAX_REQUEST_BODY <= 65536 /\ 256 <= WASM_HTTP_MAX_RESPONSE_BODY <= 131072
    /\ 1000 <= WASM_HTTP_MAX_TIMEOUT_MS <= 300000)%Z;
}.

(** [k_malloc] returns an address, [None] for NULL. *)
Class KernelHeap := {
  kheap : Type;
  k_malloc : Z -> kheap -> option Z * kheap;
  k_free : Z -> kheap -> kheap;
}.

Definition WEBOS_LOG_ERROR : Z := 1.
Definition WEBOS_LOG_WARN : Z := 2.
Definition WEBOS_LOG_INFO : Z := 3.
Definition WEBOS_LOG_DEBUG : Z := 4.

(** [sizeof(struct web_http_response)]. *)
Definition RESPONSE_SIZE : Z := 20.

Module WasmHost.

Inductive log_level := LOG_ERR | LOG_WRN | LOG_INF | LOG_DBG.

(** What the host does for an application. *)
Inductive host_event :=
| EvLog (level : log_level) (id : cstr) (message : cstr)
| EvSleep (ms : Z)
| EvOpen (path : cstr) (m : open_mode) (ret : Z) (filep : bool)
| EvWrite (d : list byte) (ret : Z)
| EvRead (capacity : nat) (ret : Z)
| EvClose
| EvMalloc (size : Z) (a : option Z)
| EvFree (a : Z)
| EvRequest (method : Z) (url : cstr).

(** ** The response structure in memory *)

Definition response_of_bytes (l : list byte) : HttpClient.web_http_response :=
  HttpClient.WebResponse (get_le32 l) (get_le32 (drop 4 l)) (get_le32 (drop 8 l)) (get_le32 (drop 12 l)) (get_le32 (drop 16 l)).

Definition bytes_of_response (r : HttpClient.web_http_response) : list byte :=
  put_le32 (HttpClient.struct_size r) ++ put_le32 (HttpClient.status_code r) ++ put_le32 (HttpClient.body_len r)
  ++ put_le32 (HttpClient.content_length r) ++ put_le32 (HttpClient.flags r).

Section host.
Context {M : AppMemory} {F : AppFs} {K : KernelHeap} {L : HttpLimits} {P : UrlParser} {N : NetStack}.

Record host := Host {
  memory : mem;
  context : option App.webos_app_context;
  host_fs : appfs;
  heap : kheap;
  http : HttpClient.client;
  uptime : Z;
  events : list host_event;
}.

Definition set_memory (m : mem) (h : host) : host := Host m (context h) (host_fs h) (heap h) (http h) (uptime h) (events h).
Definition set_context (c : option App.webos_app_context) (h : host) : host :=
  Host (memory h) c (host_fs h) (heap h) (http h) (uptime h) (events h).
Definition set_host_fs (f : appfs) (l : list host_event) (h : host) : host :=
  Host (memory h) (context h) f (heap h) (http h) (uptime h) (events h ++ l).
Definition set_heap (k : kheap) (l : list host_event) (h : host) : host :=
  Host (memory h) (context h) (host_fs h) k (http h) (uptime h) (events h ++ l).
Definition set_http (c : HttpClient.client) (l : list host_event) (h : host) : host :=
  Host (memory h) (context h) (host_fs h) (heap h) c (uptime h) (events h ++ l).
Definition emit (l : list host_event) (h : host) : host :=
  Host (memory h) (context h) (host_fs h) (heap h) (http h) (uptime h) (events h ++ l).

(** Bytes the host stores in the application's memory. *)
Definition store_bytes (a : Z) (d : list byte) (h : host) : host :=
  match d with [] => h | _ => set_memory (store a d (memory h)) h end.

Definition valid_range (data length : Z) (h : host) : bool :=
  bool_decide (length = 0)%Z || (bool_decide (data <> 0)%Z && validate_native_addr data length (memory h)).

Definition host_webos_sleep_ms (ms : Z) (h : host) : host := set_host_fs (fs_wait ms (host_fs h)) [EvSleep ms] h.

Definition log_level_of (level : Z) : log_level :=
  if decide (level = WEBOS_LOG_ERROR) then LOG_ERR
  else if decide (level = WEBOS_LOG_WARN) then LOG_WRN
  else if decide (level = WEBOS_LOG_DEBUG) then LOG_DBG else LOG_INF.

Definition host_webos_log (level data length : Z) (h : host) : host :=
  match context h with
  | None => h
  | Some c =>
      if decide (App.max_io_bytes c < length)%Z then h
      else if negb (valid_range data length h) then h
      else
        let message := if decide (length = 0)%Z then [] else c_string (load data (Z.to_nat length) (memory h)) in
        emit [EvLog (log_level_of level) (App.id c) message] h
  end.

(** [if (file.filep != NULL) fs_close(&file)]. *)
Definition close_if_open (file : app_file) (h : host) : host :=
  if filep file then set_host_fs (fs_close file (host_fs h)).2 [EvClose] h else h.

Definition host_webos_write (path : option cstr) (data len : Z) (h : host) : Z * host :=
  match context h with
  | None => (WEBOS_TOO_LARGE, h)
  | Some c =>
      if decide (App.max_io_bytes c < len)%Z then (WEBOS_TOO_LARGE, h)
      else
        match path with
        | Some p =>
            if negb (App.webos_app_path_allowed (context h) path) then (WEBOS_DENIED, h)
            else if negb (valid_range data len h) then (WEBOS_INVALID, h)
            else
              let flags := Mode false true true (negb (starts_with (cs "/dev/") p)) in
              let '((ret, file), f) := fs_open flags p (host_fs h) in
              let h := set_host_fs f [EvOpen p flags ret (filep file)] h in
              let '((ret, file), h) :=
                if decide (ret = 0%Z) then
                  let d := load data (Z.to_nat len) (memory h) in
                  let '((ret, file), f) := fs_write file d (host_fs h) in
                  ((ret, file), set_host_fs f [EvWrite d ret] h)
                else ((ret, file), h) in
              (App.webos_abi_map_errno ret, close_if_open file h)
        | None => (WEBOS_DENIED, h)
        end
  end.

Definition host_webos_read (path : option cstr) (data capacity : Z) (h : host) : Z * host :=
  match context h with
  | None => (WEBOS_TOO_LARGE, h)
  | Some c =>
      if decide (App.max_io_bytes c < capacity)%Z then (WEBOS_TOO_LARGE, h)
      else
        match path with
        | Some p =>
            if negb (App.webos_app_path_allowed (context h) path) then (WEBOS_DENIED, h)
            else if negb (valid_range data capacity h) then (WEBOS_INVALID, h)
            else
              let '((ret, file), f) := fs_open FS_O_READ p (host_fs h) in
              let h := set_host_fs f [EvOpen p FS_O_READ ret (filep file)] h in
              let '((ret, file), h) :=
                if decide (ret = 0%Z) then
                  let '(((ret, d), file), f) := fs_read file (Z.to_nat capacity) (host_fs h) in
                  ((ret, file), store_bytes data d (set_host_fs f [EvRead (Z.to_nat capacity) ret] h))
                else ((ret, file), h) in
              (App.webos_abi_map_errno ret, close_if_open file h)
        | None => (WEBOS_DENIED, h)
        end
  end.

Definition host_webos_ready (h : host) : host := set_context (App.webos_app_mark_ready (context h) (uptime h)) h.
Definition host_webos_heartbeat (h : host) : host := set_context (App.webos_app_mark_heartbeat (context h) (uptime h)) h.

(** ** The aliases of older payloads

    A string argument comes with its address. *)

Definition log_print (msg : option (Z * cstr)) (h : host) : host :=
  match msg with
  | None => host_webos_log WEBOS_LOG_INFO 0 0 h
  | Some (a, s) => host_webos_log WEBOS_LOG_INFO a (Z.of_nat (length s)) h
  end.
Definition sleep_ms (ms : Z) (h : host) : host := host_webos_sleep_ms ms h.
Definition dev_fs_write (p : option cstr) (d n : Z) (h : host) : Z * host := host_webos_write p d n h.
Definition dev_fs_read (p : option cstr) (d n : Z) (h : host) : Z * host := host_webos_read p d n h.

(** ** HTTP requests *)

(** The arguments of [web_http_request]: addresses, with 0 for NULL, and sizes. *)
Record http_args := HttpArgs {
  method : Z; url : Z; url_len : Z; headers : Z; headers_len : Z; request_body : Z; request_body_len : Z;
  response_body : Z; response_capacity : Z; response : Z; response_size : Z; timeout_ms : Z;
}.

(** The first check: sizes. *)
Definition bad_sizes (a : http_args) : bool :=
  bool_decide (url a = 0 \/ url_len a = 0 \/ WASM_HTTP_MAX_URL_LEN < url_len a \/ WASM_HTTP_MAX_HEADERS_LEN < headers_len a
    \/ WASM_HTTP_MAX_REQUEST_BODY < request_body_len a \/ WASM_HTTP_MAX_RESPONSE_BODY < response_capacity a
    \/ response_size a < RESPONSE_SIZE \/ WASM_HTTP_MAX_TIMEOUT_MS < timeout_ms a)%Z.

(** An optional range: it may be anything when it is empty. *)
Definition optional_range (a n : Z) (m : mem) : bool :=
  negb (bool_decide (0 < n)%Z) || (negb (bool_decide (a = 0)%Z) && validate_native_addr a n m).

(** The second check: addresses. *)
Definition bad_addresses (a : http_args) (m : mem) : bool :=
  negb (validate_native_addr (url a) (url_len a) m)
  || negb (optional_range (headers a) (headers_len a) m)
  || negb (optional_range (request_body a) (request_body_len a) m)
  || negb (optional_range (response_body a) (response_capacity a) m)
  || bool_decide (response a = 0)%Z || negb (validate_native_addr (response a) RESPONSE_SIZE m).

(** The third check: the structure and the body overlap; [uintptr_t] has 32 bits. *)
Definition overlapping (a : http_args) : bool :=
  let response_end := u32 (response a + RESPONSE_SIZE) in
  let body_end := u32 (response_body a + response_capacity a) in
  bool_decide (0 < response_capacity a /\ response a < body_end /\ response_body a < response_end)%Z.

(** [k_malloc], a copy with a NUL behind it, and [k_free]; [None] is NULL. *)
Definition malloc (size : Z) (h : host) : option Z * host :=
  let '(p, k) := k_malloc size (heap h) in (p, set_heap k [EvMalloc size p] h).
Definition free (p : option Z) (h : host) : host :=
  match p with None => h | Some p => set_heap (k_free p (heap h)) [EvFree p] h end.

(** The copy of the headers, when there are any, and whether it worked. *)
Definition copy_headers (a : http_args) (h : host) : (option Z * bool) * host :=
  if decide (0 < headers_len a)%Z
  then let '(p, h) := malloc (headers_len a + 1) h in ((p, bool_decide (p <> None)), h)
  else ((None, true), h).

(** The request, which fills the body in place and a copy of the structure, and
    the copy back. *)
Definition perform_request (a : http_args) (url_text : list byte) (header_text : option cstr)
    (resp : HttpClient.web_http_response) (h : host) : Z * host :=
  let body_in := if decide (request_body a = 0%Z) then None else Some (load (request_body a) (Z.to_nat (request_body_len a)) (memory h)) in
  let body_out := if decide (response_body a = 0%Z) then None else Some (load (response_body a) (Z.to_nat (response_capacity a)) (memory h)) in
  let '((ret, result), c) :=
    HttpClient.webos_http_request (method a) (Some (c_string url_text)) header_text body_in (Z.to_nat (request_body_len a))
      body_out (Z.to_nat (response_capacity a)) (Some resp) (timeout_ms a) (http h) in
  let h := set_http c [EvRequest (method a) (c_string url_text)] h in
  let '(resp, h) :=
    match result with
    | Some r => (HttpClient.response r, store_bytes (response_body a) (HttpClient.body r) h)
    | None => (resp, h)
    end in
  (ret, store_bytes (response a) (bytes_of_response resp) h).

(** From the copy of the headers on; [url_copy] is allocated. *)
Definition request_copied (a : http_args) (url_text : list byte) (url_copy : Z) (resp : HttpClient.web_http_response) (h : host)
    : Z * host :=
  let '((headers_copy, ok), h) := copy_headers a h in
  if negb ok then (WEB_HTTP_ERR_BUSY, free (Some url_copy) h)
  else
    let header_text := (fun _ => c_string (load (headers a) (Z.to_nat (headers_len a)) (memory h))) <$> headers_copy in
    let '(ret, h) := perform_request a url_text header_text resp h in
    (ret, free (Some url_copy) (free headers_copy h)).

Definition host_web_http_request (a : http_args) (h : host) : Z * host :=
  if bad_sizes a then (WEB_HTTP_ERR_INVALID, h)
  else if bad_addresses a (memory h) then (WEB_HTTP_ERR_INVALID, h)
  else if overlapping a then (WEB_HTTP_ERR_INVALID, h)
  else
    let url_text := load (url a) (Z.to_nat (url_len a)) (memory h) in
    if decide (strchr url_text NUL <> None
               \/ (0 < headers_len a)%Z /\ strchr (load (headers a) (Z.to_nat (headers_len a)) (memory h)) NUL <> None)
    then (WEB_HTTP_ERR_INVALID, h)
    else if negb (App.webos_app_url_allowed (context h) (Some url_text)) then (WEB_HTTP_ERR_DENIED, h)
    else
      let resp := response_of_bytes (load (response a) (Z.to_nat RESPONSE_SIZE) (memory h)) in
      if decide (HttpClient.struct_size resp < RESPONSE_SIZE)%Z then (WEB_HTTP_ERR_INVALID, h)
      else
        let '(url_copy, h) := malloc (url_len a + 1) h in
        match url_copy with
        | None => (WEB_HTTP_ERR_BUSY, h)
        | Some p => request_copied a url_text p resp h
        end.

(** ** The table of native symbols *)

Inductive host_call :=
| WebosLog (level data length : Z)
| WebosSleepMs (ms : Z)
| WebosWrite (path : option cstr) (data len : Z)
| WebosRead (path : option cstr) (data capacity : Z)
| WebosReady
| WebosHeartbeat
| SleepMs (ms : Z)
| LogPrint (msg : option (Z * cstr))
| DevFsWrite (path : option cstr) (data len : Z)
| DevFsRead (path : option cstr) (data capacity : Z)
| WebHttpRequest (a : http_args).

(** A call of an application; functions without a result return 0. *)
Definition native_symbols (c : host_call) (h : host) : Z * host :=
  match c with
  | WebosLog level data length => (0%Z, host_webos_log level data length h)
  | WebosSleepMs ms => (0%Z, host_webos_sleep_ms ms h)
  | WebosWrite path data len => host_webos_write path data len h
  | WebosRead path data capacity => host_webos_read path data capacity h
  | WebosReady => (0%Z, host_webos_ready h)
  | WebosHeartbeat => (0%Z, host_webos_heartbeat h)
  | SleepMs ms => (0%Z, sleep_ms ms h)
  | LogPrint msg => (0%Z, log_print msg h)
  | DevFsWrite path data len => dev_fs_write path data len h
  | DevFsRead path data capacity => dev_fs_read path data capacity h
  | WebHttpRequest a => host_web_http_request a h
  end.

(** ** Applications

    What an application does, as far as the host can see: it runs, which changes
    its memory and takes time, and calls the host, whose answer and memory it sees
    next, until it ends, with or without an exception. *)

Inductive behaviour :=
| Finish (ok : bool)
| Calls (m : mem) (now : Z) (c : host_call) (k : Z -> mem -> behaviour).

Fixpoint run (b : behaviour) (h : host) : bool * host :=
  match b with
  | Finish ok => (ok, h)
  | Calls m now c k =>
      let h := Host m (context h) (host_fs h) (heap h) (http h) now (events h) in
      let '(ret, h) := native_symbols c h in run (k ret (memory h)) h
  end.
End host.
End WasmHost.
