(* ===== verification/WasmHostSpec.v ===== *)
(** * The confinement of WebAssembly applications

    What the host functions of WasmHost.v guarantee about any application: the
    files it can make the host open and the servers it can make it contact are
    those of its context, every file is closed and every allocation freed when a
    call returns, and a call stores only into the ranges of the application's
    memory that it was given. *)

From S2P Require Import Prelude CLib AppContext HttpClient HttpClientSpec AppFs WasmMemory WasmHost.
From Stdlib Require Import ZArith Lia.
From Stdlib Require Import Strings.Byte.
From stdpp Require Import base numbers list list_numbers strings.

Module WasmHostSpec.
Import WasmHost.

(** ** What a context permits *)

(** Contexts that differ at most in the marks of readiness and heartbeat. *)
Definition same_policy (a b : option App.webos_app_context) : Prop :=
  match a, b with
  | None, None => True
  | Some x, Some y =>
      App.id x = App.id y /\ App.storage_root x = App.storage_root y /\ App.path_grants x = App.path_grants y
      /\ App.path_grant_count x = App.path_grant_count y /\ App.http_origins x = App.http_origins y
      /\ App.http_origin_count x = App.http_origin_count y /\ App.max_io_bytes x = App.max_io_bytes y
  | _, _ => False
  end.

#[global] Instance same_policy_equivalence : Equivalence same_policy.
Proof.
  split.
  - intros [x|]; cbn; [by split_and!|done].
  - intros [x|] [y|]; cbn; try done. naive_solver congruence.
  - intros [x|] [y|] [z|]; cbn; try done. intros (?&?&?&?&?&?&?) (?&?&?&?&?&?&?). split_and!; congruence.
Qed.

#[global] Instance path_allowed_proper : Proper (same_policy ==> eq ==> eq) App.webos_app_path_allowed.
Proof.
  intros [x|] [y|] H p ? <-; try done. destruct H as (_ & H1 & H2 & H3 & _). unfold App.webos_app_path_allowed.
  destruct p as [p|]; [|done]. by rewrite H1, H2, H3.
Qed.

#[global] Instance url_allowed_proper : Proper (same_policy ==> eq ==> eq) App.webos_app_url_allowed.
Proof.
  intros [x|] [y|] H u ? <-; try done. destruct H as (_ & _ & _ & _ & H1 & H2 & _). unfold App.webos_app_url_allowed.
  destruct u as [u|]; [|done]. by rewrite H1, H2.
Qed.

(** The events a context permits: its own name in the log and bounded messages,
    files and URLs it allows, opened only for reading or for writing without
    reading, and transfers within its quota. *)
Definition permitted (c : option App.webos_app_context) (e : host_event) : Prop :=
  match e with
  | EvLog _ i msg => exists x, c = Some x /\ i = App.id x /\ (Z.of_nat (length msg) <= App.max_io_bytes x)%Z
  | EvOpen p m _ _ => App.webos_app_path_allowed c (Some p) = true
                      /\ (m = FS_O_READ \/ m = Mode false true true (negb (is_device p)))
  | EvWrite d _ => exists x, c = Some x /\ (Z.of_nat (length d) <= App.max_io_bytes x)%Z
  | EvRead n _ => exists x, c = Some x /\ (Z.of_nat n <= App.max_io_bytes x)%Z
  | EvRequest _ u => App.webos_app_url_allowed c (Some u) = true
  | EvSleep _ | EvClose | EvMalloc _ _ | EvFree _ => True
  end.

#[global] Instance permitted_proper : Proper (same_policy ==> eq ==> iff) permitted.
Proof.
  intros a b H e ? <-. destruct e; cbn; try done; rewrite ?H; try done.
  all: destruct a as [x|], b as [y|]; cbn in H; try done; split; intros (z & [= <-] & Hz); eexists; (split; [done|]);
    destruct H as (H1 & _ & _ & _ & _ & _ & H2); rewrite H1, H2 in * || rewrite H2 in *; done.
Qed.

(** ** Files and allocations

    A file is read or written only while it is open, and one at a time; memory is
    freed in the reverse order.  [ledger] is what is open and allocated. *)

Definition ledger (s : option (bool * list Z)) (e : host_event) : option (bool * list Z) :=
  match s with
  | None => None
  | Some (file_open, live) =>
      match e with
      | EvOpen _ _ ret _ => if file_open then None else Some (bool_decide (ret = 0%Z), live)
      | EvWrite _ _ | EvRead _ _ => if file_open then s else None
      | EvClose => if file_open then Some (false, live) else None
      | EvMalloc _ (Some p) => Some (file_open, p :: live)
      | EvFree p => match live with q :: live' => if decide (p = q) then Some (file_open, live') else None | [] => None end
      | _ => s
      end
  end.

Definition released (l : list host_event) : Prop := foldl ledger (Some (false, [])) l = Some (false, []).

Lemma released_nil : released [].
Proof. done. Qed.

Lemma released_app a b : released a -> released b -> released (a ++ b).
Proof. unfold released. intros Ha Hb. by rewrite foldl_app, Ha. Qed.

Section host.
Context {M : AppMemory} {ML : AppMemoryLaws M} {F : AppFs} {FH : AppFsHandles F} {FR : AppFsReads F}.
Context {K : KernelHeap} {L : HttpLimits} {P : UrlParser} {N : NetStack}.
Implicit Type h : host.

(** A call of the host: what it adds to the history is permitted and leaves
    nothing open or allocated, and it leaves the policy alone. *)
Definition confined h h' : Prop :=
  same_policy (context h) (context h')
  /\ exists l, events h' = events h ++ l /\ Forall (permitted (context h)) l /\ released l.

Lemma confined_refl h : confined h h.
Proof. split; [done|]. exists []. by rewrite app_nil_r. Qed.

Lemma confined_trans h1 h2 h3 : confined h1 h2 -> confined h2 h3 -> confined h1 h3.
Proof.
  intros [H1 (l1 & E1 & P1 & R1)] [H2 (l2 & E2 & P2 & R2)]. split; [by etransitivity|]. exists (l1 ++ l2).
  split; [by rewrite E2, E1, app_assoc|]. split; [|by apply released_app]. apply Forall_app. split; [done|].
  eapply Forall_impl; [exact P2|]. intros e. by rewrite <- H1.
Qed.

(** A step that adds the events [l]. *)
Lemma confined_events h h' l :
  context h' = context h -> events h' = events h ++ l -> Forall (permitted (context h)) l -> released l -> confined h h'.
Proof. intros Hc He Hp Hr. split; [by rewrite Hc|by exists l]. Qed.

Lemma valid_range_length data n h :
  (0 <= n)%Z -> valid_range data n h = true -> Z.of_nat (length (load data (Z.to_nat n) (memory h))) = n.
Proof.
  intros Hn Hv. unfold valid_range in Hv. destruct (decide (n = 0%Z)) as [->|Hz]; [by rewrite load_nothing|].
  rewrite bool_decide_false in Hv by done. apply andb_true_iff in Hv as [_ Hv].
  rewrite length_load; [lia|]. by rewrite Z2Nat.id.
Qed.

Lemma log_confined level data n h : (0 <= n)%Z -> confined h (host_webos_log level data n h).
Proof.
  intros Hn. unfold host_webos_log. destruct (context h) as [c|] eqn:Ec; [|apply confined_refl].
  case_decide; [apply confined_refl|]. destruct (valid_range data n h) eqn:Ev; [|apply confined_refl]. cbn [negb]. cbv zeta.
  eapply confined_events; [done|done| |done]. repeat constructor. exists c. split; [done|]. split; [done|].
  case_decide; [simpl; lia|]. pose proof (valid_range_length data n h Hn Ev) as Hl.
  pose proof (length_c_string (load data (Z.to_nat n) (memory h))). lia.
Qed.

(** A file that is opened, used if that worked, and closed if it is open. *)
Lemma file_confined h h' p m ret (e : host_event) :
  context h' = context h ->
  events h' = events h ++ EvOpen p m ret (bool_decide (ret = 0%Z)) :: (if decide (ret = 0%Z) then [e; EvClose] else []) ->
  permitted (context h) (EvOpen p m ret (bool_decide (ret = 0%Z))) -> permitted (context h) e ->
  (exists d r, e = EvWrite d r) \/ (exists n r, e = EvRead n r) -> confined h h'.
Proof.
  intros Hc He Hp1 Hp2 Hk. eapply confined_events; [done|exact He| |].
  - constructor; [done|]. case_decide; repeat constructor. done.
  - unfold released. cbn. case_decide as Hr.
    + rewrite bool_decide_true by done. by destruct Hk as [(d & r & ->)|(n & r & ->)].
    + by rewrite bool_decide_false.
Qed.

Lemma write_confined path data len h : (0 <= len)%Z -> confined h (host_webos_write path data len h).2.
Proof.
  intros Hl. unfold host_webos_write. destruct (context h) as [c|] eqn:Ec; [|apply confined_refl].
  case_decide as Hq; [apply confined_refl|]. destruct path as [p|]; [|apply confined_refl].
  destruct (App.webos_app_path_allowed _ _) eqn:Ea; [|apply confined_refl]. cbn [negb].
  destruct (valid_range data len h) eqn:Ev; [|apply confined_refl]. cbn [negb]. cbv zeta.
  set (m := Mode false true true _). pose proof (filep_open m p (host_fs h)) as Hfo.
  destruct (fs_open m p (host_fs h)) as [[ret file] f]. cbn [fst snd] in Hfo. rewrite Hfo.
  set (d := load data (Z.to_nat len) _). pose proof (valid_range_length data len h Hl Ev) as Hd.
  cbn [memory set_host_fs host_fs] in *. pose proof (filep_write file d f) as Hfw.
  destruct (fs_write file d f) as [[r file'] f']. cbn [fst snd] in Hfw. unfold close_if_open.
  apply (file_confined h _ p m ret (EvWrite d r)); cbn [permitted]; [..|by left; eexists _, _].
  - destruct (decide (ret = 0%Z)); cbn; destruct (filep file'), (filep file); done.
  - destruct (decide (ret = 0%Z)) as [Hr|Hr]; cbn.
    + rewrite Hfw, Hfo, bool_decide_true by done. cbn. by rewrite <- !app_assoc.
    + rewrite Hfo, bool_decide_false by done. done.
  - rewrite Ec. split; [done|]. by right.
  - exists c. split; [done|]. subst d. lia.
Qed.

Lemma store_bytes_events a d h : events (store_bytes a d h) = events h /\ context (store_bytes a d h) = context h
  /\ host_fs (store_bytes a d h) = host_fs h.
Proof. by destruct d. Qed.

Lemma read_confined path data capacity h : (0 <= capacity)%Z -> confined h (host_webos_read path data capacity h).2.
Proof.
  intros Hl. unfold host_webos_read. destruct (context h) as [c|] eqn:Ec; [|apply confined_refl].
  case_decide as Hq; [apply confined_refl|]. destruct path as [p|]; [|apply confined_refl].
  destruct (App.webos_app_path_allowed _ _) eqn:Ea; [|apply confined_refl]. cbn [negb].
  destruct (valid_range data capacity h) eqn:Ev; [|apply confined_refl]. cbn [negb].
  pose proof (filep_open FS_O_READ p (host_fs h)) as Hfo.
  destruct (fs_open FS_O_READ p (host_fs h)) as [[ret file] f]. cbn [fst snd] in Hfo. rewrite Hfo. cbv zeta.
  cbn [host_fs set_host_fs]. pose proof (filep_read file (Z.to_nat capacity) f) as Hfr.
  destruct (fs_read file (Z.to_nat capacity) f) as [[[r d] file'] f']. cbn [fst snd] in Hfr. unfold close_if_open.
  set (h1 := set_host_fs f' _ _). destruct (store_bytes_events data d h1) as (He1 & Hc1 & _).
  apply (file_confined h _ p FS_O_READ ret (EvRead (Z.to_nat capacity) r)); cbn [permitted]; [..|by right; eexists _, _].
  - destruct (decide (ret = 0%Z)); cbn; destruct (filep file'), (filep file); cbn; by rewrite ?Hc1.
  - destruct (decide (ret = 0%Z)) as [Hr|Hr]; cbn.
    + rewrite Hfr, Hfo. subst h1. rewrite bool_decide_true in * by done. cbn. rewrite He1. cbn. by rewrite <- !app_assoc.
    + rewrite Hfo, bool_decide_false by done. done.
  - rewrite Ec. split; [done|]. by left.
  - exists c. split; [done|]. lia.
Qed.

(** The request adds its event, and nothing else, to the history. *)
Lemma perform_events a url_text header_text resp h :
  context (perform_request a url_text header_text resp h).2 = context h
  /\ events (perform_request a url_text header_text resp h).2 = events h ++ [EvRequest (method a) (c_string url_text)].
Proof.
  unfold perform_request. destruct (HttpClient.webos_http_request _ _ _ _ _ _ _ _ _ _) as [[ret result] c]. cbv zeta.
  destruct result as [r|]; cbn [snd].
  - match goal with |- context [store_bytes (response a) ?d ?x] => destruct (store_bytes_events (response a) d x) as (-> & -> & _) end.
    match goal with |- context [store_bytes (response_body a) ?d ?x] => destruct (store_bytes_events (response_body a) d x) as (-> & -> & _) end.
    done.
  - match goal with |- context [store_bytes (response a) ?d ?x] => destruct (store_bytes_events (response a) d x) as (-> & -> & _) end.
    done.
Qed.

(** The headers are copied into at most one allocation. *)
Lemma copy_headers_events a h p ok h' :
  copy_headers a h = ((p, ok), h') ->
  context h' = context h /\ memory h' = memory h
  /\ ((p = None /\ events h' = events h) \/ events h' = events h ++ [EvMalloc (headers_len a + 1) p]) /\ (ok = false -> p = None).
Proof.
  unfold copy_headers, malloc. case_decide; [|intros [= <- <- <-]; split_and!; [done|done|by left|done]].
  destruct (k_malloc (headers_len a + 1) (heap h)) as [q k]. intros [= <- <- <-]. cbn. split_and!; [done|done|by right|].
  intros Hb. by apply bool_decide_eq_false, dec_stable in Hb.
Qed.

(** A list of permitted events. *)
Ltac permits := repeat (apply Forall_cons_2; [first [assumption | exact I]|]); apply Forall_nil_2.

(** Frees what was allocated last. *)
Ltac ledgers := repeat (cbn; rewrite decide_True by done); done.

(** Whatever becomes of a request, its two copies are freed. *)
Lemma request_confined a url_text p resp h :
  App.webos_app_url_allowed (context h) (Some (c_string url_text)) = true ->
  context (request_copied a url_text p resp h).2 = context h
  /\ exists l, events (request_copied a url_text p resp h).2 = events h ++ l
      /\ Forall (permitted (context h)) l /\ foldl ledger (Some (false, [p])) l = Some (false, []).
Proof.
  intros Hu. assert (permitted (context h) (EvRequest (method a) (c_string url_text))) as Hp by exact Hu.
  unfold request_copied. destruct (copy_headers a h) as [[hp ok] h1] eqn:Eh.
  destruct (copy_headers_events _ _ _ _ _ Eh) as (Hc & Hm & He & Hok). destruct ok; cbn [negb].
  2: { specialize (Hok eq_refl) as ->. cbn. split; [done|]. destruct He as [[_ He]|He]; rewrite He.
    - exists [EvFree p]. split; [done|]. split; [permits|]. ledgers.
    - exists [EvMalloc (headers_len a + 1) None; EvFree p]. split; [by rewrite <- app_assoc|]. split; [permits|]. ledgers. }
  cbv zeta. set (ht := _ <$> hp). destruct (perform_events a url_text ht resp h1) as [Hc2 He2].
  destruct (perform_request a url_text ht resp h1) as [ret h2]. cbn [snd] in Hc2, He2 |- *.
  destruct hp as [q|]; cbn; (split; [congruence|]); rewrite He2.
  - destruct He as [[? _]|He]; [done|]. rewrite He.
    exists [EvMalloc (headers_len a + 1) (Some q); EvRequest (method a) (c_string url_text); EvFree q; EvFree p].
    split; [by rewrite <- !app_assoc|]. split; [permits|]. ledgers.
  - destruct He as [[_ He]|He]; rewrite He.
    + exists [EvRequest (method a) (c_string url_text); EvFree p]. split; [by rewrite <- !app_assoc|].
      split; [permits|]. ledgers.
    + exists [EvMalloc (headers_len a + 1) None; EvRequest (method a) (c_string url_text); EvFree p].
      split; [by rewrite <- !app_assoc|]. split; [permits|]. ledgers.
Qed.

Lemma http_confined a h : confined h (host_web_http_request a h).2.
Proof.
  unfold host_web_http_request. destruct (bad_sizes a); [apply confined_refl|].
  destruct (bad_addresses a (memory h)); [apply confined_refl|]. destruct (overlapping a); [apply confined_refl|]. cbv zeta.
  set (text := load (url a) _ _). case_decide as Hn; [apply confined_refl|].
  destruct (App.webos_app_url_allowed (context h) (Some text)) eqn:Eu; [|apply confined_refl]. cbn [negb].
  case_decide; [apply confined_refl|]. unfold malloc. destruct (k_malloc (url_len a + 1) (heap h)) as [[p|] k].
  2: { eapply confined_events; [done|done| |]; [by repeat constructor|done]. }
  assert (c_string text = text) as Ht.
  { apply c_string_id. intros Hin. apply Hn. left. intros E. by apply strchr_None in E. }
  set (h1 := set_heap k [EvMalloc (url_len a + 1) (Some p)] h). set (resp := response_of_bytes _).
  destruct (request_confined a text p resp h1) as (Hc & l & He & Hp & Hl); [by rewrite Ht|].
  split; [by rewrite Hc|]. exists (EvMalloc (url_len a + 1) (Some p) :: l).
  split; [rewrite He; cbn; by rewrite <- app_assoc|]. split; [by constructor|]. exact Hl.
Qed.

(** The sizes of a call are of type [uint32_t]. *)
Definition sizes_ok (c : host_call) : Prop :=
  match c with
  | WebosLog _ _ n | WebosWrite _ _ n | WebosRead _ _ n | DevFsWrite _ _ n | DevFsRead _ _ n => (0 <= n)%Z
  | WebHttpRequest a => (0 <= url_len a /\ 0 <= headers_len a /\ 0 <= request_body_len a /\ 0 <= response_capacity a)%Z
  | _ => True
  end.

Lemma call_confined c h : sizes_ok c -> confined h (native_symbols c h).2.
Proof.
  intros Hs. destruct c as [level data length|ms|path data len|path data cap| | |ms|msg|path data len|path data cap|a]; cbn.
  - by apply log_confined.
  - eapply confined_events; [done|done| |done]. by repeat constructor.
  - by apply write_confined.
  - by apply read_confined.
  - split; [|exists []; by rewrite app_nil_r]. cbn. by destruct (context h); cbn.
  - split; [|exists []; by rewrite app_nil_r]. cbn. by destruct (context h); cbn.
  - eapply confined_events; [done|done| |done]. by repeat constructor.
  - unfold log_print. destruct msg as [[a s]|]; apply log_confined; lia.
  - by apply write_confined.
  - by apply read_confined.
  - apply http_confined.
Qed.

(** The calls an application makes. *)
Inductive calls_ok : behaviour -> Prop :=
| calls_finish ok : calls_ok (Finish ok)
| calls_call m now c k : sizes_ok c -> (forall ret m', calls_ok (k ret m')) -> calls_ok (Calls m now c k).

Lemma run_confined b h : calls_ok b -> confined h (run b h).2.
Proof.
  intros Hb. revert h. induction Hb as [r|m now c k Hs _ IH]; intros h; cbn [run]; [apply confined_refl|].
  set (h0 := Host _ _ _ _ _ _ _). pose proof (call_confined c h0 Hs) as Hc. destruct (native_symbols c h0) as [ret h1]. cbn [snd] in Hc.
  apply (confined_trans h h1); [exact Hc|]. apply IH.
Qed.

(** C13: whatever an application does - any sequence of calls with any addresses,
    sizes, paths and data, depending on all it has seen -, every file it makes the
    host open is one its context allows, opened for reading or for writing only,
    every request goes to a URL its context allows, its log lines carry its own
    name, no transfer exceeds its quota, its policy is the same afterwards, and
    every file that was opened is closed and every allocation freed exactly once
    and in reverse order. *)
Theorem application_confined b h ok h' :
  calls_ok b -> run b h = (ok, h') ->
  same_policy (context h) (context h')
  /\ exists l, events h' = events h ++ l /\ Forall (permitted (context h)) l /\ released l.
Proof. intros Hb Hr. pose proof (run_confined b h Hb) as Hc. by rewrite Hr in Hc. Qed.

(** ** The memory of the application *)

(** The ranges a call may store into. *)
Definition out_ranges (c : host_call) : list (Z * Z) :=
  match c with
  | WebosRead _ data capacity | DevFsRead _ data capacity => [(data, capacity)]
  | WebHttpRequest a => [(response_body a, response_capacity a); (response a, RESPONSE_SIZE)]
  | _ => []
  end.

Lemma disjoint_part a n b k k' : (k' <= k)%Z -> disjoint_ranges a n b k -> disjoint_ranges a n b k'.
Proof. unfold disjoint_ranges. lia. Qed.

Lemma store_bytes_load a n b d h :
  disjoint_ranges a (Z.of_nat n) b (Z.of_nat (length d)) -> load a n (memory (store_bytes b d h)) = load a n (memory h).
Proof. intros Hd. destruct d as [|x d]; [done|]. by apply load_disjoint. Qed.

Lemma store_bytes_valid a n b d h :
  validate_native_addr a n (memory (store_bytes b d h)) = validate_native_addr a n (memory h).
Proof. destruct d as [|x d]; [done|]. apply valid_after_store. Qed.

Lemma length_bytes_of_response r : length (bytes_of_response r) = 20.
Proof. unfold bytes_of_response. by rewrite !length_app, !length_put_le32. Qed.

(** The checks of a request that got past them. *)
Lemma request_checks a m :
  (0 <= response_capacity a)%Z -> bad_addresses a m = false -> overlapping a = false ->
  validate_native_addr (response a) RESPONSE_SIZE m = true
  /\ ((0 < response_capacity a)%Z -> validate_native_addr (response_body a) (response_capacity a) m = true /\ response_body a <> 0%Z
        /\ disjoint_ranges (response_body a) (response_capacity a) (response a) RESPONSE_SIZE).
Proof.
  intros Hc Hb Ho. unfold bad_addresses in Hb. rewrite !orb_false_iff, !negb_false_iff in Hb.
  destruct Hb as (((((_ & _) & _) & Hbody) & _) & Hresp). split; [done|]. intros Hpos.
  unfold optional_range in Hbody. rewrite bool_decide_true in Hbody by done. cbn [negb orb] in Hbody.
  apply andb_true_iff in Hbody as [Hz Hv]. apply negb_true_iff, bool_decide_eq_false in Hz. split; [done|]. split; [done|].
  pose proof (valid_addresses _ _ _ Hc Hv). assert (0 <= RESPONSE_SIZE)%Z as Hr by (unfold RESPONSE_SIZE; lia).
  pose proof (valid_addresses _ _ _ Hr Hresp).
  unfold overlapping in Ho. apply bool_decide_eq_false in Ho. unfold disjoint_ranges, RESPONSE_SIZE in *.
  rewrite !u32_small in Ho by lia. lia.
Qed.

(** What a request stores, given the checks. *)
Lemma perform_stores a url_text header_text resp h ret h' :
  (0 <= response_capacity a)%Z -> bad_addresses a (memory h) = false -> overlapping a = false ->
  perform_request a url_text header_text resp h = (ret, h') ->
  exists result c,
    HttpClient.webos_http_request (method a) (Some (c_string url_text)) header_text
      (if decide (request_body a = 0%Z) then None else Some (load (request_body a) (Z.to_nat (request_body_len a)) (memory h)))
      (Z.to_nat (request_body_len a))
      (if decide (response_body a = 0%Z) then None else Some (load (response_body a) (Z.to_nat (response_capacity a)) (memory h)))
      (Z.to_nat (response_capacity a)) (Some resp) (timeout_ms a) (http h) = ((ret, result), c)
    /\ http h' = c
    /\ load (response a) 20 (memory h') = bytes_of_response (match result with Some r => HttpClient.response r | None => resp end)
    /\ ((0 < response_capacity a)%Z -> load (response_body a) (Z.to_nat (response_capacity a)) (memory h')
          = match result with Some r => HttpClient.body r | None => load (response_body a) (Z.to_nat (response_capacity a)) (memory h) end)
    /\ forall x n, disjoint_ranges x (Z.of_nat n) (response_body a) (response_capacity a) ->
         disjoint_ranges x (Z.of_nat n) (response a) RESPONSE_SIZE -> load x n (memory h') = load x n (memory h).
Proof.
  intros Hc Hb Ho. destruct (request_checks a (memory h) Hc Hb Ho) as [Hresp Hbody]. unfold perform_request.
  destruct (HttpClient.webos_http_request _ _ _ _ _ _ _ _ _ _) as [[r result] c] eqn:E. cbv zeta.
  set (h1 := set_http c _ h). intros Hr. exists result, c.
  assert (forall rs hh, validate_native_addr (response a) RESPONSE_SIZE (memory hh) = true ->
    load (response a) 20 (memory (store_bytes (response a) (bytes_of_response rs) hh)) = bytes_of_response rs) as Hstruct.
  { intros rs hh Hv. pose proof (length_bytes_of_response rs) as Hl. destruct (bytes_of_response rs) as [|y ys] eqn:Ey; [done|].
    cbn [store_bytes set_memory memory]. rewrite <- Hl. apply load_store. by rewrite Hl. }
  assert (forall x n rs hh, disjoint_ranges x (Z.of_nat n) (response a) RESPONSE_SIZE ->
    load x n (memory (store_bytes (response a) (bytes_of_response rs) hh)) = load x n (memory hh)) as Hother.
  { intros x n rs hh Hd. apply store_bytes_load. by rewrite length_bytes_of_response. }
  assert (r = ret) as -> by (destruct result; exact (f_equal fst Hr)). apply (f_equal snd) in Hr. destruct result as [rc|]; cbn [snd] in Hr; subst h'.
  - assert (length (HttpClient.body rc) = Z.to_nat (response_capacity a)) as Hlen.
    { pose proof (http_body_length _ _ _ _ _ _ _ _ _ _ _ _ _ E) as Hl. destruct (decide (response_capacity a = 0)%Z) as [Hz|Hz].
      - rewrite Hz in *. cbn in *. rewrite load_nothing in Hl. case_decide; cbn in Hl; apply Hl; lia.
      - destruct (Hbody ltac:(lia)) as (Hv & Hnull & _). rewrite decide_False in Hl by done. cbn in Hl.
        rewrite length_load in Hl by (by rewrite Z2Nat.id). by apply Hl. }
    split; [done|]. split; [by destruct (bytes_of_response _), (HttpClient.body rc)|]. split; [|split].
    + apply Hstruct. by rewrite store_bytes_valid.
    + intros Hpos. destruct (Hbody Hpos) as (Hv & Hnull & Hd). rewrite Hother by (by rewrite Z2Nat.id by lia).
      destruct (HttpClient.body rc) as [|y ys] eqn:Ey; [simpl in Hlen; lia|]. cbn [store_bytes set_memory memory].
      rewrite <- Hlen. apply load_store. rewrite Hlen. by rewrite Z2Nat.id by lia.
    + intros x n Hd1 Hd2. rewrite Hother by done. rewrite store_bytes_load; [done|]. rewrite Hlen. by rewrite Z2Nat.id by lia.
  - split; [done|]. split; [by destruct (bytes_of_response _)|]. split; [by apply Hstruct|]. split.
    + intros Hpos. destruct (Hbody Hpos) as (_ & _ & Hd). by rewrite Hother by (by rewrite Z2Nat.id by lia).
    + intros x n _ Hd2. by rewrite Hother.
Qed.

(** A request that passes the checks is answered into the memory the
    application gave for it: the client gets the URL, the headers and the body the
    application had stored, and afterwards the structure in the memory is the one
    the client filled in and the body array holds the body it received - the two
    do not overlap -, while every other byte of the application is unchanged. *)
Theorem http_request_delivers a h ret h' p k :
  sizes_ok (WebHttpRequest a) -> bad_sizes a = false -> bad_addresses a (memory h) = false -> overlapping a = false ->
  NUL ∉ load (url a) (Z.to_nat (url_len a)) (memory h) ->
  ((0 < headers_len a)%Z -> NUL ∉ load (headers a) (Z.to_nat (headers_len a)) (memory h)) ->
  App.webos_app_url_allowed (context h) (Some (load (url a) (Z.to_nat (url_len a)) (memory h))) = true ->
  (RESPONSE_SIZE <= HttpClient.struct_size (response_of_bytes (load (response a) 20 (memory h))))%Z ->
  k_malloc (url_len a + 1) (heap h) = (Some p, k) -> (forall n, exists q k', k_malloc n k = (Some q, k')) ->
  host_web_http_request a h = (ret, h') ->
  exists result c,
    HttpClient.webos_http_request (method a) (Some (load (url a) (Z.to_nat (url_len a)) (memory h)))
      (if decide (0 < headers_len a)%Z then Some (load (headers a) (Z.to_nat (headers_len a)) (memory h)) else None)
      (if decide (request_body a = 0%Z) then None else Some (load (request_body a) (Z.to_nat (request_body_len a)) (memory h)))
      (Z.to_nat (request_body_len a))
      (if decide (response_body a = 0%Z) then None else Some (load (response_body a) (Z.to_nat (response_capacity a)) (memory h)))
      (Z.to_nat (response_capacity a)) (Some (response_of_bytes (load (response a) 20 (memory h)))) (timeout_ms a) (http h)
    = ((ret, result), c)
    /\ http h' = c
    /\ load (response a) 20 (memory h')
        = bytes_of_response (match result with Some r => HttpClient.response r
                             | None => response_of_bytes (load (response a) 20 (memory h)) end)
    /\ ((0 < response_capacity a)%Z -> load (response_body a) (Z.to_nat (response_capacity a)) (memory h')
          = match result with Some r => HttpClient.body r | None => load (response_body a) (Z.to_nat (response_capacity a)) (memory h) end)
    /\ forall x n, Forall (fun r => disjoint_ranges x (Z.of_nat n) r.1 r.2) (out_ranges (WebHttpRequest a)) ->
         load x n (memory h') = load x n (memory h).
Proof.
  intros (_ & _ & _ & Hc) Hs Hb Ho Hu Hh Hallowed Hsize Hm Hms. unfold host_web_http_request. rewrite Hs, Hb, Ho.
  rewrite decide_False.
  2: { intros [Hn|[Hp Hn]]; apply Hn, strchr_None; auto. }
  rewrite Hallowed. cbn [negb]. change (Z.to_nat RESPONSE_SIZE) with 20. rewrite decide_False by lia. unfold malloc. rewrite Hm.
  unfold request_copied, copy_headers, malloc. cbn [heap set_heap memory]. set (h1 := set_heap k _ h).
  assert (exists hp h2, (if decide (0 < headers_len a)%Z then let '(p0, h0) := let '(p1, k0) := k_malloc (headers_len a + 1) k in
            (p1, set_heap k0 [EvMalloc (headers_len a + 1) p1] h1) in (p0, bool_decide (p0 <> None), h0) else (None, true, h1))
          = (hp, true, h2) /\ memory h2 = memory h /\ http h2 = http h
          /\ (fun _ : Z => c_string (load (headers a) (Z.to_nat (headers_len a)) (memory h2))) <$> hp
             = if decide (0 < headers_len a)%Z then Some (load (headers a) (Z.to_nat (headers_len a)) (memory h)) else None)
    as (hp & h2 & -> & Hm2 & Hh2 & Ht).
  { destruct (decide (0 < headers_len a)%Z) as [Hp|]; [|by eexists _, _].
    destruct (Hms (headers_len a + 1)%Z) as (q & k' & ->). eexists _, _. rewrite bool_decide_true by done.
    split; [done|]. cbn. split; [done|]. split; [done|]. by rewrite c_string_id by auto. }
  cbn [negb]. cbv zeta. rewrite Ht. destruct (perform_request _ _ _ _ h2) as [r h3] eqn:E. rewrite <- Hm2 in Hb.
  destruct (perform_stores _ _ _ _ _ _ _ Hc Hb Ho E) as (result & c & E' & Hhttp & Hst & Hbody & Hframe).
  rewrite Hm2, Hh2, c_string_id in * by done. intros Hr.
  pose proof (f_equal fst Hr) as Hr1. apply (f_equal snd) in Hr. cbn [fst snd] in Hr, Hr1. subst r h'.
  assert (forall p h, memory (free p h) = memory h /\ http (free p h) = http h) as Hfree by by intros [].
  exists result, c. split; [exact E'|]. destruct (Hfree (Some p) (free hp h3)) as [-> ->]. destruct (Hfree hp h3) as [-> ->].
  split; [done|]. split; [done|]. split; [done|]. intros x n Hx. cbn [out_ranges] in Hx.
  apply Forall_cons in Hx as [Hx1 Hx2]. apply Forall_cons in Hx2 as [Hx2 _]. by apply Hframe.
Qed.

(** What a call does to memory: nothing outside the ranges it was given, and
    nothing at all unless the runtime has confirmed them. *)
Definition stores_within (c : host_call) h h' : Prop :=
  (memory h' = memory h \/ Forall (fun r => r.2 = 0%Z \/ validate_native_addr r.1 r.2 (memory h) = true) (out_ranges c))
  /\ forall x n, Forall (fun r => disjoint_ranges x (Z.of_nat n) r.1 r.2) (out_ranges c) ->
       load x n (memory h') = load x n (memory h).

Lemma stores_nothing c h h' : memory h' = memory h -> stores_within c h h'.
Proof. intros E. split; [by left|]. intros x n _. by rewrite E. Qed.

Lemma close_memory file h : memory (close_if_open file h) = memory h.
Proof. unfold close_if_open. by destruct (filep file). Qed.

Lemma write_memory path data len h : memory (host_webos_write path data len h).2 = memory h.
Proof.
  unfold host_webos_write. destruct (context h) as [c|]; [|done]. case_decide; [done|]. destruct path as [p|]; [|done].
  destruct (negb _); [done|]. destruct (negb _); [done|]. cbv zeta.
  destruct (fs_open _ p (host_fs h)) as [[ret file] f]. destruct (decide (ret = 0%Z)); cbn [snd]; [|by rewrite close_memory].
  destruct (fs_write file _ _) as [[r file'] f']. cbn [snd]. by rewrite close_memory.
Qed.

Lemma read_stores path data capacity h :
  (0 <= capacity)%Z -> stores_within (WebosRead path data capacity) h (host_webos_read path data capacity h).2.
Proof.
  intros Hc. unfold host_webos_read. destruct (context h) as [c|]; [|by apply stores_nothing].
  case_decide; [by apply stores_nothing|]. destruct path as [p|]; [|by apply stores_nothing].
  destruct (negb _); [by apply stores_nothing|]. destruct (valid_range data capacity h) eqn:Ev; [|by apply stores_nothing]. cbn [negb].
  destruct (fs_open FS_O_READ p (host_fs h)) as [[ret file] f]. cbv zeta. cbn [host_fs set_host_fs].
  destruct (decide (ret = 0%Z)).
  2: { apply stores_nothing. cbn [snd]. by rewrite close_memory. }
  pose proof (read_fits file (Z.to_nat capacity) f) as Hfit.
  destruct (fs_read file (Z.to_nat capacity) f) as [[[r d] file'] f']. cbn [fst snd] in *.
  split.
  - right. cbn [out_ranges]. constructor; [|constructor]. cbn [fst snd]. unfold valid_range in Ev.
    apply orb_true_iff in Ev as [Ev|Ev]; [left; by apply bool_decide_eq_true in Ev|right; apply andb_true_iff in Ev; tauto].
  - intros x n Hx. rewrite close_memory. cbn [out_ranges] in Hx. apply Forall_cons in Hx as [Hx _]. cbn [fst snd] in Hx.
    rewrite store_bytes_load; [done|]. eapply disjoint_part; [|exact Hx]. lia.
Qed.

Lemma http_stores a h : sizes_ok (WebHttpRequest a) -> stores_within (WebHttpRequest a) h (host_web_http_request a h).2.
Proof.
  intros (_ & _ & _ & Hc). unfold host_web_http_request. destruct (bad_sizes a); [by apply stores_nothing|].
  destruct (bad_addresses a (memory h)) eqn:Hb; [by apply stores_nothing|]. destruct (overlapping a) eqn:Ho; [by apply stores_nothing|].
  cbv zeta. set (text := load (url a) _ _). case_decide; [by apply stores_nothing|]. destruct (negb _); [by apply stores_nothing|].
  case_decide; [by apply stores_nothing|]. unfold malloc. destruct (k_malloc (url_len a + 1) (heap h)) as [[p|] k]; [|by apply stores_nothing].
  set (h1 := set_heap k _ h). unfold request_copied. set (resp := response_of_bytes _).
  destruct (copy_headers a h1) as [[hp ok] h2] eqn:Eh. destruct (copy_headers_events _ _ _ _ _ Eh) as (_ & Hm & _).
  assert (forall p hh, memory (free p hh) = memory hh) as Hfree by by intros [].
  destruct ok; cbn [negb]; [|apply stores_nothing; cbn [snd]; by rewrite Hfree].
  destruct (perform_request _ _ _ _ h2) as [r h3] eqn:E. cbn [snd].
  assert (bad_addresses a (memory h2) = false) as Hb2 by (rewrite Hm; exact Hb).
  destruct (perform_stores _ _ _ _ _ _ _ Hc Hb2 Ho E) as (result & c & _ & _ & _ & _ & Hframe).
  destruct (request_checks a (memory h) Hc Hb Ho) as [Hresp Hbody]. split.
  - right. cbn [out_ranges]. constructor; [|constructor; [by right|constructor]]. cbn [fst snd].
    destruct (decide (response_capacity a = 0)%Z); [by left|]. right. apply Hbody. lia.
  - intros x n Hx. cbn [out_ranges] in Hx. apply Forall_cons in Hx as [Hx1 Hx2]. apply Forall_cons in Hx2 as [Hx2 _].
    rewrite !Hfree, Hframe by done. by rewrite Hm.
Qed.

(** C31: a call of the host changes the application's memory only inside the
    ranges that are its output arguments, whatever the result of the call, and
    only after the runtime has confirmed that each of them lies in the memory of
    the application. *)
Theorem calls_store_in_ranges c h : sizes_ok c -> stores_within c h (native_symbols c h).2.
Proof.
  intros Hs. destruct c as [level data length|ms|path data len|path data cap| | |ms|msg|path data len|path data cap|a]; cbn [native_symbols snd];
    try by apply stores_nothing.
  - apply stores_nothing. unfold host_webos_log. repeat case_match; done.
  - apply stores_nothing. apply write_memory.
  - by apply read_stores.
  - apply stores_nothing. unfold log_print, host_webos_log. repeat case_match; done.
  - apply stores_nothing. apply write_memory.
  - by apply read_stores.
  - by apply http_stores.
Qed.
End host.
End WasmHostSpec.
