(* ===== verification/DeviceHost.v ===== *)
(** * Host calls on device files

    A write or a read of an application on a device file opens it, calls the
    callback of the driver once and closes it: the tree of devfs is as before, the
    state of the drivers is what the three callbacks make of it, and the memory of
    the application has what was read. *)

From S2P Require Import Prelude CLib AppContext Devfs DevfsPart DevfsAccess HttpClient AppFs DeviceFs WasmMemory WasmHost.
From Stdlib Require Import ZArith Lia.
From Stdlib Require Import Strings.Byte.
From stdpp Require Import base numbers list list_numbers strings sets gmap.

Module DeviceHost.
Import WasmHost.

Section device.
Context {M : AppMemory} {F : AppFs} {K : KernelHeap} {L : HttpLimits} {P : UrlParser} {N : NetStack}.
Context {cfg : DevfsConfig} {W : Type} {C : DeviceClock W} {D : MountedDevfs W F} {FH : AppFsHandles F}.
Implicit Types (h : host) (w : W).

(** The devices the host reaches, and the texts it has logged. *)
Definition device_tree h : Tree.devfs (W := W) := (devices (host_fs h)).1.
Definition board h : W := (devices (host_fs h)).2.

Definition messages (l : list host_event) : list cstr :=
  omap (fun e => match e with EvLog _ _ m => Some m | _ => None end) l.

Lemma messages_app a b : messages (a ++ b) = messages a ++ messages b.
Proof. apply omap_app. Qed.

(** What a call leaves as it was: the application, the HTTP client, the kernel heap
    and devfs. *)
Record keeps h h' : Prop := {
  keeps_context : context h' = context h;
  keeps_tree : device_tree h' = device_tree h;
  keeps_heap : heap h' = heap h;
  keeps_http : http h' = http h;
}.

Lemma host_keeps_refl h : keeps h h.
Proof. done. Qed.

Lemma host_keeps_trans h1 h2 h3 : keeps h1 h2 -> keeps h2 h3 -> keeps h1 h3.
Proof. intros [] []. split; congruence. Qed.

(** [h'] is [h] with the drivers in the state [w], the memory [m] and [l] logged. *)
Record leads h h' (m : mem) (w : W) (l : list cstr) : Prop := {
  leads_keeps : keeps h h';
  leads_memory : memory h' = m;
  leads_board : board h' = w;
  leads_messages : messages (events h') = messages (events h) ++ l;
}.

Lemma leads_refl h : leads h h (memory h) (board h) [].
Proof. split; [apply host_keeps_refl|done|done|]. by rewrite app_nil_r. Qed.

Lemma leads_trans h1 h2 h3 m2 m3 w2 w3 l k : leads h1 h2 m2 w2 l -> leads h2 h3 m3 w3 k -> leads h1 h3 m3 w3 (l ++ k).
Proof.
  intros [K1 M1 B1 E1] [K2 M2 B2 E2]. split; [by eapply host_keeps_trans|done|done|]. by rewrite E2, E1, app_assoc.
Qed.

(** The checks every access makes. *)
Record access_ok (p : cstr) (a n : Z) h : Prop := {
  access_context : exists c, context h = Some c /\ (n <= App.max_io_bytes c)%Z;
  access_path : App.webos_app_path_allowed (context h) (Some p) = true;
  access_range : valid_range a n h = true;
  access_device : is_device p = true;
}.

Context (Hmalloc : forall f, handle_malloc f = true).

(** The operations on a handle, from a state of the devices that is known. *)
Lemma open_at m p f r id s w :
  is_device p = true -> Tree.devfs_open (devices f).1 (devices f).2 true (Some p) (open_flags m) = (r, id, s, w) ->
  exists file, fs_open m p f = ((r, file), set_devices (s, w) f) /\ device_handle file = id /\ filep file = bool_decide (r = 0%Z).
Proof.
  intros Hd E. rewrite <- (Hmalloc f) in E. destruct (device_open m p f _ _ _ _ Hd E) as (H1 & H2 & H3).
  pose proof (filep_open m p f) as H4. destruct (fs_open m p f) as [[ret file] f']. cbn in *. subst. by exists file.
Qed.

Lemma write_at file id d f s w r s' w' :
  device_handle file = Some id -> Tree.devfs_write s w id d = (r, s', w') ->
  exists file', fs_write file d (set_devices (s, w) f) = ((r, file'), set_devices (s', w') (set_devices (s, w) f))
    /\ device_handle file' = Some id /\ filep file' = filep file.
Proof.
  intros Hh E. destruct (device_write file id d (set_devices (s, w) f) r s' w' Hh) as (H1 & H2 & H3); [by rewrite devices_set|].
  pose proof (filep_write file d (set_devices (s, w) f)) as H4. destruct (fs_write file d _) as [[ret file'] f']. cbn in *. subst. by exists file'.
Qed.

Lemma read_at file id n f s w r out s' w' :
  device_handle file = Some id -> Tree.devfs_read s w id n = (r, out, s', w') ->
  exists file', fs_read file n (set_devices (s, w) f) = (((r, out), file'), set_devices (s', w') (set_devices (s, w) f))
    /\ device_handle file' = Some id /\ filep file' = filep file.
Proof.
  intros Hh E. destruct (device_read file id n (set_devices (s, w) f) r out s' w' Hh) as (H1 & H2 & H3); [by rewrite devices_set|].
  pose proof (filep_read file n (set_devices (s, w) f)) as H4. destruct (fs_read file n _) as [[ret file'] f']. cbn in *. subst. by exists file'.
Qed.

Lemma close_at file id f s w r s' w' :
  device_handle file = Some id -> Tree.devfs_close s w id = (r, s', w') ->
  (fs_close file (set_devices (s, w) f)).2 = set_devices (s', w') (set_devices (s, w) f).
Proof. intros Hh E. apply (device_close file id _ r s' w' Hh). by rewrite devices_set. Qed.

Lemma host_write_device h p a n (o : devfs_file_ops W) ud oo ow oc d1 w1 r d2 w2 r3 d3 w3 :
  access_ok p a n h -> DevfsAccess.device_at (device_tree h) p o ud ->
  op_open o = Some oo -> op_write o = Some ow -> op_close o = Some oc ->
  (forall fl, oo 0%Z ud fl (board h) = (0%Z, d1, w1)) -> ow d1 (load a (Z.to_nat n) (memory h)) w1 = (r, d2, w2) -> oc d2 w2 = (r3, d3, w3) ->
  exists h', host_webos_write (Some p) a n h = (App.webos_abi_map_errno r, h') /\ leads h h' (memory h) w3 [].
Proof.
  intros [(c & Hc & Hn) Hp Hr Hd] Hdev Eo Ew Ec Co Cw Cc. unfold host_webos_write. rewrite Hc, decide_False by lia.
  rewrite <- Hc, Hp, Hr. cbn [negb]. set (m := Mode _ _ _ _).
  destruct (DevfsAccess.open_device _ (board h) p o ud (open_flags m) oo d1 w1 Hdev Eo (Co _)) as (nn & nd & _ & En & Ho & Hcnt & Eopen).
  set (id := fresh _) in Eopen. destruct (open_at m p (host_fs h) _ _ _ _ Hd Eopen) as (file & -> & O2 & O4).
  rewrite decide_True by done. cbn [host_fs set_host_fs memory].
  assert (id ∉ dom (Tree.files (device_tree h))) as Hid by apply is_fresh. apply not_elem_of_dom in Hid.
  assert (op_write (ops nd) = Some ow) as Ew' by by rewrite Ho. assert (op_close (ops nd) = Some oc) as Ec' by by rewrite Ho.
  pose proof (DevfsAccess.write_device (device_tree h) w1 nn id d1 nd _ ow r d2 w2 En Ew' Cw) as Ewr.
  destruct (write_at file id _ (host_fs h) _ _ _ _ _ O2 Ewr) as (file' & -> & R2 & R4).
  pose proof (DevfsAccess.close_device (device_tree h) w2 nn id d2 nd oc r3 d3 w3 En Hcnt Hid Ec' Cc) as Ecl.
  unfold close_if_open. rewrite R4, O4, bool_decide_eq_true_2 by done. cbn [host_fs set_host_fs].
  rewrite (close_at file' id _ _ _ r3 _ _ R2 Ecl).
  eexists. split; [done|]. split; [split|..]; unfold device_tree, board, messages; cbn; rewrite ?devices_set; try done.
  rewrite !omap_app. cbn. by rewrite !app_nil_r.
Qed.

Lemma host_read_device h p a n (o : devfs_file_ops W) ud oo orr oc d1 w1 r out d2 w2 r3 d3 w3 :
  access_ok p a n h -> DevfsAccess.device_at (device_tree h) p o ud ->
  op_open o = Some oo -> op_read o = Some orr -> op_close o = Some oc ->
  (forall fl, oo 0%Z ud fl (board h) = (0%Z, d1, w1)) -> orr d1 (Z.to_nat n) w1 = (r, out, d2, w2) -> oc d2 w2 = (r3, d3, w3) ->
  exists h', host_webos_read (Some p) a n h = (App.webos_abi_map_errno r, h')
    /\ leads h h' (match out with [] => memory h | _ => store a out (memory h) end) w3 [].
Proof.
  intros [(c & Hc & Hn) Hp Hr Hd] Hdev Eo Er Ec Co Cr Cc. unfold host_webos_read. rewrite Hc, decide_False by lia.
  rewrite <- Hc, Hp, Hr. cbn [negb]. set (m := FS_O_READ).
  destruct (DevfsAccess.open_device _ (board h) p o ud (open_flags m) oo d1 w1 Hdev Eo (Co _)) as (nn & nd & _ & En & Ho & Hcnt & Eopen).
  set (id := fresh _) in Eopen. destruct (open_at m p (host_fs h) _ _ _ _ Hd Eopen) as (file & -> & O2 & O4).
  rewrite decide_True by done. cbn [host_fs set_host_fs memory].
  assert (id ∉ dom (Tree.files (device_tree h))) as Hid by apply is_fresh. apply not_elem_of_dom in Hid.
  assert (op_read (ops nd) = Some orr) as Er' by by rewrite Ho. assert (op_close (ops nd) = Some oc) as Ec' by by rewrite Ho.
  pose proof (DevfsAccess.read_device (device_tree h) w1 nn id d1 nd _ orr r out d2 w2 En Er' Cr) as Ere.
  destruct (read_at file id _ (host_fs h) _ _ _ _ _ _ O2 Ere) as (file' & -> & R2 & R4).
  pose proof (DevfsAccess.close_device (device_tree h) w2 nn id d2 nd oc r3 d3 w3 En Hcnt Hid Ec' Cc) as Ecl.
  unfold close_if_open. rewrite R4, O4, bool_decide_eq_true_2 by done.
  assert (forall h0, host_fs (store_bytes a out h0) = host_fs h0) as -> by (intros h0; by destruct out).
  cbn [host_fs set_host_fs]. rewrite (close_at file' id _ _ _ r3 _ _ R2 Ecl).
  eexists. split; [done|]. unfold store_bytes. destruct out as [|x out];
    (split; [split|..]; unfold device_tree, board, messages; cbn; rewrite ?devices_set; try done; rewrite !omap_app; cbn; by rewrite !app_nil_r).
Qed.

(** ** The other calls of an application *)

Lemma host_sleep_leads h ms : leads h (host_webos_sleep_ms ms h) (memory h) (time_passes ms (board h)) [].
Proof.
  unfold host_webos_sleep_ms. split; [split|..]; unfold device_tree, board, messages; cbn; rewrite ?device_wait; try done.
  rewrite !omap_app. cbn. by rewrite !app_nil_r.
Qed.

(** A text of the application that the host can print. *)
Record text_ok (a : Z) (s : cstr) h : Prop := {
  text_context : exists c, context h = Some c /\ (Z.of_nat (length s) <= App.max_io_bytes c)%Z;
  text_loaded : load a (length s) (memory h) = s;
  text_range : valid_range a (Z.of_nat (length s)) h = true;
  text_no_nul : NUL ∉ s;
}.

Lemma log_print_emits h a s : text_ok a s h -> exists e, log_print (Some (a, s)) h = emit [e] h /\ messages [e] = [s].
Proof.
  intros [(c & Hc & Hn) Hl Hr Hs]. unfold log_print, host_webos_log. rewrite Hc, decide_False by lia. rewrite Hr. cbn [negb].
  eexists. split; [done|]. cbn. f_equal. rewrite Nat2Z.id, Hl. case_decide as Hz; [by destruct s|by rewrite c_string_id].
Qed.
End device.
End DeviceHost.
