(* ===== verification/SampleApps.v ===== *)
(** * The sample applications

    Models of the C programs of src/sampleapps: blink, native_blink, led_colors,
    sudoku, hello and conformance_c.  Each is an application in the sense of
    WasmHost.v: a program over the memory of its instance that calls the host.

    String literals are at the addresses [lit] gives them, and the arrays of [main] at
    those of its [Context]; strings the host only receives as a path are not stored in
    memory.  [clock n] is the uptime at the [n]th call.  A signed overflow, undefined
    in C, wraps around. *)

From S2P Require Import Prelude CLib HttpClient WasmMemory WasmHost.
From Stdlib Require Import ZArith Lia.
From Stdlib Require Import Strings.Byte.
From stdpp Require Import base numbers list list_numbers strings.

(** [int32_t]. *)
Definition s32 (z : Z) : Z := if decide (u32 z < 2 ^ 31)%Z then u32 z else (u32 z - 2 ^ 32)%Z.

Module SampleApps.
Import WasmHost.

(** ** Programs *)

Section program.
Context {M : AppMemory} (clock : nat -> Z).

(** A program that yields an [A]: what comes after it, the calls so far and the
    memory make a behaviour. *)
Definition App (A : Type) : Type := (A -> nat -> mem -> behaviour) -> nat -> mem -> behaviour.

#[global] Instance app_ret : MRet App := fun A a k n m => k a n m.
#[global] Instance app_bind : MBind App := fun A B f p k n m => p (fun a => f a k) n m.

Definition call (c : host_call) : App Z := fun k n m => Calls m (clock n) c (fun r m' => k r (S n) m').
Definition get (a : Z) (n : nat) : App (list byte) := fun k i m => k (load a n m) i m.
Definition put (a : Z) (d : list byte) : App unit := fun k i m => k tt i (store a d m).

(** [for (i = from; i < from + n; i++)]. *)
Fixpoint for_loop (n from : nat) (f : nat -> App unit) : App unit :=
  match n with
  | O => mret tt
  | S n' => f from ;; for_loop n' (S from) f
  end.

(** The behaviour of a program whose [main] is [p]; its result is not the host's
    concern. *)
Definition application (p : App Z) (m : mem) : behaviour := p (fun _ _ _ => Finish true) 0 m.
End program.

(** ** Text *)

(** The first loop of [itos], over [char tmp[12]]: the digits from the last one on. *)
Fixpoint itos_digits (space : nat) (n : Z) : list byte :=
  match space with
  | O => []
  | S space' => if decide (0 < n)%Z then byte_of_Z (48 + n mod 10) :: itos_digits space' (n / 10) else []
  end.

Definition itos (n : Z) : cstr := if decide (n = 0%Z) then cs "0" else reverse (itos_digits 12 n).

(** The text in a buffer of [sz] bytes. *)
Definition make_path (sz : nat) (prefix : cstr) (pin : Z) (suffix : cstr) : cstr :=
  let buf := take (sz - 1) prefix in
  let buf := buf ++ itos pin in
  buf ++ take (sz - 1 - length buf) suffix.

(** The loop over the digits of an argument. *)
Fixpoint parse_number (acc : Z) (s : cstr) : Z :=
  match s with
  | c :: s' => if decide (48 <= bval c <= 57)%Z then parse_number (s32 (acc * 10 + (bval c - 48))) s' else acc
  | [] => acc
  end.

(** A number in [argv[1]], or the value without an argument. *)
Definition number_argument (argv : list cstr) (value : Z) : Z :=
  match argv !! 1 with Some s => parse_number 0 s | None => value end.

(** [append_text] of sudoku: the result and the array, whose length is [*used]; and
    the digits [append_number] collects, the last one first. *)
Definition append_text (capacity : Z) (output text : cstr) : Z * cstr :=
  if decide (u32 (capacity - Z.of_nat (length output)) < Z.of_nat (length text))%Z then ((-1)%Z, output) else (0%Z, output ++ text).

Fixpoint number_digits (space : nat) (value : Z) : list byte :=
  match space with
  | O => []
  | S space' => byte_of_Z (48 + value mod 10) :: if decide (0 < value / 10)%Z then number_digits space' (value / 10) else []
  end.

Definition append_number (capacity : Z) (output : cstr) (value : Z) : cstr :=
  output ++ take (Z.to_nat (capacity - Z.of_nat (length output))) (reverse (number_digits 10 value)).

Section apps.
Context {M : AppMemory} (lit : cstr -> Z) (clock : nat -> Z).

Local Notation call := (call clock).

Definition log_text (s : cstr) : App Z := call (LogPrint (Some (lit s, s))).

(** ** blink and native_blink

    The two programs differ in the names of the host functions: those of the ABI, and
    the aliases of older payloads. *)

Record device_calls := DeviceCalls {
  do_write : option cstr -> Z -> Z -> host_call;
  do_read : option cstr -> Z -> Z -> host_call;
  do_sleep : Z -> host_call;
}.

Definition abi_calls : device_calls := DeviceCalls WebosWrite WebosRead WebosSleepMs.
Definition alias_calls : device_calls := DeviceCalls DevFsWrite DevFsRead SleepMs.

Section blink.
Context (api : device_calls) (buf : Z).   (* char buf[16] *)

Definition blink_path (pin : Z) (suffix : cstr) : cstr := make_path 64 (cs "/dev/gpio/") pin suffix.

Definition write_text (path text : cstr) : App Z := call (do_write api (Some path) (lit text) (Z.of_nat (length text))).

Definition blink_round (pin count : Z) (i : nat) : App unit :=
  let path := blink_path pin (cs "/value") in
  write_text path (cs "1") ;;
  log_text (cs "ON") ;;
  call (do_sleep api 500) ;;
  write_text path (cs "0") ;;
  log_text (cs "OFF") ;;
  if decide (Z.of_nat i < count - 1)%Z then (call (do_sleep api 500) ;; mret tt) else mret tt.

(** The text at [buf] after [buf[bytes_read] = 0]. *)
Definition print_read (bytes_read : Z) : App unit :=
  if decide (0 <= bytes_read)%Z then
    put (buf + bytes_read) [NUL] ;;
    s ← get buf (Z.to_nat bytes_read);
    call (LogPrint (Some (buf, c_string s))) ;; mret tt
  else mret tt.

Definition blink_program (argv : list cstr) : App Z :=
  let pin := number_argument argv 2 in
  log_text (cs "blink: starting") ;;
  write_text (blink_path pin (cs "/direction")) (cs "out") ;;
  for_loop 10 0 (blink_round pin 10) ;;
  bytes_read ← call (do_read api (Some (blink_path pin (cs "/value"))) buf 15);
  print_read bytes_read ;;
  log_text (cs "blink: done") ;;
  mret 0%Z.
End blink.

Definition blink (buf : Z) (argv : list cstr) : App Z := blink_program abi_calls buf argv.
Definition native_blink (buf : Z) (argv : list cstr) : App Z := blink_program alias_calls buf argv.

(** ** led_colors *)

Section led_colors.
Context (rgb off : Z).   (* unsigned char rgb[3], off *)

Definition color_names : list cstr := [cs "000"; cs "001"; cs "010"; cs "011"; cs "100"; cs "101"; cs "110"; cs "111"].

Definition bit_color (value : nat) (bit : Z) : byte :=
  if decide (Z.land (Z.of_nat value) bit = 0%Z) then x00 else xff.

Definition rgb_of (value : nat) : list byte := [bit_color value 4; bit_color value 2; bit_color value 1].

Definition color_path : cstr := cs "/dev/led/48/color".

Definition color_step (value : nat) : App unit :=
  put rgb (rgb_of value) ;;
  log_text (default [] (color_names !! value)) ;;
  call (WebosWrite (Some color_path) rgb 3) ;;
  call (WebosSleepMs 500) ;;
  mret tt.

Definition led_colors (argv : list cstr) : App Z :=
  let rounds := number_argument argv 3 in
  log_text (cs "led_colors: starting") ;;
  for_loop (Z.to_nat rounds) 0 (fun _ => for_loop 8 0 color_step) ;;
  put off [x00] ;;
  call (WebosWrite (Some color_path) off 1) ;;
  log_text (cs "led_colors: done") ;;
  mret 0%Z.
End led_colors.

(** ** hello and conformance_c *)

Definition hello : App Z := log_text (cs "hello world") ;; mret 0%Z.

Definition probe_path : cstr := cs "/STORAGE:/apps/conformance-c/data/probe".
Definition conformance_message : cstr := cs "WebOS ABI v1 C conformance".

Definition conformance_c (byte_at : Z) : App Z :=
  let n := Z.of_nat (length conformance_message) in
  call (WebosLog WEBOS_LOG_INFO (lit conformance_message) n) ;;
  call WebosReady ;;
  call (WebosWrite (Some probe_path) (lit conformance_message) n) ;;
  call (WebosRead (Some probe_path) byte_at 1) ;;
  call WebosHeartbeat ;;
  call (WebosSleepMs 1) ;;
  mret 0%Z.

(** ** sudoku *)

Section sudoku.
Context (url_at headers_at body_at response_at status_at : Z).

Definition DEFAULT_URL : cstr := cs "https://api.api-ninjas.com/v1/sudokugenerate?difficulty=easy".

Definition crlf : list byte := [x0d; x0a].

(** The headers, and whether all three texts had room in [headers[256]]. *)
Definition build_headers (key : cstr) : bool * cstr :=
  let '(ret, headers) := append_text 256 [] (cs "X-Api-Key: ") in
  if decide (ret <> 0%Z) then (false, headers)
  else
    let '(ret, headers) := append_text 256 headers key in
    if decide (ret <> 0%Z) then (false, headers)
    else
      let '(ret, headers) := append_text 256 headers (crlf ++ cs "Accept: application/json" ++ crlf) in
      (bool_decide (ret = 0%Z), headers).

(** The texts in [status_message[64]]. *)
Definition error_message (ret : Z) : cstr :=
  let status := (append_text 63 [] (cs "sudoku: request error ")).2 in
  if decide (ret < 0)%Z then append_number 63 (append_text 63 status (cs "-")).2 (u32 (- ret)) else append_number 63 status (u32 ret).

Definition status_message (code : Z) : cstr := append_number 63 (append_text 63 [] (cs "sudoku: HTTP ")).2 code.

Definition log_at (a : Z) (s : cstr) : App Z := call (LogPrint (Some (a, s))).

Definition sudoku_request (url : cstr) (url_addr headers_len : Z) : http_args := {|
  method := 0; WasmHost.url := url_addr; url_len := Z.of_nat (length url); headers := headers_at; WasmHost.headers_len := headers_len;
  request_body := 0; request_body_len := 0; response_body := body_at; response_capacity := 2047;
  response := response_at; response_size := RESPONSE_SIZE; timeout_ms := 15000 |}.

(** What follows a request that returned [ret]. *)
Definition sudoku_answer (ret : Z) : App Z :=
  if decide (ret <> WEB_HTTP_OK) then
    let text := error_message ret in
    put status_at (text ++ [NUL]) ;; log_at status_at text ;; mret 1%Z
  else
    bytes ← get response_at (Z.to_nat RESPONSE_SIZE);
    let resp := response_of_bytes bytes in
    let text := status_message (HttpClient.status_code resp) in
    put status_at (text ++ [NUL]) ;; log_at status_at text ;;
    put (body_at + HttpClient.body_len resp) [NUL] ;;
    body ← get body_at (Z.to_nat (HttpClient.body_len resp));
    log_at body_at (c_string body) ;;
    mret (if decide (200 <= HttpClient.status_code resp < 300)%Z then 0%Z else 1%Z).

Definition sudoku (argv : list cstr) : App Z :=
  match argv !! 1 with
  | None => log_text (cs "usage: sudoku <api-key> [url]") ;; mret 1%Z
  | Some key =>
      let '(url, url_addr) := match argv !! 2 with Some u => (u, url_at) | None => (DEFAULT_URL, lit DEFAULT_URL) end in
      let '(ok, text) := build_headers key in
      put headers_at text ;;
      if ok : bool then
        log_text (cs "sudoku: requesting puzzle") ;;
        put response_at (bytes_of_response (HttpClient.WebResponse RESPONSE_SIZE 0 0 0 0)) ;;
        ret ← call (WebHttpRequest (sudoku_request url url_addr (Z.of_nat (length text))));
        sudoku_answer ret
      else log_text (cs "sudoku: API key is too long") ;; mret 1%Z
  end.
End sudoku.
End apps.
End SampleApps.
