(* ===== verification/AppLogic.v ===== *)
(** * Programs over device files

    Rules for the applications of SampleApps.v, in the style of a program logic: a
    [triple] states what a program returns, how it changes its memory and one driver's
    part of the board, and what it logs, from any host with the given application and
    devfs.  The rules for host calls are those of DeviceHost.v. *)

From S2P Require Import Prelude CLib AppContext Devfs DevfsPart DevfsAccess HttpClient AppFs DeviceFs WasmMemory WasmHost DeviceHost SampleApps.
From Stdlib Require Import ZArith Lia.
From Stdlib Require Import Strings.Byte.
From stdpp Require Import base numbers list list_numbers strings.

(** What time does to the part of a driver. *)
Class PartClock (W G : Type) {C : DeviceClock W} {P : Part W G} (passes : Z -> G -> G) :=
  part_passes ms w : part (time_passes ms w) = passes ms (part w).

Module AppLogic.
Import WasmHost DeviceHost SampleApps.

(** An array of the application: every part of it is in its memory. *)
Definition array {M : AppMemory} (a n : Z) (m : mem) : Prop :=
  forall k j, (0 <= k)%Z -> (0 <= j)%Z -> (k + j <= n)%Z -> validate_native_addr (a + k) j m = true.

Section memory.
Context {M : AppMemory} {ML : AppMemoryLaws M}.

Lemma array_valid a n j m : array a n m -> (0 <= j <= n)%Z -> validate_native_addr a j m = true.
Proof. intros H Hj. rewrite <- (Z.add_0_r a). apply H; lia. Qed.

Lemma array_store a n b d m : array a n (store b d m) <-> array a n m.
Proof. split; intros H k j Hk Hj Hn; specialize (H k j Hk Hj Hn); by rewrite valid_after_store in *. Qed.

Lemma array_in_range {F : AppFs} {K : KernelHeap} {L : HttpLimits} {P : UrlParser} {N : NetStack} a n j h :
  array a n (memory h) -> (0 <= j <= n)%Z -> valid_range a j h = true.
Proof.
  intros Ha Hj. pose proof (array_valid a n j _ Ha Hj) as Hv. unfold valid_range. rewrite Hv.
  destruct (valid_addresses a j _ (proj1 Hj) Hv) as [Hpos _]. rewrite (bool_decide_eq_true_2 (a <> 0%Z)) by lia. by rewrite orb_true_r.
Qed.
End memory.

(** String literals of an application. *)
Section literals.
Context {M : AppMemory} {ML : AppMemoryLaws M} (lit : cstr -> Z) (c : App.webos_app_context).

(** The string literals [ts] are in the memory, and an array shares no byte with them. *)
Definition literal (m : mem) (t : cstr) : Prop :=
  array (lit t) (Z.of_nat (length t)) m /\ load (lit t) (length t) m = t /\ NUL ∉ t /\ (Z.of_nat (length t) <= App.max_io_bytes c)%Z.
Definition literals (ts : list cstr) (m : mem) : Prop := Forall (literal m) ts.
Definition apart (ts : list cstr) (a n : Z) : Prop := Forall (fun t => disjoint_ranges (lit t) (Z.of_nat (length t)) a n) ts.

Lemma literals_in ts m t : literals ts m -> t ∈ ts -> literal m t.
Proof. unfold literals. rewrite Forall_forall. auto. Qed.

Lemma literals_store ts a n d m :
  apart ts a n -> (Z.of_nat (length d) <= n)%Z -> literals ts m -> literals ts (store a d m).
Proof.
  unfold apart, literals. rewrite !Forall_forall. intros Ha Hd Hm t Ht. destruct (Hm t Ht) as (H1 & H2 & H3 & H4). specialize (Ha t Ht).
  unfold literal. rewrite array_store. split_and!; [done| |done|done].
  rewrite load_disjoint; [done|]. unfold disjoint_ranges in *. lia.
Qed.

Lemma literals_part ts a n k d m :
  apart ts a n -> (0 <= k)%Z -> (k + Z.of_nat (length d) <= n)%Z -> literals ts m -> literals ts (store (a + k) d m).
Proof.
  intros Ha Hk Hd. apply (literals_store ts (a + k) (n - k)); [|lia]. unfold apart in *. rewrite Forall_forall in *.
  intros t Ht. specialize (Ha t Ht). unfold disjoint_ranges in *. lia.
Qed.
End literals.

Section logic.
Context {M : AppMemory} {ML : AppMemoryLaws M} {F : AppFs} {K : KernelHeap} {L : HttpLimits} {P : UrlParser} {N : NetStack}.
Context (clock : nat -> Z) {G : Type}.
Implicit Types (h : host) (m : mem) (g : G).

(** What is known of a host apart from the memory of the application and the time: it
    is described by a [G]. *)
Class Describes (R : host -> G -> Prop) :=
  described_call h g m t : R h g -> R (Host m (context h) (host_fs h) (heap h) (http h) t (events h)) g.

Context (R : host -> G -> Prop) {HR : Describes R}.

Definition triple {A : Type} (p : App A) (m : mem) (g : G) (a : A) (m' : mem) (g' : G) (l : list cstr) : Prop :=
  forall n h, R h g -> exists n' h', (forall k, run (p k n m) h = run (k a n' m') h')
    /\ R h' g' /\ messages (events h') = messages (events h) ++ l.

Lemma triple_ret {A} (a : A) m g : triple (mret a) m g a m g [].
Proof. intros n h Hh. exists n, h. split_and!; [done|done|by rewrite app_nil_r]. Qed.

Lemma triple_bind {A B} (p : App A) (f : A -> App B) m1 g1 a m2 g2 l1 b m3 g3 l2 :
  triple p m1 g1 a m2 g2 l1 -> triple (f a) m2 g2 b m3 g3 l2 -> triple (p ≫= f) m1 g1 b m3 g3 (l1 ++ l2).
Proof.
  intros H1 H2 n h Hh. destruct (H1 n h Hh) as (n2 & h2 & E1 & Hh2 & M1). destruct (H2 n2 h2 Hh2) as (n3 & h3 & E2 & Hh3 & M2).
  exists n3, h3. split_and!; [|done|by rewrite M2, M1, app_assoc]. intros k.
  change ((p ≫= f) k n m1) with (p (fun a => f a k) n m1). by rewrite E1, E2.
Qed.

(** A loop that is in the state [ms i], [gs i] before its [i]th round. *)
Lemma triple_for (f : nat -> App unit) (ms : nat -> mem) (gs : nat -> G) (out : nat -> list cstr) len from :
  (forall i, from <= i < from + len -> triple (f i) (ms i) (gs i) tt (ms (S i)) (gs (S i)) (out i)) ->
  triple (for_loop len from f) (ms from) (gs from) tt (ms (from + len)) (gs (from + len)) (concat (out <$> seq from len)).
Proof.
  revert from. induction len as [|len IH]; intros from Hf; cbn; [rewrite Nat.add_0_r; apply triple_ret|].
  eapply triple_bind; [apply Hf; lia|]. rewrite <- Nat.add_succ_comm. apply IH. intros i Hi. apply Hf. lia.
Qed.

Lemma triple_put a d m g : triple (put a d) m g tt (store a d m) g [].
Proof. intros n h Hh. exists n, h. split_and!; [done|done|by rewrite app_nil_r]. Qed.

Lemma triple_get a k m g : triple (get a k) m g (load a k m) m g [].
Proof. intros n h Hh. exists n, h. split_and!; [done|done|by rewrite app_nil_r]. Qed.

(** A host call: what the host does with the memory of the call. *)
Lemma triple_call x m g r m' g' l :
  (forall h, R h g -> memory h = m -> exists h', native_symbols x h = (r, h') /\ memory h' = m' /\ R h' g'
     /\ messages (events h') = messages (events h) ++ l) ->
  triple (call clock x) m g r m' g' l.
Proof.
  intros H n h Hh. set (h0 := Host m (context h) (host_fs h) (heap h) (http h) (clock n) (events h)).
  destruct (H h0) as (h' & E & Hm & Hr & He); [by apply described_call|done|].
  exists (S n), h'. split_and!; [|done|done]. intros k. cbn [run call]. fold h0. by rewrite E, Hm.
Qed.

(** A text in memory is printed as it is, and nothing else changes. *)
Lemma triple_log c a t m g :
  (forall h g, R h g -> context h = Some c) -> (forall h g l, R h g -> R (emit l h) g) ->
  array a (Z.of_nat (length t)) m -> load a (length t) m = t -> NUL ∉ t -> (Z.of_nat (length t) <= App.max_io_bytes c)%Z ->
  triple (call clock (LogPrint (Some (a, t)))) m g 0%Z m g [t].
Proof.
  intros Hctx Hemit Ha Hl Hn Hc. apply triple_call. intros h Hh <-. eexists. split; [done|].
  assert (text_ok a t h) as Ht by (split; [exists c; split; [by eapply Hctx|done]|done|eapply array_in_range; [done|lia]|done]).
  destruct (log_print_emits h a t Ht) as (e & -> & He). split_and!; [done|by apply Hemit|]. cbn [emit events]. by rewrite messages_app, He.
Qed.

(** A whole application. *)
Lemma triple_run (p : App Z) m g a m' g' l h :
  triple p m g a m' g' l -> R h g ->
  exists h', run (application p m) h = (true, h') /\ R h' g' /\ messages (events h') = messages (events h) ++ l.
Proof. intros H Hh. destruct (H 0 h Hh) as (n' & h' & E & Hr & Hm). exists h'. split; [apply E|done]. Qed.
End logic.

(** ** Device files of one driver *)

Section driver.
Context {M : AppMemory} {ML : AppMemoryLaws M} {F : AppFs} {K : KernelHeap} {L : HttpLimits} {P : UrlParser} {N : NetStack}.
Context {cfg : DevfsConfig} {W : Type} {C : DeviceClock W} {D : MountedDevfs W F} {FH : AppFsHandles F}.
Context {G : Type} {PG : Part W G} {passes : Z -> G -> G} {PC : PartClock W G passes}.
Context (Hmalloc : forall f, handle_malloc f = true).
Context (clock : nat -> Z) (c : App.webos_app_context) (s : Tree.devfs (W := W)).
Implicit Types (h : host) (m : mem) (g : G).

(** A host that runs the application [c] over the tree [s], with the driver at [g]. *)
Record ready h g : Prop := {
  ready_context : context h = Some c;
  ready_tree : device_tree h = s;
  ready_part : part (board h) = g;
}.

#[global] Instance ready_describes : Describes ready.
Proof. intros h g m t [Hc Ht Hb]. by split. Qed.

Lemma ready_leads h h' m w l g' : ready h (part (board h)) -> leads h h' m w l -> part w = g' ->
  memory h' = m /\ ready h' g' /\ messages (events h') = messages (events h) ++ l.
Proof. intros [Hc Ht _] [[Kc Kt _ _] Hm Hw He] Hg. split; [done|]. split; [|done]. split; [by rewrite Kc|by rewrite Kt|by rewrite Hw]. Qed.

Notation triple := (triple ready).

Lemma triple_sleep ms m g : triple (call clock (WebosSleepMs ms)) m g 0%Z m (passes ms g) [].
Proof.
  apply triple_call; [apply _|]. intros h [Hc Ht Hb] <-. eexists. split; [done|].
  eapply ready_leads; [by split|apply host_sleep_leads|]. by rewrite part_passes, Hb.
Qed.

Section device.
Context (p : cstr) (o : devfs_file_ops G) (ud : Z) (oo : Z -> Z -> Z -> G -> Z * Z * G) (oc : Z -> G -> Z * Z * G).
Context (Hdev : is_device p = true) (Hpath : App.webos_app_path_allowed (Some c) (Some p) = true).
Context (Hat : DevfsAccess.device_at s p (lift_ops o) ud) (Ho : op_open o = Some oo) (Hc : op_close o = Some oc).

Lemma triple_write ow a n m g d1 g1 r d2 g2 r3 d3 g3 :
  op_write o = Some ow -> (0 <= n <= App.max_io_bytes c)%Z -> array a n m ->
  (forall fl, oo 0%Z ud fl g = (0%Z, d1, g1)) -> ow d1 (load a (Z.to_nat n) m) g1 = (r, d2, g2) -> oc d2 g2 = (r3, d3, g3) ->
  triple (call clock (WebosWrite (Some p) a n)) m g (App.webos_abi_map_errno r) m g3 [].
Proof.
  intros Hw Hn Ha E1 E2 E3. apply triple_call; [apply _|]. intros h [Hcx Ht Hb] <-.
  destruct (host_write_device Hmalloc h p a n (lift_ops o) ud (fun d u fl => on_part (oo d u fl)) (fun d x => on_part (ow d x))
    (fun d => on_part (oc d)) d1 (with_part g1 (board h)) r d2 (with_part g2 (board h)) r3 d3 (with_part g3 (board h)))
    as (h' & E & Hl); cbn [lift_ops op_open op_write op_close]; rewrite ?Ho, ?Hc, ?Hw; try done.
  - split; [exists c; split; [done|lia]|by rewrite Hcx|eapply array_in_range; [done|lia]|done].
  - by rewrite Ht.
  - intros fl. apply on_part_eq. by rewrite Hb.
  - by apply on_part_next.
  - by apply on_part_next.
  - exists h'. split; [done|]. eapply ready_leads; [by split|done|apply part_with].
Qed.

Lemma triple_read orr a n m g d1 g1 r out d2 g2 r3 d3 g3 :
  op_read o = Some orr -> (0 <= n <= App.max_io_bytes c)%Z -> array a n m ->
  (forall fl, oo 0%Z ud fl g = (0%Z, d1, g1)) -> orr d1 (Z.to_nat n) g1 = (r, out, d2, g2) -> oc d2 g2 = (r3, d3, g3) ->
  triple (call clock (WebosRead (Some p) a n)) m g (App.webos_abi_map_errno r) (match out with [] => m | _ => store a out m end) g3 [].
Proof.
  intros Hr Hn Ha E1 E2 E3. apply triple_call; [apply _|]. intros h [Hcx Ht Hb] <-.
  destruct (host_read_device Hmalloc h p a n (lift_ops o) ud (fun d u fl => on_part (oo d u fl)) (fun d x => on_part (orr d x))
    (fun d => on_part (oc d)) d1 (with_part g1 (board h)) r out d2 (with_part g2 (board h)) r3 d3 (with_part g3 (board h)))
    as (h' & E & Hl); cbn [lift_ops op_open op_read op_close]; rewrite ?Ho, ?Hc, ?Hr; try done.
  - split; [exists c; split; [done|lia]|by rewrite Hcx|eapply array_in_range; [done|lia]|done].
  - by rewrite Ht.
  - intros fl. apply on_part_eq. by rewrite Hb.
  - by apply on_part_next.
  - by apply on_part_next.
  - exists h'. split; [done|]. eapply ready_leads; [by split|done|apply part_with].
Qed.
End device.

End driver.
End AppLogic.
