(* ===== verification/DriverSteps.v ===== *)
(** * What a driver does to its hardware

    The accesses of the GPIO driver and of the LED driver, each as the sequence of
    operations the hardware sees, on hardware that works. *)

From S2P Require Import Prelude CLib Devfs DevfsPart Gpio GpioSpec RgbLed RgbLedSpec.
From Stdlib Require Import ZArith Lia.
From Stdlib Require Import Strings.Byte.
From stdpp Require Import base numbers list list_numbers strings sets gmap.

(** A controller and a heap that do what they are asked, and what time does to them. *)
Class GpioWorks (H : GpioHw) := {
  ghw_wait : Z -> ghw -> ghw;
  gpio_ready h i : gpio_is_ready_dt h i = true;
  gpio_configures h i fl : (0 <= (gpio_pin_configure_dt h i fl).1)%Z;
  gpio_sets h i v : (0 <= (gpio_pin_set_dt h i v).1)%Z;
  gpio_allocates h : (gpio_malloc h).1 = true;
}.

Class LedWorks (H : LedHw) := {
  lhw_wait : Z -> lhw -> lhw;
  leds_ready h i : led_is_ready h i = true;
  leds_update h i px : (0 <= (led_strip_update_rgb h i px).1)%Z;
  leds_allocate h : (led_malloc h).1 = true;
}.

(** ** GPIO *)

Module GpioSteps.
Import Gpio.

Section steps.
Context {H : GpioHw} {HW : GpioWorks H}.

(** What the controller and the heap see of an access to a pin. *)
Inductive pin_op := OpAlloc | OpConfigure (fl : gpio_flags) | OpSet (v : Z) | OpWait (ms : Z).

Definition pin_step (i : nat) (op : pin_op) (h : ghw) : ghw :=
  match op with
  | OpAlloc => (gpio_malloc h).2
  | OpConfigure fl => (gpio_pin_configure_dt h i fl).2
  | OpSet v => (gpio_pin_set_dt h i v).2
  | OpWait ms => ghw_wait ms h
  end.

Definition drive (i : nat) (ops : list pin_op) (h : ghw) : ghw := foldl (fun h op => pin_step i op h) h ops.

Lemma drive_app i a b h : drive i (a ++ b) h = drive i b (drive i a h).
Proof. apply foldl_app. Qed.

Definition set_dev_hw (i : nat) (d : webos_gpio_dev) (ops : list pin_op) (g : world) : world :=
  World (<[i := d]> (webos_gpios g)) (open_files g) (drive i ops (hw g)).

(** The state while a file is open. *)
Definition with_open (p : positive) (o : webos_gpio_open_file) (g : world) : world :=
  World (webos_gpios g) (<[p := o]> (open_files g)) (gpio_malloc (hw g)).2.

Lemma open_steps i t fl g :
  exists p, open_files g !! p = None /\ webos_gpio_open 0 (def_addr i t) fl g = (0%Z, Z.pos p, with_open p (OpenFile i t false) g).
Proof.
  exists (fresh (dom (open_files g))). split; [apply not_elem_of_dom, is_fresh|].
  unfold webos_gpio_open. rewrite addr_def_addr, gpio_ready. cbn [negb]. pose proof (gpio_allocates (hw g)) as Ha.
  unfold with_open. by destruct (gpio_malloc (hw g)) as [b h']; cbn in Ha; subst b.
Qed.

(** The handle is the same for all flags. *)
Lemma open_any i t g :
  exists p, open_files g !! p = None
    /\ forall fl, webos_gpio_open 0 (def_addr i t) fl g = (0%Z, Z.pos p, with_open p (OpenFile i t false) g).
Proof. destruct (open_steps i t 0 g) as (p & Hp & E). by exists p. Qed.

(** A write to a value file. *)
Lemma write_value_steps i d g v src :
  webos_gpios g !! i = Some d -> src <> [] -> value_target (char_at (take 15 src ++ [NUL]) 0) = Some v ->
  exists d1 g1 g2, (forall fl, webos_gpio_open 0 (def_addr i WEBOS_GPIO_VALUE) fl g = (0%Z, d1, g1))
    /\ webos_gpio_write d1 src g1 = (Z.of_nat (length src), d1, g2)
    /\ webos_gpio_close d1 g2
       = (0%Z, 0%Z, set_dev_hw i (Dev (pin d) v true (dir_out d) (dir_set d)) [OpAlloc; OpConfigure GPIO_OUTPUT; OpSet v] g).
Proof.
  intros Hd Hs Hv. destruct (open_any i WEBOS_GPIO_VALUE g) as (p & Hp & E). exists (Z.pos p), (with_open p (OpenFile i WEBOS_GPIO_VALUE false) g).
  destruct (gpio_pin_configure_dt (gpio_malloc (hw g)).2 i GPIO_OUTPUT) as [r1 h1] eqn:E1.
  destruct (gpio_pin_set_dt h1 i v) as [r2 h2] eqn:E2.
  pose proof (gpio_configures (gpio_malloc (hw g)).2 i GPIO_OUTPUT) as Hc. rewrite E1 in Hc. cbn in Hc.
  pose proof (gpio_sets h1 i v) as Hset. rewrite E2 in Hset. cbn in Hset.
  eexists. split; [done|]. unfold webos_gpio_write, open_file_at. cbn [with_open open_files]. rewrite lookup_insert_eq. cbn.
  rewrite decide_False by done. unfold write_value. rewrite Hv. cbn [with_open hw]. rewrite E1. cbn. rewrite decide_True by done. rewrite decide_False by lia.
  cbn. rewrite E2. cbn. rewrite decide_False by lia. split; [done|].
  unfold webos_gpio_close, get_dev, set_dev_hw, drive. cbn. rewrite Hd, delete_insert_id by done. cbn. rewrite E1. cbn. by rewrite E2.
Qed.

(** A write to a direction file. *)
Lemma write_direction_steps i d g fl0 src :
  webos_gpios g !! i = Some d -> src <> [] -> direction_target (take 15 src ++ [NUL]) = Some fl0 ->
  exists d1 g1 g2, (forall fl, webos_gpio_open 0 (def_addr i WEBOS_GPIO_DIRECTION) fl g = (0%Z, d1, g1))
    /\ webos_gpio_write d1 src g1 = (Z.of_nat (length src), d1, g2)
    /\ webos_gpio_close d1 g2
       = (0%Z, 0%Z, set_dev_hw i (Dev (pin d) (value_state d) (value_set d) (bool_decide (fl0 = GPIO_OUTPUT)) true) [OpAlloc; OpConfigure fl0] g).
Proof.
  intros Hd Hs Hv. destruct (open_any i WEBOS_GPIO_DIRECTION g) as (p & Hp & E).
  exists (Z.pos p), (with_open p (OpenFile i WEBOS_GPIO_DIRECTION false) g).
  destruct (gpio_pin_configure_dt (gpio_malloc (hw g)).2 i fl0) as [r1 h1] eqn:E1.
  pose proof (gpio_configures (gpio_malloc (hw g)).2 i fl0) as Hc. rewrite E1 in Hc. cbn in Hc.
  eexists. split; [done|]. unfold webos_gpio_write, open_file_at. cbn [with_open open_files]. rewrite lookup_insert_eq. cbn.
  rewrite decide_False by done. unfold write_direction. rewrite Hv. cbn [with_open hw]. rewrite E1. cbn. rewrite decide_False by done. rewrite decide_False by lia.
  split; [done|]. unfold webos_gpio_close, get_dev, set_dev_hw, drive. cbn. rewrite Hd, delete_insert_id by done. cbn.
  by rewrite E1, list_insert_insert_eq.
Qed.

(** A read of a value file. *)
Lemma read_value_steps i d g n :
  webos_gpios g !! i = Some d -> n <> 0 ->
  exists d1 g1 g2, (forall fl, webos_gpio_open 0 (def_addr i WEBOS_GPIO_VALUE) fl g = (0%Z, d1, g1))
    /\ webos_gpio_read d1 n g1
       = (Z.of_nat (length (take n (read_text d WEBOS_GPIO_VALUE))), take n (read_text d WEBOS_GPIO_VALUE), d1, g2)
    /\ webos_gpio_close d1 g2 = (0%Z, 0%Z, set_dev_hw i d [OpAlloc] g).
Proof.
  intros Hd Hn. destruct (open_any i WEBOS_GPIO_VALUE g) as (p & Hp & E). exists (Z.pos p), (with_open p (OpenFile i WEBOS_GPIO_VALUE false) g).
  eexists. split; [done|]. unfold webos_gpio_read, open_file_at. cbn [with_open open_files]. rewrite lookup_insert_eq. cbn.
  rewrite decide_False by done. unfold get_dev. cbn [put_file webos_gpios with_open]. rewrite Hd. cbn [default from_option id].
  split; [done|]. unfold webos_gpio_close, set_dev_hw, drive. cbn. rewrite insert_insert_eq, delete_insert_id by done.
  by rewrite list_insert_id.
Qed.
End steps.
End GpioSteps.

(** ** LEDs *)

Module LedSteps.
Import RgbLed.

Section steps.
Context {H : LedHw} {HW : LedWorks H}.

Inductive led_op := OpAlloc | OpShow (px : list led_rgb) | OpWait (ms : Z).

Definition led_step (i : nat) (op : led_op) (h : lhw) : lhw :=
  match op with
  | OpAlloc => (led_malloc h).2
  | OpShow px => (led_strip_update_rgb h i px).2
  | OpWait ms => lhw_wait ms h
  end.

Definition drive (i : nat) (ops : list led_op) (h : lhw) : lhw := foldl (fun h op => led_step i op h) h ops.

Lemma strip_drive_app i a b h : drive i (a ++ b) h = drive i b (drive i a h).
Proof. apply foldl_app. Qed.

(** The pixels of a strip in one colour. *)
Definition pixels (d : webos_rgbled_dev) (c : led_rgb) : list led_rgb := replicate (chain_length d `min` RGBLED_MAX_PIXELS) c.

Definition recolor (d : webos_rgbled_dev) (c : led_rgb) : webos_rgbled_dev := Led (webos_pin d) (chain_length d) c.

Lemma write_color_steps i d g c src :
  webos_rgbleds g !! i = Some d -> src <> [] -> requested_color src = inr c ->
  exists d1 g1 g2, (forall fl, webos_rgbled_open 0 (led_addr i) fl g = (0%Z, d1, g1))
    /\ webos_rgbled_write d1 src g1 = (Z.of_nat (length src), d1, g2)
    /\ webos_rgbled_close d1 g2
       = (0%Z, 0%Z, World (<[i := recolor d c]> (webos_rgbleds g)) (open_files g) (drive i [OpAlloc; OpShow (pixels d c)] (hw g))).
Proof.
  intros Hd Hs Hc. set (p := fresh (dom (open_files g))).
  assert (open_files g !! p = None) as Hp by apply not_elem_of_dom, is_fresh.
  assert (addr_led (led_addr i) = i) as Hi by (unfold addr_led, led_addr; lia).
  destruct (led_strip_update_rgb (led_malloc (hw g)).2 i (pixels d c)) as [r h'] eqn:E.
  pose proof (leds_update (led_malloc (hw g)).2 i (pixels d c)) as Hu. rewrite E in Hu. cbn in Hu.
  exists (Z.pos p), (World (webos_rgbleds g) (<[p := OpenFile i false]> (open_files g)) (led_malloc (hw g)).2). eexists. split.
  { intros fl. unfold webos_rgbled_open. rewrite Hi, leds_ready. cbn [negb]. pose proof (leds_allocate (hw g)) as Ha.
    by destruct (led_malloc (hw g)) as [b h0]; cbn in Ha; subst b. }
  unfold webos_rgbled_write, open_file_at. cbn [open_files]. rewrite lookup_insert_eq. cbn. rewrite decide_False by done. rewrite Hc.
  unfold webos_rgbled_show, put_color, get_led. cbn. rewrite list_lookup_alter_eq, Hd. cbn. fold (pixels d c). rewrite E. cbn.
  rewrite !decide_False by lia. split; [done|].
  unfold webos_rgbled_close, drive. cbn. rewrite delete_insert_id by done. f_equal. f_equal.
  apply list_eq. intros j. destruct (decide (j = i)) as [->|Hj].
  - rewrite list_lookup_alter_eq, Hd, list_lookup_insert_eq by (by eapply lookup_lt_Some). done.
  - rewrite list_lookup_alter_ne, list_lookup_insert_ne by done. done.
Qed.
End steps.
End LedSteps.
