(* ===== verification/SampleAppsSpec.v ===== *)
(** * What the sample applications do

    The texts they build, the two blink programs are the same to the host, and - from
    the registration of the drivers to the operations of the hardware - what blink and
    led_colors make the pins and the LEDs do. *)

From S2P Require Import Prelude CLib AppContext Devfs DevfsSpec DevfsState DevfsPart DevfsAccess Gpio RgbLed DeviceTree HttpClient AppFs DeviceFs WasmMemory WasmHost DeviceHost SampleApps AppLogic DriverSteps.
From Stdlib Require Import ZArith Lia.
From Stdlib Require Import Strings.Byte.
From stdpp Require Import base numbers list list_numbers strings sets gmap.

Module SampleAppsSpec.
Import WasmHost DeviceHost SampleApps AppLogic DeviceTree.

(** ** Texts *)

Lemma itos_digits_dec space fuel n :
  (0 < n < 10 ^ Z.of_nat fuel)%Z -> fuel <= space -> reverse (itos_digits space n) = dec_digits fuel n.
Proof.
  revert space n. induction fuel as [|fuel IH]; intros space n Hn Hs; [cbn in Hn; lia|].
  destruct space as [|space]; [lia|]. cbn [itos_digits dec_digits]. rewrite decide_True by lia. rewrite reverse_cons. f_equal.
  case_decide as Hlt.
  - rewrite Z.div_small by lia. by destruct space.
  - apply IH; [|lia]. rewrite Nat2Z.inj_succ, Z.pow_succ_r in Hn by lia. split; [apply Z.div_str_pos; lia|apply Z.div_lt_upper_bound; lia].
Qed.

(** [itos] prints as [%u] does, within its twelve digits. *)
Lemma itos_dec n : (0 <= n < 2 ^ 31)%Z -> itos n = dec_text n.
Proof.
  intros Hn. unfold itos. case_decide as Hz; [by subst n|]. apply itos_digits_dec; [|lia]. split; [lia|]. cbn. lia.
Qed.

Lemma length_itos n : length (itos n) <= 12.
Proof.
  unfold itos. case_decide; [cbn; lia|]. rewrite length_reverse.
  assert (forall k v, length (itos_digits k v) <= k) as Hk; [|apply Hk].
  induction k as [|k IH]; intros v; cbn; [lia|]. case_decide; cbn; [|lia]. specialize (IH (v / 10)%Z). lia.
Qed.

(** Whatever the pin and the suffix are, the text and its NUL fit into [path[64]]. *)
Lemma blink_path_fits pin suffix : length (blink_path pin suffix) < 64.
Proof.
  unfold blink_path, make_path. rewrite !length_app, !length_take. pose proof (length_itos pin). cbn. lia.
Qed.

Lemma blink_path_eq pin t : (0 <= pin < 2 ^ 31)%Z -> blink_path pin (cs "/" ++ gpio_leaf t) = gpio_path pin t.
Proof.
  intros Hp. unfold blink_path, make_path. rewrite itos_dec by done. pose proof (length_dec_digits 10 pin) as Hl. fold (dec_text pin) in Hl.
  rewrite (take_ge (cs "/dev/gpio/")) by (cbn; lia). rewrite (take_ge (cs "/" ++ gpio_leaf t)).
  - unfold gpio_path, device_path. clear Hl. generalize (dec_text pin). intros d. by rewrite <- app_assoc.
  - rewrite !length_app. change (length (cs "/dev/gpio/")) with 10. change (length (cs "/")) with 1. assert (length (gpio_leaf t) <= 9) by (by apply Nat.leb_le; destruct t). lia.
Qed.

Lemma gpio_path_device pin t : is_device (gpio_path pin t) = true.
Proof. unfold is_device. apply starts_with_spec. by eexists. Qed.

(** ** native_blink is blink *)

Section same.
Context {M : AppMemory} {F : AppFs} {K : KernelHeap} {L : HttpLimits} {P : UrlParser} {N : NetStack} (lit : cstr -> Z) (clock : nat -> Z).

(** Two programs no host can tell apart. *)
Definition same {A : Type} (p q : App A) : Prop := forall k1 k2 n m h,
  (forall a n' m' h', run (k1 a n' m') h' = run (k2 a n' m') h') -> run (p k1 n m) h = run (q k2 n m) h.

Lemma same_refl {A} (a : A) : same (mret a) (mret a).
Proof. intros k1 k2 n m h Hk. apply Hk. Qed.

Lemma same_bind {A B} (p q : App A) (f g : A -> App B) : same p q -> (forall a, same (f a) (g a)) -> same (p ≫= f) (q ≫= g).
Proof. intros H1 H2 k1 k2 n m h Hk. apply H1. intros a n' m' h'. by apply H2. Qed.

Lemma same_call c d : (forall h, native_symbols c h = native_symbols d h) -> same (call clock c) (call clock d).
Proof. intros H k1 k2 n m h Hk. cbn. rewrite H. destruct (native_symbols d _). apply Hk. Qed.

Lemma same_for f g len from : (forall i, same (f i) (g i)) -> same (for_loop len from f) (for_loop len from g).
Proof. intros H. revert from. induction len as [|len IH]; intros from; cbn; [apply same_refl|]. by apply same_bind. Qed.

Lemma same_put a d : same (put a d) (put a d).
Proof. intros k1 k2 n m h Hk. apply Hk. Qed.

Lemma same_get a n : same (get a n) (get a n).
Proof. intros k1 k2 i m h Hk. apply Hk. Qed.

Lemma same_log s : same (log_text lit clock s) (log_text lit clock s).
Proof. by apply same_call. Qed.

(** Walks through two programs of the same shape. *)
Ltac same_steps :=
  lazymatch goal with
  | |- same (_ ≫= _) (_ ≫= _) => apply same_bind; [same_steps|intros ?; same_steps]
  | |- same (call _ _) (call _ _) => by apply same_call
  | |- same (log_text _ _ _) _ => apply same_log
  | |- same (put _ _) _ => apply same_put
  | |- same (get _ _) _ => apply same_get
  | |- same (mret _) _ => apply same_refl
  | |- same (if ?b then _ else _) _ => destruct b; same_steps
  | |- _ => idtac
  end.

Lemma same_round (pin count : Z) (i : nat) : same (blink_round lit clock alias_calls pin count i) (blink_round lit clock abi_calls pin count i).
Proof. unfold blink_round, write_text. same_steps. Qed.

Lemma same_print (buf r : Z) : same (print_read clock buf r) (print_read clock buf r).
Proof. unfold print_read. same_steps. Qed.

(** Native_blink, which uses the names of older payloads, and blink, which uses
    those of the ABI, are the same program to any host: from the same memory and with
    the same arguments they make it do the same, and end the same. *)
Theorem native_blink_is_blink buf argv m h :
  run (application (native_blink lit clock buf argv) m) h = run (application (blink lit clock buf argv) m) h.
Proof.
  assert (same (native_blink lit clock buf argv) (blink lit clock buf argv)) as Hs; [|by apply Hs].
  unfold native_blink, blink, blink_program, write_text. same_steps; [|apply same_print]. apply same_for. intros i. apply same_round.
Qed.
End same.

(** ** The applications on a board *)

Section apps.
Context {M : AppMemory} {ML : AppMemoryLaws M} {F : AppFs} {K : KernelHeap} {L : HttpLimits} {P : UrlParser} {N : NetStack}.
Context {cfg : DevfsConfig} {W : Type} {C : DeviceClock W} {D : MountedDevfs W F} {FH : AppFsHandles F}.
Context (Hmalloc : forall f, handle_malloc f = true) (Hmax : 32 <= WEBOS_DEVFS_MAX_PATH_LEN).
Context {GH : GpioHw} {GW : GpioWorks GH} {GP : Part W Gpio.world} {LH : LedHw} {LW : LedWorks LH} {LP : Part W RgbLed.world}.
Context (lit : cstr -> Z) (clock : nat -> Z) (c : App.webos_app_context).

Notation literals := (AppLogic.literals lit c).
Notation apart := (AppLogic.apart lit).
Notation literals_in := (AppLogic.literals_in lit c).
Notation literals_store := (AppLogic.literals_store lit c).
Notation literals_part := (AppLogic.literals_part lit c).

Lemma errno_ok r : (0 <= r)%Z -> App.webos_abi_map_errno r = r.
Proof. intros Hr. unfold App.webos_abi_map_errno. by rewrite decide_True. Qed.

Notation log_text := (log_text lit clock).
Notation triple s := (triple (ready (D := D) c s)).

Lemma triple_text {G : Type} {PG : Part W G} s ts t m (g : G) : literals ts m -> t ∈ ts -> triple s (log_text t) m g 0%Z m g [t].
Proof. intros Hm Ht. destruct (literals_in ts m t Hm Ht) as (H1 & H2 & H3 & H4). apply (triple_log clock (ready c s) c); [by intros ? ? []|by intros ? ? ? []|done..]. Qed.

(** A literal of a program is one of its texts. *)
Ltac in_texts := apply (bool_decide_unpack _); vm_compute; exact I.

(** *** blink *)

Section blink.
Import Gpio GpioSteps.

Definition gpio_passes (ms : Z) (g : world) : world := World (webos_gpios g) (open_files g) (ghw_wait ms (hw g)).
Context {PC : PartClock W world gpio_passes}.
Context (s : Tree.devfs (W := W)) (i : nat) (p : Z) (g0 : world) (Hi : i < length (webos_gpios g0)) (Hp : (0 <= p < 2 ^ 31)%Z).
Context (Hio : (15 <= App.max_io_bytes c)%Z).
Context (Hat : forall t, DevfsAccess.device_at s (gpio_path p t) (lift_ops webos_gpio_ops) (def_addr i t)).
Context (Hallowed : forall t, App.webos_app_path_allowed (Some c) (Some (gpio_path p t)) = true).

(** The driver after the operations [ops] on the pin, with its record at [d]. *)
Definition after (d : webos_gpio_dev) (ops : list pin_op) : world :=
  World (<[i := d]> (webos_gpios g0)) (open_files g0) (drive i ops (hw g0)).

Lemma after_next d d' ops ops' : set_dev_hw i d' ops' (after d ops) = after d' (ops ++ ops').
Proof. unfold set_dev_hw, after. cbn. by rewrite list_insert_insert_eq, drive_app. Qed.

Lemma after_lookup d ops : webos_gpios (after d ops) !! i = Some d.
Proof. unfold after. cbn. by rewrite list_lookup_insert_eq. Qed.

Lemma after_wait d ops ms : gpio_passes ms (after d ops) = after d (ops ++ [OpWait ms]).
Proof. unfold gpio_passes, after. cbn. by rewrite drive_app. Qed.

Definition set_ops (v : Z) : list pin_op := [OpAlloc; OpConfigure GPIO_OUTPUT; OpSet v].

Lemma triple_set ts t v m d ops :
  literals ts m -> t ∈ ts -> t <> [] -> length t <= 15 -> value_target (char_at (take 15 t ++ [NUL]) 0) = Some v ->
  triple s (write_text lit clock abi_calls (blink_path p (cs "/value")) t) m (after d ops) (Z.of_nat (length t))
    m (after (Dev (pin d) v true (dir_out d) (dir_set d)) (ops ++ set_ops v)) [].
Proof.
  intros Hm Ht Hn Hlen Hv. destruct (literals_in ts m t Hm Ht) as (H1 & H2 & _ & _).
  destruct (write_value_steps i d (after d ops) v t (after_lookup d ops) Hn Hv) as (d1 & g1 & g2 & E1 & E2 & E3).
  rewrite after_next in E3. unfold write_text. change (cs "/value") with (cs "/" ++ gpio_leaf WEBOS_GPIO_VALUE). rewrite (blink_path_eq p _ Hp).
  rewrite <- (errno_ok (Z.of_nat (length t))) at 2 by lia.
  eapply (triple_write Hmalloc clock c s (gpio_path p WEBOS_GPIO_VALUE) webos_gpio_ops (def_addr i WEBOS_GPIO_VALUE)
    webos_gpio_open webos_gpio_close); try done; [lia|]. rewrite Nat2Z.id, H2. exact E2.
Qed.

Lemma triple_direction ts m d ops :
  literals ts m -> cs "out" ∈ ts ->
  triple s (write_text lit clock abi_calls (blink_path p (cs "/direction")) (cs "out")) m (after d ops) 3%Z
    m (after (Dev (pin d) (value_state d) (value_set d) true true) (ops ++ [OpAlloc; OpConfigure GPIO_OUTPUT])) [].
Proof.
  intros Hm Ht. destruct (literals_in ts m _ Hm Ht) as (H1 & H2 & _ & _).
  destruct (write_direction_steps i d (after d ops) GPIO_OUTPUT (cs "out") (after_lookup d ops) ltac:(done) ltac:(reflexivity))
    as (d1 & g1 & g2 & E1 & E2 & E3).
  rewrite after_next in E3. unfold write_text. change (cs "/direction") with (cs "/" ++ gpio_leaf WEBOS_GPIO_DIRECTION). rewrite (blink_path_eq p _ Hp).
  change 3%Z with (App.webos_abi_map_errno (Z.of_nat (length (cs "out")))).
  eapply (triple_write Hmalloc clock c s (gpio_path p WEBOS_GPIO_DIRECTION) webos_gpio_ops (def_addr i WEBOS_GPIO_DIRECTION)
    webos_gpio_open webos_gpio_close); try done; [cbn; lia|]. rewrite Nat2Z.id, H2. exact E2.
Qed.

Lemma triple_wait ms m d ops : triple s (call clock (WebosSleepMs ms)) m (after d ops) 0%Z m (after d (ops ++ [OpWait ms])) [].
Proof. rewrite <- after_wait. apply triple_sleep. Qed.

Definition blink_texts : list cstr := [cs "blink: starting"; cs "out"; cs "1"; cs "0"; cs "ON"; cs "OFF"; cs "blink: done"].

(** What the pin sees of one round and of the whole program. *)
Definition round_ops (k : nat) : list pin_op :=
  set_ops 1 ++ [OpWait 500] ++ set_ops 0 ++ (if decide (Z.of_nat k < 9)%Z then [OpWait 500] else []).
Definition blink_ops : list pin_op := [OpAlloc; OpConfigure GPIO_OUTPUT] ++ concat (round_ops <$> seq 0 10) ++ [OpAlloc].
Definition blink_log : list cstr :=
  [cs "blink: starting"] ++ concat (replicate 10 [cs "ON"; cs "OFF"]) ++ [cs "0" ++ [x0a]; cs "blink: done"].

Lemma triple_round m d ops k :
  literals blink_texts m -> dir_out d = true -> dir_set d = true ->
  triple s (blink_round lit clock abi_calls p 10 k) m (after d ops) tt m (after (Dev (pin d) 0 true true true) (ops ++ round_ops k))
    [cs "ON"; cs "OFF"].
Proof.
  intros Hm Ho Hs. unfold blink_round, round_ops. change [cs "ON"; cs "OFF"] with ([] ++ [cs "ON"] ++ [] ++ [] ++ [cs "OFF"] ++ []).
  eapply triple_bind; [apply (triple_set blink_texts _ 1); [done|in_texts|done|cbn; lia|reflexivity]|].
  eapply triple_bind; [apply (triple_text s blink_texts); [done|in_texts]|].
  eapply triple_bind; [apply triple_wait|].
  eapply triple_bind; [apply (triple_set blink_texts _ 0); [done|in_texts|done|cbn; lia|reflexivity]|].
  eapply triple_bind; [apply (triple_text s blink_texts); [done|in_texts]|]. cbn [pin dir_out dir_set]. rewrite Ho, Hs.
  rewrite <- !app_assoc. case_decide as Hk.
  - rewrite decide_True by lia. rewrite (app_assoc (set_ops 1)), (app_assoc _ (set_ops 0)), !app_assoc.
    change (@nil cstr) with (@nil cstr ++ []). eapply triple_bind; [apply triple_wait|apply triple_ret].
  - rewrite decide_False by lia. rewrite app_nil_r. apply triple_ret.
Qed.

Lemma triple_rounds m d ops :
  literals blink_texts m -> dir_out d = true -> dir_set d = true ->
  triple s (for_loop 10 0 (blink_round lit clock abi_calls p 10)) m (after d ops) tt m
    (after (Dev (pin d) 0 true true true) (ops ++ concat (round_ops <$> seq 0 10))) (concat (replicate 10 [cs "ON"; cs "OFF"])).
Proof.
  intros Hm Ho Hs.
  set (dev k := match k with O => d | _ => Dev (pin d) 0 true true true end).
  set (gs k := after (dev k) (ops ++ concat (round_ops <$> seq 0 k))).
  assert (after d ops = gs 0) as -> by (unfold gs; cbn; by rewrite app_nil_r).
  change (concat (replicate 10 [cs "ON"; cs "OFF"])) with (concat ((fun _ => [cs "ON"; cs "OFF"]) <$> seq 0 10)).
  apply (triple_for (ready c s) _ (fun _ => m) gs (fun _ => [cs "ON"; cs "OFF"]) 10 0). intros k Hk.
  assert (gs (S k) = after (Dev (pin (dev k)) 0 true true true) ((ops ++ concat (round_ops <$> seq 0 k)) ++ round_ops k)) as ->.
  { unfold gs. rewrite seq_S, fmap_app, concat_app, Nat.add_0_l. cbn [fmap list_fmap concat]. rewrite app_nil_r, app_assoc. by destruct k. }
  apply triple_round; [done|by destruct k|by destruct k].
Qed.

(** The value is read back and printed. *)
Definition read_back : cstr := cs "0" ++ [x0a].

Lemma triple_read_back buf m ops :
  array buf 16 m ->
  triple s (call clock (WebosRead (Some (blink_path p (cs "/value"))) buf 15)) m (after (Dev p 0 true true true) ops) 2%Z
    (store buf read_back m) (after (Dev p 0 true true true) (ops ++ [OpAlloc])) [].
Proof.
  intros Ha. set (d := Dev p 0 true true true).
  destruct (read_value_steps i d (after d ops) 15 (after_lookup d ops) ltac:(done)) as (d1 & g1 & g2 & E1 & E2 & E3).
  rewrite after_next in E3. change (cs "/value") with (cs "/" ++ gpio_leaf WEBOS_GPIO_VALUE). rewrite (blink_path_eq p _ Hp).
  eapply (triple_read Hmalloc clock c s (gpio_path p WEBOS_GPIO_VALUE) webos_gpio_ops (def_addr i WEBOS_GPIO_VALUE)
    webos_gpio_open webos_gpio_close (gpio_path_device p _) (Hallowed _) (Hat _) eq_refl eq_refl webos_gpio_read buf 15 m (after d ops) d1 g1 2 read_back d1 g2); try done.
  intros k j Hk Hj Hkj. apply Ha; lia.
Qed.

Lemma triple_print buf m (g : world) :
  array buf 16 m ->
  triple s (print_read clock buf 2) (store buf read_back m) g tt (store (buf + 2) [NUL] (store buf read_back m)) g [read_back].
Proof.
  intros Ha. unfold print_read. rewrite decide_True by done. change [read_back] with ([] ++ [] ++ [read_back] ++ []).
  assert (length read_back = 2) as Hlen by done.
  assert (load buf 2 (store (buf + 2) [NUL] (store buf read_back m)) = read_back) as Hl.
  { rewrite load_disjoint by (left; lia). rewrite <- Hlen. apply load_store. apply (array_valid _ 16); [done|lia]. }
  eapply triple_bind; [apply triple_put|]. eapply triple_bind; [apply triple_get|].
  change (Z.to_nat 2) with 2. rewrite Hl. eapply triple_bind; [|apply triple_ret]. change (CLib.c_string read_back) with read_back.
  apply (triple_log clock (ready c s) c); [by intros ? ? []|by intros ? ? ? []| |done|by apply (bool_decide_unpack _)|lia].
  rewrite Hlen, !array_store. intros k j Hk Hj Hkj. apply Ha; lia.
Qed.

Lemma triple_blink buf argv m d :
  webos_gpios g0 !! i = Some d -> pin d = p -> number_argument argv 2 = p ->
  literals blink_texts m -> array buf 16 m -> apart blink_texts buf 16 ->
  exists m', triple s (blink lit clock buf argv) m g0 0%Z m' (after (Dev p 0 true true true) blink_ops) blink_log.
Proof.
  intros Hd Hpin Harg Hm Ha Hap. eexists. unfold blink, blink_program. rewrite Harg.
  assert (g0 = after d []) as E0 by (unfold after; rewrite list_insert_id by done; by destruct g0). rewrite E0 at 1.
  unfold blink_log, blink_ops.
  assert (forall k, [OpAlloc; OpConfigure GPIO_OUTPUT] ++ k ++ [OpAlloc] = (([] ++ [OpAlloc; OpConfigure GPIO_OUTPUT]) ++ k) ++ [OpAlloc]) as ->
    by (intros k; by rewrite <- app_assoc).
  change [cs "0" ++ [x0a]; cs "blink: done"] with ([] ++ [read_back] ++ [cs "blink: done"] ++ []).
  eapply (triple_bind (ready c s)); [by apply (triple_text s blink_texts); [|in_texts]|].
  rewrite <- (app_nil_l (concat (replicate _ _) ++ _)).
  eapply (triple_bind (ready c s)); [apply (triple_direction blink_texts); [done|in_texts]|].
  eapply (triple_bind (ready c s)); [by apply triple_rounds|]. cbn [pin]. rewrite Hpin.
  eapply (triple_bind (ready c s)); [by apply triple_read_back|]. eapply (triple_bind (ready c s)); [by apply triple_print|].
  eapply (triple_bind (ready c s)); [|apply triple_ret]. apply (triple_text s blink_texts); [|in_texts].
  apply (literals_part _ _ 16); [done..|cbn; lia|]. apply (literals_store _ _ 16); [done|cbn; lia|done].
Qed.
End blink.

(** *** led_colors *)

Section led.
Import RgbLed LedSteps.

Definition led_passes (ms : Z) (g : world) : world := World (webos_rgbleds g) (open_files g) (lhw_wait ms (hw g)).
Context {PC : PartClock W world led_passes}.
Context (s : Tree.devfs (W := W)) (i : nat) (d : webos_rgbled_dev) (g0 : world) (Hd : webos_rgbleds g0 !! i = Some d).
Context (Hio : (3 <= App.max_io_bytes c)%Z).
Context (Hat : DevfsAccess.device_at s color_path (lift_ops webos_rgbled_ops) (led_addr i)).
Context (Hallowed : App.webos_app_path_allowed (Some c) (Some color_path) = true).

(** The driver after the operations [ops] on the strip, showing [x]. *)
Definition showing (x : led_rgb) (ops : list led_op) : world :=
  World (<[i := recolor d x]> (webos_rgbleds g0)) (open_files g0) (drive i ops (hw g0)).

Lemma showing_wait x ops ms : led_passes ms (showing x ops) = showing x (ops ++ [OpWait ms]).
Proof. unfold led_passes, showing. cbn. by rewrite strip_drive_app. Qed.

(** A write of a colour to the file of the strip. *)
Lemma triple_show a src x0 x m ops :
  array a (Z.of_nat (length src)) m -> load a (length src) m = src -> src <> [] -> length src <= 3 -> requested_color src = inr x ->
  triple s (call clock (WebosWrite (Some color_path) a (Z.of_nat (length src)))) m (showing x0 ops) (Z.of_nat (length src))
    m (showing x (ops ++ [OpAlloc; OpShow (pixels d x)])) [].
Proof.
  intros Ha Hl Hn Hlen Hx. assert (webos_rgbleds (showing x0 ops) !! i = Some (recolor d x0)) as Hlk.
  { cbn. apply list_lookup_insert_eq. by eapply lookup_lt_Some. }
  destruct (write_color_steps i (recolor d x0) (showing x0 ops) x src Hlk Hn Hx) as (d1 & g1 & g2 & E1 & E2 & E3).
  rewrite <- (errno_ok (Z.of_nat (length src))) at 2 by lia.
  eapply (triple_write Hmalloc clock c s color_path webos_rgbled_ops (led_addr i) webos_rgbled_open webos_rgbled_close
    eq_refl Hallowed Hat eq_refl eq_refl webos_rgbled_write); [done|lia|done|exact E1|rewrite Nat2Z.id, Hl; exact E2|].
  rewrite E3. unfold showing. cbn. rewrite list_insert_insert_eq, strip_drive_app. done.
Qed.

(** The colours of the eight steps. *)
Definition step_color (v : nat) : led_rgb := Rgb (bval (bit_color v 4)) (bval (bit_color v 2)) (bval (bit_color v 1)).

Lemma requested_step v : v < 8 -> requested_color (rgb_of v) = inr (step_color v).
Proof. intros Hv. do 8 (destruct v as [|v]; [reflexivity|]). lia. Qed.

Definition led_texts : list cstr := [cs "led_colors: starting"] ++ color_names ++ [cs "led_colors: done"].

(** The memory after the steps [vs], each of which stores its colour. *)
Definition painted (rgb : Z) (vs : list nat) (m : mem) : mem := foldl (fun m v => store rgb (rgb_of v) m) m vs.

Lemma painted_ok rgb vs m :
  array rgb 3 m -> apart led_texts rgb 3 -> literals led_texts m ->
  literals led_texts (painted rgb vs m) /\ forall a n, array a n (painted rgb vs m) <-> array a n m.
Proof.
  intros Ha Hap Hm. unfold painted. revert m Ha Hm. induction vs as [|v vs IH]; intros m Ha Hm; [done|]. cbn.
  destruct (IH (store rgb (rgb_of v) m)) as [H1 H2]; [by apply array_store|by apply (literals_store _ _ 3)|].
  split; [done|]. intros a n. by rewrite H2, array_store.
Qed.

Definition step_ops (v : nat) : list led_op := [OpAlloc; OpShow (pixels d (step_color v)); OpWait 500].

Lemma triple_step rgb v x m ops :
  v < 8 -> array rgb 3 m -> apart led_texts rgb 3 -> literals led_texts m ->
  triple s (color_step lit clock rgb v) m (showing x ops) tt (store rgb (rgb_of v) m) (showing (step_color v) (ops ++ step_ops v))
    [default [] (color_names !! v)].
Proof.
  intros Hv Ha Hap Hm. unfold color_step, step_ops. change ([default [] (color_names !! v)]) with ([] ++ [default [] (color_names !! v)] ++ [] ++ [] ++ []).
  eapply (triple_bind (ready c s)); [apply triple_put|].
  eapply (triple_bind (ready c s)); [apply (triple_text s led_texts); [by apply (literals_store _ _ 3)|]|].
  { do 8 (destruct v as [|v]; [in_texts|]). lia. }
  eapply (triple_bind (ready c s)).
  - apply (triple_show rgb (rgb_of v)); [by apply array_store| |done|done|by apply requested_step].
    apply load_store. by apply (array_valid _ 3).
  - eapply (triple_bind (ready c s)); [|apply triple_ret].
    assert (ops ++ [OpAlloc; OpShow (pixels d (step_color v)); OpWait 500] = (ops ++ [OpAlloc; OpShow (pixels d (step_color v))]) ++ [OpWait 500]) as ->
      by by rewrite <- app_assoc.
    rewrite <- showing_wait. apply triple_sleep.
Qed.

Definition round_of_colors : list led_op := concat (step_ops <$> seq 0 8).

Lemma triple_colors rgb x m ops :
  array rgb 3 m -> apart led_texts rgb 3 -> literals led_texts m ->
  triple s (for_loop 8 0 (color_step lit clock rgb)) m (showing x ops) tt (painted rgb (seq 0 8) m)
    (showing (step_color 7) (ops ++ round_of_colors)) color_names.
Proof.
  intros Ha Hap Hm. set (at_step v := match v with O => x | S u => step_color u end).
  set (gs v := showing (at_step v) (ops ++ concat (step_ops <$> seq 0 v))).
  assert (showing x ops = gs 0) as -> by (unfold gs; cbn; by rewrite app_nil_r).
  change color_names with (concat ((fun v => [default [] (color_names !! v)]) <$> seq 0 8)).
  apply (triple_for (ready c s) _ (fun v => painted rgb (seq 0 v) m) gs (fun v => [default [] (color_names !! v)]) 8 0). intros v Hv.
  destruct (painted_ok rgb (seq 0 v) m Ha Hap Hm) as [H1 H2].
  assert (painted rgb (seq 0 (S v)) m = store rgb (rgb_of v) (painted rgb (seq 0 v) m)) as ->
    by (unfold painted; by rewrite seq_S, foldl_app).
  assert (gs (S v) = showing (step_color v) ((ops ++ concat (step_ops <$> seq 0 v)) ++ step_ops v)) as ->.
  { unfold gs. rewrite seq_S, fmap_app, concat_app, Nat.add_0_l. cbn [fmap list_fmap concat]. by rewrite app_nil_r, app_assoc. }
  apply triple_step; [lia|by apply H2|done|done].
Qed.

(** What the strip sees of [r] rounds and the end, and what is logged. *)
Definition led_ops (r : nat) : list led_op := concat (replicate r round_of_colors) ++ [OpAlloc; OpShow (pixels d (Rgb 0 0 0))].
Definition led_log (r : nat) : list cstr :=
  [cs "led_colors: starting"] ++ concat (replicate r color_names) ++ [cs "led_colors: done"].

Lemma fmap_const {A B} (x : B) (l : list A) : (fun _ => x) <$> l = replicate (length l) x.
Proof. induction l as [|a l IH]; [done|]. cbn. by rewrite <- IH. Qed.

Lemma triple_color_rounds rgb r x m :
  array rgb 3 m -> apart led_texts rgb 3 -> literals led_texts m ->
  triple s (for_loop r 0 (fun _ => for_loop 8 0 (color_step lit clock rgb))) m (showing x []) tt
    (painted rgb (concat (replicate r (seq 0 8))) m)
    (showing (match r with O => x | _ => step_color 7 end) (concat (replicate r round_of_colors))) (concat (replicate r color_names)).
Proof.
  intros Ha Hap Hm. set (at_round k := match k with O => x | _ => step_color 7 end).
  assert (concat (replicate r color_names) = concat ((fun _ : nat => color_names) <$> seq 0 r)) as ->
    by (by rewrite fmap_const, length_seq).
  apply (triple_for (ready c s) _ (fun k => painted rgb (concat (replicate k (seq 0 8))) m)
    (fun k => showing (at_round k) (concat (replicate k round_of_colors))) (fun _ => color_names) r 0). intros k Hk.
  destruct (painted_ok rgb (concat (replicate k (seq 0 8))) m Ha Hap Hm) as [H1 H2].
  rewrite !replicate_S_end, !concat_app. cbn [concat]. rewrite !app_nil_r. change (at_round (S k)) with (step_color 7).
  assert (painted rgb (concat (replicate k (seq 0 8)) ++ seq 0 8) m = painted rgb (seq 0 8) (painted rgb (concat (replicate k (seq 0 8))) m)) as ->
    by (unfold painted; by rewrite foldl_app).
  apply triple_colors; [by apply H2|done|done].
Qed.

Lemma triple_led rgb off argv m :
  array rgb 3 m -> apart led_texts rgb 3 -> array off 1 m -> apart led_texts off 1 -> literals led_texts m ->
  exists m', triple s (led_colors lit clock rgb off argv) m g0 0%Z m'
    (showing (Rgb 0 0 0) (led_ops (Z.to_nat (number_argument argv 3)))) (led_log (Z.to_nat (number_argument argv 3))).
Proof.
  intros Ha Hap Hb Hbp Hm. unfold led_colors. generalize (Z.to_nat (number_argument argv 3)). intros r. eexists.
  assert (g0 = showing (color d) []) as E0.
  { unfold showing, recolor. cbn. assert (Led (webos_pin d) (chain_length d) (color d) = d) as -> by by destruct d.
    rewrite list_insert_id by done. by destruct g0. }
  rewrite E0 at 1. destruct (painted_ok rgb (concat (replicate r (seq 0 8))) m Ha Hap Hm) as [H1 H2].
  unfold led_log. change ([cs "led_colors: done"]) with ([] ++ [] ++ [cs "led_colors: done"] ++ []).
  eapply (triple_bind (ready c s)); [by apply (triple_text s led_texts); [|in_texts]|].
  eapply (triple_bind (ready c s)); [by apply triple_color_rounds|].
  eapply (triple_bind (ready c s)); [apply triple_put|].
  eapply (triple_bind (ready c s)).
  - apply (triple_show off [x00] _ (Rgb 0 0 0)); [apply array_store, H2, Hb| |done|cbn; lia|reflexivity].
    change 1 with (length [x00]). apply load_store. apply (array_valid _ 1); [by apply H2|done].
  - eapply (triple_bind (ready c s)); [|apply triple_ret]. apply (triple_text s led_texts); [|in_texts]. by apply (literals_store _ _ 1).
Qed.
End led.

(** The board after start-up: both drivers have registered on the empty tree, and the
    host reaches them through its file system. *)
Record started (devs : list Gpio.webos_gpio_dev) (leds : list RgbLed.webos_rgbled_dev) (h : host) : Prop := {
  start_tree : exists allocs allocs' w0 h1,
    Gpio.webos_gpio_register_devfs allocs devs Tree.initial_heap = (0%Z, h1)
    /\ RgbLed.webos_rgbled_register_devfs allocs' h1 w0 = (0%Z, Tree.nodes (device_tree h), board h)
    /\ RgbLed.webos_rgbleds (part w0) = leds;
  start_handles : Tree.files (device_tree h) = ∅ /\ Tree.dirs (device_tree h) = ∅;
  start_gpios : Gpio.webos_gpios (part (board h)) = devs;
  start_leds : RgbLed.webos_rgbleds (part (board h)) = leds;
  start_pins : pins_ok Gpio.pin devs /\ pins_ok RgbLed.webos_pin leds;
  start_context : context h = Some c;
}.

Lemma started_tree devs leds h : started devs leds h ->
  device_tree h = Tree.Devfs (Tree.nodes (device_tree h)) ∅ ∅ /\ DevfsState.inv (Tree.Devfs (Tree.nodes (device_tree h)) ∅ ∅)
  /\ (forall a o ud, gpio_file 0 devs a o ud -> file_entry (Tree.nodes (device_tree h)) a o ud)
  /\ (forall a o ud, led_file 0 leds a o ud -> file_entry (Tree.nodes (device_tree h)) a o ud).
Proof.
  intros [(al & al' & w0 & h1 & E1 & E2 & E3) [Hf Hd] _ _ [Hp Hlp] _]. rewrite <- E3 in Hlp.
  destruct (tree_of_registrations Hmax al al' devs w0 h1 _ _ Hp Hlp E1 E2) as (Hinv & _ & _ & Hent).
  split_and!; [by destruct (device_tree h); cbn in *; subst|done|intros a o ud Hg; apply Hent; by left|].
  intros a o ud Hl. apply Hent. right. by rewrite E3.
Qed.

(** C6: the blink application on a board after start-up, whatever the rest of the
    host is: the pin named by its argument is made an output, goes high and low ten
    times with 500 ms between the changes, and is read once; the controller sees
    exactly these operations and nothing else, the application logs ON and OFF, then
    the value it read, and devfs is left as it was. *)
Theorem blink_drives_pin {PC : PartClock W Gpio.world gpio_passes} devs leds i d buf argv m h :
  started devs leds h -> devs !! i = Some d -> number_argument argv 2 = Gpio.pin d -> (Gpio.pin d < 2 ^ 31)%Z ->
  (forall t, App.webos_app_path_allowed (Some c) (Some (gpio_path (Gpio.pin d) t)) = true) -> (15 <= App.max_io_bytes c)%Z ->
  literals blink_texts m -> array buf 16 m -> apart blink_texts buf 16 ->
  exists h', run (application (blink lit clock buf argv) m) h = (true, h')
    /\ context h' = context h /\ device_tree h' = device_tree h
    /\ part (board h') = Gpio.World (<[i := Gpio.Dev (Gpio.pin d) 0 true true true]> devs) (Gpio.open_files (part (board h)))
                           (GpioSteps.drive i blink_ops (Gpio.hw (part (board h))))
    /\ messages (events h') = messages (events h) ++ blink_log.
Proof.
  intros Hs Hd Harg Hpin Hallowed Hio Hm Ha Hap. destruct (started_tree devs leds h Hs) as (Et & Hinv & Hf & _).
  destruct Hs as [_ _ Hg _ [Hp _] Hc].
  assert (0 <= Gpio.pin d)%Z as Hpos by (unfold pins_ok in Hp; rewrite Forall_forall in Hp; apply Hp; by eapply list_elem_of_lookup_2).
  destruct (triple_blink (device_tree h) i (Gpio.pin d) (part (board h)) ltac:(rewrite Hg; by eapply lookup_lt_Some) ltac:(done) Hio
    ltac:(intros t; rewrite Et; by eapply gpio_opens) Hallowed buf argv m d) as (m' & Ht); try done; [by rewrite Hg|].
  destruct (triple_run _ _ _ _ _ _ _ _ h Ht) as (h' & Er & [Rc Rt Rp] & Hmsg); [by split|].
  exists h'. split_and!; [done|by rewrite Rc, Hc|done| |done]. rewrite Rp. unfold after. by rewrite Hg.
Qed.

(** C18: the led_colors application on a board after start-up, whatever the rest of the
    host is: the strip of pin 48 shows black, blue, green, cyan, red, magenta, yellow
    and white on all its pixels, each for 500 ms, as many times as the argument says,
    and is black in the end; the strip sees exactly these updates, the application logs
    the names of the colours, and devfs is left as it was. *)
Theorem led_colors_drives_strip {PC : PartClock W RgbLed.world led_passes} devs leds i d rgb off argv m h :
  started devs leds h -> leds !! i = Some d -> RgbLed.webos_pin d = 48%Z ->
  App.webos_app_path_allowed (Some c) (Some color_path) = true -> (3 <= App.max_io_bytes c)%Z ->
  array rgb 3 m -> apart led_texts rgb 3 -> array off 1 m -> apart led_texts off 1 -> literals led_texts m ->
  exists h', run (application (led_colors lit clock rgb off argv) m) h = (true, h')
    /\ context h' = context h /\ device_tree h' = device_tree h
    /\ part (board h') = RgbLed.World (<[i := LedSteps.recolor d (Rgb 0 0 0)]> leds) (RgbLed.open_files (part (board h)))
                           (LedSteps.drive i (led_ops d (Z.to_nat (number_argument argv 3))) (RgbLed.hw (part (board h))))
    /\ messages (events h') = messages (events h) ++ led_log (Z.to_nat (number_argument argv 3)).
Proof.
  intros Hs Hd Hpin Hallowed Hio Ha Hap Hb Hbp Hm. destruct (started_tree devs leds h Hs) as (Et & Hinv & _ & Hf).
  destruct Hs as [_ _ _ Hl [_ Hp] Hc].
  destruct (triple_led (device_tree h) i d (part (board h)) ltac:(by rewrite Hl) Hio
    ltac:(rewrite Et; change color_path with (led_color_path 48); rewrite <- Hpin; by eapply led_opens) Hallowed rgb off argv m)
    as (m' & Ht); try done.
  destruct (triple_run _ _ _ _ _ _ _ _ h Ht) as (h' & Er & [Rc Rt Rp] & Hmsg); [by split|].
  exists h'. split_and!; [done|by rewrite Rc, Hc|done| |done]. rewrite Rp. unfold showing. by rewrite Hl.
Qed.
End apps.
End SampleAppsSpec.
