(* ===== verification/HostHttp.v ===== *)
(** * The contract of web_http_request

    What an application may rely on after a request: the host logs nothing, keeps the
    context and every byte outside the arrays it was given; at most one request goes
    to the network; and when it has succeeded the structure and the body array in
    memory hold the first bytes the HTTP library received for it, as many as fit. *)

From S2P Require Import Prelude CLib AppContext HttpClient HttpClientSpec AppFs WasmMemory WasmHost WasmHostSpec DeviceHost.
From Stdlib Require Import ZArith Lia.
From Stdlib Require Import Strings.Byte.
From stdpp Require Import base numbers list list_numbers strings.

Module HostHttp.
Import WasmHost WasmHostSpec DeviceHost.

Section contract.
Context {M : AppMemory} {ML : AppMemoryLaws M} {F : AppFs} {FH : AppFsHandles F} {FR : AppFsReads F}.
Context {K : KernelHeap} {L : HttpLimits} {P : UrlParser} {N : NetStack}.
Implicit Types (h : host) (a : http_args).

(** The structure is read back as it was stored, its fields as unsigned words. *)
Lemma response_decoded r :
  response_of_bytes (bytes_of_response r)
  = HttpClient.WebResponse (u32 (HttpClient.struct_size r)) (u32 (HttpClient.status_code r)) (u32 (HttpClient.body_len r))
      (u32 (HttpClient.content_length r)) (u32 (HttpClient.flags r)).
Proof.
  unfold response_of_bytes, bytes_of_response. rewrite get_put_le32.
  rewrite (drop_app_length' _ _ 4) by done. rewrite get_put_le32.
  rewrite (app_assoc (put_le32 _)), (drop_app_length' _ _ 8) by done. rewrite get_put_le32.
  rewrite (app_assoc (_ ++ _) (put_le32 (HttpClient.body_len r))), (drop_app_length' _ _ 12) by done. rewrite get_put_le32.
  rewrite (app_assoc (_ ++ _) (put_le32 (HttpClient.content_length r))), (drop_app_length' _ _ 16) by done.
  by rewrite <- (app_nil_r (put_le32 (HttpClient.flags r))), get_put_le32.
Qed.

(** What every call of the host keeps while it logs nothing. *)
Record silent h h' : Prop := {
  silent_context : context h' = context h;
  silent_messages : messages (events h') = messages (events h);
  silent_valid x n : validate_native_addr x n (memory h') = validate_native_addr x n (memory h);
}.

Lemma silent_refl h : silent h h.
Proof. done. Qed.

Lemma silent_trans h1 h2 h3 : silent h1 h2 -> silent h2 h3 -> silent h1 h3.
Proof. intros [C1 M1 V1] [C2 M2 V2]. split; [congruence|congruence|]. intros x n. by rewrite V2, V1. Qed.

Lemma silent_heap k h (l : list host_event) : messages l = [] -> silent h (set_heap k l h).
Proof. intros Hl. split; [done| |done]. cbn [set_heap events]. by rewrite messages_app, Hl, app_nil_r. Qed.

Lemma silent_free p h : silent h (free p h).
Proof. destruct p; [by apply silent_heap|done]. Qed.

Lemma silent_store x d h : silent h (store_bytes x d h).
Proof. split; [by destruct d|by destruct d|]. intros y n. apply store_bytes_valid. Qed.

Lemma silent_perform a text ht resp h : silent h (perform_request a text ht resp h).2.
Proof.
  unfold perform_request. destruct (HttpClient.webos_http_request _ _ _ _ _ _ _ _ _ _) as [[r result] c]. cbv zeta.
  assert (silent h (set_http c [EvRequest (method a) (c_string text)] h)) as H1.
  { split; [done| |done]. cbn [set_http events]. by rewrite messages_app, app_nil_r. }
  destruct result; cbn [snd]; (eapply silent_trans; [exact H1|]); [|apply silent_store].
  eapply silent_trans; apply silent_store.
Qed.

Lemma silent_copy a h p ok h' : copy_headers a h = ((p, ok), h') -> silent h h' /\ memory h' = memory h /\ http h' = http h.
Proof.
  unfold copy_headers, malloc. case_decide; [|by intros [= <- <- <-]].
  destruct (k_malloc (headers_len a + 1) (heap h)) as [q k]. intros [= <- <- <-]. split; [by apply silent_heap|done].
Qed.

(** A request is refused, which never reads as a success, or it is performed. *)
Lemma request_shape a h ret h' :
  host_web_http_request a h = (ret, h') ->
  silent h h'
  /\ ((http h' = http h /\ ret <> WEB_HTTP_OK)
      \/ (bad_addresses a (memory h) = false /\ overlapping a = false
          /\ exists h1 h2 text ht resp, memory h1 = memory h /\ http h1 = http h
             /\ perform_request a text ht resp h1 = (ret, h2) /\ memory h' = memory h2 /\ http h' = http h2)).
Proof.
  unfold host_web_http_request. destruct (bad_sizes a); [intros [= <- <-]; auto using silent_refl|].
  destruct (bad_addresses a (memory h)) eqn:Hb; [intros [= <- <-]; auto using silent_refl|].
  destruct (overlapping a) eqn:Ho; [intros [= <- <-]; auto using silent_refl|]. cbv zeta.
  set (text := load (url a) _ _). case_decide; [intros [= <- <-]; auto using silent_refl|].
  destruct (negb _); [intros [= <- <-]; auto using silent_refl|].
  case_decide; [intros [= <- <-]; auto using silent_refl|]. unfold malloc. destruct (k_malloc (url_len a + 1) (heap h)) as [[p|] k].
  2: { intros [= <- <-]. split; [by apply silent_heap|by left]. }
  set (h1 := set_heap k _ h). assert (silent h h1) as S1 by by apply silent_heap. unfold request_copied. set (resp := response_of_bytes _).
  destruct (copy_headers a h1) as [[hp ok] h2] eqn:Eh. destruct (silent_copy _ _ _ _ _ Eh) as (S2 & Hm & Hh).
  assert (forall p hh, memory (free p hh) = memory hh) as Hfree by by intros [].
  assert (forall p hh, http (free p hh) = http hh) as Hfree2 by by intros [].
  destruct ok; cbn [negb].
  2: { intros [= <- <-]. split; [|left; split; [exact Hh|done]]. eapply silent_trans; [exact S1|]. eapply silent_trans; [exact S2|exact (silent_free (Some p) h2)]. }
  set (ht := _ <$> hp). pose proof (silent_perform a text ht resp h2) as S3. destruct (perform_request a text ht resp h2) as [r h3] eqn:E.
  intros Hr. pose proof (f_equal fst Hr) as Hr1. apply (f_equal snd) in Hr. cbn [fst snd] in Hr, Hr1, S3. subst r h'. split.
  - eapply silent_trans; [exact S1|]. eapply silent_trans; [exact S2|]. eapply silent_trans; [exact S3|].
    apply (silent_trans _ (free hp h3)); [apply silent_free|exact (silent_free (Some p) _)].
  - right. split; [done|]. split; [done|]. exists h2, h3, text, ht, resp. rewrite !Hfree, !Hfree2. split; [by rewrite Hm|]. split; [by rewrite Hh|done].
Qed.

(** The client's answer to a request; a body that was not given reads as empty. *)
Lemma answer_fits m u ht rb rlen body cap resp t w ret result w' :
  HttpClient.webos_http_request m u ht rb rlen body cap resp t w = ((ret, result), w') ->
  cap <= length (default [] body) ->
  exists l, HttpClient.calls w' = HttpClient.calls w ++ l /\ asked ret l
    /\ (ret = WEB_HTTP_OK ->
        exists c, result = Some c
          /\ HttpClient.body_len (HttpClient.response c) = Z.of_nat (cap `min` length (HttpClientSpec.total (received l)))
          /\ take (Z.to_nat (HttpClient.body_len (HttpClient.response c))) (HttpClient.body c) = take cap (HttpClientSpec.total (received l))).
Proof.
  intros E Hcap. destruct (http_request_inv _ _ _ _ _ _ _ _ _ _ _ _ _ E)
    as [(Hc & Hr & _)|(u' & parsed & m' & rs & c' & w1 & _ & _ & _ & E' & -> & ->)].
  { exists []. rewrite app_nil_r. split; [done|]. split; [by left|done]. }
  destruct (locked_request_spec _ _ _ _ _ _ _ _ _ _ E') as (_ & l & Hc & (Ha & -> & _) & _). exists l.
  split; [done|]. split; [done|]. intros _. eexists. split; [done|].
  set (c0 := HttpClient.ResponseContext _ _ _). destruct (collected_all c0 (received l) Hcap eq_refl eq_refl) as [H1 H2 H3 H4 H5 H6].
  split; [done|]. rewrite H3, Nat2Z.id. exact H4.
Qed.

(** What an application finds after a request: at most one was made, and when it
    succeeded the structure and the array hold what the library received for it. *)
Lemma answer_in_memory a h ret h' :
  host_web_http_request a h = (ret, h') -> (0 < response_capacity a < 2 ^ 32)%Z ->
  exists l, HttpClient.calls (http h') = HttpClient.calls (http h) ++ l /\ asked ret l
    /\ (ret = WEB_HTTP_OK ->
        exists r, response_of_bytes (load (response a) 20 (memory h')) = r
          /\ HttpClient.body_len r = Z.of_nat (Z.to_nat (response_capacity a) `min` length (HttpClientSpec.total (received l)))
          /\ load (response_body a) (Z.to_nat (HttpClient.body_len r)) (memory h')
             = take (Z.to_nat (response_capacity a)) (HttpClientSpec.total (received l))).
Proof.
  intros E Hcap. destruct (request_shape a h ret h' E) as [[_ _ Hval] [[Hh Hr]|(Hb & Ho & h1 & h2 & text & ht & resp & Hm1 & Hh1 & Hp & Hm2 & Hh2)]].
  { exists []. rewrite Hh, app_nil_r. split; [done|]. split; [by left|done]. }
  destruct (request_checks a (memory h) ltac:(lia) Hb Ho) as [_ Hbody]. destruct (Hbody ltac:(lia)) as (Hv & Hnull & _).
  rewrite <- Hm1 in Hb. destruct (perform_stores a text ht resp h1 _ h2 ltac:(lia) Hb Ho Hp) as (result & c & Ec & Hc & Hs & Hl & _).
  rewrite (decide_False (P := response_body a = 0%Z)) in Ec by done. set (cap := Z.to_nat (response_capacity a)) in *.
  assert (Z.of_nat cap = response_capacity a) as Hcap' by (unfold cap; lia).
  destruct (answer_fits _ _ _ _ _ _ _ _ _ _ _ _ _ Ec) as (l & Hcalls & Ha & Hok).
  { cbn. rewrite length_load; [done|]. by rewrite Hcap', Hm1. }
  exists l. rewrite Hh2, Hc, <- Hh1. split; [done|]. split; [done|]. intros Hr. destruct (Hok Hr) as (cc & -> & Hbl & Hbody').
  exists (response_of_bytes (bytes_of_response (HttpClient.response cc))).
  rewrite Hm2, Hs. split; [done|]. rewrite response_decoded. cbn [HttpClient.body_len]. rewrite u32_small by lia. split; [done|].
  rewrite (load_part _ _ cap), Hl by (lia || by rewrite Hcap', <- Hm2, Hval). done.
Qed.
End contract.
End HostHttp.
