(* ===== verification/SudokuSpec.v ===== *)
(** * What the sudoku application does

    The texts it builds fit into their arrays, and what it prints is what the server
    sent, in answer to the one request it makes: through the HTTP client, the host and
    the memory of the application.  Where it
    ends the received body it stays within its array, because the host reports at most
    the capacity it was given. *)

From S2P Require Import Prelude CLib AppContext HttpClient HttpClientSpec AppFs WasmMemory WasmHost WasmHostSpec DeviceHost SampleApps AppLogic HostHttp.
From Stdlib Require Import ZArith Lia.
From Stdlib Require Import Strings.Byte.
From stdpp Require Import base numbers list list_numbers strings.

Module SudokuSpec.
Import WasmHost DeviceHost SampleApps AppLogic HostHttp.

(** ** Texts *)

Lemma number_digits_dec space v : (0 <= v)%Z -> reverse (number_digits space v) = dec_digits space v.
Proof.
  revert v. induction space as [|space IH]; intros v Hv; [done|]. cbn [number_digits dec_digits]. rewrite reverse_cons. f_equal.
  destruct (decide (v < 10)%Z) as [Hlt|Hlt].
  - rewrite decide_False; [done|]. rewrite Z.div_small; lia.
  - rewrite decide_True by (apply Z.div_str_pos; lia). apply IH. apply Z.div_pos; lia.
Qed.

Lemma append_text_fits capacity output text :
  (Z.of_nat (length output) + Z.of_nat (length text) <= capacity < 2 ^ 32)%Z -> append_text capacity output text = (0%Z, output ++ text).
Proof. intros H. unfold append_text. rewrite u32_small by lia. by rewrite decide_False by lia. Qed.

Lemma append_text_within capacity output text :
  (Z.of_nat (length output) <= capacity < 2 ^ 32)%Z -> (Z.of_nat (length (append_text capacity output text).2) <= capacity)%Z.
Proof. intros H. unfold append_text. rewrite u32_small by lia. case_decide; cbn; [lia|]. rewrite length_app. lia. Qed.

Lemma append_number_fits capacity output v :
  (0 <= v)%Z -> (Z.of_nat (length output) + 10 <= capacity)%Z -> append_number capacity output v = output ++ dec_text v.
Proof.
  intros Hv Hc. unfold append_number. rewrite number_digits_dec by done. fold (dec_text v). pose proof (length_dec_text v).
  rewrite take_ge by lia. done.
Qed.

(** The headers never pass the end of their array. *)
Lemma build_headers_within key : length (build_headers key).2 <= 256.
Proof.
  assert (forall output text, (Z.of_nat (length output) <= 256)%Z -> (Z.of_nat (length (append_text 256 output text).2) <= 256)%Z) as H
    by (intros output text Ho; apply append_text_within; lia).
  unfold build_headers. pose proof (H [] (cs "X-Api-Key: ") ltac:(cbn; lia)) as H1.
  destruct (append_text 256 [] _) as [r1 o1]. cbn [snd] in H1. case_decide; [cbn; lia|].
  pose proof (H o1 key H1) as H2. destruct (append_text 256 o1 key) as [r2 o2]. cbn [snd] in H2. case_decide; [cbn; lia|].
  pose proof (H o2 (crlf ++ cs "Accept: application/json" ++ crlf) H2) as Hl3. destruct (append_text 256 o2 _) as [r3 o3]. cbn in *. lia.
Qed.

Lemma status_message_eq code : (0 <= code)%Z -> status_message code = cs "sudoku: HTTP " ++ dec_text code.
Proof.
  intros Hc. unfold status_message. rewrite append_text_fits by (cbn; lia). cbn [snd]. apply append_number_fits; [done|cbn; lia].
Qed.

Definition error_text (ret : Z) : cstr :=
  cs "sudoku: request error " ++ (if decide (ret < 0)%Z then cs "-" ++ dec_text (u32 (- ret)) else dec_text (u32 ret)).

Lemma error_message_eq ret : error_message ret = error_text ret.
Proof.
  unfold error_message, error_text. rewrite (append_text_fits 63 [] (cs "sudoku: request error ")) by (cbn; lia). cbn [snd app].
  pose proof (u32_range (- ret)). pose proof (u32_range ret). case_decide.
  - rewrite append_text_fits by (cbn; lia). cbn [snd]. rewrite append_number_fits by (lia || cbn; lia). by rewrite <- app_assoc.
  - apply append_number_fits; [lia|cbn; lia].
Qed.

Lemma dec_no_nul v : (0 <= v)%Z -> NUL ∉ dec_text v.
Proof.
  intros Hv Hn. destruct (dec_digits_are_digits 10 v Hv NUL Hn) as (e & He & Hlt).
  destruct (digit_plain NUL e He Hlt) as (_ & _ & _ & Hr). vm_compute in Hr. by destruct Hr.
Qed.

(** A message fits into [status_message[64]] and is a string. *)
Lemma message_ok text :
  (exists code, (0 <= code)%Z /\ text = status_message code) \/ (exists ret, text = error_message ret) ->
  length text <= 63 /\ NUL ∉ text.
Proof.
  assert (forall s : cstr, bool_decide (NUL ∉ s) = true -> NUL ∉ s) as Hs by (intros s; apply bool_decide_eq_true).
  intros [(code & Hc & ->)|(ret & ->)].
  - rewrite status_message_eq by done. rewrite length_app, not_elem_of_app. pose proof (length_dec_text code). change (length (cs "sudoku: HTTP ")) with 13.
    split; [lia|]. split; [by apply Hs|by apply dec_no_nul].
  - rewrite error_message_eq. unfold error_text. rewrite length_app, not_elem_of_app. change (length (cs "sudoku: request error ")) with 22.
    pose proof (u32_range (- ret)). pose proof (u32_range ret). pose proof (length_dec_text (u32 (- ret))). pose proof (length_dec_text (u32 ret)).
    case_decide; rewrite ?length_app; change (length (cs "-")) with 1; (split; [lia|]); (split; [by apply Hs|]);
      rewrite ?not_elem_of_app; [split; [by apply Hs|]|]; apply dec_no_nul; lia.
Qed.

Lemma c_string_prefix b : take (length (c_string b)) b = c_string b.
Proof. induction b as [|x b IH]; [done|]. rewrite c_string_cons. case_decide; [done|]. cbn. by rewrite IH. Qed.

(** ** The run *)

Section run.
Context {M : AppMemory} {ML : AppMemoryLaws M} {F : AppFs} {FH : AppFsHandles F} {FR : AppFsReads F}.
Context {K : KernelHeap} {L : HttpLimits} {P : UrlParser} {N : NetStack}.
Context (lit : cstr -> Z) (clock : nat -> Z) (c : App.webos_app_context) (Hio : (2048 <= App.max_io_bytes c)%Z).
Context (url_at headers_at body_at response_at status_at : Z).

(** A host that runs the application, with its HTTP client. *)
Definition runs (h : host) (g : HttpClient.client) : Prop := context h = Some c /\ http h = g.

Instance runs_describes : Describes runs.
Proof. intros h g m t Hr. exact Hr. Qed.

Notation triple := (triple runs).

Lemma triple_print_text a t m g :
  array a (Z.of_nat (length t)) m -> load a (length t) m = t -> NUL ∉ t -> length t <= 2048 ->
  triple (call clock (LogPrint (Some (a, t)))) m g 0%Z m g [t].
Proof. intros Ha Hl Hn Ht. apply (triple_log clock runs c); [by intros h k []|by intros h k ? []|done..|lia]. Qed.

(** A message is built in its array and printed. *)
Lemma triple_message text m g :
  length text <= 63 -> NUL ∉ text -> array status_at 64 m ->
  triple (log_at clock status_at text) (store status_at (text ++ [NUL]) m) g 0%Z (store status_at (text ++ [NUL]) m) g [text].
Proof.
  intros Hl Hn Ha. assert (length (text ++ [NUL]) = S (length text)) as Hlen by (rewrite length_app; cbn; lia).
  assert (validate_native_addr status_at (Z.of_nat (length (text ++ [NUL]))) m = true) as Hv by (apply (array_valid _ 64); [done|lia]).
  apply triple_print_text; [|rewrite (load_part _ _ (length (text ++ [NUL])))|done|lia].
  - intros k j Hk Hj Hkj. rewrite valid_after_store. apply Ha; lia.
  - rewrite load_store by done. by rewrite take_app_length.
  - lia.
  - by rewrite valid_after_store.
Qed.

(** The answer to a request that failed. *)
Lemma triple_failed ret m g :
  ret <> WEB_HTTP_OK -> array status_at 64 m ->
  triple (sudoku_answer clock body_at response_at status_at ret) m g 1%Z (store status_at (error_message ret ++ [NUL]) m) g [error_message ret].
Proof.
  intros Hr Ha. unfold sudoku_answer. rewrite decide_True by done. destruct (message_ok (error_message ret)) as [Hl Hn]; [right; by exists ret|].
  change [error_message ret] with ([] ++ [error_message ret] ++ []).
  eapply triple_bind; [apply triple_put|]. eapply triple_bind; [by apply triple_message|apply triple_ret].
Qed.

(** The answer to a request that succeeded: the status, and the body up to its first
    NUL, which is put at its end within the array. *)
Lemma triple_answered m r body g :
  array status_at 64 m -> array body_at 2048 m -> disjoint_ranges body_at 2048 status_at 64 ->
  response_of_bytes (load response_at 20 m) = r -> (0 <= HttpClient.status_code r)%Z -> (0 <= HttpClient.body_len r <= 2047)%Z ->
  load body_at (Z.to_nat (HttpClient.body_len r)) m = body ->
  exists m' ret, triple (sudoku_answer clock body_at response_at status_at WEB_HTTP_OK) m g ret m' g
    [cs "sudoku: HTTP " ++ dec_text (HttpClient.status_code r); c_string body].
Proof.
  intros Has Hab Hd Hr Hst Hbl Hbody. eexists _, _. unfold sudoku_answer. rewrite decide_False by (intros Hx; by apply Hx).
  rewrite <- (status_message_eq (HttpClient.status_code r)) by done.
  destruct (message_ok (status_message (HttpClient.status_code r))) as [Hl Hn]; [left; by eexists|].
  set (text := status_message _) in *. change [text; c_string body] with ([] ++ [] ++ [text] ++ [] ++ [] ++ [c_string body] ++ []).
  eapply triple_bind; [apply triple_get|]. change (Z.to_nat RESPONSE_SIZE) with 20. rewrite Hr. fold text.
  eapply triple_bind; [apply triple_put|]. eapply triple_bind; [by apply triple_message|].
  eapply triple_bind; [apply triple_put|]. eapply triple_bind; [apply triple_get|].
  assert (length (text ++ [NUL]) <= 64) as Hlen by (rewrite length_app; cbn; lia).
  set (m2 := store _ [NUL] _).
  assert (load body_at (Z.to_nat (HttpClient.body_len r)) m2 = body) as ->.
  { unfold m2. rewrite load_disjoint by (left; lia). rewrite load_disjoint by (unfold disjoint_ranges in *; lia). done. }
  assert (array body_at 2048 m2) as Ha2 by (unfold m2; by rewrite !array_store).
  assert (length body = Z.to_nat (HttpClient.body_len r)) as Hlb.
  { rewrite <- Hbody. apply length_load. apply (array_valid _ 2048); [done|lia]. }
  pose proof (length_c_string body) as Hlc.
  eapply triple_bind; [|apply triple_ret]. apply triple_print_text; [|rewrite (load_part _ _ (length body))|apply c_string_no_nul|lia].
  - intros k j Hk Hj Hkj. apply Ha2; lia.
  - rewrite Hlb. unfold m2. rewrite load_disjoint by (left; lia). rewrite load_disjoint by (unfold disjoint_ranges in *; lia).
    rewrite Hbody. apply c_string_prefix.
  - done.
  - apply (array_valid _ 2048); [done|lia].
Qed.

(** ** The whole program *)

(** What is printed first; and the request. *)
Definition requesting : cstr := cs "sudoku: requesting puzzle".

Definition argument_url (argv : list cstr) : cstr := default DEFAULT_URL (argv !! 2).
Definition argument_url_addr (argv : list cstr) : Z := match argv !! 2 with Some _ => url_at | None => lit DEFAULT_URL end.
Definition the_request (argv : list cstr) (key : cstr) : http_args :=
  sudoku_request headers_at body_at response_at (argument_url argv) (argument_url_addr argv) (Z.of_nat (length (build_headers key).2)).

(** Up to the request: the host has the heap and the client it started with. *)
Definition before (h : host) (g : kheap * HttpClient.client) : Prop := context h = Some c /\ heap h = g.1 /\ http h = g.2.

Instance before_describes : Describes before.
Proof. intros h g m t Hr. exact Hr. Qed.

Definition memory_at_request (key : cstr) (m : mem) : mem :=
  store response_at (bytes_of_response (HttpClient.WebResponse RESPONSE_SIZE 0 0 0 0)) (store headers_at (build_headers key).2 m).

Definition sudoku_prefix (key : cstr) : App unit :=
  put headers_at (build_headers key).2 ;; log_text lit clock requesting ;;
  put response_at (bytes_of_response (HttpClient.WebResponse RESPONSE_SIZE 0 0 0 0)).

Definition sudoku_rest (argv : list cstr) (key : cstr) : App Z :=
  ret ← call clock (WebHttpRequest (the_request argv key)); sudoku_answer clock body_at response_at status_at ret.

Lemma sudoku_parts argv key :
  argv !! 1 = Some key -> (build_headers key).1 = true ->
  sudoku lit clock url_at headers_at body_at response_at status_at argv = (sudoku_prefix key ;; sudoku_rest argv key).
Proof.
  intros Hk Hh. unfold sudoku, sudoku_prefix, sudoku_rest, the_request, argument_url, argument_url_addr. rewrite Hk.
  destruct (build_headers key) as [ok text]. cbn in Hh |- *. subst ok. by destruct (argv !! 2).
Qed.

Lemma triple_prefix key m g :
  literals lit c [requesting] m -> apart lit [requesting] headers_at 256 ->
  AppLogic.triple before (sudoku_prefix key) m g tt (memory_at_request key m) g [requesting].
Proof.
  intros Hl Ha. change [requesting] with ([] ++ [requesting] ++ []). eapply triple_bind; [apply triple_put|].
  pose proof (build_headers_within key) as Hw. assert (literals lit c [requesting] (store headers_at (build_headers key).2 m)) as Hl'
    by (apply (literals_store lit c [requesting] headers_at 256); [done|lia|done]).
  apply Forall_inv in Hl'. destruct Hl' as (H1 & H2 & H3 & H4). eapply triple_bind; [|apply triple_put].
  apply (triple_log clock before c); [by intros h [? ?] []|by intros h [? ?] ? []|done..].
Qed.

(** What is printed after a request that returned [ret] and left the memory [m]. *)
Definition answer_log (ret : Z) (m : mem) : list cstr :=
  if decide (ret = WEB_HTTP_OK) then
    let r := response_of_bytes (load response_at 20 m) in
    [cs "sudoku: HTTP " ++ dec_text (HttpClient.status_code r); c_string (load body_at (Z.to_nat (HttpClient.body_len r)) m)]
  else [error_text ret].

Lemma triple_answer ret m g :
  array status_at 64 m -> array body_at 2048 m -> disjoint_ranges body_at 2048 status_at 64 ->
  (ret = WEB_HTTP_OK -> (0 <= HttpClient.body_len (response_of_bytes (load response_at 20 m)) <= 2047)%Z) ->
  exists m' code, triple (sudoku_answer clock body_at response_at status_at ret) m g code m' g (answer_log ret m).
Proof.
  intros Has Hab Hd Hbl. unfold answer_log. destruct (decide (ret = WEB_HTTP_OK)) as [->|Hret].
  - apply triple_answered; auto. apply get_le32_range.
  - eexists _, _. rewrite <- error_message_eq. by apply triple_failed.
Qed.

(** The host when the request is made. *)
Definition host_at_request (key : cstr) (m : mem) (h h0 : host) : Prop :=
  memory h0 = memory_at_request key m /\ context h0 = Some c /\ heap h0 = heap h /\ http h0 = http h
  /\ messages (events h0) = messages (events h) ++ [requesting].

Lemma run_request argv key m h :
  literals lit c [requesting] m -> apart lit [requesting] headers_at 256 -> context h = Some c ->
  argv !! 1 = Some key -> (build_headers key).1 = true ->
  exists h0 n, host_at_request key m h h0 /\
    forall ret h1, host_web_http_request (the_request argv key) h0 = (ret, h1) ->
      run (application (sudoku lit clock url_at headers_at body_at response_at status_at argv) m) h
      = run (sudoku_answer clock body_at response_at status_at ret (fun _ _ _ => Finish true) n (memory h1)) h1.
Proof.
  intros Hl Ha Hc Hkey Hh. unfold application. rewrite (sudoku_parts argv key) by done.
  destruct (triple_prefix key m (heap h, http h) Hl Ha 0 h) as (n & h0 & E & (Kc & Kh & Kw) & Hm); [done|].
  set (h1 := Host (memory_at_request key m) (context h0) (host_fs h0) (heap h0) (http h0) (clock n) (events h0)).
  exists h1, (S n). split; [by split_and!|]. intros ret h2 E2.
  change ((sudoku_prefix key ;; sudoku_rest argv key) (fun _ _ _ => Finish true) 0 m)
    with (sudoku_prefix key (fun _ => sudoku_rest argv key (fun _ _ _ => Finish true)) 0 m).
  rewrite E. unfold sudoku_rest. change (run (Calls (memory_at_request key m) (clock n) (WebHttpRequest (the_request argv key))
    (fun r m' => sudoku_answer clock body_at response_at status_at r (fun _ _ _ => Finish true) (S n) m')) h0
    = run (sudoku_answer clock body_at response_at status_at ret (fun _ _ _ => Finish true) (S n) (memory h2)) h2).
  cbn [run native_symbols]. fold h1. by rewrite E2.
Qed.

(** C19: sudoku run with a key that has room in its headers makes at most one
    request, with the headers built from it and the URL of its arguments or its own, on
    the heap and the network it was started on, and none after its answer; the request
    succeeds exactly if one was made and the HTTP library says so.  When it succeeds it
    prints the status and what the server sent, up to a NUL, of which the host has stored
    the first 2047 bytes the library received for this request: the byte that ends it is
    in the array, and it ends [body_len] bytes of the stream; when it fails it prints the
    error.  It then ends. *)
Theorem sudoku_prints_answer argv key m h :
  literals lit c [requesting] m -> apart lit [requesting] headers_at 256 -> context h = Some c ->
  argv !! 1 = Some key -> (build_headers key).1 = true ->
  array status_at 64 m -> array body_at 2048 m -> disjoint_ranges body_at 2048 status_at 64 ->
  exists h0 ret h1 h' l, host_at_request key m h h0
    /\ host_web_http_request (the_request argv key) h0 = (ret, h1)
    /\ run (application (sudoku lit clock url_at headers_at body_at response_at status_at argv) m) h = (true, h')
    /\ HttpClient.calls (http h') = HttpClient.calls (http h) ++ l /\ asked ret l /\ http h' = http h1
    /\ messages (events h') = messages (events h) ++ [requesting] ++ answer_log ret (memory h1)
    /\ (ret = WEB_HTTP_OK -> exists r, response_of_bytes (load response_at 20 (memory h1)) = r
          /\ HttpClient.body_len r = Z.of_nat (2047 `min` length (HttpClientSpec.total (received l)))
          /\ load body_at (Z.to_nat (HttpClient.body_len r)) (memory h1) = take 2047 (HttpClientSpec.total (received l))).
Proof.
  intros Hl Ha Hc Hkey Hh Has Hab Hd. destruct (run_request argv key m h Hl Ha Hc Hkey Hh) as (h0 & n & H0 & Hrun).
  pose proof H0 as (Km & Kc & _ & Kh & Kl). destruct (host_web_http_request (the_request argv key) h0) as [ret h1] eqn:E.
  destruct (request_shape _ _ _ _ E) as [[Sc Sm Sv] _]. assert (forall a k, array a k m -> array a k (memory h1)) as Harr.
  { intros a k Hm i j H1 H2 H3. rewrite Sv, Km. unfold memory_at_request. rewrite !valid_after_store. by apply Hm. }
  destruct (answer_in_memory _ _ _ _ E ltac:(cbn; lia)) as (l & Hcalls & Hasked & Hok).
  change (Z.to_nat (response_capacity (the_request argv key))) with 2047 in Hok. cbn [the_request sudoku_request response response_body] in Hok.
  destruct (triple_answer ret (memory h1) (http h1) (Harr _ _ Has) (Harr _ _ Hab) Hd) as (m' & code & Ht).
  { intros Hr. destruct (Hok Hr) as (r & -> & -> & _). lia. }
  destruct (Ht n h1) as (n' & h' & E' & [_ Hh'] & He); [unfold runs; by rewrite Sc|]. exists h0, ret, h1, h', l.
  split_and!; [done|done| | |done|done| |done].
  - rewrite (Hrun ret h1) by done. by rewrite E'.
  - by rewrite Hh', Hcalls, Kh.
  - by rewrite He, Sm, Kl, <- app_assoc.
Qed.
End run.
End SudokuSpec.
