(* ===== verification/WasmHeap.v ===== *)
(** * The allocator of the WebAssembly runtime

    Model of iwasm_malloc, iwasm_free and iwasm_realloc of
    src/app/src/services/iwasm/iwasm.c: blocks of Zephyr's shared multi-heap with
    a header in front of them that holds the address of the block and the size
    asked for.  The shared heap is the class [SharedHeap]; [SharedHeapLaws] states
    what it promises.  The theorem is that the allocator refines a map from
    addresses to contents. *)

From S2P Require Import Prelude CLib WasmMemory.
From Stdlib Require Import ZArith Lia.
From Stdlib Require Import Strings.Byte.
From stdpp Require Import base numbers list list_numbers strings gmap.

(** [shared_multi_heap_aligned_alloc(SMH_REG_ATTR_EXTERNAL, 8, size)], 0 for
    NULL, [shared_multi_heap_free], and the memory itself. *)
Class SharedHeap := {
  smem : Type;
  smh_alloc : Z -> smem -> Z * smem;
  smh_free : Z -> smem -> smem;
  sload : Z -> nat -> smem -> list byte;
  sstore : Z -> list byte -> smem -> smem;
}.

(** A range of [n] bytes at [a] in the block at [b] of size [k]. *)
Definition within (a : Z) (n : nat) (b k : Z) : Prop := (b <= a /\ a + Z.of_nat n <= b + k)%Z.

(** [live] has the blocks that are allocated, with their sizes. *)
Class SharedHeapLaws (H : SharedHeap) := {
  live : smem -> gmap Z Z;
  live_range s a n : live s !! a = Some n -> (0 < a /\ 0 <= n /\ a + n < 2 ^ 32)%Z;
  live_disjoint s a n b k : live s !! a = Some n -> live s !! b = Some k -> a <> b -> disjoint_ranges a n b k;
  alloc_failed n s : (smh_alloc n s).1 = 0%Z -> live (smh_alloc n s).2 = live s;
  alloc_fresh n s : (0 <= n)%Z -> (smh_alloc n s).1 <> 0%Z ->
    live s !! (smh_alloc n s).1 = None /\ live (smh_alloc n s).2 = <[(smh_alloc n s).1 := n]> (live s);
  alloc_keeps n s a m b k : live s !! b = Some k -> within a m b k -> sload a m (smh_alloc n s).2 = sload a m s;
  free_live a s : live (smh_free a s) = delete a (live s);
  free_keeps x s a m b k : live s !! b = Some k -> b <> x -> within a m b k -> sload a m (smh_free x s) = sload a m s;
  length_sload s a m b k : live s !! b = Some k -> within a m b k -> length (sload a m s) = m;
  sload_app s a m m' : sload a (m + m') s = sload a m s ++ sload (a + Z.of_nat m)%Z m' s;
  store_live a d s : live (sstore a d s) = live s;
  store_load s a d b k : live s !! b = Some k -> within a (length d) b k -> sload a (length d) (sstore a d s) = d;
  store_other s a d x m : disjoint_ranges x (Z.of_nat m) a (Z.of_nat (length d)) -> sload x m (sstore a d s) = sload x m s;
}.

Module WasmHeap.
Section heap.
Context {H : SharedHeap}.

(** [struct mem_header]: two words. *)
Definition HEADER : Z := 8.

(** The header of the block of a user address. *)
Definition header_raw (user : Z) (s : smem) : Z := get_le32 (sload (user - HEADER) 4 s).
Definition header_size (user : Z) (s : smem) : Z := get_le32 (sload (user - HEADER + 4) 4 s).

(** [size] is an [unsigned int] and [size_t] has 32 bits. *)
Definition iwasm_malloc (size : Z) (s : smem) : Z * smem :=
  let total := u32 (HEADER + size) in
  let '(raw, s) := smh_alloc total s in
  if decide (raw = 0%Z) then (0%Z, s)
  else
    let user := (raw + HEADER)%Z in
    (user, sstore (user - HEADER) (put_le32 raw ++ put_le32 size) s).

Definition iwasm_free (ptr : Z) (s : smem) : smem :=
  if decide (ptr = 0%Z) then s else smh_free (header_raw ptr s) s.

Definition iwasm_realloc (ptr size : Z) (s : smem) : Z * smem :=
  if decide (ptr = 0%Z) then iwasm_malloc size s
  else if decide (size = 0%Z) then (0%Z, iwasm_free ptr s)
  else
    let old_size := header_size ptr s in
    let '(new_ptr, s) := iwasm_malloc size s in
    if decide (new_ptr <> 0%Z) then
      let n := if decide (old_size < size)%Z then old_size else size in
      (new_ptr, iwasm_free ptr (sstore new_ptr (sload ptr (Z.to_nat n) s) s))
    else (new_ptr, s).

(** ** The map it refines *)

Context {L : SharedHeapLaws H}.

(** The block of a user address with its contents. *)
Definition holds_block (s : smem) (user : Z) (c : list byte) : Prop :=
  live s !! (user - HEADER)%Z = Some (HEADER + Z.of_nat (length c))%Z
  /\ sload (user - HEADER) 8 s = put_le32 (user - HEADER) ++ put_le32 (Z.of_nat (length c))
  /\ sload user (length c) s = c.

Definition represents (s : smem) (m : gmap Z (list byte)) : Prop := map_Forall (holds_block s) m.

Lemma block_range s u c : holds_block s u c -> (HEADER < u /\ u + Z.of_nat (length c) < 2 ^ 32)%Z.
Proof. intros (Hl & _). apply live_range in Hl. unfold HEADER in *. lia. Qed.

(** The header of a block gives its address and its size. *)
Lemma block_header s u c : holds_block s u c -> header_raw u s = (u - HEADER)%Z /\ header_size u s = Z.of_nat (length c).
Proof.
  intros Hb. pose proof (block_range _ _ _ Hb) as Hr. destruct Hb as (Hl & Hh & _). unfold header_raw, header_size.
  change 8 with (4 + 4) in Hh. rewrite sload_app in Hh. change (Z.of_nat 4) with 4%Z in Hh.
  apply app_inj_1 in Hh as [H1 H2].
  - rewrite H1, H2. rewrite <- (app_nil_r (put_le32 (u - HEADER))), <- (app_nil_r (put_le32 (Z.of_nat (length c)))).
    rewrite !get_put_le32, !u32_small by (unfold HEADER in *; lia). done.
  - rewrite length_put_le32. eapply length_sload; [exact Hl|]. unfold within, HEADER in *. lia.
Qed.

(** What the loads of a block see, when the memory outside it changes. *)
Lemma holds_block_same s s' u c :
  live s' !! (u - HEADER)%Z = live s !! (u - HEADER)%Z ->
  (forall a n, within a n (u - HEADER) (HEADER + Z.of_nat (length c)) -> sload a n s' = sload a n s) ->
  holds_block s u c -> holds_block s' u c.
Proof.
  intros Hl Hs (H1 & H2 & H3). split; [by rewrite Hl|]. rewrite !Hs; [done| |]; unfold within, HEADER; lia.
Qed.

(** Different users have disjoint blocks. *)
Lemma blocks_disjoint s u c v d :
  holds_block s u c -> holds_block s v d -> u <> v ->
  disjoint_ranges (u - HEADER) (HEADER + Z.of_nat (length c)) (v - HEADER) (HEADER + Z.of_nat (length d)).
Proof. intros (Hu & _) (Hv & _) Hne. apply (live_disjoint s); [done|done|lia]. Qed.

(** A map whose blocks are all unchanged, except for one. *)
Lemma represents_insert s s' m v c :
  represents s m -> holds_block s' v c -> (forall u e, m !! u = Some e -> u <> v -> holds_block s' u e) ->
  represents s' (<[v := c]> m).
Proof. intros Hm Hv Ho u e [[<- <-]|[Hne Hu]]%lookup_insert_Some; [done|]. by apply Ho. Qed.

(** Storing into a block. *)
Lemma store_represents s m v c d :
  represents s m -> m !! v = Some c -> length d <= length c ->
  represents (sstore v d s) (<[v := d ++ drop (length d) c]> m).
Proof.
  intros Hm Hv Hd. pose proof (Hm v c Hv) as Hb. apply (represents_insert s); [done| |].
  - destruct Hb as (Hl & Hh & Hc). assert (length (d ++ drop (length d) c) = length c) as Hlen by (rewrite length_app, length_drop; lia).
    split; [by rewrite store_live, Hlen|]. rewrite Hlen. split.
    + rewrite store_other; [done|]. unfold disjoint_ranges, HEADER. lia.
    + replace (length c) with (length d + (length c - length d)) at 1 by lia. rewrite sload_app.
      rewrite (store_load s v d (v - HEADER) _ Hl) by (unfold within, HEADER; lia). f_equal.
      rewrite store_other by (unfold disjoint_ranges; lia). rewrite <- Hc at 2.
      replace (length c) with (length d + (length c - length d)) at 2 by lia. rewrite sload_app.
      rewrite drop_app_length'; [done|]. symmetry. eapply length_sload; [exact Hl|]. unfold within, HEADER. lia.
  - intros u e Hu Hne. pose proof (Hm u e Hu) as Hu'. pose proof (blocks_disjoint _ _ _ _ _ Hu' Hb Hne) as Hdis.
    apply (holds_block_same s); [by rewrite store_live| |done].
    intros a n Ha. apply store_other. unfold within, disjoint_ranges, HEADER in *. lia.
Qed.

Lemma malloc_represents size s m u s' :
  represents s m -> (0 <= size)%Z -> (HEADER + size < 2 ^ 32)%Z -> iwasm_malloc size s = (u, s') ->
  (u = 0%Z /\ represents s' m)
  \/ (u <> 0%Z /\ m !! u = None /\ exists c, length c = Z.to_nat size /\ represents s' (<[u := c]> m)).
Proof.
  intros Hm Hs Hw. unfold iwasm_malloc. rewrite u32_small by (unfold HEADER in *; lia).
  pose proof (alloc_failed (HEADER + size) s) as Hfail. pose proof (alloc_fresh (HEADER + size) s ltac:(unfold HEADER; lia)) as Hfresh.
  pose proof (fun a n b k => alloc_keeps (HEADER + size) s a n b k) as Hkeep.
  destruct (smh_alloc (HEADER + size) s) as [raw s1]. cbn [fst snd] in *.
  destruct (decide (raw = 0%Z)) as [Hz|Hnz]; intros Heq; pose proof (f_equal fst Heq) as Hu'; apply (f_equal snd) in Heq;
    cbn [fst snd] in Heq, Hu'; subst u s'.
  - left. split; [done|]. intros u e Hu. pose proof (Hm u e Hu) as Hb. apply (holds_block_same s); [by rewrite Hfail| |done].
    intros a n Ha. destruct Hb as (Hl & _). by apply (Hkeep _ _ _ _ Hl).
  - right. destruct (Hfresh Hnz) as [Hnone Hlive].
    assert (live s1 !! raw = Some (HEADER + size)%Z) as Hraw by (by rewrite Hlive, lookup_insert_eq).
    pose proof (live_range _ _ _ Hraw) as Hr. replace (raw + HEADER - HEADER)%Z with raw by lia.
    set (hd := put_le32 raw ++ put_le32 size). assert (length hd = 8) as Hhd by (subst hd; by rewrite length_app, !length_put_le32).
    assert (forall e, m !! (raw + HEADER)%Z = Some e -> False) as Hno.
    { intros e He. destruct (Hm _ _ He) as (Hl & _). replace (raw + HEADER - HEADER)%Z with raw in Hl by lia. congruence. }
    split; [unfold HEADER; lia|]. split; [by destruct (m !! (raw + HEADER)%Z) eqn:E; [exfalso; eapply Hno|]|].
    exists (sload (raw + HEADER) (Z.to_nat size) s1).
    assert (length (sload (raw + HEADER) (Z.to_nat size) s1) = Z.to_nat size) as Hlen.
    { eapply length_sload; [exact Hraw|]. unfold within, HEADER. lia. }
    split; [done|]. apply (represents_insert s); [done| |].
    + split; [|split]; rewrite ?Hlen; replace (raw + HEADER - HEADER)%Z with raw by lia.
      * rewrite store_live, Hraw. f_equal. lia.
      * assert (within raw (length hd) raw (HEADER + size)) as Hin by (unfold within, HEADER; lia).
        pose proof (store_load s1 raw hd raw _ Hraw Hin) as Hst. rewrite Hhd in Hst. rewrite Hst. subst hd. by rewrite Z2Nat.id.
      * apply store_other. unfold disjoint_ranges, HEADER. lia.
    + intros u e Hu Hne. pose proof (Hm u e Hu) as Hb. destruct Hb as (Hl & Hb'). assert (u - HEADER <> raw)%Z as Hner by lia.
      assert (live s1 !! (u - HEADER)%Z = Some (HEADER + Z.of_nat (length e))%Z) as Hl1 by (by rewrite Hlive, lookup_insert_ne by done).
      apply (holds_block_same s); [by rewrite store_live, Hl1| |by split].
      intros a n Ha. rewrite store_other; [by apply (Hkeep _ _ _ _ Hl)|].
      pose proof (live_disjoint s1 _ _ _ _ Hl1 Hraw Hner). unfold within, disjoint_ranges, HEADER in *. lia.
Qed.

Lemma free_represents s m u c : represents s m -> m !! u = Some c -> represents (iwasm_free u s) (delete u m).
Proof.
  intros Hm Hu. pose proof (Hm u c Hu) as Hb. pose proof (block_range _ _ _ Hb) as Hr. destruct (block_header _ _ _ Hb) as [Hraw _].
  unfold iwasm_free. rewrite decide_False by (unfold HEADER in *; lia). rewrite Hraw.
  intros v e [Hne Hv]%lookup_delete_Some. pose proof (Hm v e Hv) as Hbv. pose proof Hbv as (Hl & _).
  apply (holds_block_same s); [rewrite free_live, lookup_delete_ne; [done|lia]| |done].
  intros a n Ha. apply (free_keeps _ _ _ _ _ _ Hl); [lia|done].
Qed.

Lemma realloc_represents u size s m c v s' :
  represents s m -> m !! u = Some c -> (0 < size)%Z -> (HEADER + size < 2 ^ 32)%Z -> iwasm_realloc u size s = (v, s') ->
  (v = 0%Z /\ represents s' m)
  \/ (v <> 0%Z /\ m !! v = None /\ exists c', length c' = Z.to_nat size
      /\ take (length c `min` Z.to_nat size) c' = take (length c `min` Z.to_nat size) c
      /\ represents s' (<[v := c']> (delete u m))).
Proof.
  intros Hm Hu Hs Hw. pose proof (Hm u c Hu) as Hb. pose proof (block_range _ _ _ Hb) as Hr.
  destruct (block_header _ _ _ Hb) as [_ Hsize]. unfold iwasm_realloc.
  rewrite (decide_False (P := u = 0%Z)) by (unfold HEADER in *; lia). rewrite (decide_False (P := size = 0%Z)) by lia. rewrite Hsize.
  destruct (iwasm_malloc size s) as [w s1] eqn:E. destruct (malloc_represents size _ _ _ _ Hm ltac:(lia) Hw E) as [[-> Hm1]|(Hnz & Hnone & c1 & Hl1 & Hm1)].
  { rewrite decide_False by (intros Hx; by apply Hx). intros [= <- <-]. by left. }
  rewrite decide_True by done. intros [= <- <-]. right. split; [done|]. split; [done|].
  assert (w <> u) as Hne by (intros ->; congruence).
  assert (<[w := c1]> m !! u = Some c) as Hu1 by (by rewrite lookup_insert_ne).
  set (n := length c `min` Z.to_nat size).
  assert (Z.to_nat (if decide (Z.of_nat (length c) < size)%Z then Z.of_nat (length c) else size) = n) as -> by (subst n; case_decide; lia).
  destruct (Hm1 u c Hu1) as (Hlu & _ & Hcu).
  assert (sload u n s1 = take n c) as ->.
  { transitivity (take n (sload u (length c) s1)); [|by rewrite Hcu].
    replace (length c) with (n + (length c - n)) by (subst n; lia). rewrite sload_app, take_app_length'; [done|].
    symmetry. eapply length_sload; [exact Hlu|]. unfold within, HEADER. subst n. lia. }
  assert (length (take n c) = n) as Htl by (rewrite length_take; subst n; lia).
  pose proof (store_represents s1 (<[w := c1]> m) w c1 (take n c) Hm1 (lookup_insert_eq _ _ _) ltac:(lia)) as Hm2.
  rewrite insert_insert_eq, Htl in Hm2. exists (take n c ++ drop n c1).
  split; [rewrite length_app, length_drop; subst n; lia|]. split; [by apply take_app_length'|].
  rewrite <- delete_insert_ne by done. eapply free_represents; [exact Hm2|]. by rewrite lookup_insert_ne.
Qed.

(** ** The refinement *)

Inductive heap_op := Malloc (size : Z) | Free (ptr : Z) | Realloc (ptr size : Z).

Definition heap_run (o : heap_op) (s : smem) : Z * smem :=
  match o with
  | Malloc size => iwasm_malloc size s
  | Free ptr => (0%Z, iwasm_free ptr s)
  | Realloc ptr size => iwasm_realloc ptr size s
  end.

(** A pointer the runtime may pass: NULL or a block it holds; sizes are of type
    [unsigned int] and leave room for the header. *)
Definition op_ok (m : gmap Z (list byte)) (o : heap_op) : Prop :=
  match o with
  | Malloc size => (0 <= size /\ HEADER + size < 2 ^ 32)%Z
  | Free ptr => ptr = 0%Z \/ is_Some (m !! ptr)
  | Realloc ptr size => (ptr = 0%Z \/ is_Some (m !! ptr)) /\ (0 <= size /\ HEADER + size < 2 ^ 32)%Z
  end.

(** What the operations do to the map; [r] is the pointer returned. *)
Inductive heap_spec : heap_op -> gmap Z (list byte) -> Z -> gmap Z (list byte) -> Prop :=
| spec_malloc size m u c : u <> 0%Z -> m !! u = None -> length c = Z.to_nat size -> heap_spec (Malloc size) m u (<[u := c]> m)
| spec_malloc_failed size m : heap_spec (Malloc size) m 0 m
| spec_free_null m : heap_spec (Free 0) m 0 m
| spec_free u c m : m !! u = Some c -> heap_spec (Free u) m 0 (delete u m)
| spec_realloc_null size m r m' : heap_spec (Malloc size) m r m' -> heap_spec (Realloc 0 size) m r m'
| spec_realloc_zero u m m' : u <> 0%Z -> heap_spec (Free u) m 0 m' -> heap_spec (Realloc u 0) m 0 m'
| spec_realloc_failed u size m : (0 < size)%Z -> heap_spec (Realloc u size) m 0 m
| spec_realloc u size m c v c' : (0 < size)%Z -> m !! u = Some c -> v <> 0%Z -> m !! v = None -> length c' = Z.to_nat size ->
    take (length c `min` Z.to_nat size) c' = take (length c `min` Z.to_nat size) c ->
    heap_spec (Realloc u size) m v (<[v := c']> (delete u m)).

Lemma malloc_spec size s m : op_ok m (Malloc size) -> represents s m ->
  exists m', heap_spec (Malloc size) m (iwasm_malloc size s).1 m' /\ represents (iwasm_malloc size s).2 m'.
Proof.
  intros [Hs Hw] Hm. destruct (iwasm_malloc size s) as [u s'] eqn:E.
  destruct (malloc_represents _ _ _ _ _ Hm Hs Hw E) as [[-> Hm']|(Hnz & Hn & c & Hl & Hm')]; eexists; (split; [|exact Hm']); by constructor.
Qed.

Lemma free_spec u s m : op_ok m (Free u) -> represents s m ->
  exists m', heap_spec (Free u) m 0 m' /\ represents (iwasm_free u s) m'.
Proof.
  intros [->|[c Hu]] Hm; [exists m; by split; [constructor|]|]. exists (delete u m). split; [by econstructor|by eapply free_represents].
Qed.

(** C14: the allocator refines a map from addresses to contents: an allocation adds
    a block of the size asked for at a new address or fails and changes nothing;
    freeing removes exactly the block; reallocation moves a block and keeps its
    contents up to the smaller of the two sizes, frees it for size 0 and keeps it
    when there is no memory; the contents of all other blocks are unchanged. *)
Theorem allocator_refines_map o s m :
  represents s m -> op_ok m o ->
  exists m', heap_spec o m (heap_run o s).1 m' /\ represents (heap_run o s).2 m'.
Proof.
  intros Hm Ho. destruct o as [size|u|u size]; cbn [heap_run fst snd]; [by apply malloc_spec|by apply free_spec|].
  destruct Ho as [Hu Hsize]. destruct (decide (u = 0%Z)) as [->|Hnz].
  { destruct (malloc_spec size s m Hsize Hm) as (m' & H1 & H2). exists m'. by split; [constructor|]. }
  destruct Hu as [|[c Hu]]; [done|]. destruct (decide (size = 0%Z)) as [->|Hz].
  { destruct (free_spec u s m (or_intror (ex_intro _ c Hu)) Hm) as (m' & H1 & H2). exists m'.
    unfold iwasm_realloc. rewrite decide_False by done. by split; [constructor|]. }
  destruct (iwasm_realloc u size s) as [v s'] eqn:E.
  destruct (realloc_represents u size _ _ _ _ _ Hm Hu ltac:(lia) (proj2 Hsize) E) as [[-> Hm']|(Hv & Hn & c' & Hl & Ht & Hm')];
    eexists; (split; [|exact Hm']); [apply spec_realloc_failed; lia|eapply spec_realloc; try done; lia].
Qed.
End heap.
End WasmHeap.
