(* ===== verification/SharedHeapDemo.v ===== *)
(** * A shared heap

    An instance of the heap interface of WasmHeap.v, so that its theorem can be
    applied: the blocks lie one behind the other, an allocation appends one, and
    a block that was freed is not used again. *)

From S2P Require Import Prelude CLib WasmMemory WasmHeap.
From Stdlib Require Import ZArith Lia.
From Stdlib Require Import Strings.Byte.
From stdpp Require Import base numbers list list_numbers strings gmap.

Module BumpHeap.

(** The sizes of the blocks, and whether they are in use; the byte behind a block
    is never used, so that different blocks have different addresses. *)
Record bump := Bump { layout : list (nat * bool); data : Z -> byte }.

Definition BASE : Z := 4096.

Fixpoint blocks (b : Z) (l : list (nat * bool)) : gmap Z Z :=
  match l with
  | [] => ∅
  | (n, used) :: l =>
      let rest := blocks (b + Z.of_nat n + 1) l in
      if used && bool_decide (b + Z.of_nat n < 2 ^ 32)%Z then <[b := Z.of_nat n]> rest else rest
  end.

Fixpoint top (b : Z) (l : list (nat * bool)) : Z :=
  match l with [] => b | (n, _) :: l => top (b + Z.of_nat n + 1) l end.

(** The block at an address is marked as free. *)
Fixpoint release (a b : Z) (l : list (nat * bool)) : list (nat * bool) :=
  match l with
  | [] => []
  | (n, used) :: l => (n, if decide (a = b) then false else used) :: release a (b + Z.of_nat n + 1) l
  end.

Definition bump_alloc (n : Z) (s : bump) : Z * bump :=
  let a := top BASE (layout s) in
  if decide (0 <= n /\ a + n < 2 ^ 32)%Z then (a, Bump (layout s ++ [(Z.to_nat n, true)]) (data s)) else (0%Z, s).

#[global] Instance bump_heap : SharedHeap := {|
  smem := bump;
  smh_alloc := bump_alloc;
  smh_free a s := Bump (release a BASE (layout s)) (data s);
  sload a n s := (fun i => data s (a + Z.of_nat i)%Z) <$> seq 0 n;
  sstore a d s := Bump (layout s) (fun x => if decide (a <= x)%Z then default (data s x) (d !! Z.to_nat (x - a)) else data s x);
|}.

Lemma top_ge b l : (b <= top b l)%Z.
Proof. revert b. induction l as [|[n u] l IH]; intros b; cbn; [lia|]. specialize (IH (b + Z.of_nat n + 1)%Z). lia. Qed.

Lemma blocks_range b l a n :
  blocks b l !! a = Some n -> (b <= a /\ 0 <= n /\ a + n < top b l /\ a + n < 2 ^ 32)%Z.
Proof.
  revert b. induction l as [|[k u] l IH]; intros b; cbn [blocks top]; [done|]. pose proof (top_ge (b + Z.of_nat k + 1) l) as Ht.
  destruct (u && _) eqn:E.
  - intros [[<- <-]|[_ H]]%lookup_insert_Some.
    + apply andb_true_iff in E as [_ E]. apply bool_decide_eq_true in E. lia.
    + apply IH in H. lia.
  - intros H. apply IH in H. lia.
Qed.

Lemma bump_disjoint b l a n c k :
  blocks b l !! a = Some n -> blocks b l !! c = Some k -> a <> c -> disjoint_ranges a n c k.
Proof.
  revert b. induction l as [|[m u] l IH]; intros b; cbn [blocks]; [done|].
  destruct (u && _); [|apply IH].
  intros [[<- <-]|[Ha H1]]%lookup_insert_Some [[<- <-]|[Hc H2]]%lookup_insert_Some Hne; [done| | |by eapply IH].
  - apply blocks_range in H2. unfold disjoint_ranges. lia.
  - apply blocks_range in H1. unfold disjoint_ranges. lia.
Qed.

Lemma blocks_app b l n :
  (top b l + Z.of_nat n < 2 ^ 32)%Z -> blocks b (l ++ [(n, true)]) = <[top b l := Z.of_nat n]> (blocks b l).
Proof.
  revert b. induction l as [|[m u] l IH]; intros b Hn; cbn [blocks top app] in *.
  - rewrite bool_decide_true by done. done.
  - rewrite IH by done. destruct (u && _); [|done]. apply insert_insert_ne.
    pose proof (top_ge (b + Z.of_nat m + 1) l). lia.
Qed.

Lemma blocks_above b l a : (a < b)%Z -> blocks b l !! a = None.
Proof. intros Ha. destruct (blocks b l !! a) eqn:E; [|done]. apply blocks_range in E. lia. Qed.

Lemma blocks_release a b l : blocks b (release a b l) = delete a (blocks b l).
Proof.
  revert b. induction l as [|[m u] l IH]; intros b; cbn [blocks release]; [by rewrite delete_empty|]. rewrite IH.
  destruct (decide (a = b)) as [->|Hne]; cbn [andb].
  - destruct (u && _); [by rewrite delete_insert_eq|done].
  - destruct (u && _); [|done]. by rewrite delete_insert_ne.
Qed.

#[global] Instance bump_laws : SharedHeapLaws bump_heap.
Proof.
  refine {| live := fun s : smem => blocks BASE (layout s) |}; cbn [sload sstore smh_alloc smh_free bump_heap].
  - intros s a n H. apply blocks_range in H. unfold BASE in H. lia.
  - intros s a n b k. apply bump_disjoint.
  - intros n s. unfold bump_alloc. case_decide; [|done]. cbn. pose proof (top_ge BASE (layout s)). unfold BASE in *. lia.
  - intros n s Hn. unfold bump_alloc. case_decide as Hd; [|done]. cbn [fst snd layout]. intros _. split.
    + destruct (blocks BASE (layout s) !! _) eqn:E; [|done]. apply blocks_range in E. lia.
    + rewrite blocks_app by (rewrite Z2Nat.id; lia). by rewrite Z2Nat.id.
  - intros n s a m b k _ _. unfold bump_alloc. by case_decide.
  - intros a s. apply blocks_release.
  - done.
  - intros s a m b k _ _. by rewrite length_fmap, length_seq.
  - intros s a m m'. rewrite seq_app, fmap_app. f_equal. cbn [Nat.add].
    replace m with (m + 0) at 1 by lia. rewrite <- fmap_add_seq, <- list_fmap_compose. apply list_fmap_ext. intros i x _. cbn. f_equal. lia.
  - done.
  - intros s a d b k _ _. apply list_eq. intros i. rewrite list_lookup_fmap. destruct (decide (i < length d)) as [Hi|Hi].
    + rewrite lookup_seq_lt by done. cbn [fmap option_fmap option_map data]. rewrite decide_True by lia.
      replace (Z.to_nat _) with i by lia. apply lookup_lt_is_Some in Hi as [x Hx]. by rewrite Hx.
    + rewrite lookup_seq_ge by lia. symmetry. apply lookup_ge_None. lia.
  - intros s a d x m Hd. apply list_fmap_ext. intros i y [Hy Hi]%lookup_seq. subst y. cbn [data Nat.add].
    unfold disjoint_ranges in Hd. case_decide; [|done]. rewrite lookup_ge_None_2 by lia. done.
Qed.
End BumpHeap.

(** ** The allocator on it *)

Module AllocatorDemo.
Import WasmHeap BumpHeap.

Definition empty : smem := Bump [] (fun _ => x55).

Lemma empty_represents : represents (H := bump_heap) empty ∅.
Proof. apply map_Forall_empty. Qed.

(** A block of five bytes grows to eight and keeps what was in it. *)
Example demo_realloc :
  let '(p, s) := iwasm_malloc 5 empty in
  let s := sstore p (cs "hello") s in
  let '(q, s) := iwasm_realloc p 8 s in
  (p, q, sload q 5 s, (iwasm_realloc q 0 s).1) = (4104, 4118, cs "hello", 0)%Z.
Proof. vm_compute. reflexivity. Qed.

(** The size with the header wraps: a request of 2^32 - 1 bytes succeeds, with a
    block of seven. *)
Example demo_wraps :
  let '(p, s) := iwasm_malloc (2 ^ 32 - 1) empty in (p, blocks BASE (layout s) !! (p - HEADER)%Z) = (4104%Z, Some 7%Z).
Proof. vm_compute. reflexivity. Qed.

Lemma allocator_refines_map_witness :
  exists m', heap_spec (Malloc 5) ∅ 4104 m' /\ represents (heap_run (H := bump_heap) (Malloc 5) empty).2 m'.
Proof.
  apply (allocator_refines_map (Malloc 5) empty ∅ empty_represents). split; vm_compute; [discriminate|reflexivity].
Defined.
End AllocatorDemo.
