(* ===== verification/WasmExec.v ===== *)
(** * Running WebAssembly applications

    Model of iwasm_init, iwasm_exec_file, validate_module_abi and
    webos_iwasm_vprintf of src/app/src/services/iwasm/iwasm.c: an application is
    read from the file system into the shared heap, loaded, checked for its ABI
    version, instantiated and run in the development context.

    The WebAssembly runtime is any [Wamr].  What a module does while it runs is a
    [behaviour] of WasmHost.v: its calls of the host functions.  The field [trace]
    is a ghost, the history of what the execution acquires and releases. *)

From S2P Require Import Prelude CLib AppContext HttpClient AppFs WasmMemory WasmHost WasmHeap.
From Stdlib Require Import ZArith Lia.
From Stdlib Require Import Strings.Byte.
From stdpp Require Import base numbers list list_numbers strings.

Definition STACK_SIZE : Z := 65536.
Definition HEAP_SIZE : Z := 65536.

(** [sizeof(uint32_t)], the length of the version in the metadata. *)
Definition VERSION_SIZE : nat := 4.

(** The runtime: its state, with the shared heap it allocates from.  Running code
    of a module - the start functions during the instantiation, or main - is a
    behaviour and what follows when it has ended, with or without an exception. *)
Class Wamr `{AppMemory} `{SharedHeap} := {
  wamr : Type;
  wasm_module : Type;
  wasm_instance : Type;
  wasm_runtime_full_init : wamr * smem -> bool * (wamr * smem);
  wasm_runtime_init_thread_env : wamr * smem -> bool * (wamr * smem);
  wasm_runtime_load : list byte -> wamr * smem -> option wasm_module * (wamr * smem);
  wasm_runtime_get_custom_section : wasm_module -> cstr -> wamr * smem -> option (list byte);
  wasm_runtime_instantiate : wasm_module -> Z -> Z -> wamr * smem ->
    WasmHost.behaviour * (bool -> list WasmHost.host_event -> option wasm_instance * (wamr * smem));
  wasm_application_execute_main : wasm_instance -> list cstr -> wamr * smem ->
    WasmHost.behaviour * (bool -> list WasmHost.host_event -> bool * (wamr * smem));
  wasm_runtime_deinstantiate : wasm_instance -> wamr * smem -> wamr * smem;
  wasm_runtime_unload : wasm_module -> wamr * smem -> wamr * smem;
}.

Module WasmExec.

(** What an execution acquires and releases. *)
Inductive exec_event :=
| ExOpen (path : cstr) (ret : Z)
| ExClose
| ExMalloc (size p : Z)
| ExFree (p : Z)
| ExLoad (wasm : list byte) (ok : bool)
| ExUnload
| ExAbi (ret : Z)
| ExInstantiate (ok : bool)
| ExDeinstantiate
| ExMain (argv : list cstr) (ok : bool).

Section exec.
Context {M : AppMemory} {F : AppFs} {K : KernelHeap} {L : HttpLimits} {P : UrlParser} {N : NetStack}.
Context {H : SharedHeap} {W : Wamr}.

(** The statics of iwasm.c - a shell is a number -, the runtime and everything the
    host functions use; [console] is what was printed, and where. *)
Record iwasm := Iwasm {
  runtime_ready : bool;
  active_shell : option nat;
  runtime : wamr * smem;
  sys : WasmHost.host;
  console : list (option nat * cstr);
  trace : list exec_event;
}.

Definition set_ready (b : bool) (s : iwasm) : iwasm := Iwasm b (active_shell s) (runtime s) (sys s) (console s) (trace s).
Definition set_shell (sh : option nat) (s : iwasm) : iwasm := Iwasm (runtime_ready s) sh (runtime s) (sys s) (console s) (trace s).
Definition set_runtime (r : wamr * smem) (l : list exec_event) (s : iwasm) : iwasm :=
  Iwasm (runtime_ready s) (active_shell s) r (sys s) (console s) (trace s ++ l).
Definition set_sys (h : WasmHost.host) (l : list exec_event) (s : iwasm) : iwasm :=
  Iwasm (runtime_ready s) (active_shell s) (runtime s) h (console s) (trace s ++ l).
Definition set_files (f : appfs) (l : list exec_event) (s : iwasm) : iwasm := set_sys (WasmHost.set_host_fs f [] (sys s)) l s.
Definition log (e : exec_event) (s : iwasm) : iwasm := set_runtime (runtime s) [e] s.

(** The output of the runtime and of applications, already formatted. *)
Definition webos_iwasm_vprintf (text : cstr) (s : iwasm) : Z * iwasm :=
  (0%Z, Iwasm (runtime_ready s) (active_shell s) (runtime s) (sys s) (console s ++ [(active_shell s, text)]) (trace s)).

Definition iwasm_init (s : iwasm) : Z * iwasm :=
  let '(ok, r) := wasm_runtime_full_init (runtime s) in
  let s := set_runtime r [] s in
  if ok then (0%Z, set_ready true s) else ((- EIO)%Z, s).

(** The version is little endian, like every [uint32_t] that is read so. *)
Definition validate_module_abi (module : wasm_module) (s : iwasm) : Z :=
  match wasm_runtime_get_custom_section module (cs ".custom_section.webos.abi") (runtime s) with
  | None => WEBOS_UNSUPPORTED
  | Some metadata =>
      if decide (length metadata <> VERSION_SIZE) then WEBOS_UNSUPPORTED
      else App.webos_abi_check_version (get_le32 metadata)
  end.

(** The development context: the devices, all applications' files, any server. *)
Definition grant_development (c : App.webos_app_context) : App.webos_app_context := {|
  App.id := App.id c; App.version := App.version c; App.storage_root := App.storage_root c;
  App.path_grants := <[0 := Some (cs "/dev")]> (<[1 := Some (cs "/STORAGE:/apps")]> (App.path_grants c));
  App.path_grant_count := 2;
  App.http_origins := <[0 := Some (cs "*")]> (App.http_origins c);
  App.http_origin_count := 1;
  App.max_io_bytes := App.max_io_bytes c;
  App.ready := App.ready c; App.ready_at_ms := App.ready_at_ms c; App.heartbeat_at_ms := App.heartbeat_at_ms c |}.

(** [struct webos_app_context context] is not initialised. *)
Definition development_context (garbage : App.webos_app_context) : Z * option App.webos_app_context :=
  let '(ret, c) := App.webos_app_context_init (Some garbage) (Some (cs "shell-app")) (Some (cs "development")) in
  (ret, if decide (ret = WEBOS_OK) then grant_development <$> c else None).

(** Code of the module runs with the custom data [c]. *)
Definition run_module (b : WasmHost.behaviour) (c : option App.webos_app_context) (s : iwasm) : (bool * list WasmHost.host_event) * iwasm :=
  let h := WasmHost.set_context c (sys s) in
  let '(ok, h') := WasmHost.run b h in
  ((ok, drop (length (WasmHost.events h)) (WasmHost.events h')), set_sys h' [] s).

(** The call of main; the context is the custom data while the instance lives. *)
Definition execute (sh : nat) (inst : wasm_instance) (context : option App.webos_app_context) (app_argv : list cstr) (s : iwasm)
    : Z * iwasm :=
  let s := set_shell (Some sh) s in
  let '(b, after) := wasm_application_execute_main inst app_argv (runtime s) in
  let '((ok, l), s) := run_module b context s in
  let '(ok, r) := after ok l in
  let s := set_shell None (set_runtime r [ExMain app_argv ok] s) in
  (if ok then 0%Z else (- EIO)%Z, s).

(** From the instantiation to [cleanup_instance]. *)
Definition exec_module (sh : nat) (module : wasm_module) (garbage : App.webos_app_context) (app_argv : list cstr) (s : iwasm) : Z * iwasm :=
  let '(start, after) := wasm_runtime_instantiate module STACK_SIZE HEAP_SIZE (runtime s) in
  let '((ok, l), s) := run_module start None s in
  let '(module_inst, r) := after ok l in
  let s := set_runtime r [ExInstantiate (bool_decide (module_inst <> None))] s in
  match module_inst with
  | None => ((- EINVAL)%Z, s)
  | Some inst =>
      let '(ret, context) := development_context garbage in
      let '(ret, s) := if decide (ret <> WEBOS_OK) then (ret, s) else execute sh inst context app_argv s in
      (* cleanup_instance *)
      (ret, set_runtime (wasm_runtime_deinstantiate inst (runtime s)) [ExDeinstantiate] s)
  end.

(** From the load to [cleanup_module]. *)
Definition exec_loaded (sh : nat) (buf file_size : Z) (garbage : App.webos_app_context) (app_argv : list cstr) (s : iwasm) : Z * iwasm :=
  let wasm := sload buf (Z.to_nat file_size) (runtime s).2 in
  let '(module, r) := wasm_runtime_load wasm (runtime s) in
  let s := set_runtime r [ExLoad wasm (bool_decide (module <> None))] s in
  match module with
  | None => ((- EINVAL)%Z, s)
  | Some module =>
      let ret := validate_module_abi module s in
      let s := log (ExAbi ret) s in
      let '(ret, s) := if decide (ret <> WEBOS_OK) then (ret, s) else exec_module sh module garbage app_argv s in
      (* cleanup_module *)
      (ret, set_runtime (wasm_runtime_unload module (runtime s)) [ExUnload] s)
  end.

Definition close (file : app_file) (s : iwasm) : iwasm := set_files (fs_close file (WasmHost.host_fs (sys s))).2 [ExClose] s.

(** From the allocation of the buffer to [cleanup_buf]. *)
Definition exec_sized (sh : nat) (file : app_file) (file_size : Z) (garbage : App.webos_app_context) (app_argv : list cstr) (s : iwasm)
    : Z * iwasm :=
  let '((_, file), f) := fs_seek file 0 FS_SEEK_SET (WasmHost.host_fs (sys s)) in
  let s := set_files f [] s in
  let '(buf, m) := WasmHeap.iwasm_malloc (u32 file_size) (runtime s).2 in
  let s := set_runtime ((runtime s).1, m) [ExMalloc file_size buf] s in
  if decide (buf = 0%Z) then ((- ENOMEM)%Z, close file s)
  else
    let '(((ret, d), file), f) := fs_read file (Z.to_nat file_size) (WasmHost.host_fs (sys s)) in
    let s := set_runtime ((runtime s).1, sstore buf d (runtime s).2) [] (set_files f [] s) in
    let s := close file s in
    let '(ret, s) := if decide (ret < 0)%Z then (ret, s) else exec_loaded sh buf file_size garbage app_argv s in
    (* cleanup_buf *)
    (ret, set_runtime ((runtime s).1, WasmHeap.iwasm_free buf (runtime s).2) [ExFree buf] s).

Definition iwasm_exec_file (sh : nat) (path : cstr) (app_argv : list cstr) (garbage : App.webos_app_context) (s : iwasm) : Z * iwasm :=
  if negb (runtime_ready s) then ((- EIO)%Z, s)
  else
    let '((ret, file), f) := fs_open FS_O_READ path (WasmHost.host_fs (sys s)) in
    let s := set_files f [ExOpen path ret] s in
    if decide (ret <> 0%Z) then (ret, s)
    else
      let '((ret, file), f) := fs_seek file 0 FS_SEEK_END (WasmHost.host_fs (sys s)) in
      let s := set_files f [] s in
      if decide (ret <> 0%Z) then (ret, close file s)
      else
        let file_size := fs_tell file (WasmHost.host_fs (sys s)) in
        if decide (file_size <= 0)%Z then ((- EINVAL)%Z, close file s)
        else exec_sized sh file file_size garbage app_argv s.
End exec.
End WasmExec.
