(* ===== verification/WasmExecSpec.v ===== *)
(** * What running an application guarantees

    Theorems about WasmExec.v: everything an execution acquires is released, on
    every path and in an order the runtime can live with; nothing of a module runs
    unless its ABI version was accepted; the runtime is given exactly the contents
    of the file; and whatever the module does, it stays in the development
    context, in which it has no rights before main. *)

From S2P Require Import Prelude CLib AppContext HttpClient HttpClientSpec AppFs WasmMemory WasmHost WasmHostSpec WasmHeap WasmExec.
From Stdlib Require Import ZArith Lia.
From Stdlib Require Import Strings.Byte.
From stdpp Require Import base numbers list list_numbers strings gmap.

(** The documented behaviour of [fs_seek], [fs_tell] and [fs_read] on a regular
    file: a seek that succeeds moves the cursor, and a read that succeeds is short
    only at the end of the file. *)
Class AppFsSeek (F : AppFs) `{!AppFsLaws F} := {
  seek_set h o f p c : cursor_of h = Some (p, o) -> files f !! p = Some c -> (fs_seek h 0 FS_SEEK_SET f).1.1 = 0%Z ->
    cursor_of (fs_seek h 0 FS_SEEK_SET f).1.2 = Some (p, 0);
  seek_end h o f p c : cursor_of h = Some (p, o) -> files f !! p = Some c -> (fs_seek h 0 FS_SEEK_END f).1.1 = 0%Z ->
    cursor_of (fs_seek h 0 FS_SEEK_END f).1.2 = Some (p, length c);
  tell_cursor h o f p : cursor_of h = Some (p, o) -> fs_tell h f = Z.of_nat o;
  read_full h n f p o c : cursor_of h = Some (p, o) -> files f !! p = Some c -> (0 <= (fs_read h n f).1.1.1)%Z ->
    (fs_read h n f).1.1.2 = take n (drop o c);
}.

Module WasmExecSpec.
Import WasmHostSpec WasmExec.

(** ** What is acquired and released *)

Record res := Res { r_file : bool; r_buf : option Z; r_module : bool; r_abi : bool; r_inst : bool }.

Definition idle : res := Res false None false false false.

(** The order the file system and the runtime require: one file; the buffer lives
    as long as the module loaded from it, the module as long as its instance; and
    an instance is made only of a module whose version was accepted. *)
Definition resources (s : option res) (e : exec_event) : option res :=
  match s with
  | None => None
  | Some r =>
      match e with
      | ExOpen _ ret => if r_file r then None else Some (Res (bool_decide (ret = 0%Z)) (r_buf r) (r_module r) (r_abi r) (r_inst r))
      | ExClose => if r_file r then Some (Res false (r_buf r) (r_module r) (r_abi r) (r_inst r)) else None
      | ExMalloc _ p =>
          match r_buf r with
          | Some _ => None
          | None => Some (Res (r_file r) (if decide (p = 0%Z) then None else Some p) (r_module r) (r_abi r) (r_inst r))
          end
      | ExFree p =>
          if decide (r_buf r = Some p /\ r_module r = false) then Some (Res (r_file r) None false (r_abi r) (r_inst r)) else None
      | ExLoad _ ok =>
          if decide (is_Some (r_buf r) /\ r_module r = false) then Some (Res (r_file r) (r_buf r) ok false (r_inst r)) else None
      | ExUnload => if r_module r && negb (r_inst r) then Some (Res (r_file r) (r_buf r) false false false) else None
      | ExAbi ret => if r_module r then Some (Res (r_file r) (r_buf r) true (bool_decide (ret = WEBOS_OK)) (r_inst r)) else None
      | ExInstantiate ok => if r_abi r && negb (r_inst r) then Some (Res (r_file r) (r_buf r) (r_module r) true ok) else None
      | ExDeinstantiate => if r_inst r then Some (Res (r_file r) (r_buf r) (r_module r) (r_abi r) false) else None
      | ExMain _ _ => if r_inst r then s else None
      end
  end.

Section exec.
Context {M : AppMemory} {ML : AppMemoryLaws M} {F : AppFs} {FH : AppFsHandles F} {FR : AppFsReads F}.
Context {K : KernelHeap} {L : HttpLimits} {P : UrlParser} {N : NetStack}.
Context {H : SharedHeap} {W : Wamr}.
Implicit Type s : iwasm.

(** A part of an execution that takes the resources from [r] to [r'] and returns
    [ret]: 0 exactly if main ran to its end. *)
Definition effect (argv : list cstr) (r r' : res) (ret : Z) (s s' : iwasm) : Prop :=
  exists l, trace s' = trace s ++ l /\ foldl resources (Some r) l = Some r' /\ (ret = 0%Z <-> ExMain argv true ∈ l)
    /\ runtime_ready s' = runtime_ready s /\ (active_shell s = None -> active_shell s' = None).

(** A sequence of two parts, the second of which decides the result. *)
Lemma effect_before argv r1 r2 r3 ret s1 s2 s3 l :
  trace s2 = trace s1 ++ l -> foldl resources (Some r1) l = Some r2 -> (ExMain argv true ∉ l) ->
  runtime_ready s2 = runtime_ready s1 -> active_shell s2 = active_shell s1 ->
  effect argv r2 r3 ret s2 s3 -> effect argv r1 r3 ret s1 s3.
Proof.
  intros Ht Hr Hn Hy Ha (l' & Ht' & Hr' & Hm & Hy' & Ha'). exists (l ++ l'). rewrite Ht', Ht, app_assoc, foldl_app, Hr.
  rewrite elem_of_app, Hm, Hy', Hy, <- Ha. split_and!; [done|done|by split; [right|intros [|]]|done|done].
Qed.

(** A part followed by clean-up. *)
Lemma effect_after argv r1 r2 r3 ret s1 s2 s3 l :
  effect argv r1 r2 ret s1 s2 -> trace s3 = trace s2 ++ l -> foldl resources (Some r2) l = Some r3 -> (ExMain argv true ∉ l) ->
  runtime_ready s3 = runtime_ready s2 -> active_shell s3 = active_shell s2 -> effect argv r1 r3 ret s1 s3.
Proof.
  intros (l' & Ht' & Hr' & Hm & Hy' & Ha') Ht Hr Hn Hy Ha. exists (l' ++ l). rewrite Ht, Ht', <- app_assoc, foldl_app, Hr'.
  rewrite elem_of_app, Hm, Hy, Hy', Ha. split_and!; [done|done|by split; [left|intros [|]]|done|done].
Qed.

(** A part that fails with the events [l]. *)
Lemma effect_failed argv r r' ret s s' l :
  ret <> 0%Z -> trace s' = trace s ++ l -> foldl resources (Some r) l = Some r' -> ExMain argv true ∉ l ->
  runtime_ready s' = runtime_ready s -> active_shell s' = active_shell s -> effect argv r r' ret s s'.
Proof. intros Hz Ht Hr Hn Hy Ha. exists l. rewrite Hy, Ha. by split_and!. Qed.

(** Membership in a list of events of other kinds. *)
Ltac no_main := rewrite ?elem_of_cons, elem_of_nil; intuition discriminate.

Definition loaded (p : Z) (abi inst : bool) : res := Res false (Some p) true abi inst.

Lemma execute_effect p sh inst c argv s :
  effect argv (loaded p true true) (loaded p true true) (execute sh inst c argv s).1 s (execute sh inst c argv s).2.
Proof.
  unfold execute. destruct (wasm_application_execute_main _ _ _) as [b after]. unfold run_module. cbv zeta.
  destruct (WasmHost.run _ _) as [ok h']. set (l := drop _ _). destruct (after ok l) as [ok' r]. exists [ExMain argv ok']. cbn.
  rewrite app_nil_r. split_and!; [done|done| |done|done]. rewrite list_elem_of_singleton. by destruct ok'.
Qed.

(** The result of checking a version is never the result of an execution. *)
Lemma development_context_eq garbage :
  development_context garbage = (WEBOS_OK, (development_context App.zero_context).2).
Proof. vm_compute. reflexivity. Qed.

Lemma module_effect p sh module g argv s :
  effect argv (loaded p true false) (loaded p true false) (exec_module sh module g argv s).1 s (exec_module sh module g argv s).2.
Proof.
  unfold exec_module. destruct (wasm_runtime_instantiate _ _ _ _) as [start after]. unfold run_module. cbv zeta.
  destruct (WasmHost.run _ _) as [ok h']. set (l := drop _ _). destruct (after ok l) as [[inst|] r].
  - rewrite development_context_eq. cbv zeta. rewrite decide_False by (intros Hx; by apply Hx).
    set (s1 := set_runtime _ _ _). pose proof (execute_effect p sh inst (development_context App.zero_context).2 argv s1) as He.
    destruct (execute _ _ _ _ s1) as [ret s2]. cbn [fst snd] in He |- *.
    apply (effect_after _ _ (loaded p true true) _ _ _ s2 _ [ExDeinstantiate]); [|done|done|no_main|done|done].
    eapply effect_before; [..|exact He]; [by subst s1; cbn; rewrite app_nil_r|done|no_main|done|done].
  - apply (effect_failed _ _ _ _ _ _ [ExInstantiate false]); [done| |done|no_main|done|done].
    cbn. by rewrite app_nil_r.
Qed.

Lemma loaded_effect p sh n g argv s :
  effect argv (Res false (Some p) false false false) (Res false (Some p) false false false)
    (exec_loaded sh p n g argv s).1 s (exec_loaded sh p n g argv s).2.
Proof.
  unfold exec_loaded. cbv zeta. set (wasm := sload _ _ _). destruct (wasm_runtime_load wasm (runtime s)) as [[module|] r].
  2: { apply (effect_failed _ _ _ _ _ _ [ExLoad wasm false]); [done|done| |no_main|done|done]. cbn.
       rewrite decide_True; [done|]. by split. }
  set (s1 := set_runtime _ _ s). set (abi := validate_module_abi module s1).
  assert (trace (log (ExAbi abi) s1) = trace s ++ [ExLoad wasm true; ExAbi abi]) as Ht by (cbn; by rewrite <- app_assoc).
  assert (foldl resources (Some (Res false (Some p) false false false)) [ExLoad wasm true; ExAbi abi]
    = Some (loaded p (bool_decide (abi = WEBOS_OK)) false)) as Hr by (cbn; rewrite decide_True by (by split); done).
  assert (forall r ret s2, effect argv (loaded p (bool_decide (abi = WEBOS_OK)) false) (loaded p (bool_decide (abi = WEBOS_OK)) false) ret (log (ExAbi abi) s1) s2 ->
    effect argv (Res false (Some p) false false false) (Res false (Some p) false false false) ret s (set_runtime (r s2) [ExUnload] s2)) as Hall.
  { intros rt ret s2 He. apply (effect_after _ _ (loaded p (bool_decide (abi = WEBOS_OK)) false) _ _ _ s2 _ [ExUnload]); [|done|done|no_main|done|done].
    eapply effect_before; [exact Ht|exact Hr|no_main|done|done|exact He]. }
  destruct (decide (abi <> WEBOS_OK)) as [Hz|Hz].
  - apply (Hall (fun s2 => wasm_runtime_unload module (runtime s2))). by apply (effect_failed _ _ _ _ _ _ []); rewrite ?app_nil_r; [..|no_main| |].
  - apply dec_stable in Hz. rewrite bool_decide_true in Hall by done.
    pose proof (module_effect p sh module g argv (log (ExAbi abi) s1)) as He.
    destruct (exec_module _ _ _ _ _) as [ret s2]. apply (Hall (fun s2 => wasm_runtime_unload module (runtime s2))). exact He.
Qed.

Lemma sized_effect sh file n g argv s :
  effect argv (Res true None false false false) idle (exec_sized sh file n g argv s).1 s (exec_sized sh file n g argv s).2.
Proof.
  unfold exec_sized. destruct (fs_seek _ _ _ _) as [[q file1] f1]. cbv zeta.
  destruct (WasmHeap.iwasm_malloc _ _) as [buf m]. cbn [sys set_files set_sys set_runtime WasmHost.host_fs WasmHost.set_host_fs].
  destruct (decide (buf = 0%Z)) as [->|Hnz].
  { apply (effect_failed _ _ _ _ _ _ [ExMalloc n 0; ExClose]); [done| |done|no_main|done|done]. cbn. by rewrite app_nil_r, <- app_assoc. }
  destruct (fs_read _ _ _) as [[[ret d] file2] f2]. cbn [sys set_files set_sys set_runtime WasmHost.host_fs WasmHost.set_host_fs].
  set (s1 := close file2 _).
  assert (trace s1 = trace s ++ [ExMalloc n buf; ExClose]) as Ht by (cbn; by rewrite !app_nil_r, <- app_assoc).
  assert (forall ret s2, effect argv (Res false (Some buf) false false false) (Res false (Some buf) false false false) ret s1 s2 ->
    effect argv (Res true None false false false) idle ret s (set_runtime ((runtime s2).1, WasmHeap.iwasm_free buf (runtime s2).2) [ExFree buf] s2)) as Hall.
  { intros ret' s2 He. apply (effect_after _ _ (Res false (Some buf) false false false) _ _ _ s2 _ [ExFree buf]); [|done| |no_main|done|done].
    - eapply effect_before; [exact Ht| |no_main|done|done|exact He]. cbn. by rewrite decide_False.
    - cbn. by rewrite decide_True by done. }
  destruct (decide (ret < 0)%Z) as [Hz|Hz]; cbn [fst snd].
  - apply Hall. by apply (effect_failed _ _ _ _ _ _ []); rewrite ?app_nil_r; [lia|..|no_main| |].
  - pose proof (loaded_effect buf sh n g argv s1) as He. destruct (exec_loaded _ _ _ _ _ s1) as [r s2]. by apply Hall.
Qed.

(** C30: everything an execution acquires - the file, the buffer with the module,
    the module and its instance - is released exactly once, whatever fails on the
    way, the buffer only after the module and the module only after its instance;
    code of the module runs only after its ABI version was accepted; the result is
    0 exactly if main ran to its end; and the shell that output goes to is
    forgotten. *)
Theorem execution_releases sh path argv garbage s :
  exists l, trace (iwasm_exec_file sh path argv garbage s).2 = trace s ++ l
    /\ foldl resources (Some idle) l = Some idle
    /\ ((iwasm_exec_file sh path argv garbage s).1 = 0%Z <-> ExMain argv true ∈ l)
    /\ runtime_ready (iwasm_exec_file sh path argv garbage s).2 = runtime_ready s
    /\ (active_shell s = None -> active_shell (iwasm_exec_file sh path argv garbage s).2 = None).
Proof.
  change (effect argv idle idle (iwasm_exec_file sh path argv garbage s).1 s (iwasm_exec_file sh path argv garbage s).2).
  unfold iwasm_exec_file. destruct (runtime_ready s) eqn:Er; cbn [negb].
  2: { by apply (effect_failed _ _ _ _ _ _ []); rewrite ?app_nil_r; [..|no_main| |]. }
  destruct (fs_open _ _ _) as [[ret file] f]. cbv zeta. destruct (decide (ret <> 0%Z)) as [Hz|Hz].
  { apply (effect_failed _ _ _ _ _ _ [ExOpen path ret]); [done|done| |no_main|done|done]. cbn. by rewrite bool_decide_false. }
  apply dec_stable in Hz as ->. cbn [sys set_files set_sys WasmHost.host_fs WasmHost.set_host_fs].
  destruct (fs_seek _ _ _ _) as [[ret file1] f1]. destruct (decide (ret <> 0%Z)) as [Hz|Hz].
  { apply (effect_failed _ _ _ _ _ _ [ExOpen path 0; ExClose]); [done| |done|no_main|done|done]. cbn. by rewrite app_nil_r, <- app_assoc. }
  case_decide.
  { apply (effect_failed _ _ _ _ _ _ [ExOpen path 0; ExClose]); [done| |done|no_main|done|done]. cbn. by rewrite app_nil_r, <- app_assoc. }
  eapply effect_before; [..|apply sized_effect]; [cbn; by rewrite app_nil_r|done|no_main|done|done].
Qed.
(** ** Confinement *)

(** The context every application of the shell gets. *)
Definition development : App.webos_app_context := default App.zero_context (development_context App.zero_context).2.

Lemma development_context_some garbage : development_context garbage = (WEBOS_OK, Some development).
Proof. rewrite development_context_eq. vm_compute. reflexivity. Qed.

(** The scopes of the development context. *)
Definition development_scopes : list cstr := [cs "/STORAGE:/apps/shell-app/data"; cs "/dev"; cs "/STORAGE:/apps"].

Lemma development_paths p :
  no_nul p -> App.webos_app_path_allowed (Some development) (Some p) = true ->
  App.path_ok p /\ exists g, g ∈ development_scopes /\ App.in_scope g p.
Proof.
  intros Hn Hp. apply App.path_allowed_spec in Hp as [Hok Hp]; [|done]. split; [done|]. destruct Hp as [Hp|(g & Hg & Hs)].
  - eexists. split; [|exact Hp]. vm_compute. by left.
  - exists g. split; [|done]. change (App.active _ _) with [Some (cs "/dev"); Some (cs "/STORAGE:/apps")] in Hg.
    apply elem_of_cons in Hg as [[= ->]|Hg]; [apply list_elem_of_further, list_elem_of_here|].
    apply list_elem_of_singleton in Hg as [= ->]. apply list_elem_of_further, list_elem_of_further, list_elem_of_here.
Qed.

(** The calls a module makes have sizes of type [uint32_t]. *)
Class WamrLaws := {
  start_calls m a b r : calls_ok (wasm_runtime_instantiate m a b r).1;
  main_calls i argv r : calls_ok (wasm_application_execute_main i argv r).1;
}.
Context {WL : WamrLaws}.

(** A part of an execution that makes the host do only what the context permits. *)
Definition stays s s' : Prop :=
  exists l, WasmHost.events (sys s') = WasmHost.events (sys s) ++ l /\ Forall (permitted (Some development)) l /\ released l.

Lemma stays_same s s' : WasmHost.events (sys s') = WasmHost.events (sys s) -> stays s s'.
Proof. intros E. exists []. by rewrite E, app_nil_r. Qed.

Lemma stays_trans s1 s2 s3 : stays s1 s2 -> stays s2 s3 -> stays s1 s3.
Proof.
  intros (l1 & E1 & P1 & R1) (l2 & E2 & P2 & R2). exists (l1 ++ l2). rewrite E2, E1, app_assoc.
  split; [done|]. split; [by apply Forall_app|by apply released_app].
Qed.

(** Without a context nothing is permitted but to wait. *)
Lemma permitted_none c e : permitted None e -> permitted c e.
Proof. destruct e; cbn; try done; naive_solver. Qed.

Lemma run_module_stays b c s :
  calls_ok b -> c = None \/ c = Some development -> stays s (run_module b c s).2.
Proof.
  intros Hb Hc. unfold run_module. pose proof (run_confined b (WasmHost.set_context c (sys s)) Hb) as (_ & l & He & Hp & Hr).
  destruct (WasmHost.run b _) as [ok h']. cbn [snd] in *. exists l. split; [exact He|]. split; [|done].
  cbn [WasmHost.context WasmHost.set_context] in Hp. destruct Hc as [->| ->]; [|done].
  eapply Forall_impl; [exact Hp|]. apply permitted_none.
Qed.

Lemma execute_stays sh inst argv s : stays s (execute sh inst (Some development) argv s).2.
Proof.
  unfold execute. pose proof (main_calls inst argv (runtime (set_shell (Some sh) s))) as Hm.
  destruct (wasm_application_execute_main _ _ _) as [b after].
  pose proof (run_module_stays b (Some development) (set_shell (Some sh) s) Hm ltac:(by right)) as Hs.
  destruct (run_module _ _ _) as [[ok l] s1]. destruct (after ok l) as [ok' r]. exact Hs.
Qed.

Lemma module_stays sh module g argv s : stays s (exec_module sh module g argv s).2.
Proof.
  unfold exec_module. pose proof (start_calls module STACK_SIZE HEAP_SIZE (runtime s)) as Hm.
  destruct (wasm_runtime_instantiate _ _ _ _) as [start after]. pose proof (run_module_stays start None s Hm ltac:(by left)) as Hs.
  destruct (run_module _ _ _) as [[ok l] s1]. destruct (after ok l) as [[inst|] r]; [|exact Hs].
  rewrite development_context_some. rewrite decide_False by (intros Hx; by apply Hx).
  apply (stays_trans s s1); [exact Hs|]. set (s2 := set_runtime _ _ s1). pose proof (execute_stays sh inst argv s2) as He.
  destruct (execute _ _ _ _ s2) as [ret s3]. exact He.
Qed.

Lemma loaded_stays sh p n g argv s : stays s (exec_loaded sh p n g argv s).2.
Proof.
  unfold exec_loaded. destruct (wasm_runtime_load _ _) as [[module|] r]; [|by apply stays_same]. cbv zeta.
  set (s1 := log _ _). destruct (decide _); [by apply stays_same|].
  pose proof (module_stays sh module g argv s1) as He. destruct (exec_module _ _ _ _ _) as [ret s2]. exact He.
Qed.

Lemma sized_stays sh file n g argv s : stays s (exec_sized sh file n g argv s).2.
Proof.
  unfold exec_sized. destruct (fs_seek _ _ _ _) as [[q file1] f1]. cbv zeta.
  destruct (WasmHeap.iwasm_malloc _ _) as [buf m]. destruct (decide (buf = 0%Z)); [apply stays_same; cbn; by rewrite !app_nil_r|].
  destruct (fs_read _ _ _) as [[[ret d] file2] f2]. set (s1 := close file2 _).
  assert (stays s s1) as Hs by (apply stays_same; cbn; by rewrite !app_nil_r).
  destruct (decide (ret < 0)%Z); [exact Hs|]. pose proof (loaded_stays sh buf n g argv s1) as He.
  destruct (exec_loaded _ _ _ _ _ _) as [r s2]. exact (stays_trans _ _ _ Hs He).
Qed.

Lemma exec_file_stays sh path argv garbage s : stays s (iwasm_exec_file sh path argv garbage s).2.
Proof.
  unfold iwasm_exec_file. destruct (negb _); [by apply stays_same|]. destruct (fs_open _ _ _) as [[ret file] f]. cbv zeta.
  destruct (decide (ret <> 0%Z)); [apply stays_same; cbn; by rewrite app_nil_r|].
  destruct (fs_seek _ _ _ _) as [[ret' file1] f1]. destruct (decide (ret' <> 0%Z)); [apply stays_same; cbn; by rewrite !app_nil_r|].
  case_decide; [apply stays_same; cbn; by rewrite !app_nil_r|].
  match goal with |- stays _ (exec_sized _ _ _ _ _ ?x).2 => apply (stays_trans s x); [apply stays_same; cbn; by rewrite !app_nil_r|] end.
  apply sized_stays.
Qed.

(** C9: whatever module is run from the shell, and whatever it does, it opens only
    files of well-formed paths under /dev or /STORAGE:/apps, for reading or for
    writing only, makes requests only to http and https URLs, transfers at most
    64 KiB at a time and logs under the name shell-app; and each of its files and
    allocations is released. *)
Theorem execution_confined sh path argv garbage s :
  exists l, WasmHost.events (sys (iwasm_exec_file sh path argv garbage s).2) = WasmHost.events (sys s) ++ l
    /\ Forall (permitted (Some development)) l /\ released l
    /\ (forall p m ret o, WasmHost.EvOpen p m ret o ∈ l -> no_nul p ->
          App.path_ok p /\ exists g, g ∈ development_scopes /\ App.in_scope g p).
Proof.
  destruct (exec_file_stays sh path argv garbage s) as (l & He & Hp & Hr). exists l. split_and!; [done..|].
  intros p m ret o Hin Hn. apply development_paths; [done|]. rewrite Forall_forall in Hp. apply (Hp _ Hin).
Qed.
(** ** What is run *)

Context {FL : AppFsLaws F} {FS : AppFsSeek F} {HL : SharedHeapLaws H}.

(** A successful execution of what is in the buffer. *)
Definition ran (wasm : list byte) (argv : list cstr) : list exec_event :=
  [ExLoad wasm true; ExAbi WEBOS_OK; ExInstantiate true; ExMain argv true; ExDeinstantiate; ExUnload].

Lemma execute_ran sh inst c argv s s' : execute sh inst c argv s = (0%Z, s') -> trace s' = trace s ++ [ExMain argv true].
Proof.
  unfold execute. destruct (wasm_application_execute_main _ _ _) as [b after].
  unfold run_module. cbv zeta. destruct (WasmHost.run _ _) as [ok h']. set (l := drop _ _). destruct (after ok l) as [[] r]; [|done]. intros [= <-].
  cbn. by rewrite app_nil_r.
Qed.

Lemma module_ran sh module g argv s s' :
  exec_module sh module g argv s = (0%Z, s') -> trace s' = trace s ++ [ExInstantiate true; ExMain argv true; ExDeinstantiate].
Proof.
  unfold exec_module. destruct (wasm_runtime_instantiate _ _ _ _) as [start after].
  unfold run_module. cbv zeta. destruct (WasmHost.run _ _) as [ok h']. set (l := drop _ _). destruct (after ok l) as [[inst|] r]; [|done].
  rewrite development_context_eq. rewrite decide_False by (intros Hx; by apply Hx). set (s1 := set_runtime _ _ _).
  destruct (execute _ _ _ _ s1) as [ret s2] eqn:E. intros [= -> <-]. apply execute_ran in E. cbn. rewrite E. subst s1. cbn.
  by rewrite app_nil_r, <- !app_assoc.
Qed.

Lemma loaded_ran sh p n g argv s s' :
  exec_loaded sh p n g argv s = (0%Z, s') -> trace s' = trace s ++ ran (sload p (Z.to_nat n) (runtime s).2) argv.
Proof.
  unfold exec_loaded. cbv zeta. set (wasm := sload _ _ _). destruct (wasm_runtime_load wasm _) as [[module|] r]; [|done].
  set (s1 := set_runtime _ _ s). destruct (decide _) as [Hz|Hz]; [intros Hx; by apply (f_equal fst) in Hx|]. apply dec_stable in Hz. rewrite Hz.
  destruct (exec_module _ _ _ _ _) as [ret s2] eqn:E. intros [= -> <-]. apply module_ran in E. cbn. rewrite E. cbn.
  by rewrite <- !app_assoc.
Qed.

(** What is stored into a new block is what is loaded from it. *)
Lemma malloc_store size d m p m' :
  WasmHeap.iwasm_malloc size m = (p, m') -> p <> 0%Z -> (0 <= size /\ WasmHeap.HEADER + size < 2 ^ 32)%Z -> length d = Z.to_nat size ->
  sload p (Z.to_nat size) (sstore p d m') = d.
Proof.
  intros E Hp [Hs Hw] Hd. assert (WasmHeap.represents m ∅) as H0 by apply map_Forall_empty.
  destruct (WasmHeap.malloc_represents _ _ _ _ _ H0 Hs Hw E) as [[? _]|(_ & _ & c & Hc & Hr)]; [done|].
  destruct (Hr p c (lookup_insert_eq _ _ _)) as (Hl & _). rewrite <- Hd. eapply store_load; [exact Hl|].
  unfold within, WasmHeap.HEADER. lia.
Qed.

Lemma sized_ran sh file g argv s s' path c o :
  cursor_of file = Some (path, o) -> files (WasmHost.host_fs (sys s)) !! path = Some c -> (Z.of_nat (length c) < 2 ^ 31)%Z ->
  (forall h f, (fs_seek h 0 FS_SEEK_SET f).1.1 = 0%Z) ->
  exec_sized sh file (Z.of_nat (length c)) g argv s = (0%Z, s') ->
  exists p, trace s' = trace s ++ ExMalloc (Z.of_nat (length c)) p :: ExClose :: ran c argv ++ [ExFree p].
Proof.
  intros Hcur Hfile Hlen Hseek. unfold exec_sized. set (hf := WasmHost.host_fs (sys s)) in *.
  pose proof (seek_set file o hf path c Hcur Hfile (Hseek file hf)) as Hcur1. pose proof (seek_files file 0 FS_SEEK_SET hf) as Hf1.
  destruct (fs_seek file 0 FS_SEEK_SET hf) as [[q file1] f1]. cbn [fst snd] in Hcur1, Hf1. cbv zeta.
  rewrite u32_small by lia. destruct (WasmHeap.iwasm_malloc _ _) as [p m] eqn:Em.
  destruct (decide (p = 0%Z)) as [|Hp]; [done|]. cbn [sys set_files set_sys set_runtime WasmHost.host_fs WasmHost.set_host_fs].
  assert (files f1 !! path = Some c) as Hfile1 by (by rewrite Hf1).
  pose proof (read_full file1 (Z.to_nat (Z.of_nat (length c))) f1 path 0 c Hcur1 Hfile1) as Hread.
  destruct (fs_read file1 _ f1) as [[[ret d] file2] f2]. cbn [fst snd] in Hread.
  destruct (decide (ret < 0)%Z) as [Hneg|Hneg]; [intros [= -> _]; lia|]. specialize (Hread ltac:(lia)).
  rewrite Nat2Z.id, drop_0, firstn_all in Hread. subst d. set (s1 := close file2 _).
  destruct (exec_loaded _ _ _ _ _ s1) as [r s2] eqn:E. intros [= -> <-]. apply loaded_ran in E. exists p.
  assert ((runtime s1).2 = sstore p c m) as Hm by done. rewrite Hm in E.
  rewrite (malloc_store _ c _ _ _ Em Hp) in E by (unfold WasmHeap.HEADER; lia || by rewrite Nat2Z.id).
  cbn. rewrite E. subst s1. cbn. by rewrite !app_nil_r, <- !app_assoc.
Qed.

(** When running a file succeeds, the module that was loaded, checked,
    instantiated and run with the arguments given is exactly what is stored in the
    file, whatever its size and contents. *)
Theorem execution_runs_file sh path argv garbage s s' c :
  is_device path = false -> files (WasmHost.host_fs (sys s)) !! path = Some c -> (Z.of_nat (length c) < 2 ^ 31)%Z ->
  (forall h f, (fs_seek h 0 FS_SEEK_SET f).1.1 = 0%Z) ->
  iwasm_exec_file sh path argv garbage s = (0%Z, s') ->
  exists p, trace s' = trace s ++ [ExOpen path 0; ExMalloc (Z.of_nat (length c)) p; ExClose] ++ ran c argv ++ [ExFree p].
Proof.
  intros Hdev Hfile Hlen Hseek. unfold iwasm_exec_file. destruct (negb _); [done|]. set (hf := WasmHost.host_fs (sys s)) in *.
  pose proof (open_regular FS_O_READ path hf Hdev) as Hopen. pose proof (open_keeps FS_O_READ path hf eq_refl eq_refl) as Hf.
  destruct (fs_open FS_O_READ path hf) as [[ret file] f]. cbn [fst snd] in Hopen, Hf. cbv zeta.
  destruct (decide (ret <> 0%Z)) as [|Hz]; [by intros [= -> _]|]. apply dec_stable in Hz as ->. specialize (Hopen eq_refl).
  cbn [sys set_files set_sys WasmHost.host_fs WasmHost.set_host_fs]. assert (files f !! path = Some c) as Hf1 by (by rewrite Hf).
  pose proof (seek_end file 0 f path c Hopen Hf1) as Hend. pose proof (seek_files file 0 FS_SEEK_END f) as Hf2.
  destruct (fs_seek file 0 FS_SEEK_END f) as [[ret file1] f1]. cbn [fst snd] in Hend, Hf2.
  destruct (decide (ret <> 0%Z)) as [|Hz]; [by intros [= -> _]|]. apply dec_stable in Hz as ->. specialize (Hend eq_refl).
  cbn [sys set_files set_sys WasmHost.host_fs WasmHost.set_host_fs]. rewrite (tell_cursor _ _ _ _ Hend). case_decide; [done|].
  intros E. eapply sized_ran in E as [p E]; [|exact Hend|cbn; rewrite Hf2; exact Hf1|done|done].
  exists p. rewrite E. cbn. by rewrite !app_nil_r, <- !app_assoc.
Qed.
End exec.
End WasmExecSpec.
