(* ===== verification/WasmService.v ===== *)
(** * The execution thread

    Model of cmd_iwasm_exec and iwasm_exec_thread of
    src/app/src/services/iwasm/iwasm.c: shells hand their commands to the one
    thread with enough stack to run applications, through a mutex, a request in
    static memory and two binary semaphores.

    Shells and the thread take turns in any order, one access to the shared state
    at a time; running an application is one step.  [accepted], [runs] and
    [answers] are ghosts: the commands that got the mutex, the executions with
    their results, and the results the shells returned. *)

From S2P Require Import Prelude CLib AppContext HttpClient AppFs WasmMemory WasmHost WasmHeap WasmExec.
From Stdlib Require Import ZArith Lia.
From Stdlib Require Import Strings.Byte.
From stdpp Require Import base numbers list list_numbers strings gmap relations.

Module WasmService.
Import WasmExec.

(** What [exec_request] has of a command; the argument count is the length. *)
Record request := Request { rq_shell : nat; rq_path : cstr; rq_argv : list cstr }.

(** Where a shell is in [cmd_iwasm_exec]. *)
Inductive shell_pc :=
| Prompt
| Locking (r : request)
| Filling (r : request)
| Resetting (r : request)
| Giving (r : request)
| Taking (r : request)
| Reading (r : request)
| Unlocking (r : request) (ret : Z).

(** Where the thread is in its loop. *)
Inductive thread_pc := TTake | TInit | TRun | TStore (ret : Z) | TGive.

Section service.
Context {M : AppMemory} {F : AppFs} {K : KernelHeap} {L : HttpLimits} {P : UrlParser} {N : NetStack}.
Context {H : SharedHeap} {W : Wamr}.

(** What is on the stack of the thread. *)
Variable garbage : App.webos_app_context.

Record service := Service {
  world : iwasm;
  exec_lock : option nat;
  exec_request_ready : nat;
  exec_request_done : nat;
  exec_request : request;
  exec_result : Z;
  thread_env_ready : bool;
  thread : thread_pc;
  shells : gmap nat shell_pc;
  accepted : list (nat * request);
  runs : list (request * Z);
  answers : list ((nat * request) * Z);
  refused : list (nat * Z);
}.

Definition pc (i : nat) (s : service) : shell_pc := default Prompt (shells s !! i).

(** The moves of a shell, of the thread, and of the semaphores. *)
Definition goto (i : nat) (p : shell_pc) (s : service) : service :=
  Service (world s) (exec_lock s) (exec_request_ready s) (exec_request_done s) (exec_request s) (exec_result s) (thread_env_ready s)
    (thread s) (<[i := p]> (shells s)) (accepted s) (runs s) (answers s) (refused s).
Definition thread_goto (t : thread_pc) (s : service) : service :=
  Service (world s) (exec_lock s) (exec_request_ready s) (exec_request_done s) (exec_request s) (exec_result s) (thread_env_ready s)
    t (shells s) (accepted s) (runs s) (answers s) (refused s).
Definition set_lock (o : option nat) (s : service) : service :=
  Service (world s) o (exec_request_ready s) (exec_request_done s) (exec_request s) (exec_result s) (thread_env_ready s)
    (thread s) (shells s) (accepted s) (runs s) (answers s) (refused s).
Definition set_sems (ready done : nat) (s : service) : service :=
  Service (world s) (exec_lock s) ready done (exec_request s) (exec_result s) (thread_env_ready s)
    (thread s) (shells s) (accepted s) (runs s) (answers s) (refused s).
Definition set_request (r : request) (s : service) : service :=
  Service (world s) (exec_lock s) (exec_request_ready s) (exec_request_done s) r (exec_result s) (thread_env_ready s)
    (thread s) (shells s) (accepted s) (runs s) (answers s) (refused s).
Definition set_result (z : Z) (s : service) : service :=
  Service (world s) (exec_lock s) (exec_request_ready s) (exec_request_done s) (exec_request s) z (thread_env_ready s)
    (thread s) (shells s) (accepted s) (runs s) (answers s) (refused s).
Definition set_world (w : iwasm) (env : bool) (s : service) : service :=
  Service w (exec_lock s) (exec_request_ready s) (exec_request_done s) (exec_request s) (exec_result s) env
    (thread s) (shells s) (accepted s) (runs s) (answers s) (refused s).
Definition note (a : list (nat * request)) (r : list (request * Z)) (w : list ((nat * request) * Z)) (x : list (nat * Z))
    (s : service) : service :=
  Service (world s) (exec_lock s) (exec_request_ready s) (exec_request_done s) (exec_request s) (exec_result s) (thread_env_ready s)
    (thread s) (shells s) (accepted s ++ a) (runs s ++ r) (answers s ++ w) (refused s ++ x).

(** [k_sem_give] of a semaphore with the limit 1. *)
Definition sem_give (n : nat) : nat := 1 `min` S n.

(** [k_sem_reset] also lets the waiting threads go on; nothing looks at the result
    of [k_sem_take]. *)
Definition released_by_reset (p : shell_pc) : shell_pc :=
  match p with Taking r => Reading r | _ => p end.
Definition reset_done (s : service) : service :=
  let s := set_sems (exec_request_ready s) 0 s in
  Service (world s) (exec_lock s) (exec_request_ready s) (exec_request_done s) (exec_request s) (exec_result s) (thread_env_ready s)
    (thread s) (released_by_reset <$> shells s) (accepted s) (runs s) (answers s) (refused s).

(** The command as it is typed: its words, the first of which is "exec". *)
Definition cmd_iwasm_exec (i : nat) (argv : list cstr) (s : service) : option service :=
  match pc i s with
  | Prompt =>
      Some (match argv with
            | _ :: file :: args => goto i (Locking (Request i file (file :: args))) s
            | _ => note [] [] [] [(i, (- EINVAL)%Z)] s
            end)
  | _ => None
  end.

(** The next step of a shell that is in the command; [None] while it waits.  The
    mutex is not taken twice by one shell ([locking_not_owner]). *)
Definition shell_step (i : nat) (s : service) : option service :=
  match pc i s with
  | Prompt => None
  | Locking r =>
      Some (match exec_lock s with
            | None => note [(i, r)] [] [] [] (set_lock (Some i) (goto i (Filling r) s))
            | Some _ => note [] [] [] [(i, (- EBUSY)%Z)] (goto i Prompt s)
            end)
  | Filling r => Some (set_request r (goto i (Resetting r) s))
  | Resetting r => Some (goto i (Giving r) (reset_done s))
  | Giving r => Some (set_sems (sem_give (exec_request_ready s)) (exec_request_done s) (goto i (Taking r) s))
  | Taking r =>
      match exec_request_done s with
      | O => None
      | S n => Some (set_sems (exec_request_ready s) n (goto i (Reading r) s))
      end
  | Reading r => Some (goto i (Unlocking r (exec_result s)) s)
  | Unlocking r ret => Some (note [] [] [((i, r), ret)] [] (set_lock None (goto i Prompt s)))
  end.

(** The next step of [iwasm_exec_thread]. *)
Definition thread_step (s : service) : option service :=
  match thread s with
  | TTake =>
      match exec_request_ready s with
      | O => None
      | S n => Some (set_sems n (exec_request_done s) (thread_goto TInit s))
      end
  | TInit =>
      Some (thread_goto TRun
        (if thread_env_ready s then s
         else let '(ok, r) := wasm_runtime_init_thread_env (runtime (world s)) in set_world (set_runtime r [] (world s)) ok s))
  | TRun =>
      let r := exec_request s in
      let '(ret, w) :=
        if thread_env_ready s
        then iwasm_exec_file (rq_shell r) (rq_path r) (rq_argv r) garbage (world s)
        else ((- EIO)%Z, world s) in
      Some (note [] [(r, ret)] [] [] (thread_goto (TStore ret) (set_world w (thread_env_ready s) s)))
  | TStore ret => Some (set_result ret (thread_goto TGive s))
  | TGive => Some (set_sems (exec_request_ready s) (sem_give (exec_request_done s)) (thread_goto TTake s))
  end.

(** ** Executions *)

Inductive actor := Command (i : nat) (argv : list cstr) | Shell (i : nat) | Thread.

Definition act (a : actor) (s : service) : option service :=
  match a with
  | Command i argv => cmd_iwasm_exec i argv s
  | Shell i => shell_step i s
  | Thread => thread_step s
  end.

Definition step (s s' : service) : Prop := exists a, act a s = Some s'.

(** The state after the kernel has started, with the runtime in any state. *)
Definition boot (w : iwasm) : service :=
  Service w None 0 0 (Request 0 [] []) 0 false TTake ∅ [] [] [] [].

Definition reachable (s : service) : Prop := exists w, rtc step (boot w) s.

(** The steps of a list of actors, in turn. *)
Fixpoint schedule (l : list actor) (s : service) : option service :=
  match l with
  | [] => Some s
  | a :: l => match act a s with Some s => schedule l s | None => None end
  end.
End service.
End WasmService.
