(* ===== verification/WasmServiceSpec.v ===== *)
(** * The execution thread runs every command once

    Theorems about WasmService.v, for every interleaving of any number of shells
    with the thread: a command that gets the mutex is run exactly once and its
    shell returns the result of its own run; and a command that has the mutex
    always moves on, so that the service never stalls. *)

From S2P Require Import Prelude CLib AppContext HttpClient AppFs WasmMemory WasmHost WasmHeap WasmExec WasmService.
From Stdlib Require Import ZArith Lia.
From Stdlib Require Import Strings.Byte.
From stdpp Require Import base numbers list list_numbers strings gmap relations option.

Module WasmServiceSpec.
Import WasmExec WasmService.

Section service.
Context {M : AppMemory} {F : AppFs} {K : KernelHeap} {L : HttpLimits} {P : UrlParser} {N : NetStack}.
Context {H : SharedHeap} {W : Wamr}.
Variable garbage : App.webos_app_context.
Implicit Type s : service.

(** ** The phases of the hand-over

    [phase s c z]: the command that has the mutex is [c], and [z] is the result of
    its run, if it has been run. *)
Inductive phase : service -> option (nat * request) -> option Z -> Prop :=
| phase_free s :
    exec_lock s = None -> exec_request_ready s = 0 -> exec_request_done s = 0 -> thread s = TTake -> phase s None None
| phase_prepare s i r :
    exec_lock s = Some i -> pc i s = Filling r \/ pc i s = Resetting r -> (pc i s = Resetting r -> exec_request s = r) ->
    exec_request_ready s = 0 -> exec_request_done s = 0 -> thread s = TTake -> phase s (Some (i, r)) None
| phase_give s i r :
    exec_lock s = Some i -> pc i s = Giving r -> exec_request s = r ->
    exec_request_ready s = 0 -> exec_request_done s = 0 -> thread s = TTake -> phase s (Some (i, r)) None
| phase_requested s i r :
    exec_lock s = Some i -> pc i s = Taking r -> exec_request s = r ->
    exec_request_ready s = 1 -> exec_request_done s = 0 -> thread s = TTake -> phase s (Some (i, r)) None
| phase_starting s i r :
    exec_lock s = Some i -> pc i s = Taking r -> exec_request s = r ->
    exec_request_ready s = 0 -> exec_request_done s = 0 -> thread s = TInit \/ thread s = TRun -> phase s (Some (i, r)) None
| phase_ran s i r z :
    exec_lock s = Some i -> pc i s = Taking r ->
    exec_request_ready s = 0 -> exec_request_done s = 0 -> thread s = TStore z \/ (thread s = TGive /\ exec_result s = z) ->
    phase s (Some (i, r)) (Some z)
| phase_finished s i r z :
    exec_lock s = Some i -> pc i s = Taking r -> exec_result s = z ->
    exec_request_ready s = 0 -> exec_request_done s = 1 -> thread s = TTake -> phase s (Some (i, r)) (Some z)
| phase_reading s i r z :
    exec_lock s = Some i -> pc i s = Reading r -> exec_result s = z ->
    exec_request_ready s = 0 -> exec_request_done s = 0 -> thread s = TTake -> phase s (Some (i, r)) (Some z)
| phase_unlocking s i r z :
    exec_lock s = Some i -> pc i s = Unlocking r z ->
    exec_request_ready s = 0 -> exec_request_done s = 0 -> thread s = TTake -> phase s (Some (i, r)) (Some z).

(** The shells without the mutex are at the prompt or about to take it. *)
Definition outside (p : shell_pc) : Prop := match p with Prompt | Locking _ => True | _ => False end.

(** The run of a command that was answered. *)
Definition run_of (a : (nat * request) * Z) : request * Z := (a.1.2, a.2).

(** The run of the command in the mutex. *)
Definition run_in (c : option (nat * request)) (z : option Z) : list (request * Z) :=
  match c, z with Some x, Some y => [(x.2, y)] | _, _ => [] end.

(** The invariant: the ghosts agree with the phase. *)
Record inv (s : service) (c : option (nat * request)) (z : option Z) : Prop := {
  inv_phase : phase s c z;
  inv_others : forall i, exec_lock s <> Some i -> outside (pc i s);
  inv_accepted : accepted s = (fst <$> answers s) ++ option_list c;
  inv_runs : runs s = (run_of <$> answers s) ++ run_in c z;
}.

Definition consistent (s : service) : Prop := exists c z, inv s c z.

Lemma pc_goto i p s j : pc j (goto i p s) = if decide (i = j) then p else pc j s.
Proof. unfold pc, goto. cbn. destruct (decide (i = j)) as [->|]; [by rewrite lookup_insert_eq|by rewrite lookup_insert_ne]. Qed.

Lemma boot_consistent w : consistent (boot w).
Proof. exists None, None. split; try done. by apply phase_free. Qed.

(** The mutex is not taken twice by one shell. *)
Lemma locking_not_owner s i r : consistent s -> pc i s = Locking r -> exec_lock s <> Some i.
Proof. intros (c & z & [Hp _ _ _]) Hi Hl. destruct Hp; destruct_or?; congruence. Qed.

(** A phase depends on the shared state and on the shell with the mutex. *)
Lemma phase_same s s' c z :
  exec_lock s' = exec_lock s -> (forall i, exec_lock s = Some i -> pc i s' = pc i s) ->
  exec_request_ready s' = exec_request_ready s -> exec_request_done s' = exec_request_done s ->
  exec_request s' = exec_request s -> exec_result s' = exec_result s -> thread s' = thread s ->
  phase s c z -> phase s' c z.
Proof.
  intros Hl Hpc H1 H2 H3 H4 H5 Hp. destruct Hp as [s E|s i r E|s i r E|s i r E|s i r E|s i r z E|s i r z E|s i r z E|s i r z E].
  1: apply phase_free; congruence.
  all: specialize (Hpc i E); rewrite <- ?Hl, <- ?Hpc, <- ?H1, <- ?H2, <- ?H3, <- ?H4, <- ?H5 in *.
  - by apply phase_prepare.
  - by apply phase_give.
  - by apply phase_requested.
  - by apply phase_starting.
  - by apply phase_ran.
  - by apply phase_finished.
  - by apply phase_reading.
  - by apply phase_unlocking.
Qed.

(** A step of a shell without the mutex, between the prompt and the mutex. *)
Lemma outside_consistent s i p x :
  exec_lock s <> Some i -> outside p -> consistent s -> consistent (note [] [] [] x (goto i p s)).
Proof.
  intros Hi Hout (c & z & [Hp Ho Ha Hr]). exists c, z. split; cbn; rewrite ?app_nil_r; [|intros j Hj; change (outside (pc j (goto i p s)))|done..].
  - eapply phase_same; [..|exact Hp]; try done. intros j Hj. change (pc j (goto i p s) = pc j s). rewrite pc_goto, decide_False; [done|congruence].
  - rewrite pc_goto. case_decide; [done|by apply Ho].
Qed.

Lemma command_consistent i argv s s' : consistent s -> cmd_iwasm_exec i argv s = Some s' -> consistent s'.
Proof.
  intros Hs. unfold cmd_iwasm_exec. destruct (pc i s) eqn:Ei; try done. intros [= <-].
  assert (exec_lock s <> Some i) as Hi by (destruct Hs as (c & z & [Hp _ _ _]); intros Hl; destruct Hp; destruct_or?; congruence).
  assert (forall x, consistent (note [] [] [] x s)) as Hno.
  { intros x. destruct Hs as (c & z & [Hp Ho Ha Hr]). exists c, z. split; cbn; rewrite ?app_nil_r; [|done..]. by eapply phase_same; [..|exact Hp]. }
  destruct argv as [|? [|file args]]; [apply Hno..|].
  destruct (outside_consistent s i (Locking (Request i file (file :: args))) [] Hi I Hs) as (c & z & [Hp Ho Ha Hr]).
  exists c, z. split; [by eapply phase_same; [..|exact Hp]|exact Ho| |]; cbn in *; by rewrite ?app_nil_r in *.
Qed.
(** ** Steps *)

(** What a step of the shell [i] does to the others. *)
Lemma others_goto i p s (Q : nat -> Prop) :
  (forall j, Q j -> j <> i) -> (forall j, Q j -> outside (pc j s)) -> forall j, Q j -> outside (pc j (goto i p s)).
Proof. intros Hne Ho j Hj. rewrite pc_goto, decide_False; [by apply Ho|]. intros ->. by apply (Hne j). Qed.

Lemma pc_reset i s : pc i (reset_done s) = released_by_reset (pc i s).
Proof. unfold pc, reset_done. cbn. rewrite lookup_fmap. by destruct (shells s !! i). Qed.

(** Taking the mutex. *)
Lemma lock_consistent i r s :
  consistent s -> pc i s = Locking r -> exec_lock s = None ->
  consistent (note [(i, r)] [] [] [] (set_lock (Some i) (goto i (Filling r) s))).
Proof.
  intros (c & z & [Hp Ho Ha Hr]) Hi Hl. destruct Hp; try congruence. exists (Some (i, r)), None. split.
  - pose proof (pc_goto i (Filling r) s i) as Hpc. rewrite decide_True in Hpc by done.
    change (pc i (note [(i, r)] [] [] [] (set_lock (Some i) (goto i (Filling r) s))) = Filling r) in Hpc.
    apply phase_prepare; try done; [by left|]. rewrite Hpc. done.
  - intros j Hj. apply (others_goto i (Filling r) s (fun j => j <> i)); [done| |cbn in Hj; congruence].
    intros k _. apply Ho. by rewrite Hl.
  - cbn. by rewrite app_nil_r, Ha, app_nil_r.
  - cbn. by rewrite !app_nil_r, Hr, app_nil_r.
Qed.

(** A step of the shell with the mutex that keeps it. *)
Lemma holder_inv s s' i c z c' z' :
  inv s c z -> exec_lock s = Some i -> exec_lock s' = Some i -> (forall j, j <> i -> outside (pc j s) -> outside (pc j s')) ->
  phase s' c' z' -> accepted s' = accepted s -> runs s' = runs s -> answers s' = answers s ->
  c' = c -> run_in c' z' = run_in c z -> inv s' c' z'.
Proof.
  intros [Hp Ho Ha Hr] Hl Hl' Hother Hp' E1 E2 E3 -> E4. split; [done| | |].
  - intros j Hj. rewrite Hl' in Hj. apply Hother; [congruence|]. apply Ho. rewrite Hl. congruence.
  - by rewrite E1, E3.
  - by rewrite E2, E3, E4.
Qed.

(** How far the command with the mutex is from the end. *)
Definition remaining (s : service) : nat :=
  match exec_lock s with
  | None => 0
  | Some i =>
      match pc i s with
      | Filling _ => 11 | Resetting _ => 10 | Giving _ => 9
      | Taking _ =>
          if decide (exec_request_ready s = 1) then 8
          else match thread s with TInit => 7 | TRun => 6 | TStore _ => 5 | TGive => 4 | TTake => 3 end
      | Reading _ => 2 | Unlocking _ _ => 1 | _ => 0
      end
  end.

(** What a step of the holder [i] or of the thread leads to: the next state on the
    way, or the answer. *)
Definition advances (i : nat) (s s' : service) : Prop :=
  S (remaining s') = remaining s
  /\ ((exec_lock s' = Some i /\ answers s' = answers s) \/ (exec_lock s' = None /\ exists r z, answers s' = answers s ++ [((i, r), z)])).

Ltac holder_pc := rewrite ?pc_goto, ?decide_True by done.

Lemma goto_others i p s j : j <> i -> outside (pc j s) -> outside (pc j (goto i p s)).
Proof. intros Hj Ho. by rewrite pc_goto, decide_False by done. Qed.

Lemma holder_step i s s' :
  consistent s -> exec_lock s = Some i -> shell_step i s = Some s' -> consistent s' /\ advances i s s'.
Proof.
  intros (c & z & Hinv) Hl. pose proof Hinv as [Hp Ho Ha Hr]. unfold shell_step, advances, remaining.
  destruct Hp as [s E|s j r E E1 E2 E3 E4 E5|s j r E E1 E2 E3 E4 E5|s j r E E1 E2 E3 E4 E5|s j r E E1 E2 E3 E4 E5
    |s j r z E E1 E3 E4 E5|s j r z E E1 E2 E3 E4 E5|s j r z E E1 E2 E3 E4 E5|s j r z E E1 E3 E4 E5];
    [congruence|assert (j = i) as -> by congruence..]; rewrite E.
  - destruct E1 as [E1|E1]; rewrite E1; intros [= <-]; cbn [exec_lock set_request goto reset_done set_sems]; rewrite E.
    + change (pc i (set_request r (goto i (Resetting r) s))) with (pc i (goto i (Resetting r) s)). holder_pc.
      split; [|split; [done|by left]]. exists (Some (i, r)), None. eapply (holder_inv s); try done; [apply goto_others|].
      apply phase_prepare; try done. right. change (pc i (goto i (Resetting r) s) = Resetting r). by holder_pc.
    + holder_pc. split; [|split; [done|by left]]. exists (Some (i, r)), None. eapply (holder_inv s); try done.
      * intros j Hj Hoj. rewrite pc_goto, decide_False, pc_reset by done. by destruct (pc j s).
      * apply phase_give; try done; [by holder_pc|]. cbn. by apply E2.
  - rewrite E1. intros [= <-]. cbn [exec_lock set_sems goto]. rewrite E.
    change (pc i (set_sems ?a ?b (goto i ?p s))) with (pc i (goto i p s)). cbn [exec_request_ready set_sems]. rewrite E3. holder_pc.
    split; [|split; [done|by left]]. exists (Some (i, r)), None. eapply (holder_inv s); try done; [apply goto_others|].
    apply phase_requested; try done. change (pc i (goto i (Taking r) s) = Taking r). by holder_pc.
  - by rewrite E1, E4.
  - by rewrite E1, E4.
  - by rewrite E1, E4.
  - rewrite E1, E4. intros [= <-]. cbn [exec_lock set_sems goto]. rewrite E.
    change (pc i (set_sems ?a ?b (goto i ?p s))) with (pc i (goto i p s)). rewrite E3, E5. holder_pc.
    split; [|split; [done|by left]]. exists (Some (i, r)), (Some z). eapply (holder_inv s); try done; [apply goto_others|].
    apply phase_reading; try done. change (pc i (goto i (Reading r) s) = Reading r). by holder_pc.
  - rewrite E1, E2. intros [= <-]. cbn [exec_lock goto]. rewrite E. holder_pc.
    split; [|split; [done|by left]]. exists (Some (i, r)), (Some z). eapply (holder_inv s); try done; [apply goto_others|].
    apply phase_unlocking; try done. by holder_pc.
  - rewrite E1. intros [= <-]. split; [|split; [done|right]; split; [done|]; by exists r, z]. exists None, None. split.
    + by apply phase_free.
    + intros j _. change (outside (pc j (goto i Prompt s))). rewrite pc_goto. case_decide; [done|]. apply Ho. congruence.
    + cbn. by rewrite fmap_app, !app_nil_r, Ha.
    + cbn. by rewrite fmap_app, !app_nil_r, Hr.
Qed.
(** A step of the thread leaves the shells and the mutex alone. *)
Lemma thread_frame s s' :
  thread_step garbage s = Some s' -> shells s' = shells s /\ exec_lock s' = exec_lock s /\ answers s' = answers s /\ accepted s' = accepted s.
Proof.
  unfold thread_step. destruct (thread s).
  - destruct (exec_request_ready s); [done|]. by intros [= <-].
  - intros [= <-]. destruct (thread_env_ready s); [done|]. by destruct (wasm_runtime_init_thread_env _).
  - destruct (if thread_env_ready s then _ else _) as [ret w]. intros [= <-]. cbn. by rewrite !app_nil_r.
  - by intros [= <-].
  - by intros [= <-].
Qed.

Lemma thread_inv s s' c z z' :
  inv s c z -> thread_step garbage s = Some s' -> phase s' c z' -> runs s' = runs s ++ drop (length (run_in c z)) (run_in c z') ->
  run_in c z' = run_in c z \/ z = None -> inv s' c z'.
Proof.
  intros [Hp Ho Ha Hr] Hs Hp' E Hz. destruct (thread_frame s s' Hs) as (E1 & E2 & E3 & E4). split; [done| | |].
  - intros j Hj. unfold pc. rewrite E1. apply Ho. congruence.
  - by rewrite E4, E3.
  - rewrite E, E3, Hr. destruct Hz as [Hz| ->].
    + by rewrite Hz, drop_all, app_nil_r.
    + destruct c as [x|]; cbn; by rewrite app_nil_r.
Qed.

Lemma thread_advances s s' :
  consistent s -> thread_step garbage s = Some s' -> consistent s' /\ exists i, exec_lock s = Some i /\ advances i s s'.
Proof.
  intros (c & z & Hinv) Hs. pose proof (thread_frame s s' Hs) as (F1 & F2 & F3 & _).
  assert (forall i, pc i s' = pc i s) as Hpc by (intros i; unfold pc; by rewrite F1).
  pose proof Hinv as [Hp _ _ _]. pose proof Hs as Hs'. unfold thread_step in Hs'. unfold advances, remaining.
  destruct Hp as [s E E1 E2 E3|s i r E E1 E2 E3 E4 E5|s i r E E1 E2 E3 E4 E5|s i r E E1 E2 E3 E4 E5|s i r E E1 E2 E3 E4 E5
    |s i r z E E1 E3 E4 E5|s i r z E E1 E2 E3 E4 E5|s i r z E E1 E2 E3 E4 E5|s i r z E E1 E3 E4 E5].
  1: by rewrite E3, E1 in Hs'.
  all: rewrite F2, F3, E, Hpc; try by (rewrite E5, ?E3, ?E4 in Hs'; done).
  - rewrite E5, E3 in Hs'. injection Hs' as <-. split; [|exists i; split; [done|]; rewrite E1, E3; by split; [|left]].
    exists (Some (i, r)), None. eapply (thread_inv _ _ _ None); [exact Hinv|exact Hs| |by cbn; rewrite app_nil_r|by left].
    apply phase_starting; try done. by left.
  - destruct E5 as [E5|E5]; rewrite E5 in Hs'.
    + assert (exec_request s' = r /\ exec_request_ready s' = 0 /\ exec_request_done s' = 0 /\ thread s' = TRun /\ runs s' = runs s)
        as (G1 & G2 & G3 & G4 & G5).
      { injection Hs' as <-. destruct (thread_env_ready s); [done|]. by destruct (wasm_runtime_init_thread_env _). }
      split; [|exists i; split; [done|]; rewrite E1, E3, E5, G2, G4; by split; [|left]].
      exists (Some (i, r)), None. eapply (thread_inv _ _ _ None); [exact Hinv|exact Hs| |by rewrite G5; cbn; rewrite app_nil_r|by left].
      apply phase_starting; try done; [congruence|by rewrite Hpc|by right].
    + destruct (if thread_env_ready s then _ else _) as [ret w]. injection Hs' as <-.
      split; [|exists i; split; [done|]; rewrite E1, E5; cbn; rewrite ?E3; by split; [|left]].
      exists (Some (i, r)), (Some ret). eapply (thread_inv _ _ _ None); [exact Hinv|exact Hs| |cbn; by rewrite E2|by right].
      apply phase_ran; try done. by left.
  - destruct E5 as [E5|[E5 E6]]; rewrite E5 in Hs'; injection Hs' as <-; (split; [|exists i; split; [done|]; rewrite E1, E3, E5; cbn; rewrite ?E3; by split; [|left]]).
    + exists (Some (i, r)), (Some z). eapply (thread_inv _ _ _ (Some z)); [exact Hinv|exact Hs| |by cbn; rewrite app_nil_r|by left].
      apply phase_ran; try done. right. by split.
    + exists (Some (i, r)), (Some z). eapply (thread_inv _ _ _ (Some z)); [exact Hinv|exact Hs| |by cbn; rewrite app_nil_r|by left].
      apply phase_finished; try done.
Qed.

(** A shell without the mutex. *)
Lemma outsider_step i s s' :
  consistent s -> exec_lock s <> Some i -> shell_step i s = Some s' ->
  consistent s' /\ forall j, exec_lock s = Some j -> remaining s' = remaining s /\ exec_lock s' = Some j /\ answers s' = answers s.
Proof.
  intros Hs Hi. unfold shell_step. destruct (pc i s) as [|r|r|r|r|r|r|r z] eqn:Ei; try done.
  2-7: destruct Hs as (c & z' & [_ Ho _ _]); specialize (Ho i Hi); by rewrite Ei in Ho.
  destruct (exec_lock s) as [k|] eqn:El; intros [= <-].
  - split; [apply outside_consistent; [congruence|done|done]|]. intros j [= <-]. cbn. rewrite app_nil_r. split; [|done].
    unfold remaining. cbn. rewrite El. change (pc k (note ?a ?b ?c ?d (goto i Prompt s))) with (pc k (goto i Prompt s)).
    rewrite pc_goto, decide_False by congruence. done.
  - split; [by apply lock_consistent|done].
Qed.

Lemma command_frame i argv s s' :
  consistent s -> cmd_iwasm_exec i argv s = Some s' ->
  forall j, exec_lock s = Some j -> remaining s' = remaining s /\ exec_lock s' = Some j /\ answers s' = answers s.
Proof.
  intros (c & z & [Hp _ _ _]). unfold cmd_iwasm_exec. destruct (pc i s) eqn:Ei; try done. intros [= <-] j Hj.
  assert (i <> j) as Hij by (intros ->; destruct Hp; destruct_or?; congruence).
  destruct argv as [|? [|file args]]; cbn; rewrite ?app_nil_r; [done..|]. split; [|done].
  unfold remaining. cbn. rewrite Hj, pc_goto, decide_False; done.
Qed.

Lemma act_consistent a s s' : consistent s -> act garbage a s = Some s' -> consistent s'.
Proof.
  intros Hs. destruct a as [i argv|i|]; cbn [act].
  - by apply command_consistent.
  - intros Ha. destruct (decide (exec_lock s = Some i)); [by eapply holder_step|by eapply outsider_step].
  - intros Ha. by eapply thread_advances.
Qed.

Lemma reachable_consistent s : reachable garbage s -> consistent s.
Proof.
  intros (w & Hw). apply (rtc_ind_r consistent (boot w)) in Hw; [done|apply boot_consistent|].
  intros x y _ (a & Ha) Hx. by eapply act_consistent.
Qed.

(** C10: however the shells and the thread take turns, every command that got the
    mutex is run exactly once, in the order in which they got it, and the result
    its shell returns is the result of its own run: the commands answered so far
    are the ones that were accepted and run, up to the one in progress, which has
    at most been run. *)
Theorem commands_run_once s :
  reachable garbage s ->
  exists c z, accepted s = (fst <$> answers s) ++ option_list c
    /\ runs s = (run_of <$> answers s) ++ run_in c z
    /\ (is_Some c <-> is_Some (exec_lock s)) /\ (thread s <> TTake -> is_Some c).
Proof.
  intros Hs. destruct (reachable_consistent s Hs) as (c & z & [Hp _ Ha Hr]). exists c, z. split_and!; [done|done| |].
  - destruct Hp as [ | | | | | | | | ]; split; intros [? ?]; eauto; congruence.
  - destruct Hp; eauto. congruence.
Qed.

(** The steps that bring the command of [i] forward. *)
Definition working (i : nat) (a : actor) : bool :=
  match a with Thread => true | Shell j => bool_decide (j = i) | Command _ _ => false end.

(** One of the two can always go on. *)
Lemma holder_progress s i :
  consistent s -> exec_lock s = Some i -> exists a s', working i a = true /\ act garbage a s = Some s'.
Proof.
  intros (c & z & [Hp _ _ _]) Hl.
  assert (forall s', shell_step i s = Some s' -> exists a s', working i a = true /\ act garbage a s = Some s') as Hsh.
  { intros s' E. exists (Shell i), s'. split; [by apply bool_decide_true|done]. }
  assert (forall s', thread_step garbage s = Some s' -> exists a s', working i a = true /\ act garbage a s = Some s') as Hth.
  { intros s' E. by exists Thread, s'. }
  unfold shell_step, thread_step in *.
  destruct Hp as [s E|s j r E E1|s j r E E1|s j r E E1 E2 E3 E4 E5|s j r E E1 E2 E3 E4 E5
    |s j r z E E1 E3 E4 E5|s j r z E E1 E2 E3 E4 E5|s j r z E E1|s j r z E E1]; [congruence|assert (j = i) as -> by congruence..].
  - destruct E1 as [E1|E1]; rewrite E1 in Hsh; by eapply Hsh.
  - rewrite E1 in Hsh. by eapply Hsh.
  - rewrite E5, E3 in Hth. by eapply Hth.
  - destruct E5 as [E5|E5]; rewrite E5 in Hth; [by eapply Hth|].
    destruct (if thread_env_ready s then _ else _) as [ret w]. by eapply Hth.
  - destruct E5 as [E5|[E5 _]]; rewrite E5 in Hth; by eapply Hth.
  - rewrite E1, E4 in Hsh. by eapply Hsh.
  - rewrite E1 in Hsh. by eapply Hsh.
  - rewrite E1 in Hsh. by eapply Hsh.
Qed.

Lemma remaining_bound s : remaining s <= 11.
Proof. unfold remaining. repeat case_match; lia. Qed.

(** A step while the mutex is held. *)
Lemma act_held a i s s' :
  consistent s -> exec_lock s = Some i -> act garbage a s = Some s' ->
  if working i a then advances i s s' else remaining s' = remaining s /\ exec_lock s' = Some i /\ answers s' = answers s.
Proof.
  intros Hs Hl Ha. destruct a as [j argv|j|]; cbn [working act] in *.
  - by eapply command_frame.
  - case_bool_decide as Hj; [subst; by eapply holder_step|]. eapply outsider_step; [done| |done|done]; rewrite Hl; by intros [= ->].
  - destruct (thread_advances s s' Hs Ha) as (_ & j & Hj & Hadv). by assert (j = i) as -> by congruence.
Qed.

Lemma schedule_answers l i : forall s s',
  consistent s -> exec_lock s = Some i -> schedule garbage l s = Some s' -> remaining s <= length (filter (working i) l) ->
  exists l1 l2 s1 r z, l = l1 ++ l2 /\ schedule garbage l1 s = Some s1 /\ exec_lock s1 = None /\ answers s1 = answers s ++ [((i, r), z)].
Proof.
  induction l as [|a l IH]; intros s s' Hs Hl Hsched Hc.
  { exfalso. destruct Hs as (c & z & [Hp _ _ _]). cbn in Hc. unfold remaining in Hc. rewrite Hl in Hc.
    destruct Hp; simplify_eq; destruct_or?; repeat case_match; try congruence; lia. }
  cbn [schedule] in Hsched. destruct (act garbage a s) as [s0|] eqn:Ea; [|done].
  pose proof (act_consistent a s s0 Hs Ea) as Hs0. pose proof (act_held a i s s0 Hs Hl Ea) as Hstep.
  assert (forall l1 s1, schedule garbage l1 s0 = Some s1 -> schedule garbage (a :: l1) s = Some s1) as Hcons
    by (intros l1 s1 E; cbn; by rewrite Ea).
  rewrite filter_cons in Hc. destruct (working i a) eqn:Ew.
  - destruct Hstep as [Hr [[Hl0 He]|(Hl0 & r & z & He)]].
    + rewrite decide_True in Hc by done. cbn [length] in Hc. destruct (IH s0 s' Hs0 Hl0 Hsched ltac:(lia)) as (l1 & l2 & s1 & r & z & -> & E1 & E2 & E3).
      exists (a :: l1), l2, s1, r, z. split; [done|]. split; [by apply Hcons|]. by rewrite E3, He.
    + exists [a], l, s0, r, z. split; [done|]. split; [by apply Hcons|]. done.
  - destruct Hstep as (Hr & Hl0 & He). rewrite decide_False in Hc by (by intros []). rewrite <- Hr in Hc.
    destruct (IH s0 s' Hs0 Hl0 Hsched Hc) as (l1 & l2 & s1 & r & z & -> & E1 & E2 & E3).
    exists (a :: l1), l2, s1, r, z. split; [done|]. split; [by apply Hcons|]. by rewrite E3, He.
Qed.

(** C15: the service never stalls: while a shell has the mutex, it or the thread
    can go on, and once the two have gone on eleven times together - whatever the
    other shells did in between, more commands included - the shell has returned
    its answer and released the mutex. *)
Theorem commands_complete s i :
  reachable garbage s -> exec_lock s = Some i ->
  (exists a s', working i a = true /\ act garbage a s = Some s')
  /\ forall l s', schedule garbage l s = Some s' -> 11 <= length (filter (working i) l) ->
       exists l1 l2 s1 r z, l = l1 ++ l2 /\ schedule garbage l1 s = Some s1 /\ exec_lock s1 = None
         /\ answers s1 = answers s ++ [((i, r), z)].
Proof.
  intros Hs Hl. apply reachable_consistent in Hs. split; [by apply holder_progress|]. intros l s' Hsched Hc.
  apply (schedule_answers l i s s'); [done..|]. pose proof (remaining_bound s). lia.
Qed.
End service.
End WasmServiceSpec.
