(* ===== verification/WasmDemo.v ===== *)
(** * An application, run

    Instances of everything WebAssembly applications work on - linear memory, files
    in memory, the network of HttpClientSpec.v, a kernel heap, the shared heap of
    SharedHeapDemo.v and a runtime whose modules are scripts -, a few complete
    executions evaluated on them, and the theorems about applications applied to
    them. *)

From S2P Require Import Prelude CLib AppContext HttpClient HttpClientSpec AppFs WasmMemory WasmHost WasmHostSpec WasmHeap SharedHeapDemo WasmExec WasmExecSpec WasmService WasmServiceSpec.
From Stdlib Require Import ZArith Lia.
From Stdlib Require Import Strings.Byte.
From stdpp Require Import base numbers list list_numbers strings gmap relations.

Module WasmDemo.
Import WasmHost WasmHostSpec.

#[global] Existing Instance HttpClientSpec.demo_parser.
#[global] Existing Instance HttpClientSpec.demo_net.

#[global, program] Instance demo_limits : HttpLimits := {|
  WASM_HTTP_MAX_URL_LEN := 512; WASM_HTTP_MAX_HEADERS_LEN := 1024; WASM_HTTP_MAX_REQUEST_BODY := 4096;
  WASM_HTTP_MAX_RESPONSE_BODY := 16384; WASM_HTTP_MAX_TIMEOUT_MS := 30000 |}.
Next Obligation. lia. Qed.

#[global] Instance demo_kheap : KernelHeap := {|
  kheap := Z; k_malloc n k := (Some k, (k + n + 1)%Z); k_free _ k := k |}.

(** ** The host functions *)

(** A URL, headers, room for ten bytes of an answer, and the structure. *)
Definition demo_memory : mem :=
  LinearMemory.Linear 1000 (HttpClientSpec.demo_url ++ HttpClientSpec.demo_headers ++ replicate 10 "."%byte ++ put_le32 20 ++ replicate 16 x00).

Definition demo_files : appfs :=
  MemFs.Mem [cs "/STORAGE:"; cs "/STORAGE:/apps"] {[cs "/STORAGE:/apps/a.wasm" := cs "wasm"; cs "/config" := cs "secret"]} 64.

Definition demo_host : host :=
  Host demo_memory (Some WasmExecSpec.development) demo_files 5000%Z HttpClientSpec.demo_client 0 [].

Definition demo_args : http_args := {|
  method := 0; url := 1000; url_len := 14; headers := 1014; headers_len := 8; request_body := 0; request_body_len := 0;
  response_body := 1022; response_capacity := 10; response := 1032; response_size := 20; timeout_ms := 0 |}.

Example demo_request_runs :
  let '(ret, h) := host_web_http_request demo_args demo_host in
  (ret, load 1022 10 (memory h), get_le32 (load 1040 4 (memory h)), length (events h)) = (0%Z, cs "helloworld", 10%Z, 5).
Proof. vm_compute. reflexivity. Qed.

(** An application that reads what it may not, then writes and reads its own. *)
Definition demo_app : behaviour :=
  Calls demo_memory 1 (WebosRead (Some (cs "/config")) 1022 6) (fun r1 m =>
  Calls m 2 (WebosWrite (Some (cs "/STORAGE:/apps/x")) 1000 5) (fun r2 m =>
  Calls m 3 (WebosRead (Some (cs "/STORAGE:/apps/x")) 1022 6) (fun r3 m =>
  Calls m 4 (WebosLog 3 1022 5) (fun _ _ => Finish (bool_decide (r1 = WEBOS_DENIED /\ r2 = 5 /\ r3 = 5)%Z))))).

Lemma demo_app_ok : calls_ok demo_app.
Proof. repeat (constructor; [cbn; lia|intros ? ?]). constructor. Qed.

Example demo_app_runs :
  (run demo_app demo_host).1 = true
  /\ last (events (run demo_app demo_host).2) = Some (EvLog LOG_INF (cs "shell-app") (cs "https")).
Proof. vm_compute. done. Qed.

Lemma application_confined_witness :
  (run demo_app demo_host).1 = true
  /\ exists l, events (run demo_app demo_host).2 = events demo_host ++ l
       /\ Forall (permitted (context demo_host)) l /\ released l.
Proof.
  split; [vm_compute; reflexivity|].
  exact (proj2 (application_confined demo_app demo_host _ _ demo_app_ok (surjective_pairing (run demo_app demo_host)))).
Defined.

Definition demo_answer : Z * host := host_web_http_request demo_args demo_host.

Lemma http_request_delivers_witness :
  demo_answer.1 = 0%Z /\ load 1022 10 (memory demo_answer.2) = cs "helloworld"
  /\ exists result, load 1022 10 (memory demo_answer.2)
       = match result with Some r => HttpClient.body r | None => load 1022 10 demo_memory end.
Proof.
  split; [vm_compute; reflexivity|]. split; [vm_compute; reflexivity|].
  edestruct (http_request_delivers demo_args demo_host demo_answer.1 demo_answer.2 5000%Z 5016%Z) as (result & c & _ & _ & _ & Hb & _).
  - vm_compute. repeat split; discriminate.
  - vm_compute. reflexivity.
  - vm_compute. reflexivity.
  - vm_compute. reflexivity.
  - apply (bool_decide_unpack _). vm_compute. exact I.
  - intros _. apply (bool_decide_unpack _). vm_compute. exact I.
  - vm_compute. reflexivity.
  - vm_compute. discriminate.
  - reflexivity.
  - intros n. eexists _, _. reflexivity.
  - exact (surjective_pairing demo_answer).
  - exists result. apply Hb. reflexivity.
Defined.

Lemma calls_store_in_ranges_witness :
  (0 <= 6)%Z /\ stores_within (WebosRead (Some (cs "/dev/gpio/4/value")) 1022 6) demo_host
    (native_symbols (WebosRead (Some (cs "/dev/gpio/4/value")) 1022 6) demo_host).2.
Proof. split; [lia|]. apply (calls_store_in_ranges (WebosRead (Some (cs "/dev/gpio/4/value")) 1022 6) demo_host). cbn. lia. Defined.
(** ** Executions *)

#[global] Instance mem_seek : AppFsSeek MemFs.mem.
Proof.
  split; cbn.
  - intros [p o b] o' f q c. cbn. case_match; [done|]. by intros [= -> ->].
  - intros [p o b] o' f q c. unfold MemFs.content. cbn. case_match; [done|]. intros [= -> ->] -> _. cbn. by rewrite Nat.add_0_r.
  - intros [p o b] o' f q. cbn. case_match; [done|]. by intros [= -> ->].
  - intros [p o b] n f q o' c. unfold MemFs.content. cbn. case_match; [done|]. by intros [= -> ->] -> _.
Qed.

(** A runtime that accepts whatever starts with "wasm"; the start function of a
    module tries to read a file, and main is [demo_app]. *)
#[global] Instance demo_wamr : Wamr := {|
  wamr := unit; wasm_module := list byte; wasm_instance := list byte;
  wasm_runtime_full_init r := (true, r);
  wasm_runtime_init_thread_env r := (true, r);
  wasm_runtime_load b r := (if starts_with (cs "wasm") b then Some b else None, r);
  wasm_runtime_get_custom_section m name r := Some [x00; x00; x01; x00];
  wasm_runtime_instantiate m stack heap r :=
    (Calls demo_memory 0 (WebosRead (Some (cs "/STORAGE:/apps/a.wasm")) 1022 6)
       (fun ret _ => Finish (bool_decide (ret = WEBOS_TOO_LARGE))), fun (ok : bool) _ => (if ok then Some m else None, r));
  wasm_application_execute_main i argv r := (demo_app, fun ok _ => (ok, r));
  wasm_runtime_deinstantiate i r := r;
  wasm_runtime_unload m r := r;
|}.

#[global] Instance demo_wamr_laws : WasmExecSpec.WamrLaws.
Proof.
  split; cbn; intros; [|apply demo_app_ok]. constructor; [cbn; lia|]. intros ? ?. constructor.
Qed.

Definition demo_runtime : wamr * smem := (tt, AllocatorDemo.empty).
Definition demo_world : WasmExec.iwasm := (WasmExec.iwasm_init (WasmExec.Iwasm false None demo_runtime demo_host [] [])).2.

Definition demo_exec (path : cstr) : Z * WasmExec.iwasm :=
  WasmExec.iwasm_exec_file 1 path [path] App.zero_context demo_world.

Example demo_exec_ok :
  (demo_exec (cs "/STORAGE:/apps/a.wasm")).1 = 0%Z /\ (demo_exec (cs "/config")).1 = (- EINVAL)%Z
  /\ (demo_exec (cs "/none")).1 = (- ENOENT)%Z
  /\ last (WasmExec.trace (demo_exec (cs "/config")).2) = Some (WasmExec.ExFree 4104).
Proof. vm_compute. done. Qed.

Lemma execution_releases_witness :
  exists l, WasmExec.trace (demo_exec (cs "/config")).2 = l
    /\ foldl WasmExecSpec.resources (Some WasmExecSpec.idle) l = Some WasmExecSpec.idle
    /\ WasmExec.ExFree 4104 ∈ l.
Proof.
  destruct (WasmExecSpec.execution_releases 1 (cs "/config") [cs "/config"] App.zero_context demo_world) as (l & Hl & Hr & _).
  exists l. split; [exact Hl|]. split; [exact Hr|].
  assert (l = WasmExec.trace (demo_exec (cs "/config")).2) as -> by exact (eq_sym Hl).
  vm_compute. right. right. right. right. left.
Defined.

Lemma execution_confined_witness :
  exists l, events (WasmExec.sys (demo_exec (cs "/STORAGE:/apps/a.wasm")).2) = l
    /\ Forall (permitted (Some WasmExecSpec.development)) l /\ released l.
Proof.
  destruct (WasmExecSpec.execution_confined 1 (cs "/STORAGE:/apps/a.wasm") [cs "/STORAGE:/apps/a.wasm"] App.zero_context demo_world)
    as (l & Hl & Hp & Hr & _).
  exists l. split; [exact Hl|]. split; [exact Hp|exact Hr].
Defined.

Lemma execution_runs_file_witness :
  exists p, WasmExec.trace (demo_exec (cs "/STORAGE:/apps/a.wasm")).2
    = [WasmExec.ExOpen (cs "/STORAGE:/apps/a.wasm") 0; WasmExec.ExMalloc 4 p; WasmExec.ExClose]
      ++ WasmExecSpec.ran (cs "wasm") [cs "/STORAGE:/apps/a.wasm"] ++ [WasmExec.ExFree p].
Proof.
  apply (WasmExecSpec.execution_runs_file 1 (cs "/STORAGE:/apps/a.wasm") [cs "/STORAGE:/apps/a.wasm"] App.zero_context demo_world
    (demo_exec (cs "/STORAGE:/apps/a.wasm")).2 (cs "wasm")).
  - vm_compute. reflexivity.
  - vm_compute. reflexivity.
  - vm_compute. reflexivity.
  - intros h f. reflexivity.
  - rewrite (surjective_pairing (WasmExec.iwasm_exec_file _ _ _ _ _)). f_equal.
Defined.

(** ** The service: two shells at once *)

Definition demo_argv : list cstr := [cs "exec"; cs "/STORAGE:/apps/a.wasm"].

(** The second shell comes while the first has the mutex. *)
Definition demo_turns : list WasmService.actor :=
  [WasmService.Command 1 demo_argv; WasmService.Shell 1; WasmService.Command 2 demo_argv].
Definition demo_rest : list WasmService.actor :=
  [WasmService.Shell 1; WasmService.Shell 1; WasmService.Shell 1; WasmService.Thread; WasmService.Shell 2; WasmService.Thread; WasmService.Thread;
   WasmService.Thread; WasmService.Thread; WasmService.Shell 1; WasmService.Shell 1; WasmService.Shell 1].

Definition demo_service (l : list WasmService.actor) : WasmService.service :=
  default (WasmService.boot demo_world) (WasmService.schedule App.zero_context l (WasmService.boot demo_world)).

Example demo_service_answers :
  WasmService.answers (demo_service (demo_turns ++ demo_rest))
  = [((1, WasmService.Request 1 (cs "/STORAGE:/apps/a.wasm") [cs "/STORAGE:/apps/a.wasm"]), 0%Z)]
  /\ WasmService.refused (demo_service (demo_turns ++ demo_rest)) = [(2, (- EBUSY)%Z)].
Proof. vm_compute. done. Qed.

Lemma schedule_reachable l s w :
  WasmService.schedule App.zero_context l (WasmService.boot w) = Some s -> WasmService.reachable App.zero_context s.
Proof.
  intros E. exists w. revert E. generalize (WasmService.boot w). induction l as [|a l IH]; intros s0; cbn; [intros [= ->]; apply rtc_refl|].
  destruct (WasmService.act App.zero_context a s0) as [s1|] eqn:Ea; [|done]. intros E. apply (rtc_l _ _ s1); [by exists a|by apply IH].
Qed.

(** Whether every step of a schedule is possible. *)
Definition possible (l : list WasmService.actor) : bool :=
  match WasmService.schedule App.zero_context l (WasmService.boot demo_world) with Some _ => true | None => false end.

Lemma possible_schedule l :
  possible l = true -> WasmService.schedule App.zero_context l (WasmService.boot demo_world) = Some (demo_service l).
Proof. unfold possible, demo_service. by destruct (WasmService.schedule _ l _). Qed.

Lemma demo_service_reachable l : possible l = true -> WasmService.reachable App.zero_context (demo_service l).
Proof. intros Hp. eapply schedule_reachable, possible_schedule, Hp. Qed.

Lemma schedule_app l1 l2 s :
  WasmService.schedule App.zero_context (l1 ++ l2) s = WasmService.schedule App.zero_context l1 s ≫= WasmService.schedule App.zero_context l2.
Proof. revert s. induction l1 as [|a l1 IH]; intros s; cbn; [done|]. destruct (WasmService.act App.zero_context a s); [apply IH|done]. Qed.

Lemma demo_service_app l1 l2 :
  possible l1 = true -> possible (l1 ++ l2) = true ->
  WasmService.schedule App.zero_context l2 (demo_service l1) = Some (demo_service (l1 ++ l2)).
Proof. intros H1%possible_schedule H2%possible_schedule. rewrite schedule_app, H1 in H2. exact H2. Qed.

Lemma commands_run_once_witness :
  exists c z, WasmService.runs (demo_service (demo_turns ++ demo_rest))
    = (WasmServiceSpec.run_of <$> WasmService.answers (demo_service (demo_turns ++ demo_rest))) ++ WasmServiceSpec.run_in c z.
Proof.
  destruct (WasmServiceSpec.commands_run_once App.zero_context (demo_service (demo_turns ++ demo_rest))) as (c & z & _ & Hr & _).
  - apply demo_service_reachable. vm_compute. reflexivity.
  - exists c, z. exact Hr.
Defined.
Lemma commands_complete_witness :
  exists l1 l2 s1 r z, demo_rest = l1 ++ l2 /\ WasmService.schedule App.zero_context l1 (demo_service demo_turns) = Some s1
    /\ WasmService.exec_lock s1 = None /\ WasmService.answers s1 = WasmService.answers (demo_service demo_turns) ++ [((1, r), z)].
Proof.
  assert (possible demo_turns = true) as H1 by (vm_compute; reflexivity).
  assert (possible (demo_turns ++ demo_rest) = true) as H2 by (vm_compute; reflexivity).
  assert (WasmService.exec_lock (demo_service demo_turns) = Some 1) as Hl by (vm_compute; reflexivity).
  apply (proj2 (WasmServiceSpec.commands_complete App.zero_context (demo_service demo_turns) 1 (demo_service_reachable demo_turns H1) Hl)
    demo_rest (demo_service (demo_turns ++ demo_rest)) (demo_service_app demo_turns demo_rest H1 H2)).
  vm_compute. lia.
Defined.
End WasmDemo.
