(* ===== verification/SampleDemo.v ===== *)
(** * The sample applications, run

    A board with two pins and two LED strips, whose hardware records what it is asked
    to do: the drivers register, the applications run, and the theorems of
    DeviceTree.v and SampleAppsSpec.v are applied to it. *)

From S2P Require Import Prelude CLib AppContext Devfs DevfsSpec DevfsState DevfsPart DevfsAccess Gpio RgbLed DeviceTree HttpClient HttpClientSpec AppFs DeviceFs WasmMemory WasmHost DeviceHost SampleApps AppLogic DriverSteps SampleAppsSpec WasmExecSpec WasmDemo.
From Stdlib Require Import ZArith Lia.
From Stdlib Require Import Strings.Byte.
From stdpp Require Import base numbers list list_numbers strings sets gmap.

Module SampleDemo.
Import WasmHost DeviceHost SampleApps AppLogic DeviceTree SampleAppsSpec.

#[local] Instance demo_config : DevfsConfig := {| WEBOS_DEVFS_MAX_PATH_LEN := 64; DIRENT_NAME_SIZE := 64 |}.

(** ** Hardware that records *)

Inductive pin_event := Configured (i : nat) (fl : gpio_flags) | SetTo (i : nat) (v : Z) | PinsWait (ms : Z).
Inductive strip_event := Shown (i : nat) (px : list led_rgb) | StripsWait (ms : Z).

#[local] Instance pins : GpioHw := {|
  ghw := list pin_event;
  gpio_is_ready_dt _ _ := true;
  gpio_pin_configure_dt h i fl := (0%Z, h ++ [Configured i fl]);
  gpio_pin_set_dt h i v := (0%Z, h ++ [SetTo i v]);
  gpio_malloc h := (true, h);
|}.

#[local] Instance strips : LedHw := {|
  lhw := list strip_event;
  RGBLED_MAX_PIXELS := 2;
  led_is_ready _ _ := true;
  led_strip_update_rgb h i px := (0%Z, h ++ [Shown i px]);
  led_malloc h := (true, h);
|}.

#[local, refine] Instance pins_work : GpioWorks pins := {| ghw_wait ms h := (h ++ [PinsWait ms] : ghw) |}.
Proof. all: cbn; intros; done. Defined.

#[local, refine] Instance strips_work : LedWorks strips := {| lhw_wait ms h := (h ++ [StripsWait ms] : lhw) |}.
Proof. all: cbn; intros; done. Defined.

Definition board_state : Type := Gpio.world * RgbLed.world.

#[local] Instance gpio_part : Part board_state Gpio.world := left_part Gpio.world RgbLed.world.
#[local] Instance led_part : Part board_state RgbLed.world := right_part Gpio.world RgbLed.world.
#[local] Instance board_clock : DeviceClock board_state := {| time_passes ms w := (gpio_passes ms w.1, led_passes ms w.2) |}.
#[local] Instance gpio_clock : PartClock board_state Gpio.world gpio_passes.
Proof. done. Qed.
#[local] Instance led_clock : PartClock board_state RgbLed.world led_passes.
Proof. done. Qed.

(** ** Start-up *)

Definition demo_pins : list Gpio.webos_gpio_dev := [Gpio.WEBOS_GPIO_INIT 4; Gpio.WEBOS_GPIO_INIT 2].
Definition demo_leds : list RgbLed.webos_rgbled_dev := [RgbLed.Led 47 1 (Rgb 0 0 0); RgbLed.Led 48 3 (Rgb 0 0 0)].
Definition demo_drivers : board_state := (Gpio.World demo_pins ∅ [], RgbLed.World demo_leds ∅ []).

Definition always (_ _ : nat) : bool := true.

Definition gpio_registered : Z * gmap loc (devfs_node board_state) := Gpio.webos_gpio_register_devfs always demo_pins Tree.initial_heap.
Definition led_registered : Z * gmap loc (devfs_node board_state) * board_state :=
  RgbLed.webos_rgbled_register_devfs always gpio_registered.2 demo_drivers.

Lemma demo_gpio_registered : Gpio.webos_gpio_register_devfs always demo_pins Tree.initial_heap = (0%Z, gpio_registered.2).
Proof. change (gpio_registered = (0%Z, gpio_registered.2)). rewrite (surjective_pairing gpio_registered) at 1. f_equal. Qed.

Lemma demo_led_registered :
  RgbLed.webos_rgbled_register_devfs always gpio_registered.2 demo_drivers = (0%Z, led_registered.1.2, led_registered.2).
Proof.
  change (led_registered = (0%Z, led_registered.1.2, led_registered.2)).
  rewrite (surjective_pairing led_registered) at 1. rewrite (surjective_pairing led_registered.1) at 1. do 2 f_equal.
Qed.

Lemma demo_pins_ok : pins_ok Gpio.pin demo_pins /\ pins_ok RgbLed.webos_pin demo_leds.
Proof. split; repeat (constructor; [cbn; lia|]); constructor. Qed.

Lemma devices_registered_witness :
  led_registered.1.1 = 0%Z /\ DevfsState.inv (Tree.Devfs led_registered.1.2 ∅ ∅)
  /\ DevfsAccess.device_at (Tree.Devfs led_registered.1.2 ∅ ∅) (gpio_path 2 Gpio.WEBOS_GPIO_VALUE) (lift_ops Gpio.webos_gpio_ops)
       (Gpio.def_addr 1 Gpio.WEBOS_GPIO_VALUE).
Proof.
  split; [vm_compute; reflexivity|].
  destruct (devices_registered ltac:(apply Nat.leb_le; reflexivity) always always demo_pins demo_drivers _ _ _ ltac:(apply demo_pins_ok) ltac:(apply demo_pins_ok)
    demo_gpio_registered demo_led_registered) as (Hi & _ & _ & _ & Hg & _).
  split; [exact Hi|]. exact (Hg 1 (Gpio.WEBOS_GPIO_INIT 2) Gpio.WEBOS_GPIO_VALUE eq_refl).
Defined.

#[local] Instance board_files : AppFs := DeviceFs.device_fs MemFs.mem.
#[local] Existing Instances DeviceFs.device_fs_mounted DeviceFs.device_fs_handles.

(** ** An instance with the literals of the programs *)

Definition demo_texts : list cstr := blink_texts ++ led_texts.

(** Where a text is among those before it, from an address on. *)
Fixpoint text_at (a : Z) (pool : list cstr) (t : cstr) : Z :=
  match pool with
  | [] => a
  | u :: pool' => if decide (u = t) then a else text_at (a + Z.of_nat (length u)) pool' t
  end.

Definition demo_lit : cstr -> Z := text_at 2000 demo_texts.
Definition demo_clock (n : nat) : Z := (1000 + Z.of_nat n)%Z.

(** The arrays of [main] are below the literals. *)
Definition demo_image : mem := LinearMemory.Linear 1000 (replicate 1000 x00 ++ concat demo_texts).
Definition demo_buf : Z := 1000.
Definition demo_rgb : Z := 1100.
Definition demo_off : Z := 1200.

Definition demo_fs : @appfs board_files :=
  DeviceFs.Board MemFs.mem (Tree.Devfs led_registered.1.2 ∅ ∅) led_registered.2 (MemFs.Mem [] ∅ 64).

Definition demo_board : host (F := board_files) :=
  Host demo_image (Some WasmExecSpec.development) demo_fs 5000%Z HttpClientSpec.demo_client 0 [].

Lemma array_inside a n (m : mem) : (0 <= n)%Z -> LinearMemory.inside a n m = true -> array a n m.
Proof. intros Hn Hi k j Hk Hj Hkj. cbn. unfold LinearMemory.inside in *. rewrite bool_decide_eq_true in *. lia. Qed.

Definition literal_b (t : cstr) : bool :=
  LinearMemory.inside (demo_lit t) (Z.of_nat (length t)) demo_image && bool_decide (load (demo_lit t) (length t) demo_image = t)
  && bool_decide (NUL ∉ t) && bool_decide (Z.of_nat (length t) <= App.max_io_bytes WasmExecSpec.development)%Z.

Lemma demo_literals ts : forallb literal_b ts = true -> literals demo_lit WasmExecSpec.development ts demo_image.
Proof.
  intros H. apply forallb_Forall in H. unfold literals. eapply Forall_impl; [exact H|]. intros t Ht. unfold literal_b in Ht.
  rewrite !andb_true_iff, !bool_decide_eq_true in Ht. destruct Ht as [[[H1 H2] H3] H4]. split; [apply array_inside; [lia|done]|done].
Qed.

Lemma demo_apart ts a n : forallb (fun t => bool_decide (a + n <= demo_lit t)%Z) ts = true -> apart demo_lit ts a n.
Proof.
  intros H. apply forallb_Forall in H. unfold apart. eapply Forall_impl; [exact H|]. intros t Ht. rewrite bool_decide_eq_true in Ht. by right.
Qed.

Lemma demo_board_started : started (C := board_clock) WasmExecSpec.development demo_pins demo_leds demo_board.
Proof.
  split; [|done|reflexivity|reflexivity|apply demo_pins_ok|done].
  exists always, always, demo_drivers, gpio_registered.2. split_and!; [apply demo_gpio_registered|apply demo_led_registered|done].
Qed.

(** ** blink *)

Definition demo_blink : behaviour := application (blink demo_lit demo_clock demo_buf [cs "blink"; cs "4"]) demo_image.

Lemma blink_drives_pin_witness :
  exists h', run demo_blink demo_board = (true, h') /\ messages (events h') = blink_log
  /\ Gpio.hw (part (board (C := board_clock) h')) = GpioSteps.drive 0 blink_ops ([] : list pin_event).
Proof.
  destruct (blink_drives_pin (C := board_clock) ltac:(done) ltac:(apply Nat.leb_le; reflexivity) demo_lit demo_clock WasmExecSpec.development demo_pins demo_leds 0
    (Gpio.WEBOS_GPIO_INIT 4) demo_buf [cs "blink"; cs "4"] demo_image demo_board demo_board_started) as (h' & E & _ & _ & Hb & Hm).
  - reflexivity.
  - reflexivity.
  - reflexivity.
  - intros []; vm_compute; reflexivity.
  - vm_compute. discriminate.
  - apply demo_literals. vm_compute. reflexivity.
  - apply array_inside; [lia|]. vm_compute. reflexivity.
  - apply demo_apart. vm_compute. reflexivity.
  - exists h'. split; [exact E|]. split; [exact Hm|]. rewrite Hb. reflexivity.
Defined.

(** What the controller records of it: twenty changes of the pin, the first and the
    last of them. *)
Example demo_blink_pin :
  let seen := Gpio.hw (part (board (C := board_clock) (run demo_blink demo_board).2)) in
  (length seen, take 7 seen) =
  (60, [Configured 0 GPIO_OUTPUT; Configured 0 GPIO_OUTPUT; SetTo 0 1; PinsWait 500; Configured 0 GPIO_OUTPUT; SetTo 0 0; PinsWait 500])
  /\ last seen = Some (SetTo 0 0).
Proof. vm_compute. done. Qed.

(** A pin that does not exist: the writes fail, and nothing happens. *)
Example demo_blink_other :
  let h := (run (application (blink demo_lit demo_clock demo_buf [cs "blink"; cs "5"]) demo_image) demo_board).2 in
  forallb (fun e => match e with PinsWait _ => true | _ => false end) (Gpio.hw (part (board (C := board_clock) h))) = true
  /\ last (messages (events h)) = Some (cs "blink: done").
Proof. vm_compute. done. Qed.

(** ** led_colors *)

Definition demo_led_app : behaviour := application (led_colors demo_lit demo_clock demo_rgb demo_off [cs "led_colors"; cs "2"]) demo_image.

Lemma led_colors_drives_strip_witness :
  exists h', run demo_led_app demo_board = (true, h') /\ messages (events h') = led_log 2
  /\ RgbLed.hw (part (board (C := board_clock) h'))
     = LedSteps.drive 1 (led_ops (RgbLed.Led 48 3 (Rgb 0 0 0)) 2) (RgbLed.hw (part (board (C := board_clock) demo_board))).
Proof.
  destruct (led_colors_drives_strip (C := board_clock) ltac:(done) ltac:(apply Nat.leb_le; reflexivity) demo_lit demo_clock
    WasmExecSpec.development demo_pins demo_leds 1 (RgbLed.Led 48 3 (Rgb 0 0 0)) demo_rgb demo_off [cs "led_colors"; cs "2"] demo_image
    demo_board demo_board_started) as (h' & E & _ & _ & Hb & Hm).
  - reflexivity.
  - reflexivity.
  - vm_compute. reflexivity.
  - vm_compute. discriminate.
  - apply array_inside; [lia|]. vm_compute. reflexivity.
  - apply demo_apart. vm_compute. reflexivity.
  - apply array_inside; [lia|]. vm_compute. reflexivity.
  - apply demo_apart. vm_compute. reflexivity.
  - apply demo_literals. vm_compute. reflexivity.
  - exists h'. split; [exact E|]. split; [exact Hm|]. rewrite Hb. reflexivity.
Defined.

(** The strip of pin 48 has two of its three pixels driven. *)
Example demo_led_strip :
  let seen := RgbLed.hw (part (board (C := board_clock) (run demo_led_app demo_board).2)) in
  (take 6 seen, last seen) =
  ([Shown 0 [Rgb 0 0 0]; Shown 1 [Rgb 0 0 0; Rgb 0 0 0]; Shown 1 [Rgb 0 0 0; Rgb 0 0 0]; StripsWait 500;
    Shown 1 [Rgb 0 0 255; Rgb 0 0 255]; StripsWait 500], Some (Shown 1 [Rgb 0 0 0; Rgb 0 0 0])).
Proof. vm_compute. done. Qed.
End SampleDemo.
