(* ===== verification/SudokuDemo.v ===== *)
(** * sudoku, run

    The program on the network of HttpClientSpec.v: its theorem applied, and what it
    prints evaluated. *)

From S2P Require Import Prelude CLib AppContext HttpClient HttpClientSpec AppFs WasmMemory WasmHost DeviceHost SampleApps AppLogic SudokuSpec WasmExecSpec WasmDemo SampleDemo.
From Stdlib Require Import ZArith Lia.
From Stdlib Require Import Strings.Byte.
From stdpp Require Import base numbers list list_numbers strings.

Module SudokuDemo.
Import WasmHost DeviceHost SampleApps AppLogic SudokuSpec.

(** The arrays are at 1000, 1300, 3400 and 3450, the texts behind them. *)
Definition sudoku_texts : list cstr :=
  [HttpClientSpec.demo_url; requesting; cs "usage: sudoku <api-key> [url]"; cs "sudoku: API key is too long"].
Definition sudoku_image : mem := LinearMemory.Linear 1000 (replicate 3000 x00 ++ concat sudoku_texts).
Definition sudoku_lit : cstr -> Z := SampleDemo.text_at 4000 sudoku_texts.
Definition sudoku_clock (n : nat) : Z := (1000 + Z.of_nat n)%Z.

Definition sudoku_host : host :=
  Host sudoku_image (Some WasmExecSpec.development) WasmDemo.demo_files 5000%Z HttpClientSpec.demo_client 0 [].

Definition sudoku_argv (key : string) : list cstr := [cs "sudoku"; cs key; HttpClientSpec.demo_url].

Definition sudoku_app (argv : list cstr) : behaviour :=
  application (sudoku sudoku_lit sudoku_clock 4000 1000 1300 3400 3450 argv) sudoku_image.

Definition printed_by (argv : list cstr) : list cstr := messages (events (run (sudoku_app argv) sudoku_host).2).

Example sudoku_answered : printed_by (sudoku_argv "key") = [requesting; cs "sudoku: HTTP 200"; cs "helloworld"].
Proof. vm_compute. reflexivity. Qed.

(** A key with a line break is another header, which the client refuses if it is one
    of its own; a key that is too long, and no key. *)
Example sudoku_refused :
  printed_by [cs "sudoku"; cs "key" ++ crlf ++ cs "Host: x"; HttpClientSpec.demo_url]
  = [requesting; error_text WEB_HTTP_ERR_INVALID].
Proof. vm_compute. reflexivity. Qed.

Example sudoku_no_request :
  printed_by (sudoku_argv (String.concat "" (repeat "0123456789" 25))) = [cs "sudoku: API key is too long"]
  /\ printed_by [cs "sudoku"] = [cs "usage: sudoku <api-key> [url]"].
Proof. vm_compute. split; reflexivity. Qed.

Lemma sudoku_prints_answer_witness :
  exists h0 ret h1 h' l, host_web_http_request (the_request sudoku_lit 4000 1000 1300 3400 (sudoku_argv "key") (cs "key")) h0 = (ret, h1)
    /\ run (sudoku_app (sudoku_argv "key")) sudoku_host = (true, h')
    /\ HttpClient.calls (http h') = l /\ asked ret l
    /\ messages (events h') = [requesting] ++ answer_log 1300 3400 ret (memory h1)
    /\ messages (events h') = [requesting; cs "sudoku: HTTP 200"; cs "helloworld"].
Proof.
  destruct (sudoku_prints_answer sudoku_lit sudoku_clock WasmExecSpec.development ltac:(vm_compute; discriminate) 4000 1000 1300 3400 3450
    (sudoku_argv "key") (cs "key") sudoku_image sudoku_host) as (h0 & ret & h1 & h' & l & _ & E & Hr & Hl & Ha & _ & Hm & _).
  - apply Forall_singleton. split_and!; [|vm_compute; reflexivity|apply (bool_decide_unpack _); vm_compute; exact I|vm_compute; discriminate].
    apply SampleDemo.array_inside; [lia|vm_compute; reflexivity].
  - apply Forall_singleton. right. vm_compute. discriminate.
  - reflexivity.
  - reflexivity.
  - vm_compute. reflexivity.
  - apply SampleDemo.array_inside; [lia|vm_compute; reflexivity].
  - apply SampleDemo.array_inside; [lia|vm_compute; reflexivity].
  - left. lia.
  - exists h0, ret, h1, h', l. split; [exact E|]. split; [exact Hr|]. split; [exact Hl|]. split; [exact Ha|]. split; [exact Hm|].
    rewrite <- sudoku_answered. unfold printed_by, sudoku_app. by rewrite Hr.
Defined.
End SudokuDemo.
