(* ===== verification/Wifi.v ===== *)
(** * Wi-Fi

    Model of src/app/src/hal/wifi/wifi.c: the event handlers, which run on the
    thread of the network management, and connect_wifi, which asks for a
    connection up to five times and waits for the handlers.

    The Wi-Fi stack is any [WifiStack]; it says which events the handlers get
    while connect_wifi runs, sleeps or waits.  The field [history] is a ghost. *)

From S2P Require Import Prelude CLib.
From Stdlib Require Import ZArith Lia.
From Stdlib Require Import Strings.Byte.
From stdpp Require Import base numbers list list_numbers strings.

(** The network to connect to, from Kconfig. *)
Class WifiConfig := { WIFI_SSID : cstr; WIFI_PSK : cstr }.

(** What the handlers look at: the status of a connection, if the event has one,
    and of every address of the interface whether it is from DHCP. *)
Inductive wifi_event :=
| NET_EVENT_WIFI_CONNECT_RESULT (status : option Z)
| NET_EVENT_WIFI_DISCONNECT_RESULT
| NET_EVENT_IPV4_ADDR_ADD (unicast_dhcp : list bool).

Record wifi_connect_req_params := Params { ssid : cstr; ssid_length : Z; psk : cstr; psk_length : Z }.

(** [meanwhile] has the events that arrive between two statements, and [pass] those
    that arrive while the caller sleeps or waits on a semaphore. *)
Class WifiStack := {
  wnet : Type;
  iface : Type;
  net_if_get_wifi_sta : wnet -> option iface;
  net_if_get_default : wnet -> option iface;
  net_request_wifi_connect : iface -> wifi_connect_req_params -> wnet -> Z * wnet;
  net_dhcpv4_start : iface -> wnet -> wnet;
  meanwhile : wnet -> list wifi_event * wnet;
  pass : Z -> wnet -> list wifi_event * wnet;
}.

Definition WIFI_RETRY_MAX : nat := 5.
Definition WIFI_RETRY_DELAY_MS : Z := 3000.
Definition WIFI_STARTUP_DELAY_MS : Z := 5000.
Definition WIFI_TIMEOUT_MS : Z := 30000.

Module Wifi.

Inductive wifi_op :=
| OpEvent (e : wifi_event)
| OpClear                             (* wifi_connect_ok = false *)
| OpConnect (ret : Z)
| OpSleep (ms : Z)
| OpDhcp.

Section wifi.
Context {C : WifiConfig} {S : WifiStack}.

(** The statics of wifi.c and the stack; [callbacks] tells whether the handlers
    are registered. *)
Record wifi := State {
  wifi_connected : nat;
  ipv4_ready : nat;
  wifi_connect_ok : bool;
  callbacks : bool;
  stack : wnet;
  history : list wifi_op;
}.

Definition set_stack (n : wnet) (l : list wifi_op) (s : wifi) : wifi :=
  State (wifi_connected s) (ipv4_ready s) (wifi_connect_ok s) (callbacks s) n (history s ++ l).
Definition set_connected (k : nat) (s : wifi) : wifi :=
  State k (ipv4_ready s) (wifi_connect_ok s) (callbacks s) (stack s) (history s).
Definition set_ipv4 (k : nat) (s : wifi) : wifi :=
  State (wifi_connected s) k (wifi_connect_ok s) (callbacks s) (stack s) (history s).
Definition set_ok (b : bool) (s : wifi) : wifi :=
  State (wifi_connected s) (ipv4_ready s) b (callbacks s) (stack s) (history s).
Definition set_callbacks (s : wifi) : wifi :=
  State (wifi_connected s) (ipv4_ready s) (wifi_connect_ok s) true (stack s) (history s).

(** [k_sem_give]: both semaphores have the limit 1. *)
Definition sem_give (k : nat) : nat := 1 `min` Datatypes.S k.

(** ** The event handlers *)

Definition wifi_event_handler (e : wifi_event) (s : wifi) : wifi :=
  match e with
  | NET_EVENT_WIFI_CONNECT_RESULT status =>
      match status with
      | Some z =>
          if decide (z <> 0%Z) then set_connected (sem_give (wifi_connected s)) s
          else set_connected (sem_give (wifi_connected s)) (set_ok true s)
      | None => set_connected (sem_give (wifi_connected s)) (set_ok true s)
      end
  | _ => s
  end.

Definition ipv4_event_handler (e : wifi_event) (s : wifi) : wifi :=
  match e with
  | NET_EVENT_IPV4_ADDR_ADD unicast => if existsb id unicast then set_ipv4 (sem_give (ipv4_ready s)) s else s
  | _ => s
  end.

(** An event reaches both handlers, once they are registered. *)
Definition deliver (s : wifi) (e : wifi_event) : wifi :=
  if callbacks s then set_stack (stack s) [OpEvent e] (ipv4_event_handler e (wifi_event_handler e s)) else s.

Definition deliver_all (l : list wifi_event) (s : wifi) : wifi := foldl deliver s l.

Definition between (s : wifi) : wifi := let '(l, n) := meanwhile (stack s) in deliver_all l (set_stack n [] s).

Definition k_sleep (ms : Z) (s : wifi) : wifi :=
  let '(l, n) := pass ms (stack s) in deliver_all l (set_stack n [OpSleep ms] s).

(** [k_sem_take] with a timeout: it waits only if the count is 0. *)
Definition sem_wait (get : wifi -> nat) (set : nat -> wifi -> wifi) (ms : Z) (s : wifi) : Z * wifi :=
  match get s with
  | Datatypes.S k => (0%Z, set k s)
  | O =>
      let '(l, n) := pass ms (stack s) in
      let s := deliver_all l (set_stack n [] s) in
      match get s with Datatypes.S k => (0%Z, set k s) | O => ((- EAGAIN)%Z, s) end
  end.

(** ** Connecting *)

(** The lengths are of type [uint8_t]. *)
Definition sta_config : wifi_connect_req_params :=
  Params WIFI_SSID (Z.of_nat (length WIFI_SSID) mod 256) WIFI_PSK (Z.of_nat (length WIFI_PSK) mod 256).

(** The loop that empties the semaphore, and the reset of the flag; events may come
    before, between and after. *)
Definition clear_result (s : wifi) : wifi :=
  let s := set_connected 0 (between s) in
  let s := between s in
  between (set_stack (stack s) [OpClear] (set_ok false s)).

Definition request_connect (i : iface) (s : wifi) : Z * wifi :=
  let '(ret, n) := net_request_wifi_connect i sta_config (stack s) in
  (ret, between (set_stack n [OpConnect ret] s)).

(** The rest of an attempt after a request that worked. *)
Definition await_result (s : wifi) : Z * wifi :=
  let '(ret, s) := sem_wait wifi_connected set_connected WIFI_TIMEOUT_MS s in
  (if decide (ret = 0%Z) then if wifi_connect_ok s then 0%Z else (- ECONNREFUSED)%Z else ret, s).

(** The loop, with the number of attempts that are left. *)
Fixpoint attempts (i : iface) (more : nat) (ret : Z) (s : wifi) : Z * wifi :=
  match more with
  | O => (ret, s)
  | Datatypes.S more =>
      let s := clear_result s in
      let '(ret, s) := request_connect i s in
      let '(ret, s) := if decide (ret <> 0%Z) then (ret, s) else await_result s in
      if decide (ret = 0%Z) then (0%Z, s)
      else attempts i more ret (if decide (0 < more) then k_sleep WIFI_RETRY_DELAY_MS s else s)
  end.

(** From the registration of the handlers on. *)
Definition connect_iface (i : iface) (s : wifi) : Z * wifi :=
  let s := k_sleep WIFI_STARTUP_DELAY_MS (set_callbacks s) in
  let '(ret, s) := attempts i WIFI_RETRY_MAX 0 s in
  if decide (ret <> 0%Z) then (ret, s)
  else
    let s := set_stack (net_dhcpv4_start i (stack s)) [OpDhcp] s in
    let '(_, s) := sem_wait ipv4_ready set_ipv4 WIFI_TIMEOUT_MS s in
    (0%Z, s).

Definition connect_wifi (s : wifi) : Z * wifi :=
  if decide (length WIFI_SSID = 0) then ((- ENOTSUP)%Z, s)
  else
    match (match net_if_get_wifi_sta (stack s) with Some i => Some i | None => net_if_get_default (stack s) end) with
    | None => ((- ENODEV)%Z, s)
    | Some i => connect_iface i s
    end.

(** ** What connect_wifi did *)

(** The history only grows. *)
Definition grows (s s' : wifi) (l : list wifi_op) : Prop := history s' = history s ++ l.

(** A list of events of the handlers. *)
Definition only_events (l : list wifi_op) : Prop := Forall (fun o => exists e, o = OpEvent e) l.

(** A connection was reported. *)
Definition succeeds (o : wifi_op) : Prop :=
  exists z, o = OpEvent (NET_EVENT_WIFI_CONNECT_RESULT z) /\ default 0%Z z = 0%Z.

Lemma handlers_history e s : history (ipv4_event_handler e (wifi_event_handler e s)) = history s.
Proof. destruct e as [[z|]| |u]; cbn; repeat case_match; done. Qed.

Lemma handlers_callbacks e s : callbacks (ipv4_event_handler e (wifi_event_handler e s)) = callbacks s.
Proof. destruct e as [[z|]| |u]; cbn; repeat case_match; done. Qed.

(** The flag is set only by an event that reports success. *)
Lemma handlers_ok e s :
  wifi_connect_ok (ipv4_event_handler e (wifi_event_handler e s)) = true -> wifi_connect_ok s = true \/ succeeds (OpEvent e).
Proof.
  destruct e as [[z|]| |u]; cbn; repeat case_match; cbn; intros Hok; try by left.
  - right. exists (Some z). split; [done|]. cbn. by apply dec_stable.
  - right. by exists None.
Qed.

(** What the events that are delivered do. *)
Lemma deliver_all_spec l s :
  exists h, grows s (deliver_all l s) h /\ only_events h /\ callbacks (deliver_all l s) = callbacks s
    /\ (wifi_connect_ok (deliver_all l s) = true -> wifi_connect_ok s = true \/ Exists succeeds h).
Proof.
  unfold grows, deliver_all. revert s. induction l as [|e l IH]; intros s; cbn [foldl].
  { exists []. rewrite app_nil_r. split_and!; [done|constructor|done|by left]. }
  destruct (IH (deliver s e)) as (h & H1 & H2 & H3 & H4). unfold deliver in H1, H3, H4 |- *. destruct (callbacks s) eqn:Ec.
  - exists (OpEvent e :: h). cbn [history set_stack] in H1. rewrite handlers_history in H1.
    split_and!; [by rewrite H1, <- app_assoc|constructor; [by exists e|done]|by rewrite H3; cbn; rewrite handlers_callbacks|].
    intros Hok. destruct (H4 Hok) as [Hs|Hs]; [|right; by right]. cbn in Hs. apply handlers_ok in Hs as [Hs|Hs]; [by left|right; by left].
  - exists h. rewrite Ec in H3. by split_and!.
Qed.

Lemma between_spec s :
  exists h, grows s (between s) h /\ only_events h /\ (wifi_connect_ok (between s) = true -> wifi_connect_ok s = true \/ Exists succeeds h).
Proof.
  unfold between. destruct (meanwhile (stack s)) as [l n]. destruct (deliver_all_spec l (set_stack n [] s)) as (h & H1 & H2 & _ & H4).
  exists h. split_and!; [|done|exact H4]. unfold grows in *. rewrite H1. cbn. by rewrite app_nil_r.
Qed.

Lemma sleep_spec ms s : exists h, grows s (k_sleep ms s) (OpSleep ms :: h) /\ only_events h.
Proof.
  unfold k_sleep. destruct (pass ms (stack s)) as [l n]. destruct (deliver_all_spec l (set_stack n [OpSleep ms] s)) as (h & H1 & H2 & _).
  exists h. split; [|done]. unfold grows in *. rewrite H1. cbn. by rewrite <- app_assoc.
Qed.

Lemma wait_spec get set ms s ret s' :
  (forall k s, history (set k s) = history s /\ wifi_connect_ok (set k s) = wifi_connect_ok s) ->
  sem_wait get set ms s = (ret, s') ->
  exists h, grows s s' h /\ only_events h /\ (wifi_connect_ok s' = true -> wifi_connect_ok s = true \/ Exists succeeds h).
Proof.
  intros Hset. unfold sem_wait, grows. destruct (get s) as [|k].
  2: { intros [= _ <-]. destruct (Hset k s) as [-> ->]. exists []. rewrite app_nil_r. split_and!; [done|constructor|by left]. }
  destruct (pass ms (stack s)) as [l n]. destruct (deliver_all_spec l (set_stack n [] s)) as (h & H1 & H2 & _ & H4).
  unfold grows in H1. cbn in H1. rewrite app_nil_r in H1.
  destruct (get _) as [|k]; intros [= _ <-]; [by exists h|]. destruct (Hset k (deliver_all l (set_stack n [] s))) as [-> ->]. by exists h.
Qed.

(** ** Attempts *)

Definition is_connect (o : wifi_op) : bool := match o with OpConnect _ => true | _ => false end.
Definition connects (l : list wifi_op) : nat := length (filter is_connect l).

Lemma connects_app a b : connects (a ++ b) = connects a + connects b.
Proof. unfold connects. by rewrite filter_app, length_app. Qed.

Lemma connects_cons o l : connects (o :: l) = (if is_connect o then 1 else 0) + connects l.
Proof. change (o :: l) with ([o] ++ l). rewrite connects_app. by destruct o. Qed.

(** Events are neither requests nor anything else this file does. *)
Lemma only_events_spec l :
  only_events l -> connects l = 0 /\ OpClear ∉ l /\ OpDhcp ∉ l.
Proof.
  intros Hl. split_and!; [|intros Hin..].
  - unfold connects. induction Hl as [|o l (e & ->) _ IH]; [done|]. rewrite filter_cons, decide_False by (by intros []). exact IH.
  - unfold only_events in Hl. rewrite Forall_forall in Hl. by destruct (Hl _ Hin).
  - unfold only_events in Hl. rewrite Forall_forall in Hl. by destruct (Hl _ Hin).
Qed.

(** The history of one attempt. *)
Definition attempt_of (r : Z) (a e : list wifi_op) : list wifi_op := a ++ OpClear :: e ++ [OpConnect r].

Lemma clear_spec s :
  exists a e, grows s (clear_result s) (a ++ OpClear :: e) /\ only_events a /\ only_events e
    /\ (wifi_connect_ok (clear_result s) = true -> Exists succeeds e).
Proof.
  unfold clear_result. destruct (between_spec s) as (h1 & H1 & O1 & _). set (s1 := set_connected 0 (between s)).
  destruct (between_spec s1) as (h2 & H2 & O2 & _). set (s2 := set_stack _ [OpClear] (set_ok false (between s1))).
  destruct (between_spec s2) as (h3 & H3 & O3 & K3). exists (h1 ++ h2), h3. unfold grows in *. split_and!.
  - rewrite H3. cbn. rewrite H2. cbn. rewrite H1. by rewrite <- !app_assoc.
  - by apply Forall_app.
  - done.
  - intros Hok. by destruct (K3 Hok).
Qed.

Lemma request_spec i s ret s' :
  request_connect i s = (ret, s') ->
  exists h, grows s s' (OpConnect ret :: h) /\ only_events h /\ (wifi_connect_ok s' = true -> wifi_connect_ok s = true \/ Exists succeeds h).
Proof.
  unfold request_connect. destruct (net_request_wifi_connect _ _ _) as [r n]. intros [= -> <-].
  destruct (between_spec (set_stack n [OpConnect ret] s)) as (h & H1 & H2 & H3). exists h. split_and!; [|done|exact H3].
  unfold grows in *. rewrite H1. cbn. by rewrite <- app_assoc.
Qed.

(** What is known of the history of some attempts that end with [ret]. *)
Definition tried (n : nat) (ret : Z) (l : list wifi_op) : Prop :=
  OpDhcp ∉ l /\ connects l <= n
  /\ (ret = 0%Z -> exists pre mid, l = pre ++ OpClear :: mid /\ OpClear ∉ mid /\ OpConnect 0 ∈ mid /\ Exists succeeds mid)
  /\ (ret <> 0%Z -> connects l = n).

(** One attempt. *)
Lemma attempt_spec i s r s1 :
  request_connect i (clear_result s) = (r, s1) ->
  exists l, grows s (if decide (r <> 0%Z) then (r, s1) else await_result s1).2 l
    /\ tried 1 (if decide (r <> 0%Z) then (r, s1) else await_result s1).1 l.
Proof.
  destruct (clear_spec s) as (a & e & H1 & Oa & Oe & K1). intros Hr.
  destruct (request_spec _ _ _ _ Hr) as (h & H2 & Oh & K2). unfold grows in *.
  destruct (only_events_spec _ Oa) as (Na & Ca & Da). destruct (only_events_spec _ Oe) as (Ne & Ce & De).
  destruct (only_events_spec _ Oh) as (Nh & Ch & Dh).
  destruct (decide (r <> 0%Z)) as [Hz|Hz]; cbn [fst snd].
  { exists (a ++ OpClear :: e ++ OpConnect r :: h). split; [by rewrite H2, H1, <- !app_assoc|].
    assert (connects (a ++ OpClear :: e ++ OpConnect r :: h) = 1) as Hc.
    { change (connects (a ++ [OpClear] ++ e ++ [OpConnect r] ++ h) = 1). rewrite !connects_app, Na, Ne, Nh. done. }
    split_and!; [|by rewrite Hc|done|done]. rewrite !elem_of_app, !elem_of_cons, !elem_of_app, !elem_of_cons. naive_solver. }
  apply dec_stable in Hz as ->. unfold await_result.
  destruct (sem_wait wifi_connected set_connected WIFI_TIMEOUT_MS s1) as [w s2] eqn:Ew.
  apply wait_spec in Ew as (g & H3 & Og & K3); [|by intros]. unfold grows in H3. cbn [fst snd].
  destruct (only_events_spec _ Og) as (Ng & Cg & Dg).
  exists (a ++ OpClear :: e ++ OpConnect 0 :: h ++ g). split; [by rewrite H3, H2, H1, <- !app_assoc|].
  assert (connects (a ++ OpClear :: e ++ OpConnect 0 :: h ++ g) = 1) as Hc.
  { change (connects (a ++ [OpClear] ++ e ++ [OpConnect 0] ++ h ++ g) = 1). by rewrite !connects_app, Na, Ne, Nh, Ng. }
  split_and!; [|by rewrite Hc| |done].
  - rewrite !elem_of_app, !elem_of_cons, !elem_of_app, !elem_of_cons, !elem_of_app. naive_solver.
  - intros Hret. exists a, (e ++ OpConnect 0 :: h ++ g). split_and!; [done| | |].
    + rewrite !elem_of_app, !elem_of_cons, !elem_of_app. naive_solver.
    + apply elem_of_app. right. by left.
    + assert (wifi_connect_ok s2 = true) as Hok by (destruct (decide (w = 0%Z)); [by destruct (wifi_connect_ok s2)|done]).
      rewrite Exists_app, Exists_cons, Exists_app. destruct (K3 Hok) as [Hs|Hs]; [|by right; right; right].
      destruct (K2 Hs) as [Hs'|Hs']; [left; by apply K1|by right; right; left].
Qed.

Lemma tried_more n r l l' ret k :
  tried 1 r l -> r <> 0%Z -> only_events l' -> tried n ret k -> tried (Datatypes.S n) ret (l ++ (OpSleep WIFI_RETRY_DELAY_MS :: l') ++ k)
  /\ tried (Datatypes.S n) ret (l ++ k).
Proof.
  intros (D1 & C1 & _ & E1) Hr Ho (D2 & C2 & S2 & E2). specialize (E1 Hr). destruct (only_events_spec _ Ho) as (No & Co & Do).
  assert (connects (OpSleep WIFI_RETRY_DELAY_MS :: l') = 0) as Ns by exact No.
  split; (split_and!; [rewrite ?elem_of_app, ?elem_of_cons; naive_solver|rewrite !connects_app; lia| |]).
  - intros Hz. destruct (S2 Hz) as (pre & mid & -> & Hm). exists (l ++ (OpSleep WIFI_RETRY_DELAY_MS :: l') ++ pre), mid.
    by rewrite <- !app_assoc.
  - intros Hz. rewrite !connects_app, Ns, (E2 Hz), E1. lia.
  - intros Hz. destruct (S2 Hz) as (pre & mid & -> & Hm). exists (l ++ pre), mid. by rewrite <- !app_assoc.
  - intros Hz. rewrite !connects_app, (E2 Hz), E1. lia.
Qed.

Lemma attempts_spec i n : forall ret s ret' s',
  (n = 0 -> ret <> 0%Z) -> attempts i n ret s = (ret', s') -> exists l, grows s s' l /\ tried n ret' l.
Proof.
  induction n as [|n IH]; intros ret s ret' s' Hn; cbn [attempts].
  { intros [= <- <-]. exists []. unfold grows. rewrite app_nil_r. split; [done|]. split_and!; [by apply not_elem_of_nil|done| |done].
    intros Hz. by apply Hn in Hz. }
  destruct (request_connect i (clear_result s)) as [r s1] eqn:Er. destruct (attempt_spec _ _ _ _ Er) as (l & Hl & Ht).
  destruct (if decide (r <> 0%Z) then (r, s1) else await_result s1) as [r2 s2]. cbn [fst snd] in Hl, Ht.
  destruct (decide (r2 = 0%Z)) as [->|Hz].
  { intros [= <- <-]. exists l. split; [done|]. destruct Ht as (D & Cn & Sn & _). split_and!; [done|lia|done|done]. }
  destruct (decide (0 < n)) as [Hp|Hp]; intros Ha.
  - destruct (sleep_spec WIFI_RETRY_DELAY_MS s2) as (h & Hh & Oh). apply IH in Ha as (k & Hk & Hk'); [|lia].
    destruct (tried_more n r2 l h ret' k Ht Hz Oh Hk') as [H _]. exists (l ++ (OpSleep WIFI_RETRY_DELAY_MS :: h) ++ k). split; [|done].
    unfold grows in *. by rewrite Hk, Hh, Hl, <- !app_assoc.
  - apply IH in Ha as (k & Hk & Hk'); [|done]. destruct (tried_more n r2 l [] ret' k Ht Hz ltac:(constructor) Hk') as [_ H].
    exists (l ++ k). split; [|done]. unfold grows in *. by rewrite Hk, Hl, <- !app_assoc.
Qed.

(** C36: connecting takes at most five requests and always returns; it returns 0
    only if, after the flag was cleared for the last attempt, that attempt's
    request worked and an event reported a connection, and exactly then it starts
    DHCP, after that; and when it returns an error of an attempt, it has made all
    five requests and not started DHCP. *)
Theorem connect_wifi_justified s ret s' :
  connect_wifi s = (ret, s') ->
  exists l, history s' = history s ++ l /\ connects l <= WIFI_RETRY_MAX
    /\ (ret = 0%Z -> exists pre mid post, l = pre ++ OpClear :: mid ++ OpDhcp :: post /\ OpClear ∉ mid /\ OpConnect 0 ∈ mid
          /\ Exists succeeds mid /\ OpDhcp ∉ pre ++ mid ++ post)
    /\ (ret <> 0%Z -> OpDhcp ∉ l /\ (l = [] \/ connects l = WIFI_RETRY_MAX)).
Proof.
  assert (forall z, z <> 0%Z -> exists l, history s = history s ++ l /\ connects l <= WIFI_RETRY_MAX
    /\ (z = 0%Z -> exists pre mid post, l = pre ++ OpClear :: mid ++ OpDhcp :: post /\ OpClear ∉ mid /\ OpConnect 0 ∈ mid
          /\ Exists succeeds mid /\ OpDhcp ∉ pre ++ mid ++ post)
    /\ (z <> 0%Z -> OpDhcp ∉ l /\ (l = [] \/ connects l = WIFI_RETRY_MAX))) as Hno.
  { intros z Hz. exists []. rewrite app_nil_r. split_and!; [done|vm_compute; lia|done|]. intros _. split; [by apply not_elem_of_nil|by left]. }
  unfold connect_wifi. destruct (decide _); [by intros [= <- <-]; apply Hno|].
  destruct (match net_if_get_wifi_sta (stack s) with Some _ => _ | None => _ end) as [i|]; [|by intros [= <- <-]; apply Hno].
  unfold connect_iface. destruct (sleep_spec WIFI_STARTUP_DELAY_MS (set_callbacks s)) as (h & Hh & Oh).
  destruct (attempts i WIFI_RETRY_MAX 0 _) as [r s1] eqn:Ea. apply attempts_spec in Ea as (l & Hl & D & Cn & Sn & En); [|done].
  unfold grows in *. cbn in Hh. destruct (only_events_spec _ Oh) as (No & _ & Do). change (connects h) with (connects (OpSleep WIFI_STARTUP_DELAY_MS :: h)) in No.
  assert (OpDhcp ∉ OpSleep WIFI_STARTUP_DELAY_MS :: h) as Do' by (rewrite elem_of_cons; naive_solver).
  destruct (decide (r <> 0%Z)) as [Hz|Hz].
  { intros [= <- <-]. exists ((OpSleep WIFI_STARTUP_DELAY_MS :: h) ++ l). split_and!; [by rewrite Hl, Hh, <- app_assoc| |done|].
    - rewrite connects_app, No. lia.
    - intros _. split; [rewrite elem_of_app; naive_solver|]. right. by rewrite connects_app, No, (En Hz). }
  apply dec_stable in Hz as ->. destruct (sem_wait ipv4_ready _ _ _) as [w s2] eqn:Ew.
  apply wait_spec in Ew as (g & Hg & Og & _); [|by intros]. destruct (only_events_spec _ Og) as (Ng & _ & Dg). intros [= <- <-].
  destruct (Sn eq_refl) as (pre & mid & -> & Hm1 & Hm2 & Hm3).
  exists ((OpSleep WIFI_STARTUP_DELAY_MS :: h ++ pre) ++ OpClear :: mid ++ OpDhcp :: g). split_and!.
  - unfold grows in Hg. rewrite Hg. cbn [history set_stack]. rewrite Hl, Hh. cbn. by rewrite <- !app_assoc.
  - rewrite connects_cons in No. rewrite connects_app, connects_cons in Cn.
    rewrite connects_app, connects_cons, connects_app, connects_cons, connects_app, connects_cons. cbn in *. lia.
  - intros _. eexists _, mid, g. split; [done|]. split_and!; [done..|].
    rewrite elem_of_app, elem_of_cons in D. rewrite !elem_of_app, !elem_of_cons, !elem_of_app in *. naive_solver.
  - done.
Qed.
End wifi.
End Wifi.

(** ** An execution

    A stack whose events are scripted: every wait and every gap between two
    statements takes the next list of events. *)

Module WifiDemo.
Import Wifi.

#[local] Instance demo_config : WifiConfig := {| WIFI_SSID := cs "home"; WIFI_PSK := cs "secret" |}.

Definition next (n : list (list wifi_event)) : list wifi_event * list (list wifi_event) :=
  match n with [] => ([], []) | l :: n => (l, n) end.

#[local] Instance demo_stack : WifiStack := {|
  wnet := list (list wifi_event); iface := unit;
  net_if_get_wifi_sta _ := None; net_if_get_default _ := Some tt;
  net_request_wifi_connect _ _ n := (0%Z, n); net_dhcpv4_start _ n := n;
  meanwhile := next; pass _ := next |}.

Definition demo_start (l : list (list wifi_event)) : wifi := State 0 0 false false (l : wnet) [].

(** The start-up delay, one attempt, and the address. *)
Definition demo_good : list (list wifi_event) :=
  [[]; []; []; []; []; [NET_EVENT_WIFI_CONNECT_RESULT (Some 0%Z)]; [NET_EVENT_IPV4_ADDR_ADD [false; true]]].

Example demo_connects :
  (connect_wifi (demo_start demo_good)).1 = 0%Z /\ connects (history (connect_wifi (demo_start demo_good)).2) = 1
  /\ (connect_wifi (demo_start [])).1 = (- EAGAIN)%Z /\ connects (history (connect_wifi (demo_start [])).2) = 5.
Proof. vm_compute. done. Qed.

(** The first attempt times out; its success arrives while the result of the
    second attempt is being cleared, and the second attempt counts as refused. *)
Example demo_late_success :
  (attempts tt 2 0 (set_callbacks (demo_start [[]; []; []; []; []; []; []; [NET_EVENT_WIFI_CONNECT_RESULT (Some 0%Z)]; []; []]))).1
  = (- ECONNREFUSED)%Z.
Proof. vm_compute. done. Qed.

Lemma connect_wifi_justified_witness :
  (connect_wifi (demo_start demo_good)).1 = 0%Z
  /\ exists l, history (connect_wifi (demo_start demo_good)).2 = l /\ connects l <= WIFI_RETRY_MAX
       /\ exists pre mid post, l = pre ++ OpClear :: mid ++ OpDhcp :: post /\ Exists succeeds mid.
Proof.
  split; [vm_compute; reflexivity|].
  destruct (connect_wifi_justified (demo_start demo_good) _ _ (surjective_pairing _)) as (l & Hl & Hc & Hs & _).
  exists l. split; [exact Hl|]. split; [exact Hc|]. destruct Hs as (pre & mid & post & E & _ & _ & Hm & _); [vm_compute; reflexivity|].
  exists pre, mid, post. split; [exact E|exact Hm].
Defined.
End WifiDemo.
