(* ===== verification/Startup.v ===== *)
(** * Start-up

    Model of src/app/src/main.c: the order in which the services are initialised,
    the health record, and the confirmation of the firmware image that makes the
    bootloader keep it; of devfs_register and devfs_unregister of
    src/lib/devfs/devfs.c; of webos_http_init of src/app/src/services/http/http.c;
    and of src/app/src/services/ssh/ssh.c.

    What main needs of a service is the class [Services]; Composed.v builds it from
    the models of the services.  The field [events] is a ghost. *)

From S2P Require Import Prelude CLib AppFs HttpServer.
From Stdlib Require Import ZArith Lia.
From Stdlib Require Import Strings.Byte.
From stdpp Require Import base numbers list list_numbers strings.

(** ** The registration of devfs with the file system *)

(** [fs_register] and [fs_mount] of devfs, and their inverses. *)
Class Vfs := {
  vfs : Type;
  fs_register : vfs -> Z * vfs;
  fs_unregister : vfs -> Z * vfs;
  fs_mount : vfs -> Z * vfs;
  fs_unmount : vfs -> Z * vfs;
}.

Module DevfsMount.
Section mount.
Context {V : Vfs}.

Definition devfs_register (s : vfs) : Z * vfs :=
  let '(ret, s) := fs_register s in
  if decide (ret <> 0%Z) then (ret, s)
  else
    let '(ret, s) := fs_mount s in
    if decide (ret <> 0%Z) then (ret, (fs_unregister s).2) else (0%Z, s).

Definition devfs_unregister (s : vfs) : Z * vfs :=
  let '(ret, s) := fs_unmount s in
  if decide (ret <> 0%Z) then (ret, s) else fs_unregister s.
End mount.
End DevfsMount.

(** ** SSH *)

(** The SSH library of Zephyr: the import of a host key, and the start of the
    server instance 0 on the port of Kconfig. *)
Class SshLib := {
  sshlib : Type;
  ssh_keygen_import : list byte -> sshlib -> Z * sshlib;
  ssh_server_instance : sshlib -> bool;
  ssh_server_start : sshlib -> Z * sshlib;
}.

Module Ssh.
Section ssh.
Context {F : AppFs} {L : SshLib}.

Definition KEY_BUF : nat := 2048.
Definition ssh_host_key_path : cstr := cs "/STORAGE:/config/ssh/ssh_host_rsa.der".

(** The result and, when something was read, the bytes of the buffer that were
    filled; [out_len] is their number. *)
Definition read_file_bin (path : cstr) (buf_len : nat) (f : appfs) : (Z * list byte) * appfs :=
  let '((ret, file), f) := fs_open FS_O_READ path f in
  if decide (ret <> 0%Z) then ((ret, []), f)
  else
    let '(((ret, d), file), f) := fs_read file buf_len f in
    let out := if decide (0 <= ret)%Z then d else [] in
    let '(close_ret, f) := fs_close file f in
    ((if decide (ret < 0)%Z then ret else close_ret, out), f).

Definition ssh_service_start (f : appfs) (s : sshlib) : appfs * sshlib :=
  let '((ret, key), f) := read_file_bin ssh_host_key_path KEY_BUF f in
  if decide (ret <> 0%Z) then (f, s)
  else if decide (length key = 0) then (f, s)
  else
    let '(ret, s) := ssh_keygen_import key s in
    if decide (ret <> 0%Z) then (f, s)
    else if negb (ssh_server_instance s) then (f, s)
    else (f, (ssh_server_start s).2).

(** The server is started only with a key that was read without an error from the
    key file, is not empty and was imported: any other outcome leaves the library
    as it was, or as the failed import left it. *)
Lemma ssh_started_with_key f s :
  (ssh_service_start f s).2 = s
  \/ exists key, (read_file_bin ssh_host_key_path KEY_BUF f).1 = (0%Z, key) /\ key <> []
       /\ ((ssh_service_start f s).2 = (ssh_keygen_import key s).2
           \/ ((ssh_keygen_import key s).1 = 0%Z /\ (ssh_service_start f s).2 = (ssh_server_start (ssh_keygen_import key s).2).2)).
Proof.
  unfold ssh_service_start. destruct (read_file_bin _ _ f) as [[ret key] f']. destruct (decide (ret <> 0%Z)) as [|Hr]; [by left|].
  apply dec_stable in Hr as ->. destruct (decide (length key = 0)) as [|Hk]; [by left|]. right. exists key.
  split; [done|]. split; [by intros ->|]. destruct (ssh_keygen_import key s) as [ret s'].
  destruct (decide (ret <> 0%Z)) as [|Hr]; [by left|]. apply dec_stable in Hr as ->.
  destruct (ssh_server_instance s'); cbn; [by right|by left].
Qed.
End ssh.
End Ssh.

(** ** The interface of main *)

(** What is in the build, from Kconfig. *)
Class BuildConfig := {
  CONFIG_WEBOS_ADB : bool;
  CONFIG_WEBOS_DEVFS : bool;
  CONFIG_WEBOS_GPIO : bool;
  CONFIG_WEBOS_RGBLED : bool;
  CONFIG_WEBOS_SSH : bool;
}.

(** The result of [mcuboot_swap_type] when a test image runs. *)
Definition BOOT_SWAP_TYPE_REVERT : Z := 4.

(** The initialisation of the services, each with its result, and the bootloader. *)
Class Services := {
  board : Type;
  adb_up : board -> Z * board;
  ota_up : board -> board;
  filesystem_up : board -> Z * board;
  devfs_up : board -> Z * board;
  gpio_up : board -> Z * board;
  led_up : board -> Z * board;
  http_client_up : board -> Z * board;
  iwasm_up : board -> Z * board;
  mcuboot_swap_type : board -> Z;
  boot_write_img_confirmed : board -> Z * board;
  wifi_up : board -> Z * board;
  ssh_up : board -> board;
  set_health : HttpServer.webos_health_status -> board -> board;
  http_up : board -> Z * board;
}.

Module Startup.

Inductive service := SAdb | SFilesystem | SDevfs | SGpio | SLed | SHttpClient | SIwasm | SWifi | SHttp.

#[global] Instance service_eq_dec : EqDecision service.
Proof. solve_decision. Defined.

Inductive startup_event :=
| EvInit (x : service) (ret : Z)
| EvConfirm (ret : Z)
| EvHealth (h : HttpServer.webos_health_status).

Section startup.
Context {B : BuildConfig} {S : Services}.

Record system := System { machine : board; events : list startup_event }.

Definition set_machine (m : board) (l : list startup_event) (s : system) : system := System m (events s ++ l).

(** A call of an initialisation function. *)
Definition init (x : service) (f : board -> Z * board) (s : system) : Z * system :=
  let '(ret, m) := f (machine s) in (ret, set_machine m [EvInit x ret] s).

(** A service that may not be in the build; its field of the zeroed record is 0. *)
Definition init_if (b : bool) (x : service) (f : board -> Z * board) (s : system) : Z * system :=
  if b then init x f s else (0%Z, s).

(** A driver, which needs devfs. *)
Definition init_driver (b : bool) (devfs : Z) (x : service) (f : board -> Z * board) (s : system) : Z * system :=
  if b then if decide (devfs = 0%Z) then init x f s else ((- ECANCELED)%Z, s) else (0%Z, s).

Definition local_services (s : system) : HttpServer.webos_health_status * system :=
  let '(filesystem, s) := init SFilesystem filesystem_up s in
  let '(devfs, s) := init_if CONFIG_WEBOS_DEVFS SDevfs devfs_up s in
  let '(gpio, s) := init_driver CONFIG_WEBOS_GPIO devfs SGpio gpio_up s in
  let '(led, s) := init_driver CONFIG_WEBOS_RGBLED devfs SLed led_up s in
  let '(ret, s) := init SHttpClient http_client_up s in
  let '(iwasm, s) := if decide (ret = 0%Z) then init SIwasm iwasm_up s else (ret, s) in
  (HttpServer.Health filesystem devfs gpio led iwasm 0, s).

Definition local_ok (h : HttpServer.webos_health_status) : bool :=
  bool_decide (HttpServer.filesystem h = 0 /\ HttpServer.devfs h = 0 /\ HttpServer.gpio h = 0 /\ HttpServer.led h = 0
    /\ HttpServer.iwasm h = 0)%Z.

Definition confirm_image (h : HttpServer.webos_health_status) (s : system) : system :=
  if local_ok h then
    if decide (mcuboot_swap_type (machine s) = BOOT_SWAP_TYPE_REVERT) then
      let '(ret, m) := boot_write_img_confirmed (machine s) in set_machine m [EvConfirm ret] s
    else s
  else s.

Definition main (s : system) : Z * system :=
  let '(_, s) := init_if CONFIG_WEBOS_ADB SAdb adb_up s in
  let s := set_machine (ota_up (machine s)) [] s in
  let '(health, s) := local_services s in
  let s := confirm_image health s in
  let '(wifi, s) := init SWifi wifi_up s in
  let health := HttpServer.Health (HttpServer.filesystem health) (HttpServer.devfs health) (HttpServer.gpio health)
                  (HttpServer.led health) (HttpServer.iwasm health) wifi in
  let s := if CONFIG_WEBOS_SSH then set_machine (ssh_up (machine s)) [] s else s in
  let s := set_machine (set_health health (machine s)) [EvHealth health] s in
  init SHttp http_up s.

(** ** The image is confirmed only on a healthy system *)

(** The local services in the build. *)
Definition local (x : service) : bool :=
  match x with
  | SFilesystem | SHttpClient | SIwasm => true
  | SDevfs => CONFIG_WEBOS_DEVFS
  | SGpio => CONFIG_WEBOS_GPIO
  | SLed => CONFIG_WEBOS_RGBLED
  | _ => false
  end.

(** A part of the start-up that adds [l]. *)
Definition adds (s s' : system) (l : list startup_event) : Prop := events s' = events s ++ l.

Lemma adds_functional s s' l k : adds s s' l -> adds s s' k -> l = k.
Proof. unfold adds. intros ->. apply app_inv_head. Qed.

(** Nothing but initialisations of the services in [xs]. *)
Definition inits_of (xs : list service) (l : list startup_event) : Prop := Forall (fun e => exists x r, e = EvInit x r /\ x ∈ xs) l.

Lemma init_adds x f s : adds s (init x f s).2 [EvInit x (init x f s).1].
Proof. unfold init, adds. by destruct (f (machine s)). Qed.

Lemma init_if_adds b x f s :
  exists l, adds s (init_if b x f s).2 l /\ inits_of [x] l /\ ((b = true -> EvInit x 0 ∈ l) <-> (init_if b x f s).1 = 0%Z).
Proof.
  unfold init_if. destruct b.
  - pose proof (init_adds x f s) as Ha. destruct (init x f s) as [r s']. exists [EvInit x r]. cbn [fst snd] in *.
    split_and!; [done|repeat constructor; exists x, r; split; [done|by left]|].
    rewrite list_elem_of_singleton. split; [|by intros ->]. intros Hz. by specialize (Hz eq_refl) as [= <-].
  - exists []. unfold adds. rewrite app_nil_r. split_and!; [done|constructor|by split].
Qed.

Lemma init_driver_adds b d x f s :
  exists l, adds s (init_driver b d x f s).2 l /\ inits_of [x] l
    /\ (d = 0%Z -> (b = true -> EvInit x 0 ∈ l) <-> (init_driver b d x f s).1 = 0%Z).
Proof.
  destruct (decide (d = 0%Z)) as [Hd|Hd].
  - destruct (init_if_adds b x f s) as (l & H1 & H2 & H3). exists l.
    assert (init_driver b d x f s = init_if b x f s) as -> by (unfold init_driver; by rewrite decide_True). done.
  - exists []. unfold init_driver, adds. rewrite decide_False by done. rewrite app_nil_r. split_and!; [by destruct b|constructor|done].
Qed.

Lemma inits_of_app xs ys a b : inits_of xs a -> inits_of ys b -> inits_of (xs ++ ys) (a ++ b).
Proof.
  intros Ha Hb. apply Forall_app. split; (eapply Forall_impl; [eassumption|]); intros e (x & r & -> & Hx); exists x, r;
    (split; [done|]); apply elem_of_app; tauto.
Qed.

(** Services of other parts do not occur. *)
Lemma inits_of_other xs l x r : inits_of xs l -> x ∉ xs -> EvInit x r ∉ l.
Proof. intros Hl Hx Hin. unfold inits_of in Hl. rewrite Forall_forall in Hl. by destruct (Hl _ Hin) as (y & z & [= <- <-] & Hy). Qed.

(** Where the initialisation of a service is, in a sequence of parts. *)
Lemma in_later xs x r a b : inits_of xs a -> bool_decide (x ∉ xs) = true -> EvInit x r ∈ a ++ b -> EvInit x r ∈ b.
Proof. intros Ha Hx%bool_decide_eq_true [Hin|Hin]%elem_of_app; [by destruct (inits_of_other _ _ _ _ Ha Hx Hin)|done]. Qed.

Lemma in_first xs x r a b : inits_of xs b -> bool_decide (x ∉ xs) = true -> EvInit x r ∈ a ++ b -> EvInit x r ∈ a.
Proof. intros Hb Hx%bool_decide_eq_true [Hin|Hin]%elem_of_app; [done|by destruct (inits_of_other _ _ _ _ Hb Hx Hin)]. Qed.

Ltac first_of I := eapply in_first; [exact I|reflexivity|].
Ltac later_than I := eapply in_later; [exact I|reflexivity|].

Definition LOCAL : list service := [SFilesystem] ++ [SDevfs] ++ [SGpio] ++ [SLed] ++ [SHttpClient] ++ [SIwasm].

(** The services are healthy exactly if each of them was initialised and returned
    0. *)
Lemma local_services_spec s :
  exists l, adds s (local_services s).2 l /\ inits_of LOCAL l
    /\ (local_ok (local_services s).1 = true <-> forall x, local x = true -> EvInit x 0 ∈ l).
Proof.
  unfold local_services. pose proof (init_adds SFilesystem filesystem_up s) as A1.
  destruct (init SFilesystem _ s) as [r1 s1]. cbn [fst snd] in A1.
  destruct (init_if_adds CONFIG_WEBOS_DEVFS SDevfs devfs_up s1) as (l2 & A2 & I2 & Z2).
  destruct (init_if _ SDevfs _ s1) as [r2 s2]. cbn [fst snd] in A2, Z2.
  destruct (init_driver_adds CONFIG_WEBOS_GPIO r2 SGpio gpio_up s2) as (l3 & A3 & I3 & Z3).
  destruct (init_driver _ r2 SGpio _ s2) as [r3 s3]. cbn [fst snd] in A3, Z3.
  destruct (init_driver_adds CONFIG_WEBOS_RGBLED r2 SLed led_up s3) as (l4 & A4 & I4 & Z4).
  destruct (init_driver _ r2 SLed _ s3) as [r4 s4]. cbn [fst snd] in A4, Z4.
  pose proof (init_adds SHttpClient http_client_up s4) as A5. destruct (init SHttpClient _ s4) as [r5 s5]. cbn [fst snd] in A5.
  assert (exists l6 r6 s6, (if decide (r5 = 0%Z) then init SIwasm iwasm_up s5 else (r5, s5)) = (r6, s6) /\ adds s5 s6 l6
    /\ inits_of [SIwasm] l6 /\ (r6 = 0%Z <-> r5 = 0%Z /\ EvInit SIwasm 0 ∈ l6)) as (l6 & r6 & s6 & -> & A6 & I6 & Z6).
  { destruct (decide (r5 = 0%Z)) as [->|Hz].
    - destruct (init_if_adds true SIwasm iwasm_up s5) as (l & H1 & H2 & H3). cbn [init_if] in *.
      destruct (init SIwasm iwasm_up s5) as [r6 s6]. exists l, r6, s6. cbn [fst snd] in *. split_and!; [done..|]. rewrite <- H3. naive_solver.
    - exists [], r5, s5. unfold adds. rewrite app_nil_r. split_and!; [done|done|constructor|naive_solver]. }
  assert (forall x r, inits_of [x] [EvInit x r]) as I1 by (intros x r; repeat constructor; exists x, r; split; [done|by left]).
  pose proof (inits_of_app _ _ _ _ (I1 SHttpClient r5) I6) as I56. pose proof (inits_of_app _ _ _ _ I4 I56) as I46.
  pose proof (inits_of_app _ _ _ _ I3 I46) as I36. pose proof (inits_of_app _ _ _ _ I2 I36) as I26.
  pose proof (inits_of_app _ _ _ _ (I1 SFilesystem r1) I26) as I16.
  exists ([EvInit SFilesystem r1] ++ l2 ++ l3 ++ l4 ++ [EvInit SHttpClient r5] ++ l6). split_and!.
  - unfold adds in *. cbn [snd]. by rewrite A6, A5, A4, A3, A2, A1, <- !app_assoc.
  - exact I16.
  - cbn [fst]. unfold local_ok. rewrite bool_decide_eq_true. cbn [HttpServer.filesystem HttpServer.devfs HttpServer.gpio HttpServer.led HttpServer.iwasm].
    split.
    + intros (E1 & E2 & E3 & E4 & E6). apply Z6 in E6 as [E5 E6]. subst r1 r5. intros x Hx. rewrite !elem_of_app.
      destruct x; try done; [by left; left|by right; left; apply Z2|by right; right; left; apply (Z3 E2)
        |by right; right; right; left; apply (Z4 E2)|by right; right; right; right; left; left|by right; right; right; right; right].
    + intros Hall.
      assert (r2 = 0%Z) as E2.
      { apply Z2. intros Hc. first_of I36. later_than (I1 SFilesystem r1). by apply Hall. }
      assert (forall x, local x = true -> x <> SFilesystem -> x <> SDevfs -> EvInit x 0 ∈ l3 ++ l4 ++ [EvInit SHttpClient r5] ++ l6) as H3.
      { intros x Hx Hf Hd. apply (in_later [SDevfs] x 0 l2); [exact I2|by apply bool_decide_eq_true; intros ?%list_elem_of_singleton|].
        apply (in_later [SFilesystem] x 0 [EvInit SFilesystem r1]); [by apply I1|by apply bool_decide_eq_true; intros ?%list_elem_of_singleton|by apply Hall]. }
      assert (EvInit SHttpClient 0 ∈ [EvInit SHttpClient r5] ++ l6) as H5
        by (later_than I4; later_than I3; by apply H3).
      assert (EvInit SIwasm 0 ∈ [EvInit SHttpClient r5] ++ l6) as H6
        by (later_than I4; later_than I3; by apply H3).
      split_and!; [|exact E2| | |].
      * assert (EvInit SFilesystem 0 ∈ [EvInit SFilesystem r1]) as Hin by (first_of I26; by apply Hall). by apply list_elem_of_singleton in Hin as [= <-].
      * apply (Z3 E2). intros Hc. first_of I46. by apply H3.
      * apply (Z4 E2). intros Hc. first_of I56. later_than I3. by apply H3.
      * apply Z6. split; [|later_than (I1 SHttpClient r5); exact H6].
        assert (EvInit SHttpClient 0 ∈ [EvInit SHttpClient r5]) as Hin by (first_of I6; exact H5). by apply list_elem_of_singleton in Hin as [= <-].
Qed.

(** The initialisations of the local services, in their order, when [rc] is the
    result of the HTTP client and the others are in the record: a driver is
    started only when devfs is up, the WebAssembly runtime only when the HTTP
    client is. *)
Definition local_results (rc : Z) (h : HttpServer.webos_health_status) : list startup_event :=
  [EvInit SFilesystem (HttpServer.filesystem h)]
  ++ (if CONFIG_WEBOS_DEVFS then [EvInit SDevfs (HttpServer.devfs h)] else [])
  ++ (if CONFIG_WEBOS_GPIO && bool_decide (HttpServer.devfs h = 0%Z) then [EvInit SGpio (HttpServer.gpio h)] else [])
  ++ (if CONFIG_WEBOS_RGBLED && bool_decide (HttpServer.devfs h = 0%Z) then [EvInit SLed (HttpServer.led h)] else [])
  ++ [EvInit SHttpClient rc]
  ++ (if decide (rc = 0%Z) then [EvInit SIwasm (HttpServer.iwasm h)] else []).

(** What the record says of the services that were not started. *)
Definition unstarted_results (rc : Z) (h : HttpServer.webos_health_status) : Prop :=
  (CONFIG_WEBOS_DEVFS = false -> HttpServer.devfs h = 0%Z)
  /\ (CONFIG_WEBOS_GPIO = false -> HttpServer.gpio h = 0%Z)
  /\ (CONFIG_WEBOS_GPIO = true -> HttpServer.devfs h <> 0%Z -> HttpServer.gpio h = (- ECANCELED)%Z)
  /\ (CONFIG_WEBOS_RGBLED = false -> HttpServer.led h = 0%Z)
  /\ (CONFIG_WEBOS_RGBLED = true -> HttpServer.devfs h <> 0%Z -> HttpServer.led h = (- ECANCELED)%Z)
  /\ (rc <> 0%Z -> HttpServer.iwasm h = rc).

Lemma init_if_events b x f s :
  adds s (init_if b x f s).2 (if b then [EvInit x (init_if b x f s).1] else []) /\ (b = false -> (init_if b x f s).1 = 0%Z).
Proof. unfold init_if. destruct b; [split; [apply init_adds|done]|]. split; [|done]. unfold adds. by rewrite app_nil_r. Qed.

Lemma init_driver_events b d x f s :
  adds s (init_driver b d x f s).2 (if b && bool_decide (d = 0%Z) then [EvInit x (init_driver b d x f s).1] else [])
  /\ (b = false -> (init_driver b d x f s).1 = 0%Z)
  /\ (b = true -> d <> 0%Z -> (init_driver b d x f s).1 = (- ECANCELED)%Z).
Proof.
  unfold init_driver. destruct b; cbn [andb]; [|unfold adds; rewrite app_nil_r; by split_and!].
  case_decide as Hd; [rewrite bool_decide_true by done; split_and!; [apply init_adds|done|done]|].
  rewrite bool_decide_false by done. unfold adds. rewrite app_nil_r. by split_and!.
Qed.

Lemma local_services_events s :
  exists rc, adds s (local_services s).2 (local_results rc (local_services s).1) /\ unstarted_results rc (local_services s).1.
Proof.
  unfold local_services. pose proof (init_adds SFilesystem filesystem_up s) as A1.
  destruct (init SFilesystem _ s) as [r1 s1]. cbn [fst snd] in A1.
  destruct (init_if_events CONFIG_WEBOS_DEVFS SDevfs devfs_up s1) as [A2 Z2].
  destruct (init_if _ SDevfs _ s1) as [r2 s2]. cbn [fst snd] in A2, Z2.
  destruct (init_driver_events CONFIG_WEBOS_GPIO r2 SGpio gpio_up s2) as (A3 & Z3 & C3).
  destruct (init_driver _ r2 SGpio _ s2) as [r3 s3]. cbn [fst snd] in A3, Z3, C3.
  destruct (init_driver_events CONFIG_WEBOS_RGBLED r2 SLed led_up s3) as (A4 & Z4 & C4).
  destruct (init_driver _ r2 SLed _ s3) as [r4 s4]. cbn [fst snd] in A4, Z4, C4.
  pose proof (init_adds SHttpClient http_client_up s4) as A5. destruct (init SHttpClient _ s4) as [r5 s5]. cbn [fst snd] in A5.
  assert (exists r6 s6, (if decide (r5 = 0%Z) then init SIwasm iwasm_up s5 else (r5, s5)) = (r6, s6)
    /\ adds s5 s6 (if decide (r5 = 0%Z) then [EvInit SIwasm r6] else []) /\ (r5 <> 0%Z -> r6 = r5)) as (r6 & s6 & -> & A6 & Z6).
  { destruct (decide (r5 = 0%Z)) as [Hz|Hz]; [|exists r5, s5; unfold adds; rewrite app_nil_r; by split_and!].
    pose proof (init_adds SIwasm iwasm_up s5) as A. destruct (init SIwasm iwasm_up s5) as [r6 s6]. by exists r6, s6. }
  exists r5. split; [|by split_and!]. unfold adds, local_results in *. cbn [fst snd HttpServer.filesystem HttpServer.devfs HttpServer.gpio HttpServer.led HttpServer.iwasm].
  by rewrite A6, A5, A4, A3, A2, A1, <- !app_assoc.
Qed.

(** C11: main confirms the new firmware image only on a system it has found
    healthy: when the bootloader is told to keep the image, which happens at most
    once, every local service of the build has been initialised before and has
    returned 0 - the file system, devfs, the drivers, the HTTP client and the
    WebAssembly runtime -, whatever the network does later. The services are
    initialised in a fixed order, each at most once, and the record that is
    published holds in each field the result of its service, or 0, -ECANCELED or
    the error of the HTTP client for one that was not started; main returns the
    result of the HTTP server, which it starts last. *)
Theorem image_confirmed_when_healthy s :
  exists before confirm after h,
    events (main s).2 = events s ++ before ++ confirm ++ after
    /\ (confirm = [] \/ exists r, confirm = [EvConfirm r])
    /\ (forall r, EvConfirm r ∉ before ++ after)
    /\ (confirm <> [] -> forall x, local x = true -> EvInit x 0 ∈ before)
    /\ after = [EvInit SWifi (HttpServer.wifi h); EvHealth h; EvInit SHttp (main s).1]
    /\ (local_ok h = true <-> forall x, local x = true -> EvInit x 0 ∈ before)
    /\ (exists ra rc, before = (if CONFIG_WEBOS_ADB then [EvInit SAdb ra] else []) ++ local_results rc h /\ unstarted_results rc h).
Proof.
  unfold main. destruct (init_if_adds CONFIG_WEBOS_ADB SAdb adb_up s) as (l0 & A0 & I0 & _).
  destruct (init_if_events CONFIG_WEBOS_ADB SAdb adb_up s) as [B0 _].
  destruct (init_if _ SAdb _ s) as [r0 s0]. cbn [fst snd] in A0, B0. set (s1 := set_machine _ [] s0).
  destruct (local_services_spec s1) as (l1 & A1 & I1 & Z1). destruct (local_services_events s1) as (rc & B1 & U1).
  destruct (local_services s1) as [h s2]. cbn [fst snd] in A1, Z1, B1, U1.
  pose proof (adds_functional _ _ _ _ A0 B0). pose proof (adds_functional _ _ _ _ A1 B1).
  assert (exists c, adds s2 (confirm_image h s2) c /\ (c = [] \/ exists r, c = [EvConfirm r]) /\ (c <> [] -> local_ok h = true))
    as (c & A2 & Hc & Hh).
  { unfold confirm_image. destruct (local_ok h); [|exists []; unfold adds; rewrite app_nil_r; split_and!; [done|by left|done]].
    case_decide; [|exists []; unfold adds; rewrite app_nil_r; split_and!; [done|by left|done]].
    destruct (boot_write_img_confirmed _) as [r m]. exists [EvConfirm r]. split_and!; [done|right; by exists r|done]. }
  set (s3 := confirm_image h s2) in *. pose proof (init_adds SWifi wifi_up s3) as A3. destruct (init SWifi wifi_up s3) as [w s4].
  cbn [fst snd] in A3. set (h' := HttpServer.Health _ _ _ _ _ w). set (s5 := if CONFIG_WEBOS_SSH then _ else s4).
  set (s6 := set_machine _ [EvHealth h'] s5). pose proof (init_adds SHttp http_up s6) as A6.
  destruct (init SHttp http_up s6) as [ret s7]. cbn [fst snd] in *.
  assert (events s5 = events s4) as E5 by (subst s5; destruct CONFIG_WEBOS_SSH; cbn; by rewrite ?app_nil_r).
  assert (forall x, local x = true -> EvInit x 0 ∈ l0 ++ l1 <-> EvInit x 0 ∈ l1) as Hl.
  { intros x Hx. rewrite elem_of_app. split; [intros [Hin|]; [|done]|by right].
    destruct (inits_of_other _ _ x 0%Z I0 ltac:(intros ->%list_elem_of_singleton; done) Hin). }
  assert (inits_of ([SAdb] ++ LOCAL) (l0 ++ l1)) as I01 by by apply inits_of_app.
  assert (local_ok h = true <-> forall x, local x = true -> EvInit x 0 ∈ l0 ++ l1) as Hok.
  { rewrite Z1. split; intros Hall x Hx; apply Hl; auto. }
  exists (l0 ++ l1), c, [EvInit SWifi w; EvHealth h'; EvInit SHttp ret], h'. split_and!.
  - unfold adds in *. rewrite A6. subst s6. cbn [events set_machine]. rewrite E5, A3, A2, A1. subst s1. cbn [events set_machine].
    by rewrite A0, app_nil_r, <- !app_assoc.
  - done.
  - intros r. rewrite elem_of_app, !elem_of_cons, elem_of_nil. intros [Hin|Hin]; [|naive_solver].
    unfold inits_of in I01. rewrite Forall_forall in I01. destruct (I01 _ Hin) as (x & z & ? & _). done.
  - intros Hne. apply Hok. by apply Hh.
  - done.
  - exact Hok.
  - exists r0, rc. by subst l0 l1.
Qed.
End startup.
End Startup.
