(* ===== verification/Composed.v ===== *)
(** * The composed system

    The interface of main, Startup.v, built from the models of the services, over any
    hardware and libraries.  There is one file system, one HTTP client and one device
    tree: those the host functions of applications use.  The drivers register on the
    device tree with the state of their hardware. *)

From S2P Require Import Prelude CLib AppContext Devfs DevfsPart Gpio RgbLed AppFs FileService DeviceFs HttpClient HttpServer WasmMemory WasmHost WasmHeap WasmExec Wifi Startup.
From Stdlib Require Import ZArith Lia.
From Stdlib Require Import Strings.Byte.
From stdpp Require Import base numbers list list_numbers strings gmap.

(** What is left of the board: the bootloader, the USB device and the HTTP server
    library, of which main sees the results only; and which of the nodes and names the
    registrations ask for they are given. *)
Class Board := {
  ext : Type;
  ext_adb : ext -> Z * ext;
  ext_ota : ext -> ext;
  ext_swap_type : ext -> Z;
  ext_confirm : ext -> Z * ext;
  http_server_start : ext -> Z * ext;
  gpio_allocs : nat -> nat -> bool;
  led_allocs : nat -> nat -> bool;
}.

Module Composed.
Section composed.
Context {M : AppMemory} {F : AppFs} {K : KernelHeap} {L : HttpLimits} {P : UrlParser} {N : NetStack}.
Context {H : SharedHeap} {W : Wamr} {V : Vfs} {SL : SshLib} {WC : WifiConfig} {WS : WifiStack} {Bd : Board}.
Context {cfg : DevfsConfig} {B : Type} {C : DeviceClock B} {D : MountedDevfs B F}.
Context {GH : GpioHw} {GP : Part B Gpio.world} {LH : LedHw} {LP : Part B RgbLed.world}.

Record machine := Machine {
  file_ops : list FileService.fs_op;
  iwasm_part : WasmExec.iwasm;
  wifi_part : Wifi.wifi;
  vfs_part : vfs;
  ssh_part : sshlib;
  health_status : HttpServer.webos_health_status;
  ext_part : ext;
}.

Definition the_host (m : machine) : WasmHost.host := WasmExec.sys (iwasm_part m).
Definition the_files (m : machine) : appfs := WasmHost.host_fs (the_host m).

Definition set_iwasm (x : WasmExec.iwasm) (m : machine) : machine :=
  Machine (file_ops m) x (wifi_part m) (vfs_part m) (ssh_part m) (health_status m) (ext_part m).
Definition set_host (h : WasmHost.host) (m : machine) : machine := set_iwasm (WasmExec.set_sys h [] (iwasm_part m)) m.
Definition set_the_files (f : appfs) (m : machine) : machine := set_host (WasmHost.set_host_fs f [] (the_host m)) m.
Definition set_wifi (x : Wifi.wifi) (m : machine) : machine :=
  Machine (file_ops m) (iwasm_part m) x (vfs_part m) (ssh_part m) (health_status m) (ext_part m).
Definition set_vfs (x : vfs) (m : machine) : machine :=
  Machine (file_ops m) (iwasm_part m) (wifi_part m) x (ssh_part m) (health_status m) (ext_part m).
Definition set_sshlib (x : sshlib) (m : machine) : machine :=
  Machine (file_ops m) (iwasm_part m) (wifi_part m) (vfs_part m) x (health_status m) (ext_part m).
Definition webos_health_set (x : HttpServer.webos_health_status) (m : machine) : machine :=
  Machine (file_ops m) (iwasm_part m) (wifi_part m) (vfs_part m) (ssh_part m) x (ext_part m).
Definition set_ext (x : ext) (m : machine) : machine :=
  Machine (file_ops m) (iwasm_part m) (wifi_part m) (vfs_part m) (ssh_part m) (health_status m) x.

(** The files of the file service, with its history. *)
Definition files_part (m : machine) : FileService.world := FileService.World (the_files m) (file_ops m).
Definition set_files (w : FileService.world) (m : machine) : machine :=
  let m := set_the_files (FileService.fs w) m in
  Machine (FileService.ops w) (iwasm_part m) (wifi_part m) (vfs_part m) (ssh_part m) (health_status m) (ext_part m).

Definition client_part (m : machine) : HttpClient.client := WasmHost.http (the_host m).
Definition set_client (c : HttpClient.client) (m : machine) : machine := set_host (WasmHost.set_http c [] (the_host m)) m.

(** The device tree and the drivers. *)
Definition devices_part (m : machine) : Tree.devfs (W := B) * B := devices (the_files m).
Definition set_devices_part (d : Tree.devfs (W := B) * B) (m : machine) : machine := set_the_files (set_devices d (the_files m)) m.

(** An operation of a part. *)
Definition on {A : Type} (get : machine -> A) (set : A -> machine -> machine) (f : A -> Z * A) (m : machine) : Z * machine :=
  let '(r, x) := f (get m) in (r, set x m).

Definition register_gpios (d : Tree.devfs (W := B) * B) : Z * (Tree.devfs (W := B) * B) :=
  let '(s, w) := d in
  let '(ret, h) := Gpio.webos_gpio_register_devfs gpio_allocs (Gpio.webos_gpios (part w)) (Tree.nodes s) in
  (ret, (Tree.Devfs h (Tree.files s) (Tree.dirs s), w)).

Definition register_leds (d : Tree.devfs (W := B) * B) : Z * (Tree.devfs (W := B) * B) :=
  let '(s, w) := d in
  let '(ret, h, w) := RgbLed.webos_rgbled_register_devfs led_allocs (Tree.nodes s) w in
  (ret, (Tree.Devfs h (Tree.files s) (Tree.dirs s), w)).

Definition start_ssh (m : machine) : machine :=
  let '(f, x) := Ssh.ssh_service_start (the_files m) (ssh_part m) in set_sshlib x (set_the_files f m).

Definition webos_http_init (x : ext) : Z * ext := http_server_start x.

#[global] Instance composed : Services := {|
  board := machine;
  adb_up := on ext_part set_ext ext_adb;
  ota_up m := set_ext (ext_ota (ext_part m)) m;
  filesystem_up := on files_part set_files FileService.init_filesystem_layout;
  devfs_up := on vfs_part set_vfs DevfsMount.devfs_register;
  gpio_up := on devices_part set_devices_part register_gpios;
  led_up := on devices_part set_devices_part register_leds;
  http_client_up := on client_part set_client HttpClient.webos_http_client_init;
  iwasm_up := on iwasm_part set_iwasm WasmExec.iwasm_init;
  mcuboot_swap_type m := ext_swap_type (ext_part m);
  boot_write_img_confirmed := on ext_part set_ext ext_confirm;
  wifi_up := on wifi_part set_wifi Wifi.connect_wifi;
  ssh_up := start_ssh;
  set_health := webos_health_set;
  http_up := on ext_part set_ext webos_http_init;
|}.
End composed.
End Composed.
