(* ===== verification/ComposedSpec.v ===== *)
(** * The devices after start-up

    main brings up the device files: what it publishes about the drivers is true of
    the device tree applications find. *)

From S2P Require Import Prelude CLib AppContext Devfs DevfsSpec DevfsState DevfsPart DevfsAccess Gpio RgbLed RgbLedSpec DeviceTree AppFs FileService DeviceFs HttpClient HttpServer WasmMemory WasmHost DeviceHost AppLogic DriverSteps SampleAppsSpec WasmHeap WasmExec Wifi Startup Composed.
From Stdlib Require Import ZArith Lia.
From Stdlib Require Import Strings.Byte.
From stdpp Require Import base numbers list list_numbers strings gmap.

(** ** A part of the board through main

    [dev] is what the drivers work on, [pub] the published record: other services keep
    them, the file system keeps at least [Q] of [dev]. *)

Module StartupParts.
Import Startup.
Section parts.
Context {BC : BuildConfig} {S : Services} {T : Type} (dev : board -> T) (pub : board -> HttpServer.webos_health_status) (Q : T -> Prop).

Definition keeps_dev (f : board -> Z * board) : Prop := forall m, dev (f m).2 = dev m.

Class Frame := {
  frame_adb : keeps_dev adb_up;
  frame_ota m : dev (ota_up m) = dev m;
  frame_files m : Q (dev m) -> Q (dev (filesystem_up m).2);
  frame_devfs : keeps_dev devfs_up;
  frame_client : keeps_dev http_client_up;
  frame_iwasm : keeps_dev iwasm_up;
  frame_confirm : keeps_dev boot_write_img_confirmed;
  frame_wifi : keeps_dev wifi_up;
  frame_ssh m : dev (ssh_up m) = dev m;
  frame_health h m : dev (set_health h m) = dev m /\ pub (set_health h m) = h;
  frame_http m : dev (http_up m).2 = dev m /\ pub (http_up m).2 = pub m;
}.

Context {FR : Frame}.
Implicit Types s : system.

Lemma init_dev x f s : keeps_dev f -> dev (machine (init x f s).2) = dev (machine s).
Proof. intros Hf. unfold init. specialize (Hf (machine s)). by destruct (f (machine s)). Qed.

Lemma init_if_dev b x f s : keeps_dev f -> dev (machine (init_if b x f s).2) = dev (machine s).
Proof. intros Hf. unfold init_if. destruct b; [by apply init_dev|done]. Qed.

(** A driver whose result is 0 was initialised. *)
Lemma init_driver_up d x f s r s' :
  init_driver true d x f s = (r, s') -> r = 0%Z -> (f (machine s)).1 = 0%Z /\ machine s' = (f (machine s)).2.
Proof.
  unfold init_driver, init. case_decide; [|by intros [= <- <-]]. destruct (f (machine s)) as [r' m]. intros [= <- <-] Hr. done.
Qed.

Lemma local_dev s h s' :
  CONFIG_WEBOS_GPIO = true -> CONFIG_WEBOS_RGBLED = true -> local_services s = (h, s') -> Q (dev (machine s)) ->
  HttpServer.gpio h = 0%Z -> HttpServer.led h = 0%Z ->
  exists m, Q (dev m) /\ (gpio_up m).1 = 0%Z /\ (led_up (gpio_up m).2).1 = 0%Z /\ dev (machine s') = dev (led_up (gpio_up m).2).2.
Proof.
  intros Hg Hl E HQ. unfold local_services in E. rewrite Hg, Hl in E.
  assert (Q (dev (machine (init SFilesystem filesystem_up s).2))) as H1.
  { unfold init. pose proof (frame_files (machine s) HQ) as H. by destruct (filesystem_up (machine s)). }
  destruct (init SFilesystem filesystem_up s) as [r1 s1]. cbn [snd] in H1.
  pose proof (init_if_dev CONFIG_WEBOS_DEVFS SDevfs devfs_up s1 frame_devfs) as H2. destruct (init_if _ SDevfs _ s1) as [r2 s2]. cbn [snd] in H2.
  destruct (init_driver true r2 SGpio gpio_up s2) as [r3 s3] eqn:E3. destruct (init_driver true r2 SLed led_up s3) as [r4 s4] eqn:E4.
  pose proof (init_dev SHttpClient http_client_up s4 frame_client) as H5. destruct (init SHttpClient _ s4) as [r5 s5]. cbn [snd] in H5.
  assert (dev (machine (if decide (r5 = 0%Z) then init SIwasm iwasm_up s5 else (r5, s5)).2) = dev (machine s5)) as H6
    by (case_decide; [apply init_dev, frame_iwasm|done]).
  destruct (if decide (r5 = 0%Z) then _ else _) as [r6 s6]. cbn [snd] in H6. injection E as <- <-. cbn [HttpServer.gpio HttpServer.led].
  intros -> ->. destruct (init_driver_up _ _ _ _ _ _ E3 eq_refl) as [G1 G2]. destruct (init_driver_up _ _ _ _ _ _ E4 eq_refl) as [L1 L2].
  exists (machine s2). rewrite H2, <- G2. split_and!; [done..|]. by rewrite H6, H5, L2.
Qed.

(** What main publishes about the drivers is true of what it leaves. *)
Lemma main_dev s :
  CONFIG_WEBOS_GPIO = true -> CONFIG_WEBOS_RGBLED = true -> Q (dev (machine s)) ->
  let m' := machine (main s).2 in
  HttpServer.gpio (pub m') = 0%Z -> HttpServer.led (pub m') = 0%Z ->
  exists m, Q (dev m) /\ (gpio_up m).1 = 0%Z /\ (led_up (gpio_up m).2).1 = 0%Z /\ dev m' = dev (led_up (gpio_up m).2).2.
Proof.
  intros Hg Hl HQ. unfold main. pose proof (init_if_dev CONFIG_WEBOS_ADB SAdb adb_up s frame_adb) as H0.
  destruct (init_if _ SAdb _ s) as [r0 s0]. cbn [snd] in H0. set (s1 := set_machine _ [] s0).
  assert (Q (dev (machine s1))) as H1 by (cbn; by rewrite frame_ota, H0).
  destruct (local_services s1) as [h s2] eqn:E. pose proof (local_dev s1 h s2 Hg Hl E H1) as Hlocal.
  assert (dev (machine (confirm_image h s2)) = dev (machine s2)) as H3.
  { unfold confirm_image. destruct (local_ok h); [|done]. case_decide; [|done].
    pose proof (frame_confirm (machine s2)) as Hc. by destruct (boot_write_img_confirmed (machine s2)). }
  set (s3 := confirm_image h s2) in *. pose proof (init_dev SWifi wifi_up s3 frame_wifi) as H4. destruct (init SWifi wifi_up s3) as [w s4].
  cbn [snd] in H4. set (h' := HttpServer.Health _ _ _ _ _ w). set (s5 := if CONFIG_WEBOS_SSH then _ else s4).
  assert (dev (machine s5) = dev (machine s4)) as H5 by (subst s5; destruct CONFIG_WEBOS_SSH; [cbn; apply frame_ssh|done]).
  set (s6 := set_machine _ [EvHealth h'] s5). unfold init. destruct (frame_health h' (machine s5)) as [H6 P6].
  destruct (frame_http (machine s6)) as [H7 P7]. destruct (http_up (machine s6)) as [ret m7]. cbn [snd set_machine machine] in *.
  change (machine s6) with (set_health h' (machine s5)) in *. rewrite P7, P6, H7, H6, H5, H4, H3. exact Hlocal.
Qed.
End parts.
End StartupParts.

(** ** The composed system *)

Module ComposedSpec.
Import Startup StartupParts Composed DeviceTree SampleAppsSpec.

Section files.
Context {F : AppFs} {cfg : DevfsConfig} {B : Type} {C : DeviceClock B} {D : MountedDevfs B F} {SA : StorageApart D}.
Context (Q : Tree.devfs (W := B) * B -> Prop) (HQ : forall t w ms, Q (t, w) -> Q (t, time_passes ms w)).

Lemma ensure_dir_devices p w : is_device p = false -> devices (FileService.fs (FileService.ensure_dir p w).2) = devices (FileService.fs w).
Proof.
  intros Hp. unfold FileService.ensure_dir. case_decide; [done|]. pose proof (storage_mkdir p (FileService.fs w) Hp) as Hk.
  by destruct (fs_mkdir p (FileService.fs w)).
Qed.

Lemma ensure_all_devices l e w :
  Forall (fun p => is_device p = false) l -> devices (FileService.fs (FileService.ensure_all l e w).2) = devices (FileService.fs w).
Proof.
  intros Hl. revert e w. induction Hl as [|p l Hp _ IH]; intros e w; cbn; [done|]. pose proof (ensure_dir_devices p w Hp) as Hk.
  destruct (FileService.ensure_dir p w) as [r w']. by rewrite IH.
Qed.

Lemma wait_mounted_devices n w : Q (devices (FileService.fs w)) -> Q (devices (FileService.fs (FileService.wait_mounted n w).2)).
Proof.
  revert w. induction n as [|n IH]; intros w Hw; [done|]. cbn [FileService.wait_mounted]. case_decide; [done|].
  assert (Q (devices (FileService.fs (FileService.set_fs (fs_wait 500 (FileService.fs w)) [] w)))) as Hk.
  { cbn. rewrite device_wait. apply HQ. by destruct (devices (FileService.fs w)). }
  destruct n; [exact Hk|by apply IH].
Qed.

Lemma layout_devices w : Q (devices (FileService.fs w)) -> Q (devices (FileService.fs (FileService.init_filesystem_layout w).2)).
Proof.
  intros Hw. unfold FileService.init_filesystem_layout. pose proof (wait_mounted_devices 20 w Hw) as Hk.
  destruct (FileService.wait_mounted 20 w) as [r w']. case_decide; [done|]. rewrite ensure_all_devices; [done|].
  repeat constructor.
Qed.

Lemma ssh_devices {SL : SshLib} f s : devices (Ssh.ssh_service_start f s).1 = devices f.
Proof.
  assert (devices (Ssh.read_file_bin Ssh.ssh_host_key_path Ssh.KEY_BUF f).2 = devices f) as Hk.
  { unfold Ssh.read_file_bin. destruct (storage_open FS_O_READ Ssh.ssh_host_key_path f eq_refl) as [Ho Hh].
    destruct (fs_open _ _ f) as [[r h] f1]. cbn [fst snd] in *. case_decide; [done|].
    destruct (storage_read h Ssh.KEY_BUF f1 Hh) as [Hr Hh2]. destruct (fs_read h _ f1) as [[[r2 d] h2] f2]. cbn [fst snd] in *.
    pose proof (storage_close h2 f2 Hh2) as Hc. destruct (fs_close h2 f2) as [r3 f3]. cbn [snd] in *. congruence. }
  unfold Ssh.ssh_service_start. destruct (Ssh.read_file_bin _ _ f) as [[r key] f1]. cbn [snd] in Hk.
  repeat (case_decide; [done|]). destruct (ssh_keygen_import key s) as [r2 s2]. case_decide; [done|]. by destruct (negb _).
Qed.
End files.

Section composed.
Context {M : AppMemory} {F : AppFs} {K : KernelHeap} {L : HttpLimits} {P : UrlParser} {N : NetStack}.
Context {SH : SharedHeap} {W : Wamr} {V : Vfs} {SL : SshLib} {WC : WifiConfig} {WS : WifiStack} {Bd : Board} {BC : BuildConfig}.
Context {cfg : DevfsConfig} {B : Type} {C : DeviceClock B} {D : MountedDevfs B F} {SA : StorageApart D}.
Context {GH : GpioHw} {GW : GpioWorks GH} {GP : Part B Gpio.world} {LH : LedHw} {LW : LedWorks LH} {LP : Part B RgbLed.world}.
Context {SP : Separate B Gpio.world RgbLed.world GP LP}.
Context {GC : PartClock B Gpio.world gpio_passes} {LC : PartClock B RgbLed.world led_passes}.
Context (Hmax : 32 <= WEBOS_DEVFS_MAX_PATH_LEN).

(** The devices before the drivers register. *)
Definition unregistered (devs : list Gpio.webos_gpio_dev) (leds : list RgbLed.webos_rgbled_dev) (d : Tree.devfs (W := B) * B) : Prop :=
  d.1 = Tree.initial /\ Gpio.webos_gpios (part d.2) = devs /\ RgbLed.webos_rgbleds (part d.2) = leds.

Lemma on_other {A : Type} (get : machine -> A) (set : A -> machine -> machine) f m :
  (forall x m', devices_part (set x m') = devices_part m') -> devices_part (on get set f m).2 = devices_part m.
Proof. intros Hs. unfold on. destruct (f (get m)). apply Hs. Qed.

Lemma iwasm_init_sys s : WasmExec.sys (WasmExec.iwasm_init s).2 = WasmExec.sys s.
Proof. unfold WasmExec.iwasm_init. destruct (wasm_runtime_full_init _) as [ok r]. by destruct ok. Qed.

#[local] Instance composed_frame devs leds : Frame (S := composed) devices_part health_status (unregistered devs leds).
Proof.
  split; try (intros m; by apply on_other); try done.
  - intros m [Ht [Hg Hl]]. cbn. unfold on. pose proof (layout_devices (unregistered devs leds)) as HL.
    specialize (HL ltac:(intros t w ms (E & Eg & El); split_and!; cbn in *; [done|by rewrite part_passes|by rewrite part_passes])
      (files_part m) ltac:(by split_and!)). by destruct (FileService.init_filesystem_layout (files_part m)).
  - intros m. cbn. unfold on. pose proof (iwasm_init_sys (iwasm_part m)) as Hs. destruct (WasmExec.iwasm_init _) as [r x].
    cbn in *. unfold devices_part, the_files, the_host. cbn. by rewrite Hs.
  - intros m. cbn. unfold start_ssh. pose proof (ssh_devices (the_files m) (ssh_part m)) as Hs. destruct (Ssh.ssh_service_start _ _) as [f x].
    exact Hs.
  - intros m. cbn. unfold on. by destruct (webos_http_init (ext_part m)).
Qed.

(** The registration of the LEDs shows their colours and changes nothing else. *)
Lemma led_loop_parts allocs i devs h w r h' w' :
  RgbLed.register_loop allocs i devs h w = (r, h', w') ->
  RgbLed.webos_rgbleds (part w') = RgbLed.webos_rgbleds (part w) /\ part (Part := GP) w' = part w.
Proof.
  revert i h w. induction devs as [|d devs IH]; intros i h w; cbn [RgbLed.register_loop]; [by intros [= <- <- <-]|].
  destruct (Tree.devfs_register_file _ _ _ _ _) as [r1 h1]. case_decide; [by intros [= <- <- <-]|].
  assert (RgbLed.webos_rgbleds (part (on_part (RgbLed.webos_rgbled_show i) w).2) = RgbLed.webos_rgbleds (part w)
    /\ part (Part := GP) (on_part (RgbLed.webos_rgbled_show i) w).2 = part w) as [H1 H2].
  { unfold on_part. pose proof (RgbLedSpec.show_leds i (part w)) as Hs. destruct (RgbLed.webos_rgbled_show i (part w)) as [r2 a]. cbn [snd] in *.
    rewrite part_with. split; [exact Hs|apply other_right]. }
  destruct (on_part _ w) as [r2 w2]. cbn [snd] in *. case_decide; [by intros [= <- <- <-]|]. intros E.
  destruct (IH _ _ _ E) as [H3 H4]. by rewrite H3, H4.
Qed.

(** Both drivers on the devices they find. *)
Lemma drivers_up m devs leds :
  unregistered devs leds (devices_part m) -> (gpio_up m).1 = 0%Z -> (led_up (gpio_up m).2).1 = 0%Z ->
  exists h1 h2 w w', devices_part (led_up (gpio_up m).2).2 = (Tree.Devfs h2 ∅ ∅, w')
    /\ Gpio.webos_gpio_register_devfs gpio_allocs devs Tree.initial_heap = (0%Z, h1)
    /\ RgbLed.webos_rgbled_register_devfs led_allocs h1 w = (0%Z, h2, w')
    /\ RgbLed.webos_rgbleds (part w) = leds /\ Gpio.webos_gpios (part w') = devs /\ RgbLed.webos_rgbleds (part w') = leds.
Proof.
  intros (Ht & Hg & Hl). cbn. unfold on. destruct (devices_part m) as [t w] eqn:Em. cbn [fst snd] in *. subst t. unfold register_gpios.
  rewrite Hg. cbn [Tree.initial Tree.nodes Tree.files Tree.dirs]. destruct (Gpio.webos_gpio_register_devfs _ devs _) as [r1 h1] eqn:E1.
  cbn [fst snd]. intros ->. assert (forall d m', devices_part (set_devices_part d m') = d) as Hset by (intros d m'; apply devices_set).
  rewrite Hset. unfold register_leds. cbn [Tree.nodes Tree.files Tree.dirs].
  destruct (RgbLed.webos_rgbled_register_devfs _ h1 w) as [[r2 h2] w'] eqn:E2. cbn [fst snd]. intros ->.
  destruct (led_loop_parts _ _ _ _ _ _ _ _ E2) as [H1 H2]. exists h1, h2, w, w'. rewrite Hset. split_and!; [done..| |]; congruence.
Qed.

(** C17: start-up brings up the devices.  Whatever the rest of the board does, when main
    ends with a health record that has 0 for the GPIOs and the LEDs - those applications
    and the web interface are shown -, the file system of the applications has exactly
    the files of all of them below /dev, each leading to the driver and the data of its
    device, no two devices have the same pin, devfs is in a state it can reach, and an
    application in any context finds the board that the theorems about applications
    start from. *)
Theorem start_up_brings_devices s devs leds :
  CONFIG_WEBOS_GPIO = true -> CONFIG_WEBOS_RGBLED = true ->
  unregistered devs leds (devices_part (Startup.machine s)) -> pins_ok Gpio.pin devs -> pins_ok RgbLed.webos_pin leds ->
  HttpServer.gpio (health_status (Startup.machine (main s).2)) = 0%Z -> HttpServer.led (health_status (Startup.machine (main s).2)) = 0%Z ->
  exists tree w, devices_part (Startup.machine (main s).2) = (Tree.Devfs tree ∅ ∅, w) /\ DevfsState.inv (Tree.Devfs tree ∅ ∅)
    /\ NoDup (Gpio.pin <$> devs) /\ NoDup (RgbLed.webos_pin <$> leds)
    /\ (forall a o ud, file_entry tree a o ud <-> gpio_file 0 devs a o ud \/ led_file 0 leds a o ud)
    /\ (forall i d t, devs !! i = Some d ->
          DevfsAccess.device_at (Tree.Devfs tree ∅ ∅) (gpio_path (Gpio.pin d) t) (lift_ops Gpio.webos_gpio_ops) (Gpio.def_addr i t))
    /\ (forall i d, leds !! i = Some d ->
          DevfsAccess.device_at (Tree.Devfs tree ∅ ∅) (led_color_path (RgbLed.webos_pin d)) (lift_ops RgbLed.webos_rgbled_ops) (RgbLed.led_addr i))
    /\ (forall c, started c devs leds (WasmHost.set_context (Some c) (the_host (Startup.machine (main s).2)))).
Proof.
  intros Hcg Hcl Hs Hp Hlp Hg Hl. destruct (main_dev (S := composed) devices_part health_status (unregistered devs leds) s Hcg Hcl Hs Hg Hl) as (m & Hm & G & L1 & E).
  destruct (drivers_up m devs leds Hm G L1) as (h1 & h2 & w & w' & E2 & E3 & E4 & El & Eg' & El'). rewrite E2 in E.
  pose proof Hlp as Hlp2. rewrite <- El in Hlp2.
  destruct (tree_of_registrations Hmax gpio_allocs led_allocs devs w h1 h2 w' Hp Hlp2 E3 E4) as (Hi & Hnd & Hnd' & Hf). rewrite El in Hnd', Hf.
  exists h2, w'. split_and!; [done..| | |].
  - intros i d t Hd. eapply gpio_opens; [done..|]. intros a o ud Ho. apply Hf. by left.
  - intros i d Hd. eapply (led_opens Hmax _ leds); [done..|]. intros a o ud Ho. apply Hf. by right.
  - intros c. assert (forall h, devices (WasmHost.host_fs h) = (Tree.Devfs h2 ∅ ∅, w') -> DeviceHost.device_tree h = Tree.Devfs h2 ∅ ∅ /\ DeviceHost.board h = w')
      as Hdev by (intros h Hh; unfold DeviceHost.device_tree, DeviceHost.board; by rewrite Hh).
    destruct (Hdev (WasmHost.set_context (Some c) (the_host (Startup.machine (main s).2))) E) as [T1 T2]. split; rewrite ?T1, ?T2; try done.
    by exists gpio_allocs, led_allocs, w, h1.
Qed.
End composed.
End ComposedSpec.
