(* ===== verification/StartupDemo.v ===== *)
(** * The composed system, started

    Two starts of the composed system of Composed.v on a small board, evaluated: a
    healthy one, which confirms the image and after which an application drives a pin,
    and one without a file system, which does not confirm it. *)

From S2P Require Import Prelude CLib AppContext Devfs DevfsPart DevfsAccess Gpio RgbLed DeviceTree AppFs FileService DeviceFs HttpClient HttpClientSpec HttpServer WasmMemory WasmHost DeviceHost SampleApps AppLogic SampleAppsSpec WasmHeap SharedHeapDemo WasmExec WasmExecSpec WasmDemo SampleDemo Wifi Startup Composed ComposedSpec.
From Stdlib Require Import ZArith Lia.
From Stdlib Require Import Strings.Byte.
From stdpp Require Import base numbers list list_numbers strings gmap.

(** ** Two starts *)

Module StartupDemo.
Import Startup.

#[local] Existing Instances SampleDemo.demo_config SampleDemo.pins SampleDemo.strips SampleDemo.pins_work SampleDemo.strips_work.
#[local] Existing Instances SampleDemo.gpio_part SampleDemo.led_part SampleDemo.board_clock SampleDemo.gpio_clock SampleDemo.led_clock.
#[local] Existing Instances SampleDemo.board_files DeviceFs.device_fs_mounted DeviceFs.device_fs_apart DeviceFs.device_fs_handles.

#[local] Instance demo_build : BuildConfig :=
  {| CONFIG_WEBOS_ADB := true; CONFIG_WEBOS_DEVFS := true; CONFIG_WEBOS_GPIO := true; CONFIG_WEBOS_RGBLED := true; CONFIG_WEBOS_SSH := true |}.
#[local] Existing Instances WifiDemo.demo_config WifiDemo.demo_stack.
#[local] Instance demo_vfs : Vfs := {|
  vfs := unit; fs_register s := (0%Z, s); fs_unregister s := (0%Z, s); fs_mount s := (0%Z, s); fs_unmount s := (0%Z, s) |}.
#[local] Instance demo_ssh : SshLib := {|
  sshlib := list byte; ssh_keygen_import k _ := (0%Z, k); ssh_server_instance _ := true; ssh_server_start s := (0%Z, s) |}.
#[local] Instance demo_board : Board := {|
  ext := unit; ext_adb s := (0%Z, s); ext_ota s := s; gpio_allocs := SampleDemo.always; led_allocs := SampleDemo.always;
  ext_swap_type _ := BOOT_SWAP_TYPE_REVERT; ext_confirm s := (0%Z, s); http_server_start s := (0%Z, s) |}.

#[local] Instance demo_services : Services := Composed.composed (F := SampleDemo.board_files) (B := SampleDemo.board_state).

(** The files, with the pins and strips of SampleDemo.v not yet registered. *)
Definition demo_files (mounted : bool) : @appfs SampleDemo.board_files :=
  DeviceFs.Board MemFs.mem Tree.initial SampleDemo.demo_drivers
    (MemFs.Mem (if mounted then [cs "/STORAGE:"] else []) {[Ssh.ssh_host_key_path := cs "key"]} 64).

Definition demo_runtime_host (mounted : bool) : WasmHost.host (F := SampleDemo.board_files) :=
  WasmHost.Host SampleDemo.demo_image None (demo_files mounted) 5000%Z HttpClientSpec.demo_client 0 [].

Definition demo_machine (mounted : bool) : system :=
  System (Composed.Machine [] (WasmExec.Iwasm false None WasmDemo.demo_runtime (demo_runtime_host mounted) [] [])
    (WifiDemo.demo_start WifiDemo.demo_good) tt ([] : sshlib) (HttpServer.Health 0 0 0 0 0 0) tt : board) [].

Definition confirmed (s : system) : bool := existsb (fun e => match e with EvConfirm _ => true | _ => false end) (events s).

Example demo_healthy :
  (main (demo_machine true)).1 = 0%Z /\ confirmed (main (demo_machine true)).2 = true
  /\ Composed.ssh_part (machine (main (demo_machine true)).2) = cs "key".
Proof. vm_compute. done. Qed.

(** Without the file system the system comes up but the image is not confirmed. *)
Example demo_degraded :
  (main (demo_machine false)).1 = 0%Z /\ confirmed (main (demo_machine false)).2 = false.
Proof. vm_compute. done. Qed.

Lemma image_confirmed_when_healthy_witness :
  confirmed (main (demo_machine true)).2 = true
  /\ exists before confirm after h, events (main (demo_machine true)).2 = before ++ confirm ++ after
      /\ (confirm <> [] -> forall x, local x = true -> EvInit x 0 ∈ before)
      /\ exists ra rc, before = [EvInit SAdb ra] ++ local_results rc h /\ unstarted_results rc h.
Proof.
  split; [vm_compute; reflexivity|].
  destruct (image_confirmed_when_healthy (demo_machine true)) as (b & c & a & h & E & _ & _ & Hc & _ & _ & Hb).
  exists b, c, a, h. split; [exact E|]. split; [exact Hc|exact Hb].
Defined.

(** ** Start-up, and an application *)

(** The host of the board after a start, for an application in the development
    context. *)
Definition started_host : WasmHost.host (F := SampleDemo.board_files) :=
  WasmHost.set_context (Some WasmExecSpec.development) (Composed.the_host (machine (main (demo_machine true)).2)).

Lemma start_up_brings_devices_witness :
  Composed.health_status (machine (main (demo_machine true)).2) = HttpServer.Health 0 0 0 0 0 0
  /\ SampleAppsSpec.started WasmExecSpec.development SampleDemo.demo_pins SampleDemo.demo_leds started_host.
Proof.
  split; [vm_compute; reflexivity|].
  destruct (ComposedSpec.start_up_brings_devices ltac:(apply Nat.leb_le; reflexivity) (demo_machine true) SampleDemo.demo_pins SampleDemo.demo_leds)
    as (tree & w & _ & _ & _ & _ & _ & _ & _ & Hs).
  - reflexivity.
  - reflexivity.
  - by split_and!.
  - apply SampleDemo.demo_pins_ok.
  - apply SampleDemo.demo_pins_ok.
  - vm_compute. reflexivity.
  - vm_compute. reflexivity.
  - exact (Hs WasmExecSpec.development).
Defined.

(** blink, run on the board that has just started: the text it reads back and logs is
    the level it has written last, and the pin was configured and set. *)
Example demo_blink_after_start :
  let h := (WasmHost.run SampleDemo.demo_blink started_host).2 in
  DeviceHost.messages (WasmHost.events h) = SampleAppsSpec.blink_log
  /\ length (Gpio.hw (part (DeviceHost.board (C := SampleDemo.board_clock) h))) = 60.
Proof. vm_compute. done. Qed.
End StartupDemo.
